(* ===== verification/_CoqProject ===== *)
-Q . S2P
Prelude.v
SafeExec.v
Field.v
Poseidon2.v
Privacy.v
Sdk.v
HashModel.v
Merkle.v
Indexed.v
Debt.v
Curve.v
Orchard.v
ZkModel.v
ZkWitnesses.v
ShieldedTypes.v
HostModel.v
ShieldedParams.v
ShieldedBundle.v
ShieldedStore.v
ShieldedNotes.v
ShieldedPrivate.v
ShieldedAnte.v
ShieldedInv.v
ShieldedEffects.v
ShieldedMsg.v
ShieldedRoots.v
ShieldedChain.v
ShieldedGenesis.v
ShieldedExport.v
ShieldedTx.v
ShieldedKeeper.v
ShieldedDemo.v
ShieldedWitnesses.v
EarthTypes.v
DexTypes.v
World.v
Earth.v
DexAmm.v
DexKeeper.v
DexRewards.v
DexSolvency.v
DexInv.v
DexSwap.v
DexLiquidity.v
DexUnbonding.v
DexAuction.v
DexPolBurn.v
DexSweeps.v
DexNotes.v
DexMsgs.v
DexEndBlock.v
DexChain.v
KeyOrder.v
AllocTypes.v
Alloc.v
AllocMsgs.v
AllocInv.v
AllocEngine.v
AllocEmission.v
AllocVotes.v
AllocLease.v
AllocOps.v
AllocOptions.v
AllocBlocks.v
AllocEndBlock.v
AllocChain.v
AllocProperties.v
DexGenesis.v
DexImport.v
DexExport.v
AllocGenesis.v
AllocImport.v
AllocExport.v
Demo.v
Witnesses.v
DexWitnesses.v
AllocWitnesses.v
