(* ===== verification/Prelude.v ===== *)
(** * Earth chain: verification library

    The Earth chain is a Cosmos-SDK application ([src/app]) of its own modules ([src/x]) over zero-knowledge
    primitives ([src/zk]).  This library models the Go code of those modules as executable functions over
    explicit state, and proves what makes them correct.

    ** The program

    x/dex is a hub-and-spoke exchange: every pool pairs one token with ERTH, a swap between two tokens takes
    two hops, liquidity is held as [dexlp/<id>] shares.  Its EndBlock pays matured withdrawals, settles the
    genesis liquidity auction, retires idle pools' volume, rebases the volume index, retires
    protocol-owned liquidity and checks the module's solvency; an error there would halt the chain.  The
    shielded pool (x/shielded) trades with it through private messages whose coins arrive and leave as
    notes.  x/earth issues the investors' emission, burns half of the gas fees and counts every burn.
    x/allocation issues the other two emission streams (caretaker and groundworks): voters split a stream between options,
    an option accrues by its share of the weight, and pays an address on a claim or a protocol handler every block (x/dex's
    liquidity providers, the community pool).  Its BeginBlock retires ended votes and pays the handlers, its EndBlock checks
    that weights add up and that the account covers what is owed; an error in either would halt the chain.

    ** The files

    - [Prelude]: outcomes ([Ok], [Err], [Panic]), the state monad [prog], store iteration, sums over
      maps, machine integers, the tactics [prog_inv] and [run_fwd], the shared lemmas.
    - [Sdk]: the interfaces of the code this repository calls and does not contain (cosmossdk.io/math,
      [sdk.Coin], x/bank, the address codec, the bond denom) and the documented behaviour relied on, [HostLaws].
    - [SafeExec]: [internal/safeexec].
    - [Field] (field elements and their bytes), [Poseidon2] (the hash), [Privacy] (every derivation and domain tag
      of zk/privacy), [Merkle], [Indexed], [Debt] (the three trees), [Curve] (points, value commitments,
      binding signatures) and [Orchard] (bundles, the signature hash, proof verification); [ZkModel] and
      [ZkWitnesses] instantiate them.  The trees are written over their storage ([NodeStore], [Index], [Rows]:
      what a store promises is a class, and the in-memory stores of the code are instances), and over the
      hash ([FieldHash]), so that no theorem assumes anything of Poseidon2: a soundness theorem ends in an
      explicit pair of colliding inputs.
    - [ShieldedTypes]: note values, the fee rule and the release map of [x/shielded/types]; the interface
      [ShieldedKeeper] of the pool and what it promises, [ShieldedLaws].
    - [ShieldedParams] (params.go and the gas schedule), [ShieldedBundle] (bundle.go, msgs.go), [ShieldedStore] (the
      keeper's store, tree.go, roots.go, assets.go, turnstile.go), [ShieldedNotes] (notes.go, authorization.go,
      send_restriction.go), [ShieldedPrivate] (private.go, abci.go, invariants.go, msg_server.go), [ShieldedAnte] (the
      private ante chain): x/shielded.  [ShieldedInv], [ShieldedEffects], [ShieldedMsg] and [ShieldedRoots] prove what the
      operations do and that they keep the pool's invariant; [ShieldedChain] is its step relation; [ShieldedGenesis] is the
      genesis of the pool (types/genesis.go, keeper/genesis.go, the module's entry), [ShieldedExport] the history of its
      roots and the round trip of an export, [ShieldedTx] what the private ante admits; [ShieldedKeeper] shows
      that the keeper satisfies the interface of [ShieldedTypes]; [ShieldedDemo] and [ShieldedWitnesses] run it.
    - [EarthTypes], [Earth]: x/earth.
    - [DexTypes] (constants, errors, parameters, records, the store), [World] (the state of a call: block time,
      bank, pool, the modules' stores), [DexKeeper], [DexAmm] (amm.go), [DexRewards] (lp_rewards.go, twap.go),
      [DexSolvency] (solvency.go, invariants.go), [DexSwap], [DexLiquidity] (create and add), [DexUnbonding]
      (remove, lp_unbonding.go), [DexAuction], [DexPolBurn], [DexSweeps] (the stale sweep and the rebase),
      [DexNotes] (note_paths.go), [DexMsgs] (the stateless checks of msgs_private.go), [DexEndBlock] (module.go, parameters,
      the rewards handler), [DexGenesis] (types/genesis.go, keeper/genesis.go).
    - [DexInv]: the module invariant [dex_inv] and how the primitive writes preserve it.
    - [DexChain]: the step relation of the module on the chain and its reachable states.
    - [DexImport], [DexExport]: the store a genesis leaves, and the round trip of an export.
    - [KeyOrder] (the order of composite keys), [AllocTypes] (constants, records, the store, the state of a call), [Alloc]
      (allocation.go, lease.go, external_voters.go and the parts of keeper.go and prune.go under them), [AllocMsgs] (the
      messages, prune.go, removal.go, hooks.go, abci.go, invariants.go, community_pool.go, module.go), [AllocChain] (with the
      step relation, what app.go and the modules register), [AllocGenesis] (types/genesis.go, keeper/genesis.go): x/allocation.  Its state is its own store beside [ext]: the [World] and the state of
      the modules that are parameters.  [AllocInv] says what a state means and what the writers of an option do; [AllocEngine]
      (replacing a vote), [AllocEmission] (settling a stream), [AllocVotes] and [AllocLease] (every call that
      files, moves or clears a vote; the sweep of leases), [AllocOps], [AllocOptions], [AllocBlocks] and
      [AllocEndBlock] (payments, options, block hooks, reset and checks) show that each operation keeps it; [AllocChain] is
      the step relation and [AllocProperties] states the results.  [AllocGenesis] also says what a valid genesis file is,
      [AllocImport] what it loads as, [AllocExport] what a chain exports and the round trip.
    - [HostModel], [Demo], [Witnesses], [DexWitnesses], [AllocWitnesses]: instances that meet the laws, concrete states reached by running the
      handlers, and every property applied to one of them.

    ** How the model corresponds to the code

    A Go function is a definition of the same name.  A handler is a [prog World A]: it reads and writes
    the whole [World] and returns, fails with an error, or panics.  A failed or panicking call carries no
    state: a transaction is rolled back, and a block hook runs its items through [Cached], which keeps the
    writes of a successful item only.  A collection of a keeper is a field of its store ([k_Pool] is
    [Keeper.Pool]), a [Map] a [gmap], a [KeySet] a [gset], an [Item] an [option]; iteration goes in key order
    ([iter_map]).  A [math.Int] is the integer it denotes, with its 256-bit range in the laws of its
    operations; a [LegacyDec] is its integer number of 10^-18 units; [int64], [uint64] and [uint32] arithmetic
    that can wrap is wrapped explicitly.  A nil [Int] is a value of the model in a genesis file only, where the
    code tells it from zero (an [option]); elsewhere the nil checks have no counterpart.  The key encodings, events, logs, telemetry and gas are not modelled, nor is the text
    [errorsmod.Wrap] adds.

    The context value in which the private ante passes a msg's authorization to its handler is part of the pool's state
    ([Ctx]); so are the block time and height and the execution mode.  A mark the keeper puts on a context of its own
    (a deposit) is an argument.  A private tx's decorators are steps of one chain ([ShieldedAnte]); the SDK's among
    them are arguments.  The cache of proofs a node saw verify in CheckTx, which a block never consults, is not modelled:
    a verifier that is a function answers the same with it.

    Code outside the repository is an argument: [Host] for the SDK, [PoolEnv] for what the pool is wired with.  The dex
    sees the pool through [ShieldedKeeper].  The laws say
    what is documented of it: integer arithmetic is exact or panics, decimal division rounds to the nearest
    unit, a bank transfer moves exactly its coins between its two accounts, minting and burning change the
    supply by exactly theirs, the module accounts are distinct, and the module's own account is on the
    bank's blocked list.  [HostModel] instantiates all of them at once.

    ** What the theorems show

    - [Merkle], [Indexed], [Debt]: each tree implements its abstract value (a list, a set, a map), its root is a
      function of that value alone, and its witnesses are complete and sound.
    - [Curve], [Orchard]: a binding signature round-trips; a signable binding key means a balanced bundle;
      the signature hash binds the message; parallel proof verification is deterministic.
    - [ShieldedChain], [ShieldedMsg], [ShieldedRoots]: in every reachable state the pool holds exactly what its turnstiles
      say and its block end cannot fail; a private msg moves exactly what its bundles release, and what it leaves to a
      handler is paid once; no nullifier is spent twice; an accepted anchor is a past root of the note tree, valid for
      exactly its window.  [ShieldedGenesis]: a genesis that validates loads as a sound pool that
      records exactly the roots it lists.  [ShieldedExport]: a pool
      exported at the end of a block imports as the same pool.  [ShieldedTx]: an admitted private tx has one
      authorized message whose bundles verified, and has paid its fee.  [ShieldedKeeper]: the pool keeps the promises the dex's theorems rest on.
    - [ShieldedParams], [ShieldedBundle]: gas cannot wrap under admitted parameters; a bundle that passes the stateless
      checks is one zk/orchard accepts.
    - [DexChain]: the dex is solvent to the unit in every reachable state, and EndBlock never fails there; a step is a message,
      a call of another module (the pool's private messages, the rewards handler, the price reading of x/personhood) or
      EndBlock.
    - [DexAmm], [DexSwap]: the constant product never decreases, a round trip never profits, a swap moves
      exactly what it says, a quote is the swap it stands for, pricing within the caps cannot panic.
    - [DexLiquidity], [DexUnbonding]: neither a deposit nor a withdrawal dilutes the other holders; a deposit mints exactly
      the shares of its smaller side; no
      withdrawal is lost or paid early; a failing payout backs off and never blocks the sweep.
    - [DexAuction], [DexPolBurn]: the auction's money is all accounted for; retirement follows its line.
    - [DexRewards], [DexEndBlock]: rewards are funded before they are owed and paid once, reward weight is
      capped by depth, the decay index and the price accumulator track the clock.
    - [DexNotes], [DexMsgs]: a private message conserves the released coins, and a message that passes its stateless checks
      releases to the unit what it says.
    - [DexImport], [DexExport]: an accepted genesis starts in the invariant, so the theorems of [DexChain] hold from the
      first block, and the store holds the file, record by record ([holds_file]); a sound state exports, validates and imports as itself with its rewards settled.
    - [Earth]: the emission is prorated to the nanosecond and never runs ahead of the clock, half of every fee
      is burned, the counters are complete and survive a genesis round trip.
    - [AllocProperties]: in every reachable state each option carries exactly its voters' weight, all running sums are exact
      and the account covers what is accrued, unsettled and left over, so the module's checks never fire on the chain as it
      is wired; a settlement mints exactly the emission; a vote moves exactly the weight its stream's source gives the voter; a claim pays once; the
      sweep of leases ends and leaves none ended; the removal of options takes dead ones only and cannot fail.
    - [AllocImport], [AllocExport]: an accepted genesis, fresh or imported, starts in the invariant and holds what the file
      says ([restores_file]) or exactly what is seeded; a sound state exports,
      validates and imports with the same options, figures and votes.
    - [DexSolvency] through [DexEndBlock]: the exhaustive check is sound and the bounded one exact.

    ** Bounds and fuel

    Loops over lists recurse on the list.  [split_note_loop] gets as fuel the number of notes the code computed
    before its loop, and [split_conserves_value] shows that it suffices; [free_slot] gets the 60 iterations
    the code's loop has; the day loop of the decay index gets the at most ninety steps the code allows.  The loop of
    [SweepLapses] gets one more than the number of queued leases; running out is a value of its own ([false]), which
    [lapse_sweep_terminates] shows is never reached, so that the sweep returns or fails as a settlement of the stream does.

    ** Hypotheses a reader should know

    A message's signer is not the module's own account, which has no key.  A transfer that changes the pool's account goes
    through the pool's own operations: every other one passes the send restriction ([checkSend]), which refuses it.  The
    exactness of an anchor's window assumes that the new root is not an older recorded one.  A private withdrawal's id (its first
    nullifier) was not used before, since the pool spends a nullifier once.  Other modules leave the dex's
    store and the balance of its account alone ([step_other]); transfers to that account are refused by the
    bank.  The pool's sequence number does not reach 2^64.
    The export of the pool assumes of the exported state what the chain keeps ([history_ok], [exportable]): its root
    records are well dated, the fee asset is admitted, turnstiles are of admitted denoms and nullifiers canonical.
    A dex genesis file: what Validate leaves to its author ([file_ok]: the hub is the bond denom, an auction's claims add up and
    its bid denom has no pool; [nothing_else]: the account holds no coin the file does not name).  An address has one
    lower-case text ([codec_lower], [codec_case]).  A withdrawal of the file is stored as it is in the file if no account's
    address has the length of a private withdrawal's id ([addresses_not_ids]); the entries of the store are the file's in any case.  A genesis file of x/allocation: what Validate leaves to its author
    ([votes_match]: the options carry what the votes put on them; [unsettled_covered]: the account covers what is not settled
    yet; [alloc_words_ok]: unsigned fields are not negative).  An exported state's records are as the handlers write them ([DexExport.exportable],
    [alloc_exportable]).
    The SDK's decorators of a private tx need only leave the pool alone ([keeps_pool]).
    For x/allocation ([AllocChain]): the 64-bit counters of options and epochs do not run out; the submitter of an option is
    not the module's own account; a module that files a weighted vote names options that exist or existed; a draw is followed by its payment;
    weight sources report no negative weight and x/distribution takes what it is handed ([AllocEnvLaws], discharged for the
    app's handlers by [app_laws]); no other module takes coins from the account, and the clock does not turn back.

    ** Not modelled

    x/earth's Params is an empty message, so neither it nor UpdateParams is.  Queries are views of the state
    with pagination.  The proof system (the proof verifier is a parameter), note encryption and addresses, certificate parsing
    in x/pki, x/personhood, x/shieldedstaking and x/assembly, the rest of the application wiring and
    the generated code are not modelled: the three modules are large, rest on x/staking and x/gov, and reach the modules
    modelled here only through the calls that are steps of their chains. *)

From stdpp Require Export base gmap strings sorting pretty list.
From Stdlib Require Export ZArith Lia.

#[global] Open Scope Z_scope.

(** Raw bytes (addresses, note commitments, ciphertexts), one [Z] per byte. *)
Abbreviation bytes := (list Z).

(** ** Errors and outcomes

    A Go call of the chain has three ends: it returns, it returns an error, or
    it panics.  Errors registered with [errors.Register(module, code, ...)] keep
    their module and code; the ones built with [fmt.Errorf]/[errors.New] keep a
    text.  The text that [errorsmod.Wrap] adds around an error is dropped: nothing in
    the program reads it. *)
Inductive error :=
| Sentinel (module : string) (code : Z)
| Plain (text : string).

#[export] Instance error_eq_dec : EqDecision error.
Proof. solve_decision. Defined.

Inductive outcome (A : Type) :=
| Ok (a : A)
| Err (e : error)
| Panic.
Arguments Ok {A} a.
Arguments Err {A} e.
Arguments Panic {A}.

#[export] Instance outcome_ret : MRet outcome := @Ok.
#[export] Instance outcome_bind : MBind outcome := λ A B f m,
  match m with Ok a => f a | Err e => Err e | Panic => Panic end.

(** [is_ok o] holds when the call returned. *)
Definition is_ok {A} (o : outcome A) : bool :=
  match o with Ok _ => true | _ => false end.

(** Stateful code: a handler reads and writes the state [S] and ends in one of
    the three ways.  An error or a panic carries no state: the caller either discards the
    branch the handler ran on (a transaction, [safeexec.Cached]) or returns the error itself. *)
Definition prog (S A : Type) : Type := S → outcome (A * S).

#[export] Instance prog_ret {S} : MRet (prog S) := λ A a s, Ok (a, s).
#[export] Instance prog_bind {S} : MBind (prog S) := λ A B f m s,
  match m s with Ok (a, s') => f a s' | Err e => Err e | Panic => Panic end.

Definition fail {S A} (e : error) : prog S A := λ _, Err e.
Definition gets {S A} (f : S → A) : prog S A := λ s, Ok (f s, s).
Definition modify {S} (f : S → S) : prog S () := λ s, Ok ((), f s).
Definition lift {S A} (o : outcome A) : prog S A := λ s,
  match o with Ok a => Ok (a, s) | Err e => Err e | Panic => Panic end.

(** [if cond { return err }], in a pure and in a stateful function. *)
Definition refuse (b : bool) (e : error) : outcome () := if b then Err e else Ok ().
Definition refuse_if {S} (b : bool) (e : error) : prog S () := if b then fail e else mret ().

(** [if x, err := m; err != nil { return e }]: any error of [m] becomes [e]. *)
Definition or_error {S A} (m : prog S A) (e : error) : prog S A := λ s,
  match m s with Err _ => Err e | r => r end.

Definition wrap_error {A} (o : outcome A) (e : error) : outcome A :=
  match o with Err _ => Err e | r => r end.

(** [for _, x := range l { if err := f(x); err != nil { return err } }] *)
Fixpoint for_each {S A} (l : list A) (f : A → prog S ()) : prog S () :=
  match l with
  | [] => mret ()
  | x :: l => f x ;; for_each l f
  end.

(** ** Store iteration

    [collections] iterates a map or a key set in the order of its encoded keys,
    which for [uint64], [int64], byte strings and their pairs and triples is the order
    of the keys themselves. *)
Class KeyCmp (K : Type) := key_cmp : K → K → comparison.

#[export] Instance KeyCmp_Z : KeyCmp Z := Z.compare.
#[export] Instance KeyCmp_string : KeyCmp string := String.compare.
#[export] Instance KeyCmp_prod {A B} `{KeyCmp A, KeyCmp B} : KeyCmp (A * B) := λ x y,
  match key_cmp (fst x) (fst y) with Eq => key_cmp (snd x) (snd y) | c => c end.
#[export] Instance KeyCmp_list {A} `{KeyCmp A} : KeyCmp (list A) :=
  fix go (x y : list A) : comparison :=
    match x, y with
    | [], [] => Eq
    | [], _ :: _ => Lt
    | _ :: _, [] => Gt
    | a :: x, b :: y => match key_cmp a b with Eq => go x y | c => c end
    end.

Definition key_le {K} `{KeyCmp K} (a b : K) : Prop := key_cmp a b ≠ Gt.
#[export] Instance key_le_dec {K} `{KeyCmp K} : RelDecision (@key_le K _).
Proof.
  intros a b. unfold key_le. destruct (key_cmp a b); [left|left|right]; congruence.
Defined.

(** The keys of a map and of a set, and a map's entries, in iteration order. *)
Definition iter_keys {K V} `{Countable K, KeyCmp K} (m : gmap K V) : list K :=
  merge_sort key_le (map_to_list m).*1.
Definition iter_set {K} `{Countable K, KeyCmp K} (X : gset K) : list K :=
  merge_sort key_le (elements X).
Definition iter_map {K V} `{Countable K, KeyCmp K} (m : gmap K V) : list (K * V) :=
  omap (λ k, (λ v, (k, v)) <$> m !! k) (iter_keys m).

(** ** Sums over a map *)
Definition map_sum {K V} `{Countable K} (f : K → V → Z) (m : gmap K V) : Z :=
  map_fold (λ k v acc, f k v + acc) 0 m.

(** ** Machine integers *)
Definition wrap_u32 (z : Z) : Z := z mod 2 ^ 32.
Definition wrap_u64 (z : Z) : Z := z mod 2 ^ 64.
Definition wrap_i64 (z : Z) : Z := (z + 2 ^ 63) mod 2 ^ 64 - 2 ^ 63.

(** ** Strings: [[]byte(s)] *)
Fixpoint codes (s : string) : bytes :=
  match s with
  | EmptyString => []
  | String c s => Z.of_N (Ascii.N_of_ascii c) :: codes s
  end.

Lemma codes_inj s s' : codes s = codes s' → s = s'.
Proof.
  revert s'. induction s as [|c s IH]; intros [|c' s']; cbn; try done. intros [= Hc Hs]. f_equal; [|by apply IH].
  apply N2Z.inj in Hc. rewrite <-(Ascii.ascii_N_embedding c), <-(Ascii.ascii_N_embedding c'), Hc. done.
Qed.

(** [strings.ToLower], of the ASCII an address consists of. *)
Definition lower_ascii (c : Ascii.ascii) : Ascii.ascii :=
  let n := Ascii.N_of_ascii c in
  if (65 <=? n)%N && (n <=? 90)%N then Ascii.ascii_of_N (n + 32) else c.
Fixpoint ToLower (s : string) : string :=
  match s with
  | EmptyString => EmptyString
  | String c s => String (lower_ascii c) (ToLower s)
  end.

(** ** Lemmas: the monads *)
Section monads.
Context {S : Type}.

Lemma bind_ok {A B} (m : prog S A) (f : A → prog S B) s r :
  (m ≫= f) s = Ok r ↔ ∃ a s1, m s = Ok (a, s1) ∧ f a s1 = Ok r.
Proof.
  unfold mbind, prog_bind. destruct (m s) as [[a s1]| |]; split.
  - eauto.
  - by intros (? & ? & [= -> ->] & ?).
  - done.
  - by intros (? & ? & ? & _).
  - done.
  - by intros (? & ? & ? & _).
Qed.

(** Run the first part of a program forward. *)
Lemma run_bind {A B} (m : prog S A) (f : A → prog S B) s a s1 :
  m s = Ok (a, s1) → (m ≫= f) s = f a s1.
Proof. unfold mbind, prog_bind. by intros ->. Qed.

(** Two programs that begin alike and go on alike. *)
Lemma bind_ext {A B} (m : prog S A) (f g : A → prog S B) s :
  (∀ a s', m s = Ok (a, s') → f a s' = g a s') → (m ≫= f) s = (m ≫= g) s.
Proof. intros Hfg. unfold mbind, prog_bind. destruct (m s) as [[a s']| |]; [by apply Hfg|done|done]. Qed.

Lemma outcome_bind_ok {A B} (m : outcome A) (f : A → outcome B) r :
  m ≫= f = Ok r ↔ ∃ a, m = Ok a ∧ f a = Ok r.
Proof.
  destruct m; cbn; split; try done; eauto.
  - by intros (? & [= ->] & ?).
  - by intros (? & ? & _).
  - by intros (? & ? & _).
Qed.

Lemma ret_ok {A} (a : A) (s : S) r : (mret a : prog S A) s = Ok r ↔ r = (a, s).
Proof. unfold mret, prog_ret. split; congruence. Qed.

Lemma lift_ok {A} (o : outcome A) (s : S) a s' :
  lift o s = Ok (a, s') ↔ o = Ok a ∧ s' = s.
Proof. destruct o; cbn; intuition congruence. Qed.

Lemma refuse_if_ok b e (s : S) u s' :
  refuse_if b e s = Ok (u, s') ↔ b = false ∧ s' = s.
Proof. destruct b, u; cbn; unfold fail, mret, prog_ret; intuition congruence. Qed.

Lemma refuse_ok b e u : refuse b e = Ok u ↔ b = false.
Proof. destruct b, u; cbn; unfold fail, mret, prog_ret; intuition congruence. Qed.

(** One check of a validation. *)
Lemma refuse_bind {A} b e (m : outcome A) r : (refuse b e ≫= λ _, m) = Ok r ↔ b = false ∧ m = Ok r.
Proof. destruct b; cbn; intuition congruence. Qed.

Lemma gets_ok {A} (f : S → A) s a s' : gets f s = Ok (a, s') ↔ a = f s ∧ s' = s.
Proof. unfold gets. intuition congruence. Qed.

Lemma modify_ok (f : S → S) s u s' : modify f s = Ok (u, s') ↔ s' = f s.
Proof. unfold modify. destruct u. intuition congruence. Qed.

Lemma or_error_ok {A} (m : prog S A) e (s : S) r : or_error m e s = Ok r ↔ m s = Ok r.
Proof. unfold or_error. destruct (m s); intuition congruence. Qed.

Lemma wrap_error_ok {A} (o : outcome A) e a : wrap_error o e = Ok a ↔ o = Ok a.
Proof. destruct o; cbn; intuition congruence. Qed.

Lemma fail_ok {A} e (s : S) (r : A * S) : ¬ (fail e s = Ok r).
Proof. unfold fail. congruence. Qed.

(** A loop keeps whatever every iteration keeps. *)
Lemma for_each_inv {A} (P : S → Prop) (f : A → prog S ()) l :
  (∀ x s s', x ∈ l → P s → f x s = Ok ((), s') → P s') →
  ∀ s s', P s → for_each l f s = Ok ((), s') → P s'.
Proof.
  induction l as [|x l IH]; intros Hf s s' HP; cbn.
  - rewrite ret_ok. congruence.
  - rewrite bind_ok. intros ([] & s1 & H1 & H2).
    assert (HP1 : P s1) by (eapply Hf; [left|exact HP|exact H1]).
    eapply IH; [|exact HP1|exact H2].
    intros y t t' Hy. apply Hf. by right.
Qed.

(** A loop whose every iteration succeeds succeeds. *)
Lemma for_each_total {A} (P : S → Prop) (f : A → prog S ()) l :
  (∀ x s, x ∈ l → P s → ∃ s', f x s = Ok ((), s') ∧ P s') →
  ∀ s, P s → ∃ s', for_each l f s = Ok ((), s') ∧ P s'.
Proof.
  induction l as [|x l IH]; intros Hf s HP; cbn; [by eauto|].
  destruct (Hf x s) as (s1 & H1 & HP1); [left|done|].
  destruct (IH ltac:(intros; apply Hf; [by right|done]) s1 HP1) as (s2 & H2 & HP2).
  exists s2. split; [|done]. rewrite bind_ok. eauto.
Qed.
End monads.

(** Take apart every successful run in the context: binds, returns, guards, state reads
    and writes, and the case splits in between. *)
Ltac prog_step :=
  match goal with
  | H : (mbind _ _) ?s = Ok _ |- _ =>
      let a := fresh "a" in let s1 := fresh "s" in let H1 := fresh "Hrun" in
      apply bind_ok in H; destruct H as (a & s1 & H1 & H)
  | H : mbind _ _ = Ok _ |- _ =>
      let a := fresh "a" in let H1 := fresh "Hpure" in
      apply outcome_bind_ok in H; destruct H as (a & H1 & H)
  | H : mret _ _ = Ok _ |- _ => apply ret_ok in H; simplify_eq
  | H : lift _ _ = Ok (_, _) |- _ => apply lift_ok in H; destruct H as [H ->]
  | H : refuse_if _ _ _ = Ok (_, _) |- _ => apply refuse_if_ok in H; destruct H as [H ->]
  | H : refuse _ _ = Ok _ |- _ => apply refuse_ok in H
  | H : gets _ _ = Ok (_, _) |- _ => apply gets_ok in H; destruct H as [-> ->]
  | H : modify _ _ = Ok (_, _) |- _ => apply modify_ok in H; subst
  | H : or_error _ _ _ = Ok _ |- _ => apply or_error_ok in H
  | H : wrap_error _ _ = Ok _ |- _ => apply wrap_error_ok in H
  | H : fail _ _ = Ok _ |- _ => by apply fail_ok in H
  | H : mret _ = Ok _ |- _ => injection H as H; subst
  | H : Ok _ = Ok _ |- _ => injection H as H; subst
  | H : Err _ = Ok _ |- _ => discriminate H
  | H : Panic = Ok _ |- _ => discriminate H
  | u : () |- _ => destruct u
  | H : (let '(_, _) := ?x in _) _ = Ok _ |- _ => destruct x eqn:?
  | H : (let '(_, _) := ?x in _) = Ok _ |- _ => destruct x eqn:?
  | H : (if ?b then _ else _) _ = Ok _ |- _ => destruct b eqn:?
  | H : (if ?b then _ else _) = Ok _ |- _ => destruct b eqn:?
  | H : (match ?x with Some _ => _ | None => _ end) _ = Ok _ |- _ => destruct x eqn:?
  | H : (match ?x with Some _ => _ | None => _ end) = Ok _ |- _ => destruct x eqn:?
  end; cbv beta in *.
(** Run forward through steps that compute. *)
Ltac run_fwd := repeat (erewrite run_bind by reflexivity; cbv beta).
Ltac prog_inv := repeat prog_step.

(** ** Lemmas: sums *)
Section sums.
Context {K V : Type} `{Countable K}.
Implicit Types (m : gmap K V) (f g : K → V → Z).

Lemma map_sum_empty f : map_sum f ∅ = 0.
Proof. reflexivity. Qed.

Lemma map_sum_insert_fresh f m k v :
  m !! k = None → map_sum f (<[k:=v]> m) = f k v + map_sum f m.
Proof.
  intros Hk. unfold map_sum. rewrite map_fold_insert_L; [done| |done]. intros. lia.
Qed.

Lemma map_sum_delete f m k v :
  m !! k = Some v → map_sum f (delete k m) = map_sum f m - f k v.
Proof.
  intros Hk. unfold map_sum at 2.
  rewrite (map_fold_delete_L _ _ k v m); [|intros; lia|done].
  fold (map_sum f (delete k m)). lia.
Qed.

Lemma map_sum_delete_any f m k :
  map_sum f (delete k m) = map_sum f m - default 0 (f k <$> m !! k).
Proof.
  destruct (m !! k) as [v|] eqn:Hk; cbn.
  - by apply map_sum_delete.
  - rewrite delete_id by done. lia.
Qed.

Lemma map_sum_insert f m k v :
  map_sum f (<[k:=v]> m) = map_sum f m - default 0 (f k <$> m !! k) + f k v.
Proof.
  rewrite <-insert_delete_eq, map_sum_insert_fresh by apply lookup_delete_eq.
  rewrite map_sum_delete_any. lia.
Qed.

Lemma map_sum_ext f g m :
  (∀ k v, m !! k = Some v → f k v = g k v) → map_sum f m = map_sum g m.
Proof.
  induction m as [|k v m Hk IH] using map_ind; intros Hfg; [done|].
  rewrite !map_sum_insert_fresh by done.
  rewrite (Hfg k v) by apply lookup_insert_eq. rewrite IH; [done|].
  intros k' v' Hl. apply Hfg. rewrite lookup_insert_ne; [done|]. intros ->. congruence.
Qed.

Lemma map_sum_le f g m :
  (∀ k v, m !! k = Some v → f k v ≤ g k v) → map_sum f m ≤ map_sum g m.
Proof.
  induction m as [|k v m Hk IH] using map_ind; intros Hfg; [done|].
  rewrite !map_sum_insert_fresh by done.
  pose proof (Hfg k v (lookup_insert_eq _ _ _)).
  assert (map_sum f m ≤ map_sum g m); [|lia].
  apply IH. intros k' v' Hl. apply Hfg. rewrite lookup_insert_ne; [done|].
  intros ->. congruence.
Qed.

Lemma map_sum_zero m : map_sum (λ _ _, 0) m = 0.
Proof.
  induction m as [|k v m Hk IH] using map_ind; [done|].
  rewrite map_sum_insert_fresh by done. lia.
Qed.

Lemma map_sum_nonneg f m :
  (∀ k v, m !! k = Some v → 0 ≤ f k v) → 0 ≤ map_sum f m.
Proof. intros Hf. rewrite <-(map_sum_zero m). by apply map_sum_le. Qed.

(** A term of a sum of non-negative terms is at most the sum. *)
Lemma map_sum_elem_le f m k v :
  (∀ k v, m !! k = Some v → 0 ≤ f k v) → m !! k = Some v → f k v ≤ map_sum f m.
Proof.
  intros Hf Hk. pose proof (map_sum_delete f m k v Hk) as Hd.
  assert (0 ≤ map_sum f (delete k m)); [|lia].
  apply map_sum_nonneg. intros k' v' [_ Hl]%lookup_delete_Some. by apply Hf.
Qed.

Lemma map_sum_add f g m : map_sum (λ k v, f k v + g k v) m = map_sum f m + map_sum g m.
Proof.
  induction m as [|k v m Hk IH] using map_ind; [done|].
  rewrite !map_sum_insert_fresh by done. lia.
Qed.

(** Only one key contributes. *)
Lemma map_sum_single f m k v :
  m !! k = Some v → (∀ k' v', m !! k' = Some v' → k' ≠ k → f k' v' = 0) →
  map_sum f m = f k v.
Proof.
  intros Hk Hz. pose proof (map_sum_delete f m k v Hk) as Hd.
  assert (map_sum f (delete k m) = 0); [|lia].
  erewrite map_sum_ext; [apply map_sum_zero|].
  intros k' v' [Hne Hl]%lookup_delete_Some. by apply Hz.
Qed.
End sums.

(** Sums over a list, and a map's sum as the sum over its entries in any order. *)
Definition list_sum {A} (f : A → Z) (l : list A) : Z := foldr (λ x acc, f x + acc) 0 l.

Lemma list_sum_perm {A} (f : A → Z) l l' : l ≡ₚ l' → list_sum f l = list_sum f l'.
Proof. unfold list_sum. induction 1; cbn in *; lia. Qed.

Lemma list_sum_app {A} (f : A → Z) l l' : list_sum f (l ++ l') = list_sum f l + list_sum f l'.
Proof. unfold list_sum. induction l as [|x l IH]; cbn; [|rewrite IH]; lia. Qed.

Lemma map_sum_list {K V} `{Countable K} (f : K → V → Z) (m : gmap K V) :
  map_sum f m = list_sum (λ kv, f kv.1 kv.2) (map_to_list m).
Proof.
  unfold map_sum. rewrite map_fold_foldr. induction (map_to_list m) as [|[k v] l IH]; [done|].
  unfold list_sum in *. cbn [foldr]. rewrite <-IH. done.
Qed.

Lemma list_sum_cons {A} (f : A → Z) x l : list_sum f (x :: l) = f x + list_sum f l.
Proof. done. Qed.
Lemma list_sum_nil {A} (f : A → Z) : list_sum f [] = 0.
Proof. done. Qed.

(** ** Lemmas: store iteration *)
Section iteration.
Context {K V : Type} `{Countable K, KeyCmp K}.
Implicit Types m : gmap K V.

Lemma iter_keys_perm m : iter_keys m ≡ₚ (map_to_list m).*1.
Proof. apply merge_sort_Permutation. Qed.

Lemma iter_map_perm m : iter_map m ≡ₚ map_to_list m.
Proof.
  unfold iter_map. rewrite iter_keys_perm.
  assert (∀ l, (∀ k v, (k, v) ∈ l → m !! k = Some v) →
    omap (λ k, (λ v, (k, v)) <$> m !! k) l.*1 = l) as Hl.
  { induction l as [|[k v] l IH]; intros Hm; [done|]. cbn.
    rewrite (Hm k v) by left. cbn. f_equal. apply IH. intros. apply Hm. by right. }
  rewrite Hl; [done|]. intros k v. apply elem_of_map_to_list.
Qed.

Lemma elem_of_iter_map m k v : (k, v) ∈ iter_map m ↔ m !! k = Some v.
Proof. rewrite iter_map_perm. apply elem_of_map_to_list. Qed.

Lemma elem_of_iter_keys m k : k ∈ iter_keys m ↔ is_Some (m !! k).
Proof.
  rewrite iter_keys_perm, list_elem_of_fmap. split.
  - intros ([k' v] & -> & Hkv). apply elem_of_map_to_list in Hkv. by exists v.
  - intros [v Hv]. exists (k, v). split; [done|]. by apply elem_of_map_to_list.
Qed.

Lemma iter_map_NoDup m : NoDup (iter_map m).*1.
Proof. rewrite iter_map_perm. apply NoDup_fst_map_to_list. Qed.

Lemma elem_of_iter_set (X : gset K) k : k ∈ iter_set X ↔ k ∈ X.
Proof. unfold iter_set. rewrite merge_sort_Permutation. apply elem_of_elements. Qed.

Lemma iter_set_NoDup (X : gset K) : NoDup (iter_set X).
Proof. unfold iter_set. rewrite merge_sort_Permutation. apply NoDup_elements. Qed.

Lemma iter_map_sum f m : list_sum (λ kv, f kv.1 kv.2) (iter_map m) = map_sum f m.
Proof. rewrite map_sum_list. apply list_sum_perm, iter_map_perm. Qed.
End iteration.

(** ** Lemmas: integers *)
Lemma div_mul_bounds a b : 0 < b → a / b * b ≤ a < a / b * b + b.
Proof. intros. pose proof (Z.mod_pos_bound a b). pose proof (Z.div_mod a b). nia. Qed.

Lemma if_min a b : (if a <? b then a else b) = Z.min a b.
Proof. destruct (Z.ltb_spec a b); lia. Qed.

Lemma div_add_le a b r : 0 < r → a / r + b / r ≤ (a + b) / r.
Proof.
  intros Hr. pose proof (div_mul_bounds a r Hr). pose proof (div_mul_bounds b r Hr).
  apply Z.div_le_lower_bound; nia.
Qed.

(** Floors of parts add up to at most the floor of the whole. *)
Lemma map_sum_floor {K V} `{Countable K} (e r : Z) (f : K → V → Z) (m : gmap K V) :
  0 < r → map_sum (λ k v, e * f k v / r) m ≤ e * map_sum f m / r.
Proof.
  intros Hr. induction m as [|k v m Hk IH] using map_ind.
  - rewrite !map_sum_empty, Z.mul_0_r, Z.div_0_l; lia.
  - rewrite !map_sum_insert_fresh, Z.mul_add_distr_l by done.
    pose proof (div_add_le (e * f k v) (e * map_sum f m) r Hr). lia.
Qed.

Lemma quot_div_nonneg a b : 0 ≤ a → 0 < b → Z.quot a b = a / b.
Proof. intros. by apply Z.quot_div_nonneg. Qed.

Lemma wrap_u64_id z : 0 ≤ z < 2 ^ 64 → wrap_u64 z = z.
Proof. intros. by apply Z.mod_small. Qed.

Lemma wrap_i64_id z : - 2 ^ 63 ≤ z < 2 ^ 63 → wrap_i64 z = z.
Proof. intros. unfold wrap_i64. rewrite Z.mod_small by lia. lia. Qed.

(** ** Lists read from a file

    The loops of a genesis: a check for repeated keys, and a map filled entry by entry. *)
(** The keys of [l] are distinct and not among [seen]: what a loop with a [seen] map checks. *)
Definition unseen {A K} `{Countable K} (f : A → K) (seen : gset K) (l : list A) : Prop :=
  NoDup (f <$> l) ∧ ∀ x, x ∈ l → f x ∉ seen.

Lemma unseen_nil {A K} `{Countable K} (f : A → K) seen : unseen f seen [].
Proof. split; [constructor|]. by intros x ?%elem_of_nil. Qed.

Lemma unseen_cons {A K} `{Countable K} (f : A → K) seen x l :
  unseen f seen (x :: l) ↔ f x ∉ seen ∧ unseen f ({[f x]} ∪ seen) l.
Proof.
  unfold unseen. cbn [fmap list_fmap]. rewrite NoDup_cons. split.
  - intros [[Hx Hnd] Hs]. split; [apply Hs; left|]. split; [done|]. intros y Hy [E%elem_of_singleton|Hin]%elem_of_union.
    + apply Hx. rewrite <-E. by apply list_elem_of_fmap_2.
    + by apply (Hs y ltac:(by right)).
  - intros (Hx & Hnd & Hs). split; [split; [|done]|].
    + intros (y & E & Hy)%list_elem_of_fmap. apply (Hs y Hy). apply elem_of_union_l, elem_of_singleton. by symmetry.
    + intros y [->|Hy]%elem_of_cons; [done|]. intros Hin. apply (Hs y Hy). by apply elem_of_union_r.
Qed.

Lemma unseen_empty {A K} `{Countable K} (f : A → K) l : unseen f ∅ l ↔ NoDup (f <$> l).
Proof. unfold unseen. split; [by intros [? _]|]. intros ?. split; [done|]. intros x _. apply not_elem_of_empty. Qed.

Section load.
Context {K V : Type} `{Countable K}.
Implicit Types (l : list (K * V)) (m : gmap K V).

Fixpoint insert_all l m : gmap K V := match l with [] => m | e :: l => insert_all l (<[e.1 := e.2]> m) end.

Lemma insert_all_lookup l m k v :
  NoDup l.*1 → insert_all l m !! k = Some v ↔ (k, v) ∈ l ∨ (k ∉ l.*1 ∧ m !! k = Some v).
Proof.
  revert m. induction l as [|[k' v'] l IH]; intros m Hnd; cbn [insert_all fmap list_fmap fst snd].
  - split; [right; split; [apply not_elem_of_nil|done]|by intros [?%elem_of_nil|[_ ?]]].
  - apply NoDup_cons in Hnd as [Hn Hnd]. rewrite IH, lookup_insert_Some by done. rewrite !not_elem_of_cons, elem_of_cons. split.
    + intros [?|(Hk & [[<- <-]|[Hne Hl]])]; [by left; right|by left; left|by right].
    + intros [[[= -> ->]|?]|((Hne & Hk) & Hl)]; [right; split; [done|by left]|by left|right; split; [done|right; split; [congruence|done]]].
Qed.

Lemma insert_all_some l m k v : insert_all l m !! k = Some v → (k, v) ∈ l ∨ m !! k = Some v.
Proof.
  revert m. induction l as [|[k' v'] l IH]; intros m; cbn [insert_all fst snd]; [by right|].
  intros [?|[[<- <-]|[_ ?]]%lookup_insert_Some]%IH; [left; by right|left; by left|by right].
Qed.

Lemma insert_all_is_Some l m k : is_Some (insert_all l m !! k) ↔ k ∈ l.*1 ∨ is_Some (m !! k).
Proof.
  revert m. induction l as [|[k' v'] l IH]; intros m; cbn [insert_all fmap list_fmap fst snd].
  - split; [by right|by intros [?%elem_of_nil|?]].
  - rewrite IH, lookup_insert_is_Some', elem_of_cons. naive_solver.
Qed.

Lemma insert_all_sum (f : K → V → Z) l m :
  NoDup l.*1 → (∀ k, k ∈ l.*1 → m !! k = None) → map_sum f (insert_all l m) = map_sum f m + list_sum (λ kv, f kv.1 kv.2) l.
Proof.
  revert m. induction l as [|[k v] l IH]; intros m; cbn [insert_all fmap list_fmap fst snd]; [rewrite list_sum_nil; lia|].
  rewrite NoDup_cons. intros [Hn Hnd] Hm. rewrite IH; [|done|].
  - rewrite map_sum_insert_fresh, list_sum_cons by (apply Hm; left). cbn. lia.
  - intros k' Hk'. rewrite lookup_insert_ne by by intros ->. apply Hm. by right.
Qed.

Lemma insert_all_empty l m :
  NoDup l.*1 → (∀ k v, (k, v) ∈ l ↔ m !! k = Some v) → insert_all l ∅ = m.
Proof.
  intros Hnd Hl. apply map_eq. intros k. apply option_eq. intros v. rewrite insert_all_lookup, Hl, lookup_empty by done. naive_solver.
Qed.
End load.

Lemma list_sum_fmap {A B} (f : B → Z) (g : A → B) l : list_sum f (g <$> l) = list_sum (λ x, f (g x)) l.
Proof. unfold list_sum. induction l as [|x l IH]; [done|]. cbn. by rewrite IH. Qed.

Lemma list_sum_ext {A} (f g : A → Z) l : (∀ x, x ∈ l → f x = g x) → list_sum f l = list_sum g l.
Proof.
  unfold list_sum. induction l as [|x l IH]; [done|]. intros Hl. cbn. rewrite (Hl x ltac:(left)), IH; [done|]. intros. apply Hl. by right.
Qed.

(** A map read from a file: one entry per record. *)
Section file_map.
Context {A K V : Type} `{Countable K} (f : A → K) (g : A → V).
Implicit Types (l : list A).

Lemma entries_fst l : ((λ x, (f x, g x)) <$> l).*1 = f <$> l.
Proof. by rewrite <-list_fmap_compose. Qed.

Lemma file_map_lookup l k v :
  NoDup (f <$> l) → insert_all ((λ x, (f x, g x)) <$> l) ∅ !! k = Some v ↔ ∃ x, x ∈ l ∧ f x = k ∧ v = g x.
Proof.
  intros Hnd. rewrite insert_all_lookup, lookup_empty by by rewrite entries_fst. rewrite list_elem_of_fmap. split.
  - intros [(x & [= -> ->] & Hx)|[_ [=]]]. by exists x.
  - intros (x & Hx & <- & ->). left. by exists x.
Qed.

Lemma file_map_is_Some l k : is_Some (insert_all ((λ x, (f x, g x)) <$> l) ∅ !! k) ↔ k ∈ f <$> l.
Proof. rewrite insert_all_is_Some, entries_fst, lookup_empty. split; [by intros [?|[? [=]]]|by left]. Qed.

Lemma file_map_sum (h : K → V → Z) l :
  NoDup (f <$> l) → map_sum h (insert_all ((λ x, (f x, g x)) <$> l) ∅) = list_sum (λ x, h (f x) (g x)) l.
Proof.
  intros Hnd. rewrite insert_all_sum, map_sum_empty, list_sum_fmap; [done|by rewrite entries_fst|intros; apply lookup_empty].
Qed.
End file_map.

Lemma mapM_Forall2 {A B} (f : A → outcome B) l ks : mapM f l = Ok ks ↔ Forall2 (λ x k, f x = Ok k) l ks.
Proof.
  revert ks. induction l as [|x l IH]; intros ks; cbn [mapM].
  - split; [intros [= <-]; constructor|by intros ->%Forall2_nil_inv_l].
  - rewrite outcome_bind_ok. split.
    + intros (k & Hk & E). apply outcome_bind_ok in E as (ks' & Hks%IH & [= <-]). by constructor.
    + intros (k & ks' & Hk & Hks%IH & ->)%Forall2_cons_inv_l. exists k. split; [done|]. by rewrite Hks.
Qed.

Lemma mapM_fmap_ok {X B C} (f : C → outcome B) (g : X → C) (h : X → B) l :
  (∀ x, x ∈ l → f (g x) = Ok (h x)) → mapM f (g <$> l) = Ok (h <$> l).
Proof.
  induction l as [|x l IH]; intros Hl; [done|]. cbn [fmap list_fmap mapM]. rewrite (Hl x ltac:(left)). cbn [mbind outcome_bind].
  change (list_fmap X C g l) with (g <$> l). rewrite IH; [done|]. intros. apply Hl. by right.
Qed.

(** Keys computed from records that can be told apart by something the key determines. *)
Lemma mapM_NoDup_on {A B C} (f : A → outcome B) (g : A → C) l ks :
  (∀ x y k, x ∈ l → y ∈ l → f x = Ok k → f y = Ok k → g x = g y) → mapM f l = Ok ks → NoDup (g <$> l) → NoDup ks.
Proof.
  intros Hfg Hm%mapM_Forall2. induction Hm as [|x k l ks Hk Hm IH]; [constructor|]. cbn [fmap list_fmap]. rewrite !NoDup_cons.
  intros [Hn Hnd]. split; [|apply IH; [by intros x' y' k' Hx Hy; apply Hfg; right|done]]. intros Hin. apply Hn.
  apply list_elem_of_lookup in Hin as [i Hi]. destruct (Forall2_lookup_r _ _ _ _ _ Hm Hi) as (y & Hy & Ey).
  apply list_elem_of_lookup_2 in Hy. apply list_elem_of_fmap. exists y. split; [|done]. apply (Hfg x y k); [left|by right|done..].
Qed.
Lemma mapM_NoDup {A B C} (f : A → outcome B) (g : A → C) l ks :
  (∀ x y k, f x = Ok k → f y = Ok k → g x = g y) → mapM f l = Ok ks → NoDup (g <$> l) → NoDup ks.
Proof. intros Hfg. apply mapM_NoDup_on. intros x y k _ _. apply Hfg. Qed.

(** ** Automation

    [earth] holds the arithmetic facts the components share. *)
Create HintDb earth.
Create Rewrite HintDb earth.
#[export] Hint Resolve map_sum_nonneg div_mul_bounds : earth.
#[export] Hint Rewrite @map_sum_insert @map_sum_delete_any : earth.
