(* ===== verification/SafeExec.v ===== *)
(** * internal/safeexec: one item of a block hook on its own branch

    [Cached] runs a function on a cache branch of the state: its writes are kept when it
    returns, and dropped when it returns an error or panics; a panic becomes an
    error.  Block hooks run on an infinite gas meter, so the out-of-gas panic that [Recover]
    lets through does not arise and is not modelled. *)

From S2P Require Export Prelude.

(** [Recover]: a panic becomes an error. *)
Definition Recover {A} (r : outcome A) : error + A :=
  match r with
  | Ok a => inr a
  | Err e => inl e
  | Panic => inl (Plain "recovered panic")
  end.

(** [Cached]: never fails; [inl] is the error it returns, [inr] what [fn] returned. *)
Definition Cached {S A} (fn : prog S A) : prog S (error + A) := λ s,
  match Recover (fn s) with
  | inr (a, s') => Ok (inr a, s')
  | inl e => Ok (inl e, s)
  end.

(** [Item]: [Cached], with the failure logged; whether [fn] committed. *)
Definition Item {S} (fn : prog S ()) : prog S bool :=
  r ← Cached fn;
  mret (match r with inr _ => true | inl _ => false end).

Section safeexec.
Context {S A : Type}.
Implicit Types (fn : prog S A) (s : S).

(** A cached run either committed a successful run or changed nothing. *)
Lemma Cached_cases fn s r s' :
  Cached fn s = Ok (r, s') →
  (∃ a, r = inr a ∧ fn s = Ok (a, s')) ∨ (∃ e, r = inl e ∧ s' = s ∧ is_ok (fn s) = false).
Proof.
  unfold Cached. destruct (fn s) as [[a t]|e|]; cbn; intros [= <- <-]; eauto.
Qed.

Lemma Cached_total fn s : ∃ r s', Cached fn s = Ok (r, s').
Proof. unfold Cached. destruct (Recover _) as [|[]]; eauto. Qed.

Lemma Cached_inv (P : S → Prop) fn s r s' :
  (∀ a t, fn s = Ok (a, t) → P t) → P s → Cached fn s = Ok (r, s') → P s'.
Proof. intros Hf Hs [(a & -> & Hr)|(e & -> & -> & _)]%Cached_cases; eauto. Qed.
End safeexec.

Lemma Item_inv {S} (P : S → Prop) (fn : prog S ()) s r s' :
  (∀ t, fn s = Ok ((), t) → P t) → P s → Item fn s = Ok (r, s') → P s'.
Proof.
  intros Hf Hs. unfold Item. rewrite bind_ok. intros (x & t & Hc & [= _ ->]%ret_ok).
  eapply Cached_inv; [|exact Hs|exact Hc]. intros [] u. apply Hf.
Qed.

Lemma Item_total {S} (fn : prog S ()) s : ∃ r s', Item fn s = Ok (r, s').
Proof.
  destruct (Cached_total fn s) as (r & s' & Hc). do 2 eexists. unfold Item.
  apply bind_ok. do 2 eexists. split; [exact Hc|done].
Qed.

(** The second call failed, the way the first did. *)
Definition failed_as {A B} (a : outcome A) (b : outcome B) : Prop :=
  match a, b with Err e, Err e' => e = e' | Panic, Panic => True | _, _ => False end.

Lemma failed_as_trans {A B C} (a : outcome A) (b : outcome B) (c : outcome C) : failed_as a b → failed_as b c → failed_as a c.
Proof. destruct a, b, c; cbn; try done. by intros -> ->. Qed.

(** A program fails as its first part does. *)
Lemma failed_as_bind {S A B C} (a : outcome C) (m : prog S A) (f : A → prog S B) s : failed_as a (m s) → failed_as (m s) ((m ≫= f) s).
Proof. unfold mbind, prog_bind. by destruct a, (m s). Qed.

Lemma bind_assoc {S A B C} (m : prog S A) (f : A → prog S B) (g : B → prog S C) s : ((m ≫= f) ≫= g) s = (m ≫= λ a, f a ≫= g) s.
Proof. unfold mbind, prog_bind. by destruct (m s) as [[a t]| |]. Qed.

(** What is left of a state after an item that may fail. *)
Definition kept {S A} (fn : prog S A) (s : S) : S := match fn s with Ok (_, s') => s' | _ => s end.

(** A block hook isolates its items: a loop that runs each item through [Cached] always returns, whichever
    items return an error or panic, and ends in the state reached by running the items in order and
    dropping the writes of those that failed. *)
Theorem cached_loop_isolates_items {S A B} (fn : B → prog S A) (items : list B) (s : S) :
  for_each items (λ x, _ ← Cached (fn x); mret ()) s = Ok ((), foldl (λ s x, kept (fn x) s) s items).
Proof.
  revert s. induction items as [|x items IH]; intros s; [done|]. cbn [for_each foldl].
  rewrite <-IH. unfold Cached, kept, mbind, prog_bind. by destruct (fn x s) as [[a s']| |].
Qed.
