(* ===== verification/Field.v ===== *)
(** * The BN254 scalar field and its byte encoding

    [fr.Element] of gnark-crypto as its canonical representative below the modulus, the field operations the program
    uses, and the encoding of [zk/privacy/privacy.go]: [FieldBytes] and [FieldFromBytes], exactly 32 big-endian
    bytes of a reduced value. *)

From S2P Require Export Prelude.

Definition modulus : Z := 21888242871839275222246405745257275088548364400416034343698204186575808495617.

Definition fr_add (a b : Z) : Z := (a + b) mod modulus.
Definition fr_mul (a b : Z) : Z := (a * b) mod modulus.
Definition is_fr (e : Z) : Prop := 0 ≤ e < modulus.

Definition is_byte (c : Z) : Prop := 0 ≤ c < 256.
Definition is_bytes (b : bytes) : Prop := Forall is_byte b.

(** [big.Int.SetBytes]: big-endian. *)
Definition SetBytes (b : bytes) : Z := foldl (λ acc c, acc * 256 + c) 0 b.

(** The [n] low bytes of [e], big-endian. *)
Fixpoint be_bytes (n : nat) (e : Z) : bytes :=
  match n with
  | O => []
  | S n => be_bytes n (e / 256) ++ [e mod 256]
  end.

Definition fr_Bytes : Z := 32.
Definition ErrNonCanonical : error := Plain "not a canonical 32-byte field element".

Definition FieldBytes (e : Z) : bytes := be_bytes 32 e.

Definition FieldFromBytes (b : bytes) : outcome Z :=
  _ ← refuse (negb (Z.of_nat (length b) =? fr_Bytes)) ErrNonCanonical;
  _ ← refuse (modulus <=? SetBytes b) ErrNonCanonical;
  mret (SetBytes b).

(** ** The encoding *)
Lemma SetBytes_app b c : SetBytes (b ++ [c]) = SetBytes b * 256 + c.
Proof. unfold SetBytes. by rewrite foldl_app. Qed.

Lemma be_bytes_length n e : length (be_bytes n e) = n.
Proof. revert e. induction n as [|n IH]; intros e; cbn; [done|]. rewrite length_app, IH. cbn. lia. Qed.

Lemma be_bytes_range n e : is_bytes (be_bytes n e).
Proof.
  revert e. induction n as [|n IH]; intros e; cbn; [by constructor|]. apply Forall_app. split; [apply IH|].
  constructor; [|done]. apply Z.mod_pos_bound. lia.
Qed.

Lemma SetBytes_be n e : 0 ≤ e < 256 ^ Z.of_nat n → SetBytes (be_bytes n e) = e.
Proof.
  revert e. induction n as [|n IH]; intros e He; cbn [be_bytes].
  - cbn in He. assert (e = 0) as -> by lia. done.
  - rewrite SetBytes_app, IH.
    + pose proof (Z.div_mod e 256). lia.
    + rewrite Nat2Z.inj_succ, Z.pow_succ_r in He by lia. split; [apply Z.div_pos; lia|].
      apply Z.div_lt_upper_bound; lia.
Qed.

Lemma be_SetBytes b : is_bytes b → be_bytes (length b) (SetBytes b) = b.
Proof.
  induction b as [|c b IH] using rev_ind; intros Hb; [done|].
  apply Forall_app in Hb as [Hb Hc]. inversion Hc as [|? ? Hc' _]; subst. unfold is_byte in Hc'.
  rewrite length_app, Nat.add_1_r. cbn [be_bytes]. rewrite SetBytes_app.
  rewrite (Z.mul_comm _ 256), Z.add_comm.
  replace ((c + 256 * SetBytes b) / 256) with (SetBytes b).
  2:{ rewrite (Z.mul_comm 256), Z.div_add, Z.div_small by lia. lia. }
  replace ((c + 256 * SetBytes b) mod 256) with c.
  2:{ rewrite (Z.mul_comm 256), Z.mod_add, Z.mod_small by lia. lia. }
  by rewrite IH.
Qed.

Lemma SetBytes_range b : is_bytes b → 0 ≤ SetBytes b < 256 ^ Z.of_nat (length b).
Proof.
  induction b as [|c b IH] using rev_ind; intros Hb; [done|].
  apply Forall_app in Hb as [Hb Hc]. inversion Hc as [|? ? Hc' _]; subst. unfold is_byte in Hc'.
  rewrite SetBytes_app, length_app, Nat.add_1_r, Nat2Z.inj_succ, Z.pow_succ_r by lia.
  specialize (IH Hb). lia.
Qed.

Lemma SetBytes_inj b b' : is_bytes b → is_bytes b' → length b = length b' → SetBytes b = SetBytes b' → b = b'.
Proof. intros Hb Hb' Hl He. rewrite <-(be_SetBytes b), <-(be_SetBytes b') by done. congruence. Qed.

Lemma FieldBytes_length e : length (FieldBytes e) = 32%nat.
Proof. apply be_bytes_length. Qed.
Lemma FieldBytes_range e : is_bytes (FieldBytes e).
Proof. apply be_bytes_range. Qed.

Lemma FieldFromBytes_Bytes e : is_fr e → FieldFromBytes (FieldBytes e) = Ok e.
Proof.
  unfold is_fr. intros He. unfold FieldFromBytes, FieldBytes. rewrite be_bytes_length, SetBytes_be.
  - cbn. destruct (Z.leb_spec modulus e); [lia|done].
  - split; [lia|]. apply (Z.lt_trans _ modulus); [lia|]. by vm_compute.
Qed.

Lemma FieldFromBytes_ok b e :
  FieldFromBytes b = Ok e → length b = 32%nat ∧ e = SetBytes b ∧ e < modulus.
Proof.
  unfold FieldFromBytes. intros Hr.
  apply outcome_bind_ok in Hr as (u & Hl & Hr). apply outcome_bind_ok in Hr as (v & Hm & [= <-]).
  unfold refuse in Hl, Hm. destruct (Z.eqb_spec (Z.of_nat (length b)) fr_Bytes) as [Hl'|]; [|done].
  destruct (Z.leb_spec modulus (SetBytes b)); [done|]. unfold fr_Bytes in Hl'. split_and!; [lia|done|done].
Qed.

Lemma FieldFromBytes_canonical b e : is_bytes b → FieldFromBytes b = Ok e → is_fr e ∧ FieldBytes e = b.
Proof.
  intros Hb (Hl & -> & Hm)%FieldFromBytes_ok. split; [split; [by apply SetBytes_range|done]|].
  unfold FieldBytes. rewrite <-Hl. by apply be_SetBytes.
Qed.

Lemma FieldFromBytes_inj b b' e :
  is_bytes b → is_bytes b' → FieldFromBytes b = Ok e → FieldFromBytes b' = Ok e → b = b'.
Proof. intros Hb Hb' [_ <-]%FieldFromBytes_canonical [_ <-]%FieldFromBytes_canonical; done. Qed.

Lemma FieldBytes_inj e e' : is_fr e → is_fr e' → FieldBytes e = FieldBytes e' → e = e'.
Proof.
  intros He%FieldFromBytes_Bytes He'%FieldFromBytes_Bytes E. rewrite E in He. congruence.
Qed.
