(* ===== verification/Poseidon2.v ===== *)
(** * zk/poseidon2: the hash of the circuits

    [zk/poseidon2/poseidon2.go]: the Poseidon2 permutation of width 4 over the BN254 scalar field and the sponge
    around it, with the constants of [constants.go].  [Hash_matches_vector] evaluates the definition on a
    reference vector of the package's own test. *)

From S2P Require Export Field.

Definition matDiag4 : list Z :=
  [7626475329478847982857743246276194948757851985510858890691733676098590062311;
   5498568565063849786384470689962419967523752476452646391422913716315471115275;
   148936322117705719734052984176402258788283488576388928671173547788498414613;
   15456385653678559339152734484033356164266089951521103188900320352052358038155].

Definition roundConstants : list (list Z) := [
  [11633431549750490989983886834189948010834808234699737327785600195936805266405; 17353750182810071758476407404624088842693631054828301270920107619055744005334; 11575173631114898451293296430061690731976535592475236587664058405912382527658; 9724643380371653925020965751082872123058642683375812487991079305063678725624];
  [20936725237749945635418633443468987188819556232926135747685274666391889856770; 6427758822462294912934022562310355233516927282963039741999349770315205779230; 16782979953202249973699352594809882974187694538612412531558950864304931387798; 8979171037234948998646722737761679613767384188475887657669871981433930833742];
  [5428827536651017352121626533783677797977876323745420084354839999137145767736; 507241738797493565802569310165979445570507129759637903167193063764556368390; 6711578168107599474498163409443059675558516582274824463959700553865920673097; 2197359304646916921018958991647650011119043556688567376178243393652789311643];
  [4634703622846121403803831560584049007806112989824652272428991253572845447400; 17008376818199175111793852447685303011746023680921106348278379453039148937791; 18430784755956196942937899353653692286521408688385681805132578732731487278753; 4573768376486344895797915946239137669624900197544620153250805961657870918727];
  [5624865188680173294191042415227598609140934495743721047183803859030618890703; 0; 0; 0];
  [8228252753786907198149068514193371173033070694924002912950645971088002709521; 0; 0; 0];
  [17586714789554691446538331362711502394998837215506284064347036653995353304693; 0; 0; 0];
  [12985198716830497423350597750558817467658937953000235442251074063454897365701; 0; 0; 0];
  [13480076116139680784838493959937969792577589073830107110893279354229821035984; 0; 0; 0];
  [480609231761423388761863647137314056373740727639536352979673303078459561332; 0; 0; 0];
  [19503345496799249258956440299354839375920540225688429628121751361906635419276; 0; 0; 0];
  [16837818502122887883669221005435922946567532037624537243846974433811447595173; 0; 0; 0];
  [5492108497278641078569490709794391352213168666744080628008171695469579703581; 0; 0; 0];
  [11365311159988448419785032079155356000691294261495515880484003277443744617083; 0; 0; 0];
  [13876891705632851072613751905778242936713392247975808888614530203269491723653; 0; 0; 0];
  [10660388389107698747692475159023710744797290186015856503629656779989214850043; 0; 0; 0];
  [18876318870401623474401728758498150977988613254023317877612912724282285739292; 0; 0; 0];
  [15543349138237018307536452195922365893694804703361435879256942490123776892424; 0; 0; 0];
  [2839988449157209999638903652853828318645773519300826410959678570041742458201; 0; 0; 0];
  [7566039810305694135184226097163626060317478635973510706368412858136696413063; 0; 0; 0];
  [6344830340705033582410486810600848473125256338903726340728639711688240744220; 0; 0; 0];
  [12475357769019880256619207099578191648078162511547701737481203260317463892731; 0; 0; 0];
  [13337401254840718303633782478677852514218549070508887338718446132574012311307; 0; 0; 0];
  [21161869193849404954234950798647336336709035097706159414187214758702055364571; 0; 0; 0];
  [20671052961616073313397254362345395594858011165315285344464242404604146448678; 0; 0; 0];
  [2772189387845778213446441819361180378678387127454165972767013098872140927416; 0; 0; 0];
  [3339032002224218054945450150550795352855387702520990006196627537441898997147; 0; 0; 0];
  [14919705931281848425960108279746818433850049439186607267862213649460469542157; 0; 0; 0];
  [17056699976793486403099510941807022658662936611123286147276760381688934087770; 0; 0; 0];
  [16144580075268719403964467603213740327573316872987042261854346306108421013323; 0; 0; 0];
  [15582343953927413680541644067712456296539774919658221087452235772880573393376; 0; 0; 0];
  [17528510080741946423534916423363640132610906812668323263058626230135522155749; 0; 0; 0];
  [3190600034239022251529646836642735752388641846393941612827022280601486805721; 0; 0; 0];
  [8463814172152682468446984305780323150741498069701538916468821815030498611418; 0; 0; 0];
  [16533435971270903741871235576178437313873873358463959658178441562520661055273; 0; 0; 0];
  [11845696835505436397913764735273748291716405946246049903478361223369666046634; 0; 0; 0];
  [18391057370973634202531308463652130631065370546571735004701144829951670507215; 0; 0; 0];
  [262537877325812689820791215463881982531707709719292538608229687240243203710; 0; 0; 0];
  [2187234489894387585309965540987639130975753519805550941279098789852422770021; 0; 0; 0];
  [19189656350920455659006418422409390013967064310525314160026356916172976152967; 0; 0; 0];
  [15839474183930359560478122372067744245080413846070743460407578046890458719219; 0; 0; 0];
  [1805019124769763805045852541831585930225376844141668951787801647576910524592; 0; 0; 0];
  [323592203814803486950280155834638828455175703393817797003361354810251742052; 0; 0; 0];
  [9780393509796825017346015868945480913627956475147371732521398519483580624282; 0; 0; 0];
  [14009429785059642386335012561867511048847749030947687313594053997432177705759; 0; 0; 0];
  [13749550162460745037234826077137388777330401847577727796245150843898019635981; 0; 0; 0];
  [19497187499283431845443758879472819384797584633472792651343926414232528405311; 0; 0; 0];
  [3708428802547661961864524194762556064568867603968214870300574294082023305587; 0; 0; 0];
  [1339414413482882567499652761996854155383863472782829777976929310155400981782; 0; 0; 0];
  [6396261245879814100794661157306877072718690153118140891315137894471052482309; 0; 0; 0];
  [2069661495404347929962833138824526893650803079024564477269192079629046031674; 0; 0; 0];
  [15793521554502133342917616035884588152451122589545915605459159078589855944361; 0; 0; 0];
  [17053424498357819626596285492499512504457128907932827007302385782133229252374; 0; 0; 0];
  [13658536470391360399708067455536748955260723760813498481671323619545320978896; 0; 0; 0];
  [21546095668130239633971575351786704948662094117932406102037724221634677838565; 0; 0; 0];
  [21411726238386979516934941789127061362496195649331822900487557574597304399109; 0; 0; 0];
  [1944776378988765673004063363506638781964264107780425928778257145151172817981; 0; 0; 0];
  [15590719714223718537172639598316570285163081746016049278954513732528516468773; 0; 0; 0];
  [1351266421179051765004709939353170430290500926943038391678843253157009556309; 0; 0; 0];
  [6772476224477167317130064764757502335545080109882028900432703947986275397548; 0; 0; 0];
  [10670120969725161535937685539136065944959698664551200616467222887025111751992; 4731853626374224678749618809759140702342195350742653173378450474772131006181; 14473527495914528513885847341981310373531349450901830749157165104135412062812; 16937191362061486658876740597821783333355021670608822932942683228741190786143];
  [5656559696428674390125424316117443507583679061659043998559560535270557939546; 8897648276515725841133578021896617755369443750194849587616503841335248902806; 14938684446722672719637788054570691068799510611164812175626676768545923371470; 15284149043690546115252102390417391226617211133644099356880071475803043461465];
  [2623479025068612775740107497276979457946709347831661908218182874823658838107; 6809791961761836061129379546794905411734858375517368211894790874813684813988; 2417620338751920563196799065781703780495622795713803712576790485412779971775; 4445143310792944321746901285176579692343442786777464604312772017806735512661];
  [1429019233589939118995503267516676481141938536269008901607126781291273208629; 19874283200702583165110559932895904979843482162236139561356679724680604144459; 13426632171723830006915194799390005513190035492503509233177687891041405113055; 10582332261829184460912611488470654685922576576939233092337240630493625631748]
].

Definition width : nat := 4.
Definition roundsFBegin : nat := 4.
Definition roundsPartial : nat := 56.
Definition roundsFEnd : nat := 4.
Definition rate : nat := 3.

(** The state: four field elements. *)
Abbreviation state := (Z * Z * Z * Z)%type.

(** x^5 *)
Definition sboxP (x : Z) : Z :=
  let x2 := fr_mul x x in
  let x4 := fr_mul x2 x2 in
  fr_mul x4 x.

Definition matmulExternal (s : state) : state :=
  let '(s0, s1, s2, s3) := s in
  let t0 := fr_add s0 s1 in
  let t1 := fr_add s2 s3 in
  let t2 := fr_add (fr_add s1 s1) t1 in
  let t3 := fr_add (fr_add s3 s3) t0 in
  let t4 := fr_add t1 t1 in
  let t4 := fr_add (fr_add t4 t4) t3 in
  let t5 := fr_add t0 t0 in
  let t5 := fr_add (fr_add t5 t5) t2 in
  let t6 := fr_add t3 t5 in
  let t7 := fr_add t2 t4 in
  (t6, t5, t7, t4).

Definition diag (i : nat) : Z := nth i matDiag4 0.

Definition matmulInternal (s : state) : state :=
  let '(s0, s1, s2, s3) := s in
  let sum := fr_add (fr_add (fr_add s0 s1) s2) s3 in
  (fr_add (fr_mul (diag 0) s0) sum, fr_add (fr_mul (diag 1) s1) sum,
   fr_add (fr_mul (diag 2) s2) sum, fr_add (fr_mul (diag 3) s3) sum).

Definition full_round (c : list Z) (s : state) : state :=
  let '(s0, s1, s2, s3) := s in
  matmulExternal (sboxP (fr_add s0 (nth 0 c 0)), sboxP (fr_add s1 (nth 1 c 0)),
                  sboxP (fr_add s2 (nth 2 c 0)), sboxP (fr_add s3 (nth 3 c 0))).

Definition partial_round (c : list Z) (s : state) : state :=
  let '(s0, s1, s2, s3) := s in
  matmulInternal (sboxP (fr_add s0 (nth 0 c 0)), s1, s2, s3).

Definition permute (s : state) : state :=
  let s := matmulExternal s in
  let s := foldl (λ s c, full_round c s) s (take roundsFBegin roundConstants) in
  let s := foldl (λ s c, partial_round c s) s (take roundsPartial (drop roundsFBegin roundConstants)) in
  foldl (λ s c, full_round c s) s (drop (roundsFBegin + roundsPartial) roundConstants).

(** [duplex]: the cached inputs, padded with zeros to the rate, are added in and the state permuted. *)
Definition duplex (cache : list Z) (s : state) : state :=
  let '(s0, s1, s2, s3) := s in
  permute (fr_add s0 (nth 0 cache 0), fr_add s1 (nth 1 cache 0), fr_add s2 (nth 2 cache 0), s3).

(** The loop over the inputs: [cache] holds the ones not yet absorbed. *)
Fixpoint absorb (inputs cache : list Z) (s : state) : list Z * state :=
  match inputs with
  | [] => (cache, s)
  | x :: inputs =>
      if (length cache =? rate)%nat then absorb inputs [x] (duplex cache s)
      else absorb inputs (cache ++ [x]) s
  end.

Definition Hash (inputs : list Z) : Z :=
  let iv := fr_mul (Z.of_nat (length inputs) mod modulus) (2 ^ 64 mod modulus) in
  let '(cache, s) := absorb inputs [] (0, 0, 0, iv) in
  fst (fst (fst (duplex cache s))).

(** A vector of [poseidon2_test.go], produced by the circuit's own implementation. *)
Example Hash_matches_vector : Hash [1; 2] = 1594597865669602199208529098208508950092942746041644072252494753744672355203.
Proof. vm_compute. reflexivity. Qed.

(** ** The result is a reduced field element *)
Definition is_state (s : state) : Prop :=
  let '(s0, s1, s2, s3) := s in is_fr s0 ∧ is_fr s1 ∧ is_fr s2 ∧ is_fr s3.

Lemma fr_add_range a b : is_fr (fr_add a b).
Proof. apply Z.mod_pos_bound. done. Qed.
Lemma fr_mul_range a b : is_fr (fr_mul a b).
Proof. apply Z.mod_pos_bound. done. Qed.

Lemma matmulExternal_range s : is_state (matmulExternal s).
Proof. destruct s as [[[s0 s1] s2] s3]. cbn. split_and!; apply fr_add_range. Qed.

Lemma full_rounds_range cs s : is_state s → is_state (foldl (λ s c, full_round c s) s cs).
Proof.
  revert s. induction cs as [|c cs IH]; intros s Hs; cbn; [done|]. apply IH.
  destruct s as [[[s0 s1] s2] s3]. apply matmulExternal_range.
Qed.

Lemma permute_range s : is_state (permute s).
Proof.
  unfold permute. apply full_rounds_range.
  assert (∀ cs s, is_state s → is_state (foldl (λ s c, partial_round c s) s cs)) as Hp.
  { intros cs. induction cs as [|c cs IH]; intros t Ht; cbn; [done|]. apply IH.
    destruct t as [[[t0 t1] t2] t3]. cbn. split_and!; apply fr_add_range. }
  apply Hp, full_rounds_range, matmulExternal_range.
Qed.

Lemma Hash_range inputs : is_fr (Hash inputs).
Proof.
  unfold Hash. destruct (absorb _ _ _) as [cache [[[s0 s1] s2] s3]]. unfold duplex.
  pose proof (permute_range (fr_add s0 (nth 0 cache 0), fr_add s1 (nth 1 cache 0), fr_add s2 (nth 2 cache 0), s3)) as Hr.
  destruct (permute _) as [[[p0 p1] p2] p3]. apply Hr.
Qed.
