(* ===== verification/Privacy.v ===== *)
(** * zk/privacy: the domain-tagged hashes the chain and the circuits share

    [zk/privacy/privacy.go] over an interface for the hash ([FieldHash], which [zk/poseidon2] implements).  A
    finite hash has collisions, so what is proved of a commitment is that two of them are equal only when they
    commit to the same values or two explicit, different inputs of the hash collide ([collide]). *)

From S2P Require Export Poseidon2.

(** The hash of the circuits as its clients see it: field elements in, a field element out. *)
Class FieldHash := {
  hash : list Z → Z;
  hash_fr l : is_fr (hash l);
}.

Definition poseidon2_hash : FieldHash := {| hash := Hash; hash_fr := Hash_range |}.

(** [fr.Element.SetBigInt] *)
Definition SetBigInt (z : Z) : Z := z mod modulus.

Lemma SetBigInt_fr z : is_fr (SetBigInt z).
Proof. apply Z.mod_pos_bound. done. Qed.
Lemma SetBigInt_id z : is_fr z → SetBigInt z = z.
Proof. apply Z.mod_small. Qed.

Definition tag (s : string) : Z := SetBigInt (SetBytes (codes s)).

Definition TagID := tag "earth.id".
Definition TagOwner := tag "earth.owner".
Definition TagLeaf := tag "earth.leaf".
Definition TagSN := tag "earth.sn".
Definition TagPC := tag "earth.pc".
Definition TagCM := tag "earth.cm".
Definition TagNF := tag "earth.nf".
Definition TagReg := tag "earth.reg".
Definition TagAsset := tag "earth.asset".
Definition TagStake := tag "earth.stake".
Definition TagSPC := tag "earth.spc".
Definition TagSNF := tag "earth.snf".
Definition TagGW := tag "earth.gw".
Definition TagSNFL := tag "earth.snfl".
Definition TagVNF := tag "earth.vnf".
Definition TagVPad := tag "earth.vpad".
Definition TagSLabel := tag "earth.slabel".
Definition TagDebtL := tag "earth.debtl".
Definition TagSucc := tag "earth.succ".
Definition TagSignal := tag "earth.signal".
Definition TagBytes := tag "earth.bytes".
Definition TagScope := tag "earth.scope".
Definition TagAffiliate := tag "earth.affiliate".
Definition TagReferral := tag "earth.referral".

(** The tags in use, for the statement that they separate the domains. *)
Definition tags : list Z :=
  [TagID; TagOwner; TagLeaf; TagSN; TagPC; TagCM; TagNF; TagReg; TagAsset; TagStake; TagSPC; TagSNF; TagGW;
   TagSNFL; TagVNF; TagVPad; TagSLabel; TagDebtL; TagSucc; TagSignal; TagBytes; TagScope; TagAffiliate; TagReferral].

(** [fr.Element.SetUint64]: a [uint64] is below the modulus. *)
Definition U64 (v : Z) : Z := v.

(** The field's integers below 2^64 and 2^32. *)
Definition is_u64 (v : Z) : Prop := 0 ≤ v < 2 ^ 64.

Lemma U64_fr v : is_u64 v → is_fr (U64 v).
Proof. unfold is_u64, is_fr, U64, modulus. lia. Qed.

(** The loop of [chunks31]. *)
Fixpoint chunks31_loop (fuel : nat) (b : bytes) : list Z :=
  match fuel, b with
  | S fuel, _ :: _ => SetBigInt (SetBytes (take 31 b)) :: chunks31_loop fuel (drop 31 b)
  | _, _ => []
  end.
Definition chunks31 (b : bytes) : list Z := chunks31_loop (length b) b.

Definition len64 (b : bytes) : Z := wrap_u64 (Z.of_nat (length b)).

(** What [Bytes] and [AssetID] hash, and [Signal] and [Scope]. *)
Definition tagged_bytes (t : Z) (b : bytes) : list Z := t :: U64 (len64 b) :: chunks31 b.

(** Two different inputs of the hash with the same value. *)
Definition collide `{FieldHash} (l l' : list Z) : Prop := l ≠ l' ∧ hash l = hash l'.

Section privacy.
Context `{FieldHash}.

Definition IDC (idSecret : Z) : Z := hash [TagID; idSecret].
Definition OwnerPK (nk : Z) : Z := hash [TagOwner; nk].
Definition IdentityLeaf (idc dscKey country activatedAt predecessorAt : Z) : Z :=
  hash [TagLeaf; idc; dscKey; country; U64 activatedAt; U64 predecessorAt].

(** Two upper-case ASCII letters, read big-endian; anything else is 0. *)
Definition CountryField (cc : string) : Z :=
  match codes cc with
  | [a; b] =>
      if (a <? 65) || (90 <? a) || (b <? 65) || (90 <? b) then 0 else U64 (Z.lor (Z.shiftl a 8) b)
  | _ => 0
  end.

Definition ScopeNullifier (idSecret scope : Z) : Z := hash [TagSN; idSecret; scope].
Definition SuccessionLeaf (idcOld idcNew : Z) : Z := hash [TagSucc; idcOld; idcNew].
Definition PC (ownerPK rho rcm : Z) : Z := hash [TagPC; ownerPK; rho; rcm].
Definition StakePC (ownerPK rho rcm : Z) : Z := hash [TagSPC; ownerPK; rho; rcm].
Definition StakeCM (asset amount spc label : Z) : Z := hash [TagStake; asset; U64 amount; spc; label].
Definition StakeGW (nk rho : Z) : Z := hash [TagGW; nk; rho].
Definition StakeLabel (moveKey moveTime exposed : Z) : Z := hash [TagSLabel; moveKey; U64 moveTime; U64 exposed].
Definition DebtLeaf (key nextKey nextIndex retained : Z) : Z :=
  hash [TagDebtL; key; nextKey; U64 nextIndex; U64 retained].
Definition StakeNF (nk rho position : Z) : Z := hash [TagSNF; nk; rho; U64 position].
Definition NFLeaf (value nextValue nextIndex : Z) : Z := hash [TagSNFL; value; nextValue; U64 nextIndex].
Definition VoteNF (nk rho position proposalID : Z) : Z :=
  hash [TagVNF; nk; rho; U64 position; U64 proposalID].
Definition VotePadNF (nk r proposalID : Z) : Z := hash [TagVPad; nk; r; U64 proposalID].
Definition CM (asset value pc : Z) : Z := hash [TagCM; asset; U64 value; pc].
Definition NF (nk rho position : Z) : Z := hash [TagNF; nk; rho; U64 position].

Definition privacy_AssetID (denom : string) : Z := hash (tagged_bytes TagAsset (codes denom)).
Definition Bytes (b : bytes) : Z := hash (tagged_bytes TagBytes b).

Definition Signal (msgType chainID : string) (fields : list Z) : Z :=
  hash (TagSignal :: Bytes (codes msgType) :: Bytes (codes chainID) :: fields).

Definition Scope (kind : string) (args : list Z) : Z := hash (TagScope :: Bytes (codes kind) :: args).
Definition ClaimScope (day : Z) : Z := Scope "claim" [U64 day].
Definition CaretakerScope : Z := Scope "caretaker" [].
Definition HandleScope : Z := Scope "handle" [].
Definition ProposalScope (proposalID round : Z) : Z := Scope "proposal" [U64 proposalID; U64 round].
Definition RemovalScope (ballotID : Z) : Z := Scope "removal" [U64 ballotID].
Definition ProposeRemovalScope (optionID day : Z) : Z := Scope "propose_removal" [U64 optionID; U64 day].

Definition RegistrationBinding (chainID : string) (idc pcAnml : Z) (ctAnml : bytes) (pcErth : Z) (ctErth : bytes)
    (affiliate : Z) : Z :=
  hash [TagReg; Bytes (codes chainID); idc; pcAnml; Bytes ctAnml; pcErth; Bytes ctErth; affiliate].
Definition AffiliateField (handle : string) : Z := hash [TagAffiliate; Bytes (codes handle)].
Definition ReferralOpening (nullifier leafIndex : Z) : Z * Z :=
  (hash [TagReferral; nullifier; U64 leafIndex; U64 0], hash [TagReferral; nullifier; U64 leafIndex; U64 1]).

(** ** The encodings are injective *)
Lemma collide_dec (l l' : list Z) : hash l = hash l' → l = l' ∨ collide l l'.
Proof. intros E. destruct (decide (l = l')); [by left|by right]. Qed.
End privacy.

Lemma codes_bytes s : is_bytes (codes s).
Proof.
  induction s as [|c s IH]; constructor; [|done]. pose proof (Ascii.N_ascii_bounded c). unfold is_byte. lia.
Qed.

Lemma chunk_fr b : is_bytes b → (length b ≤ 31)%nat → is_fr (SetBytes b).
Proof.
  intros Hb Hl. pose proof (SetBytes_range b Hb) as [Hn Hlt]. split; [done|].
  eapply Z.lt_trans; [exact Hlt|]. apply (Z.le_lt_trans _ (256 ^ 31)); [|done].
  apply Z.pow_le_mono_r; lia.
Qed.

Lemma chunks31_loop_inj fuel b b' :
  is_bytes b → is_bytes b' → length b = length b' → (length b ≤ fuel)%nat →
  chunks31_loop fuel b = chunks31_loop fuel b' → b = b'.
Proof.
  revert b b'. induction fuel as [|fuel IH]; intros b b' Hb Hb' Hl Hf E.
  { destruct b, b'; cbn in *; try done; lia. }
  destruct b as [|c b], b' as [|c' b']; try done. cbn [chunks31_loop] in E.
  remember (c :: b) as d. remember (c' :: b') as d'.
  injection E as Ec Et.
  rewrite !SetBigInt_id in Ec by (apply chunk_fr; [by apply Forall_take|rewrite length_take; lia]).
  rewrite <-(take_drop 31 d), <-(take_drop 31 d'). f_equal.
  - apply SetBytes_inj; [by apply Forall_take..| |done]. rewrite !length_take. lia.
  - apply IH; [by apply Forall_drop..| | |done]; rewrite !length_drop; [lia|]. subst d. cbn in *. lia.
Qed.

(** A byte string with a length prefix has one encoding. *)
Lemma tagged_bytes_inj t b b' :
  is_bytes b → is_bytes b' → (Z.of_nat (length b) < 2 ^ 64) → (Z.of_nat (length b') < 2 ^ 64) →
  tagged_bytes t b = tagged_bytes t b' → b = b'.
Proof.
  unfold tagged_bytes, len64, U64. intros Hb Hb' Hl Hl' [= El Ec].
  rewrite !wrap_u64_id in El by lia. assert (length b = length b') as El' by lia.
  unfold chunks31 in Ec. rewrite <-El' in Ec. by apply (chunks31_loop_inj (length b)).
Qed.

Lemma chunks31_loop_fr fuel b : is_bytes b → Forall is_fr (chunks31_loop fuel b).
Proof.
  revert b. induction fuel as [|fuel IH]; intros [|c b] Hb; cbn; constructor.
  - apply SetBigInt_fr.
  - apply (IH (drop 31 (c :: b))). by apply Forall_drop.
Qed.

Section binding.
Context `{FieldHash}.

Lemma Bytes_inj b b' :
  is_bytes b → is_bytes b' → Z.of_nat (length b) < 2 ^ 64 → Z.of_nat (length b') < 2 ^ 64 →
  Bytes b = Bytes b' → b = b' ∨ collide (tagged_bytes TagBytes b) (tagged_bytes TagBytes b').
Proof.
  intros Hb Hb' Hl Hl' [E|Hc]%collide_dec; [left|by right]. by apply tagged_bytes_inj in E.
Qed.

(** What a string's commitment reveals about the string. *)
Definition string_fits (s : string) : Prop := Z.of_nat (length (codes s)) < 2 ^ 64.

Lemma string_Bytes_inj s s' :
  string_fits s → string_fits s' → Bytes (codes s) = Bytes (codes s') →
  s = s' ∨ collide (tagged_bytes TagBytes (codes s)) (tagged_bytes TagBytes (codes s')).
Proof.
  intros Hs Hs' [E|Hc]%Bytes_inj; [left; by apply codes_inj|by right|apply codes_bytes..|done|done].
Qed.
End binding.

(** The tags separate the domains: they differ from one another, are field elements, and are larger than
    every small integer (the passport circuits' tags are below 8). *)
Lemma tags_distinct : NoDup tags ∧ Forall (λ t, is_fr t ∧ 8 ≤ t) tags.
Proof.
  split.
  - assert (bool_decide (NoDup tags) = true) as E by (vm_compute; reflexivity). by apply bool_decide_eq_true in E.
  - assert (forallb (λ t, (0 <=? t) && (t <? modulus) && (8 <=? t)) tags = true) as E by (vm_compute; reflexivity).
    apply Forall_forall. intros t Ht. apply forallb_forall with (x := t) in E; [|by apply list_elem_of_In].
    unfold is_fr. lia.
Qed.
