(* ===== verification/Sdk.v ===== *)
(** * The chain's host: code this repository calls and does not contain

    cosmossdk.io/math ([Int], [LegacyDec]), cosmos-sdk's [types] ([Coin], [Coins],
    [ValidateDenom]), x/bank, x/staking's bond denom, the bech32 address codec, the
    module-account addresses, [proto.Marshal] and [crypto/sha256].  Each is a type class of operations; [HostLaws]
    states the documented behaviour the program relies on.  Nothing here is a
    definition of that code: a theorem that needs a behaviour takes [HostLaws], and
    [HostModel.v] shows that the laws can hold together.

    Representation: a [math.Int] is the integer it denotes; a [math.LegacyDec] is its integer
    number of 10^-18 units.  A nil [Int] is not a value of the model. *)

From S2P Require Export Privacy.

(** sdk.Coin and sdk.Coins *)
Record Coin := mkCoin { Denom : string; Amount : Z }.
Abbreviation Coins := (list Coin).

#[export] Instance Coin_eq_dec : EqDecision Coin.
Proof. solve_decision. Defined.

(** [Coins.AmountOf] *)
Definition AmountOf (cs : Coins) (d : string) : Z :=
  foldr (λ c acc, if bool_decide (Denom c = d) then Amount c + acc else acc) 0 cs.
#[global] Arguments AmountOf : simpl never.

(** A well-formed [Coins]: no denom twice, no amount that is not positive. *)
Definition coins_wf (cs : Coins) : Prop :=
  NoDup (Denom <$> cs) ∧ ∀ c, c ∈ cs → 0 < Amount c.

(** [Coins.IsZero]: every amount is zero (so, an empty set is). *)
Definition CoinsIsZero (cs : Coins) : bool := forallb (λ c, Amount c =? 0) cs.

(** The range of a [math.Int]: [MaxBitLen] = 256 bits of magnitude. *)
Definition MaxBitLen : Z := 256.
Definition fits_int (z : Z) : bool := Z.abs z <? 2 ^ MaxBitLen.

(** One [LegacyDec] unit in 10^-18 parts. *)
Definition dec_one : Z := 10 ^ 18.

Class SdkMath := {
  (** [Int.Add], [Sub], [Mul], [Quo] ([AddRaw], [MulRaw], ... with the raw operand widened). *)
  IntAdd : Z → Z → outcome Z;
  IntSub : Z → Z → outcome Z;
  IntMul : Z → Z → outcome Z;
  IntQuo : Z → Z → outcome Z;
  (** [math.NewIntFromBigInt] *)
  NewIntFromBigInt : Z → outcome Z;
  (** [math.NewIntFromString]; [None] is [ok = false]. *)
  NewIntFromString : string → option Z;
  (** [LegacyDec]: [NewDecFromInt], [Add], [Mul], [Quo], [MulInt64], [Ceil], [TruncateInt]. *)
  NewDecFromInt : Z → Z;
  DecAdd : Z → Z → outcome Z;
  DecMul : Z → Z → outcome Z;
  DecQuo : Z → Z → outcome Z;
  DecMulInt64 : Z → Z → outcome Z;
  DecCeil : Z → outcome Z;
  DecTruncateInt : Z → outcome Z;
  (** [sdk.ValidateDenom] (no error), [sdk.NewCoin], [Coin.Add], [Coin.Sub], [sdk.NewCoins]. *)
  ValidateDenom : string → bool;
  NewCoin : string → Z → outcome Coin;
  CoinAdd : Coin → Coin → outcome Coin;
  CoinSub : Coin → Coin → outcome Coin;
  NewCoins : list Coin → outcome Coins;
  (** [Coins.Add] *)
  CoinsAdd : Coins → Coins → outcome Coins;
}.

(** [Coin.IsValid]: a valid denom and a non-negative amount. *)
Definition CoinIsValid `{SdkMath} (c : Coin) : bool := ValidateDenom (Denom c) && (0 <=? Amount c).

(** The bank surface of the program's [expected_keepers.go] interfaces, over an abstract bank state. *)
Class BankKeeper := {
  bank_state : Type;
  GetBalance : bank_state → bytes → string → Z;
  GetSupply : bank_state → string → Z;
  GetAllBalances : bank_state → bytes → Coins;
  SpendableCoins : bank_state → bytes → Coins;
  SendCoinsFromAccountToModule : bytes → string → Coins → bank_state → outcome bank_state;
  SendCoinsFromModuleToAccount : string → bytes → Coins → bank_state → outcome bank_state;
  SendCoinsFromModuleToModule : string → string → Coins → bank_state → outcome bank_state;
  MintCoins : string → Coins → bank_state → outcome bank_state;
  BurnCoins : string → Coins → bank_state → outcome bank_state;
  (** [authtypes.NewModuleAddress] *)
  NewModuleAddress : string → bytes;
}.

(** The address codec and x/staking's denom oracle. *)
Class Codec := {
  StringToBytes : string → outcome bytes;
  BytesToString : bytes → outcome string;
}.

Class StakingKeeper := {
  BondDenom : outcome string;
}.

(** The wire format of a msg: [proto.Marshal] is generated code, a function of the msg's type and of its fields in
    order, and [crypto/sha256] names the bytes. *)
Inductive ProtoValue :=
| PV_uint64 (z : Z)
| PV_string (s : string)
| PV_bytes (b : bytes)
| PV_message (fields : list ProtoValue).

Class Wire := {
  proto_Marshal : string → ProtoValue → outcome bytes;
  sha256 : bytes → bytes;
}.

(** [host_hash] is the hash of zk/poseidon2 behind its interface ([Privacy]). *)
Class Host := {
  host_math :: SdkMath;
  host_bank :: BankKeeper;
  host_codec :: Codec;
  host_staking :: StakingKeeper;
  host_wire :: Wire;
  host_hash :: FieldHash;
}.

(** [authtypes.FeeCollectorName] *)
Definition FeeCollectorName : string := "fee_collector".

(** The hub asset: the bond denom x/staking reports. *)
Definition hub_denom `{StakingKeeper} : string :=
  match BondDenom with Ok d => d | _ => "" end.

(** ** Documented behaviour *)

(** How a bank call changed balances and supply.  [src] and [dst] are the accounts debited
    and credited; a mint has no source and a burn no destination. *)
Definition bank_moved `{BankKeeper} (src dst : option bytes) (amt : Coins) (b b' : bank_state) : Prop :=
  (∀ a d, GetBalance b' a d = GetBalance b a d
     - (if bool_decide (src = Some a) then AmountOf amt d else 0)
     + (if bool_decide (dst = Some a) then AmountOf amt d else 0)) ∧
  (∀ d, GetSupply b' d = GetSupply b d
     - (if bool_decide (dst = None) then AmountOf amt d else 0)
     + (if bool_decide (src = None) then AmountOf amt d else 0)).

Class SdkMathLaws `{SdkMath} : Prop := {
  (** [Int] arithmetic is exact and panics past [MaxBitLen] bits; [Quo] truncates and
      panics on a zero divisor. *)
  IntAdd_spec a b : IntAdd a b = if fits_int (a + b) then Ok (a + b) else Panic;
  IntSub_spec a b : IntSub a b = if fits_int (a - b) then Ok (a - b) else Panic;
  IntMul_spec a b : IntMul a b = if fits_int (a * b) then Ok (a * b) else Panic;
  IntQuo_spec a b : IntQuo a b = if b =? 0 then Panic else Ok (Z.quot a b);
  NewIntFromBigInt_spec a : NewIntFromBigInt a = if fits_int a then Ok a else Panic;
  (** [LegacyDec]: integers are exact; [Mul] and [Quo] round to the nearest unit; the others
      are exact.  Past the type's range they panic, and they are defined while
      the result stays under 2^[MaxBitLen] units. *)
  NewDecFromInt_spec a : NewDecFromInt a = a * dec_one;
  DecAdd_spec a b r : DecAdd a b = Ok r → r = a + b;
  DecMul_spec a b r : DecMul a b = Ok r → 2 * Z.abs (r * dec_one - a * b) ≤ dec_one;
  DecMul_total a b : Z.abs (a * b) < 2 ^ MaxBitLen → is_ok (DecMul a b) = true;
  DecQuo_spec a b r : 0 < b → DecQuo a b = Ok r → 2 * Z.abs (r * b - a * dec_one) ≤ b;
  DecQuo_total a b : 0 < b → Z.abs (a * dec_one) < 2 ^ MaxBitLen → is_ok (DecQuo a b) = true;
  DecMulInt64_spec a n r : DecMulInt64 a n = Ok r → r = a * n;
  DecCeil_spec a r : DecCeil a = Ok r → r = - (- a / dec_one) * dec_one;
  DecCeil_total a : Z.abs a < 2 ^ MaxBitLen → is_ok (DecCeil a) = true;
  DecTruncateInt_spec a r : DecTruncateInt a = Ok r → r = Z.quot a dec_one;
  DecTruncateInt_total a : Z.abs a < 2 ^ MaxBitLen → is_ok (DecTruncateInt a) = true;
  (** A denom has at least three characters. *)
  ValidateDenom_nonempty d : ValidateDenom d = true → d ≠ "";
  (** [NewCoin] panics on an invalid denom or a negative amount; [Add] and [Sub] on a
      denom mismatch, on overflow, and [Sub] on a negative result. *)
  NewCoin_spec d a c : NewCoin d a = Ok c → c = mkCoin d a ∧ 0 ≤ a;
  CoinAdd_spec x y c : CoinAdd x y = Ok c →
    Denom x = Denom y ∧ c = mkCoin (Denom x) (Amount x + Amount y);
  CoinSub_spec x y c : CoinSub x y = Ok c →
    Denom x = Denom y ∧ c = mkCoin (Denom x) (Amount x - Amount y) ∧ 0 ≤ Amount c;
  (** [NewCoins] sorts, drops zero coins and panics on a duplicate or negative one. *)
  NewCoins_spec l cs : NewCoins l = Ok cs →
    (∀ d, AmountOf cs d = AmountOf l d) ∧ coins_wf cs;
  (** [Coins.Add] adds denom by denom, dropping zeros. *)
  CoinsAdd_spec x y cs : CoinsAdd x y = Ok cs →
    (∀ d, AmountOf cs d = AmountOf x d + AmountOf y d) ∧ (coins_wf x → coins_wf y → coins_wf cs);
}.

Class BankLaws `{BankKeeper} : Prop := {
  (** Balances are [Int]s, never negative, and a holder's part of the supply. *)
  GetBalance_range b a d : 0 ≤ GetBalance b a d < 2 ^ MaxBitLen;
  GetBalance_supply b a d : GetBalance b a d ≤ GetSupply b d;
  SendA2M_spec a m amt b b' : SendCoinsFromAccountToModule a m amt b = Ok b' →
    bank_moved (Some a) (Some (NewModuleAddress m)) amt b b';
  SendM2A_spec m a amt b b' : SendCoinsFromModuleToAccount m a amt b = Ok b' →
    bank_moved (Some (NewModuleAddress m)) (Some a) amt b b';
  SendM2M_spec m m' amt b b' : SendCoinsFromModuleToModule m m' amt b = Ok b' →
    bank_moved (Some (NewModuleAddress m)) (Some (NewModuleAddress m')) amt b b';
  MintCoins_spec m amt b b' : MintCoins m amt b = Ok b' →
    bank_moved None (Some (NewModuleAddress m)) amt b b';
  BurnCoins_spec m amt b b' : BurnCoins m amt b = Ok b' →
    bank_moved (Some (NewModuleAddress m)) None amt b b';
  (** [GetAllBalances] and [SpendableCoins] list positive balances; a module account
      has no locked coins, so its spendable coins are all it holds. *)
  GetAllBalances_spec b a :
    coins_wf (GetAllBalances b a) ∧ ∀ d, AmountOf (GetAllBalances b a) d = GetBalance b a d;
  SpendableCoins_spec b m : let cs := SpendableCoins b (NewModuleAddress m) in
    coins_wf cs ∧ ∀ d, AmountOf cs d = GetBalance b (NewModuleAddress m) d;
  (** Module accounts of different names are different accounts. *)
  NewModuleAddress_inj m m' : NewModuleAddress m = NewModuleAddress m' → m = m';
  (** [blockAccAddrs] (app/app_config.go) lists the dex account, and
      [SendCoinsFromModuleToAccount] refuses a blocked recipient. *)
  SendM2A_blocked m amt b b' :
    SendCoinsFromModuleToAccount m (NewModuleAddress "dex") amt b ≠ Ok b';
}.

Class HostLaws `{Host} : Prop := {
  host_math_laws :: SdkMathLaws;
  host_bank_laws :: BankLaws;
  host_bond_denom : BondDenom = Ok hub_denom;
}.

(** ** Consequences *)

(** [bank_moved]'s conditions, with the account on the left. *)
Lemma bd_some (x a : bytes) : bool_decide (Some x = Some a) = bool_decide (a = x).
Proof. apply bool_decide_ext. naive_solver. Qed.
Lemma bd_none (x : bytes) : bool_decide (Some x = None) = false.
Proof. by apply bool_decide_eq_false_2. Qed.

Lemma coins_wf_nil : coins_wf [].
Proof. split; [constructor|]. intros c Hc. by apply elem_of_nil in Hc. Qed.

Lemma coins_wf_single d a : 0 < a → coins_wf [mkCoin d a].
Proof.
  intros Ha. split; [apply NoDup_singleton|]. by intros c ->%list_elem_of_singleton.
Qed.

Section math.
Context `{SdkMathLaws}.

Lemma fits_int_spec z : fits_int z = true ↔ - 2 ^ 256 < z < 2 ^ 256.
Proof. unfold fits_int, MaxBitLen. rewrite Z.ltb_lt, Z.abs_lt. lia. Qed.

Lemma IntAdd_ok a b r : IntAdd a b = Ok r ↔ r = a + b ∧ fits_int (a + b) = true.
Proof. rewrite IntAdd_spec. destruct (fits_int _); intuition congruence. Qed.
Lemma IntSub_ok a b r : IntSub a b = Ok r ↔ r = a - b ∧ fits_int (a - b) = true.
Proof. rewrite IntSub_spec. destruct (fits_int _); intuition congruence. Qed.
Lemma IntMul_ok a b r : IntMul a b = Ok r ↔ r = a * b ∧ fits_int (a * b) = true.
Proof. rewrite IntMul_spec. destruct (fits_int _); intuition congruence. Qed.
Lemma IntQuo_ok a b r : IntQuo a b = Ok r ↔ b ≠ 0 ∧ r = Z.quot a b.
Proof. rewrite IntQuo_spec. destruct (Z.eqb_spec b 0); intuition congruence. Qed.

Lemma NewIntFromBigInt_ok a r : NewIntFromBigInt a = Ok r ↔ r = a ∧ fits_int a = true.
Proof. rewrite NewIntFromBigInt_spec. destruct (fits_int _); intuition congruence. Qed.

Lemma AmountOf_notin cs d : d ∉ Denom <$> cs → AmountOf cs d = 0.
Proof.
  induction cs as [|c cs IH]; [done|]. cbn. intros Hd. rewrite not_elem_of_cons in Hd.
  unfold AmountOf in *. cbn. rewrite bool_decide_eq_false_2 by (intros <-; tauto). tauto.
Qed.

(** In a set with no denom twice, the amount of an entry's denom is the entry's. *)
Lemma AmountOf_elem cs c : NoDup (Denom <$> cs) → c ∈ cs → AmountOf cs (Denom c) = Amount c.
Proof.
  induction cs as [|x cs IH]; [by intros _ ?%elem_of_nil|].
  cbn. rewrite NoDup_cons. intros [Hx Hnd] [->|Hc]%elem_of_cons; unfold AmountOf in *; cbn.
  - rewrite bool_decide_eq_true_2 by done. fold (AmountOf cs (Denom x)).
    rewrite AmountOf_notin by done. lia.
  - rewrite bool_decide_eq_false_2; [by apply IH|]. intros E. apply Hx. rewrite E.
    by apply list_elem_of_fmap_2.
Qed.

Lemma AmountOf_nil d : AmountOf [] d = 0.
Proof. done. Qed.
Lemma AmountOf_cons c cs d :
  AmountOf (c :: cs) d = (if bool_decide (Denom c = d) then Amount c else 0) + AmountOf cs d.
Proof. unfold AmountOf. cbn. case_bool_decide; lia. Qed.
Lemma AmountOf_nonneg cs d : (∀ c, c ∈ cs → 0 ≤ Amount c) → 0 ≤ AmountOf cs d.
Proof.
  induction cs as [|c cs IH]; intros Hc; [done|]. rewrite AmountOf_cons.
  assert (0 ≤ Amount c) by (apply Hc; left).
  assert (0 ≤ AmountOf cs d) by (apply IH; intros; apply Hc; by right).
  case_bool_decide; lia.
Qed.
End math.

(** Successful host calls, turned into the equations above. *)
Ltac host_step :=
  match goal with
  | H : IntAdd _ _ = Ok _ |- _ => apply IntAdd_ok in H; destruct H as [-> ?]
  | H : IntSub _ _ = Ok _ |- _ => apply IntSub_ok in H; destruct H as [-> ?]
  | H : IntMul _ _ = Ok _ |- _ => apply IntMul_ok in H; destruct H as [-> ?]
  | H : IntQuo _ _ = Ok _ |- _ => apply IntQuo_ok in H; destruct H as [? ->]
  | H : NewIntFromBigInt _ = Ok _ |- _ => apply NewIntFromBigInt_ok in H; destruct H as [-> ?]
  | H : NewCoin _ _ = Ok _ |- _ => apply NewCoin_spec in H; destruct H as [-> ?]
  | H : CoinAdd _ _ = Ok _ |- _ => apply CoinAdd_spec in H; destruct H as [? ->]
  | H : CoinSub _ _ = Ok _ |- _ => apply CoinSub_spec in H; destruct H as (? & -> & ?)
  end.
Ltac host_inv := repeat first [prog_step | host_step].

(** Successful bank calls, turned into the balances and supplies after them; and rewriting a
    balance or supply back to the state before. *)
Ltac bank_step :=
  match goal with
  | H : SendCoinsFromAccountToModule _ _ _ _ = Ok _ |- _ => apply SendA2M_spec in H
  | H : SendCoinsFromModuleToAccount _ _ _ _ = Ok _ |- _ => apply SendM2A_spec in H
  | H : SendCoinsFromModuleToModule _ _ _ _ = Ok _ |- _ => apply SendM2M_spec in H
  | H : MintCoins _ _ _ = Ok _ |- _ => apply MintCoins_spec in H
  | H : BurnCoins _ _ _ = Ok _ |- _ => apply BurnCoins_spec in H
  | H : bank_moved _ _ _ _ _ |- _ =>
      let Hb := fresh "Hbal" in let Hs := fresh "Hsup" in destruct H as [Hb Hs]
  end.
Ltac bank_inv := repeat bank_step; cbn in *.
Ltac bank_rw :=
  repeat match goal with
  | H : ∀ a d, GetBalance ?b a d = _ |- context [GetBalance ?b _ _] => rewrite H
  | H : ∀ d, GetSupply ?b d = _ |- context [GetSupply ?b _] => rewrite H
  end.
