(* ===== verification/HashModel.v ===== *)
(** * A hash and a wire format, for the witnesses

    Concrete instances of [FieldHash] and [Wire] that are cheap to evaluate: the hash is not a model of Poseidon2
    (which [Poseidon2.v] defines), nor the encoding one of protobuf; they are only instances of what the program
    relies on. *)

From S2P Require Export Sdk.

Definition cut (z : Z) : Z := Z.land z (Z.ones 252).
Definition mix (l : list Z) : Z := foldl (λ acc x, cut (acc * 1000003 + x + 12345)) (cut (Z.of_nat (length l))) l.

Lemma cut_fr z : is_fr (cut z).
Proof.
  unfold cut, is_fr. rewrite Z.land_ones by lia. pose proof (Z.mod_pos_bound z (2 ^ 252) ltac:(lia)).
  assert (2 ^ 252 < modulus) by (by vm_compute). lia.
Qed.

Lemma mix_fr l : is_fr (mix l).
Proof.
  unfold mix. assert (∀ acc, is_fr acc → is_fr (foldl (λ acc x, cut (acc * 1000003 + x + 12345)) acc l)) as Hl.
  { induction l as [|x l IH]; intros acc Ha; cbn; [done|]. apply IH. apply cut_fr. }
  apply Hl. apply cut_fr.
Qed.

#[export] Instance demo_hash : FieldHash := {| hash := mix; hash_fr := mix_fr |}.

(** ** A wire format: the fields one after the other, each with its kind and length *)
Definition framed (kind : Z) (b : bytes) : bytes := kind :: Z.of_nat (length b) :: b.
Fixpoint encode_value (v : ProtoValue) : bytes :=
  match v with
  | PV_uint64 z => framed 0 (be_bytes 8 z)
  | PV_string s => framed 1 (codes s)
  | PV_bytes b => framed 2 b
  | PV_message l => framed 3 (concat (map encode_value l))
  end.

#[export] Instance demo_wire : Wire := {|
  proto_Marshal t v := Ok (codes t ++ encode_value v);
  sha256 b := be_bytes 32 (foldl (λ acc c, Z.land (acc * 31 + c + 7) (Z.ones 61)) 0 b);
|}.
