(* ===== verification/Merkle.v ===== *)
(** * zk/merkle: the depth-32 binary hash tree of the notes, the identities and the nullifiers

    [zk/merkle/merkle.go]: an incremental sparse tree over a node store.  The store is an interface
    ([NodeStore], with the laws a map satisfies); [MemStore] implements it here, a module's KV store elsewhere.
    The specification is a list of leaves: every node of the store is the hash of the subtree of that list under
    it ([tree_rep]), and each operation refines the list operation of its name. *)

From S2P Require Export Privacy.

Definition Depth : nat := 32.
Definition Capacity : Z := Z.shiftl 1 (Z.of_nat Depth).

Definition ErrFull : error := Plain "merkle: tree full".
Definition ErrOutOfRange : error := Plain "merkle: leaf index not yet appended".

Definition Node `{FieldHash} (l r : Z) : Z := hash [l; r].

(** The root of an empty subtree of each height. *)
Fixpoint Zero `{FieldHash} (level : nat) : Z :=
  match level with
  | O => 0
  | S level => let z := Zero level in Node z z
  end.

(** [NodeStore]: the operations, and what a client may assume of them. *)
Class NodeStore (St : Type) := {
  ns_Get : nat → Z → St → outcome (option Z);
  ns_Set : nat → Z → Z → St → outcome St;
}.

Class NodeStoreLaws (St : Type) `{NodeStore St} := {
  ns_rep : St → gmap (nat * Z) Z → Prop;
  ns_Get_rep s m level i : ns_rep s m → ns_Get level i s = Ok (m !! (level, i));
  ns_Set_rep s m level i v : ns_rep s m → is_fr v →
    ∃ s', ns_Set level i v s = Ok s' ∧ ns_rep s' (<[(level, i) := v]> m);
}.

Definition MemStore : Type := gmap (nat * Z) Z.

#[export] Instance MemStore_store : NodeStore MemStore := {|
  ns_Get level i m := Ok (m !! (level, i));
  ns_Set level i v m := Ok (<[(level, i) := v]> m);
|}.

#[export, refine] Instance MemStore_laws : NodeStoreLaws MemStore := {| ns_rep s m := s = m |}.
Proof.
  - by intros s m level i ->.
  - intros s m level i v -> _. by eexists.
Defined.

Record Tree (St : Type) := { t_store : St; t_next : Z }.
Arguments t_store {St} _.
Arguments t_next {St} _.
Arguments Build_Tree {St} _ _.

Section tree.
Context `{FieldHash} {St : Type} `{NodeStore St}.

Definition New (store : St) (next : Z) : Tree St := Build_Tree store next.
Definition Size (t : Tree St) : Z := t_next t.

Definition node (level : nat) (index : Z) : prog (Tree St) Z :=
  t ← gets id;
  v ← lift (ns_Get level index (t_store t));
  mret (match v with Some v => v | None => Zero level end).

(** [t.store.Set] *)
Definition store_set (level : nat) (index v : Z) : prog (Tree St) () :=
  t ← gets id;
  s ← lift (ns_Set level index v (t_store t));
  modify (λ t, Build_Tree s (t_next t)).

Definition Root : prog (Tree St) Z := node Depth 0.

(** The loop of [set], from level [lvl] up [n] levels. *)
Fixpoint set_loop (n lvl : nat) (index cur : Z) : prog (Tree St) () :=
  match n with
  | O => mret ()
  | S n =>
      sib ← node lvl (Z.lxor index 1);
      let cur := if Z.land index 1 =? 0 then Node cur sib else Node sib cur in
      let index := Z.shiftr index 1 in
      store_set (S lvl) index cur;;
      set_loop n (S lvl) index cur
  end.

Definition set (index leaf : Z) : prog (Tree St) () :=
  store_set 0 index leaf;;
  set_loop Depth 0 index leaf.

Definition Append (leaf : Z) : prog (Tree St) Z :=
  i ← gets t_next;
  refuse_if (Capacity <=? i) ErrFull;;
  set i leaf;;
  modify (λ t, Build_Tree (t_store t) (wrap_u64 (t_next t + 1)));;
  mret i.

Definition Update (index leaf : Z) : prog (Tree St) () :=
  n ← gets t_next;
  refuse_if (n <=? index) ErrOutOfRange;;
  set index leaf.

Definition Leaf (index : Z) : prog (Tree St) Z := node 0 index.

(** The loop of [Path]. *)
Fixpoint path_loop (n lvl : nat) (index : Z) : prog (Tree St) (list Z) :=
  match n with
  | O => mret []
  | S n =>
      v ← node lvl (Z.lxor index 1);
      sib ← path_loop n (S lvl) (Z.shiftr index 1);
      mret (v :: sib)
  end.

Definition Path (index : Z) : prog (Tree St) (list Z) :=
  n ← gets t_next;
  refuse_if (n <=? index) ErrOutOfRange;;
  path_loop Depth 0 index.
End tree.

Definition NewMem : Tree MemStore := New ∅ 0.

Section path.
Context `{FieldHash}.

(** One level of [RootFromPath], and the loop over the siblings from level [lvl]. *)
Definition path_step (lvl : nat) (index cur sib : Z) : Z :=
  if Z.land (Z.shiftr index (Z.of_nat lvl)) 1 =? 0 then Node cur sib else Node sib cur.
Fixpoint path_root (lvl : nat) (index cur : Z) (sib : list Z) : Z :=
  match sib with
  | [] => cur
  | s :: sib => path_root (S lvl) index (path_step lvl index cur s) sib
  end.

(** [sib] is a [[Depth]fr.Element]: a list of [Depth] siblings. *)
Definition RootFromPath (leaf index : Z) (sib : list Z) : Z := path_root 0 index leaf sib.

(** ** The specification: a list of leaves *)

(** The leaf at [i] of a list of leaves, 0 past its end. *)
Definition leaf_at (L : list Z) (i : Z) : Z := default 0 (L !! Z.to_nat i).

(** The hash of the subtree of height [lvl] at index [i] over the leaves [f]. *)
Fixpoint subtree (f : Z → Z) (lvl : nat) (i : Z) : Z :=
  match lvl with
  | O => f i
  | S lvl => Node (subtree f lvl (2 * i)) (subtree f lvl (2 * i + 1))
  end.

Definition ref_root (L : list Z) : Z := subtree (leaf_at L) Depth 0.

(** The siblings on the way from leaf [i] to the root. *)
Definition siblings (L : list Z) (i : Z) : list Z :=
  (λ lvl, subtree (leaf_at L) lvl (Z.lxor (Z.shiftr i (Z.of_nat lvl)) 1)) <$> seq 0 Depth.
End path.

(** ** Indices: bits and parents *)
Lemma land_1_mod i : Z.land i 1 = i mod 2.
Proof. exact (Z.land_ones i 1 ltac:(lia)). Qed.

Lemma shiftr_1_half i : Z.shiftr i 1 = i / 2.
Proof. by rewrite Z.shiftr_div_pow2. Qed.

Lemma lxor_1_even k : Z.lxor (2 * k) 1 = 2 * k + 1.
Proof.
  symmetry. apply Z.add_nocarry_lxor. rewrite land_1_mod. rewrite Z.mul_comm, Z.mod_mul; lia.
Qed.

(** An index and its sibling are the two children of the index's half. *)
Lemma lxor_1_sibling i :
  (i mod 2 = 0 ∧ i = 2 * (i / 2) ∧ Z.lxor i 1 = 2 * (i / 2) + 1) ∨
  (i mod 2 = 1 ∧ i = 2 * (i / 2) + 1 ∧ Z.lxor i 1 = 2 * (i / 2)).
Proof.
  pose proof (Z.div_mod i 2). pose proof (Z.mod_pos_bound i 2 ltac:(lia)).
  destruct (decide (i mod 2 = 0)); [left|right]; (split; [lia|split; [lia|]]).
  - replace i with (2 * (i / 2)) at 1 by lia. apply lxor_1_even.
  - replace i with (2 * (i / 2) + 1) at 1 by lia. rewrite <-lxor_1_even, Z.lxor_assoc.
    change (Z.lxor 1 1) with 0. by rewrite Z.lxor_0_r.
Qed.

Lemma shiftr_succ i (n : nat) : Z.shiftr i (Z.of_nat (S n)) = Z.shiftr i (Z.of_nat n) / 2.
Proof. rewrite Nat2Z.inj_succ, <-Z.add_1_r, <-Z.shiftr_shiftr by lia. apply shiftr_1_half. Qed.

Lemma shiftr_small i (n : nat) : 0 ≤ i < 2 ^ Z.of_nat n → Z.shiftr i (Z.of_nat n) = 0.
Proof. intros Hi. rewrite Z.shiftr_div_pow2 by lia. by apply Z.div_small. Qed.

(** The two ways a parent's children are ordered. *)
Lemma node_pair `{FieldHash} i cur sib (f : Z → Z) :
  cur = f i → sib = f (Z.lxor i 1) →
  (if Z.land i 1 =? 0 then Node cur sib else Node sib cur) = Node (f (2 * (i / 2))) (f (2 * (i / 2) + 1)).
Proof.
  intros -> ->. rewrite land_1_mod. destruct (lxor_1_sibling i) as [(Em & Ei & ->)|(Em & Ei & ->)]; rewrite Em; cbn;
    by rewrite <-Ei.
Qed.

(** ** The representation *)
Section rep.
Context `{FieldHash} {St : Type} `{NodeStoreLaws St}.

Definition node_of (m : gmap (nat * Z) Z) (level : nat) (i : Z) : Z :=
  match m !! (level, i) with Some v => v | None => Zero level end.

(** Every node of the store is the root of its subtree of leaves. *)
Definition tree_rep (t : Tree St) (L : list Z) : Prop :=
  Z.of_nat (length L) ≤ Capacity ∧ t_next t = Z.of_nat (length L) ∧ Forall is_fr L ∧
  ∃ m, ns_rep (t_store t) m ∧
    ∀ level i, (level ≤ Depth)%nat → 0 ≤ i → node_of m level i = subtree (leaf_at L) level i.

Lemma node_run t m level i : ns_rep (t_store t) m → node level i t = Ok (node_of m level i, t).
Proof. intros Hm. unfold node, lift. run_fwd. unfold id. by erewrite run_bind by (by rewrite (ns_Get_rep _ m)). Qed.

Lemma store_set_run t m level i v :
  ns_rep (t_store t) m → is_fr v →
  ∃ s', store_set level i v t = Ok ((), Build_Tree s' (t_next t)) ∧ ns_rep s' (<[(level, i) := v]> m).
Proof.
  intros Hm Hv. destruct (ns_Set_rep (t_store t) m level i v Hm Hv) as (s' & E & Hm').
  exists s'. split; [|done]. unfold store_set, lift, id. run_fwd. by erewrite run_bind by (by rewrite E).
Qed.

Lemma node_of_insert m level i v level' i' :
  node_of (<[(level, i) := v]> m) level' i' = if decide (level' = level ∧ i' = i) then v else node_of m level' i'.
Proof.
  unfold node_of. destruct (decide _) as [[-> ->]|Hne]; [by rewrite lookup_insert_eq|].
  rewrite lookup_insert_ne; [done|]. intros [= -> ->]. by apply Hne.
Qed.

(** A subtree depends only on the leaves under it. *)
Lemma subtree_ext f g level i :
  (∀ j, Z.shiftr j (Z.of_nat level) = i → f j = g j) → subtree f level i = subtree g level i.
Proof.
  revert i. induction level as [|level IH]; intros i Hfg; cbn [subtree].
  - apply Hfg. by rewrite Z.shiftr_0_r.
  - f_equal; apply IH; intros j Hj; apply Hfg; rewrite shiftr_succ, Hj.
    + rewrite Z.mul_comm. by apply Z.div_mul.
    + rewrite Z.mul_comm, Z.add_comm, Z.div_add by lia. done.
Qed.

Lemma subtree_zero level i : subtree (λ _, 0) level i = Zero level.
Proof. revert i. induction level as [|level IH]; intros i; cbn; [done|]. by rewrite !IH. Qed.

Lemma subtree_fr f level i : (∀ j, is_fr (f j)) → is_fr (subtree f level i).
Proof. intros Hf. destruct level; [apply Hf|apply hash_fr]. Qed.

Lemma leaf_at_fr L i : Forall is_fr L → is_fr (leaf_at L i).
Proof.
  intros HL. unfold leaf_at. destruct (L !! Z.to_nat i) as [v|] eqn:E; cbn; [|done].
  by eapply Forall_lookup in E.
Qed.

(** The loop of [set] after the node of level [lvl] is right: the levels below are those of the new leaves,
    and above only the ancestors of the leaf are missing. *)
Lemma set_loop_run f i0 n lvl t m :
  (n + lvl = Depth)%nat → (∀ j, is_fr (f j)) → ns_rep (t_store t) m → 0 ≤ i0 →
  (∀ l i, (l ≤ Depth)%nat → 0 ≤ i → (l ≤ lvl)%nat ∨ i ≠ Z.shiftr i0 (Z.of_nat l) → node_of m l i = subtree f l i) →
  ∃ s' m', set_loop n lvl (Z.shiftr i0 (Z.of_nat lvl)) (subtree f lvl (Z.shiftr i0 (Z.of_nat lvl))) t =
      Ok ((), Build_Tree s' (t_next t)) ∧ ns_rep s' m' ∧
    ∀ l i, (l ≤ Depth)%nat → 0 ≤ i → node_of m' l i = subtree f l i.
Proof.
  revert lvl t m. induction n as [|n IH]; intros lvl t m Hn Hf Hm Hi0 Hnodes.
  { exists (t_store t), m. split_and!; [by destruct t|done|]. intros l i Hl Hi. apply Hnodes; [done..|lia]. }
  cbn [set_loop]. set (i := Z.shiftr i0 (Z.of_nat lvl)) in *.
  assert (0 ≤ i) as Hi by (by apply Z.shiftr_nonneg).
  assert (0 ≤ Z.lxor i 1) as Hx by (apply Z.lxor_nonneg; lia).
  erewrite run_bind by (by apply node_run). rewrite (Hnodes lvl (Z.lxor i 1)) by (lia || done).
  rewrite (node_pair i _ _ (subtree f lvl)) by done. rewrite shiftr_1_half.
  change (Node _ _) with (subtree f (S lvl) (i / 2)).
  destruct (store_set_run t m (S lvl) (i / 2) (subtree f (S lvl) (i / 2)) Hm) as (s1 & E1 & Hm1); [by apply subtree_fr|].
  erewrite run_bind by exact E1. unfold i. rewrite <-shiftr_succ.
  destruct (IH (S lvl) (Build_Tree s1 (t_next t)) (<[(S lvl, i / 2) := subtree f (S lvl) (i / 2)]> m)) as (s' & m' & E & Hm' & Hall);
    [lia|done|done|done| |by exists s', m'].
  intros l j Hl Hj Hor. rewrite node_of_insert. destruct (decide _) as [[-> ->]|Hne]; [done|].
  apply Hnodes; [done..|]. destruct Hor as [Hle|Hj']; [|by right].
  destruct (decide (l = S lvl)) as [->|]; [right|left; lia]. rewrite shiftr_succ. intros ->. by apply Hne.
Qed.
End rep.

(** ** The operations implement the list operations *)
Section operations.
Context `{FieldHash} {St : Type} `{NodeStoreLaws St}.
Implicit Types (t : Tree St) (L : list Z).

Lemma leaf_at_insert L i v j :
  0 ≤ i < Z.of_nat (length L) → 0 ≤ j → leaf_at (<[Z.to_nat i := v]> L) j = if decide (j = i) then v else leaf_at L j.
Proof.
  intros Hi Hj. unfold leaf_at. destruct (decide (j = i)) as [->|Hne].
  - rewrite list_lookup_insert_eq by lia. done.
  - by rewrite list_lookup_insert_ne by lia.
Qed.

Lemma leaf_at_app L v j :
  0 ≤ j → leaf_at (L ++ [v]) j = if decide (j = Z.of_nat (length L)) then v else leaf_at L j.
Proof.
  intros Hj. unfold leaf_at. destruct (decide (j = _)) as [->|Hne].
  - rewrite Nat2Z.id. by rewrite lookup_app_r, Nat.sub_diag by lia.
  - destruct (decide (j < Z.of_nat (length L))).
    + by rewrite lookup_app_l by lia.
    + rewrite !lookup_ge_None_2; [done|lia|rewrite length_app; cbn; lia].
Qed.

(** [set] writes one leaf, in a list that already holds it or just past its end. *)
Lemma set_run t L L' i v :
  tree_rep t L → 0 ≤ i → is_fr v → Forall is_fr L' →
  (∀ j, 0 ≤ j → leaf_at L' j = if decide (j = i) then v else leaf_at L j) →
  ∃ s' m', set i v t = Ok ((), Build_Tree s' (t_next t)) ∧ ns_rep s' m' ∧
    ∀ l j, (l ≤ Depth)%nat → 0 ≤ j → node_of m' l j = subtree (leaf_at L') l j.
Proof.
  intros (HC & Hn & HL & m & Hm & Hnodes) Hi Hv HL' Hleaf. unfold set.
  destruct (store_set_run t m 0 i v Hm Hv) as (s1 & E1 & Hm1). erewrite run_bind by exact E1.
  destruct (set_loop_run (leaf_at L') i Depth 0 (Build_Tree s1 (t_next t)) (<[(0%nat, i) := v]> m))
    as (s' & m' & E & Hm' & Hall); [done|intros; by apply leaf_at_fr|done|done| |].
  - intros l j Hl Hj Hor. rewrite node_of_insert. destruct (decide _) as [[-> ->]|Hne].
    { cbn [subtree]. rewrite Hleaf by done. by rewrite decide_True. }
    rewrite Hnodes by done. apply subtree_ext. intros k Hk. 
    destruct (decide (0 ≤ k)) as [Hk0|Hk0].
    2:{ exfalso. assert (Z.shiftr k (Z.of_nat l) < 0) by (apply Z.shiftr_neg; lia). lia. }
    rewrite Hleaf by done. rewrite decide_False; [done|]. intros ->.
    destruct Hor as [Hl0|Hj']; [|by rewrite Hk in Hj'].
    apply Hne. assert (l = 0%nat) as -> by lia. cbn in Hk. rewrite Z.shiftr_0_r in Hk. done.
  - cbn [Z.of_nat subtree] in E. rewrite Z.shiftr_0_r in E. rewrite Hleaf, decide_True in E by done.
    exists s', m'. split_and!; [exact E|done|done].
Qed.

Lemma Root_spec t L : tree_rep t L → Root t = Ok (ref_root L, t).
Proof.
  intros (_ & _ & _ & m & Hm & Hnodes). unfold Root. rewrite (node_run _ m) by done. unfold ref_root. rewrite Hnodes by done. reflexivity.
Qed.

Lemma Append_spec t L v :
  tree_rep t L → is_fr v → Z.of_nat (length L) < Capacity →
  ∃ t', Append v t = Ok (Z.of_nat (length L), t') ∧ tree_rep t' (L ++ [v]).
Proof.
  intros Ht Hv Hlt. pose proof Ht as (HC & Hn & HL & _). unfold Append. run_fwd. rewrite Hn.
  unfold refuse_if. destruct (Z.leb_spec Capacity (Z.of_nat (length L))); [lia|]. run_fwd.
  assert (Forall is_fr (L ++ [v])) as HL' by (apply Forall_app; split; [done|by apply Forall_singleton]).
  destruct (set_run t L (L ++ [v]) (Z.of_nat (length L)) v Ht) as (s' & m' & E & Hm' & Hall);
    [lia|done|done|apply leaf_at_app|].
  erewrite run_bind by exact E. run_fwd. eexists. split; [reflexivity|]. cbn [t_next]. rewrite Hn, wrap_u64_id.
  2:{ change Capacity with (2 ^ 32) in *. lia. }
  split_and!; [rewrite length_app; cbn [length]; lia|cbn [t_next]; rewrite length_app; cbn [length]; lia|done|].
  by exists m'.
Qed.

Lemma Append_full t L v : tree_rep t L → Z.of_nat (length L) = Capacity → Append v t = Err ErrFull.
Proof. intros (_ & Hn & _) Hl. unfold Append. run_fwd. rewrite Hn, Hl. done. Qed.

Lemma Update_spec t L i v :
  tree_rep t L → is_fr v → 0 ≤ i < Z.of_nat (length L) →
  ∃ t', Update i v t = Ok ((), t') ∧ tree_rep t' (<[Z.to_nat i := v]> L).
Proof.
  intros Ht Hv Hi. pose proof Ht as (HC & Hn & HL & _). unfold Update. run_fwd. rewrite Hn.
  unfold refuse_if. destruct (Z.leb_spec (Z.of_nat (length L)) i); [lia|]. run_fwd.
  assert (Forall is_fr (<[Z.to_nat i := v]> L)) as HL' by (by apply Forall_insert).
  destruct (set_run t L (<[Z.to_nat i := v]> L) i v Ht) as (s' & m' & E & Hm' & Hall);
    [lia|done|done|intros; by apply leaf_at_insert|].
  eexists. split; [exact E|]. split_and!; [by rewrite length_insert|by rewrite length_insert|done|]. by exists m'.
Qed.

Lemma Update_out_of_range t L i v :
  tree_rep t L → Z.of_nat (length L) ≤ i → Update i v t = Err ErrOutOfRange.
Proof.
  intros (_ & Hn & _) Hi. unfold Update. run_fwd. rewrite Hn. unfold refuse_if.
  by destruct (Z.leb_spec (Z.of_nat (length L)) i); [|lia].
Qed.

Lemma Leaf_spec t L i : tree_rep t L → 0 ≤ i → Leaf i t = Ok (leaf_at L i, t).
Proof.
  intros (_ & _ & _ & m & Hm & Hnodes) Hi. unfold Leaf. rewrite (node_run _ m) by done.
  by rewrite Hnodes by (done || unfold Depth; lia).
Qed.

(** A tree is the tree of one list. *)
Lemma tree_rep_unique t L L' : tree_rep t L → tree_rep t L' → L = L'.
Proof.
  intros HL HL'. assert (length L = length L') as El by (destruct HL as (_ & E & _), HL' as (_ & E' & _); lia).
  apply (list_eq_same_length _ _ (length L)); [lia|done|]. intros i x y Hi Hx Hy.
  pose proof (Leaf_spec t L (Z.of_nat i) HL ltac:(lia)) as E. rewrite (Leaf_spec t L' (Z.of_nat i) HL') in E by lia.
  injection E as E. unfold leaf_at in E. rewrite Nat2Z.id, Hx, Hy in E. cbn in E. congruence.
Qed.

Lemma path_loop_run t L i0 n lvl :
  tree_rep t L → 0 ≤ i0 → (n + lvl = Depth)%nat →
  path_loop n lvl (Z.shiftr i0 (Z.of_nat lvl)) t =
    Ok ((λ l, subtree (leaf_at L) l (Z.lxor (Z.shiftr i0 (Z.of_nat l)) 1)) <$> seq lvl n, t).
Proof.
  intros (_ & _ & _ & m & Hm & Hnodes) Hi. revert lvl. induction n as [|n IH]; intros lvl Hn; [done|].
  cbn [path_loop seq fmap list_fmap].
  erewrite run_bind by (by apply node_run). rewrite shiftr_1_half, <-shiftr_succ.
  erewrite run_bind by (apply IH; lia). rewrite Hnodes; [done|lia|].
  apply Z.lxor_nonneg. pose proof (Z.shiftr_nonneg i0 (Z.of_nat lvl)). lia.
Qed.

Lemma Path_spec t L i :
  tree_rep t L → 0 ≤ i < Z.of_nat (length L) → Path i t = Ok (siblings L i, t).
Proof.
  intros Ht Hi. unfold Path. run_fwd. pose proof Ht as (_ & Hn & _). rewrite Hn. unfold refuse_if.
  destruct (Z.leb_spec (Z.of_nat (length L)) i); [lia|]. run_fwd.
  pose proof (path_loop_run t L i Depth 0 Ht ltac:(lia) eq_refl) as E. rewrite Z.shiftr_0_r in E. exact E.
Qed.

(** ** Membership paths *)
Lemma path_step_pair L lvl i0 cur sib :
  cur = subtree (leaf_at L) lvl (Z.shiftr i0 (Z.of_nat lvl)) →
  sib = subtree (leaf_at L) lvl (Z.lxor (Z.shiftr i0 (Z.of_nat lvl)) 1) →
  path_step lvl i0 cur sib = subtree (leaf_at L) (S lvl) (Z.shiftr i0 (Z.of_nat (S lvl))).
Proof.
  intros Hc Hs. unfold path_step. rewrite (node_pair _ _ _ (subtree (leaf_at L) lvl)) by done. by rewrite shiftr_succ.
Qed.

Lemma path_root_siblings L i0 n lvl :
  path_root lvl i0 (subtree (leaf_at L) lvl (Z.shiftr i0 (Z.of_nat lvl)))
    ((λ l, subtree (leaf_at L) l (Z.lxor (Z.shiftr i0 (Z.of_nat l)) 1)) <$> seq lvl n) =
  subtree (leaf_at L) (n + lvl) (Z.shiftr i0 (Z.of_nat (n + lvl))).
Proof.
  revert lvl. induction n as [|n IH]; intros lvl; [done|]. cbn [path_root seq fmap list_fmap].
  rewrite (path_step_pair L) by done. rewrite IH. by replace (n + S lvl)%nat with (S n + lvl)%nat by lia.
Qed.

Lemma RootFromPath_siblings L i :
  0 ≤ i < Capacity → RootFromPath (leaf_at L i) i (siblings L i) = ref_root L.
Proof.
  intros Hi. unfold RootFromPath, siblings. pose proof (path_root_siblings L i Depth 0) as E.
  rewrite Z.shiftr_0_r in E. cbn [subtree] in E. unfold ref_root. rewrite E, Nat.add_0_r.
  rewrite shiftr_small by exact Hi. reflexivity.
Qed.

(** The running node of a path at level [lvl], and the pair hashed there. *)
Definition path_node (leaf i : Z) (sib : list Z) (lvl : nat) : Z := path_root 0 i leaf (take lvl sib).
Definition path_pair (leaf i : Z) (sib : list Z) (lvl : nat) : list Z :=
  let cur := path_node leaf i sib lvl in
  let s := default 0 (sib !! lvl) in
  if Z.land (Z.shiftr i (Z.of_nat lvl)) 1 =? 0 then [cur; s] else [s; cur].

(** The pair the tree of the leaves [L] hashes above leaf [i] at level [lvl]. *)
Definition tree_pair (L : list Z) (i : Z) (lvl : nat) : list Z :=
  let p := Z.shiftr i (Z.of_nat (S lvl)) in
  [subtree (leaf_at L) lvl (2 * p); subtree (leaf_at L) lvl (2 * p + 1)].

(** Two paths to the same root hash different pairs to the same node at some level. *)
Definition path_collides (L : list Z) (leaf i : Z) (sib : list Z) : Prop :=
  ∃ lvl, (lvl < Depth)%nat ∧ collide (path_pair leaf i sib lvl) (tree_pair L i lvl).

Lemma path_root_app lvl i cur sib s :
  path_root lvl i cur (sib ++ [s]) = path_step (lvl + length sib) i (path_root lvl i cur sib) s.
Proof.
  revert lvl cur. induction sib as [|x sib IH]; intros lvl cur; cbn; [by rewrite Nat.add_0_r|].
  rewrite IH. by rewrite Nat.add_succ_r.
Qed.

Lemma path_node_succ leaf i sib lvl :
  (lvl < length sib)%nat → path_node leaf i sib (S lvl) = hash (path_pair leaf i sib lvl).
Proof.
  intros Hl. unfold path_node, path_pair. destruct (lookup_lt_is_Some_2 sib lvl Hl) as [s Hs].
  rewrite (take_S_r _ _ s) by done. rewrite path_root_app, length_take, Nat.min_l by lia. rewrite Hs.
  cbn [default]. unfold path_step, path_node. cbn [Nat.add]. unfold default, id. by destruct (_ =? 0).
Qed.

(** If the paths agree at a level, they agree below or collide there. *)
Lemma path_down L leaf i sib lvl :
  (lvl < length sib)%nat → 0 ≤ i →
  path_node leaf i sib (S lvl) = subtree (leaf_at L) (S lvl) (Z.shiftr i (Z.of_nat (S lvl))) →
  path_node leaf i sib lvl = subtree (leaf_at L) lvl (Z.shiftr i (Z.of_nat lvl)) ∨
  collide (path_pair leaf i sib lvl) (tree_pair L i lvl).
Proof.
  intros Hl Hi E. rewrite path_node_succ in E by done. cbn [subtree] in E.
  destruct (collide_dec _ (tree_pair L i lvl) E) as [Ep|Hc]; [left|by right].
  unfold path_pair, tree_pair in Ep. rewrite shiftr_succ, land_1_mod in Ep.
  set (j := Z.shiftr i (Z.of_nat lvl)) in *.
  destruct (lxor_1_sibling j) as [(Em & Ei & _)|(Em & Ei & _)]; rewrite Em in Ep; cbn in Ep;
    injection Ep as E1 E2; congruence.
Qed.

Lemma path_sound_upto L leaf i sib n :
  length sib = Depth → 0 ≤ i → (n ≤ Depth)%nat →
  path_node leaf i sib n = subtree (leaf_at L) n (Z.shiftr i (Z.of_nat n)) →
  leaf = leaf_at L i ∨ path_collides L leaf i sib.
Proof.
  intros Hs Hi. induction n as [|n IH]; intros Hn E.
  - left. unfold path_node in E. cbn in E. by rewrite Z.shiftr_0_r in E.
  - destruct (path_down L leaf i sib n) as [E'|Hc]; [lia|done|done| |].
    + apply IH; [lia|done].
    + right. exists n. split; [lia|done].
Qed.

Lemma RootFromPath_sound L leaf i sib :
  length sib = Depth → 0 ≤ i < Capacity → RootFromPath leaf i sib = ref_root L →
  leaf = leaf_at L i ∨ path_collides L leaf i sib.
Proof.
  intros Hs Hi E. apply (path_sound_upto L leaf i sib Depth Hs); [lia|done|].
  unfold path_node. rewrite take_ge by lia. unfold RootFromPath in E. rewrite E. unfold ref_root.
  rewrite shiftr_small by exact Hi. reflexivity.
Qed.

(** Only the low [Depth] bits of the index matter. *)
Lemma shiftr_low_bit i (n : nat) :
  0 ≤ i → (n < Depth)%nat → Z.land (Z.shiftr (i mod Capacity) (Z.of_nat n)) 1 = Z.land (Z.shiftr i (Z.of_nat n)) 1.
Proof.
  intros Hi Hn. rewrite !land_1_mod, <-!Z.bit0_mod, !Z.shiftr_spec by lia. f_equal.
  change Capacity with (2 ^ 32). unfold Depth in Hn. by rewrite Z.mod_pow2_bits_low by lia.
Qed.

Lemma path_root_mod lvl i cur sib :
  0 ≤ i → (lvl + length sib ≤ Depth)%nat → path_root lvl (i mod Capacity) cur sib = path_root lvl i cur sib.
Proof.
  revert lvl cur. induction sib as [|s sib IH]; intros lvl cur Hi Hl; [done|]. cbn [path_root length] in *.
  rewrite IH by lia. unfold path_step. by rewrite shiftr_low_bit by lia.
Qed.

Lemma RootFromPath_mod leaf i sib :
  0 ≤ i → length sib = Depth → RootFromPath leaf (i mod Capacity) sib = RootFromPath leaf i sib.
Proof. intros Hi Hs. apply path_root_mod; [done|lia]. Qed.

(** ** Properties *)

(** C31: The tree of the notes implements the list of its leaves: its root is the root of the full reference tree
    over them, appending a leaf appends to the list and returns its index until the capacity of 2^32 leaves,
    overwriting a leaf replaces that list element only, reading a leaf reads the list (0 past its end), and indices
    not yet appended are refused. *)
Theorem tree_implements_leaf_list t L :
  tree_rep t L →
  Root t = Ok (ref_root L, t) ∧
  (∀ v, is_fr v → if decide (Z.of_nat (length L) < Capacity)
    then ∃ t', Append v t = Ok (Z.of_nat (length L), t') ∧ tree_rep t' (L ++ [v])
    else Append v t = Err ErrFull) ∧
  (∀ i v, is_fr v → 0 ≤ i → if decide (i < Z.of_nat (length L))
    then ∃ t', Update i v t = Ok ((), t') ∧ tree_rep t' (<[Z.to_nat i := v]> L)
    else Update i v t = Err ErrOutOfRange) ∧
  (∀ i, 0 ≤ i → Leaf i t = Ok (leaf_at L i, t)).
Proof.
  intros Ht. pose proof Ht as (HC & _). split_and!.
  - by apply Root_spec.
  - intros v Hv. destruct (decide _); [by apply Append_spec|]. apply (Append_full t L); [done|lia].
  - intros i v Hv Hi. destruct (decide _); [by apply Update_spec|]. apply (Update_out_of_range t L); [done|lia].
  - intros i Hi. by apply Leaf_spec.
Qed.

(** C32: A membership path proves exactly the tree's leaf: the path the tree hands out for an appended leaf leads to
    the root, and whatever leaf and path lead to the root of the tree at an index, that leaf is the tree's at
    that index, unless the path and the tree hash two different pairs to the same node at some level. *)
Theorem membership_path_sound t L :
  tree_rep t L →
  (∀ i, 0 ≤ i < Z.of_nat (length L) → ∃ sib, Path i t = Ok (sib, t) ∧ length sib = Depth ∧
     Root t = Ok (RootFromPath (leaf_at L i) i sib, t)) ∧
  (∀ leaf i sib, length sib = Depth → 0 ≤ i < Capacity → Root t = Ok (RootFromPath leaf i sib, t) →
     leaf = leaf_at L i ∨ path_collides L leaf i sib).
Proof.
  intros Ht. pose proof Ht as (HC & _). split.
  - intros i Hi. exists (siblings L i). split_and!; [by apply Path_spec| |].
    + unfold siblings. by rewrite length_fmap, length_seq.
    + rewrite RootFromPath_siblings by lia. by apply Root_spec.
  - intros leaf i sib Hs Hi E. apply RootFromPath_sound; [done..|]. rewrite (Root_spec t L) in E by done. congruence.
Qed.
End operations.

Lemma node_of_empty `{FieldHash} level i : node_of ∅ level i = Zero level.
Proof. done. Qed.

(** The empty tree represents no leaf. *)
Lemma NewMem_rep `{FieldHash} : tree_rep NewMem [].
Proof.
  split; [apply Z.leb_le; reflexivity|]. split; [reflexivity|]. split; [constructor|].
  exists ∅. split; [reflexivity|]. intros level i _ _. rewrite node_of_empty, <-(subtree_zero level i).
  apply subtree_ext. intros j _. unfold leaf_at. by rewrite lookup_nil.
Qed.
