(* ===== verification/Indexed.v ===== *)
(** * zk/indexed: the sorted tree of stake nullifiers

    [zk/indexed/indexed.go] and [mem.go]: an indexed Merkle tree, in which each leaf holds a value, its successor and
    the successor's index, so that a path proves a value absent.  The value index is an interface ([Index]);
    [MemIndex], with its binary search, implements it.  The specification is the list of values in
    insertion order: the leaves are the linked list of its sorted values ([links]). *)

From S2P Require Export Merkle.

(** ** The linked list of a set of values *)

(** The smallest value of [order] above [u], or 0; and a value's leaf index, 0 for the sentinel. *)
Definition next_in (order : list Z) (u : Z) : Z :=
  foldr (λ w acc, if (u <? w) && ((acc =? 0) || (w <? acc)) then w else acc) 0 order.
Definition index_in (order : list Z) (u : Z) : Z :=
  match list_find (eq u) order with Some (k, _) => Z.of_nat k + 1 | None => 0 end.

(** The leaves of the values [order], by the hash [mk value next_value next_index] of one. *)
Definition links (mk : Z → Z → Z → Z) (order : list Z) : list Z :=
  (λ u, mk u (next_in order u) (index_in order (next_in order u))) <$> 0 :: order.

Definition values_ok (order : list Z) : Prop := NoDup order ∧ Forall (λ u, is_fr u ∧ 0 < u) order.

(** [n] is the successor of [u] in [order], 0 if there is none. *)
Definition is_next (order : list Z) (u n : Z) : Prop :=
  (n = 0 ∧ ∀ w, w ∈ order → w ≤ u) ∨ (n ∈ order ∧ u < n ∧ ∀ w, w ∈ order → u < w → n ≤ w).

(** [l] is the greatest value of [order] below [v], 0 (the sentinel) if there is none. *)
Definition is_low (order : list Z) (v l : Z) : Prop :=
  l < v ∧ (l = 0 ∨ l ∈ order) ∧ ∀ w, w ∈ order → w < v → w ≤ l.

Section links.
Implicit Types order : list Z.

Lemma next_in_spec order u : (∀ w, w ∈ order → 0 < w) → is_next order u (next_in order u).
Proof.
  induction order as [|w order IH]; intros Hpos; cbn [next_in foldr].
  { left. split; [done|]. by intros ? ?%elem_of_nil. }
  fold (next_in order u).
  assert (0 < w) as Hw by (apply Hpos; left). specialize (IH ltac:(intros; apply Hpos; by right)).
  destruct (Z.ltb_spec u w); cbn [andb].
  - destruct IH as [[E Hall]|(Hin & Hlt & Hmin)].
    + rewrite E. cbn. right. split; [left|]. split; [done|]. intros x [->|Hx]%elem_of_cons; [lia|].
      intros Hux. specialize (Hall x Hx). lia.
    + assert (next_in order u ≠ 0) as Hn0 by (intros E0; rewrite E0 in *; specialize (Hpos 0 ltac:(by right)); lia).
      destruct (Z.eqb_spec (next_in order u) 0); [done|]. cbn [orb].
      destruct (Z.ltb_spec w (next_in order u)); right.
      * split; [left|]. split; [done|]. intros x [->|Hx]%elem_of_cons Hux; [lia|]. specialize (Hmin x Hx Hux). lia.
      * split; [by right|]. split; [done|]. intros x [->|Hx]%elem_of_cons Hux; [lia|]. by apply Hmin.
  - destruct IH as [[E Hall]|(Hin & Hlt & Hmin)].
    + left. split; [done|]. intros x [->|Hx]%elem_of_cons; [lia|]. by apply Hall.
    + right. split; [by right|]. split; [done|]. intros x [->|Hx]%elem_of_cons Hux; [lia|]. by apply Hmin.
Qed.

Lemma is_next_unique order u n n' :
  (∀ w, w ∈ order → 0 < w) → is_next order u n → is_next order u n' → n = n'.
Proof.
  intros Hpos [[-> Ha]|(Hn & Hl & Hm)] [[-> Ha']|(Hn' & Hl' & Hm')].
  - done.
  - specialize (Ha _ Hn'). lia.
  - specialize (Ha' _ Hn). lia.
  - specialize (Hm _ Hn' Hl'). specialize (Hm' _ Hn Hl). lia.
Qed.

Lemma values_pos order w : values_ok order → w ∈ order → 0 < w.
Proof. intros [_ Ha] Hw. by apply (proj1 (Forall_forall _ _) Ha w Hw). Qed.
Lemma values_fr order w : values_ok order → w ∈ order → is_fr w.
Proof. intros [_ Ha] Hw. by apply (proj1 (Forall_forall _ _) Ha w Hw). Qed.

Lemma values_split order : values_ok order → NoDup order ∧ ∀ w, w ∈ order → 0 < w.
Proof. intros Ho. split; [apply Ho|]. intros w. by apply values_pos. Qed.

Lemma values_ok_snoc order v : values_ok order → is_fr v → 0 < v → v ∉ order → values_ok (order ++ [v]).
Proof.
  intros [Hnd Ha] Hv Hv0 Hni. split; [|apply Forall_app; split; [done|by apply Forall_singleton]].
  apply NoDup_app. split_and!; [done| |apply NoDup_singleton]. by intros x Hx ->%list_elem_of_singleton.
Qed.

Lemma index_in_lookup order u k :
  NoDup order → order !! k = Some u → index_in order u = Z.of_nat k + 1.
Proof.
  intros Hnd Hk. unfold index_in. destruct (list_find (eq u) order) as [[j x]|] eqn:E.
  - apply list_find_Some in E as (Hj & <- & _). f_equal. f_equal. by eapply NoDup_lookup.
  - apply list_find_None in E. eapply Forall_lookup in E; [|exact Hk]. done.
Qed.

Lemma index_in_notin order u : u ∉ order → index_in order u = 0.
Proof.
  intros Hu. unfold index_in. destruct (list_find (eq u) order) as [[j x]|] eqn:E; [|done].
  apply list_find_Some in E as (Hj & <- & _). by apply list_elem_of_lookup_2 in Hj.
Qed.

Lemma index_in_snoc order u v : u ∈ order → index_in (order ++ [v]) u = index_in order u.
Proof.
  intros [k Hk]%list_elem_of_lookup. unfold index_in.
  assert (∃ r, list_find (eq u) order = Some r) as [[i x] E].
  { destruct (list_find (eq u) order) eqn:E; [by eexists|]. apply list_find_None in E.
    eapply Forall_lookup in E; [|exact Hk]. done. }
  by rewrite E, (list_find_app_l _ _ _ _ _ E).
Qed.

Lemma elem_of_snoc order u v : u ∈ order ++ [v] ↔ u ∈ order ∨ u = v.
Proof. by rewrite elem_of_app, list_elem_of_singleton. Qed.

Lemma values_nonzero order : values_ok order → 0 ∉ order.
Proof. intros Ho H0. pose proof (values_pos _ _ Ho H0). lia. Qed.

(** How inserting [v] changes the successors: the low value's is now [v], and [v] takes over the old one. *)
Lemma next_snoc order v l u :
  values_ok (order ++ [v]) → is_low order v l → u ∈ 0 :: order → v ∉ order →
  next_in (order ++ [v]) u = if decide (u = l) then v else next_in order u.
Proof.
  intros Ho (Hlv & Hl & Hmax) Hu Hv.
  assert (∀ w, w ∈ order ++ [v] → 0 < w) as Hp by (intros; by eapply values_pos).
  assert (∀ w, w ∈ order → 0 < w) as Hp' by (intros; apply Hp; rewrite elem_of_snoc; by left).
  assert (0 < v) as Hv0 by (apply Hp; rewrite elem_of_snoc; by right).
  apply (is_next_unique (order ++ [v]) u); [done|by apply next_in_spec|].
  destruct (decide (u = l)) as [->|Hne].
  { right. rewrite elem_of_snoc. split; [by right|]. split; [done|].
    intros w [Hw| ->]%elem_of_snoc Hlw; [|done]. destruct (decide (w < v)); [|lia]. specialize (Hmax w Hw). lia. }
  pose proof (next_in_spec order u Hp') as Hn. destruct Hn as [[E Hall]|(Hin & Hlt & Hmin)].
  - rewrite E. left. split; [done|]. intros w [Hw| ->]%elem_of_snoc; [by apply Hall|].
    destruct Hl as [->|Hl].
    + apply elem_of_cons in Hu as [->|Hu]; [done|]. specialize (Hmax u Hu). specialize (Hp' u Hu). lia.
    + specialize (Hall l Hl). apply elem_of_cons in Hu as [->|Hu].
      * specialize (Hp' l Hl). lia.
      * destruct (decide (u < v)); [specialize (Hmax u Hu); lia|lia].
  - right. rewrite elem_of_snoc. split; [by left|]. split; [done|].
    intros w [Hw| ->]%elem_of_snoc Huw; [by apply Hmin|].
    destruct (decide (next_in order u < v)); [lia|].
    destruct Hl as [->|Hl].
    + apply elem_of_cons in Hu as [->|Hu]; [done|]. specialize (Hmax u Hu Huw). specialize (Hp' u Hu). lia.
    + assert (u < l). { apply elem_of_cons in Hu as [->|Hu]; [by apply Hp'|]. specialize (Hmax u Hu Huw). lia. }
      specialize (Hmin l Hl). lia.
Qed.

Lemma next_of_new order v l :
  values_ok (order ++ [v]) → is_low order v l → v ∉ order → next_in (order ++ [v]) v = next_in order l.
Proof.
  intros Ho (Hlv & Hl & Hmax) Hv.
  assert (∀ w, w ∈ order ++ [v] → 0 < w) as Hp by (intros; by eapply values_pos).
  assert (∀ w, w ∈ order → 0 < w) as Hp' by (intros; apply Hp; rewrite elem_of_snoc; by left).
  apply (is_next_unique (order ++ [v]) v); [done|by apply next_in_spec|].
  destruct (next_in_spec order l Hp') as [[E Hall]|(Hin & Hlt & Hmin)].
  - rewrite E. left. split; [done|]. intros w [Hw| ->]%elem_of_snoc; [|done].
    specialize (Hall w Hw). lia.
  - assert (next_in order l ≠ v) by (by intros <-).
    right. rewrite elem_of_snoc. split; [by left|]. split.
    + destruct (decide (next_in order l < v)); [specialize (Hmax _ Hin); lia|lia].
    + intros w [Hw| ->]%elem_of_snoc Hvw; [|lia]. apply Hmin; [done|lia].
Qed.

(** A sorted insertion rewrites the low leaf and appends one. *)
Lemma links_snoc (mk mk' : Z → Z → Z → Z) order v l :
  values_ok (order ++ [v]) → v ∉ order → is_low order v l →
  (∀ u n i, u ∈ 0 :: order → mk u n i = mk' u n i) →
  links mk' (order ++ [v]) =
    <[Z.to_nat (index_in order l) := mk' l v (Z.of_nat (length order) + 1)]> (links mk order) ++
    [mk' v (next_in order l) (index_in order (next_in order l))].
Proof.
  intros Ho Hv Hlow Hmk. pose proof Hlow as (Hlv & Hl & Hmax).
  assert (NoDup order) as Hnd. { destruct Ho as [Hnd _]. by apply NoDup_app in Hnd as [? _]. }
  assert (∀ w, w ∈ order → 0 < w) as Hp.
  { intros w Hw. eapply values_pos; [exact Ho|]. rewrite elem_of_snoc. by left. }
  assert (∀ u, u = 0 ∨ u ∈ order → index_in (order ++ [v]) u = index_in order u) as Hidx.
  { intros u [->|Hu]; [|by apply index_in_snoc]. rewrite !index_in_notin; [done| |by apply values_nonzero].
    intros H0. specialize (Hp 0 H0). lia. }
  assert (∀ u, next_in order u = 0 ∨ next_in order u ∈ order) as Hnext.
  { intros u. destruct (next_in_spec order u Hp) as [[-> _]|(Hin & _)]; tauto. }
  assert (index_in (order ++ [v]) v = Z.of_nat (length order) + 1) as Hvi.
  { apply index_in_lookup; [apply Ho|]. by rewrite lookup_app_r, Nat.sub_diag by lia. }
  unfold links. rewrite app_comm_cons, fmap_app. f_equal.
  2:{ cbn [fmap list_fmap]. rewrite (next_of_new order v l) by done. by rewrite Hidx by apply Hnext. }
  assert (Hpos : ∀ u k, (0 :: order) !! k = Some u → Z.of_nat k = index_in order u).
  { intros u [|k] Hk; cbn in Hk.
    - injection Hk as <-. rewrite index_in_notin; [done|]. intros H0. specialize (Hp 0 H0). lia.
    - rewrite (index_in_lookup order u k) by done. lia. }
  apply list_eq. intros k. rewrite list_lookup_insert, !list_lookup_fmap.
  destruct ((0 :: order) !! k) as [u|] eqn:Hk.
  2:{ apply lookup_ge_None in Hk. rewrite decide_False; [done|]. rewrite length_fmap. lia. }
  pose proof (list_elem_of_lookup_2 _ _ _ Hk) as Hu. pose proof (Hpos u k Hk) as Hku. cbn [fmap option_fmap option_map].
  assert (k < length (0%Z :: order))%nat as Hlt by (by eapply lookup_lt_Some).
  rewrite (next_snoc order v l u) by done. destruct (decide (u = l)) as [->|Hne].
  - rewrite decide_True by (rewrite length_fmap; lia). by rewrite Hvi.
  - rewrite decide_False. { cbn. rewrite Hmk by done. by rewrite Hidx by apply Hnext. }
    intros [Hkl _]. apply Hne. 
    assert (∃ k', (0 :: order) !! k' = Some l) as [k' Hk'].
    { apply list_elem_of_lookup. destruct Hl as [->|Hl]; [left|by right]. }
    pose proof (Hpos l k' Hk'). assert (k = k') as -> by lia. congruence.
Qed.

Lemma links_length mk order : length (links mk order) = S (length order).
Proof. unfold links. by rewrite length_fmap. Qed.

(** The leaf of a value is its link. *)
Lemma links_lookup mk order u :
  NoDup order → (∀ w, w ∈ order → 0 < w) → u ∈ 0 :: order →
  links mk order !! Z.to_nat (index_in order u) =
    Some (mk u (next_in order u) (index_in order (next_in order u))) ∧ 0 ≤ index_in order u ≤ Z.of_nat (length order).
Proof.
  intros Hnd Hp Hu. unfold links. rewrite list_lookup_fmap.
  apply elem_of_cons in Hu as [->|Hu].
  - rewrite (index_in_notin order 0); [cbn; split; [done|lia]|]. intros H0. specialize (Hp 0 H0). lia.
  - apply list_elem_of_lookup in Hu as [k Hk]. rewrite (index_in_lookup order u k) by done.
    replace (Z.to_nat (Z.of_nat k + 1)) with (S k) by lia.
    change ((0 :: order) !! S k) with (order !! k). rewrite Hk.
    apply lookup_lt_Some in Hk. split; [done|lia].
Qed.

(** Whoever has a link that spans [v] shows that [v] is not a value. *)
Lemma spanned_absent order u v :
  (∀ w, w ∈ order → 0 < w) → u < v → next_in order u = 0 ∨ v < next_in order u → v ∉ order.
Proof.
  intros Hp Huv Hn Hv. destruct (next_in_spec order u Hp) as [[E Hall]|(Hin & Hlt & Hmin)].
  - specialize (Hall v Hv). lia.
  - specialize (Hmin v Hv Huv). specialize (Hp _ Hin). lia.
Qed.
End links.

(** ** The code: the value index *)

(** What a client may assume of the value index: [m] maps each inserted value to its leaf index. *)
Definition is_below (m : gmap Z Z) (v : Z) (r : option (Z * Z)) : Prop :=
  match r with
  | Some (u, i) => m !! u = Some i ∧ u < v ∧ ∀ w, is_Some (m !! w) → w < v → w ≤ u
  | None => ∀ w, is_Some (m !! w) → v ≤ w
  end.
Definition is_above (m : gmap Z Z) (v : Z) (r : option (Z * Z)) : Prop :=
  match r with
  | Some (u, i) => m !! u = Some i ∧ v < u ∧ ∀ w, is_Some (m !! w) → v < w → u ≤ w
  | None => ∀ w, is_Some (m !! w) → w ≤ v
  end.

Class Index (Ix : Type) := {
  ix_Get : Z → Ix → outcome (option Z);
  ix_Below : Z → Ix → outcome (option (Z * Z));
  ix_Above : Z → Ix → outcome (option (Z * Z));
  ix_Put : Z → Z → Ix → outcome Ix;
}.

Class IndexLaws (Ix : Type) `{Index Ix} := {
  ix_rep : Ix → gmap Z Z → Prop;
  ix_Get_rep x m v : ix_rep x m → ix_Get v x = Ok (m !! v);
  ix_Below_rep x m v : ix_rep x m → ∃ r, ix_Below v x = Ok r ∧ is_below m v r;
  ix_Above_rep x m v : ix_rep x m → ∃ r, ix_Above v x = Ok r ∧ is_above m v r;
  ix_Put_rep x m v i : ix_rep x m → m !! v = None → is_fr v → 0 < v →
    ∃ x', ix_Put v i x = Ok x' ∧ ix_rep x' (<[v := i]> m);
}.

(** [sort.Search]: the binary search of Go's library. *)
Fixpoint sort_search (fuel : nat) (f : nat → bool) (i j : nat) : nat :=
  match fuel with
  | O => i
  | S fuel =>
      if (i <? j)%nat then
        let h := Nat.div2 (i + j) in
        if f h then sort_search fuel f i h else sort_search fuel f (S h) j
      else i
  end.
Definition Search (n : nat) (f : nat → bool) : nat := sort_search n f 0 n.

(** [MemIndex]: sorted values with their indices. *)
Record MemIndex := { vals : list Z; idx : list Z }.

Definition search (v : Z) (m : MemIndex) : nat :=
  Search (length (vals m)) (λ i, v <=? nth i (vals m) 0).

Definition MemIndex_Get (v : Z) (m : MemIndex) : option Z :=
  let i := search v m in
  if (i <? length (vals m))%nat && (nth i (vals m) 0 =? v) then Some (nth i (idx m) 0) else None.

Definition MemIndex_Below (v : Z) (m : MemIndex) : option (Z * Z) :=
  match search v m with
  | O => None
  | S i => Some (nth i (vals m) 0, nth i (idx m) 0)
  end.

Definition MemIndex_Above (v : Z) (m : MemIndex) : option (Z * Z) :=
  let i := search v m in
  let i := if (i <? length (vals m))%nat && (nth i (vals m) 0 =? v) then S i else i in
  if (length (vals m) <=? i)%nat then None else Some (nth i (vals m) 0, nth i (idx m) 0).

Definition MemIndex_Put (v index : Z) (m : MemIndex) : MemIndex :=
  let i := search v m in
  {| vals := take i (vals m) ++ v :: drop i (vals m); idx := take i (idx m) ++ index :: drop i (idx m) |}.

Definition NewMemIndex : MemIndex := {| vals := []; idx := [] |}.

#[export] Instance MemIndex_index : Index MemIndex := {|
  ix_Get v m := Ok (MemIndex_Get v m);
  ix_Below v m := Ok (MemIndex_Below v m);
  ix_Above v m := Ok (MemIndex_Above v m);
  ix_Put v i m := Ok (MemIndex_Put v i m);
|}.

(** ** The code: the tree *)
Definition ErrExists : error := Plain "indexed: value already in the tree".
Definition ErrZero : error := Plain "indexed: 0 is the sentinel, never a value".

Record Leaf := mkLeaf { Value : Z; NextValue : Z; NextIndex : Z }.

Record Tree (St Ix : Type) := { nodes : Merkle.Tree St; index : Ix }.
Arguments nodes {St Ix} _.
Arguments index {St Ix} _.
Arguments Build_Tree {St Ix} _ _.

Record Witness := mkWitness { Low : Leaf; Index_ : Z; Path_ : list Z }.

Section indexed.
Context `{FieldHash}.

Definition leaf_Hash (l : Leaf) : Z := NFLeaf (Value l) (NextValue l) (NextIndex l).
Definition SentinelLeaf : Leaf := mkLeaf 0 0 0.

(** The package's [init]: the root of a tree holding only the sentinel. *)
Definition EmptyRoot : Z :=
  match (Merkle.Append (leaf_Hash SentinelLeaf);; Merkle.Root) Merkle.NewMem with
  | Ok (r, _) => r
  | _ => 0
  end.

(** [Witness.Verify] *)
Definition Verify (w : Witness) (v root : Z) : bool :=
  if negb (RootFromPath (leaf_Hash (Low w)) (Index_ w) (Path_ w) =? root) then false
  else if v <=? Value (Low w) then false
  else (NextValue (Low w) =? 0) || (v <? NextValue (Low w)).

Context {St Ix : Type} `{NodeStore St} `{Index Ix}.

(** A call on the node tree, and one on the value index. *)
Definition on_nodes {A} (p : prog (Merkle.Tree St) A) : prog (Tree St Ix) A := λ t,
  match p (nodes t) with
  | Ok (a, n) => Ok (a, Build_Tree n (index t))
  | Err e => Err e
  | Panic => Panic
  end.
Definition on_index {A} (f : Ix → outcome A) : prog (Tree St Ix) A :=
  t ← gets id; lift (f (index t)).

Definition indexed_New (store : St) (x : Ix) (size : Z) : Tree St Ix := Build_Tree (Merkle.New store size) x.
Definition indexed_Size (t : Tree St Ix) : Z := Merkle.Size (nodes t).

Definition indexed_Root : prog (Tree St Ix) Z :=
  n ← gets indexed_Size;
  if n =? 0 then mret EmptyRoot else on_nodes Merkle.Root.

Definition Has (v : Z) : prog (Tree St Ix) bool :=
  r ← on_index (ix_Get v);
  mret (match r with Some _ => true | None => false end).

Definition neighbours (v : Z) : prog (Tree St Ix) (Leaf * Z) :=
  b ← on_index (ix_Below v);
  let '(lv, lowIndex) := default (0, 0) b in
  a ← on_index (ix_Above v);
  let '(nv, ni) := default (0, 0) a in
  mret (mkLeaf lv nv ni, lowIndex).

Definition Insert (v : Z) : prog (Tree St Ix) Z :=
  refuse_if (v =? 0) ErrZero;;
  has ← Has v;
  refuse_if has ErrExists;;
  n ← gets indexed_Size;
  (if n =? 0 then _ ← on_nodes (Merkle.Append (leaf_Hash SentinelLeaf)); mret () else mret ());;
  n ← gets indexed_Size;
  refuse_if (Capacity <=? n) ErrFull;;
  '(low, lowIndex) ← neighbours v;
  i ← gets indexed_Size;
  let leaf := mkLeaf v (NextValue low) (NextIndex low) in
  let low := mkLeaf (Value low) v i in
  on_nodes (Merkle.Update lowIndex (leaf_Hash low));;
  _ ← on_nodes (Merkle.Append (leaf_Hash leaf));
  x ← on_index (ix_Put v i);
  modify (λ t, Build_Tree (nodes t) x);;
  mret i.

Definition NonMembership (v : Z) : prog (Tree St Ix) Witness :=
  refuse_if (v =? 0) ErrZero;;
  has ← Has v;
  refuse_if has ErrExists;;
  '(low, lowIndex) ← neighbours v;
  n ← gets indexed_Size;
  if n =? 0 then mret (mkWitness low lowIndex (Zero <$> seq 0 Depth))
  else
    p ← on_nodes (Merkle.Path lowIndex);
    mret (mkWitness low lowIndex p).
End indexed.

Definition indexed_NewMem : Tree MemStore MemIndex := indexed_New ∅ NewMemIndex 0.

(** The loop of [Rebuild], from a tree. *)
Definition Rebuild `{FieldHash} (values : list Z) : outcome (Tree MemStore MemIndex) :=
  '(_, t) ← for_each values (λ v, _ ← Insert v; mret ()) indexed_NewMem;
  mret t.

(** ** [MemIndex] keeps its promise *)
Section mem_index.

Lemma sort_search_spec f n fuel i j :
  (∀ a b, (a ≤ b < n)%nat → f a = true → f b = true) → (i ≤ j ≤ n)%nat → (j - i ≤ fuel)%nat →
  (∀ k, (k < i)%nat → f k = false) → (∀ k, (j ≤ k < n)%nat → f k = true) →
  let r := sort_search fuel f i j in
  (r ≤ n)%nat ∧ (∀ k, (k < r)%nat → f k = false) ∧ (∀ k, (r ≤ k < n)%nat → f k = true).
Proof.
  intros Hmono. revert i j. induction fuel as [|fuel IH]; intros i j Hij Hf Hlo Hhi; cbn [sort_search].
  { assert (i = j) as -> by lia. split_and!; [lia|done|done]. }
  destruct (Nat.ltb_spec i j) as [Hlt|Hge].
  2:{ assert (i = j) as -> by lia. split_and!; [lia|done|done]. }
  pose proof (Nat.div2_odd (i + j)) as Hh. set (h := Nat.div2 (i + j)) in *.
  assert (i ≤ h < j)%nat as Hr by (destruct (Nat.odd (i + j)); cbn in Hh; lia).
  destruct (f h) eqn:Efh.
  - apply IH; [lia|lia|done|]. intros k Hk. destruct (decide (j ≤ k)%nat); [apply Hhi; lia|].
    apply (Hmono h k); [lia|done].
  - apply IH; [lia|lia| |done]. intros k Hk. destruct (f k) eqn:Efk; [|done].
    rewrite (Hmono k h) in Efh; [done|lia|done].
Qed.

Definition mem_rep (x : MemIndex) (m : gmap Z Z) : Prop :=
  length (vals x) = length (idx x) ∧
  (∀ a b u w, vals x !! a = Some u → vals x !! b = Some w → (a < b)%nat → u < w) ∧
  ∀ v i, m !! v = Some i ↔ ∃ k, vals x !! k = Some v ∧ idx x !! k = Some i.

(** The search splits the values at [v]. *)
Lemma search_spec x m v :
  mem_rep x m →
  (search v x ≤ length (vals x))%nat ∧
  (∀ k u, vals x !! k = Some u → (k < search v x)%nat → u < v) ∧
  (∀ k u, vals x !! k = Some u → (search v x ≤ k)%nat → v ≤ u).
Proof.
  intros (Hlen & Hsort & _). unfold search, Search.
  destruct (sort_search_spec (λ i, v <=? nth i (vals x) 0) (length (vals x)) (length (vals x)) 0 (length (vals x)))
    as (H1 & H2 & H3); [|lia|lia|lia|lia|].
  - intros a b Hab. rewrite !Z.leb_le. destruct (decide (a = b)) as [->|Hne]; [done|].
    destruct (lookup_lt_is_Some_2 (vals x) a ltac:(lia)) as [u Hu].
    destruct (lookup_lt_is_Some_2 (vals x) b ltac:(lia)) as [w Hw].
    rewrite (nth_lookup_Some _ _ _ _ Hu), (nth_lookup_Some _ _ _ _ Hw). specialize (Hsort a b u w Hu Hw). lia.
  - split; [done|]. split; intros k u Hu Hk; pose proof (lookup_lt_Some _ _ _ Hu).
    + specialize (H2 k Hk). cbn beta in H2. rewrite (nth_lookup_Some _ _ _ _ Hu) in H2. lia.
    + specialize (H3 k ltac:(lia)). cbn beta in H3. rewrite (nth_lookup_Some _ _ _ _ Hu) in H3. lia.
Qed.

(** A value below the length of the list is stored with its index. *)
Lemma mem_rep_nth x m k :
  mem_rep x m → (k < length (vals x))%nat →
  vals x !! k = Some (nth k (vals x) 0) ∧ m !! nth k (vals x) 0 = Some (nth k (idx x) 0).
Proof.
  intros (Hlen & _ & Hm) Hk.
  destruct (lookup_lt_is_Some_2 (vals x) k Hk) as [u Hu]. destruct (lookup_lt_is_Some_2 (idx x) k ltac:(lia)) as [i Hi].
  rewrite (nth_lookup_Some _ _ _ _ Hu), (nth_lookup_Some _ _ _ _ Hi). split; [done|]. apply Hm. by exists k.
Qed.

Lemma mem_rep_in x m w : mem_rep x m → is_Some (m !! w) → ∃ k, vals x !! k = Some w.
Proof. intros (_ & _ & Hm) [i Hi]. apply Hm in Hi as (k & Hk & _). by exists k. Qed.

(** Whether the search stops on [v] itself. *)
Lemma search_hit x m v :
  mem_rep x m →
  (search v x <? length (vals x))%nat && (nth (search v x) (vals x) 0 =? v) = bool_decide (is_Some (m !! v)).
Proof.
  intros Hx. destruct (search_spec x m v Hx) as (Hle & Hlo & Hhi).
  destruct (Nat.ltb_spec (search v x) (length (vals x))) as [Hlt|Hge]; cbn [andb].
  - destruct (mem_rep_nth x m _ Hx Hlt) as [Hv Hm]. destruct (Z.eqb_spec (nth (search v x) (vals x) 0) v) as [E|E].
    + rewrite E in Hm. by rewrite bool_decide_eq_true_2 by (by eexists).
    + rewrite bool_decide_eq_false_2; [done|]. intros (k & Hk)%(mem_rep_in _ _ _ Hx).
      destruct (decide (k < search v x)%nat) as [Hks|Hks]; [specialize (Hlo k v Hk Hks); lia|].
      destruct (decide (k = search v x)) as [->|]; [rewrite Hv in Hk; congruence|].
      destruct Hx as (_ & Hsort & _). specialize (Hsort _ k _ _ Hv Hk ltac:(lia)).
      specialize (Hhi _ _ Hv ltac:(lia)). lia.
  - rewrite bool_decide_eq_false_2; [done|]. intros (k & Hk)%(mem_rep_in _ _ _ Hx).
    pose proof (lookup_lt_Some _ _ _ Hk). specialize (Hlo k v Hk ltac:(lia)). lia.
Qed.

Lemma mem_Get x m v : mem_rep x m → MemIndex_Get v x = m !! v.
Proof.
  intros Hx. unfold MemIndex_Get. pose proof (search_hit x m v Hx) as E. rewrite E. case_bool_decide as Hv.
  - apply andb_true_iff in E as [El Ev].
    apply Nat.ltb_lt in El. apply Z.eqb_eq in Ev. destruct (mem_rep_nth x m _ Hx El) as [_ Hm].
    rewrite Ev in Hm. congruence.
  - symmetry. by apply eq_None_not_Some.
Qed.

Lemma mem_Below x m v : mem_rep x m → is_below m v (MemIndex_Below v x).
Proof.
  intros Hx. destruct (search_spec x m v Hx) as (Hle & Hlo & Hhi). unfold MemIndex_Below.
  destruct (search v x) as [|p] eqn:Ep; cbn.
  - intros w (k & Hk)%(mem_rep_in _ _ _ Hx). apply (Hhi k w Hk). lia.
  - destruct (mem_rep_nth x m p Hx ltac:(lia)) as [Hv Hm]. split; [done|]. split; [apply (Hlo p _ Hv); lia|].
    intros w (k & Hk)%(mem_rep_in _ _ _ Hx) Hwv. destruct (decide (k = p)) as [->|]; [rewrite Hv in Hk; simplify_eq; lia|].
    destruct (decide (p < k)%nat) as [Hpk|]; [specialize (Hhi k w Hk Hpk); lia|].
    destruct Hx as (_ & Hsort & _). specialize (Hsort k p _ _ Hk Hv ltac:(lia)). lia.
Qed.

Lemma mem_Above x m v : mem_rep x m → is_above m v (MemIndex_Above v x).
Proof.
  intros Hx. destruct (search_spec x m v Hx) as (Hle & Hlo & Hhi). unfold MemIndex_Above.
  rewrite (search_hit x m v Hx). set (p := if bool_decide _ then _ else _).
  assert (∀ k u, vals x !! k = Some u → (p ≤ k)%nat ↔ v < u) as Hp.
  { intros k u Hu. unfold p. case_bool_decide as Hin.
    - pose proof (search_hit x m v Hx) as E. rewrite bool_decide_eq_true_2 in E by done.
      apply andb_true_iff in E as [El Ev]. apply Nat.ltb_lt in El. apply Z.eqb_eq in Ev.
      destruct (mem_rep_nth x m _ Hx El) as [Hv _]. rewrite Ev in Hv. destruct Hx as (_ & Hsort & _).
      split; intros Hk; [apply (Hsort _ k v u Hv Hu); lia|].
      destruct (decide (k < search v x)%nat) as [Hks|]; [specialize (Hlo k u Hu Hks); lia|].
      destruct (decide (k = search v x)) as [->|]; [rewrite Hv in Hu; simplify_eq; lia|lia].
    - split; intros Hk.
      + specialize (Hhi k u Hu Hk). destruct (decide (u = v)) as [->|]; [|lia]. exfalso. apply Hin.
        destruct Hx as (Hlen & _ & Hm). pose proof (lookup_lt_Some _ _ _ Hu) as Hl. rewrite Hlen in Hl.
        destruct (lookup_lt_is_Some_2 (idx x) k Hl) as [i Hi]. exists i. apply Hm. by exists k.
      + destruct (decide (k < search v x)%nat) as [Hks|]; [specialize (Hlo k u Hu Hks); lia|lia]. }
  destruct (Nat.leb_spec (length (vals x)) p) as [Hge|Hlt]; cbn.
  - intros w (k & Hk)%(mem_rep_in _ _ _ Hx). pose proof (lookup_lt_Some _ _ _ Hk). specialize (Hp k w Hk). lia.
  - destruct (mem_rep_nth x m p Hx Hlt) as [Hv Hm]. split; [done|]. split; [by apply (Hp p)|].
    intros w (k & Hk)%(mem_rep_in _ _ _ Hx) Hvw. apply (Hp k w Hk) in Hvw.
    destruct (decide (k = p)) as [->|]; [rewrite Hv in Hk; simplify_eq; lia|].
    destruct Hx as (_ & Hsort & _). specialize (Hsort p k _ _ Hv Hk ltac:(lia)). lia.
Qed.

(** Inserting in the middle of a list. *)
Lemma lookup_splice {A} (l : list A) (p k : nat) (a : A) :
  (p ≤ length l)%nat →
  (take p l ++ a :: drop p l) !! k = if decide (k < p)%nat then l !! k else if decide (k = p) then Some a else l !! (k - 1)%nat.
Proof.
  intros Hp. destruct (decide (k < p)%nat).
  - rewrite lookup_app_l by (rewrite length_take; lia). by rewrite lookup_take_lt.
  - rewrite lookup_app_r by (rewrite length_take; lia). rewrite length_take, Nat.min_l by lia.
    destruct (decide (k = p)) as [->|]; [by rewrite Nat.sub_diag|].
    replace (k - p)%nat with (S (k - p - 1)) by lia. rewrite lookup_cons, lookup_drop. f_equal. lia.
Qed.

Lemma mem_Put x m v i : mem_rep x m → m !! v = None → mem_rep (MemIndex_Put v i x) (<[v := i]> m).
Proof.
  intros Hx Hv. destruct (search_spec x m v Hx) as (Hle & Hlo & Hhi). pose proof Hx as (Hlen & Hsort & Hm).
  assert (∀ k u, vals x !! k = Some u → (search v x ≤ k)%nat → v < u) as Hhi'.
  { intros k u Hu Hk. specialize (Hhi k u Hu Hk). destruct (decide (u = v)) as [->|]; [|lia].
    pose proof (lookup_lt_Some _ _ _ Hu) as Hl. rewrite Hlen in Hl. destruct (lookup_lt_is_Some_2 (idx x) k Hl) as [j Hj].
    assert (m !! v = Some j) by (apply Hm; by exists k). congruence. }
  unfold MemIndex_Put. set (p := search v x) in *. split_and!; cbn [vals idx].
  - rewrite !length_app, !length_take. cbn [length]. rewrite !length_drop. lia.
  - intros a b u w. rewrite !lookup_splice by lia. intros Ha Hb Hab.
    repeat case_decide; try lia; simplify_eq; first
      [ by apply (Hsort a b) | by apply (Hlo a) | by apply (Hhi' (b - 1)%nat); [|lia]
      | by apply (Hsort a (b - 1)%nat); [| |lia] | by apply (Hsort (a - 1)%nat (b - 1)%nat); [| |lia] ].
  - intros u j. destruct (decide (u = v)) as [->|Hne].
    + rewrite lookup_insert_eq. split.
      * intros [= ->]. exists p. rewrite !lookup_splice by lia. repeat case_decide; by try lia.
      * intros (k & Hk & Hj). rewrite !lookup_splice in Hk, Hj by lia.
        case_decide as Hlt; [specialize (Hlo k v Hk Hlt); lia|].
        case_decide; [congruence|]. specialize (Hhi' _ v Hk ltac:(lia)). lia.
    + rewrite lookup_insert_ne, Hm by done. split; intros (k & Hk & Hj).
      * destruct (decide (k < p)%nat).
        -- exists k. rewrite !lookup_splice by lia. repeat case_decide; by try lia.
        -- exists (S k). rewrite !lookup_splice, Nat.sub_succ, Nat.sub_0_r by lia. repeat case_decide; by try lia.
      * rewrite !lookup_splice in Hk, Hj by lia. case_decide; [by exists k|].
        case_decide; [congruence|]. by exists (k - 1)%nat.
Qed.
End mem_index.

#[export, refine] Instance MemIndex_laws : IndexLaws MemIndex := {| ix_rep := mem_rep |}.
Proof.
  - intros x m v Hx. cbn. by rewrite (mem_Get x m).
  - intros x m v Hx. eexists. split; [reflexivity|]. by apply mem_Below.
  - intros x m v Hx. eexists. split; [reflexivity|]. by apply mem_Above.
  - intros x m v i Hx Hv _ _. eexists. split; [reflexivity|]. by apply mem_Put.
Defined.

(** ** The tree refines the set of inserted values *)
Section tree.
Context `{FieldHash} {St Ix : Type} `{NodeStoreLaws St} `{IndexLaws Ix}.
Implicit Types (t : Tree St Ix) (order : list Z).

(** The leaves of the tree of [order], and what represents it: the sentinel is written by the first insert. *)
Definition nf_leaves (order : list Z) : list Z := links NFLeaf order.

Definition index_rep (x : Ix) (order : list Z) : Prop :=
  ∃ m, ix_rep x m ∧ ∀ u i, m !! u = Some i ↔ u ∈ order ∧ i = index_in order u.

Definition indexed_rep t order : Prop :=
  values_ok order ∧ index_rep (index t) order ∧
  ∃ L, tree_rep (nodes t) L ∧ (L = nf_leaves order ∨ L = [] ∧ order = []).

Lemma on_nodes_run {A} (p : prog (Merkle.Tree St) A) t a n :
  p (nodes t) = Ok (a, n) → on_nodes p t = Ok (a, Build_Tree n (index t)).
Proof. unfold on_nodes. by intros ->. Qed.

Lemma on_index_run {A} (f : Ix → outcome A) t a : f (index t) = Ok a → on_index f t = Ok (a, t).
Proof. unfold on_index, id, lift. run_fwd. by intros ->. Qed.

Lemma index_rep_Get x order v :
  index_rep x order → ix_Get v x = Ok (if decide (v ∈ order) then Some (index_in order v) else None).
Proof.
  intros (m & Hm & Hin). rewrite (ix_Get_rep _ m) by done. f_equal. destruct (decide _) as [Hv|Hv].
  - by apply Hin.
  - apply eq_None_not_Some. intros [i [Hi _]%Hin]. done.
Qed.

(** The predecessor and the successor the code looks up are those of the specification. *)
Lemma index_rep_Below x order v :
  index_rep x order → values_ok order → 0 < v →
  ∃ r, ix_Below v x = Ok r ∧ is_low order v (default (0, 0) r).1 ∧ (default (0, 0) r).2 = index_in order (default (0, 0) r).1.
Proof.
  intros (m & Hm & Hin) Ho Hv. destruct (ix_Below_rep x m v Hm) as (r & E & Hr). exists r. split; [done|].
  destruct r as [[u i]|]; cbn [default fst snd].
  - destruct Hr as ([Hu ->]%Hin & Huv & Hmax). split; [|done]. split; [done|]. split; [by right|].
    intros w Hw Hwv. apply Hmax; [|done]. exists (index_in order w). by apply Hin.
  - cbn. split; [|by rewrite index_in_notin by by apply values_nonzero]. split; [done|]. split; [by left|].
    intros w Hw Hwv. assert (v ≤ w); [|lia]. apply Hr. exists (index_in order w). by apply Hin.
Qed.

Lemma index_rep_Above x order v l :
  index_rep x order → values_ok order → v ∉ order → is_low order v l →
  ∃ r, ix_Above v x = Ok r ∧ default (0, 0) r = (next_in order l, index_in order (next_in order l)).
Proof.
  intros (m & Hm & Hin) Ho Hv (Hlv & Hl & Hmax). destruct (ix_Above_rep x m v Hm) as (r & E & Hr). exists r. split; [done|].
  assert (∀ w, w ∈ order → 0 < w) as Hp by (intros; by eapply values_pos).
  assert (Hn : (default (0, 0) r).1 = next_in order l ∧ (default (0, 0) r).2 = index_in order (default (0, 0) r).1).
  2:{ destruct (default (0, 0) r) as [u i]. cbn in Hn. destruct Hn as [-> ->]. done. }
  destruct r as [[u i]|]; cbn.
  - destruct Hr as ([Hu ->]%Hin & Hvu & Hmin). split; [|done].
    apply (is_next_unique order l); [done| |by apply next_in_spec]. right. split; [done|]. split; [lia|].
    intros w Hw Hlw. apply Hmin; [exists (index_in order w); by apply Hin|].
    destruct (decide (w < v)) as [Hwv|]; [specialize (Hmax w Hw Hwv); lia|]. assert (w ≠ v) by (intros ->; done). lia.
  - split; [|by rewrite index_in_notin by by apply values_nonzero].
    apply (is_next_unique order l); [done| |by apply next_in_spec]. left. split; [done|].
    intros w Hw. assert (w ≤ v) by (apply Hr; exists (index_in order w); by apply Hin).
    assert (w ≠ v) by (intros ->; done). apply Hmax; [done|lia].
Qed.

Lemma index_rep_Put x order v :
  index_rep x order → values_ok (order ++ [v]) → v ∉ order →
  ∃ x', ix_Put v (Z.of_nat (length order) + 1) x = Ok x' ∧ index_rep x' (order ++ [v]).
Proof.
  intros (m & Hm & Hin) Ho Hv.
  assert (v ∈ order ++ [v]) as Hvin by (rewrite elem_of_snoc; by right).
  destruct (ix_Put_rep x m v (Z.of_nat (length order) + 1) Hm) as (x' & E & Hx').
  - apply eq_None_not_Some. intros [i [Hi _]%Hin]. done.
  - by eapply values_fr.
  - by eapply values_pos.
  - exists x'. split; [done|]. eexists. split; [exact Hx'|]. intros u i. destruct (decide (u = v)) as [->|Hne].
    + rewrite lookup_insert_eq. rewrite (index_in_lookup (order ++ [v]) v (length order)); [|apply Ho|].
      * split; [intros [= <-]; done|intros [_ ->]; done].
      * by rewrite lookup_app_r, Nat.sub_diag by lia.
    + rewrite lookup_insert_ne, Hin, elem_of_snoc by done. split.
      * intros [Hu ->]. split; [by left|]. by rewrite index_in_snoc.
      * intros [[Hu| ->] ->]; [|done]. by rewrite index_in_snoc.
Qed.

Lemma neighbours_run t order v :
  index_rep (index t) order → values_ok order → 0 < v → v ∉ order →
  ∃ l, is_low order v l ∧
    neighbours v t = Ok ((mkLeaf l (next_in order l) (index_in order (next_in order l)), index_in order l), t).
Proof.
  intros Hx Ho Hv Hni. destruct (index_rep_Below (index t) order v Hx Ho Hv) as (b & Eb & Hlow & Hi).
  destruct (index_rep_Above (index t) order v _ Hx Ho Hni Hlow) as (a & Ea & Ha).
  exists (default (0, 0) b).1. split; [done|]. unfold neighbours.
  erewrite run_bind by (by apply on_index_run). cbv beta. rewrite (surjective_pairing (default (0, 0) b)). rewrite Hi.
  erewrite run_bind by (by apply on_index_run). cbv beta. by rewrite Ha.
Qed.

Lemma Has_run t order v : index_rep (index t) order → Has v t = Ok (bool_decide (v ∈ order), t).
Proof.
  intros Hx. unfold Has. erewrite run_bind by (apply on_index_run; by apply index_rep_Get).
  destruct (decide _); [by rewrite bool_decide_eq_true_2|by rewrite bool_decide_eq_false_2].
Qed.

Lemma leaf_Hash_fr l : is_fr (leaf_Hash l).
Proof. apply hash_fr. Qed.

Lemma nf_leaves_length order : length (nf_leaves order) = S (length order).
Proof. apply links_length. Qed.

Lemma EmptyRoot_spec : EmptyRoot = ref_root (nf_leaves []).
Proof.
  unfold EmptyRoot. destruct (Append_spec Merkle.NewMem [] (leaf_Hash SentinelLeaf)) as (t & E & Ht);
    [apply NewMem_rep|apply leaf_Hash_fr|reflexivity|].
  erewrite run_bind by exact E. rewrite (Root_spec t _ Ht). reflexivity.
Qed.

Lemma indexed_Root_spec t order : indexed_rep t order → indexed_Root t = Ok (ref_root (nf_leaves order), t).
Proof.
  intros (Ho & Hx & L & Ht & HL). unfold indexed_Root. run_fwd. unfold indexed_Size, Merkle.Size.
  pose proof Ht as (_ & Hn & _). rewrite Hn. destruct HL as [->|[-> ->]].
  - rewrite nf_leaves_length. destruct (Z.eqb_spec (Z.of_nat (S (length order))) 0); [lia|].
    erewrite on_nodes_run by (by apply Root_spec). by destruct t.
  - cbn [length Z.of_nat Z.eqb]. rewrite EmptyRoot_spec. reflexivity.
Qed.
End tree.

(** ** The operations *)
Section operations.
Context `{FieldHash} {St Ix : Type} `{NodeStoreLaws St} `{IndexLaws Ix}.
Implicit Types (t : Tree St Ix) (order : list Z).

(** After the code's [if t.Size() == 0], the sentinel is there. *)
Lemma sentinel_written t order :
  indexed_rep t order →
  ∃ n, (if indexed_Size t =? 0 then _ ← on_nodes (Merkle.Append (leaf_Hash SentinelLeaf)); mret () else mret ()) t =
       Ok ((), Build_Tree n (index t)) ∧ tree_rep n (nf_leaves order).
Proof.
  intros (Ho & Hx & L & Ht & HL). unfold indexed_Size, Merkle.Size. pose proof Ht as (_ & Hn & _). rewrite Hn.
  destruct HL as [->|[-> ->]].
  - rewrite nf_leaves_length. destruct (Z.eqb_spec (Z.of_nat (S (length order))) 0); [lia|].
    exists (nodes t). split; [|done]. by destruct t.
  - destruct (Append_spec (nodes t) [] (leaf_Hash SentinelLeaf) Ht) as (n & E & Hn'); [apply leaf_Hash_fr|reflexivity|].
    exists n. split; [|exact Hn']. change (Z.of_nat (length (@nil Z)) =? 0) with true. cbv iota.
    erewrite run_bind by (apply on_nodes_run; exact E). reflexivity.
Qed.

Lemma Insert_spec t order v :
  indexed_rep t order → is_fr v → 0 < v → v ∉ order → Z.of_nat (length order) + 1 < Capacity →
  ∃ t', Insert v t = Ok (Z.of_nat (length order) + 1, t') ∧ indexed_rep t' (order ++ [v]).
Proof.
  intros Hr Hv Hv0 Hni Hcap. pose proof Hr as (Ho & Hx & _).
  assert (values_ok (order ++ [v])) as Ho' by (by apply values_ok_snoc).
  unfold Insert. destruct (Z.eqb_spec v 0); [lia|]. unfold refuse_if. run_fwd.
  erewrite run_bind by (by apply Has_run). rewrite bool_decide_eq_false_2 by done. run_fwd.
  destruct (sentinel_written t order Hr) as (n1 & E1 & Hn1).
  erewrite run_bind by exact E1. run_fwd. pose proof Hn1 as (_ & Hs1 & _). rewrite nf_leaves_length in Hs1.
  unfold indexed_Size, Merkle.Size. cbn [nodes]. rewrite Hs1.
  unfold refuse_if. destruct (Z.leb_spec Capacity (Z.of_nat (S (length order)))); [lia|]. run_fwd.
  destruct (neighbours_run (Build_Tree n1 (index t)) order v) as (l & Hlow & E2); [done..|].
  erewrite run_bind by exact E2. cbn [Value NextValue NextIndex]. run_fwd. cbn [nodes].
  assert (NoDup order ∧ ∀ w, w ∈ order → 0 < w) as [Hnd Hp] by by apply values_split.
  assert (l ∈ 0 :: order) as Hl0 by (destruct Hlow as (_ & [->|Hl] & _); [left|by right]).
  destruct (links_lookup NFLeaf order l Hnd Hp Hl0) as [_ Hli].
  rewrite Hs1. set (i := Z.of_nat (S (length order))).
  destruct (Update_spec n1 (nf_leaves order) (index_in order l) (leaf_Hash (mkLeaf l v i)) Hn1)
    as (n2 & E3 & Hn2); [apply leaf_Hash_fr|rewrite nf_leaves_length; lia|].
  erewrite run_bind by (apply on_nodes_run; exact E3).
  destruct (Append_spec n2 _ (leaf_Hash (mkLeaf v (next_in order l) (index_in order (next_in order l)))) Hn2)
    as (n3 & E4 & Hn3); [apply leaf_Hash_fr|rewrite length_insert, nf_leaves_length; lia|].
  erewrite run_bind by (apply on_nodes_run; exact E4). cbv beta.
  destruct (index_rep_Put (index t) order v Hx Ho' Hni) as (x & E5 & Hx').
  assert (i = Z.of_nat (length order) + 1) as Ei by (unfold i; lia). rewrite Ei.
  erewrite run_bind by (apply on_index_run; exact E5). run_fwd.
  eexists. split; [reflexivity|]. split; [done|]. split; [exact Hx'|]. eexists. split; [exact Hn3|]. left.
  symmetry. unfold nf_leaves. rewrite (links_snoc NFLeaf NFLeaf order v l) by done. by rewrite Ei.
Qed.

Lemma Insert_errors t order v :
  indexed_rep t order →
  Insert 0 t = Err ErrZero ∧ (v ∈ order → Insert v t = Err ErrExists) ∧
  (0 < v → v ∉ order → Z.of_nat (length order) + 1 = Capacity → Insert v t = Err ErrFull).
Proof.
  intros Hr. pose proof Hr as (Ho & Hx & _). split_and!; [done| |].
  - intros Hv. unfold Insert. pose proof (values_pos _ _ Ho Hv). destruct (Z.eqb_spec v 0); [lia|].
    unfold refuse_if. run_fwd. erewrite run_bind by (by apply Has_run). by rewrite bool_decide_eq_true_2.
  - intros Hv0 Hni Hcap. unfold Insert. destruct (Z.eqb_spec v 0); [lia|]. unfold refuse_if. run_fwd.
    erewrite run_bind by (by apply Has_run). rewrite bool_decide_eq_false_2 by done. run_fwd.
    destruct (sentinel_written t order Hr) as (n1 & E1 & Hn1).
    erewrite run_bind by exact E1. run_fwd. pose proof Hn1 as (_ & Hs1 & _). rewrite nf_leaves_length in Hs1.
    unfold indexed_Size, Merkle.Size. cbn [nodes]. rewrite Hs1. unfold refuse_if.
    destruct (Z.leb_spec Capacity (Z.of_nat (S (length order)))); [done|lia].
Qed.

(** The empty tree's siblings, which the code fills in before the first insert. *)
Lemma siblings_sentinel x : siblings [x] 0 = Zero <$> seq 0 Depth.
Proof.
  unfold siblings. apply list_fmap_ext. intros k lvl _. cbv beta. rewrite Z.shiftr_0_l. change (Z.lxor 0 1) with 1.
  rewrite <-(subtree_zero lvl 1). apply subtree_ext. intros j Hj. unfold leaf_at.
  destruct (decide (j ≤ 0)) as [Hj0|].
  - exfalso. destruct (decide (j = 0)) as [->|]; [by rewrite Z.shiftr_0_l in Hj|].
    assert (Z.shiftr j (Z.of_nat lvl) < 0) by (apply Z.shiftr_neg; lia). lia.
  - by rewrite lookup_ge_None_2 by (cbn; lia).
Qed.

Lemma NonMembership_spec t order v :
  indexed_rep t order → 0 < v → v ∉ order → Z.of_nat (length order) < Capacity →
  ∃ l, is_low order v l ∧ NonMembership v t =
    Ok (mkWitness (mkLeaf l (next_in order l) (index_in order (next_in order l))) (index_in order l)
          (siblings (nf_leaves order) (index_in order l)), t).
Proof.
  intros Hr Hv0 Hni Hcap. pose proof Hr as (Ho & Hx & L & Ht & HL).
  destruct (neighbours_run t order v) as (l & Hlow & E); [done..|]. exists l. split; [done|].
  unfold NonMembership. destruct (Z.eqb_spec v 0); [lia|]. unfold refuse_if. run_fwd.
  erewrite run_bind by (by apply Has_run). rewrite bool_decide_eq_false_2 by done. run_fwd.
  erewrite run_bind by exact E. cbv beta iota. run_fwd. unfold indexed_Size, Merkle.Size.
  pose proof Ht as (_ & Hn & _). rewrite Hn. destruct HL as [->|[-> ->]].
  - rewrite nf_leaves_length. destruct (Z.eqb_spec (Z.of_nat (S (length order))) 0); [lia|].
    assert (NoDup order ∧ ∀ w, w ∈ order → 0 < w) as [Hnd Hp] by by apply values_split.
    assert (l ∈ 0 :: order) as Hl0 by (destruct Hlow as (_ & [->|Hl] & _); [left|by right]).
    destruct (links_lookup NFLeaf order l Hnd Hp Hl0) as [_ Hli].
    erewrite run_bind by (apply on_nodes_run; apply Path_spec; [exact Ht|]; rewrite nf_leaves_length; lia).
    by destruct t.
  - change (Z.of_nat (length (@nil Z)) =? 0) with true. cbv iota.
    destruct Hlow as (_ & [->|Hl] & _); [|apply elem_of_nil in Hl as []].
    assert (nf_leaves [] = [NFLeaf 0 0 0]) as -> by reflexivity.
    assert (index_in [] 0 = 0) as -> by reflexivity. rewrite siblings_sentinel. reflexivity.
Qed.

(** A witness handed out verifies. *)
Lemma Verify_complete order v l :
  values_ok order → v ∉ order → is_low order v l → Z.of_nat (length order) < Capacity →
  Verify (mkWitness (mkLeaf l (next_in order l) (index_in order (next_in order l))) (index_in order l)
    (siblings (nf_leaves order) (index_in order l))) v (ref_root (nf_leaves order)) = true.
Proof.
  intros Ho Hni Hlow Hcap. pose proof Hlow as (Hlv & Hl & Hmax).
  assert (NoDup order ∧ ∀ w, w ∈ order → 0 < w) as [Hnd Hp] by by apply values_split.
  assert (l ∈ 0 :: order) as Hl0 by (destruct Hl as [->|Hl]; [left|by right]).
  destruct (links_lookup NFLeaf order l Hnd Hp Hl0) as [El Hli].
  unfold Verify. cbn [Low Index_ Path_ Value NextValue].
  assert (leaf_Hash (mkLeaf l (next_in order l) (index_in order (next_in order l))) =
          leaf_at (nf_leaves order) (index_in order l)) as ->.
  { unfold leaf_at, nf_leaves. rewrite El. done. }
  rewrite RootFromPath_siblings by lia. rewrite Z.eqb_refl. cbn [negb]. destruct (Z.leb_spec v l); [lia|].
  destruct (next_in_spec order l Hp) as [[-> _]|(Hin & Hln & Hmin)]; [done|].
  destruct (Z.ltb_spec v (next_in order l)); [apply orb_true_r|].
  assert (next_in order l ≠ v) by (intros <-; done). specialize (Hmax _ Hin ltac:(lia)). lia.
Qed.

(** What a witness' leaf hashes. *)
Definition leaf_input (l : Leaf) : list Z := [TagSNFL; Value l; NextValue l; U64 (NextIndex l)].

(** The leaf of the value at a position of the tree. *)
Definition leaf_of order (u : Z) : Leaf := mkLeaf u (next_in order u) (index_in order (next_in order u)).

(** How a witness can verify without proving anything: its path collides with the tree's, its leaf hashes to the
    empty leaf, or it collides with the leaf of another value. *)
Definition witness_collides order (w : Witness) : Prop :=
  path_collides (nf_leaves order) (leaf_Hash (Low w)) (Index_ w mod Capacity) (Path_ w) ∨
  hash (leaf_input (Low w)) = 0 ∨
  ∃ u, u ∈ 0 :: order ∧ collide (leaf_input (Low w)) (leaf_input (leaf_of order u)).

Lemma nf_leaf_at order k :
  leaf_at (nf_leaves order) k = 0 ∨
  ∃ u, u ∈ 0 :: order ∧ leaf_at (nf_leaves order) k = leaf_Hash (leaf_of order u).
Proof.
  unfold leaf_at, nf_leaves, links. rewrite list_lookup_fmap. destruct ((0 :: order) !! Z.to_nat k) as [u|] eqn:E.
  - right. exists u. split; [by eapply list_elem_of_lookup_2|done].
  - by left.
Qed.

Lemma Verify_sound order v w :
  values_ok order → 0 ≤ Index_ w → length (Path_ w) = Depth →
  Verify w v (ref_root (nf_leaves order)) = true → v ∉ order ∨ witness_collides order w.
Proof.
  intros Ho Hi Hp. unfold Verify. destruct (Z.eqb_spec (RootFromPath (leaf_Hash (Low w)) (Index_ w) (Path_ w))
    (ref_root (nf_leaves order))) as [Er|]; [|done]. cbn [negb].
  destruct (Z.leb_spec v (Value (Low w))) as [|Hlow]; [done|]. intros Hnext.
  rewrite <-RootFromPath_mod in Er by done.
  destruct (RootFromPath_sound (nf_leaves order) (leaf_Hash (Low w)) (Index_ w mod Capacity) (Path_ w)) as [El|Hc];
    [done|by apply Z.mod_pos_bound|exact Er| |by right; left].
  destruct (nf_leaf_at order (Index_ w mod Capacity)) as [E0|(u & Hu & Eu)].
  - right. right. left. rewrite E0 in El. exact El.
  - rewrite Eu in El. destruct (collide_dec (leaf_input (Low w)) (leaf_input (leaf_of order u)) El) as [E|Hc].
    + left. unfold leaf_input, leaf_of in E. cbn [Value NextValue NextIndex] in E. injection E as Ev En _.
      rewrite Ev in Hlow. rewrite En in Hnext. destruct (values_split order Ho) as [_ Hpos].
      apply (spanned_absent order u); [done|done|]. apply orb_true_iff in Hnext as [Hz|Hlt]; [left|right]; lia.
    + right. right. right. by exists u.
Qed.

(** ** Properties *)

(** C33: The nullifier tree implements the set of its values: inserting a new one records exactly it, at the next leaf
    index, and the tree's root is then that of the sorted linked list of all the values inserted; zero, a value
    already in the tree and an insertion past the capacity are refused. *)
Theorem insert_implements_set t order v :
  indexed_rep t order → is_fr v →
  indexed_Root t = Ok (ref_root (nf_leaves order), t) ∧
  Has v t = Ok (bool_decide (v ∈ order), t) ∧
  (if decide (v = 0) then Insert v t = Err ErrZero
   else if decide (v ∈ order) then Insert v t = Err ErrExists
   else if decide (Z.of_nat (length order) + 1 < Capacity)
     then ∃ t', Insert v t = Ok (Z.of_nat (length order) + 1, t') ∧ indexed_rep t' (order ++ [v])
   else Z.of_nat (length order) + 1 = Capacity → Insert v t = Err ErrFull).
Proof.
  intros Hr Hv. pose proof Hr as (Ho & Hx & _). split; [by apply indexed_Root_spec|]. split; [by apply Has_run|].
  destruct (Insert_errors t order v Hr) as (E1 & E2 & E3). unfold is_fr in Hv.
  destruct (decide (v = 0)) as [->|]; [done|]. destruct (decide (v ∈ order)); [by apply E2|].
  destruct (decide _); [apply Insert_spec; (done || lia)|]. apply E3; [lia|done].
Qed.

(** C34: Non-membership is sound and complete: for an absent value the tree hands out a witness that verifies against
    its root, and a witness that verifies against the tree's root shows the value absent, unless it exhibits two
    inputs of the hash with one value or a preimage of the empty leaf. *)
Theorem non_membership_sound_complete t order v :
  indexed_rep t order → 0 < v → Z.of_nat (length order) < Capacity →
  (v ∉ order → ∃ w root, NonMembership v t = Ok (w, t) ∧ indexed_Root t = Ok (root, t) ∧ Verify w v root = true) ∧
  (v ∈ order → NonMembership v t = Err ErrExists) ∧
  (∀ w root, indexed_Root t = Ok (root, t) → 0 ≤ Index_ w → length (Path_ w) = Depth → Verify w v root = true →
     v ∉ order ∨ witness_collides order w).
Proof.
  intros Hr Hv Hcap. pose proof Hr as (Ho & Hx & _). split_and!.
  - intros Hni. destruct (NonMembership_spec t order v Hr Hv Hni Hcap) as (l & Hlow & E).
    do 2 eexists. split; [exact E|]. split; [by apply indexed_Root_spec|]. by apply Verify_complete.
  - intros Hin. unfold NonMembership. destruct (Z.eqb_spec v 0); [lia|]. unfold refuse_if. run_fwd.
    erewrite run_bind by (by apply Has_run). by rewrite bool_decide_eq_true_2.
  - intros w root Er Hi Hp HV. rewrite (indexed_Root_spec t order) in Er by done. injection Er as <-.
    by apply Verify_sound.
Qed.
End operations.

Lemma indexed_NewMem_rep `{FieldHash} : indexed_rep indexed_NewMem [].
Proof.
  split; [split; constructor|]. split.
  - exists ∅. split.
    + split; [done|]. split; [by intros|]. intros v i. rewrite lookup_empty. split; [done|]. intros (k & Hk & _). done.
    + intros u i. rewrite lookup_empty. split; [done|]. by intros [?%elem_of_nil _].
  - exists []. split; [apply NewMem_rep|by right].
Qed.

Lemma Rebuild_rep `{FieldHash} values :
  values_ok values → Z.of_nat (length values) < Capacity → ∃ t, Rebuild values = Ok t ∧ indexed_rep t values.
Proof.
  intros Hv Hcap. unfold Rebuild.
  assert (∀ done rest (t : Tree MemStore MemIndex), indexed_rep t done → values_ok (done ++ rest) →
    Z.of_nat (length (done ++ rest)) < Capacity →
    ∃ t', for_each rest (λ v, _ ← Insert v; mret ()) t = Ok ((), t') ∧ indexed_rep t' (done ++ rest)) as Hloop.
  { intros d rest. revert d. induction rest as [|v rest IH]; intros d t Ht Hd Hl.
    - exists t. rewrite app_nil_r in *. done.
    - assert (v ∉ d) as Hni.
      { destruct Hd as [Hnd _]. apply NoDup_app in Hnd as (_ & Hnd & _). intros Hin. apply (Hnd v Hin). left. }
      assert (v ∈ d ++ v :: rest) as Hin by (apply elem_of_app; right; left).
      rewrite length_app in Hl. cbn [length] in Hl.
      destruct (Insert_spec t d v Ht) as (t1 & E1 & Ht1); [by eapply values_fr|by eapply values_pos|done|lia|].
      cbn [for_each]. erewrite run_bind by (erewrite run_bind by exact E1; reflexivity).
      replace (d ++ v :: rest) with ((d ++ [v]) ++ rest) in * by (by rewrite <-app_assoc).
      apply IH; [done|done|]. rewrite !length_app. cbn [length]. lia. }
  destruct (Hloop [] values indexed_NewMem indexed_NewMem_rep) as (t & E & Ht); [done|done|].
  exists t. by rewrite E.
Qed.

(** C35: A wallet that rebuilds the tree from the stream of nullifiers gets the tree of the reference: for distinct
    non-zero field elements in any order, as many as fit, it succeeds and its root is that of the sorted
    linked list of the values. *)
Theorem rebuild_is_reference `{FieldHash} values :
  values_ok values → Z.of_nat (length values) < Capacity →
  ∃ t, Rebuild values = Ok t ∧ indexed_rep t values ∧ indexed_Root t = Ok (ref_root (nf_leaves values), t).
Proof.
  intros Hv Hcap. destruct (Rebuild_rep values Hv Hcap) as (t & E & Ht). exists t. split; [done|]. split; [done|].
  by apply indexed_Root_spec.
Qed.
