(* ===== verification/Debt.v ===== *)
(** * zk/debt: the slash debt tree

    [zk/debt/debt.go]: an indexed tree with one row per slashed redelegation, each row's leaf holding what the
    redelegation's exposure is still worth.  The specification is the list of keys in insertion order and
    the map of their retained amounts; the sorted links and the value index are those of [Indexed]. *)

From S2P Require Export Indexed.

Definition debt_ErrZero : error := Plain "debt: 0 is the sentinel, never a key".
Definition ErrNoRetained : error := Plain "debt: a row without its retained value".

(** [Rows]: the operations, and what a client may assume of them. *)
Class Rows (R : Type) := {
  rw_Retained : Z → R → outcome (option Z);
  rw_SetRetained : Z → Z → R → outcome R;
}.
Class RowsLaws (R : Type) `{Rows R} := {
  rw_rep : R → gmap Z Z → Prop;
  rw_Retained_rep r m k : rw_rep r m → rw_Retained k r = Ok (m !! k);
  rw_SetRetained_rep r m k v : rw_rep r m → is_fr k → is_u64 v →
    ∃ r', rw_SetRetained k v r = Ok r' ∧ rw_rep r' (<[k := v]> m);
}.

Definition MemRows : Type := gmap Z Z.
#[export] Instance MemRows_rows : Rows MemRows := {|
  rw_Retained k m := Ok (m !! k);
  rw_SetRetained k r m := Ok (<[k := r]> m);
|}.
#[export, refine] Instance MemRows_laws : RowsLaws MemRows := {| rw_rep r m := r = m |}.
Proof.
  - by intros r m k ->.
  - intros r m k v -> _ _. by eexists.
Defined.

Record DebtRow := mkDebtRow { d_Key : Z; d_NextKey : Z; d_NextIndex : Z; d_Retained : Z }.

Record DebtTree (St Ix R : Type) := { d_nodes : Merkle.Tree St; d_index : Ix; d_rows : R }.
Arguments d_nodes {St Ix R} _.
Arguments d_index {St Ix R} _.
Arguments d_rows {St Ix R} _.
Arguments Build_DebtTree {St Ix R} _ _ _.

Record DebtWitness := mkDebtWitness { dw_Low : DebtRow; dw_Index : Z; dw_Path : list Z }.

Section debt.
Context `{FieldHash}.

Definition row_Hash (l : DebtRow) : Z := DebtLeaf (d_Key l) (d_NextKey l) (d_NextIndex l) (d_Retained l).
Definition debt_Sentinel : DebtRow := mkDebtRow 0 0 0 0.

Definition debt_EmptyRoot : Z :=
  match (Merkle.Append (row_Hash debt_Sentinel);; Merkle.Root) Merkle.NewMem with
  | Ok (r, _) => r
  | _ => 0
  end.

(** [Witness.Retained]: what a witness proves a key's exposure worth. *)
Definition Retained (w : DebtWitness) (key exposed root : Z) : option Z :=
  if negb (RootFromPath (row_Hash (dw_Low w)) (dw_Index w) (dw_Path w) =? root) then None
  else if d_Key (dw_Low w) =? key then
    if exposed <? d_Retained (dw_Low w) then None else Some (d_Retained (dw_Low w))
  else if key <=? d_Key (dw_Low w) then None
  else if negb (d_NextKey (dw_Low w) =? 0) && (d_NextKey (dw_Low w) <=? key) then None
  else Some exposed.

Context {St Ix R : Type} `{NodeStore St} `{Index Ix} `{Rows R}.

Definition d_on_nodes {A} (p : prog (Merkle.Tree St) A) : prog (DebtTree St Ix R) A := λ t,
  match p (d_nodes t) with
  | Ok (a, n) => Ok (a, Build_DebtTree n (d_index t) (d_rows t))
  | Err e => Err e
  | Panic => Panic
  end.
Definition d_on_index {A} (f : Ix → outcome A) : prog (DebtTree St Ix R) A :=
  t ← gets id; lift (f (d_index t)).
Definition d_on_rows {A} (f : R → outcome A) : prog (DebtTree St Ix R) A :=
  t ← gets id; lift (f (d_rows t)).
Definition d_set_retained (key retained : Z) : prog (DebtTree St Ix R) () :=
  r ← d_on_rows (rw_SetRetained key retained);
  modify (λ t, Build_DebtTree (d_nodes t) (d_index t) r).

Definition debt_New (store : St) (x : Ix) (r : R) (size : Z) : DebtTree St Ix R :=
  Build_DebtTree (Merkle.New store size) x r.
Definition debt_Size (t : DebtTree St Ix R) : Z := Merkle.Size (d_nodes t).

Definition debt_Root : prog (DebtTree St Ix R) Z :=
  n ← gets debt_Size;
  if n =? 0 then mret debt_EmptyRoot else d_on_nodes Merkle.Root.

Definition leafOf (key : Z) : prog (DebtTree St Ix R) DebtRow :=
  retained ← (if key =? 0 then mret 0
              else r ← d_on_rows (rw_Retained key);
                   match r with Some v => mret v | None => fail ErrNoRetained end);
  a ← d_on_index (ix_Above key);
  let '(nv, ni) := default (0, 0) a in
  mret (mkDebtRow key nv ni retained).

Definition low (k : Z) : prog (DebtTree St Ix R) (DebtRow * Z) :=
  b ← d_on_index (ix_Below k);
  let '(lv, li) := default (0, 0) b in
  l ← leafOf lv;
  mret (l, li).

Definition debt_Get (key : Z) : prog (DebtTree St Ix R) (option Z) := d_on_rows (rw_Retained key).

Definition debt_Set (key retained : Z) : prog (DebtTree St Ix R) Z :=
  refuse_if (key =? 0) debt_ErrZero;;
  found ← d_on_index (ix_Get key);
  match found with
  | Some idx =>
      d_set_retained key retained;;
      l ← leafOf key;
      d_on_nodes (Merkle.Update idx (row_Hash l));;
      mret idx
  | None =>
      n ← gets debt_Size;
      (if n =? 0 then _ ← d_on_nodes (Merkle.Append (row_Hash debt_Sentinel)); mret () else mret ());;
      n ← gets debt_Size;
      refuse_if (Capacity <=? n) ErrFull;;
      '(l, lowIndex) ← low key;
      idx ← gets debt_Size;
      let leaf := mkDebtRow key (d_NextKey l) (d_NextIndex l) retained in
      let l := mkDebtRow (d_Key l) key idx (d_Retained l) in
      d_on_nodes (Merkle.Update lowIndex (row_Hash l));;
      _ ← d_on_nodes (Merkle.Append (row_Hash leaf));
      d_set_retained key retained;;
      x ← d_on_index (ix_Put key idx);
      modify (λ t, Build_DebtTree (d_nodes t) x (d_rows t));;
      mret idx
  end.

Definition Lookup (key : Z) : prog (DebtTree St Ix R) DebtWitness :=
  refuse_if (key =? 0) debt_ErrZero;;
  found ← d_on_index (ix_Get key);
  '(l, idx) ← match found with
              | Some idx => l ← leafOf key; mret (l, idx)
              | None => low key
              end;
  n ← gets debt_Size;
  if n =? 0 then mret (mkDebtWitness l idx (Zero <$> seq 0 Depth))
  else p ← d_on_nodes (Merkle.Path idx); mret (mkDebtWitness l idx p).
End debt.

Definition debt_NewMem : DebtTree MemStore MemIndex MemRows := debt_New ∅ NewMemIndex ∅ 0.

(** [Row]s are pairs of a key and its retained amount. *)
Definition debt_Rebuild `{FieldHash} (rows : list (Z * Z)) : outcome (DebtTree MemStore MemIndex MemRows) :=
  '(_, t) ← for_each rows (λ r, _ ← debt_Set r.1 r.2; mret ()) debt_NewMem;
  mret t.

(** ** The tree refines the map of the retained amounts *)
Section tree.
Context `{FieldHash} {St Ix R : Type} `{NodeStoreLaws St} `{IndexLaws Ix} `{RowsLaws R}.
Implicit Types (t : DebtTree St Ix R) (order : list Z) (ret : gmap Z Z).

(** A row's leaf, by the map of the retained amounts; the sentinel's amount is 0. *)
Definition row_leaf ret (u n i : Z) : Z := DebtLeaf u n i (default 0 (ret !! u)).
Definition debt_leaves ret order : list Z := links (row_leaf ret) order.
Definition row_of ret order (u : Z) : DebtRow :=
  mkDebtRow u (next_in order u) (index_in order (next_in order u)) (default 0 (ret !! u)).

Definition debt_rep t order ret : Prop :=
  values_ok order ∧ index_rep (d_index t) order ∧ rw_rep (d_rows t) ret ∧
  (∀ u, is_Some (ret !! u) ↔ u ∈ order) ∧
  ∃ L, tree_rep (d_nodes t) L ∧ (L = debt_leaves ret order ∨ L = [] ∧ order = []).

Lemma d_on_nodes_run {A} (p : prog (Merkle.Tree St) A) t a n :
  p (d_nodes t) = Ok (a, n) → d_on_nodes p t = Ok (a, Build_DebtTree n (d_index t) (d_rows t)).
Proof. unfold d_on_nodes. by intros ->. Qed.
Lemma d_on_index_run {A} (f : Ix → outcome A) t a : f (d_index t) = Ok a → d_on_index f t = Ok (a, t).
Proof. unfold d_on_index, id, lift. run_fwd. by intros ->. Qed.
Lemma d_on_rows_run {A} (f : R → outcome A) t a : f (d_rows t) = Ok a → d_on_rows f t = Ok (a, t).
Proof. unfold d_on_rows, id, lift. run_fwd. by intros ->. Qed.

Lemma d_set_retained_run t ret key v :
  rw_rep (d_rows t) ret → is_fr key → is_u64 v →
  ∃ r, d_set_retained key v t = Ok ((), Build_DebtTree (d_nodes t) (d_index t) r) ∧ rw_rep r (<[key := v]> ret).
Proof.
  intros Hr Hk Hv. destruct (rw_SetRetained_rep (d_rows t) ret key v Hr Hk Hv) as (r & E & Hr').
  exists r. split; [|done]. unfold d_set_retained. by erewrite run_bind by (by apply d_on_rows_run).
Qed.

Lemma row_Hash_fr l : is_fr (row_Hash l).
Proof. apply hash_fr. Qed.

(** The successor of a value already linked. *)
Lemma index_rep_Above_at x order u :
  index_rep x order → values_ok order →
  ∃ r, ix_Above u x = Ok r ∧ default (0, 0) r = (next_in order u, index_in order (next_in order u)).
Proof.
  intros (m & Hm & Hin) Ho. destruct (ix_Above_rep x m u Hm) as (r & E & Hr). exists r. split; [done|].
  destruct (values_split order Ho) as [_ Hp].
  assert (Hn : (default (0, 0) r).1 = next_in order u ∧ (default (0, 0) r).2 = index_in order (default (0, 0) r).1).
  2:{ destruct (default (0, 0) r) as [w i]. cbn in Hn. destruct Hn as [-> ->]. done. }
  destruct r as [[w i]|]; cbn.
  - destruct Hr as ([Hw ->]%Hin & Huw & Hmin). split; [|done].
    apply (is_next_unique order u); [done| |by apply next_in_spec]. right. split; [done|]. split; [done|].
    intros y Hy. apply Hmin. exists (index_in order y). by apply Hin.
  - split; [|by rewrite index_in_notin by by apply values_nonzero].
    apply (is_next_unique order u); [done| |by apply next_in_spec]. left. split; [done|].
    intros w Hw. apply Hr. exists (index_in order w). by apply Hin.
Qed.

Lemma leafOf_run t order ret u :
  values_ok order → index_rep (d_index t) order → rw_rep (d_rows t) ret →
  (u = 0 ∧ ret !! 0 = None) ∨ (0 < u ∧ is_Some (ret !! u)) →
  leafOf u t = Ok (row_of ret order u, t).
Proof.
  intros Ho Hx Hr Hu. destruct (index_rep_Above_at (d_index t) order u Hx Ho) as (a & Ea & Ha).
  unfold leafOf, row_of. destruct Hu as [[-> Hz]|[Hu [v Hv]]].
  - change (0 =? 0) with true. cbv iota. run_fwd. rewrite Hz. cbn [default].
    erewrite run_bind by (by apply d_on_index_run). by rewrite Ha.
  - destruct (Z.eqb_spec u 0); [lia|].
    erewrite run_bind. 2:{ erewrite run_bind by (apply d_on_rows_run; by apply rw_Retained_rep). rewrite Hv. reflexivity. }
    rewrite Hv. cbn [default]. erewrite run_bind by (by apply d_on_index_run). by rewrite Ha.
Qed.

Lemma low_run t order ret k :
  values_ok order → index_rep (d_index t) order → rw_rep (d_rows t) ret → (∀ u, is_Some (ret !! u) ↔ u ∈ order) →
  0 < k → ∃ l, is_low order k l ∧ low k t = Ok ((row_of ret order l, index_in order l), t).
Proof.
  intros Ho Hx Hr Hd Hk. destruct (index_rep_Below (d_index t) order k Hx Ho Hk) as (b & Eb & Hlow & Hi).
  exists (default (0, 0) b).1. split; [done|]. unfold low. erewrite run_bind by (by apply d_on_index_run). cbv beta.
  rewrite (surjective_pairing (default (0, 0) b)), Hi. cbn [fst].
  erewrite run_bind; [reflexivity|]. apply leafOf_run; [done..|].
  destruct Hlow as (_ & [El|Hl] & _); [left|right].
  - rewrite El. split; [done|]. apply eq_None_not_Some. rewrite Hd. by apply values_nonzero.
  - split; [by eapply values_pos|by apply Hd].
Qed.

Lemma ret_ext ret order key v u n i :
  (∀ u, is_Some (ret !! u) ↔ u ∈ order) → values_ok order → u ∈ 0 :: order → key ∉ order → 0 < key →
  row_leaf ret u n i = row_leaf (<[key := v]> ret) u n i.
Proof.
  intros Hd Ho Hu Hk Hk0. unfold row_leaf. rewrite lookup_insert_ne; [done|]. intros ->.
  apply elem_of_cons in Hu as [->|Hu]; [lia|done].
Qed.

Lemma debt_leaves_length ret order : length (debt_leaves ret order) = S (length order).
Proof. apply links_length. Qed.

Lemma debt_EmptyRoot_spec : debt_EmptyRoot = ref_root (debt_leaves ∅ []).
Proof.
  unfold debt_EmptyRoot. destruct (Append_spec Merkle.NewMem [] (row_Hash debt_Sentinel)) as (t & E & Ht);
    [apply NewMem_rep|apply row_Hash_fr|reflexivity|].
  erewrite run_bind by exact E. rewrite (Root_spec t _ Ht). reflexivity.
Qed.

Lemma ret_empty ret : (∀ u, is_Some (ret !! u) ↔ u ∈ (@nil Z)) → ret = ∅.
Proof.
  intros Hd. apply map_empty. intros u. apply eq_None_not_Some. rewrite Hd. apply not_elem_of_nil.
Qed.

Lemma debt_Root_spec t order ret : debt_rep t order ret → debt_Root t = Ok (ref_root (debt_leaves ret order), t).
Proof.
  intros (Ho & Hx & Hr & Hd & L & Ht & HL). unfold debt_Root. run_fwd. unfold debt_Size, Merkle.Size.
  pose proof Ht as (_ & Hn & _). rewrite Hn. destruct HL as [->|[-> ->]].
  - rewrite debt_leaves_length. destruct (Z.eqb_spec (Z.of_nat (S (length order))) 0); [lia|].
    erewrite d_on_nodes_run by (by apply Root_spec). by destruct t.
  - change (Z.of_nat (length (@nil Z)) =? 0) with true. cbv iota. rewrite debt_EmptyRoot_spec, (ret_empty ret Hd).
    reflexivity.
Qed.

Lemma debt_sentinel_written t order ret :
  debt_rep t order ret →
  ∃ n, (if debt_Size t =? 0 then _ ← d_on_nodes (Merkle.Append (row_Hash debt_Sentinel)); mret () else mret ()) t =
       Ok ((), Build_DebtTree n (d_index t) (d_rows t)) ∧ tree_rep n (debt_leaves ret order).
Proof.
  intros (Ho & Hx & Hr & Hd & L & Ht & HL). unfold debt_Size, Merkle.Size. pose proof Ht as (_ & Hn & _). rewrite Hn.
  destruct HL as [->|[-> ->]].
  - rewrite debt_leaves_length. destruct (Z.eqb_spec (Z.of_nat (S (length order))) 0); [lia|].
    exists (d_nodes t). split; [|done]. by destruct t.
  - destruct (Append_spec (d_nodes t) [] (row_Hash debt_Sentinel) Ht) as (n & E & Hn'); [apply row_Hash_fr|reflexivity|].
    exists n. rewrite (ret_empty ret Hd). split; [|exact Hn']. change (Z.of_nat (length (@nil Z)) =? 0) with true.
    cbv iota. erewrite run_bind by (apply d_on_nodes_run; exact E). reflexivity.
Qed.

(** A new row. *)
Lemma debt_Set_new t order ret key v :
  debt_rep t order ret → is_fr key → 0 < key → is_u64 v → key ∉ order → Z.of_nat (length order) + 1 < Capacity →
  ∃ t', debt_Set key v t = Ok (Z.of_nat (length order) + 1, t') ∧ debt_rep t' (order ++ [key]) (<[key := v]> ret).
Proof.
  intros Hrep Hk Hk0 Hv Hni Hcap. pose proof Hrep as (Ho & Hx & Hr & Hd & _).
  assert (values_ok (order ++ [key])) as Ho' by (by apply values_ok_snoc).
  unfold debt_Set. destruct (Z.eqb_spec key 0); [lia|]. unfold refuse_if. run_fwd.
  erewrite run_bind by (apply d_on_index_run; by apply index_rep_Get). rewrite decide_False by done. run_fwd.
  destruct (debt_sentinel_written t order ret Hrep) as (n1 & E1 & Hn1). erewrite run_bind by exact E1. run_fwd.
  pose proof Hn1 as (_ & Hs1 & _). rewrite debt_leaves_length in Hs1.
  unfold debt_Size, Merkle.Size. cbn [d_nodes]. rewrite Hs1.
  destruct (Z.leb_spec Capacity (Z.of_nat (S (length order)))); [lia|]. run_fwd.
  destruct (low_run (Build_DebtTree n1 (d_index t) (d_rows t)) order ret key) as (l & Hlow & E2); [done..|].
  erewrite run_bind by exact E2. cbv beta iota. run_fwd. cbn [d_nodes]. unfold row_of.
  cbn [d_Key d_NextKey d_NextIndex d_Retained]. rewrite Hs1. set (i := Z.of_nat (S (length order))).
  destruct (values_split order Ho) as [Hnd Hp].
  assert (l ∈ 0 :: order) as Hl0 by (destruct Hlow as (_ & [->|Hl] & _); [left|by right]).
  destruct (links_lookup (row_leaf ret) order l Hnd Hp Hl0) as [_ Hli].
  destruct (Update_spec n1 (debt_leaves ret order) (index_in order l)
    (row_Hash (mkDebtRow l key i (default 0 (ret !! l)))) Hn1)
    as (n2 & E3 & Hn2); [apply row_Hash_fr|rewrite debt_leaves_length; lia|].
  erewrite run_bind by (apply d_on_nodes_run; exact E3).
  destruct (Append_spec n2 _ (row_Hash (mkDebtRow key (next_in order l) (index_in order (next_in order l)) v)) Hn2)
    as (n3 & E4 & Hn3); [apply row_Hash_fr|rewrite length_insert, debt_leaves_length; lia|].
  erewrite run_bind by (apply d_on_nodes_run; exact E4). cbv beta.
  destruct (d_set_retained_run (Build_DebtTree n3 (d_index t) (d_rows t)) ret key v Hr Hk Hv) as (r & E5 & Hr').
  erewrite run_bind by exact E5.
  destruct (index_rep_Put (d_index t) order key Hx Ho' Hni) as (x & E6 & Hx').
  assert (i = Z.of_nat (length order) + 1) as Ei by (unfold i; lia). rewrite Ei.
  erewrite run_bind by (apply d_on_index_run; exact E6). run_fwd.
  eexists. split; [reflexivity|]. split_and!; [done|exact Hx'|exact Hr'| |].
  - intros u. rewrite elem_of_snoc, <-Hd, lookup_insert_is_Some. split.
    + intros [->|[_ Hu]]; [by right|by left].
    + intros [Hu| ->]; [right|by left]. split; [|done]. intros ->. apply Hni. by apply Hd.
  - eexists. split; [exact Hn3|]. left. symmetry. unfold debt_leaves.
    rewrite (links_snoc (row_leaf ret) (row_leaf (<[key := v]> ret)) order key l) by (done || (intros; by eapply ret_ext)).
    f_equal; [f_equal|f_equal].
    + rewrite <-(ret_ext ret order key v l) by done. by rewrite Ei.
    + unfold row_leaf. by rewrite lookup_insert_eq.
Qed.

(** Changing one row's amount rewrites its leaf. *)
Lemma debt_leaves_update ret order key v :
  values_ok order → key ∈ order →
  debt_leaves (<[key := v]> ret) order =
  <[Z.to_nat (index_in order key) := row_Hash (row_of (<[key := v]> ret) order key)]> (debt_leaves ret order).
Proof.
  intros Ho Hk. destruct (values_split order Ho) as [Hnd Hp]. unfold debt_leaves, links.
  assert (Hidx : ∀ u k, (0 :: order) !! k = Some u → k = Z.to_nat (index_in order u)).
  { intros u [|k] Hu; cbn in Hu.
    - injection Hu as <-. rewrite index_in_notin; [done|]. by apply values_nonzero.
    - rewrite (index_in_lookup order u k) by done. lia. }
  assert (key ∈ 0 :: order) as [kk Hkk]%list_elem_of_lookup by by right.
  pose proof (Hidx _ _ Hkk) as Ekk. rewrite <-Ekk. apply lookup_lt_Some in Hkk as Hlt.
  apply list_eq. intros k. rewrite list_lookup_insert, !list_lookup_fmap, length_fmap.
  case_decide as Hd.
  - destruct Hd as [<- _]. rewrite Hkk. done.
  - destruct ((0 :: order) !! k) as [u|] eqn:Hu; [|done]. cbn [fmap option_fmap option_map]. f_equal.
    unfold row_leaf. rewrite lookup_insert_ne; [done|]. intros ->. apply Hd. split; [|done].
    rewrite Ekk. symmetry. by apply Hidx.
Qed.

Lemma debt_Set_old t order ret key v :
  debt_rep t order ret → is_u64 v → key ∈ order →
  ∃ t', debt_Set key v t = Ok (index_in order key, t') ∧ debt_rep t' order (<[key := v]> ret).
Proof.
  intros Hrep Hv Hin. pose proof Hrep as (Ho & Hx & Hr & Hd & L & Ht & HL).
  assert (0 < key) as Hk0 by (by eapply values_pos). assert (is_fr key) as Hk by (by eapply values_fr).
  destruct (values_split order Ho) as [Hnd Hp].
  assert (L = debt_leaves ret order) as ->. { destruct HL as [HL|[_ ->]]; [done|]. by apply elem_of_nil in Hin. }
  unfold debt_Set. destruct (Z.eqb_spec key 0); [lia|]. unfold refuse_if. run_fwd.
  erewrite run_bind by (apply d_on_index_run; by apply index_rep_Get). rewrite decide_True by done.
  destruct (d_set_retained_run t ret key v Hr Hk Hv) as (r & E1 & Hr'). erewrite run_bind by exact E1.
  erewrite run_bind.
  2:{ apply (leafOf_run _ order (<[key := v]> ret)); [done|exact Hx|exact Hr'|]. right. split; [done|].
      rewrite lookup_insert_eq. by eexists. }
  destruct (links_lookup (row_leaf ret) order key Hnd Hp) as [_ Hi]; [by right|].
  destruct (Update_spec (d_nodes t) (debt_leaves ret order) (index_in order key)
    (row_Hash (row_of (<[key := v]> ret) order key)) Ht) as (nd & E2 & Hn);
    [apply row_Hash_fr|rewrite debt_leaves_length; lia|].
  erewrite run_bind by (apply d_on_nodes_run; exact E2). eexists. split; [reflexivity|].
  split_and!; [done|exact Hx|exact Hr'| |].
  - intros u. rewrite <-Hd, lookup_insert_is_Some. split.
    + intros [->|[_ Hu]]; [by apply Hd|done].
    + intros Hu. destruct (decide (key = u)); [by left|by right].
  - eexists. split; [exact Hn|]. left. symmetry. by apply debt_leaves_update.
Qed.
End tree.

(** ** Reading a key's row *)
Section lookup.
Context `{FieldHash} {St Ix R : Type} `{NodeStoreLaws St} `{IndexLaws Ix} `{RowsLaws R}.
Implicit Types (t : DebtTree St Ix R) (order : list Z) (ret : gmap Z Z).

(** The row a key is read from: its own, or its low row. *)
Definition reads order (key u : Z) : Prop := if decide (key ∈ order) then u = key else is_low order key u.

Lemma reads_linked order key u : values_ok order → reads order key u → u ∈ 0 :: order.
Proof.
  unfold reads. intros Ho Hu. destruct (decide (key ∈ order)) as [Hin|]; [subst; by right|].
  destruct Hu as (_ & [->|Hl] & _); [left|by right].
Qed.

Definition witness_of ret order (u : Z) : DebtWitness :=
  mkDebtWitness (row_of ret order u) (index_in order u) (siblings (debt_leaves ret order) (index_in order u)).

Lemma Lookup_spec t order ret key :
  debt_rep t order ret → 0 < key → Z.of_nat (length order) < Capacity →
  ∃ u, reads order key u ∧ Lookup key t = Ok (witness_of ret order u, t).
Proof.
  intros Hrep Hk Hcap. pose proof Hrep as (Ho & Hx & Hr & Hd & L & Ht & HL).
  destruct (values_split order Ho) as [Hnd Hp].
  assert (∃ u, reads order key u ∧
    (match (if decide (key ∈ order) then Some (index_in order key) else None) with
     | Some idx => l ← leafOf key; mret (l, idx)
     | None => low key
     end) t = Ok ((row_of ret order u, index_in order u), t)) as (u & Hu & E).
  { unfold reads. destruct (decide (key ∈ order)) as [Hin|Hin].
    - exists key. split; [done|]. erewrite run_bind; [reflexivity|]. apply leafOf_run; [done..|]. right.
      split; [done|]. by apply Hd.
    - apply low_run; done. }
  exists u. split; [done|]. unfold Lookup. destruct (Z.eqb_spec key 0); [lia|]. unfold refuse_if. run_fwd.
  erewrite run_bind by (apply d_on_index_run; by apply index_rep_Get). erewrite run_bind by exact E. cbv beta iota.
  run_fwd. unfold debt_Size, Merkle.Size. pose proof Ht as (_ & Hn & _). rewrite Hn.
  pose proof (reads_linked order key u Ho Hu) as Hul.
  destruct HL as [->|[-> ->]].
  - rewrite debt_leaves_length. destruct (Z.eqb_spec (Z.of_nat (S (length order))) 0); [lia|].
    destruct (links_lookup (row_leaf ret) order u Hnd Hp Hul) as [_ Hi].
    erewrite run_bind by (apply d_on_nodes_run; apply Path_spec; [exact Ht|]; rewrite debt_leaves_length; lia).
    by destruct t.
  - change (Z.of_nat (length (@nil Z)) =? 0) with true. cbv iota. unfold witness_of.
    apply list_elem_of_singleton in Hul as ->. rewrite (ret_empty ret Hd).
    assert (debt_leaves ∅ [] = [DebtLeaf 0 0 0 0]) as -> by reflexivity.
    assert (index_in [] 0 = 0) as -> by reflexivity. rewrite siblings_sentinel. reflexivity.
Qed.

(** The leaf the tree holds for a linked value. *)
Lemma row_leaf_at ret order u :
  values_ok order → u ∈ 0 :: order →
  leaf_at (debt_leaves ret order) (index_in order u) = row_Hash (row_of ret order u) ∧
  0 ≤ index_in order u ≤ Z.of_nat (length order).
Proof.
  intros Ho Hu. destruct (values_split order Ho) as [Hnd Hp].
  destruct (links_lookup (row_leaf ret) order u Hnd Hp Hu) as [E Hi]. split; [|done].
  unfold leaf_at, debt_leaves. by rewrite E.
Qed.

Lemma Retained_complete ret order key u exposed :
  values_ok order → (∀ u, is_Some (ret !! u) ↔ u ∈ order) → 0 < key → Z.of_nat (length order) < Capacity →
  reads order key u → default exposed (ret !! key) ≤ exposed →
  Retained (witness_of ret order u) key exposed (ref_root (debt_leaves ret order)) = Some (default exposed (ret !! key)).
Proof.
  intros Ho Hd Hk Hcap Hu Hle. pose proof (reads_linked order key u Ho Hu) as Hul.
  destruct (row_leaf_at ret order u Ho Hul) as [El Hi]. destruct (values_split order Ho) as [Hnd Hp].
  unfold Retained, witness_of. cbn [dw_Low dw_Index dw_Path]. rewrite <-El, RootFromPath_siblings by lia.
  rewrite Z.eqb_refl. cbn [negb]. unfold row_of. cbn [d_Key d_NextKey d_Retained].
  unfold reads in Hu. destruct (decide (key ∈ order)) as [Hin|Hin].
  - subst u. rewrite Z.eqb_refl. apply Hd in Hin as [v Hv]. rewrite Hv in *. cbn [default] in *.
    unfold default, id in *. destruct (Z.ltb_spec exposed v); [lia|done].
  - pose proof Hu as (Hlu & Hl & Hmax). destruct (Z.eqb_spec u key); [lia|]. destruct (Z.leb_spec key u); [lia|].
    assert (ret !! key = None) as -> by (apply eq_None_not_Some; by rewrite Hd). cbn [default].
    destruct (next_in_spec order u Hp) as [[-> _]|(Hn & Hun & Hmin)]; [done|].
    destruct (Z.leb_spec (next_in order u) key); [|by rewrite andb_false_r].
    assert (next_in order u ≠ key) by (intros E; by rewrite E in Hn). specialize (Hmax _ Hn ltac:(lia)). lia.
Qed.

Definition row_input (l : DebtRow) : list Z :=
  [TagDebtL; d_Key l; d_NextKey l; U64 (d_NextIndex l); U64 (d_Retained l)].

(** How a witness can read as something else than the tree's row: its path collides with the tree's, its leaf
    hashes to the empty leaf, or it collides with another row's. *)
Definition debt_collides ret order (w : DebtWitness) : Prop :=
  path_collides (debt_leaves ret order) (row_Hash (dw_Low w)) (dw_Index w mod Capacity) (dw_Path w) ∨
  hash (row_input (dw_Low w)) = 0 ∨
  ∃ u, u ∈ 0 :: order ∧ collide (row_input (dw_Low w)) (row_input (row_of ret order u)).

Lemma debt_leaf_cases ret order k :
  leaf_at (debt_leaves ret order) k = 0 ∨
  ∃ u, u ∈ 0 :: order ∧ leaf_at (debt_leaves ret order) k = row_Hash (row_of ret order u).
Proof.
  unfold leaf_at, debt_leaves, links. rewrite list_lookup_fmap.
  destruct ((0 :: order) !! Z.to_nat k) as [u|] eqn:E; [right|by left].
  exists u. split; [by eapply list_elem_of_lookup_2|done].
Qed.

Lemma Retained_sound ret order w key exposed r :
  values_ok order → (∀ u, is_Some (ret !! u) ↔ u ∈ order) → 0 < key → 0 ≤ dw_Index w → length (dw_Path w) = Depth →
  Retained w key exposed (ref_root (debt_leaves ret order)) = Some r →
  (r = default exposed (ret !! key) ∧ r ≤ exposed) ∨ debt_collides ret order w.
Proof.
  intros Ho Hd Hk Hi Hp. unfold Retained.
  destruct (Z.eqb_spec (RootFromPath (row_Hash (dw_Low w)) (dw_Index w) (dw_Path w)) (ref_root (debt_leaves ret order)))
    as [Er|]; [|done]. cbn [negb]. rewrite <-RootFromPath_mod in Er by done. intros HR.
  destruct (RootFromPath_sound (debt_leaves ret order) (row_Hash (dw_Low w)) (dw_Index w mod Capacity) (dw_Path w))
    as [El|Hc]; [done|by apply Z.mod_pos_bound|exact Er| |by right; left].
  destruct (debt_leaf_cases ret order (dw_Index w mod Capacity)) as [Ez|(u & Hu & Eu)].
  { right. right. left. rewrite Ez in El. exact El. }
  rewrite Eu in El.
  destruct (collide_dec (row_input (dw_Low w)) (row_input (row_of ret order u)) El) as [E|Hc];
    [|by right; right; right; exists u].
  left. unfold row_input, row_of, U64 in E. cbn [d_Key d_NextKey d_NextIndex d_Retained] in E.
  injection E as Ek En _ Ev. destruct (values_split order Ho) as [_ Hpos].
  destruct (Z.eqb_spec (d_Key (dw_Low w)) key) as [Eq|Hne].
  - destruct (Z.ltb_spec exposed (d_Retained (dw_Low w))); [done|]. injection HR as <-.
    assert (u = key) as -> by congruence. apply elem_of_cons in Hu as [->|Hu]; [lia|].
    apply Hd in Hu as [v Hv]. rewrite Hv in Ev |- *. split; [exact Ev|lia].
  - destruct (Z.leb_spec key (d_Key (dw_Low w))) as [|Hlt]; [done|].
    destruct (negb _ && _) eqn:Eb; [done|]. injection HR as <-.
    assert (key ∉ order) as Hni.
    { apply (spanned_absent order u); [done|lia|]. rewrite En in Eb.
      apply andb_false_iff in Eb as [Eb|Eb]; [left; by apply negb_false_iff, Z.eqb_eq in Eb|right; lia]. }
    assert (ret !! key = None) as -> by (apply eq_None_not_Some; by rewrite Hd). done.
Qed.

(** ** Properties *)

(** C36: The slash debt tree implements the map from a slashed move to what its exposure is still worth: setting a
    key's amount records exactly it (a new row, or the existing one's leaf in place), the root is that of the
    sorted linked list of the rows, the key 0 is refused, and so is a new row past the capacity. *)
Theorem debt_set_implements_map t order ret key v :
  debt_rep t order ret → is_fr key → is_u64 v →
  debt_Root t = Ok (ref_root (debt_leaves ret order), t) ∧
  debt_Get key t = Ok (ret !! key, t) ∧
  (if decide (key = 0) then debt_Set key v t = Err debt_ErrZero
   else if decide (key ∈ order) then
     ∃ t', debt_Set key v t = Ok (index_in order key, t') ∧ debt_rep t' order (<[key := v]> ret)
   else Z.of_nat (length order) + 1 < Capacity →
     ∃ t', debt_Set key v t = Ok (Z.of_nat (length order) + 1, t') ∧ debt_rep t' (order ++ [key]) (<[key := v]> ret)).
Proof.
  intros Hrep Hk Hv. pose proof Hrep as (Ho & Hx & Hr & Hd & _). split; [by apply debt_Root_spec|].
  split; [apply d_on_rows_run; by apply rw_Retained_rep|]. destruct (decide (key = 0)) as [->|]; [done|].
  destruct (decide (key ∈ order)); [by apply debt_Set_old|]. unfold is_fr in Hk. intros Hcap.
  apply debt_Set_new; (done || lia).
Qed.

(** What a redelegation's exposure is worth is read soundly and completely from the debt tree: the witness the
    tree hands out reads as the row's amount for a slashed move (when it is at most the exposure) and as the
    whole exposure for a move never slashed, and whatever witness reads as an amount under the tree's root reads
    that amount, unless it exhibits two inputs of the hash with one value or a preimage of the empty leaf. *)
Theorem debt_read_sound_complete t order ret key exposed :
  debt_rep t order ret → 0 < key → Z.of_nat (length order) < Capacity →
  (∃ w root, Lookup key t = Ok (w, t) ∧ debt_Root t = Ok (root, t) ∧
     (default exposed (ret !! key) ≤ exposed → Retained w key exposed root = Some (default exposed (ret !! key)))) ∧
  (∀ w root r, debt_Root t = Ok (root, t) → 0 ≤ dw_Index w → length (dw_Path w) = Depth →
     Retained w key exposed root = Some r →
     (r = default exposed (ret !! key) ∧ r ≤ exposed) ∨ debt_collides ret order w).
Proof.
  intros Hrep Hk Hcap. pose proof Hrep as (Ho & Hx & Hr & Hd & _). split.
  - destruct (Lookup_spec t order ret key Hrep Hk Hcap) as (u & Hu & E). do 2 eexists. split; [exact E|].
    split; [by apply debt_Root_spec|]. by apply Retained_complete.
  - intros w root r Er Hi Hp. rewrite (debt_Root_spec t order ret Hrep) in Er. injection Er as <-.
    by apply Retained_sound.
Qed.
End lookup.

Lemma debt_NewMem_rep `{FieldHash} : debt_rep debt_NewMem [] ∅.
Proof.
  destruct indexed_NewMem_rep as (Ho & Hx & _). split_and!; [done|exact Hx|done| |].
  - intros u. rewrite lookup_empty. split; [by intros []|by intros ?%elem_of_nil].
  - exists []. split; [apply NewMem_rep|by right].
Qed.
