(* ===== verification/Curve.v ===== *)
(** * zk/orchard: points, value commitments and the binding signature

    [zk/orchard/curve.go], [value.go] and [binding.go].  The curve is gnark-crypto's: an interface ([Grumpkin])
    with the laws of a commutative group of the given order.  In a group of prime order every point is a multiple of
    every other, so
    a commitment binds its values only as long as nobody knows a relation between the bases: what is proved is
    that values which do not balance exhibit such a relation ([base_relation]). *)

From S2P Require Export Privacy.

(** The order of the group: the modulus of the BN254 base field. *)
Definition scalar_modulus : Z := 21888242871839275222246405745257275088696311157297823662689037894645226208583.

(** Affine points (on the curve or not), the group operations, and the square roots of the coordinate field. *)
Class Grumpkin := {
  Point : Type;
  Point_eq_dec :: EqDecision Point;
  affine : Z → Z → Point;
  XY : Point → Z * Z;
  IsOnCurve : Point → bool;
  Add : Point → Point → Point;
  Neg : Point → Point;
  Mul : Point → Z → Point;
  Legendre : Z → Z;
  Sqrt : Z → Z;
}.

Definition infinity `{Grumpkin} : Point := affine 0 0.

Class GrumpkinLaws `{Grumpkin} : Prop := {
  XY_affine x y : is_fr x → is_fr y → XY (affine x y) = (x, y);
  affine_XY p : affine (XY p).1 (XY p).2 = p;
  XY_fr p : IsOnCurve p = true → is_fr (XY p).1 ∧ is_fr (XY p).2;
  infinity_on : IsOnCurve infinity = true;
  Add_on p q : IsOnCurve p = true → IsOnCurve q = true → IsOnCurve (Add p q) = true;
  Neg_on p : IsOnCurve p = true → IsOnCurve (Neg p) = true;
  Mul_on p k : IsOnCurve p = true → IsOnCurve (Mul p k) = true;
  Add_comm p q : IsOnCurve p = true → IsOnCurve q = true → Add p q = Add q p;
  Add_assoc p q r : IsOnCurve p = true → IsOnCurve q = true → IsOnCurve r = true → Add p (Add q r) = Add (Add p q) r;
  Add_0 p : IsOnCurve p = true → Add infinity p = p;
  Add_neg p : IsOnCurve p = true → Add p (Neg p) = infinity;
  Mul_1 p : IsOnCurve p = true → Mul p 1 = p;
  Mul_add p a b : IsOnCurve p = true → Mul p (a + b) = Add (Mul p a) (Mul p b);
  Mul_order p : IsOnCurve p = true → Mul p scalar_modulus = infinity;
  Sqrt_spec a : is_fr a → Legendre a = 1 → is_fr (Sqrt a) ∧ fr_mul (Sqrt a) (Sqrt a) = a;
}.

Definition TagGen : Z := tag "earth.gen".
Definition TagCvR : Z := tag "earth.cv.r".
Definition TagBsig : Z := tag "earth.bsig".
Definition TagBundle : Z := tag "earth.bundle".

Definition ErrNotOnCurve : error := Plain "orchard: not a Grumpkin point".
Definition ErrBadBindingSig : error := Plain "orchard: invalid binding signature".
Definition ErrIdentityBvk : error := Plain "orchard: binding verification key is the identity".
Definition BindingSigSize : Z := 96.

(** [fp.Element.Neg] and [LexicographicallyLargest]. *)
Definition fr_neg (a : Z) : Z := (- a) mod modulus.
Definition LexicographicallyLargest (y : Z) : bool := (modulus - 1) / 2 <? y.

Section curve.
Context `{FieldHash} `{Grumpkin}.

Definition Sub (p q : Point) : Point := Add p (Neg q).

(** The right-hand side of the curve's equation at [x]. *)
Definition curve_rhs (x : Z) : Z := fr_add (fr_mul (fr_mul x x) x) (fr_neg 17).

Definition HashToPointAt (t input ctr : Z) : option Point :=
  let x := hash [t; input; U64 ctr] in
  let rhs := curve_rhs x in
  if negb (Legendre rhs =? 1) then None
  else
    let y := Sqrt rhs in
    let y := if LexicographicallyLargest y then fr_neg y else y in
    Some (affine x y).

(** The loop of [HashToPoint], for [fuel] counters from [ctr]: the code's own loop has no bound, and ends as
    soon as one counter gives a square. *)
Fixpoint hash_to_point_loop (fuel : nat) (t input ctr : Z) : option (Point * Z) :=
  match fuel with
  | O => None
  | S fuel =>
      match HashToPointAt t input ctr with
      | Some p => Some (p, ctr)
      | None => hash_to_point_loop fuel t input (wrap_u32 (ctr + 1))
      end
  end.
Definition HashToPoint (fuel : nat) (t input : Z) : option (Point * Z) := hash_to_point_loop fuel t input 0.

Definition Canonical (p : Point) : bool := negb (LexicographicallyLargest (XY p).2).

Definition PointFromXY (x y : Z) : outcome Point :=
  let p := affine x y in
  _ ← refuse (negb (IsOnCurve p)) ErrNotOnCurve;
  mret p.

Definition PointFromBytes (b : bytes) : outcome Point :=
  _ ← refuse (negb (Z.of_nat (length b) =? 64)) ErrNotOnCurve;
  x ← FieldFromBytes (take 32 b);
  y ← FieldFromBytes (drop 32 b);
  PointFromXY x y.

Definition PointBytes (p : Point) : bytes := FieldBytes (XY p).1 ++ FieldBytes (XY p).2.

(** A circuit field and a [uint64] as scalars of the group. *)
Definition ScalarFromField (e : Z) : Z := e mod scalar_modulus.
Definition ScalarU64 (v : Z) : Z := v mod scalar_modulus.

(** ** value.go *)

(** The base of the randomness and of the binding signature, and the value bases, are points found by
    [HashToPoint]; they are arguments here. *)
Variable R : Point.
Variable ValueBase : Z → Point.

Definition ValueCommit (assetSpend vSpend assetOut vOut rcv : Z) : Point :=
  let cv := Mul (ValueBase assetSpend) (ScalarU64 vSpend) in
  let cv := Sub cv (Mul (ValueBase assetOut) (ScalarU64 vOut)) in
  Add cv (Mul R (ScalarFromField rcv)).

Definition BindingSigningKey (rcvs : list Z) : Z :=
  foldl (λ bsk r, (bsk + ScalarFromField r) mod scalar_modulus) 0 rcvs.

(** ** binding.go *)
Definition challenge (rn bvk : Point) (sighash : Z) : Z :=
  ScalarFromField (hash [TagBsig; (XY rn).1; (XY rn).2; (XY bvk).1; (XY bvk).2; sighash]).

(** [sha512] is Go's, and [rnd] the 32 bytes read. *)
Definition SignBinding (sha512 : bytes → bytes) (bsk sighash : Z) (rnd : bytes) : outcome bytes :=
  let k := SetBytes (sha512 (be_bytes 32 bsk ++ FieldBytes sighash ++ rnd)) mod scalar_modulus in
  _ ← refuse (k =? 0) (Plain "orchard: zero nonce");
  let rn := Mul R k in
  let bvk := Mul R bsk in
  let e := challenge rn bvk sighash in
  let s := (e * bsk + k) mod scalar_modulus in
  mret (PointBytes rn ++ be_bytes 32 s).

(** [fr.Element.SetBytesCanonical] of the scalar field. *)
Definition scalar_canonical (b : bytes) : option Z :=
  if (length b =? 32)%nat && (SetBytes b <? scalar_modulus) then Some (SetBytes b) else None.

Definition VerifyBinding (bvk : Point) (sighash : Z) (sig : bytes) : outcome () :=
  _ ← refuse (negb (Z.of_nat (length sig) =? BindingSigSize)) ErrBadBindingSig;
  _ ← refuse (bool_decide (bvk = infinity)) ErrIdentityBvk;
  match PointFromBytes (take 64 sig) with
  | Ok rn =>
      _ ← refuse (bool_decide (rn = infinity)) ErrBadBindingSig;
      match scalar_canonical (drop 64 sig) with
      | Some s =>
          let e := challenge rn bvk sighash in
          refuse (negb (bool_decide (Mul R s = Add rn (Mul bvk e)))) ErrBadBindingSig
      | None => Err ErrBadBindingSig
      end
  | _ => Err ErrBadBindingSig
  end.
End curve.

(** ** The group *)
Section group.
Context `{GrumpkinLaws}.
Implicit Types p q r : Point.

Lemma Add_0_r p : IsOnCurve p = true → Add p infinity = p.
Proof. intros Hp. rewrite Add_comm by (done || apply infinity_on). by apply Add_0. Qed.

Lemma Sub_on p q : IsOnCurve p = true → IsOnCurve q = true → IsOnCurve (Sub p q) = true.
Proof. intros. apply Add_on; [done|by apply Neg_on]. Qed.

#[local] Hint Resolve infinity_on Add_on Neg_on Mul_on Sub_on : core.

Lemma Add_cancel p q r :
  IsOnCurve p = true → IsOnCurve q = true → IsOnCurve r = true → Add p q = Add p r → q = r.
Proof.
  intros Hp Hq Hr E. assert (Add (Neg p) (Add p q) = Add (Neg p) (Add p r)) as E' by congruence.
  rewrite !Add_assoc, (Add_comm (Neg p) p), Add_neg, !Add_0 in E' by auto. done.
Qed.

Lemma Mul_0 p : IsOnCurve p = true → Mul p 0 = infinity.
Proof.
  intros Hp. apply (Add_cancel (Mul p 0)); auto. rewrite <-Mul_add, Add_0_r by auto. done.
Qed.

Lemma Mul_opp p k : IsOnCurve p = true → Mul p (- k) = Neg (Mul p k).
Proof.
  intros Hp. apply (Add_cancel (Mul p k)); auto. rewrite <-Mul_add, Add_neg by auto.
  rewrite Z.add_opp_diag_r. by apply Mul_0.
Qed.

Lemma Mul_sub p a b : IsOnCurve p = true → Mul p (a - b) = Sub (Mul p a) (Mul p b).
Proof. intros Hp. unfold Sub. by rewrite <-Mul_opp, <-Mul_add by auto. Qed.

Lemma Mul_succ p k : IsOnCurve p = true → Mul p (Z.succ k) = Add (Mul p k) p.
Proof. intros Hp. unfold Z.succ. by rewrite Mul_add, Mul_1 by auto. Qed.

Lemma Mul_inf k : Mul infinity k = infinity.
Proof.
  assert (∀ n, 0 ≤ n → Mul infinity n = infinity) as Hn.
  { apply natlike_ind; [by apply Mul_0, infinity_on|]. intros n Hn IH. by rewrite Mul_succ, IH, Add_0 by auto. }
  destruct (decide (0 ≤ k)); [by apply Hn|]. replace k with (- (- k)) by lia. rewrite Mul_opp, Hn by (auto || lia).
  rewrite <-(Add_0 (Neg infinity)) by auto. by apply Add_neg, infinity_on.
Qed.

Lemma Mul_mul p a b : IsOnCurve p = true → Mul (Mul p a) b = Mul p (a * b).
Proof.
  intros Hp. assert (∀ n, 0 ≤ n → Mul (Mul p a) n = Mul p (a * n)) as Hn.
  { apply natlike_ind; [by rewrite Z.mul_0_r, !Mul_0 by auto|]. intros n Hn IH.
    rewrite Mul_succ, IH, <-Mul_add by auto. f_equal. lia. }
  destruct (decide (0 ≤ b)); [by apply Hn|]. replace b with (- (- b)) at 1 by lia.
  rewrite Mul_opp, Hn, <-Mul_opp by (auto || lia). f_equal. lia.
Qed.

(** Scalars count modulo the order. *)
Lemma Mul_mod p k : IsOnCurve p = true → Mul p (k mod scalar_modulus) = Mul p k.
Proof.
  intros Hp. rewrite (Z.div_mod k scalar_modulus) at 2 by done.
  rewrite Mul_add, <-Mul_mul, Mul_order, Mul_inf, Add_0 by auto. done.
Qed.

(** Rearranging sums. *)
Lemma Add_swap p q r s :
  IsOnCurve p = true → IsOnCurve q = true → IsOnCurve r = true → IsOnCurve s = true →
  Add (Add p q) (Add r s) = Add (Add p r) (Add q s).
Proof.
  intros Hp Hq Hr Hs. rewrite <-!Add_assoc by auto. f_equal. rewrite !Add_assoc by auto. f_equal. by apply Add_comm.
Qed.

Lemma Neg_Add p q : IsOnCurve p = true → IsOnCurve q = true → Neg (Add p q) = Add (Neg p) (Neg q).
Proof.
  intros Hp Hq. apply (Add_cancel (Add p q)); auto. rewrite Add_neg, Add_swap, !Add_neg, Add_0 by auto. done.
Qed.
End group.

(** ** Points and scalars as bytes *)
Section encoding.
Context `{GrumpkinLaws}.

Lemma PointBytes_length p : length (PointBytes p) = 64%nat.
Proof. unfold PointBytes. by rewrite length_app, !FieldBytes_length. Qed.

Lemma PointFromBytes_Bytes p : IsOnCurve p = true → PointFromBytes (PointBytes p) = Ok p.
Proof.
  intros Hp. destruct (XY_fr p Hp) as [Hx Hy]. unfold PointFromBytes. rewrite PointBytes_length. cbn [refuse].
  unfold PointBytes. rewrite take_app_length' by by rewrite FieldBytes_length.
  rewrite drop_app_length' by by rewrite FieldBytes_length.
  rewrite !FieldFromBytes_Bytes by done. cbn. unfold PointFromXY. rewrite affine_XY, Hp. done.
Qed.

(** Every accepted encoding is the one [PointBytes] writes. *)
Lemma PointFromBytes_canonical b p :
  is_bytes b → PointFromBytes b = Ok p → PointBytes p = b ∧ IsOnCurve p = true.
Proof.
  intros Hb. unfold PointFromBytes, PointFromXY. intros Hr. prog_inv.
  apply negb_false_iff, Z.eqb_eq in Hpure. apply negb_false_iff in Hpure2.
  rewrite <-(take_drop 32 b) in Hb. apply Forall_app in Hb as [Hb1 Hb2].
  apply FieldFromBytes_canonical in Hpure0 as [Hx E1]; [|done]. apply FieldFromBytes_canonical in Hpure1 as [Hy E2]; [|done].
  split; [|done]. unfold PointBytes. rewrite XY_affine by done. cbn [fst snd]. by rewrite E1, E2, take_drop.
Qed.

Lemma scalar_canonical_bytes s : 0 ≤ s < scalar_modulus → scalar_canonical (be_bytes 32 s) = Some s.
Proof.
  intros Hs. unfold scalar_canonical. rewrite be_bytes_length, SetBytes_be.
  - destruct (Z.ltb_spec s scalar_modulus); [done|lia].
  - assert (scalar_modulus < 256 ^ Z.of_nat 32) by done. lia.
Qed.

Lemma scalar_canonical_ok b s :
  is_bytes b → scalar_canonical b = Some s → b = be_bytes 32 s ∧ 0 ≤ s < scalar_modulus.
Proof.
  intros Hb. unfold scalar_canonical. destruct (Nat.eqb_spec (length b) 32) as [Hl|]; [|done].
  destruct (Z.ltb_spec (SetBytes b) scalar_modulus); [|done]. intros [= <-]. rewrite <-Hl, be_SetBytes by done.
  pose proof (SetBytes_range b Hb). split; [done|lia].
Qed.
End encoding.

(** ** The binding signature *)
Section binding.
Context `{FieldHash} `{GrumpkinLaws} (R : Point).
Hypothesis R_on : IsOnCurve R = true.
(** The group has prime order, so a point other than infinity vanishes only at multiples of the order. *)
Hypothesis R_order : ∀ k, Mul R k = infinity → k mod scalar_modulus = 0.

(** What an accepted signature is, and only that: one encoding of a commitment and a scalar that solve the
    verification equation. *)
Lemma VerifyBinding_ok bvk sighash sig :
  is_bytes sig → VerifyBinding R bvk sighash sig = Ok () ↔
  bvk ≠ infinity ∧ ∃ rn s, sig = PointBytes rn ++ be_bytes 32 s ∧ IsOnCurve rn = true ∧ rn ≠ infinity ∧
    0 ≤ s < scalar_modulus ∧ Mul R s = Add rn (Mul bvk (challenge rn bvk sighash)).
Proof.
  intros Hb. unfold VerifyBinding. split.
  - intros Hv. prog_inv. apply bool_decide_eq_false in Hpure0. split; [done|].
    rewrite <-(take_drop 64 sig) in Hb. apply Forall_app in Hb as [Hb1 Hb2].
    destruct (PointFromBytes _) as [rn| |] eqn:Ern; [|done..]. prog_inv. apply bool_decide_eq_false in Hpure1.
    apply PointFromBytes_canonical in Ern as [Ebn Hon]; [|done].
    destruct (scalar_canonical _) as [s|] eqn:Es; [|done]. apply scalar_canonical_ok in Es as [Ebs Hs]; [|done].
    prog_inv. apply negb_false_iff, bool_decide_eq_true in Hv. exists rn, s.
    split; [by rewrite Ebn, <-Ebs, take_drop|]. injection Heqo as <-. split_and!; [done|done|lia|lia|done].
  - intros (Hbvk & rn & s & -> & Hon & Hrn & Hs & E).
    rewrite length_app, PointBytes_length, be_bytes_length. cbn [Nat.add].
    change (negb (Z.of_nat 96 =? BindingSigSize)) with false. cbn [refuse mbind outcome_bind].
    rewrite bool_decide_eq_false_2 by done. cbn [refuse mbind outcome_bind].
    rewrite take_app_length' by by rewrite PointBytes_length. rewrite drop_app_length' by by rewrite PointBytes_length.
    rewrite PointFromBytes_Bytes by done. rewrite bool_decide_eq_false_2 by done. cbn [refuse mbind outcome_bind].
    rewrite scalar_canonical_bytes by done. by rewrite bool_decide_eq_true_2.
Qed.

Lemma Mul_R_inf k : 0 < k < scalar_modulus → Mul R k ≠ infinity.
Proof. intros Hk E. apply R_order in E. rewrite Z.mod_small in E; lia. Qed.

(** A bundle's binding signature round-trips: whatever [SignBinding] returns for a key verifies under that
    key's public point, unless the key is 0, whose point everyone can sign for and which is refused whatever the
    signature. *)
Theorem sign_then_verify sha512 bsk sighash rnd sig :
  0 ≤ bsk < scalar_modulus →
  SignBinding R sha512 bsk sighash rnd = Ok sig →
  VerifyBinding R (Mul R bsk) sighash sig = if decide (bsk = 0) then Err ErrIdentityBvk else Ok ().
Proof.
  intros Hbsk Hs. unfold SignBinding in Hs. cbv zeta in Hs.
  apply outcome_bind_ok in Hs as (u & Hnz & Hs). apply refuse_ok, Z.eqb_neq in Hnz.
  assert (∀ x : bytes, mret x = Ok sig → sig = x) as Hret by (intros x E; unfold mret, outcome_ret in E; congruence).
  apply Hret in Hs as ->.
  set (k := _ mod scalar_modulus) in *. assert (0 ≤ k < scalar_modulus) as Hk by by apply Z.mod_pos_bound.
  set (e := challenge (Mul R k) (Mul R bsk) sighash).
  assert (0 ≤ (e * bsk + k) mod scalar_modulus < scalar_modulus) as Hs by by apply Z.mod_pos_bound.
  destruct (decide (bsk = 0)) as [->|Hne].
  - unfold VerifyBinding. rewrite length_app, PointBytes_length, be_bytes_length. cbn [Nat.add].
    change (negb (Z.of_nat 96 =? BindingSigSize)) with false. cbn [refuse mbind outcome_bind].
    by rewrite bool_decide_eq_true_2 by by apply Mul_0.
  - apply VerifyBinding_ok.
    + apply Forall_app. split; [apply Forall_app; split; apply FieldBytes_range|apply be_bytes_range].
    + split; [apply Mul_R_inf; lia|]. exists (Mul R k), ((e * bsk + k) mod scalar_modulus).
      split_and!; [done|by apply Mul_on|apply Mul_R_inf; lia|lia|lia|].
      rewrite Mul_mod, Mul_add, <-(Z.mul_comm bsk), <-Mul_mul by done.
      apply Add_comm; repeat apply Mul_on; done.
Qed.
End binding.

(** ** Hashing to a point *)
Section hash_to_point.
Context `{FieldHash} `{GrumpkinLaws}.

(** [x] is the first coordinate a counter gives, [y] the canonical root above it. *)
Definition point_at (t input ctr : Z) (p : Point) : Prop :=
  let x := hash [t; input; U64 ctr] in
  ∃ y, p = affine x y ∧ is_fr y ∧ fr_mul y y = curve_rhs x ∧ LexicographicallyLargest y = false.

Lemma fr_neg_square y : fr_mul (fr_neg y) (fr_neg y) = fr_mul y y.
Proof.
  unfold fr_mul, fr_neg. rewrite <-Z.mul_mod by done. f_equal. lia.
Qed.

Lemma HashToPointAt_spec t input ctr p : HashToPointAt t input ctr = Some p → point_at t input ctr p.
Proof.
  unfold HashToPointAt, point_at. set (x := hash _). destruct (Z.eqb_spec (Legendre (curve_rhs x)) 1) as [El|]; [|done].
  cbn [negb]. intros [= <-]. destruct (Sqrt_spec (curve_rhs x)) as [Hy Hsq]; [apply Z.mod_pos_bound; done|done|].
  set (y := Sqrt (curve_rhs x)) in *.
  destruct (LexicographicallyLargest y) eqn:EL; [|by exists y].
  exists (fr_neg y). split; [done|]. split; [by apply Z.mod_pos_bound|]. split; [by rewrite fr_neg_square|].
  unfold LexicographicallyLargest, fr_neg, is_fr in *. apply Z.ltb_lt in EL. apply Z.ltb_ge.
  assert ((modulus - 1) / 2 * 2 = modulus - 1) by by vm_compute.
  rewrite <-(Z_mod_plus_full _ 1), Z.mod_small; [lia|]. split; [lia|].
  assert (0 ≤ (modulus - 1) / 2) by (by apply Z.div_pos). lia.
Qed.

Lemma hash_to_point_least fuel t input ctr p n :
  0 ≤ ctr → ctr + Z.of_nat fuel < 2 ^ 32 →
  hash_to_point_loop fuel t input ctr = Some (p, n) →
  ctr ≤ n ∧ HashToPointAt t input n = Some p ∧ ∀ c, ctr ≤ c < n → HashToPointAt t input c = None.
Proof.
  revert ctr. induction fuel as [|fuel IH]; intros ctr Hc Hf; cbn [hash_to_point_loop]; [done|].
  destruct (HashToPointAt t input ctr) as [q|] eqn:E.
  - intros [= <- <-]. split; [lia|]. split; [done|]. intros c Hcc. lia.
  - unfold wrap_u32. rewrite Z.mod_small by lia. intros Hl. apply IH in Hl as (H1' & H2' & H3'); [|lia..].
    split; [lia|]. split; [done|]. intros c Hcc. destruct (decide (c = ctr)) as [->|]; [done|]. apply H3'. lia.
Qed.

Lemma hash_to_point_total fuel t input ctr n p :
  0 ≤ ctr ≤ n → n < ctr + Z.of_nat fuel → ctr + Z.of_nat fuel < 2 ^ 32 →
  HashToPointAt t input n = Some p → is_Some (hash_to_point_loop fuel t input ctr).
Proof.
  revert ctr. induction fuel as [|fuel IH]; intros ctr Hc Hn Hf Hp; [lia|]. cbn [hash_to_point_loop].
  destruct (HashToPointAt t input ctr) eqn:E; [by eexists|]. unfold wrap_u32. rewrite Z.mod_small by lia.
  assert (ctr ≠ n) by congruence. apply IH; (done || lia).
Qed.
End hash_to_point.
