(* ===== verification/Orchard.v ===== *)
(** * zk/orchard: the shielded bundle

    [zk/orchard/bundle.go]: what a bundle is, the digest and signature hash that bind it, its value balance and the
    verification of its proofs.  The proof verifier is an argument, as in the code; the workers that verify the
    proofs in parallel are a step relation ([vstep]) whose every run ends with the sequential result. *)

From S2P Require Export Curve.

Definition MaxActions : nat := 32.
Definition ErrMalformedBundle : error := Plain "orchard: malformed bundle".

(** [TxFields] *)
Record TxFields := mkTxFields { Memo : string; TimeoutHeight : Z; GasLimit : Z }.

Record Balance := mkBalance { Asset : Z; Value : Z }.

(** [ActionError]: the first action proof that failed, and why ([None]: well formed but invalid). *)
Record ActionError := mkActionError { ae_Bundle : nat; ae_Action : nat; ae_Err : option error }.

Section bundle.
Context `{FieldHash} `{Grumpkin}.

Record Action := mkAction {
  Anchor : Z; Nullifier : Z; Commitment : Z; Cv : Point; Ciphertext : bytes; Proof_ : bytes
}.
Record Bundle := mkBundle { Actions : list Action; Balances : list Balance; BindingSig : bytes }.

(** ** Digest and signature hash *)
Definition action_input (a : Action) : list Z :=
  [Anchor a; Nullifier a; Commitment a; (XY (Cv a)).1; (XY (Cv a)).2; Bytes (Ciphertext a)].
Definition balance_input (b : Balance) : list Z := [Asset b; U64 (Value b)].

Definition digest_input (b : Bundle) : list Z :=
  [TagBundle; U64 (wrap_u64 (Z.of_nat (length (Actions b))))] ++ (Actions b ≫= action_input) ++
  [U64 (wrap_u64 (Z.of_nat (length (Balances b))))] ++ (Balances b ≫= balance_input).

Definition Digest (b : Bundle) : Z := hash (digest_input b).

Definition Sighash (msgType chainID : string) (tx : TxFields) (bundles : list Bundle) (fields : list Z) : Z :=
  let f := U64 (wrap_u64 (Z.of_nat (length bundles))) :: (Digest <$> bundles) in
  let f := f ++ [Bytes (codes (Memo tx)); U64 (TimeoutHeight tx); U64 (GasLimit tx)] in
  Signal msgType chainID (f ++ fields).

(** ** The value balance *)
Variable R : Point.
Definition BaseFunc : Type := Z → outcome Point.

Fixpoint sub_balances (base : BaseFunc) (bals : list Balance) (bvk : Point) : outcome Point :=
  match bals with
  | [] => mret bvk
  | bal :: bals =>
      g ← base (Asset bal);
      sub_balances base bals (Sub bvk (Mul g (ScalarU64 (Value bal))))
  end.

Definition BindingKey (base : BaseFunc) (b : Bundle) : outcome Point :=
  sub_balances base (Balances b) (foldl (λ bvk a, Add bvk (Cv a)) infinity (Actions b)).

Definition CheckBalance (b : Bundle) (sighash : Z) (base : BaseFunc) : outcome () :=
  bvk ← BindingKey base b;
  VerifyBinding R bvk sighash (BindingSig b).

(** ** Shape *)
Fixpoint check_actions (as_ : list Action) (seen : gset Z) : outcome () :=
  match as_ with
  | [] => mret ()
  | a :: as_ =>
      _ ← refuse (negb (IsOnCurve (Cv a))) ErrMalformedBundle;
      _ ← refuse (bool_decide (Nullifier a ∈ seen)) ErrMalformedBundle;
      check_actions as_ ({[Nullifier a]} ∪ seen)
  end.
Fixpoint check_balances (bals : list Balance) (assets : gset Z) : outcome () :=
  match bals with
  | [] => mret ()
  | bal :: bals =>
      _ ← refuse ((Value bal =? 0) || bool_decide (Asset bal ∈ assets)) ErrMalformedBundle;
      check_balances bals ({[Asset bal]} ∪ assets)
  end.

Definition ValidateBasic (b : Bundle) : outcome () :=
  _ ← refuse ((length (Actions b) =? 0)%nat || (MaxActions <? length (Actions b))%nat) ErrMalformedBundle;
  _ ← check_actions (Actions b) ∅;
  _ ← check_balances (Balances b) ∅;
  refuse (negb (Z.of_nat (length (BindingSig b)) =? BindingSigSize)) ErrMalformedBundle.

(** ** Proofs *)
Definition action_inputs (a : Action) (sighash : Z) : list bytes :=
  [FieldBytes (Anchor a); FieldBytes (Nullifier a); FieldBytes (Commitment a);
   FieldBytes (XY (Cv a)).1; FieldBytes (XY (Cv a)).2; FieldBytes sighash].

(** [PublicInputs]: [None] is the panic of an action the bundle does not have. *)
Definition PublicInputs (b : Bundle) (i : nat) (sighash : Z) : option (list bytes) :=
  (λ a, action_inputs a sighash) <$> Actions b !! i.

Definition ProofVerifier : Type := bytes → list bytes → outcome bool.

(** [verifyRecovered]: a panic of the verifier is an error of the proof. *)
Definition verifyRecovered (verify : ProofVerifier) (proof : bytes) (inputs : list bytes) : outcome bool :=
  match verify proof inputs with
  | Panic => Err (Plain "proof verifier panicked")
  | r => r
  end.

(** One job: the verification of action [j] of bundle [i]. *)
Definition job_error (verify : ProofVerifier) (sighash : Z) (i j : nat) (a : Action) : option ActionError :=
  match verifyRecovered verify (Proof_ a) (action_inputs a sighash) with
  | Ok true => None
  | Ok false => Some (mkActionError i j None)
  | Err e => Some (mkActionError i j (Some e))
  | Panic => None
  end.

(** The jobs in bundle order, then action order. *)
Definition jobs (bundles : list Bundle) : list (nat * nat * Action) :=
  concat (imap (λ i b, imap (λ j a, (i, j, a)) (Actions b)) bundles).
Definition run_job (verify : ProofVerifier) (sighash : Z) (k : nat * nat * Action) : option ActionError :=
  job_error verify sighash k.1.1 k.1.2 k.2.

(** The error a list of results reports: the first. *)
Fixpoint first_error {A} (errs : list (option A)) : option A :=
  match errs with
  | [] => None
  | Some e :: _ => Some e
  | None :: errs => first_error errs
  end.

(** [VerifyProofsSequential]: one at a time, stopping at the first that fails. *)
Fixpoint verify_actions (verify : ProofVerifier) (sighash : Z) (i j : nat) (as_ : list Action) : option ActionError :=
  match as_ with
  | [] => None
  | a :: as_ =>
      match job_error verify sighash i j a with
      | Some e => Some e
      | None => verify_actions verify sighash i (S j) as_
      end
  end.
Fixpoint verify_bundles (verify : ProofVerifier) (sighash : Z) (i : nat) (bundles : list Bundle) : option ActionError :=
  match bundles with
  | [] => None
  | b :: bundles =>
      match verify_actions verify sighash i 0 (Actions b) with
      | Some e => Some e
      | None => verify_bundles verify sighash (S i) bundles
      end
  end.
Definition VerifyProofsSequential (bundles : list Bundle) (sighash : Z) (verify : ProofVerifier) : option ActionError :=
  verify_bundles verify sighash 0 bundles.

(** [VerifyProofs]: the main goroutine hands the job numbers out in order over an unbuffered channel, each of the
    workers takes one, runs it and stores its error.  A state is the jobs still to hand out, those being run, and
    the errors stored. *)
Record vstate := mkVstate { pending : list nat; running : list nat; errs : list (option ActionError) }.

Definition store_error (k : nat) (e : option ActionError) (es : list (option ActionError)) : list (option ActionError) :=
  match e with Some e => <[k := Some e]> es | None => es end.

Inductive vstep (workers : nat) (run : nat → option ActionError) : vstate → vstate → Prop :=
| vstep_take k rest rs es :
    (length rs < workers)%nat → vstep workers run (mkVstate (k :: rest) rs es) (mkVstate rest (k :: rs) es)
| vstep_finish k ps rs1 rs2 es :
    vstep workers run (mkVstate ps (rs1 ++ k :: rs2) es) (mkVstate ps (rs1 ++ rs2) (store_error k (run k) es)).

Definition vinit (n : nat) : vstate := mkVstate (seq 0 n) [] (replicate n None).
Definition vdone (s : vstate) : Prop := pending s = [] ∧ running s = [].

(** The run of the workers on a list of bundles; [GOMAXPROCS] is the runtime's. *)
Definition job_of (bundles : list Bundle) (sighash : Z) (verify : ProofVerifier) (k : nat) : option ActionError :=
  jobs bundles !! k ≫= run_job verify sighash.
Definition VerifyProofs_step (GOMAXPROCS : nat) (bundles : list Bundle) (sighash : Z) (verify : ProofVerifier) :
    vstate → vstate → Prop :=
  vstep (Nat.min GOMAXPROCS (length (jobs bundles))) (job_of bundles sighash verify).
Definition VerifyProofs_init (bundles : list Bundle) : vstate := vinit (length (jobs bundles)).

(** [Verify]: shape, binding signature, then the proofs ([VerifyProofs], whose every run ends as the sequential
    verification: [parallel_verification_deterministic]). *)
Inductive verify_error := BundleError (e : error) | ProofError (e : ActionError) | VerifyPanic.
Definition Verify (b : Bundle) (sighash : Z) (base : BaseFunc) (verify : ProofVerifier) : option verify_error :=
  match (_ ← ValidateBasic b; CheckBalance b sighash base) with
  | Err e => Some (BundleError e)
  | Panic => Some VerifyPanic
  | Ok _ => ProofError <$> VerifyProofsSequential [b] sighash verify
  end.
End bundle.

(** ** The parallel verification *)
Section parallel.
Context (workers : nat) (run : nat → option ActionError) (n : nat).
Implicit Types s : vstate.

(** Each job is waiting or running, with nothing stored, or done, with its own result stored. *)
Definition vinv s : Prop :=
  NoDup (pending s ++ running s) ∧ (∀ k, k ∈ pending s ++ running s → (k < n)%nat) ∧ length (errs s) = n ∧
  ∀ k, (k < n)%nat → errs s !! k = Some (if decide (k ∈ pending s ++ running s) then None else run k).

Lemma vinit_inv : vinv (vinit n).
Proof.
  unfold vinv, vinit. cbn [pending running errs]. rewrite app_nil_r. split_and!.
  - apply NoDup_seq.
  - intros k Hk%elem_of_seq. lia.
  - apply length_replicate.
  - intros k Hk. rewrite lookup_replicate_2 by done. rewrite decide_True; [done|]. apply elem_of_seq. lia.
Qed.

Lemma store_error_length k e es : length (store_error k e es) = length es.
Proof. destruct e; cbn; [by rewrite length_insert|done]. Qed.

Lemma store_error_lookup k j e es :
  es !! k = Some None → store_error k e es !! j = if decide (j = k) then Some e else es !! j.
Proof.
  intros Hk. destruct e as [e|]; cbn.
  - destruct (decide (j = k)) as [->|].
    + apply list_lookup_insert_eq. by apply lookup_lt_Some in Hk.
    + by rewrite list_lookup_insert_ne.
  - by destruct (decide (j = k)) as [->|].
Qed.

Lemma vstep_inv s s' : vstep workers run s s' → vinv s → vinv s'.
Proof.
  destruct 1 as [k rest rs es Hw|k ps rs1 rs2 es]; intros (Hnd & Hlt & Hlen & Herr); unfold vinv in *;
    cbn [pending running errs] in *.
  - assert (rest ++ k :: rs ≡ₚ (k :: rest) ++ rs) as Hp by (rewrite <-Permutation_middle; done).
    split; [by rewrite Hp|]. split; [intros j; rewrite Hp; apply Hlt|]. split; [done|].
    intros j Hj. rewrite (Herr j Hj). f_equal. by apply decide_ext; rewrite Hp.
  - assert (ps ++ rs1 ++ k :: rs2 ≡ₚ k :: (ps ++ rs1 ++ rs2)) as Hp.
    { rewrite !app_assoc, <-Permutation_middle. done. }
    rewrite Hp in Hnd. apply NoDup_cons in Hnd as [Hk Hnd].
    assert (k < n)%nat as Hkn by (apply Hlt; rewrite Hp; left).
    assert (es !! k = Some None) as Hes by (rewrite (Herr k Hkn), decide_True by (rewrite Hp; left); done).
    split; [done|]. split; [intros j Hj; apply Hlt; rewrite Hp; by right|]. split; [by rewrite store_error_length|].
    intros j Hj. rewrite store_error_lookup by done. destruct (decide (j = k)) as [->|Hne].
    + by rewrite decide_False.
    + rewrite (Herr j Hj). f_equal. apply decide_ext. rewrite Hp, elem_of_cons. tauto.
Qed.

Lemma vsteps_inv s : rtc (vstep workers run) (vinit n) s → vinv s.
Proof.
  intros Hs. assert (∀ a b, rtc (vstep workers run) a b → vinv a → vinv b) as Hi.
  { induction 1 as [|a b c Hab _ IH]; [done|]. intros Ha. by eapply IH, vstep_inv. }
  by eapply Hi, vinit_inv.
Qed.

(** A finished run has every job's own result. *)
Lemma vdone_errs s : rtc (vstep workers run) (vinit n) s → vdone s → errs s = run <$> seq 0 n.
Proof.
  intros (_ & _ & Hlen & Herr)%vsteps_inv [Ep Er]. rewrite Ep, Er in Herr. cbn [app] in Herr.
  apply list_eq. intros k. rewrite list_lookup_fmap. destruct (decide (k < n)%nat) as [Hk|Hk].
  - rewrite (Herr k Hk), lookup_seq_lt by done. rewrite decide_False by apply not_elem_of_nil. done.
  - rewrite !lookup_ge_None_2; [done|rewrite length_seq; lia|lia].
Qed.

(** No run stops early, and none goes on for ever. *)
Definition vwork s : nat := (2 * length (pending s) + length (running s))%nat.

Lemma vstep_work s s' : vstep workers run s s' → (vwork s' < vwork s)%nat.
Proof.
  unfold vwork. destruct 1; cbn [pending running length]; [lia|]. rewrite !length_app. cbn [length]. lia.
Qed.

Lemma vstep_progress s : (0 < workers)%nat → ¬ vdone s → ∃ s', vstep workers run s s'.
Proof.
  destruct s as [ps rs es]. intros Hw Hd. destruct rs as [|k rs].
  - destruct ps as [|k ps]; [by destruct Hd|]. eexists. by apply vstep_take.
  - eexists. exact (vstep_finish workers run k ps [] rs es).
Qed.
End parallel.

Section proofs.
Context `{FieldHash} `{Grumpkin}.

Lemma first_error_app {A} (l l' : list (option A)) :
  first_error (l ++ l') = match first_error l with Some e => Some e | None => first_error l' end.
Proof. induction l as [|[e|] l IH]; cbn; done. Qed.

Lemma verify_actions_jobs verify sighash i as_ d :
  verify_actions verify sighash i d as_ =
  first_error (run_job verify sighash <$> imap (λ j a, (i, (d + j)%nat, a)) as_).
Proof.
  revert d. induction as_ as [|a as_ IH]; intros d; [done|]. cbn [verify_actions imap fmap list_fmap first_error].
  unfold run_job at 1. cbn [fst snd]. rewrite Nat.add_0_r. rewrite (IH (S d)).
  assert (imap ((λ j a, (i, (d + j)%nat, a)) ∘ S) as_ = imap (λ j a, (i, (S d + j)%nat, a)) as_) as ->; [|done].
  apply imap_ext. intros j x _. cbn. repeat f_equal. lia.
Qed.

Lemma verify_bundles_jobs verify sighash bundles d :
  verify_bundles verify sighash d bundles =
  first_error (run_job verify sighash <$> concat (imap (λ i b, imap (λ j a, ((d + i)%nat, j, a)) (Actions b)) bundles)).
Proof.
  revert d. induction bundles as [|b bundles IH]; intros d; [done|]. cbn [verify_bundles imap concat].
  rewrite fmap_app, first_error_app, verify_actions_jobs, Nat.add_0_r. destruct (first_error _); [done|].
  rewrite (IH (S d)). do 3 f_equal. apply imap_ext. intros i x _. cbn. apply imap_ext. intros. repeat f_equal. lia.
Qed.

Lemma sequential_jobs bundles sighash verify :
  VerifyProofsSequential bundles sighash verify = first_error (run_job verify sighash <$> jobs bundles).
Proof. apply (verify_bundles_jobs verify sighash bundles 0). Qed.

Lemma job_of_seq bundles sighash verify :
  job_of bundles sighash verify <$> seq 0 (length (jobs bundles)) = run_job verify sighash <$> jobs bundles.
Proof.
  apply list_eq. intros k. rewrite !list_lookup_fmap. destruct (decide (k < length (jobs bundles))%nat) as [Hk|Hk].
  - rewrite lookup_seq_lt by done. cbn [fmap option_fmap option_map]. unfold job_of. cbn [Nat.add].
    by destruct (lookup_lt_is_Some_2 (jobs bundles) k Hk) as [x ->].
  - rewrite !lookup_ge_None_2; [done|lia|rewrite length_seq; lia].
Qed.

(** C37: Verifying a message's proofs in parallel is deterministic: however the workers interleave, with any number
    of them, every run ends (no state but a finished one is stuck, and each step leaves less to do) and reports
    the first failing action in bundle and action order, as the sequential verification of the mempool
    does; a proof that makes the verifier panic only fails its own action. *)
Theorem parallel_verification_deterministic GOMAXPROCS bundles sighash verify :
  (0 < GOMAXPROCS)%nat →
  let step := VerifyProofs_step GOMAXPROCS bundles sighash verify in
  (∀ s, rtc step (VerifyProofs_init bundles) s → vdone s →
     first_error (errs s) = VerifyProofsSequential bundles sighash verify) ∧
  (∀ s, rtc step (VerifyProofs_init bundles) s → vdone s ∨ ∃ s', step s s') ∧
  (∀ s s', step s s' → (vwork s' < vwork s)%nat).
Proof.
  intros HG step. split_and!.
  - intros s Hs Hd. rewrite sequential_jobs, <-job_of_seq.
    by rewrite (vdone_errs _ _ (length (jobs bundles)) s Hs Hd).
  - intros s Hs. destruct (decide (pending s = [] ∧ running s = [])) as [Hd|Hd]; [by left|right].
    destruct (length (jobs bundles)) as [|m] eqn:El.
    + exfalso. apply Hd. pose proof (vsteps_inv _ _ _ _ Hs) as (_ & Hlt & _). rewrite El in Hlt.
      destruct (pending s ++ running s) as [|k l] eqn:E; [by apply app_eq_nil in E|].
      specialize (Hlt k ltac:(left)). lia.
    + apply vstep_progress; [rewrite El; lia|done].
  - intros s s'. apply vstep_work.
Qed.

(** A bundle accepted by the parallel verification has only proofs the verifier accepts. *)
Lemma sequential_ok bundles sighash verify :
  VerifyProofsSequential bundles sighash verify = None →
  ∀ b a, b ∈ bundles → a ∈ Actions b → verify (Proof_ a) (action_inputs a sighash) = Ok true.
Proof.
  unfold VerifyProofsSequential. generalize 0%nat as i. induction bundles as [|b0 bundles IH]; intros i; cbn [verify_bundles].
  { intros _ b a ?%elem_of_nil. done. }
  destruct (verify_actions _ _ _ _ _) eqn:E; [done|]. intros Hr b a [->|Hb]%elem_of_cons Ha; [|by eapply IH].
  clear -E Ha. revert E Ha. generalize 0%nat as j. induction (Actions b0) as [|x l IH]; intros j; cbn [verify_actions].
  { intros _ ?%elem_of_nil. done. }
  destruct (job_error _ _ _ _ _) eqn:E; [done|]. intros Hl [->|Ha]%elem_of_cons; [|by eapply IH].
  unfold job_error, verifyRecovered in E. by destruct (verify _ _) as [[]| |].
Qed.
End proofs.

(** ** What the binding key says of the values *)

(** An opening of an action's value commitment: what the circuit proves the prover knows. *)
Record Opening := mkOpening { o_assetSpend : Z; o_vSpend : Z; o_assetOut : Z; o_vOut : Z; o_rcv : Z }.

(** The circuit's bounds on an opening. *)
Definition opening_ok (o : Opening) : Prop :=
  0 ≤ o_vSpend o < 2 ^ 63 ∧ 0 ≤ o_vOut o < 2 ^ 63 ∧ is_fr (o_rcv o).

(** Terms [c * G(asset)], and an asset's total coefficient. *)
Definition terms_of_opening (o : Opening) : list (Z * Z) := [(o_assetSpend o, o_vSpend o); (o_assetOut o, - o_vOut o)].
Definition terms_of_balance (b : Balance) : list (Z * Z) := [(Asset b, - Value b)].
Definition bundle_terms (os : list Opening) (bals : list Balance) : list (Z * Z) :=
  (os ≫= terms_of_opening) ++ (bals ≫= terms_of_balance).
Definition coefficient (terms : list (Z * Z)) (a : Z) : Z := list_sum (λ t, if decide (t.1 = a) then t.2 else 0) terms.

(** Per asset: the spends less the outputs less the public balance. *)
Definition imbalance (os : list Opening) (bals : list Balance) (a : Z) : Z := coefficient (bundle_terms os bals) a.

Lemma coefficient_app ts ts' a : coefficient (ts ++ ts') a = coefficient ts a + coefficient ts' a.
Proof. apply list_sum_app. Qed.

(** A bundle of at most [MaxActions] actions cannot make a coefficient wrap around the scalar field. *)
Lemma actions_bound os a :
  Forall opening_ok os → Z.abs (coefficient (os ≫= terms_of_opening) a) ≤ Z.of_nat (length os) * (2 * 2 ^ 63).
Proof.
  induction 1 as [|o os (Hs & Ho & _) _ IH]; [done|].
  change ((o :: os) ≫= terms_of_opening) with (terms_of_opening o ++ (os ≫= terms_of_opening)).
  rewrite coefficient_app. cbn [length]. rewrite Nat2Z.inj_succ.
  assert (Z.abs (coefficient (terms_of_opening o) a) ≤ 2 * 2 ^ 63); [|lia].
  unfold coefficient, list_sum, terms_of_opening. cbn [foldr fst snd]. repeat case_decide; lia.
Qed.

Lemma balances_bound bals a :
  NoDup (Asset <$> bals) → (∀ b, b ∈ bals → is_u64 (Value b)) →
  Z.abs (coefficient (bals ≫= terms_of_balance) a) < 2 ^ 64 ∧
  (a ∉ Asset <$> bals → coefficient (bals ≫= terms_of_balance) a = 0).
Proof.
  induction bals as [|b bals IH]; intros Hnd Hv; [done|].
  change ((b :: bals) ≫= terms_of_balance) with (terms_of_balance b ++ (bals ≫= terms_of_balance)).
  rewrite coefficient_app. cbn [fmap list_fmap] in *. apply NoDup_cons in Hnd as [Hb Hnd].
  destruct (IH Hnd) as [IH1 IH2]; [intros x Hx; apply Hv; by right|].
  specialize (Hv b ltac:(left)). unfold is_u64 in Hv. unfold coefficient at 1 3, list_sum, terms_of_balance at 1 3.
  cbn [foldr fst snd]. case_decide as Ha.
  - rewrite IH2 by by subst a. split; [lia|]. intros Hni. exfalso. apply Hni. rewrite Ha. left.
  - split; [lia|]. intros Hni. rewrite IH2; [lia|]. intros Hin. apply Hni. by right.
Qed.

Section balance.
Context `{FieldHash} `{GrumpkinLaws} (R : Point) (G : Z → Point).
Hypothesis R_on : IsOnCurve R = true.
Hypothesis G_on : ∀ a, IsOnCurve (G a) = true.

#[local] Hint Resolve R_on G_on infinity_on Add_on Neg_on Mul_on Sub_on : core.

(** The point of a list of terms, and of coefficients by asset. *)
Definition point_of (terms : list (Z * Z)) : Point := foldr (λ t acc, Add (Mul (G t.1) t.2) acc) infinity terms.

Lemma point_of_on ts : IsOnCurve (point_of ts) = true.
Proof. induction ts as [|t ts IH]; cbn; auto. Qed.
#[local] Hint Resolve point_of_on : core.

Lemma point_of_app ts ts' : point_of (ts ++ ts') = Add (point_of ts) (point_of ts').
Proof.
  induction ts as [|t ts IH]; cbn [point_of app foldr]; [by rewrite Add_0 by auto|].
  unfold point_of in IH at 1. rewrite IH. by rewrite Add_assoc by auto.
Qed.

(** Collecting the terms of each asset. *)
Definition collected (assets : list Z) (terms : list (Z * Z)) : list (Z * Z) := (λ a, (a, coefficient terms a)) <$> assets.

Lemma collected_nil assets : point_of (collected assets []) = infinity.
Proof.
  induction assets as [|a assets IH]; [done|]. cbn [collected fmap list_fmap point_of foldr fst snd].
  unfold point_of, collected in IH. rewrite IH. change (coefficient [] a) with 0. rewrite (Mul_0 (G a)) by auto. by apply Add_0, infinity_on.
Qed.

Lemma collected_skip assets t ts : t.1 ∉ assets → collected assets (t :: ts) = collected assets ts.
Proof.
  intros Ht. apply list_fmap_ext. intros i a Ha. apply list_elem_of_lookup_2 in Ha. f_equal.
  unfold coefficient. rewrite list_sum_cons. rewrite decide_False; [lia|]. by intros <-.
Qed.

Lemma collected_cons assets t ts :
  NoDup assets → t.1 ∈ assets →
  point_of (collected assets (t :: ts)) = Add (Mul (G t.1) t.2) (point_of (collected assets ts)).
Proof.
  induction assets as [|a assets IH]; intros Hnd Hin; [by apply elem_of_nil in Hin|].
  apply NoDup_cons in Hnd as [Ha Hnd].
  change (collected (a :: assets) (t :: ts)) with ((a, coefficient (t :: ts) a) :: collected assets (t :: ts)).
  change (collected (a :: assets) ts) with ((a, coefficient ts a) :: collected assets ts).
  cbn [point_of foldr fst snd]. fold (point_of (collected assets (t :: ts))). fold (point_of (collected assets ts)).
  unfold coefficient at 1. rewrite list_sum_cons. fold (coefficient ts a).
  destruct (decide (t.1 = a)) as [<-|Hne].
  - rewrite collected_skip by done. rewrite Mul_add by auto. by rewrite Add_assoc by auto.
  - apply elem_of_cons in Hin as [E|Hin]; [done|]. rewrite Z.add_0_l, (IH Hnd Hin).
    rewrite !Add_assoc by auto. f_equal. by apply Add_comm; auto.
Qed.

Lemma point_of_collected assets ts :
  NoDup assets → (∀ t, t ∈ ts → t.1 ∈ assets) → point_of ts = point_of (collected assets ts).
Proof.
  intros Hnd. induction ts as [|t ts IH]; intros Hin; [by rewrite collected_nil|].
  rewrite collected_cons by (done || (apply Hin; left)). rewrite <-IH by (intros; apply Hin; by right). done.
Qed.

Lemma point_of_zero assets ts :
  (∀ a, a ∈ assets → coefficient ts a = 0) → point_of (collected assets ts) = infinity.
Proof.
  intros Hz. rewrite <-(collected_nil assets). f_equal. apply list_fmap_ext. intros i a Ha%list_elem_of_lookup_2.
  by rewrite (Hz a Ha).
Qed.

(** ** The binding key of committed values *)
Definition opens (b : Bundle) (os : list Opening) : Prop :=
  Forall2 (λ a o, Cv a = ValueCommit R G (o_assetSpend o) (o_vSpend o) (o_assetOut o) (o_vOut o) (o_rcv o)) (Actions b) os.

Lemma ScalarU64_id v : is_u64 v → ScalarU64 v = v.
Proof. unfold is_u64, ScalarU64. intros Hv. apply Z.mod_small. unfold scalar_modulus. lia. Qed.
Lemma ScalarFromField_id e : is_fr e → ScalarFromField e = e.
Proof. unfold is_fr, ScalarFromField, modulus, scalar_modulus. intros He. apply Z.mod_small. lia. Qed.

Lemma ValueCommit_terms o :
  opening_ok o →
  ValueCommit R G (o_assetSpend o) (o_vSpend o) (o_assetOut o) (o_vOut o) (o_rcv o) =
  Add (point_of (terms_of_opening o)) (Mul R (o_rcv o)).
Proof.
  intros (Hs & Ho & Hr). unfold ValueCommit. rewrite !ScalarU64_id, ScalarFromField_id by (done || unfold is_u64; lia).
  unfold terms_of_opening. cbn [point_of foldr fst snd]. rewrite Mul_opp by auto. rewrite (Add_0_r (Neg _)) by auto. done.
Qed.

Definition rcv_sum (os : list Opening) : Z := list_sum o_rcv os.

Lemma sum_commitments as_ os acc :
  Forall2 (λ a o, Cv a = ValueCommit R G (o_assetSpend o) (o_vSpend o) (o_assetOut o) (o_vOut o) (o_rcv o)) as_ os →
  Forall opening_ok os → IsOnCurve acc = true →
  foldl (λ bvk a, Add bvk (Cv a)) acc as_ = Add acc (Add (point_of (os ≫= terms_of_opening)) (Mul R (rcv_sum os))).
Proof.
  intros Has. revert acc. induction Has as [|a o as_ os Ea Has IH]; intros acc Hok Hacc.
  - cbn. by rewrite Mul_0, Add_0, Add_0_r by auto.
  - apply Forall_cons_1 in Hok as [Ho Hok]. cbn [foldl]. rewrite Ea, ValueCommit_terms by done.
    rewrite IH by auto. rewrite <-Add_assoc by auto. f_equal.
    change ((o :: os) ≫= terms_of_opening) with (terms_of_opening o ++ (os ≫= terms_of_opening)).
    rewrite point_of_app. unfold rcv_sum. rewrite list_sum_cons, Mul_add by auto. apply Add_swap; auto.
Qed.

Lemma sub_balances_run bals acc :
  (∀ b, b ∈ bals → is_u64 (Value b)) → IsOnCurve acc = true →
  sub_balances (λ a, Ok (G a)) bals acc = Ok (Add acc (point_of (bals ≫= terms_of_balance))).
Proof.
  revert acc. induction bals as [|b bals IH]; intros acc Hv Hacc.
  - change (point_of ([] ≫= terms_of_balance)) with infinity. by rewrite (Add_0_r acc) by auto.
  - change (sub_balances (λ a, Ok (G a)) (b :: bals) acc) with
      (sub_balances (λ a, Ok (G a)) bals (Sub acc (Mul (G (Asset b)) (ScalarU64 (Value b))))).
    rewrite IH by (auto || (intros; apply Hv; by right)). f_equal.
    change ((b :: bals) ≫= terms_of_balance) with (terms_of_balance b ++ (bals ≫= terms_of_balance)).
    rewrite point_of_app. unfold terms_of_balance at 2. cbn [point_of foldr fst snd].
    rewrite Mul_opp, (Add_0_r (Neg _)) by auto. rewrite ScalarU64_id by (apply Hv; left).
    unfold Sub. by rewrite Add_assoc by auto.
Qed.

(** The binding key of an opened bundle: the imbalances on the value bases, and the randomness. *)
Lemma BindingKey_spec b os :
  opens b os → Forall opening_ok os → (∀ bal, bal ∈ Balances b → is_u64 (Value bal)) →
  BindingKey (λ a, Ok (G a)) b = Ok (Add (point_of (bundle_terms os (Balances b))) (Mul R (rcv_sum os))).
Proof.
  intros Hop Hok Hv. unfold BindingKey. rewrite (sum_commitments _ os) by auto.
  rewrite sub_balances_run by auto. f_equal. unfold bundle_terms. rewrite point_of_app, Add_0 by auto.
  rewrite <-!Add_assoc by auto. f_equal. by apply Add_comm; auto.
Qed.

Lemma imbalance_bound b os a :
  (length (Actions b) ≤ MaxActions)%nat → opens b os → Forall opening_ok os → NoDup (Asset <$> Balances b) →
  (∀ bal, bal ∈ Balances b → is_u64 (Value bal)) → Z.abs (imbalance os (Balances b) a) < scalar_modulus.
Proof.
  intros Hl Hop Hok Hnd Hv. unfold imbalance, bundle_terms. rewrite coefficient_app.
  pose proof (actions_bound os a Hok) as H1'. destruct (balances_bound (Balances b) a Hnd Hv) as [H2' _].
  apply Forall2_length in Hop. unfold MaxActions, scalar_modulus in *. lia.
Qed.

(** The assets a bundle involves. *)
Definition bundle_assets (os : list Opening) (bals : list Balance) : list Z := remove_dups (bundle_terms os bals).*1.

(** A relation between the bases that is not the trivial one: integer coefficients, one per asset, not all zero
    modulo the group's order, and one for the randomness base, whose combination vanishes. *)
Definition base_relation (assets : list Z) (coeff : Z → Z) (k : Z) : Prop :=
  Add (point_of ((λ a, (a, coeff a)) <$> assets)) (Mul R k) = infinity ∧
  ∃ a, a ∈ assets ∧ coeff a mod scalar_modulus ≠ 0.

Lemma coefficient_absent ts a : a ∉ ts.*1 → coefficient ts a = 0.
Proof.
  induction ts as [|t ts IH]; intros Ha; [done|]. cbn [fmap list_fmap] in Ha. rewrite not_elem_of_cons in Ha.
  unfold coefficient. rewrite list_sum_cons. rewrite decide_False by (intros E; by destruct Ha). fold (coefficient ts a).
  rewrite IH by tauto. done.
Qed.

Lemma bundle_point_collected os bals :
  point_of (bundle_terms os bals) = point_of (collected (bundle_assets os bals) (bundle_terms os bals)).
Proof.
  apply point_of_collected; [apply NoDup_remove_dups|]. intros t Ht. apply elem_of_remove_dups. by apply list_elem_of_fmap_2.
Qed.

(** C38: The binding signature enforces the value balance.  For a bundle of at most 32 actions whose commitments open
    to values the circuit allows, with distinct balance assets: if every asset balances (spends less outputs is
    exactly the public balance) the binding key is the randomness sum's point, so the wallet can sign; and if
    the binding key is anyone's key's point, every asset balances over the integers, unless that key and the
    values are an explicit relation between the bases. *)
Theorem binding_key_enforces_balance b os :
  (length (Actions b) ≤ MaxActions)%nat → opens b os → Forall opening_ok os → NoDup (Asset <$> Balances b) →
  (∀ bal, bal ∈ Balances b → is_u64 (Value bal)) →
  ((∀ a, imbalance os (Balances b) a = 0) →
     BindingKey (λ a, Ok (G a)) b = Ok (Mul R (BindingSigningKey (o_rcv <$> os)))) ∧
  (∀ bsk, BindingKey (λ a, Ok (G a)) b = Ok (Mul R bsk) →
     (∀ a, imbalance os (Balances b) a = 0) ∨
     base_relation (bundle_assets os (Balances b)) (imbalance os (Balances b)) (rcv_sum os - bsk)).
Proof.
  intros Hl Hop Hok Hnd Hv. rewrite (BindingKey_spec b os) by done. rewrite bundle_point_collected. split.
  - intros Hz. rewrite point_of_zero by (intros a _; apply Hz). rewrite Add_0 by auto. f_equal.
    assert (∀ acc, Mul R (foldl (λ bsk r, (bsk + ScalarFromField r) mod scalar_modulus) acc (o_rcv <$> os)) =
      Mul R (acc + rcv_sum os)) as Hfold; [|unfold BindingSigningKey; rewrite Hfold; f_equal; lia].
    clear -Hok R_on H1. induction Hok as [|o os (_ & _ & Hr) _ IH]; intros acc; cbn [foldl fmap list_fmap].
    + f_equal. cbn. lia.
    + rewrite IH. unfold rcv_sum. rewrite list_sum_cons, ScalarFromField_id by done.
      rewrite Mul_add, Mul_mod, <-Mul_add by auto. f_equal. lia.
  - intros bsk E.
    assert (∀ p q : Point, Ok p = Ok q → p = q) as Hinj by (intros p q Epq; congruence). apply Hinj in E.
    destruct (decide (Forall (λ a, imbalance os (Balances b) a = 0) (bundle_assets os (Balances b)))) as [Hz|Hnz].
    + left. intros a. destruct (decide (a ∈ bundle_assets os (Balances b))) as [Ha|Ha].
      * by apply (proj1 (Forall_forall _ _) Hz).
      * apply coefficient_absent. intros Hin. apply Ha. by apply elem_of_remove_dups.
    + right. split.
      * change ((λ a, (a, imbalance os (Balances b) a)) <$> bundle_assets os (Balances b)) with
          (collected (bundle_assets os (Balances b)) (bundle_terms os (Balances b))).
        unfold Z.sub. rewrite Mul_add, Add_assoc by auto. rewrite E, Mul_opp by auto. apply Add_neg. auto.
      * apply not_Forall_Exists in Hnz; [|intros x; apply _]. apply Exists_exists in Hnz as (a & Ha & Hn).
        exists a. split; [done|]. intros Em.
        pose proof (imbalance_bound b os a Hl Hop Hok Hnd Hv) as Hb.
        apply Z.mod_divide in Em as [q Eq]; [|done]. assert (q = 0) as ->; [|apply Hn; lia].
        destruct (decide (q = 0)); [done|]. rewrite Eq, Z.abs_mul in Hb. unfold scalar_modulus in *. lia.
Qed.
End balance.

(** ** What the signature hash binds *)
Section sighash.
Context `{FieldHash} `{GrumpkinLaws}.

(** Everything a private message's signature hash is over. *)
Record Message := mkMessage {
  msg_Type : string; msg_Chain : string; msg_Tx : TxFields; msg_Bundles : list Bundle; msg_Fields : list Z
}.
Definition MessageSighash (m : Message) : Z :=
  Sighash (msg_Type m) (msg_Chain m) (msg_Tx m) (msg_Bundles m) (msg_Fields m).

(** A bundle without its proofs and its signature, which are made over the hash. *)
Definition action_public (a : Action) : Z * Z * Z * Point * bytes :=
  (Anchor a, Nullifier a, Commitment a, Cv a, Ciphertext a).
Definition bundle_public (b : Bundle) : list (Z * Z * Z * Point * bytes) * list Balance :=
  (action_public <$> Actions b, Balances b).

(** Counts and lengths are below 2^64, and ciphertexts are bytes. *)
Definition bundle_fits (b : Bundle) : Prop :=
  Z.of_nat (length (Actions b)) < 2 ^ 64 ∧ Z.of_nat (length (Balances b)) < 2 ^ 64 ∧
  ∀ a, a ∈ Actions b → is_bytes (Ciphertext a) ∧ Z.of_nat (length (Ciphertext a)) < 2 ^ 64.
Definition message_fits (m : Message) : Prop :=
  string_fits (msg_Type m) ∧ string_fits (msg_Chain m) ∧ string_fits (Memo (msg_Tx m)) ∧
  Z.of_nat (length (msg_Bundles m)) < 2 ^ 64 ∧ Forall bundle_fits (msg_Bundles m).

(** The inputs of all the hashes made on the way. *)
Definition signal_input (m : Message) : list Z :=
  [TagSignal; Bytes (codes (msg_Type m)); Bytes (codes (msg_Chain m));
   U64 (wrap_u64 (Z.of_nat (length (msg_Bundles m))))] ++
  (Digest <$> msg_Bundles m) ++
  [Bytes (codes (Memo (msg_Tx m))); U64 (TimeoutHeight (msg_Tx m)); U64 (GasLimit (msg_Tx m))] ++ msg_Fields m.
Definition bundle_inputs (b : Bundle) : list (list Z) :=
  digest_input b :: ((λ a, tagged_bytes TagBytes (Ciphertext a)) <$> Actions b).
Definition sighash_inputs (m : Message) : list (list Z) :=
  signal_input m :: tagged_bytes TagBytes (codes (msg_Type m)) :: tagged_bytes TagBytes (codes (msg_Chain m)) ::
  tagged_bytes TagBytes (codes (Memo (msg_Tx m))) :: (msg_Bundles m ≫= bundle_inputs).

(** Two of the inputs of the two messages collide. *)
Definition collide_in (ls ls' : list (list Z)) : Prop := ∃ l l', l ∈ ls ∧ l' ∈ ls' ∧ collide l l'.

Lemma MessageSighash_input m : MessageSighash m = hash (signal_input m).
Proof. unfold MessageSighash, Sighash, Signal, signal_input. by rewrite <-app_assoc. Qed.

Lemma bind_inj {A B} (f : A → list B) (n : nat) l l' :
  (∀ x, length (f x) = n) → length l = length l' → (l ≫= f) = (l' ≫= f) → Forall2 (λ x y, f x = f y) l l'.
Proof.
  intros Hn. revert l'. induction l as [|x l IH]; intros [|y l'] Hl E; try done; constructor.
  - apply app_inj_1 in E as [E _]; [done|by rewrite !Hn].
  - apply IH; [by injection Hl|]. apply app_inj_1 in E as [_ E]; [done|by rewrite !Hn].
Qed.

Lemma XY_inj p q : XY p = XY q → p = q.
Proof. intros E. rewrite <-(affine_XY p), <-(affine_XY q). by rewrite E. Qed.

Lemma action_inj a a' :
  is_bytes (Ciphertext a) → is_bytes (Ciphertext a') → Z.of_nat (length (Ciphertext a)) < 2 ^ 64 →
  Z.of_nat (length (Ciphertext a')) < 2 ^ 64 → action_input a = action_input a' →
  action_public a = action_public a' ∨
  collide (tagged_bytes TagBytes (Ciphertext a)) (tagged_bytes TagBytes (Ciphertext a')).
Proof.
  intros Hb Hb' Hl Hl' E. unfold action_input in E. injection E as Ea En Ec Ex Ey Eb.
  apply Bytes_inj in Eb as [Eb|Hc]; [left|by right|done..].
  unfold action_public. assert (XY (Cv a) = XY (Cv a')) as Ep by (rewrite (surjective_pairing (XY (Cv a))), Ex, Ey; by destruct (XY (Cv a'))).
  apply XY_inj in Ep. congruence.
Qed.

Lemma digest_inj b b' :
  bundle_fits b → bundle_fits b' → Digest b = Digest b' →
  bundle_public b = bundle_public b' ∨ collide_in (bundle_inputs b) (bundle_inputs b').
Proof.
  intros (Ha & Hb & Hc) (Ha' & Hb' & Hc') [E|Hcol]%collide_dec.
  2:{ right. do 2 eexists. split; [left|]. split; [left|done]. }
  unfold digest_input in E. cbn [app] in E. unfold U64 in E. injection E as En E. rewrite !wrap_u64_id in En by lia.
  assert (length (Actions b) = length (Actions b')) as El by lia.
  assert (∀ l : list Action, length (l ≫= action_input) = (6 * length l)%nat) as Hlen.
  { induction l as [|x l IH]; [done|]. rewrite bind_cons, length_app, IH. cbn. lia. }
  apply app_inj_1 in E as [Eacts E]; [|by rewrite !Hlen, El].
  injection E as Em E. rewrite !wrap_u64_id in Em by lia.
  apply (bind_inj action_input 6) in Eacts; [|done|done].
  apply (bind_inj balance_input 2) in E; [|done|lia].
  assert (Balances b = Balances b') as Ebal.
  { clear -E. induction E as [|x y l l' Exy _ IH]; [done|]. f_equal; [|done].
    destruct x, y. unfold balance_input, U64 in Exy. cbn in Exy. congruence. }
  assert (action_public <$> Actions b = action_public <$> Actions b' ∨
    ∃ a a', a ∈ Actions b ∧ a' ∈ Actions b' ∧
      collide (tagged_bytes TagBytes (Ciphertext a)) (tagged_bytes TagBytes (Ciphertext a'))) as [Epub|(a & a' & Hin & Hin' & Hcol)].
  { clear -Eacts Hc Hc' H1. induction Eacts as [|x y l l' Exy _ IH]; [by left|].
    destruct (Hc x ltac:(left)) as [Hx1 Hx2]. destruct (Hc' y ltac:(left)) as [Hy1 Hy2].
    destruct (action_inj x y Hx1 Hy1 Hx2 Hy2 Exy) as [Ep|Hcol].
    - destruct IH as [IH|(a & a' & Hin & Hin' & Hcol)].
      + intros z Hz. apply Hc. by right.
      + intros z Hz. apply Hc'. by right.
      + left. cbn [fmap list_fmap]. by rewrite Ep, IH.
      + right. exists a, a'. split; [by right|]. split; [by right|done].
    - right. exists x, y. split; [left|]. split; [left|done]. }
  - left. unfold bundle_public. by rewrite Epub, Ebal.
  - right. do 2 eexists. split; [right; apply list_elem_of_fmap_2, Hin|]. split; [right; apply list_elem_of_fmap_2, Hin'|done].
Qed.

Lemma digests_inj bs bs' :
  Forall bundle_fits bs → Forall bundle_fits bs' → Digest <$> bs = Digest <$> bs' →
  bundle_public <$> bs = bundle_public <$> bs' ∨ collide_in (bs ≫= bundle_inputs) (bs' ≫= bundle_inputs).
Proof.
  intros Hb. revert bs'. induction Hb as [|b bs Hb _ IH]; intros [|b' bs'] Hb' E; try done; [by left|].
  apply Forall_cons_1 in Hb' as [Hb1 Hb']. cbn [fmap list_fmap] in E. injection E as E1 E2.
  assert (∀ x l (y : list Z), y ∈ bundle_inputs x → y ∈ (x :: l) ≫= bundle_inputs) as Hhd.
  { intros x l y Hy. rewrite bind_cons. apply elem_of_app. by left. }
  assert (∀ x l (y : list Z), y ∈ l ≫= bundle_inputs → y ∈ (x :: l) ≫= bundle_inputs) as Htl.
  { intros x l y Hy. rewrite bind_cons. apply elem_of_app. by right. }
  destruct (digest_inj b b' Hb Hb1 E1) as [Ep|(l & l' & Hl & Hl' & Hc)].
  2:{ right. exists l, l'. auto. }
  destruct (IH bs' Hb' E2) as [Eps|(l & l' & Hl & Hl' & Hc)].
  2:{ right. exists l, l'. auto. }
  left. cbn [fmap list_fmap]. by rewrite Ep, Eps.
Qed.

(** C39: The signature hash binds everything a relayer could change: two messages with the same hash have the same
    type, chain, memo, timeout height, gas limit, own fields, and bundles up to their proofs and binding
    signatures (every anchor, nullifier, commitment, value commitment, ciphertext and balance), unless two
    different inputs hashed on the way collide. *)
Theorem sighash_binds m m' :
  message_fits m → message_fits m' → MessageSighash m = MessageSighash m' →
  (msg_Type m = msg_Type m' ∧ msg_Chain m = msg_Chain m' ∧ msg_Tx m = msg_Tx m' ∧
   bundle_public <$> msg_Bundles m = bundle_public <$> msg_Bundles m' ∧ msg_Fields m = msg_Fields m') ∨
  collide_in (sighash_inputs m) (sighash_inputs m').
Proof.
  intros (Ht & Hc & Hm & Hn & Hb) (Ht' & Hc' & Hm' & Hn' & Hb'). rewrite !MessageSighash_input.
  intros [E|Hcol]%collide_dec; [|right; do 2 eexists; split; [left|]; split; [left|done]].
  unfold signal_input in E. cbn [app] in E. unfold U64 in E. injection E as Et Ec En E. rewrite !wrap_u64_id in En by lia.
  apply app_inj_1 in E as [Eb E]; [|rewrite !length_fmap; lia]. injection E as Em Eto Eg Ef.
  apply string_Bytes_inj in Et as [Et|Hcol]; [|right; do 2 eexists; split; [right; left|]; split; [right; left|done]|done..].
  apply string_Bytes_inj in Ec as [Ec|Hcol];
    [|right; do 2 eexists; split; [right; right; left|]; split; [right; right; left|done]|done..].
  apply string_Bytes_inj in Em as [Em|Hcol];
    [|right; do 2 eexists; split; [do 3 right; left|]; split; [do 3 right; left|done]|done..].
  destruct (digests_inj _ _ Hb Hb' Eb) as [Epub|(l & l' & Hl & Hl' & Hcol)].
  - left. split_and!; [done|done| |done|done]. destruct (msg_Tx m), (msg_Tx m'). cbn in *. congruence.
  - right. exists l, l'. split; [by do 4 right|]. split; [by do 4 right|done].
Qed.
End sighash.
