(* ===== verification/ZkModel.v ===== *)
(** * A group that meets its laws

    A concrete instance of the group interface of the zk packages, for the witnesses: a cyclic group of the right
    order.  It is not a model of gnark-crypto's curve, only an instance of what the packages rely on. *)

From S2P Require Export HashModel Debt Orchard.

(** ** A group: the scalars, written as pairs of field elements *)
Definition grp_val (p : Z * Z) : Z := p.1 + p.2 * modulus.
Definition grp_of (k : Z) : Z * Z := ((k mod scalar_modulus) mod modulus, (k mod scalar_modulus) / modulus).
Definition grp_on (p : Z * Z) : bool :=
  (0 <=? p.1) && (p.1 <? modulus) && (0 <=? p.2) && (grp_val p <? scalar_modulus).

#[export] Instance demo_curve : Grumpkin := {|
  Point := Z * Z;
  affine x y := (x, y);
  XY p := p;
  IsOnCurve := grp_on;
  Add p q := grp_of (grp_val p + grp_val q);
  Neg p := grp_of (- grp_val p);
  Mul p k := grp_of (grp_val p * k);
  Legendre a := if Z.sqrt a * Z.sqrt a =? a then 1 else -1;
  Sqrt := Z.sqrt;
|}.

Lemma grp_on_spec p : grp_on p = true ↔ is_fr p.1 ∧ 0 ≤ p.2 ∧ grp_val p < scalar_modulus.
Proof. unfold grp_on, is_fr. rewrite !andb_true_iff, !Z.leb_le, !Z.ltb_lt. lia. Qed.

Lemma grp_val_of k : grp_val (grp_of k) = k mod scalar_modulus.
Proof. unfold grp_val, grp_of. cbn [fst snd]. pose proof (Z.div_mod (k mod scalar_modulus) modulus). unfold modulus in *. lia. Qed.

Lemma grp_of_val p : grp_on p = true → grp_of (grp_val p) = p.
Proof.
  intros (Hx & Hy & Hl)%grp_on_spec. destruct p as [x y]. unfold grp_of, grp_val, is_fr in *. cbn [fst snd] in *.
  assert (0 ≤ y * modulus) by (apply Z.mul_nonneg_nonneg; [done|by vm_compute]).
  rewrite (Z.mod_small _ scalar_modulus) by lia.
  rewrite Z.mod_add by done. rewrite Z.mod_small by lia. rewrite Z.div_add by done. rewrite Z.div_small by lia. done.
Qed.

Lemma grp_of_on k : grp_on (grp_of k) = true.
Proof.
  apply grp_on_spec. rewrite grp_val_of. assert (0 ≤ k mod scalar_modulus < scalar_modulus) as Hk by by apply Z.mod_pos_bound.
  unfold grp_of. cbn [fst snd]. split_and!; [by apply Z.mod_pos_bound..| |apply Hk].
  apply Z.div_pos; [lia|by vm_compute].
Qed.

Lemma grp_eq a b : a mod scalar_modulus = b mod scalar_modulus → grp_of a = grp_of b.
Proof. unfold grp_of. by intros ->. Qed.

#[export] Instance demo_curve_laws : GrumpkinLaws.
Proof.
  constructor; cbn [affine XY IsOnCurve Add Neg Mul Sqrt Legendre Point demo_curve infinity]; try done.
  - by intros [x y].
  - intros p (Hx & Hy & Hl)%grp_on_spec. split; [done|]. unfold is_fr, grp_val in *. split; [done|].
    unfold scalar_modulus, modulus in *. lia.
  - intros. apply grp_of_on.
  - intros. apply grp_of_on.
  - intros. apply grp_of_on.
  - intros p q _ _. by rewrite Z.add_comm.
  - intros p q r _ _ _. apply grp_eq. rewrite !grp_val_of. rewrite Zplus_mod_idemp_l, Zplus_mod_idemp_r. f_equal. lia.
  - intros p Hp. exact (grp_of_val p Hp).
  - intros p _. rewrite grp_val_of. unfold infinity. cbn [affine demo_curve].
    transitivity (grp_of 0); [|reflexivity]. apply grp_eq. rewrite Zplus_mod_idemp_r. f_equal. lia.
  - intros p Hp. rewrite Z.mul_1_r. by apply grp_of_val.
  - intros p a b _. apply grp_eq. rewrite !grp_val_of, <-Zplus_mod. f_equal. lia.
  - intros p _. transitivity (grp_of 0); [|reflexivity]. apply grp_eq. by rewrite Z.mod_mul.
  - intros a Ha. destruct (Z.eqb_spec (Z.sqrt a * Z.sqrt a) a) as [E|]; [|done]. intros _. pose proof (Z.sqrt_nonneg a).
    unfold is_fr, fr_mul in *. split; [nia|]. rewrite E. by apply Z.mod_small.
Qed.

(** The base of the randomness, and value bases that depend on the asset. *)
Definition demo_R : Point := grp_of 1.
Definition demo_G (a : Z) : Point := grp_of (a + 2).

Lemma demo_R_on : IsOnCurve demo_R = true.
Proof. apply grp_of_on. Qed.
Lemma demo_G_on a : IsOnCurve (demo_G a) = true.
Proof. apply grp_of_on. Qed.

Lemma demo_R_order k : Mul demo_R k = infinity → k mod scalar_modulus = 0.
Proof.
  cbn [Mul demo_curve]. intros E. assert (Hv : grp_val (grp_of (grp_val demo_R * k)) = grp_val (0, 0)) by (f_equal; exact E).
  rewrite grp_val_of in Hv. change (grp_val demo_R) with 1 in Hv. rewrite Z.mul_1_l in Hv. exact Hv.
Qed.
