(* ===== verification/ZkWitnesses.v ===== *)
(** * Witnesses of the zk packages' properties, at the instances of [ZkModel.v] *)

From S2P Require Export ZkModel.

(** ** Trees *)
Lemma demo_values_ok : values_ok [10; 30; 20].
Proof. split; [apply (bool_decide_unpack _); by vm_compute|]. repeat (constructor; [by vm_compute|]). constructor. Qed.

Lemma demo_leaves_fr : ∃ t : Merkle.Tree MemStore, tree_rep t [5; 7].
Proof.
  destruct (Append_spec Merkle.NewMem [] 5 NewMem_rep) as (t1 & _ & H1'); [by vm_compute|by vm_compute|].
  destruct (Append_spec t1 [5] 7 H1') as (t2 & _ & H2'); [by vm_compute|by vm_compute|]. by exists t2.
Qed.

Lemma tree_implements_leaf_list_witness :
  ∃ t t' : Merkle.Tree MemStore, tree_rep t [5; 7] ∧ Merkle.Append 9 t = Ok (2, t') ∧ tree_rep t' [5; 7; 9] ∧
    Merkle.Update 5 9 t = Err ErrOutOfRange.
Proof.
  destruct demo_leaves_fr as [t Ht]. destruct (tree_implements_leaf_list t [5; 7] Ht) as (_ & Ha & Hu & _).
  destruct (Ha 9 ltac:(by vm_compute)) as (t' & E & Ht'). exists t, t'. split; [exact Ht|]. split; [exact E|].
  split; [exact Ht'|]. exact (Hu 5 9 ltac:(by vm_compute) ltac:(done)).
Defined.

Lemma membership_path_sound_witness :
  ∃ (t : Merkle.Tree MemStore) sib, tree_rep t [5; 7] ∧ Merkle.Path 1 t = Ok (sib, t) ∧
    (Merkle.Root t = Ok (RootFromPath 8 1 sib, t) → 8 = 7 ∨ path_collides [5; 7] 8 1 sib).
Proof.
  destruct demo_leaves_fr as [t Ht]. destruct (membership_path_sound t [5; 7] Ht) as [Hc Hs].
  destruct (Hc 1 ltac:(done)) as (sib & E & Hl & _). exists t, sib. split; [exact Ht|]. split; [exact E|].
  intros Hr. exact (Hs 8 1 sib Hl ltac:(done) Hr).
Defined.

Lemma demo_indexed : ∃ t : Indexed.Tree MemStore MemIndex, indexed_rep t [10; 30; 20].
Proof. destruct (Rebuild_rep [10; 30; 20] demo_values_ok ltac:(done)) as (t & _ & Ht). by exists t. Qed.

Lemma insert_implements_set_witness :
  ∃ t t' : Indexed.Tree MemStore MemIndex, indexed_rep t [10; 30; 20] ∧ Indexed.Insert 25 t = Ok (4, t') ∧
    indexed_rep t' [10; 30; 20; 25] ∧ Indexed.Insert 20 t = Err ErrExists.
Proof.
  destruct demo_indexed as [t Ht].
  destruct (insert_implements_set t [10; 30; 20] 25 Ht ltac:(by vm_compute)) as (_ & _ & Hi).
  destruct Hi as (t' & E & Ht'). exists t, t'. split; [exact Ht|]. split; [exact E|]. split; [exact Ht'|].
  exact (proj2 (proj2 (insert_implements_set t [10; 30; 20] 20 Ht ltac:(by vm_compute)))).
Defined.

Lemma non_membership_sound_complete_witness :
  ∃ (t : Indexed.Tree MemStore MemIndex) w root, indexed_rep t [10; 30; 20] ∧ NonMembership 25 t = Ok (w, t) ∧
    Indexed.Verify w 25 root = true ∧ NonMembership 30 t = Err ErrExists.
Proof.
  destruct demo_indexed as [t Ht].
  destruct (non_membership_sound_complete t [10; 30; 20] 25 Ht ltac:(done) ltac:(done)) as (Hc & _ & _).
  destruct (non_membership_sound_complete t [10; 30; 20] 30 Ht ltac:(done) ltac:(done)) as (_ & He & _).
  destruct Hc as (w & root & E & _ & HV).
  { apply (bool_decide_unpack _). by vm_compute. }
  exists t, w, root. split; [exact Ht|]. split; [exact E|]. split; [exact HV|]. apply He.
  apply (bool_decide_unpack _). by vm_compute.
Defined.

Lemma rebuild_is_reference_witness :
  ∃ t, Rebuild [10; 30; 20] = Ok t ∧ indexed_Root t = Ok (ref_root (nf_leaves [10; 30; 20]), t).
Proof.
  destruct (rebuild_is_reference [10; 30; 20] demo_values_ok ltac:(done)) as (t & E & _ & Er). exists t. split; [exact E|exact Er].
Defined.

(** Move 10 was slashed to 40, move 30 to nothing. *)
Lemma demo_debt : ∃ t : DebtTree MemStore MemIndex MemRows, debt_rep t [10; 30] {[10 := 40; 30 := 0]}.
Proof.
  destruct (debt_Set_new debt_NewMem [] ∅ 10 40 debt_NewMem_rep) as (t1 & _ & H1');
    [by vm_compute|done|by vm_compute|by apply not_elem_of_nil|done|].
  destruct (debt_Set_new t1 [10] _ 30 0 H1') as (t2 & _ & H2');
    [by vm_compute|done|by vm_compute|by intros ?%list_elem_of_singleton|done|].
  exists t2. rewrite <-insert_empty, insert_insert_ne by done. exact H2'.
Qed.

Lemma debt_set_implements_map_witness :
  ∃ t t' : DebtTree MemStore MemIndex MemRows, debt_rep t [10; 30] {[10 := 40; 30 := 0]} ∧
    debt_Set 10 25 t = Ok (1, t') ∧ debt_rep t' [10; 30] (<[10 := 25]> {[10 := 40; 30 := 0]}).
Proof.
  destruct demo_debt as [t Ht].
  destruct (debt_set_implements_map t _ _ 10 25 Ht ltac:(by vm_compute) ltac:(by vm_compute)) as (_ & _ & t' & E & Ht').
  exists t, t'. split; [exact Ht|]. split; [exact E|exact Ht'].
Defined.

Lemma debt_read_sound_complete_witness :
  ∃ (t : DebtTree MemStore MemIndex MemRows) w root, debt_rep t [10; 30] {[10 := 40; 30 := 0]} ∧
    Debt.Lookup 10 t = Ok (w, t) ∧ Retained w 10 100 root = Some 40.
Proof.
  destruct demo_debt as [t Ht].
  destruct (debt_read_sound_complete t _ _ 10 100 Ht ltac:(done) ltac:(done)) as [(w & root & E & _ & Hr) _].
  exists t, w, root. split; [exact Ht|]. split; [exact E|]. apply Hr. by vm_compute.
Defined.

(** ** Bundles *)
Lemma demo_signature : ∃ sig, SignBinding demo_R (λ b, b) 5 77 (be_bytes 32 3) = Ok sig.
Proof. eexists. vm_compute. reflexivity. Qed.

Lemma sign_then_verify_witness :
  ∃ sig, SignBinding demo_R (λ b, b) 5 77 (be_bytes 32 3) = Ok sig ∧
    VerifyBinding demo_R (Mul demo_R 5) 77 sig = Ok ().
Proof.
  destruct demo_signature as [sig E]. exists sig. split; [exact E|].
  pose proof (sign_then_verify demo_R demo_R_on demo_R_order (λ b, b) 5 77 (be_bytes 32 3) sig
    ltac:(unfold scalar_modulus; lia) E) as Hv.
  rewrite decide_False in Hv by lia. exact Hv.
Defined.

(** One action that spends 5 of an asset, keeps 3 and pays the public 2. *)
Definition demo_opening : Opening := mkOpening 1 5 1 3 9.
Definition demo_bundle : Bundle :=
  mkBundle [mkAction 11 12 13 (ValueCommit demo_R demo_G 1 5 1 3 9) [1; 2] []] [mkBalance 1 2] [].

Lemma demo_opens : opens demo_R demo_G demo_bundle [demo_opening].
Proof. repeat constructor. Qed.

Lemma binding_key_enforces_balance_witness :
  BindingKey (λ a, Ok (demo_G a)) demo_bundle = Ok (Mul demo_R 9).
Proof.
  destruct (binding_key_enforces_balance demo_R demo_G demo_R_on demo_G_on demo_bundle [demo_opening]) as [Hb _];
    [cbn; unfold MaxActions; lia|exact demo_opens|repeat constructor; by vm_compute|apply NoDup_singleton
    |by intros bal ->%list_elem_of_singleton|].
  apply Hb. intros a. unfold imbalance, coefficient, list_sum. cbn. repeat case_decide; lia.
Defined.

Definition demo_message (memo : string) : Message :=
  mkMessage "/earth.dex.v1.MsgNoteSwap" "earth-1" (mkTxFields memo 0 200000) [demo_bundle] [4].

Lemma demo_message_fits memo : memo = "a" ∨ memo = "b" → message_fits (demo_message memo).
Proof.
  intros Hm. split_and!; [done|done|by destruct Hm as [->| ->]|done|]. constructor; [|constructor].
  split; [done|]. split; [done|]. intros a ->%list_elem_of_singleton. split; [|done].
  repeat (constructor; [by vm_compute|]). constructor.
Qed.

(** A changed memo changes the hash, or two inputs collide. *)
Lemma sighash_binds_witness :
  message_fits (demo_message "a") ∧
  (MessageSighash (demo_message "a") = MessageSighash (demo_message "b") →
   collide_in (sighash_inputs (demo_message "a")) (sighash_inputs (demo_message "b"))).
Proof.
  split; [by apply demo_message_fits; left|]. intros E. destruct (sighash_binds (demo_message "a") (demo_message "b") (demo_message_fits _ ltac:(by left))
    (demo_message_fits _ ltac:(by right)) E) as [(_ & _ & Et & _)|Hc]; [|exact Hc].
  discriminate Et.
Defined.

Lemma parallel_verification_deterministic_witness :
  vdone (mkVstate [] [] [None]) ∧
  (rtc (VerifyProofs_step 4 [demo_bundle] 1 (λ _ _, Ok true)) (VerifyProofs_init [demo_bundle]) (mkVstate [] [] [None]) →
   VerifyProofsSequential [demo_bundle] 1 (λ _ _, Ok true) = None).
Proof.
  split; [by split|]. intros Hr. symmetry.
  exact (proj1 (parallel_verification_deterministic 4 [demo_bundle] 1 (λ _ _, Ok true) ltac:(lia)) _ Hr ltac:(by split)).
Defined.
