(* ===== verification/ShieldedTypes.v ===== *)
(** * x/shielded: note values, bundles and the interface other modules call

    [x/shielded/types/rules.go], the public data of a bundle
    ([x/shielded/types/bundle.go]), the release map ([types/msgs.go]) and the pool's keeper as
    its clients see it ([x/dex/types/expected_keepers.go], [ShieldedKeeper]): an interface
    with laws, against which the dex is proved. *)

From S2P Require Export Sdk.

Definition shielded_ModuleName : string := "shielded".
Definition AnmlDenom : string := "uanml".
Definition FeeDenom : string := "uerth".

(** ** Note values: rules.go *)
Definition MaxNoteValue : Z := 2 ^ 63 - 1.
Definition MaxSplitNotes : Z := 128.

Definition FitsNote (v : Z) : bool := (0 <? v) && (v <? 2 ^ 64) && (v <=? MaxNoteValue).

(** The loop of [SplitNoteValues]: [rest] is what is left to cut into notes. *)
Fixpoint split_note_loop `{SdkMath} (fuel : nat) (rest : Z) : outcome (list Z) :=
  match fuel with
  | O => mret []
  | S fuel =>
      if rest <=? 0 then mret []
      else if MaxNoteValue <? rest then
        rest' ← IntSub rest MaxNoteValue;
        tl ← split_note_loop fuel rest';
        mret (MaxNoteValue :: tl)
      else mret [wrap_u64 rest]
  end.

Definition SplitNoteValues `{SdkMath} (v : Z) : outcome (list Z) :=
  _ ← refuse (v <=? 0) (Plain "note value must be positive");
  s ← IntAdd v MaxNoteValue;
  s ← IntSub s 1;
  n ← IntQuo s MaxNoteValue;
  _ ← refuse (bool_decide (n < - 2 ^ 63) || (2 ^ 63 - 1 <? n) || (MaxSplitNotes <? n))
        (Plain "value needs too many notes");
  split_note_loop (Z.to_nat n) v.

(** ** Bundles: the public part of a private msg *)
Record Action := {
  act_Anchor : bytes; act_Nullifier : bytes; act_Commitment : bytes;
  act_Cv : bytes; act_Ciphertext : bytes; act_Proof : bytes;
}.
Record Balance := { bal_Denom : string; bal_Amount : Z }.
Record Bundle := {
  bun_Actions : list Action; bun_Balances : list Balance; bun_BindingSig : bytes;
}.

(** [Bundle.Balance] *)
Fixpoint balance_in (l : list Balance) (denom : string) : Z :=
  match l with
  | [] => 0
  | bal :: l => if bool_decide (bal_Denom bal = denom) then bal_Amount bal else balance_in l denom
  end.
Definition BundleBalance (b : Bundle) (denom : string) : Z := balance_in (bun_Balances b) denom.

(** [PrivateMsg], the interface: the msg's type URL and bytes ([sdk.MsgTypeURL], [proto.Marshal]), its bundles, its fee
    and its sighash fields (the address codec is the host's); and [UnshieldMsg], which only [MsgSend] implements:
    [UnshieldReceiver], the receiver's raw address, [None] inside when nothing is unshielded. *)
Record PrivateMsg := {
  pm_TypeURL : string;
  pm_Bytes : outcome bytes;
  pm_Bundles : list Bundle;
  pm_Fee : Z;
  pm_SighashFields : outcome (list Z);
  pm_UnshieldReceiver : option (outcome (option bytes));
}.

(** A bundle on the wire. *)
Definition action_wire (a : Action) : ProtoValue :=
  PV_message (PV_bytes <$> [act_Anchor a; act_Nullifier a; act_Commitment a; act_Cv a; act_Ciphertext a; act_Proof a]).
Definition balance_wire (b : Balance) : ProtoValue := PV_message [PV_string (bal_Denom b); PV_uint64 (bal_Amount b)].
Definition bundle_wire (b : Bundle) : ProtoValue :=
  PV_message [PV_message (action_wire <$> bun_Actions b); PV_message (balance_wire <$> bun_Balances b);
    PV_bytes (bun_BindingSig b)].

(** [bits.Add64(x, y, 0)]: the sum mod 2^64 and the carry. *)
Definition add64 (x y : Z) : Z * bool := (wrap_u64 (x + y), 2 ^ 64 <=? x + y).

Definition UerthBalance (bs : list Bundle) : Z :=
  (fix go (bs : list Bundle) (sum : Z) : Z :=
     match bs with
     | [] => sum
     | b :: bs =>
         let '(s, carry) := add64 sum (BundleBalance b FeeDenom) in
         if carry then 2 ^ 64 - 1 else go bs s
     end) bs 0.

Definition FeeAfter (bs : list Bundle) (moved : Z) : Z :=
  let b := UerthBalance bs in if b <? moved then 0 else b - moved.

(** errors.go *)
Definition shielded_error (code : Z) : error := Sentinel shielded_ModuleName code.
Definition shielded_ErrInvalidSigner := shielded_error 1100.
Definition ErrInvalidProof := shielded_error 1102.
Definition ErrUnknownRoot := shielded_error 1103.
Definition ErrNullifierSpent := shielded_error 1104.
Definition ErrAssetNotRegistered := shielded_error 1105.
Definition ErrUnauthorized := shielded_error 1106.
Definition ErrMissingVerifyingKey := shielded_error 1107.
Definition ErrBlockCap := shielded_error 1108.
Definition ErrSendRestricted := shielded_error 1109.
Definition ErrTreeFull := shielded_error 1110.
Definition ErrInvalidNote := shielded_error 1111.
Definition ErrAlreadyReleased := shielded_error 1112.
Definition ErrInvariant := shielded_error 1113.
Definition ErrInvalidBundle := shielded_error 1114.
Definition ErrInvalidBindingSig := shielded_error 1115.
Definition ErrReleaseMap := shielded_error 1116.

(** [Remainders]: the per-denom sums of the bundles' balances, less the fee for uerth; positive
    ones only, in denom order. *)
Fixpoint sum_balances (l : list Balance) (sum : gmap string Z) : outcome (gmap string Z) :=
  match l with
  | [] => mret sum
  | bal :: l =>
      let '(s, carry) := add64 (default 0 (sum !! bal_Denom bal)) (bal_Amount bal) in
      if carry then Err ErrReleaseMap else sum_balances l (<[bal_Denom bal := s]> sum)
  end.

Definition string_le (x y : string) : Prop := String.leb x y = true.
#[export] Instance string_le_dec : RelDecision string_le.
Proof. intros x y. unfold string_le. apply _. Defined.

Definition Remainders (m : PrivateMsg) : outcome (list Coin) :=
  sum ← sum_balances (mbind bun_Balances (pm_Bundles m)) ∅;
  let uerth := default 0 (sum !! FeeDenom) in
  _ ← refuse (uerth <? pm_Fee m) ErrReleaseMap;
  let sum := <[FeeDenom := uerth - pm_Fee m]> sum in
  mret (omap (λ d, v ← sum !! d; if 0 <? v then Some (mkCoin d v) else None)
             (merge_sort string_le (map_to_list sum).*1)).

(** ** The shielded pool's keeper

    [shielded_state] is everything the pool keeps (tree, nullifiers, turnstiles) together with
    the authorization the private ante recorded for the running msg. *)
Class ShieldedKeeper `{BankKeeper} := {
  shielded_state : Type;
  IsShieldedOnly : string → bool;
  AssetID : string → bank_state * shielded_state → outcome bytes;
  CheckMint : bytes → bytes → bank_state * shielded_state → outcome ();
  MintNote : string → Coin → bytes → bytes → bank_state * shielded_state →
    outcome ((Z * bytes) * (bank_state * shielded_state));
  MintNoteSplit : string → Coin → bytes → bytes → bank_state * shielded_state →
    outcome (list Z * (bank_state * shielded_state));
  RegisterAsset : string → bank_state * shielded_state →
    outcome (bytes * (bank_state * shielded_state));
  ReleaseToModule : PrivateMsg → string → string → bank_state * shielded_state →
    outcome (Coin * (bank_state * shielded_state));
}.

(** What the pool promises: a mint moves exactly the coin from the paying module to the pool's
    account, a release moves exactly the returned coin the other way, registering an asset moves
    nothing, and none of them creates or destroys coins. *)
Class ShieldedLaws `{ShieldedKeeper} : Prop := {
  MintNote_spec m c pc ct b s r b' s' : MintNote m c pc ct (b, s) = Ok (r, (b', s')) →
    bank_moved (Some (NewModuleAddress m)) (Some (NewModuleAddress shielded_ModuleName)) [c] b b';
  MintNoteSplit_spec m c pc ct b s r b' s' : MintNoteSplit m c pc ct (b, s) = Ok (r, (b', s')) →
    bank_moved (Some (NewModuleAddress m)) (Some (NewModuleAddress shielded_ModuleName)) [c] b b';
  RegisterAsset_spec d b s r b' s' : RegisterAsset d (b, s) = Ok (r, (b', s')) → b' = b;
  ReleaseToModule_spec msg d m b s c b' s' : ReleaseToModule msg d m (b, s) = Ok (c, (b', s')) →
    Denom c = d ∧ 0 < Amount c ∧
    bank_moved (Some (NewModuleAddress shielded_ModuleName)) (Some (NewModuleAddress m)) [c] b b';
}.

(** ** Properties of the split *)
Section split.
Context `{SdkMathLaws}.

Lemma split_note_loop_spec fuel rest l :
  0 ≤ rest ≤ MaxNoteValue * Z.of_nat fuel → split_note_loop fuel rest = Ok l →
  list_sum id l = rest ∧ (∀ v, v ∈ l → 0 < v ≤ MaxNoteValue) ∧ (length l ≤ fuel)%nat ∧
  (∀ n, 0 < rest → MaxNoteValue * n < rest → n < Z.of_nat (length l)).
Proof.
  revert rest l. induction fuel as [|fuel IH]; intros rest l Hr; cbn [split_note_loop].
  - intros [= <-]. assert (rest = 0) as -> by lia. split; [done|]. split; [|split; [done|lia]]. by intros ? ?%elem_of_nil.
  - destruct (Z.leb_spec rest 0).
    { intros [= <-]. split; [cbn; lia|]. split; [|split; [cbn; lia|lia]]. by intros ? ?%elem_of_nil. }
    destruct (Z.ltb_spec MaxNoteValue rest).
    + intros Hl. host_inv. apply IH in Hpure0 as (E1 & E2 & E3 & E4); [|lia].
      split; [rewrite list_sum_cons, E1; unfold id; lia|]. split; [|split; [cbn [length]; lia|]].
      * intros v [->|Hv]%elem_of_cons; [unfold MaxNoteValue; lia|by apply E2].
      * intros n _ Hn. specialize (E4 (n - 1) ltac:(lia) ltac:(rewrite Z.mul_sub_distr_l; lia)). cbn [length]. lia.
    + intros [= <-]. unfold MaxNoteValue in *. rewrite wrap_u64_id by lia.
      split; [cbn; unfold id; lia|]. split; [|split; [cbn [length]; lia|]].
      * intros v ->%list_elem_of_singleton. lia.
      * intros n _ Hn. cbn [length]. nia.
Qed.

Lemma split_values v l :
  SplitNoteValues v = Ok l →
  list_sum (λ x, x) l = v ∧ Forall (λ x, FitsNote x = true) l ∧ Z.of_nat (length l) ≤ MaxSplitNotes ∧
  MaxNoteValue * (Z.of_nat (length l) - 1) < v.
Proof.
  intros Hl. unfold SplitNoteValues in Hl. host_inv.
  rewrite quot_div_nonneg in * by (unfold MaxNoteValue in *; lia).
  set (n := (v + MaxNoteValue - 1) / MaxNoteValue) in *.
  pose proof (div_mul_bounds (v + MaxNoteValue - 1) MaxNoteValue ltac:(done)) as Hb. fold n in Hb.
  assert (0 < n) by (unfold MaxNoteValue in *; nia).
  apply split_note_loop_spec in Hl as (E1 & E2 & E3 & E4); [|rewrite Z2Nat.id by lia; lia].
  split; [exact E1|]. split; [|split; [lia|]].
  + apply Forall_forall. intros x Hx%E2. unfold FitsNote, MaxNoteValue in *. lia.
  + assert (Z.of_nat (length l) ≤ n) by lia. unfold MaxNoteValue in *. nia.
Qed.

(** A value is cut into notes without loss: the notes' values add up to it, each fits a note, there are at
    most [MaxSplitNotes] of them and no fewer notes could carry it; and every positive value that many
    full notes can carry is cut. *)
Theorem split_conserves_value v :
  (∀ l, SplitNoteValues v = Ok l →
     list_sum (λ x, x) l = v ∧ Forall (λ x, FitsNote x = true) l ∧ Z.of_nat (length l) ≤ MaxSplitNotes ∧
     MaxNoteValue * (Z.of_nat (length l) - 1) < v) ∧
  (0 < v ≤ MaxNoteValue * MaxSplitNotes → ∃ l, SplitNoteValues v = Ok l).
Proof.
  split; [intros l; apply split_values|].
  intros Hv. unfold SplitNoteValues, MaxNoteValue, MaxSplitNotes in *.
    assert (∀ fuel rest, 0 ≤ rest < 2 ^ 200 → ∃ l, split_note_loop fuel rest = Ok l) as Hloop.
    { intros fuel. induction fuel as [|fuel IH]; intros rest Hr; cbn [split_note_loop]; [by eexists|].
      destruct (Z.leb_spec rest 0); [by eexists|]. destruct (Z.ltb_spec MaxNoteValue rest); [|by eexists].
      unfold MaxNoteValue in *. rewrite IntSub_spec.
      replace (fits_int (rest - (2 ^ 63 - 1))) with true by (symmetry; apply fits_int_spec; lia). cbn.
      destruct (IH (rest - (2 ^ 63 - 1))) as [l ->]; [lia|]. by eexists. }
    unfold refuse. replace (v <=? 0) with false by lia. cbn.
    rewrite IntAdd_spec. replace (fits_int (v + (2 ^ 63 - 1))) with true by (symmetry; apply fits_int_spec; lia). cbn.
    rewrite IntSub_spec. replace (fits_int (v + (2 ^ 63 - 1) - 1)) with true by (symmetry; apply fits_int_spec; lia). cbn.
    rewrite IntQuo_spec. cbn. rewrite quot_div_nonneg by lia.
    pose proof (div_mul_bounds (v + (2 ^ 63 - 1) - 1) (2 ^ 63 - 1) ltac:(done)).
    set (n := (v + (2 ^ 63 - 1) - 1) / (2 ^ 63 - 1)) in *.
    change (v + 9223372036854775807 - 1) with (v + (2 ^ 63 - 1) - 1). 
    change 9223372036854775807 with (2 ^ 63 - 1). fold n.
    change (2 ^ 63 - 1 =? 0) with false. cbn [mbind outcome_bind]. rewrite bool_decide_eq_false_2 by nia. replace (2 ^ 63 - 1 <? n) with false by nia.
    replace (128 <? n) with false by nia. cbn. apply Hloop. lia.
Qed.
End split.

(** ** What a msg releases *)
Definition balance_sum (l : list Balance) (d : string) : Z :=
  list_sum (λ bal, if bool_decide (bal_Denom bal = d) then bal_Amount bal else 0) l.
(** The bundles' balances of [d], together. *)
Definition balances_of (m : PrivateMsg) (d : string) : Z := balance_sum (mbind bun_Balances (pm_Bundles m)) d.
Definition fee_of (m : PrivateMsg) (d : string) : Z := if bool_decide (d = FeeDenom) then pm_Fee m else 0.

(** Amounts and fee are [uint64]s. *)
Definition msg_typed (m : PrivateMsg) : Prop :=
  0 ≤ pm_Fee m < 2 ^ 64 ∧ ∀ b bal, b ∈ pm_Bundles m → bal ∈ bun_Balances b → 0 ≤ bal_Amount bal < 2 ^ 64.

Lemma sum_balances_ok l sum sum' :
  (∀ d, 0 ≤ default 0 (sum !! d) < 2 ^ 64) → (∀ bal, bal ∈ l → 0 ≤ bal_Amount bal < 2 ^ 64) →
  sum_balances l sum = Ok sum' →
  ∀ d, default 0 (sum' !! d) = default 0 (sum !! d) + balance_sum l d ∧ 0 ≤ default 0 (sum' !! d) < 2 ^ 64.
Proof.
  revert sum. induction l as [|bal l IH]; intros sum Hs Hl; cbn [sum_balances].
  - intros [= <-] d. unfold balance_sum. cbn. specialize (Hs d). lia.
  - unfold add64. intros E d. cbn beta iota zeta in E.
    destruct (Z.leb_spec (2 ^ 64) (default 0 (sum !! bal_Denom bal) + bal_Amount bal)); [done|].
    pose proof (Hl bal ltac:(left)) as Hb. pose proof (Hs (bal_Denom bal)) as Hd. rewrite wrap_u64_id in E by lia.
    assert (∀ x, 0 ≤ default 0 (<[bal_Denom bal:=default 0 (sum !! bal_Denom bal) + bal_Amount bal]> sum !! x) < 2 ^ 64) as Hs'.
    { intros x. destruct (decide (bal_Denom bal = x)) as [<-|]; [rewrite lookup_insert_eq|rewrite lookup_insert_ne by done];
        [cbn; lia|apply Hs]. }
    destruct (IH _ Hs' ltac:(intros; apply Hl; by right) E d) as [E1 E2]. split; [|done]. rewrite E1. unfold balance_sum. rewrite list_sum_cons.
    case_bool_decide; [subst; rewrite lookup_insert_eq|rewrite lookup_insert_ne by done]; cbn [default id]; lia.
Qed.

#[local] Instance string_le_total : Total string_le.
Proof. intros x y. unfold string_le. destruct (String.leb_total x y); [by left|by right]. Qed.

Lemma AmountOf_omap (sum : gmap string Z) (l : list string) d :
  NoDup l → (∀ x, 0 ≤ default 0 (sum !! x)) →
  AmountOf (omap (λ x, v ← sum !! x; if 0 <? v then Some (mkCoin x v) else None) l) d =
  if bool_decide (d ∈ l) then default 0 (sum !! d) else 0.
Proof.
  intros Hnd Hs. induction Hnd as [|x l Hx Hnd IH]; [by rewrite bool_decide_eq_false_2 by by intros ?%elem_of_nil|].
  assert (AmountOf (omap (λ x, v ← sum !! x; if 0 <? v then Some (mkCoin x v) else None) (x :: l)) d =
    (if bool_decide (x = d) then default 0 (sum !! x) else 0) +
    AmountOf (omap (λ x, v ← sum !! x; if 0 <? v then Some (mkCoin x v) else None) l) d) as ->.
  { pose proof (Hs x) as Hsx. cbn [omap list_omap]. destruct (sum !! x) as [v|] eqn:Ev; rewrite ?Ev in Hsx; cbn in Hsx |- *.
    - destruct (Z.ltb_spec 0 v); [by rewrite AmountOf_cons|].
      assert (v = 0) as -> by lia.
      by destruct (bool_decide (x = d)).
    - by destruct (bool_decide (x = d)). }
  rewrite IH. destruct (decide (x = d)) as [->|Hne].
  - rewrite bool_decide_eq_true_2, bool_decide_eq_false_2, bool_decide_eq_true_2 by (done || by left). lia.
  - rewrite (bool_decide_eq_false_2 (x = d)) by done. rewrite (bool_decide_ext (d ∈ x :: l) (d ∈ l)); [done|].
    rewrite elem_of_cons. split; [by intros [->|]|by right].
Qed.

(** The release map is exact: per denom, what the bundles' balances come to beyond the fee; positive, each denom
    once. *)
Lemma Remainders_spec m rem :
  msg_typed m → Remainders m = Ok rem →
  (∀ d, AmountOf rem d = balances_of m d - fee_of m d) ∧ coins_wf rem ∧ pm_Fee m ≤ balances_of m FeeDenom ∧
  ∀ c, c ∈ rem → 0 < Amount c < 2 ^ 64.
Proof.
  intros [Hf Hb] E. unfold Remainders in E. apply outcome_bind_ok in E as (sum & Es & E).
  apply outcome_bind_ok in E as (u & Hle%refuse_ok%Z.ltb_ge & E). injection E as <-.
  assert (∀ bal, bal ∈ pm_Bundles m ≫= bun_Balances → 0 ≤ bal_Amount bal < 2 ^ 64) as Hl.
  { intros bal (b & Hbal & Hin)%list_elem_of_bind. by eapply Hb. }
  pose proof (sum_balances_ok _ ∅ sum ltac:(intros; rewrite lookup_empty; cbn; lia) Hl Es) as Hsum.
  assert (∀ d, default 0 (sum !! d) = balances_of m d ∧ 0 ≤ default 0 (sum !! d) < 2 ^ 64) as Hd.
  { intros d. destruct (Hsum d) as [E1 E2]. rewrite lookup_empty in E1. cbn in E1. unfold balances_of. lia. }
  pose proof (Hd FeeDenom) as [Ef Efr].
  set (sum' := <[FeeDenom := default 0 (sum !! FeeDenom) - pm_Fee m]> sum).
  assert (∀ d, default 0 (sum' !! d) = balances_of m d - fee_of m d ∧ 0 ≤ default 0 (sum' !! d) < 2 ^ 64) as Hd'.
  { intros d. unfold sum', fee_of. destruct (decide (FeeDenom = d)) as [<-|].
    - rewrite lookup_insert_eq, bool_decide_eq_true_2 by done. cbn. lia.
    - rewrite lookup_insert_ne, bool_decide_eq_false_2 by done. specialize (Hd d). lia. }
  set (keys := merge_sort string_le (map_to_list sum').*1).
  assert (NoDup keys) as Hnd by (unfold keys; rewrite merge_sort_Permutation; apply NoDup_fst_map_to_list).
  assert (∀ c, c ∈ omap (λ d, v ← sum' !! d; if 0 <? v then Some (mkCoin d v) else None) keys → 0 < Amount c < 2 ^ 64) as Hpos.
  { intros c (d & Hdk & Ec)%list_elem_of_omap. pose proof (Hd' d) as [_ Hr]. destruct (sum' !! d) as [v|]; [|done]. cbn in Ec, Hr.
    destruct (Z.ltb_spec 0 v); [|done]. injection Ec as <-. cbn. lia. }
  split_and!; [|split|lia|done].
  - intros d. rewrite AmountOf_omap; [|done|intros; apply Hd']. case_bool_decide as Hk; [apply Hd'|].
    destruct (Hd' d) as [<- _]. destruct (sum' !! d) as [v|] eqn:Ev; [|done]. exfalso. apply Hk.
    unfold keys. rewrite merge_sort_Permutation. apply list_elem_of_fmap. exists (d, v). split; [done|]. by apply elem_of_map_to_list.
  - clear -Hnd. clearbody keys sum'. induction Hnd as [|d l Hd Hnd IH]; [constructor|]. cbn [omap list_omap].
    destruct (sum' !! d) as [v|]; [|done]. cbn [mbind option_bind]. destruct (0 <? v); [|done]. cbn. constructor; [|done].
    intros (c & Ec & (x & Hx & Ex)%list_elem_of_omap)%list_elem_of_fmap.
    destruct (sum' !! x) as [v'|]; [|done]. cbn in Ex. destruct (0 <? v'); [|done]. injection Ex as <-. cbn in Ec. by subst.
  - intros c Hc. by apply Hpos.
Qed.
