(* ===== verification/HostModel.v ===== *)
(** * A host and a pool that meet their laws

    One concrete [Host] and one concrete [ShieldedKeeper], for the witnesses: the laws of [Sdk.v] and
    [ShieldedTypes.v] hold together, and every handler runs on them.  They are not models of the SDK
    or of x/shielded, only instances of what the dex relies on. *)

From S2P Require Export HashModel ShieldedTypes.

(** ** Strings and integers *)
Fixpoint uncodes (b : bytes) : string :=
  match b with
  | [] => ""
  | c :: b => String (Ascii.ascii_of_N (Z.to_N c)) (uncodes b)
  end.

Fixpoint digits (b : bytes) (acc : Z) : option Z :=
  match b with
  | [] => Some acc
  | c :: b => if (48 <=? c) && (c <=? 57) then digits b (acc * 10 + (c - 48)) else None
  end.

Definition parse_int (s : string) : option Z :=
  if bool_decide (s = "") then None else digits (codes s) 0.

Definition fit (z : Z) : outcome Z := if fits_int z then Ok z else Panic.

(** Division rounded to the nearest integer. *)
Definition nearest (a b : Z) : Z := (2 * a + b) / (2 * b).

Definition valid_denom (d : string) : bool := (3 <=? String.length d)%nat && (String.length d <=? 128)%nat.

(** ** Coins *)
Definition coins_of (m : gmap string Z) : Coins :=
  (λ kv, mkCoin (fst kv) (snd kv)) <$> map_to_list (filter (λ kv, 0 < snd kv) m).

Definition amounts (cs : Coins) : gmap string Z :=
  foldr (λ c m, <[Denom c := default 0 (m !! Denom c) + Amount c]> m) ∅ cs.

Definition all_nonneg (m : gmap string Z) : bool := forallb (λ kv, 0 <=? snd kv) (map_to_list m).

#[export] Instance demo_math : SdkMath := {
  IntAdd a b := fit (a + b);
  IntSub a b := fit (a - b);
  IntMul a b := fit (a * b);
  IntQuo a b := if b =? 0 then Panic else Ok (Z.quot a b);
  NewIntFromBigInt := fit;
  NewIntFromString := parse_int;
  NewDecFromInt a := a * dec_one;
  DecAdd a b := Ok (a + b);
  DecMul a b := Ok (nearest (a * b) dec_one);
  DecQuo a b := if b =? 0 then Panic else Ok (nearest (a * dec_one) b);
  DecMulInt64 a n := Ok (a * n);
  DecCeil a := Ok (- (- a / dec_one) * dec_one);
  DecTruncateInt a := Ok (Z.quot a dec_one);
  ValidateDenom := valid_denom;
  NewCoin d a := if valid_denom d && (0 <=? a) then Ok (mkCoin d a) else Panic;
  CoinAdd x y := if bool_decide (Denom x = Denom y) then Ok (mkCoin (Denom x) (Amount x + Amount y)) else Panic;
  CoinSub x y := if bool_decide (Denom x = Denom y) && (0 <=? Amount x - Amount y)
                 then Ok (mkCoin (Denom x) (Amount x - Amount y)) else Panic;
  NewCoins l := if bool_decide (NoDup (Denom <$> l)) && forallb (λ c, 0 <=? Amount c) l
                then Ok (filter (λ c, 0 < Amount c) l) else Panic;
  CoinsAdd x y := let m := amounts (x ++ y) in if all_nonneg m then Ok (coins_of m) else Panic;
}.

Lemma nearest_spec a b : 0 < b → 2 * Z.abs (nearest a b * b - a) ≤ b.
Proof. intros Hb. unfold nearest. pose proof (div_mul_bounds (2 * a + b) (2 * b) ltac:(lia)). lia. Qed.

Lemma all_nonneg_spec m : all_nonneg m = true → ∀ d, 0 ≤ default 0 (m !! d).
Proof.
  intros Hm d. destruct (m !! d) as [v|] eqn:Hd; [|done]. cbn.
  unfold all_nonneg in Hm. rewrite forallb_forall in Hm. apply elem_of_map_to_list in Hd.
  specialize (Hm (d, v)). apply Z.leb_le, Hm. by apply list_elem_of_In.
Qed.

Lemma coins_of_wf m : coins_wf (coins_of m).
Proof.
  unfold coins_of. split.
  - rewrite <-list_fmap_compose. change (Denom ∘ _) with (@fst string Z). apply NoDup_fst_map_to_list.
  - intros c ([k v] & -> & Hkv)%list_elem_of_fmap. apply elem_of_map_to_list, map_lookup_filter_Some in Hkv.
    by destruct Hkv.
Qed.

Lemma coins_of_amount m d : 0 ≤ default 0 (m !! d) → AmountOf (coins_of m) d = default 0 (m !! d).
Proof.
  intros Hd. destruct (coins_of_wf m) as [Hnd _].
  destruct (decide (0 < default 0 (m !! d))) as [Hp|Hp].
  - destruct (m !! d) as [v|] eqn:Hv; cbn in *; [|lia].
    change v with (Amount (mkCoin d v)). change d with (Denom (mkCoin d v)) at 1. apply AmountOf_elem; [done|].
    unfold coins_of. change (mkCoin d v) with ((λ kv : string * Z, mkCoin (fst kv) (snd kv)) (d, v)).
    apply list_elem_of_fmap_2, elem_of_map_to_list, map_lookup_filter_Some. done.
  - rewrite AmountOf_notin; [lia|]. unfold coins_of. rewrite <-list_fmap_compose.
    intros ([k v] & -> & Hkv)%list_elem_of_fmap. apply elem_of_map_to_list, map_lookup_filter_Some in Hkv as [Hkv Hpos].
    cbn in *. rewrite Hkv in Hp. cbn in Hp. lia.
Qed.

Lemma amounts_spec cs d : default 0 (amounts cs !! d) = AmountOf cs d.
Proof.
  induction cs as [|c cs IH]; [done|]. rewrite AmountOf_cons.
  change (amounts (c :: cs)) with (<[Denom c := default 0 (amounts cs !! Denom c) + Amount c]> (amounts cs)).
  destruct (decide (Denom c = d)) as [<-|Hne].
  - rewrite lookup_insert_eq, bool_decide_eq_true_2 by done. rewrite IH. cbn. lia.
  - rewrite lookup_insert_ne, bool_decide_eq_false_2 by done. rewrite IH. lia.
Qed.

Lemma positive_part l d :
  forallb (λ c, 0 <=? Amount c) l = true → AmountOf (filter (λ c, 0 < Amount c) l) d = AmountOf l d.
Proof.
  induction l as [|c l IH]; [done|]. cbn [forallb]. intros [Hc Hl]%andb_true_iff. rewrite filter_cons.
  case_decide; rewrite !AmountOf_cons, IH by done; [done|]. case_bool_decide; lia.
Qed.

#[export] Instance demo_math_laws : SdkMathLaws.
Proof.
  split; cbn; unfold fit; try done; try (intros; simplify_eq; done).
  - intros a b r [= <-]. by apply nearest_spec.
  - intros a b r Hb. destruct (Z.eqb_spec b 0); [lia|]. intros [= <-]. by apply nearest_spec.
  - intros a b Hb _. by destruct (Z.eqb_spec b 0); [lia|].
  - intros d Hd ->. done.
  - intros d a c. destruct (valid_denom d), (Z.leb_spec 0 a); cbn; try done. by intros [= <-].
  - intros x y c. case_bool_decide; [|done]. by intros [= <-].
  - intros x y c. case_bool_decide; [|done]. destruct (Z.leb_spec 0 (Amount x - Amount y)); [|done]. by intros [= <-].
  - intros l cs. case_bool_decide as Hnd; [|done]. cbn [andb]. destruct (forallb _ l) eqn:Hl; [|done]. intros [= <-].
    split; [intros d; by apply positive_part|]. split.
    + apply (sublist_NoDup _ (Denom <$> l)); [done|]. apply fmap_sublist, sublist_filter.
    + intros c [? _]%list_elem_of_filter. done.
  - intros x y cs. destruct (all_nonneg _) eqn:Hm; [|done]. intros [= <-]. split; [|intros; apply coins_of_wf].
    intros d. rewrite coins_of_amount by (by apply all_nonneg_spec). rewrite amounts_spec.
    clear Hm. induction x as [|c x IH]; [done|]. cbn. rewrite !AmountOf_cons, IH. lia.
Qed.

Lemma eq_comm_bd (a x : bytes) : bool_decide (a = x) = bool_decide (x = a).
Proof. by apply bool_decide_ext. Qed.

(** ** The bank: an account's coins by denom *)
Abbreviation book := (gmap bytes (gmap string Z)).

Definition held_by (b : book) (a : bytes) (d : string) : Z := default 0 (default ∅ (b !! a) !! d).
Definition supply_of (b : book) (d : string) : Z := map_sum (λ _ m, default 0 (m !! d)) b.
Definition all_coins (b : book) : Z := map_sum (λ _ m, map_sum (λ _ v, v) m) b.

(** No negative balance, and everything under the range of an [Int]. *)
Definition book_ok (b : book) : bool :=
  forallb (λ kv, all_nonneg (snd kv)) (map_to_list b) && (all_coins b <? 2 ^ MaxBitLen).

Definition credit1 (sign : Z) (a : bytes) (b : book) (c : Coin) : book :=
  <[a := <[Denom c := held_by b a (Denom c) + sign * Amount c]> (default ∅ (b !! a))]> b.
Definition credit (sign : Z) (a : bytes) (cs : Coins) (b : book) : book := foldl (credit1 sign a) b cs.

Definition commit (b b' : book) : outcome book :=
  if book_ok b && book_ok b' then Ok b' else Err (Plain "insufficient funds").

Definition module_account (m : string) : bytes := 0 :: codes m.

Definition send (src dst : bytes) (cs : Coins) (b : book) : outcome book :=
  commit b (credit 1 dst cs (credit (-1) src cs b)).

#[export] Instance demo_bank : BankKeeper := {
  bank_state := book;
  GetBalance b a d := if book_ok b then held_by b a d else 0;
  GetSupply b d := if book_ok b then supply_of b d else 0;
  GetAllBalances b a := if book_ok b then coins_of (default ∅ (b !! a)) else [];
  SpendableCoins b a := if book_ok b then coins_of (default ∅ (b !! a)) else [];
  SendCoinsFromAccountToModule a m cs b := send a (module_account m) cs b;
  SendCoinsFromModuleToAccount m a cs b :=
    if bool_decide (a = module_account "dex") then Err (Plain "blocked") else send (module_account m) a cs b;
  SendCoinsFromModuleToModule m m' cs b := send (module_account m) (module_account m') cs b;
  MintCoins m cs b := commit b (credit 1 (module_account m) cs b);
  BurnCoins m cs b := commit b (credit (-1) (module_account m) cs b);
  NewModuleAddress := module_account;
}.

(** An address is lower-case text, its bytes the account. *)
#[export] Instance demo_codec : Codec := {
  StringToBytes s := if bool_decide (s = "") || negb (bool_decide (ToLower s = s)) then Err (Plain "invalid address") else Ok (codes s);
  BytesToString b := Ok (uncodes b);
}.
#[export] Instance demo_staking : StakingKeeper := { BondDenom := Ok "uerth" }.
#[export] Instance demo_host : Host := {}.

Section book.
Implicit Types b : book.

Lemma credit_balance sign a cs b x d :
  held_by (credit sign a cs b) x d = held_by b x d + (if bool_decide (a = x) then sign * AmountOf cs d else 0).
Proof.
  revert b. induction cs as [|c cs IH]; intros b; cbn [credit foldl].
  - rewrite AmountOf_nil. case_bool_decide; lia.
  - fold (credit sign a cs (credit1 sign a b c)). rewrite IH, AmountOf_cons.
    assert (held_by (credit1 sign a b c) x d = held_by b x d +
      (if bool_decide (a = x) then if bool_decide (Denom c = d) then sign * Amount c else 0 else 0)) as ->.
    { unfold credit1. set (v := held_by b a (Denom c)). unfold held_by. subst v. destruct (decide (a = x)) as [->|Hne].
      - rewrite lookup_insert_eq, bool_decide_eq_true_2 by done. cbn [from_option id].
        destruct (decide (Denom c = d)) as [<-|Hnd].
        + by rewrite lookup_insert_eq, bool_decide_eq_true_2.
        + rewrite lookup_insert_ne, bool_decide_eq_false_2 by done. unfold held_by. lia.
      - rewrite lookup_insert_ne, bool_decide_eq_false_2 by done. unfold held_by. lia. }
    repeat case_bool_decide; lia.
Qed.

Lemma credit_supply sign a cs b d : supply_of (credit sign a cs b) d = supply_of b d + sign * AmountOf cs d.
Proof.
  revert b. induction cs as [|c cs IH]; intros b; cbn [credit foldl].
  - rewrite AmountOf_nil. lia.
  - fold (credit sign a cs (credit1 sign a b c)). rewrite IH, AmountOf_cons.
    assert (supply_of (credit1 sign a b c) d = supply_of b d + (if bool_decide (Denom c = d) then sign * Amount c else 0)) as ->.
    { unfold credit1, supply_of. rewrite map_sum_insert. unfold held_by.
      destruct (decide (Denom c = d)) as [<-|Hnd].
      - rewrite lookup_insert_eq, bool_decide_eq_true_2 by done. cbn. destruct (b !! a); cbn; rewrite ?lookup_empty; cbn; lia.
      - rewrite lookup_insert_ne, bool_decide_eq_false_2 by done. destruct (b !! a); cbn; rewrite ?lookup_empty; cbn; lia. }
    case_bool_decide; lia.
Qed.

Lemma book_ok_nonneg b a m : book_ok b = true → b !! a = Some m → all_nonneg m = true.
Proof.
  unfold book_ok. intros [Hb _]%andb_true_iff Ha. rewrite forallb_forall in Hb.
  apply (Hb (a, m)). apply list_elem_of_In. by apply elem_of_map_to_list.
Qed.

Lemma held_nonneg b a d : book_ok b = true → 0 ≤ held_by b a d.
Proof.
  intros Hb. unfold held_by. destruct (b !! a) as [m|] eqn:Ha; cbn; [|by rewrite lookup_empty].
  by apply all_nonneg_spec, (book_ok_nonneg b a).
Qed.

Lemma supply_le_all b d : book_ok b = true → supply_of b d ≤ all_coins b.
Proof.
  intros Hb. apply map_sum_le. intros a m Ha. pose proof (book_ok_nonneg _ _ _ Hb Ha) as Hm.
  assert (∀ k v, m !! k = Some v → 0 ≤ v) as Hv.
  { intros k v Hk. pose proof (all_nonneg_spec _ Hm k) as Hp. rewrite Hk in Hp. done. }
  destruct (m !! d) as [v|] eqn:Hd; cbn; [|by apply map_sum_nonneg].
  by apply (map_sum_elem_le (λ _ v, v) m d v).
Qed.

Lemma held_le_supply b a d : book_ok b = true → held_by b a d ≤ supply_of b d.
Proof.
  intros Hb. assert (∀ k m, b !! k = Some m → 0 ≤ default 0 (m !! d)) as Hp.
  { intros k m Hk. by apply all_nonneg_spec, (book_ok_nonneg b k). }
  unfold held_by, supply_of. destruct (b !! a) as [m|] eqn:Ha; cbn; [|rewrite lookup_empty; by apply map_sum_nonneg].
  by apply (map_sum_elem_le (λ _ m, default 0 (m !! d)) b a m).
Qed.

Lemma commit_ok b b' b'' : commit b b' = Ok b'' → b'' = b' ∧ book_ok b = true ∧ book_ok b' = true.
Proof.
  unfold commit. destruct (book_ok b) eqn:E1; cbn; [|done]. destruct (book_ok b') eqn:E2; [|done]. by intros [= <-].
Qed.

Lemma send_moved src dst cs b b' : send src dst cs b = Ok b' → bank_moved (Some src) (Some dst) cs b b'.
Proof.
  unfold send. intros (-> & E1 & E2)%commit_ok. split; cbn; rewrite E1, E2.
  - intros a d. rewrite !credit_balance, !bd_some, (eq_comm_bd src a), (eq_comm_bd dst a).
    repeat case_bool_decide; lia.
  - intros d. rewrite !credit_supply. lia.
Qed.

Lemma mint_moved a cs b b' : commit b (credit 1 a cs b) = Ok b' → bank_moved None (Some a) cs b b'.
Proof.
  intros (-> & E1 & E2)%commit_ok. split; cbn; rewrite E1, E2.
  - intros x d. rewrite !credit_balance, !bd_some, (eq_comm_bd a x), (bool_decide_eq_false_2 (None = _)) by done.
    repeat case_bool_decide; lia.
  - intros d. rewrite !credit_supply. lia.
Qed.

Lemma burn_moved a cs b b' : commit b (credit (-1) a cs b) = Ok b' → bank_moved (Some a) None cs b b'.
Proof.
  intros (-> & E1 & E2)%commit_ok. split; cbn; rewrite E1, E2.
  - intros x d. rewrite !credit_balance, !bd_some, (eq_comm_bd a x), (bool_decide_eq_false_2 (None = _)) by done.
    repeat case_bool_decide; lia.
  - intros d. rewrite !credit_supply. lia.
Qed.
End book.

#[export] Instance demo_bank_laws : BankLaws.
Proof.
  split; cbn.
  - intros b a d. destruct (book_ok b) eqn:Hb; [|done]. pose proof (held_nonneg b a d Hb).
    pose proof (held_le_supply b a d Hb). pose proof (supply_le_all b d Hb).
    unfold book_ok in Hb. apply andb_true_iff in Hb as [_ Hb]. lia.
  - intros b a d. destruct (book_ok b) eqn:Hb; [|done]. by apply held_le_supply.
  - intros a m amt b b'. apply send_moved.
  - intros m a amt b b'. case_bool_decide; [done|]. apply send_moved.
  - intros m m' amt b b'. apply send_moved.
  - intros m amt b b'. apply mint_moved.
  - intros m amt b b'. apply burn_moved.
  - intros b a. destruct (book_ok b) eqn:Hb; [|split; [apply coins_wf_nil|done]].
    split; [apply coins_of_wf|]. intros d. apply coins_of_amount. by apply held_nonneg.
  - intros b m. destruct (book_ok b) eqn:Hb; [|split; [apply coins_wf_nil|done]].
    split; [apply coins_of_wf|]. intros d. apply coins_of_amount. by apply held_nonneg.
  - intros m m' [= E]. by apply codes_inj.
  - intros m amt b b'. rewrite bool_decide_eq_true_2; done.
Qed.

#[export] Instance demo_host_laws : HostLaws := {| host_bond_denom := eq_refl |}.

(** ** The pool: a note counter *)
#[export] Instance demo_shielded : ShieldedKeeper := {
  shielded_state := Z;
  IsShieldedOnly d := bool_decide (d = AnmlDenom);
  AssetID d _ := Ok (codes d);
  CheckMint pc _ _ := if bool_decide (pc = []) then Err (Plain "no pc") else Ok ();
  MintNote m c pc ct := λ '(b, n),
    if FitsNote (Amount c) then
      b' ← send (module_account m) (module_account shielded_ModuleName) [c] b;
      Ok ((n, pc), (b', n + 1))
    else Err (Plain "note value out of range");
  MintNoteSplit m c pc ct := λ '(b, n),
    vs ← SplitNoteValues (Amount c);
    b' ← send (module_account m) (module_account shielded_ModuleName) [c] b;
    Ok ((λ i, n + Z.of_nat i) <$> seq 0 (length vs), (b', n + Z.of_nat (length vs)));
  RegisterAsset d := λ '(b, n), Ok (codes d, (b, n));
  ReleaseToModule msg d m := λ '(b, n),
    rem ← Remainders msg;
    let v := AmountOf rem d in
    if 0 <? v then
      b' ← send (module_account shielded_ModuleName) (module_account m) [mkCoin d v] b;
      Ok (mkCoin d v, (b', n))
    else Err (Plain "nothing to release");
}.

#[export] Instance demo_shielded_laws : ShieldedLaws.
Proof.
  split; cbn.
  - intros m c pc ct b s r b' s' Hr. destruct (FitsNote _); [|done].
    apply outcome_bind_ok in Hr as (b1 & Hs & [= <- <- <-]). by apply send_moved.
  - intros m c pc ct b s r b' s' Hr. apply outcome_bind_ok in Hr as (vs & _ & Hr).
    apply outcome_bind_ok in Hr as (b1 & Hs & [= <- <- <-]). by apply send_moved.
  - by intros d b s r b' s' [= _ <- _].
  - intros msg d m b s c b' s' Hr. apply outcome_bind_ok in Hr as (rem & _ & Hr). cbv zeta in Hr.
    destruct (Z.ltb_spec 0 (AmountOf rem d)); [|done].
    apply outcome_bind_ok in Hr as (b1 & Hs & [= <- <- <-]). split_and!; try done. by apply send_moved.
Qed.
