(* ===== verification/ShieldedParams.v ===== *)
(** * x/shielded: parameters and the private gas schedule

    [x/shielded/types/params.go] and the limits of [types/keys.go] they are checked against.  Gas is a [uint64]: sums and
    products wrap, and what [Validate] admits is small enough that none does. *)

From S2P Require Export Orchard ShieldedTypes.

Definition CircuitAction : string := "action".
Definition CircuitMembership : string := "membership".
Definition CircuitStake : string := "stake".
Definition CircuitVote : string := "vote".
Definition CircuitMove : string := "move".
Definition MinActionsPerBundle : Z := 2.
Definition MaxBundlesPerMsg : Z := 1.
Definition ProofBytes : Z := 14656.
Definition MaxCiphertextBytes : Z := 1024.
Definition RootPruneLimit : nat := 20.

Definition DefaultMinFee : Z := 1000.
Definition DefaultProofVerificationGas : Z := 2000000.
Definition DefaultNoteGas : Z := 150000.
Definition DefaultBundleGas : Z := 100000.
Definition DefaultRootWindowSeconds : Z := 14 * 24 * 60 * 60.
Definition DefaultMaxPrivateActionsPerBlock : Z := 32.
Definition DefaultMaxActionsPerBundle : Z := 16.
Definition MaxProofVerificationGas : Z := 10000000.
Definition MaxNoteGas : Z := 1000000.
Definition MaxBundleGas : Z := 1000000.
Definition MaxMaxPrivateActionsPerBlock : Z := 256.
Definition MaxBundleShapeGas : Z := 60000000.

Record Params := NewParams {
  VerifyingKeys : gmap string bytes;
  MinFee : Z;
  ProofVerificationGas : Z;
  NoteGas : Z;
  BundleGas : Z;
  RootWindowSeconds : Z;
  MaxPrivateActionsPerBlock : Z;
  MaxActionsPerBundle : Z;
}.

Definition DefaultParams : Params :=
  NewParams ∅ DefaultMinFee DefaultProofVerificationGas DefaultNoteGas DefaultBundleGas
    DefaultRootWindowSeconds DefaultMaxPrivateActionsPerBlock DefaultMaxActionsPerBundle.

Definition knownCircuits : gset string :=
  {[CircuitAction; CircuitMembership; CircuitStake; CircuitVote; CircuitMove]}.

(** [ActionGas]: a proof, a nullifier and a commitment. *)
Definition ActionGas (p : Params) : Z := wrap_u64 (ProofVerificationGas p + wrap_u64 (2 * NoteGas p)).

(** The loop over the verifying keys. *)
Fixpoint check_keys (l : list (string * bytes)) : outcome () :=
  match l with
  | [] => mret ()
  | (name, vk) :: l =>
      _ ← refuse (bool_decide (name ∉ knownCircuits)) (Plain "unknown circuit in verifying_keys");
      _ ← refuse (bool_decide (vk = [])) (Plain "verifying key is empty");
      check_keys l
  end.

Definition Validate (p : Params) : outcome () :=
  _ ← refuse (MinFee p <? 1) (Plain "min_fee must be at least 1");
  _ ← refuse ((ProofVerificationGas p =? 0) || (MaxProofVerificationGas <? ProofVerificationGas p))
        (Plain "proof_verification_gas must be 1..max");
  _ ← refuse ((NoteGas p =? 0) || (MaxNoteGas <? NoteGas p)) (Plain "note_gas must be 1..max");
  _ ← refuse ((BundleGas p =? 0) || (MaxBundleGas <? BundleGas p)) (Plain "bundle_gas must be 1..max");
  _ ← refuse (RootWindowSeconds p =? 0) (Plain "root_window_seconds must be positive");
  _ ← refuse (365 * 24 * 60 * 60 <? RootWindowSeconds p) (Plain "root_window_seconds must be at most a year");
  _ ← refuse ((MaxActionsPerBundle p <? MinActionsPerBundle) || (Z.of_nat MaxActions <? MaxActionsPerBundle p))
        (Plain "max_actions_per_bundle out of range");
  let g := wrap_u64 (BundleGas p + wrap_u64 (MaxActionsPerBundle p * ActionGas p)) in
  _ ← refuse (MaxBundleShapeGas <? g) (Plain "a largest bundle costs too much gas at these prices");
  _ ← refuse (MaxPrivateActionsPerBlock p <? wrap_u32 (MaxBundlesPerMsg * MaxActionsPerBundle p))
        (Plain "max_private_actions_per_block is below the largest msg");
  _ ← refuse (MaxMaxPrivateActionsPerBlock <? MaxPrivateActionsPerBlock p)
        (Plain "max_private_actions_per_block is too large");
  check_keys (iter_map (VerifyingKeys p)).

(** [PrivateMsgGas]: the fixed gas of a msg's bundles. *)
Definition PrivateMsgGas (p : Params) (bundles : list Bundle) : Z :=
  foldl (λ g b, wrap_u64 (g + wrap_u64 (BundleGas p + wrap_u64 (wrap_u64 (Z.of_nat (length (bun_Actions b))) * ActionGas p))))
    0 bundles.

Definition PrivateGasCeilingFactor : Z := 5.
Definition PrivateGasCeiling (used : Z) : Z :=
  if (2 ^ 64 - 1) / PrivateGasCeilingFactor <? used then 2 ^ 64 - 1 else wrap_u64 (used * PrivateGasCeilingFactor).

(** ** What [Validate] admits *)

(** The fields are unsigned integers of their widths. *)
Definition params_typed (p : Params) : Prop :=
  is_u64 (ProofVerificationGas p) ∧ is_u64 (NoteGas p) ∧ is_u64 (BundleGas p) ∧ is_u64 (RootWindowSeconds p) ∧
  0 ≤ MaxPrivateActionsPerBlock p < 2 ^ 32 ∧ 0 ≤ MaxActionsPerBundle p < 2 ^ 32.

(** The specification of an admitted set of parameters, over the integers. *)
Definition params_ok (p : Params) : Prop :=
  1 ≤ MinFee p ∧ 1 ≤ ProofVerificationGas p ≤ MaxProofVerificationGas ∧ 1 ≤ NoteGas p ≤ MaxNoteGas ∧
  1 ≤ BundleGas p ≤ MaxBundleGas ∧ 1 ≤ RootWindowSeconds p ≤ 365 * 24 * 60 * 60 ∧
  MinActionsPerBundle ≤ MaxActionsPerBundle p ≤ Z.of_nat MaxActions ∧
  BundleGas p + MaxActionsPerBundle p * (ProofVerificationGas p + 2 * NoteGas p) ≤ MaxBundleShapeGas ∧
  MaxActionsPerBundle p ≤ MaxPrivateActionsPerBlock p ≤ MaxMaxPrivateActionsPerBlock ∧
  (∀ name vk, VerifyingKeys p !! name = Some vk → name ∈ knownCircuits ∧ vk ≠ []).

Lemma check_keys_ok l :
  check_keys l = Ok () ↔ ∀ name vk, (name, vk) ∈ l → name ∈ knownCircuits ∧ vk ≠ [].
Proof.
  induction l as [|[name vk] l IH]; cbn [check_keys].
  - split; [by intros _ ? ? ?%elem_of_nil|done].
  - split.
    + intros Hr. prog_inv. apply bool_decide_eq_false in Hpure, Hpure0.
      intros n v [[= -> ->]|Hin]%elem_of_cons; [|by apply (proj1 IH)]. split; [|done].
      destruct (decide (name ∈ knownCircuits)); [done|]. by destruct Hpure.
    + intros Hl. destruct (Hl name vk ltac:(left)) as [Hn Hv].
      rewrite !bool_decide_eq_false_2 by (done || by intros []). cbn. apply IH. intros n v Hin. apply Hl. by right.
Qed.

Lemma ActionGas_spec p : params_typed p → ProofVerificationGas p ≤ MaxProofVerificationGas → NoteGas p ≤ MaxNoteGas →
  ActionGas p = ProofVerificationGas p + 2 * NoteGas p.
Proof.
  unfold params_typed, is_u64, ActionGas, MaxProofVerificationGas, MaxNoteGas. intros Hp ? ?.
  rewrite (wrap_u64_id (2 * _)), wrap_u64_id by lia. done.
Qed.

Lemma Validate_spec p : params_typed p → Validate p = Ok () ↔ params_ok p.
Proof.
  intros Ht. pose proof Ht as (H1 & H2 & H3 & H4 & H5 & H6). unfold is_u64 in *.
  assert (∀ x m, is_u64 x → refuse ((x =? 0) || (m <? x)) (Plain "") = Ok () ↔ 1 ≤ x ≤ m) as Hu.
  { intros x m Hx. rewrite refuse_ok, orb_false_iff, Z.eqb_neq, Z.ltb_ge. unfold is_u64 in Hx. lia. }
  unfold Validate, params_ok. cbv zeta. split.
  - intros Hr. repeat (apply outcome_bind_ok in Hr as ([] & Hg%refuse_ok & Hr); revert Hg). intros.
    rewrite orb_false_iff, ?Z.eqb_neq, ?Z.ltb_ge in *.
    rewrite (ActionGas_spec p) in * by (done || lia). unfold MaxBundleGas, MaxProofVerificationGas, MaxNoteGas, MinActionsPerBundle, MaxActions, MaxBundlesPerMsg in *.
    rewrite (wrap_u64_id (MaxActionsPerBundle p * _)) in * by nia. rewrite wrap_u64_id in * by nia.
    unfold wrap_u32 in *. rewrite Z.mod_small in * by lia.
    pose proof (proj1 (check_keys_ok _) Hr) as Hk. setoid_rewrite elem_of_iter_map in Hk. split_and!; (done || lia).
  - intros (? & ? & ? & ? & ? & ? & ? & ? & Hk).
    rewrite (ActionGas_spec p) in * by (done || lia). unfold MaxBundleGas, MaxProofVerificationGas, MaxNoteGas, MinActionsPerBundle, MaxActions, MaxBundlesPerMsg in *.
    rewrite (wrap_u64_id (MaxActionsPerBundle p * _)) by nia. rewrite wrap_u64_id by nia.
    unfold wrap_u32. rewrite Z.mod_small by lia.
    repeat (apply outcome_bind_ok; exists (); split; [apply refuse_ok; rewrite ?orb_false_iff, ?Z.eqb_neq, ?Z.ltb_ge; lia|]).
    apply (proj2 (check_keys_ok _)). intros name vk Hin%elem_of_iter_map. by apply Hk.
Qed.

(** [Validate] admits exactly the parameters of the specification, and under them no gas computation wraps: a private
    msg's fixed gas is the exact sum over its bundles and actions, and the largest msg the parameters allow costs
    at most [MaxBundleShapeGas] and fits the block's cap on private actions. *)
Theorem params_bound_gas p :
  params_typed p →
  (Validate p = Ok () ↔ params_ok p) ∧
  (params_ok p → ∀ b, Z.of_nat (length (bun_Actions b)) ≤ MaxActionsPerBundle p →
     PrivateMsgGas p [b] = BundleGas p + Z.of_nat (length (bun_Actions b)) * (ProofVerificationGas p + 2 * NoteGas p) ∧
     PrivateMsgGas p [b] ≤ MaxBundleShapeGas ∧ Z.of_nat (length (bun_Actions b)) ≤ MaxPrivateActionsPerBlock p ∧
     PrivateGasCeiling (PrivateMsgGas p [b]) = PrivateGasCeilingFactor * PrivateMsgGas p [b]).
Proof.
  intros Ht. split; [by apply Validate_spec|]. intros Hok b Hb. pose proof Hok as (? & ? & ? & ? & ? & ? & ? & ? & _).
  assert (PrivateMsgGas p [b] = BundleGas p + Z.of_nat (length (bun_Actions b)) * (ProofVerificationGas p + 2 * NoteGas p)) as ->.
  { unfold PrivateMsgGas. cbn [foldl]. rewrite (ActionGas_spec p) by (done || lia).
    unfold MaxBundleGas, MaxProofVerificationGas, MaxNoteGas, MinActionsPerBundle, MaxActions, MaxBundlesPerMsg, MaxBundleShapeGas in *.
    rewrite (wrap_u64_id (Z.of_nat _)) by lia. rewrite (wrap_u64_id (Z.of_nat _ * _)) by nia.
    rewrite (wrap_u64_id (BundleGas p + _)) by nia. rewrite wrap_u64_id by nia. lia. }
  assert (BundleGas p + Z.of_nat (length (bun_Actions b)) * (ProofVerificationGas p + 2 * NoteGas p) ≤ MaxBundleShapeGas) as Hg by nia.
  split_and!; [done|done|lia|]. unfold PrivateGasCeiling, PrivateGasCeilingFactor, MaxBundleShapeGas in *.
  destruct (Z.ltb_spec ((2 ^ 64 - 1) / 5) (BundleGas p + Z.of_nat (length (bun_Actions b)) * (ProofVerificationGas p + 2 * NoteGas p))) as [Hlt|_].
  - assert ((2 ^ 64 - 1) / 5 = 3689348814741910323) as E by reflexivity. lia.
  - rewrite wrap_u64_id; nia.
Qed.
