(* ===== verification/ShieldedBundle.v ===== *)
(** * x/shielded: bundles on the wire and the msgs that carry them

    [x/shielded/types/bundle.go], [msgs.go], [proof.go], [txfields.go] and the ciphertext rule of [rules.go]: what a private msg
    must satisfy before any state is read, its translation into zk/orchard's terms and its signature hash. *)

From S2P Require Export ShieldedParams.

Definition CvBytes : Z := 64.
Definition BlindCiphertextBytes : Z := 32 + (1 + 32 + 32 + 64) + 16.
Definition NoteCiphertextBytes : Z := 32 + (1 + 32 + 8 + 32 + 32 + 64) + 16.

Definition CheckBlindCiphertext (ct : bytes) : outcome () :=
  refuse (negb (Z.of_nat (length ct) =? BlindCiphertextBytes)) (Plain "an amount-blind ciphertext is required").

Definition CheckProofLength (proof : bytes) : outcome () :=
  refuse (negb (Z.of_nat (length proof) =? ProofBytes)) (Plain "proof has the wrong length").

Definition checkField (b : bytes) : outcome () :=
  _ ← wrap_error (FieldFromBytes b) ErrInvalidBundle;
  mret ().

(** The nullifiers of a bundle, in order. *)
Definition Nullifiers (b : Bundle) : list bytes := act_Nullifier <$> bun_Actions b.

Definition ActionCount (m : PrivateMsg) : Z :=
  Z.of_nat (foldl (λ n b, (n + length (bun_Actions b))%nat) 0%nat (pm_Bundles m)).

Definition TotalFee (m : PrivateMsg) : Z := pm_Fee m.

Section bundle.
Context `{Host} `{Grumpkin}.

(** ** bundle.go *)

(** The loop over the actions: [first] is the first action's anchor, once there is one. *)
Fixpoint check_bundle_actions (first : option bytes) (as_ : list Action) (seen : gset bytes) : outcome () :=
  match as_ with
  | [] => mret ()
  | a :: as_ =>
      _ ← wrap_error (CheckProofLength (act_Proof a)) ErrInvalidBundle;
      _ ← checkField (act_Anchor a);
      _ ← checkField (act_Nullifier a);
      _ ← checkField (act_Commitment a);
      _ ← refuse (negb (Z.of_nat (length (act_Cv a)) =? CvBytes)) ErrInvalidBundle;
      _ ← wrap_error (PointFromBytes (act_Cv a)) ErrInvalidBundle;
      _ ← refuse (negb (Z.of_nat (length (act_Ciphertext a)) =? NoteCiphertextBytes)) ErrInvalidBundle;
      let anchor := default (act_Anchor a) first in
      _ ← refuse (negb (bool_decide (act_Anchor a = anchor))) ErrInvalidBundle;
      _ ← refuse (bool_decide (act_Nullifier a ∈ seen)) ErrInvalidBundle;
      check_bundle_actions (Some anchor) as_ ({[act_Nullifier a]} ∪ seen)
  end.

Fixpoint check_bundle_balances (bals : list Balance) (denoms : gset string) : outcome () :=
  match bals with
  | [] => mret ()
  | bal :: bals =>
      _ ← refuse (negb (ValidateDenom (bal_Denom bal))) ErrInvalidBundle;
      _ ← refuse ((bal_Amount bal =? 0) || bool_decide (bal_Denom bal ∈ denoms)) ErrInvalidBundle;
      check_bundle_balances bals ({[bal_Denom bal]} ∪ denoms)
  end.

Definition BundleValidateBasic (b : Bundle) : outcome () :=
  let n := Z.of_nat (length (bun_Actions b)) in
  _ ← refuse ((n <? MinActionsPerBundle) || (Z.of_nat MaxActions <? n)) ErrInvalidBundle;
  _ ← check_bundle_actions None (bun_Actions b) ∅;
  _ ← refuse (2 * n <? Z.of_nat (length (bun_Balances b))) ErrInvalidBundle;
  _ ← check_bundle_balances (bun_Balances b) ∅;
  refuse (negb (Z.of_nat (length (bun_BindingSig b)) =? BindingSigSize)) ErrInvalidBundle.

Definition action_ToOrchard (a : Action) : outcome Orchard.Action :=
  anchor ← wrap_error (FieldFromBytes (act_Anchor a)) ErrInvalidBundle;
  nullifier ← wrap_error (FieldFromBytes (act_Nullifier a)) ErrInvalidBundle;
  commitment ← wrap_error (FieldFromBytes (act_Commitment a)) ErrInvalidBundle;
  cv ← wrap_error (PointFromBytes (act_Cv a)) ErrInvalidBundle;
  mret (mkAction anchor nullifier commitment cv (act_Ciphertext a) (act_Proof a)).
Definition balance_ToOrchard (bal : Balance) : Orchard.Balance :=
  mkBalance (privacy_AssetID (bal_Denom bal)) (bal_Amount bal).
Definition ToOrchard (b : Bundle) : outcome Orchard.Bundle :=
  actions ← mapM action_ToOrchard (bun_Actions b);
  mret (mkBundle actions (balance_ToOrchard <$> bun_Balances b) (bun_BindingSig b)).

(** ** msgs.go *)

(** [Sighash]: [SighashOf] passes the chain id and the tx fields the private ante recorded. *)
Definition MsgSighash (m : PrivateMsg) (chainID : string) (tx : TxFields) : outcome Z :=
  ob ← mapM ToOrchard (pm_Bundles m);
  fields ← pm_SighashFields m;
  mret (Sighash (pm_TypeURL m) chainID tx ob fields).

(** The loop over the bundles, and within one over its nullifiers; a nil bundle is not a value of the model. *)
Fixpoint check_distinct (nfs : list bytes) (seen : gset bytes) : outcome (gset bytes) :=
  match nfs with
  | [] => mret seen
  | nf :: nfs =>
      _ ← refuse (bool_decide (nf ∈ seen)) ErrInvalidBundle;
      check_distinct nfs ({[nf]} ∪ seen)
  end.
Fixpoint check_bundles (bs : list Bundle) (seen : gset bytes) : outcome () :=
  match bs with
  | [] => mret ()
  | b :: bs =>
      _ ← BundleValidateBasic b;
      seen ← check_distinct (Nullifiers b) seen;
      check_bundles bs seen
  end.

Definition ValidateBundles (m : PrivateMsg) : outcome () :=
  let n := Z.of_nat (length (pm_Bundles m)) in
  _ ← refuse ((n <? 1) || (MaxBundlesPerMsg <? n)) ErrInvalidBundle;
  _ ← check_bundles (pm_Bundles m) ∅;
  _ ← Remainders m;
  mret ().

Definition ValidateFeeOnly (m : PrivateMsg) : outcome () :=
  _ ← ValidateBundles m;
  _ ← refuse (pm_Fee m =? 0) ErrReleaseMap;
  rem ← Remainders m;
  refuse (negb (length rem =? 0)%nat) ErrReleaseMap.

(** ** MsgSend *)
Record MsgSend := { sd_Bundle : Bundle; sd_Receiver : string; sd_Fee : Z }.
Definition TypeMsgSend : string := "/earth.shielded.v1.MsgSend".

Definition UnshieldReceiver (m : MsgSend) : outcome (option bytes) :=
  if bool_decide (sd_Receiver m = "") then mret None
  else
    bz ← wrap_error (StringToBytes (sd_Receiver m)) ErrInvalidBundle;
    s ← wrap_error (BytesToString bz) ErrInvalidBundle;
    _ ← refuse (negb (bool_decide (s = sd_Receiver m))) ErrInvalidBundle;
    mret (Some bz).

Definition SighashFields (m : MsgSend) : outcome (list Z) :=
  recv ← UnshieldReceiver m;
  mret [Bytes (default [] recv); U64 (sd_Fee m)].

Definition MsgSend_wire (m : MsgSend) : ProtoValue :=
  PV_message [bundle_wire (sd_Bundle m); PV_string (sd_Receiver m); PV_uint64 (sd_Fee m)].

Definition MsgSend_private (m : MsgSend) : PrivateMsg := {|
  pm_TypeURL := TypeMsgSend; pm_Bytes := proto_Marshal TypeMsgSend (MsgSend_wire m);
  pm_Bundles := [sd_Bundle m]; pm_Fee := sd_Fee m;
  pm_SighashFields := SighashFields m; pm_UnshieldReceiver := Some (UnshieldReceiver m) |}.

Definition MsgSend_ValidateBasic (m : MsgSend) : outcome () :=
  _ ← ValidateBundles (MsgSend_private m);
  _ ← refuse (sd_Fee m =? 0) ErrReleaseMap;
  rem ← Remainders (MsgSend_private m);
  refuse (negb (eqb (length rem =? 0)%nat (bool_decide (sd_Receiver m = "")))) ErrReleaseMap.

(** ** MsgShield and MsgRegisterAsset *)
Record MsgShield := { sh_Sender : string; sh_Amount : Coin; sh_Pc : bytes; sh_Ciphertext : bytes }.
Record MsgRegisterAsset := { ra_Authority : string; ra_Denom : string }.

Definition MsgShield_ValidateBasic (m : MsgShield) : outcome () :=
  _ ← refuse (negb (CoinIsValid (sh_Amount m)) || negb (0 <? Amount (sh_Amount m))) ErrInvalidNote;
  _ ← refuse (negb (FitsNote (Amount (sh_Amount m)))) ErrInvalidNote;
  _ ← wrap_error (FieldFromBytes (sh_Pc m)) ErrInvalidNote;
  wrap_error (CheckBlindCiphertext (sh_Ciphertext m)) ErrInvalidNote.

Definition MsgRegisterAsset_ValidateBasic (m : MsgRegisterAsset) : outcome () :=
  refuse (negb (ValidateDenom (ra_Denom m))) (Plain "invalid denom").
End bundle.

(** ** A bundle that passes is one zk/orchard accepts *)
Section converts.
Context `{Host} `{Grumpkin}.

(** The byte fields hold bytes, the amounts are [uint64]s. *)
Definition action_typed (a : Action) : Prop :=
  is_bytes (act_Anchor a) ∧ is_bytes (act_Nullifier a) ∧ is_bytes (act_Commitment a) ∧ is_bytes (act_Cv a).
Definition bundle_typed (b : Bundle) : Prop :=
  Forall action_typed (bun_Actions b) ∧ Forall (λ bal, 0 ≤ bal_Amount bal < 2 ^ 64) (bun_Balances b).

(** An action and its translation say the same. *)
Definition same_action (a : Action) (o : Orchard.Action) : Prop :=
  FieldBytes (Anchor o) = act_Anchor a ∧ FieldBytes (Nullifier o) = act_Nullifier a ∧
  FieldBytes (Commitment o) = act_Commitment a ∧ PointFromBytes (act_Cv a) = Ok (Cv o) ∧
  Ciphertext o = act_Ciphertext a ∧ Proof_ o = act_Proof a ∧ is_fr (Nullifier o).

(** Two different denoms with the same asset id. *)
Definition denoms_collide (l : list string) : Prop :=
  ∃ d d', d ∈ l ∧ d' ∈ l ∧ d ≠ d' ∧ privacy_AssetID d = privacy_AssetID d'.

Lemma action_ToOrchard_ok a an nf cm cv :
  action_typed a → FieldFromBytes (act_Anchor a) = Ok an → FieldFromBytes (act_Nullifier a) = Ok nf →
  FieldFromBytes (act_Commitment a) = Ok cm → PointFromBytes (act_Cv a) = Ok cv →
  ∃ o, action_ToOrchard a = Ok o ∧ same_action a o.
Proof.
  intros (Ha & Hn & Hc & _) Ean Enf Ecm Ecv.
  destruct (FieldFromBytes_canonical _ _ Ha Ean), (FieldFromBytes_canonical _ _ Hn Enf), (FieldFromBytes_canonical _ _ Hc Ecm).
  unfold action_ToOrchard, same_action. rewrite Ean, Enf, Ecm, Ecv. by eexists.
Qed.

Lemma PointFromBytes_on b p : PointFromBytes b = Ok p → IsOnCurve p = true.
Proof.
  unfold PointFromBytes, PointFromXY. intros E. prog_inv. by destruct (IsOnCurve _).
Qed.

Lemma check_bundle_actions_converts first as_ seen (seen' : gset Z) :
  Forall action_typed as_ → (∀ z, z ∈ seen' → is_fr z ∧ FieldBytes z ∈ seen) →
  check_bundle_actions first as_ seen = Ok () →
  ∃ os, mapM action_ToOrchard as_ = Ok os ∧ Forall2 same_action as_ os ∧ check_actions os seen' = Ok () ∧
    NoDup (act_Nullifier <$> as_) ∧ (∀ a, a ∈ as_ → act_Nullifier a ∉ seen) ∧
    ∃ anchor, (∀ x, first = Some x → x = anchor) ∧ Forall (λ a, act_Anchor a = anchor) as_.
Proof.
  revert first seen seen'. induction as_ as [|a as_ IH]; intros first seen seen' Ht Hseen E.
  { exists []. split_and!; [done|constructor|done|constructor|by intros ? ?%elem_of_nil|].
    exists (default [] first). split; [by intros ? ->|constructor]. }
  apply Forall_cons in Ht as [Hta Ht]. cbn [check_bundle_actions] in E. unfold checkField in E. prog_inv.
  apply bool_decide_eq_false in Hpure7. apply negb_false_iff, bool_decide_eq_true in Hpure6.
  edestruct (action_ToOrchard_ok a) as (o & Eo & Ho); [eassumption..|].
  pose proof Ho as (_ & Hn & _ & Hcv & _ & _ & Hfr).
  eassert (∀ z, z ∈ {[Nullifier o]} ∪ seen' → is_fr z ∧ FieldBytes z ∈ {[act_Nullifier a]} ∪ seen) as Hseen'.
  { intros z [->%elem_of_singleton|[Hz Hz']%Hseen]%elem_of_union; [rewrite <-Hn; set_solver|set_solver]. }
  destruct (IH _ _ _ Ht Hseen' E) as (os & Eos & Hos & Hck & Hnd & Hin & anchor & Hx & Han).
  exists (o :: os). split_and!.
  - cbn [mapM]. rewrite Eo. cbn [mbind outcome_bind]. by rewrite Eos.
  - by constructor.
  - cbn [check_actions]. rewrite (PointFromBytes_on _ _ Hcv). cbn. rewrite bool_decide_eq_false_2; [exact Hck|].
    intros [_ Hz]%Hseen. rewrite Hn in Hz. done.
  - cbn [fmap list_fmap]. constructor; [|done]. intros (a' & Ea & Ha')%list_elem_of_fmap. apply Hin in Ha'.
    apply Ha'. rewrite <-Ea. set_solver.
  - intros a' [->|Ha'%Hin]%elem_of_cons; [done|set_solver].
  - exists anchor. specialize (Hx _ eq_refl). split; [intros x ->; exact Hx|]. constructor; [by rewrite Hpure6|done].
Qed.

Lemma check_bundle_balances_converts bals seen (seen' : gset Z) l :
  (∀ z, z ∈ seen' → ∃ d, d ∈ seen ∧ d ∈ l ∧ z = privacy_AssetID d) → (∀ bal, bal ∈ bals → bal_Denom bal ∈ l) →
  check_bundle_balances bals seen = Ok () →
  (check_balances (balance_ToOrchard <$> bals) seen' = Ok () ∨ denoms_collide l) ∧
  (∀ bal, bal ∈ bals → bal_Amount bal ≠ 0 ∧ bal_Denom bal ∉ seen) ∧ NoDup (bal_Denom <$> bals).
Proof.
  revert seen seen'. induction bals as [|bal bals IH]; intros seen seen' Hseen Hl E.
  { split; [by left|]. split; [by intros ? ?%elem_of_nil|constructor]. }
  cbn [check_bundle_balances] in E. prog_inv. apply orb_false_iff in Hpure0 as [Hz Hd].
  apply Z.eqb_neq in Hz. apply bool_decide_eq_false in Hd.
  assert (bal_Denom bal ∈ l) as Hin by (apply Hl; left).
  assert (∀ z, z ∈ {[privacy_AssetID (bal_Denom bal)]} ∪ seen' →
    ∃ d, d ∈ {[bal_Denom bal]} ∪ seen ∧ d ∈ l ∧ z = privacy_AssetID d) as Hseen'.
  { intros z [->%elem_of_singleton|(d & ? & ? & ?)%Hseen]%elem_of_union; [|set_solver].
    exists (bal_Denom bal). split_and!; [set_solver|done|done]. }
  destruct (IH _ _ Hseen' ltac:(intros; apply Hl; by right) E) as (Hck & Hb & Hnd).
  split_and!.
  - destruct Hck as [Hck|]; [|by right]. cbn [fmap list_fmap check_balances balance_ToOrchard Asset Value].
    destruct (decide (privacy_AssetID (bal_Denom bal) ∈ seen')) as [(d & Hds & Hdl & Ed)%Hseen|Hn].
    + right. exists (bal_Denom bal), d. split; [done|]. split; [done|].
      split; [by intros <-|exact Ed].
    + left. rewrite (proj2 (Z.eqb_neq _ _) Hz), bool_decide_eq_false_2 by done. exact Hck.
  - intros b' [->|Hb']%elem_of_cons; [done|]. apply Hb in Hb' as [? ?]. split; [done|set_solver].
  - cbn [fmap list_fmap]. constructor; [|done]. intros (b' & Eb & Hb')%list_elem_of_fmap. apply Hb in Hb' as [_ Hb'].
    apply Hb'. rewrite <-Eb. set_solver.
Qed.

(** A bundle that passes the stateless checks is one zk/orchard accepts: its translation exists, says the same bytes
    for bytes, its nullifiers are distinct and its actions prove against one anchor, its balances are positive and one
    per denom; and zk/orchard's own shape check passes on it, unless two of its denoms have the same asset id. *)
Theorem validated_bundle_converts b :
  bundle_typed b → BundleValidateBasic b = Ok () →
  ∃ o, ToOrchard b = Ok o ∧ Forall2 same_action (bun_Actions b) (Actions o) ∧
    Balances o = balance_ToOrchard <$> bun_Balances b ∧
    NoDup (Nullifiers b) ∧ (∃ anchor, Forall (λ a, act_Anchor a = anchor) (bun_Actions b)) ∧
    NoDup (bal_Denom <$> bun_Balances b) ∧ Forall (λ bal, 0 < bal_Amount bal) (bun_Balances b) ∧
    (Orchard.ValidateBasic o = Ok () ∨ denoms_collide (bal_Denom <$> bun_Balances b)).
Proof.
  intros [Ha Hb] E. unfold BundleValidateBasic in E. cbv zeta in E. prog_inv.
  apply orb_false_iff in Hpure as [Hmin Hmax]. unfold MinActionsPerBundle in Hmin.
  assert (∀ z : Z, z ∈ (∅ : gset Z) → is_fr z ∧ FieldBytes z ∈ (∅ : gset bytes)) as He by set_solver.
  destruct (check_bundle_actions_converts None _ ∅ ∅ Ha He Hpure0) as (os & Eos & Hos & Hck & Hnd & Hin & Hanchor).
  destruct (check_bundle_balances_converts (bun_Balances b) ∅ ∅ (bal_Denom <$> bun_Balances b)) as (Hcb & Hpos & Hndb);
    [set_solver|intros; by apply list_elem_of_fmap_2|done|].
  exists (mkBundle os (balance_ToOrchard <$> bun_Balances b) (bun_BindingSig b)). split_and!; try done.
  - unfold ToOrchard. by rewrite Eos.
  - destruct Hanchor as (x & _ & Hx). by exists x.
  - rewrite Forall_forall in Hb |- *. intros bal Hbal. pose proof (Hb bal Hbal). apply Hpos in Hbal. lia.
  - destruct Hcb as [Hcb|]; [left|by right]. unfold Orchard.ValidateBasic. cbn [Actions Balances BindingSig].
    rewrite <-(Forall2_length _ _ _ Hos), Hck, Hcb, E. 
    destruct (Nat.eqb_spec (length (bun_Actions b)) 0); [lia|].
    destruct (Nat.ltb_spec MaxActions (length (bun_Actions b))); [lia|]. done.
Qed.
End converts.
