(* ===== verification/ShieldedStore.v ===== *)
(** * x/shielded: the pool's state, tree, roots, assets and turnstiles

    [x/shielded/keeper/keeper.go], [tree.go], [roots.go], [assets.go] and [turnstile.go].  The collections of the keeper are
    the fields of [PoolStore]; the note tree is zk/merkle's over the [TreeNodes] collection ([kvNodeStore], an
    instance of the node store [Merkle.v] is written over). *)

From S2P Require Export Merkle ShieldedBundle.

(** ** Records *)
Record RootRecord := mkRootRecord {
  rr_Root : bytes; rr_Height : Z; rr_Time : Z; rr_TreeSize : Z; rr_SupersededAt : Z;
}.
Record Turnstile := mkTurnstile { ts_Denom : string; ts_In : Z; ts_Out : Z }.

Definition TreeNodes : Type := gmap (Z * Z) bytes.

Record PoolStore := {
  p_Params : option Params;
  p_TreeNodes : TreeNodes;
  p_TreeSize : option Z;
  p_Roots : gmap bytes RootRecord;
  p_RootsByTime : gset (Z * bytes);
  p_LatestRoot : option bytes;
  p_Nullifiers : gset bytes;
  p_Assets : gmap string bytes;
  p_AssetsByID : gmap bytes string;
  p_Turnstiles : gmap string Turnstile;
  p_DirtyDenoms : gset string;
  p_PrivateActionCount : option Z;
}.

(** An empty store. *)
Definition empty_store : PoolStore := Build_PoolStore None ∅ None ∅ ∅ None ∅ ∅ ∅ ∅ ∅ None.

Definition set_p_Params v s := Build_PoolStore v (p_TreeNodes s) (p_TreeSize s) (p_Roots s) (p_RootsByTime s) (p_LatestRoot s) (p_Nullifiers s) (p_Assets s) (p_AssetsByID s) (p_Turnstiles s) (p_DirtyDenoms s) (p_PrivateActionCount s).
Definition set_p_TreeNodes v s := Build_PoolStore (p_Params s) v (p_TreeSize s) (p_Roots s) (p_RootsByTime s) (p_LatestRoot s) (p_Nullifiers s) (p_Assets s) (p_AssetsByID s) (p_Turnstiles s) (p_DirtyDenoms s) (p_PrivateActionCount s).
Definition set_p_TreeSize v s := Build_PoolStore (p_Params s) (p_TreeNodes s) v (p_Roots s) (p_RootsByTime s) (p_LatestRoot s) (p_Nullifiers s) (p_Assets s) (p_AssetsByID s) (p_Turnstiles s) (p_DirtyDenoms s) (p_PrivateActionCount s).
Definition set_p_Roots f s := Build_PoolStore (p_Params s) (p_TreeNodes s) (p_TreeSize s) (f (p_Roots s)) (p_RootsByTime s) (p_LatestRoot s) (p_Nullifiers s) (p_Assets s) (p_AssetsByID s) (p_Turnstiles s) (p_DirtyDenoms s) (p_PrivateActionCount s).
Definition set_p_RootsByTime f s := Build_PoolStore (p_Params s) (p_TreeNodes s) (p_TreeSize s) (p_Roots s) (f (p_RootsByTime s)) (p_LatestRoot s) (p_Nullifiers s) (p_Assets s) (p_AssetsByID s) (p_Turnstiles s) (p_DirtyDenoms s) (p_PrivateActionCount s).
Definition set_p_LatestRoot v s := Build_PoolStore (p_Params s) (p_TreeNodes s) (p_TreeSize s) (p_Roots s) (p_RootsByTime s) v (p_Nullifiers s) (p_Assets s) (p_AssetsByID s) (p_Turnstiles s) (p_DirtyDenoms s) (p_PrivateActionCount s).
Definition set_p_Nullifiers f s := Build_PoolStore (p_Params s) (p_TreeNodes s) (p_TreeSize s) (p_Roots s) (p_RootsByTime s) (p_LatestRoot s) (f (p_Nullifiers s)) (p_Assets s) (p_AssetsByID s) (p_Turnstiles s) (p_DirtyDenoms s) (p_PrivateActionCount s).
Definition set_p_Assets f s := Build_PoolStore (p_Params s) (p_TreeNodes s) (p_TreeSize s) (p_Roots s) (p_RootsByTime s) (p_LatestRoot s) (p_Nullifiers s) (f (p_Assets s)) (p_AssetsByID s) (p_Turnstiles s) (p_DirtyDenoms s) (p_PrivateActionCount s).
Definition set_p_AssetsByID f s := Build_PoolStore (p_Params s) (p_TreeNodes s) (p_TreeSize s) (p_Roots s) (p_RootsByTime s) (p_LatestRoot s) (p_Nullifiers s) (p_Assets s) (f (p_AssetsByID s)) (p_Turnstiles s) (p_DirtyDenoms s) (p_PrivateActionCount s).
Definition set_p_Turnstiles f s := Build_PoolStore (p_Params s) (p_TreeNodes s) (p_TreeSize s) (p_Roots s) (p_RootsByTime s) (p_LatestRoot s) (p_Nullifiers s) (p_Assets s) (p_AssetsByID s) (f (p_Turnstiles s)) (p_DirtyDenoms s) (p_PrivateActionCount s).
Definition set_p_DirtyDenoms f s := Build_PoolStore (p_Params s) (p_TreeNodes s) (p_TreeSize s) (p_Roots s) (p_RootsByTime s) (p_LatestRoot s) (p_Nullifiers s) (p_Assets s) (p_AssetsByID s) (p_Turnstiles s) (f (p_DirtyDenoms s)) (p_PrivateActionCount s).
Definition set_p_PrivateActionCount v s := Build_PoolStore (p_Params s) (p_TreeNodes s) (p_TreeSize s) (p_Roots s) (p_RootsByTime s) (p_LatestRoot s) (p_Nullifiers s) (p_Assets s) (p_AssetsByID s) (p_Turnstiles s) (p_DirtyDenoms s) v.

(** ** Wiring: what the modules register on the keeper *)
Record Wiring := mkWiring {
  authority : bytes;
  shieldedOnly : gset string;
  shieldedOnlyTo : gset bytes;
  shieldedOnlyPrefixes : gmap string (gset bytes);
  poolLockedPrefixes : gset string;
  excludedAssetPrefixes : gset string;
}.

(** [strings.HasPrefix(s, p)] *)
Definition HasPrefix (s p : string) : bool := String.prefix p s.

Section wiring.
Context `{Host}.

Definition PoolAddress : bytes := NewModuleAddress shielded_ModuleName.

(** [NewKeeper]'s part of the wiring. *)
Definition NewKeeper (authority : bytes) (shieldedOnlyDenoms shieldedOnlyRecipients : list string) : outcome Wiring :=
  _ ← match BytesToString authority with Ok _ => mret () | _ => Panic end;
  mret (mkWiring authority (list_to_set shieldedOnlyDenoms)
    ({[PoolAddress]} ∪ list_to_set (NewModuleAddress <$> shieldedOnlyRecipients)) ∅ ∅ ∅).

Definition RegisterPoolLockedPrefix (prefix : string) (k : Wiring) : outcome Wiring :=
  if bool_decide (prefix = "") then Panic
  else mret (mkWiring (authority k) (shieldedOnly k) (shieldedOnlyTo k) (shieldedOnlyPrefixes k)
    ({[prefix]} ∪ poolLockedPrefixes k) (excludedAssetPrefixes k)).

Definition ExcludeAssetPrefix (prefix : string) (k : Wiring) : outcome Wiring :=
  if bool_decide (prefix = "") then Panic
  else mret (mkWiring (authority k) (shieldedOnly k) (shieldedOnlyTo k) (shieldedOnlyPrefixes k)
    (poolLockedPrefixes k) ({[prefix]} ∪ excludedAssetPrefixes k)).

Definition IsExcludedAsset (k : Wiring) (denom : string) : bool :=
  existsb (HasPrefix denom) (elements (excludedAssetPrefixes k)).
Definition IsPoolLocked (k : Wiring) (denom : string) : bool :=
  existsb (HasPrefix denom) (elements (poolLockedPrefixes k)).

Definition RegisterShieldedOnlyPrefix (prefix : string) (recipientModules : list string) (k : Wiring) : outcome Wiring :=
  if bool_decide (prefix = "") then Panic
  else if existsb (λ p, HasPrefix p prefix || HasPrefix prefix p) (map_to_list (shieldedOnlyPrefixes k)).*1 then Panic
  else mret (mkWiring (authority k) (shieldedOnly k) (shieldedOnlyTo k)
    (<[prefix := {[PoolAddress]} ∪ list_to_set (NewModuleAddress <$> recipientModules)]> (shieldedOnlyPrefixes k))
    (poolLockedPrefixes k) (excludedAssetPrefixes k)).

(** The code ranges over the map in any order; prefixes do not nest, so at most one matches. *)
Definition shieldedOnlyPrefix (k : Wiring) (denom : string) : option (gset bytes) :=
  snd <$> head (filter (λ e, HasPrefix denom e.1 = true) (map_to_list (shieldedOnlyPrefixes k))).

Definition IsShieldedOnly (k : Wiring) (denom : string) : bool :=
  bool_decide (denom ∈ shieldedOnly k) || bool_decide (is_Some (shieldedOnlyPrefix k denom)).
End wiring.

(** ** What the keeper is given

    Besides the host: the curve and its bases ([Curve.v]), the proof verifier, the bank's send switch and blocked list,
    the module accounts of the app; and the type of the values private actions pass around. *)
Class PoolEnv `{Host} := {
  pool_curve :: Grumpkin;
  CurveR : Point;
  CanonicalBase : Z → outcome Point;
  proofVerifier : bytes → ProofVerifier;
  wiring : Wiring;
  AnyValue : Type;
  IsSendEnabledCoins : Coin → bank_state → outcome ();
  BlockedAddr : bytes → bool;
  (** [GetModulePermissions]: the names and addresses of the app's module accounts. *)
  ModulePermissions : list (string * bytes);
}.

Section pool.
Context `{Host, !PoolEnv}.

(** The authorization the private ante records in the context. *)
Record Authorization := mkAuthorization {
  au_key : bytes;
  au_nullifiers : gset bytes;
  au_positions : list (list Z);
  au_remaining : gmap string Z;
  au_action : option AnyValue;
  au_executed : bool;
  au_result : option AnyValue;
}.

(** What the pool reads of [sdk.Context]: block time (unix seconds) and height, chain id, the execution mode, the tx
    fields and the authorization the ante put there. *)
Record Ctx := mkCtx {
  c_Time : Z; c_Height : Z; c_ChainID : string;
  c_IsCheckTx : bool; c_IsReCheckTx : bool; c_Finalize : bool;
  c_TxFields : option TxFields;
  c_Authorization : option Authorization;
}.
Definition set_c_TxFields v c := mkCtx (c_Time c) (c_Height c) (c_ChainID c) (c_IsCheckTx c) (c_IsReCheckTx c) (c_Finalize c) v (c_Authorization c).
Definition set_c_Authorization v c := mkCtx (c_Time c) (c_Height c) (c_ChainID c) (c_IsCheckTx c) (c_IsReCheckTx c) (c_Finalize c) (c_TxFields c) v.
Definition WithBlockTime t c := mkCtx t (c_Height c) (c_ChainID c) (c_IsCheckTx c) (c_IsReCheckTx c) (c_Finalize c) (c_TxFields c) (c_Authorization c).

Record PoolState := mkPoolState { ps_ctx : Ctx; ps_store : PoolStore }.
Definition PoolWorld : Type := bank_state * PoolState.

Definition get_store {A} (f : PoolStore → A) : prog PoolWorld A := gets (λ w, f (ps_store (snd w))).
Definition set_store (f : PoolStore → PoolStore) : prog PoolWorld () :=
  modify (λ w, (fst w, mkPoolState (ps_ctx (snd w)) (f (ps_store (snd w))))).
Definition get_ctx {A} (f : Ctx → A) : prog PoolWorld A := gets (λ w, f (ps_ctx (snd w))).
Definition set_ctx (f : Ctx → Ctx) : prog PoolWorld () :=
  modify (λ w, (fst w, mkPoolState (f (ps_ctx (snd w))) (ps_store (snd w)))).
Definition pool_bank (f : bank_state → outcome bank_state) : prog PoolWorld () := λ w,
  match f (fst w) with Ok b => Ok ((), (b, snd w)) | Err e => Err e | Panic => Panic end.
Definition read_bank {A} (f : bank_state → outcome A) : prog PoolWorld A := λ w,
  match f (fst w) with Ok a => Ok (a, w) | Err e => Err e | Panic => Panic end.

(** [collections.ErrNotFound] *)
Definition collections_ErrNotFound : error := Sentinel "collections" 1.
Definition GetParams : prog PoolWorld Params :=
  p ← get_store p_Params;
  match p with Some p => mret p | None => fail collections_ErrNotFound end.

(** ** tree.go *)
#[export] Instance kvNodeStore : NodeStore TreeNodes := {|
  ns_Get level index m :=
    match m !! (Z.of_nat level, index) with
    | None => Ok None
    | Some bz => e ← FieldFromBytes bz; mret (Some e)
    end;
  ns_Set level index v m := Ok (<[(Z.of_nat level, index) := FieldBytes v]> m);
|}.

(** The note tree at its stored size, and an operation on it: its node writes go to the store. *)
Definition tree : prog PoolWorld (Tree TreeNodes) :=
  n ← get_store p_TreeNodes;
  size ← get_store p_TreeSize;
  mret (New n (default 0 size)).
Definition run_tree {A} (t : Tree TreeNodes) (op : prog (Tree TreeNodes) A) : prog PoolWorld (A * Tree TreeNodes) :=
  '(a, t') ← lift (op t);
  set_store (set_p_TreeNodes (t_store t'));;
  mret (a, t').

Definition PoolSize : prog PoolWorld Z := t ← tree; mret (Merkle.Size t).

Definition CurrentRoot : prog PoolWorld bytes :=
  t ← tree;
  '(r, _) ← run_tree t Merkle.Root;
  mret (FieldBytes r).

Definition PoolCommitment (position : Z) : prog PoolWorld bytes :=
  t ← tree;
  '(l, _) ← run_tree t (Merkle.Leaf position);
  mret (FieldBytes l).

(** [appendNote]: the ciphertext is only emitted. *)
Definition appendNote (cm : bytes) : prog PoolWorld Z :=
  leaf ← lift (wrap_error (FieldFromBytes cm) ErrInvalidNote);
  t ← tree;
  '(pos, t') ← λ w, match run_tree t (Merkle.Append leaf) w with
                    | Err e => if bool_decide (e = ErrFull) then Err ErrTreeFull else Err e
                    | r => r
                    end;
  set_store (set_p_TreeSize (Some (Merkle.Size t')));;
  mret pos.

Definition checkCapacity (n : Z) : prog PoolWorld () :=
  size ← PoolSize;
  refuse_if (Capacity <? wrap_u64 (size + n)) ErrTreeFull.

(** ** assets.go *)
Definition RegisterAsset (denom : string) : prog PoolWorld bytes :=
  refuse_if (negb (ValidateDenom denom)) (Plain "invalid denom");;
  refuse_if (IsExcludedAsset wiring denom) ErrAssetNotRegistered;;
  assets ← get_store p_Assets;
  match assets !! denom with
  | Some id => mret id
  | None =>
      let id := FieldBytes (privacy_AssetID denom) in
      byID ← get_store p_AssetsByID;
      refuse_if (bool_decide (is_Some (byID !! id))) ErrAssetNotRegistered;;
      set_store (set_p_Assets <[denom := id]>);;
      set_store (set_p_AssetsByID <[id := denom]>);;
      mret id
  end.

Definition AssetID (denom : string) : prog PoolWorld bytes :=
  assets ← get_store p_Assets;
  match assets !! denom with Some id => mret id | None => fail ErrAssetNotRegistered end.

(** ** turnstile.go *)
Definition turnstile_of (s : PoolStore) (denom : string) : Turnstile :=
  default (mkTurnstile denom 0 0) (p_Turnstiles s !! denom).
Definition turnstile (denom : string) : prog PoolWorld Turnstile := get_store (λ s, turnstile_of s denom).

Definition countIn (denom : string) (amt : Z) : prog PoolWorld () :=
  t ← turnstile denom;
  i ← lift (IntAdd (ts_In t) amt);
  set_store (set_p_Turnstiles <[denom := mkTurnstile (ts_Denom t) i (ts_Out t)]>);;
  set_store (set_p_DirtyDenoms ({[denom]} ∪.)).

Definition countOut (denom : string) (amt : Z) : prog PoolWorld () :=
  t ← turnstile denom;
  o ← lift (IntAdd (ts_Out t) amt);
  refuse_if (ts_In t <? o) ErrInvariant;;
  set_store (set_p_Turnstiles <[denom := mkTurnstile (ts_Denom t) (ts_In t) o]>);;
  set_store (set_p_DirtyDenoms ({[denom]} ∪.)).

(** [Turnstile.Held] *)
Definition Held (t : Turnstile) : outcome Z := IntSub (ts_In t) (ts_Out t).

(** ** roots.go *)
Definition windowStart (rec : RootRecord) : Z :=
  if negb (rr_SupersededAt rec =? 0) then rr_SupersededAt rec else rr_Time rec.

Definition supersede (root : bytes) (t : Z) : prog PoolWorld () :=
  roots ← get_store p_Roots;
  match roots !! root with
  | None => mret ()
  | Some rec =>
      set_store (set_p_RootsByTime (.∖ {[(windowStart rec, rr_Root rec)]}));;
      let rec := mkRootRecord (rr_Root rec) (rr_Height rec) (rr_Time rec) (rr_TreeSize rec) t in
      set_store (set_p_Roots <[rr_Root rec := rec]>);;
      set_store (set_p_RootsByTime ({[(windowStart rec, rr_Root rec)]} ∪.))
  end.

Definition putRoot (rec : RootRecord) (latest : bool) : prog PoolWorld () :=
  set_store (set_p_Roots <[rr_Root rec := rec]>);;
  set_store (set_p_RootsByTime ({[(windowStart rec, rr_Root rec)]} ∪.));;
  if latest then set_store (set_p_LatestRoot (Some (rr_Root rec))) else mret ().

Definition recordRoot : prog PoolWorld () :=
  t ← tree;
  '(r, t) ← run_tree t Merkle.Root;
  let root := FieldBytes r in
  stored ← get_store p_LatestRoot;
  let latest := default [] stored in
  if bool_decide (latest = root) then mret ()
  else
    now ← get_ctx c_Time;
    height ← get_ctx c_Height;
    (if (0 <? length latest)%nat then supersede latest now else mret ());;
    putRoot (mkRootRecord root height now (Merkle.Size t) 0) true.

(** The walk of [pruneRoots] over the by-time entries: the ones to delete. *)
Fixpoint doomed_walk (latest : bytes) (window now : Z) (limit : nat) (l : list (Z * bytes)) : list (Z * bytes) :=
  match l with
  | [] => []
  | key :: l =>
      if (limit =? 0)%nat || (now <=? wrap_i64 (fst key + wrap_i64 window)) then []
      else if bool_decide (snd key = latest) then doomed_walk latest window now limit l
      else key :: doomed_walk latest window now (limit - 1) l
  end.

Definition pruneRoots (window : Z) (limit : nat) : prog PoolWorld () :=
  now ← get_ctx c_Time;
  latest ← get_store p_LatestRoot;
  byTime ← get_store p_RootsByTime;
  for_each (doomed_walk (default [] latest) window now limit (iter_set byTime)) (λ key,
    set_store (set_p_RootsByTime (.∖ {[key]}));;
    set_store (set_p_Roots (delete (snd key)))).

(** [Anchor]: valid, and the second it expires at. *)
Definition PoolAnchor (root : bytes) : prog PoolWorld (bool * Z) :=
  roots ← get_store p_Roots;
  match roots !! root with
  | None => mret (false, 0)
  | Some rec =>
      latest ← get_store p_LatestRoot;
      if bool_decide (default [] latest = root) then mret (true, 0)
      else
        params ← GetParams;
        let expiresAt := wrap_i64 (windowStart rec + wrap_i64 (RootWindowSeconds params)) in
        now ← get_ctx c_Time;
        mret (now <=? expiresAt, expiresAt)
  end.

Definition AnchorCheckTxMarginSeconds : Z := 120.

Definition checkAnchor (root : bytes) : prog PoolWorld () :=
  '(ok, expiresAt) ← PoolAnchor root;
  refuse_if (negb ok) ErrUnknownRoot;;
  check ← get_ctx (λ c, c_IsCheckTx c || c_IsReCheckTx c);
  now ← get_ctx c_Time;
  refuse_if (check && negb (expiresAt =? 0) && (expiresAt <? wrap_i64 (now + AnchorCheckTxMarginSeconds))) ErrUnknownRoot.

(** The walk of [AnchorsValidAt] over the msg's anchors at time [t]: an error counts as invalid. *)
Fixpoint anchors_valid (roots seen : list bytes) (w : PoolWorld) : bool :=
  match roots with
  | [] => true
  | root :: roots =>
      if bool_decide (root ∈ seen) then anchors_valid roots seen w
      else
        match PoolAnchor root w with
        | Ok (true, _, _) => anchors_valid roots (root :: seen) w
        | _ => false
        end
  end.
Definition AnchorsValidAt (m : PrivateMsg) (t : Z) (w : PoolWorld) : bool :=
  anchors_valid (pm_Bundles m ≫= λ b, act_Anchor <$> bun_Actions b) []
    (fst w, mkPoolState (WithBlockTime t (ps_ctx (snd w))) (ps_store (snd w))).
End pool.
