(* ===== verification/ShieldedNotes.v ===== *)
(** * x/shielded: minting, releasing and authorizing

    [x/shielded/keeper/authorization.go], [notes.go] and [send_restriction.go].  The context value that marks a deposit of the
    keeper's own is the argument [deposit] of [checkSend]; events are not modelled. *)

From S2P Require Export ShieldedStore.

Section notes.
Context `{Host, !PoolEnv}.
Abbreviation P := (prog PoolWorld).

(** ** authorization.go *)
Definition msgKey (m : PrivateMsg) : outcome bytes :=
  bz ← pm_Bytes m;
  mret (sha256 bz).

Definition AuthorizeMsg (m : PrivateMsg) (positions : list (list Z)) : P () :=
  key ← lift (msgKey m);
  rem ← lift (Remainders m);
  let a := mkAuthorization key (list_to_set (pm_Bundles m ≫= Nullifiers)) positions
             (list_to_map ((λ r, (Denom r, Amount r)) <$> rem)) None false None in
  set_ctx (set_c_Authorization (Some a)).

Definition authorizedFor (m : PrivateMsg) : P Authorization :=
  a ← get_ctx c_Authorization;
  match a with
  | None => fail ErrUnauthorized
  | Some a =>
      key ← lift (msgKey m);
      refuse_if (negb (bool_decide (key = au_key a))) ErrUnauthorized;;
      mret a
  end.

Definition AuthorizedNullifiers (nfs : list bytes) (w : PoolWorld) : bool :=
  match c_Authorization (ps_ctx (snd w)) with
  | None => false
  | Some a => negb (length nfs =? 0)%nat && forallb (λ nf, bool_decide (nf ∈ au_nullifiers a)) nfs
  end.

Definition au_set_action v a := mkAuthorization (au_key a) (au_nullifiers a) (au_positions a) (au_remaining a) v (au_executed a) (au_result a).
Definition au_set_result v a := mkAuthorization (au_key a) (au_nullifiers a) (au_positions a) (au_remaining a) (au_action a) true v.
Definition au_set_remaining f a := mkAuthorization (au_key a) (au_nullifiers a) (au_positions a) (f (au_remaining a)) (au_action a) (au_executed a) (au_result a).

Definition WithAuthorizedAction (prepared : option AnyValue) : P () :=
  set_ctx (λ c, set_c_Authorization (au_set_action prepared <$> c_Authorization c) c).
Definition withExecutedAction (result : option AnyValue) : P () :=
  set_ctx (λ c, set_c_Authorization (au_set_result result <$> c_Authorization c) c).

Definition AuthorizedAction (m : PrivateMsg) : P AnyValue :=
  a ← authorizedFor m;
  match au_action a with None => fail ErrUnauthorized | Some v => mret v end.

Definition AuthorizedResult (m : PrivateMsg) : P (option AnyValue * bool) :=
  a ← authorizedFor m;
  match au_action a with None => fail ErrUnauthorized | Some _ => mret (au_result a, au_executed a) end.

Definition AuthorizedPositions (m : PrivateMsg) : P (list (list Z)) :=
  a ← authorizedFor m;
  mret (au_positions a).

(** [release]: the whole of what the msg released of [denom], once. *)
Definition release (m : PrivateMsg) (denom : string) : P Coin :=
  a ← authorizedFor m;
  match au_remaining a !! denom with
  | None => fail ErrReleaseMap
  | Some v =>
      refuse_if (v =? 0) ErrAlreadyReleased;;
      set_ctx (λ c, set_c_Authorization (au_set_remaining <[denom := 0]> <$> c_Authorization c) c);;
      lift (NewCoin denom v)
  end.

(** [CarryAuthorization] *)
Definition CarryAuthorization (to_ from : Ctx) : Ctx :=
  match c_Authorization from with Some a => set_c_Authorization (Some a) to_ | None => to_ end.

(** ** notes.go *)
Definition notThePool (module : string) : outcome () :=
  refuse (bool_decide (module = shielded_ModuleName)) ErrUnauthorized.

(** The checks on a public-value note that [noteFor] and [MintOpenNote] share, and its asset. *)
Definition note_asset (coin : Coin) : P Z :=
  id ← AssetID (Denom coin);
  lift (FieldFromBytes id).

Definition noteFor (coin : Coin) (pc ciphertext : bytes) : P bytes :=
  refuse_if (negb (CoinIsValid coin) || negb (FitsNote (Amount coin))) ErrInvalidNote;;
  pcEl ← lift (wrap_error (FieldFromBytes pc) ErrInvalidNote);
  lift (wrap_error (CheckBlindCiphertext ciphertext) ErrInvalidNote);;
  asset ← note_asset coin;
  mret (FieldBytes (CM asset (wrap_u64 (Amount coin)) pcEl)).

Definition CheckMint (pc ciphertext : bytes) : P () :=
  _ ← lift (wrap_error (FieldFromBytes pc) ErrInvalidNote);
  lift (wrap_error (CheckBlindCiphertext ciphertext) ErrInvalidNote);;
  checkCapacity (MaxBundlesPerMsg * Z.of_nat MaxActions + 1).

Definition depositNote (coin : Coin) (cm : bytes) : P Z :=
  countIn (Denom coin) (Amount coin);;
  appendNote cm.

(** [SendCoinsFromModuleToModule] of one coin. *)
Definition send_m2m (from to_ : string) (coin : Coin) : P () :=
  cs ← lift (NewCoins [coin]);
  pool_bank (SendCoinsFromModuleToModule from to_ cs).

Definition MintNote (fromModule : string) (coin : Coin) (pc ciphertext : bytes) : P (Z * bytes) :=
  lift (notThePool fromModule);;
  read_bank (IsSendEnabledCoins coin);;
  cm ← noteFor coin pc ciphertext;
  checkCapacity 1;;
  send_m2m fromModule shielded_ModuleName coin;;
  pos ← depositNote coin cm;
  mret (pos, cm).

(** The loop of [MintNoteSplit]. *)
Fixpoint mint_all (fromModule denom : string) (pc ciphertext : bytes) (values : list Z) : P (list Z) :=
  match values with
  | [] => mret []
  | v :: values =>
      coin ← lift (NewCoin denom v);
      '(pos, _) ← MintNote fromModule coin pc ciphertext;
      positions ← mint_all fromModule denom pc ciphertext values;
      mret (pos :: positions)
  end.

Definition MintNoteSplit (fromModule : string) (coin : Coin) (pc ciphertext : bytes) : P (list Z) :=
  values ← lift (wrap_error (SplitNoteValues (Amount coin)) ErrInvalidNote);
  checkCapacity (Z.of_nat (length values));;
  mint_all fromModule (Denom coin) pc ciphertext values.

Definition MintOpenNote (fromModule : string) (coin : Coin) (ownerPK rho rcm : Z) : P (Z * bytes) :=
  lift (notThePool fromModule);;
  read_bank (IsSendEnabledCoins coin);;
  refuse_if (negb (CoinIsValid coin) || negb (FitsNote (Amount coin))) ErrInvalidNote;;
  asset ← note_asset coin;
  let cm := FieldBytes (CM asset (wrap_u64 (Amount coin)) (PC ownerPK rho rcm)) in
  checkCapacity 1;;
  send_m2m fromModule shielded_ModuleName coin;;
  pos ← depositNote coin cm;
  mret (pos, cm).

Definition Shield (sender : bytes) (coin : Coin) (pc ciphertext : bytes) : P (Z * bytes) :=
  read_bank (IsSendEnabledCoins coin);;
  cm ← noteFor coin pc ciphertext;
  checkCapacity 1;;
  cs ← lift (NewCoins [coin]);
  pool_bank (SendCoinsFromAccountToModule sender shielded_ModuleName cs);;
  pos ← depositNote coin cm;
  mret (pos, cm).

(** The two loops of [executeBundle]. *)
Definition spend (nf : bytes) : P () :=
  spent ← get_store (λ s, bool_decide (nf ∈ p_Nullifiers s));
  refuse_if spent ErrNullifierSpent;;
  set_store (set_p_Nullifiers ({[nf]} ∪.)).
Fixpoint append_all (cms : list bytes) : P (list Z) :=
  match cms with
  | [] => mret []
  | cm :: cms =>
      pos ← appendNote cm;
      positions ← append_all cms;
      mret (pos :: positions)
  end.

Definition executeBundle (b : Bundle) : P (list Z) :=
  for_each (Nullifiers b) spend;;
  append_all (act_Commitment <$> bun_Actions b).

Definition payFee (fee : Z) : P () :=
  refuse_if (negb (0 <? fee)) ErrReleaseMap;;
  c ← lift (NewCoin FeeDenom fee);
  send_m2m shielded_ModuleName FeeCollectorName c;;
  countOut FeeDenom fee.

(** One remainder paid to the receiver. *)
Definition unshield_one (m : PrivateMsg) (receiver : bytes) (r : Coin) : P () :=
  coin ← release m (Denom r);
  cs ← lift (NewCoins [coin]);
  pool_bank (SendCoinsFromModuleToAccount shielded_ModuleName receiver cs);;
  countOut (Denom coin) (Amount coin).
Definition unshield (m : PrivateMsg) (receiver : bytes) : P () :=
  rem ← lift (Remainders m);
  for_each rem (unshield_one m receiver).

Definition ReleaseToModule (m : PrivateMsg) (denom targetModule : string) : P Coin :=
  lift (notThePool targetModule);;
  z ← lift (NewCoin denom 0);
  read_bank (IsSendEnabledCoins z);;
  coin ← release m denom;
  send_m2m shielded_ModuleName targetModule coin;;
  countOut (Denom coin) (Amount coin);;
  mret coin.

(** ** send_restriction.go *)
Definition checkSend (deposit : bool) (from to_ : bytes) (amt : Coins) : outcome () :=
  _ ← refuse (bool_decide (to_ = PoolAddress) && negb deposit) ErrSendRestricted;
  _ ← refuse (existsb (λ c, match shieldedOnlyPrefix wiring (Denom c) with
                            | Some allowed => negb (bool_decide (to_ ∈ allowed))
                            | None => false
                            end) amt) ErrSendRestricted;
  if bool_decide (to_ ∈ shieldedOnlyTo wiring) then mret ()
  else refuse (existsb (λ c, bool_decide (Denom c ∈ shieldedOnly wiring)) amt) ErrSendRestricted.

Definition SendRestriction (deposit : bool) (from to_ : bytes) (amt : Coins) : outcome bytes :=
  _ ← checkSend deposit from to_ amt;
  mret to_.

Definition checkUnshield (coin : Coin) (receiver : bytes) : P () :=
  refuse_if (IsPoolLocked wiring (Denom coin)) ErrSendRestricted;;
  refuse_if (BlockedAddr receiver) ErrSendRestricted;;
  refuse_if (existsb (λ m, bool_decide (m.2 = receiver)) ModulePermissions) ErrSendRestricted;;
  read_bank (IsSendEnabledCoins coin);;
  cs ← lift (NewCoins [coin]);
  lift (checkSend false PoolAddress receiver cs).
End notes.
