(* ===== verification/ShieldedPrivate.v ===== *)
(** * x/shielded: the private ante's steps, the block end and the msg server

    [x/shielded/keeper/private.go] with the action interface of [types/action.go], [abci.go], [invariants.go] and [msg_server.go].
    A private action of another module works on more state than the pool's: the ante's steps run on the pool's
    world next to the rest of the chain's state, [Rest]. *)

From S2P Require Export ShieldedNotes.

Section keeper.
Context `{Host, !PoolEnv}.
Abbreviation P := (prog PoolWorld).

(** ** abci.go and invariants.go *)
Definition checkDenom (denom : string) : P () :=
  t ← turnstile denom;
  held ← gets (λ w, GetBalance (fst w) PoolAddress denom);
  h ← lift (Held t);
  refuse_if (negb (held =? h)) ErrInvariant.

Definition AssertInvariants : P () :=
  turnstiles ← get_store p_Turnstiles;
  for_each (iter_keys turnstiles) checkDenom;;
  held ← gets (λ w, GetAllBalances (fst w) PoolAddress);
  for_each held (λ c, refuse_if (bool_decide (turnstiles !! Denom c = None)) ErrInvariant).

Definition assertMoved : P () :=
  denoms ← get_store (λ s, iter_set (p_DirtyDenoms s));
  for_each denoms (λ d,
    checkDenom d;;
    set_store (set_p_DirtyDenoms (.∖ {[d]}))).

Definition EndBlocker : P () :=
  recordRoot;;
  params ← GetParams;
  pruneRoots (RootWindowSeconds params) RootPruneLimit;;
  set_store (set_p_PrivateActionCount None);;
  assertMoved.

(** ** msg_server.go *)
Definition checkAuthority (auth : string) : outcome () :=
  a ← StringToBytes auth;
  refuse (negb (bool_decide (authority wiring = a))) shielded_ErrInvalidSigner.

Definition UpdateParams (auth : string) (params : Params) : P () :=
  lift (checkAuthority auth);;
  lift (Validate params);;
  set_store (set_p_Params (Some params)).

Definition MsgServer_RegisterAsset (req : MsgRegisterAsset) : P bytes :=
  lift (checkAuthority (ra_Authority req));;
  RegisterAsset (ra_Denom req).

Definition MsgServer_Shield (m : MsgShield) : P (Z * bytes) :=
  sender ← lift (StringToBytes (sh_Sender m));
  Shield sender (sh_Amount m) (sh_Pc m) (sh_Ciphertext m).

Definition Send (m : MsgSend) : P (list Z) :=
  positions ← AuthorizedPositions (MsgSend_private m);
  mret (default [] (head positions)).

(** ** private.go: counting, fees, proofs *)
Definition CountPrivateActions (n : Z) : P () :=
  params ← GetParams;
  c ← get_store (λ s, default 0 (p_PrivateActionCount s));
  refuse_if (MaxPrivateActionsPerBlock params <? wrap_u64 (c + n)) ErrBlockCap;;
  set_store (set_p_PrivateActionCount (Some (wrap_u64 (c + n)))).

Definition GetMinFee : P Coin :=
  params ← GetParams;
  lift (NewCoin FeeDenom (if 0 <? MinFee params then MinFee params else 1)).

(** [verifyProof]: in CheckTx the code remembers the proofs it saw verify, which changes what is run and not what is
    answered by a verifier that is a function. *)
Definition verifyProof (vk : bytes) : ProofVerifier := proofVerifier vk.

Definition VerifyCircuit (circuit : string) (proof : bytes) (publicInputs : list bytes) : P () :=
  params ← GetParams;
  match VerifyingKeys params !! circuit with
  | None | Some [] => fail ErrMissingVerifyingKey
  | Some vk =>
      lift (wrap_error (CheckProofLength proof) ErrInvalidProof);;
      ok ← lift (wrap_error (verifyProof vk proof publicInputs) ErrInvalidProof);
      refuse_if (negb ok) ErrInvalidProof
  end.

Definition PrivateGasPrices : P (Z * Z) :=
  params ← GetParams;
  mret (ProofVerificationGas params, NoteGas params).

(** ** action.go *)
Context (Rest : Type).
Definition World : Type := PoolWorld * Rest.
Abbreviation W := (prog World).

(** A call of the pool. *)
Definition pool {A} (p : P A) : W A := λ w,
  match p (fst w) with Ok (a, w') => Ok (a, (w', snd w)) | Err e => Err e | Panic => Panic end.

(** [PrivateActionHandler] and, where the handler implements it, [PrivateActionExecutor].  What must not write is a
    function of the state. *)
Record PrivateActionHandler := {
  PrivateActionGas : PrivateMsg → World → outcome Z;
  CheckPrivateAction : PrivateMsg → World → outcome (option AnyValue);
  VerifyPrivateAction : PrivateMsg → option AnyValue → World → outcome ();
  ReleasedDenoms : PrivateMsg → outcome (list string);
  Executor : option ((PrivateMsg → bool) * (PrivateMsg → option AnyValue → W (option AnyValue)));
}.

(** [k.actions] *)
Variable actions : gmap string PrivateActionHandler.

(** [RegisterPrivateAction] *)
Definition RegisterPrivateAction (msgTypeURL : string) (h : PrivateActionHandler)
    (actions : gmap string PrivateActionHandler) : outcome (gmap string PrivateActionHandler) :=
  if bool_decide (is_Some (actions !! msgTypeURL)) then Panic else mret (<[msgTypeURL := h]> actions).

Definition PrivateAction (m : PrivateMsg) : option PrivateActionHandler := actions !! pm_TypeURL m.

(** ** private.go: checks *)

(** The anchors of the msg's actions, each checked once. *)
Fixpoint check_anchors (roots valid : list bytes) : P () :=
  match roots with
  | [] => mret ()
  | root :: roots =>
      if bool_decide (root ∈ valid) then check_anchors roots valid
      else checkAnchor root;; check_anchors roots (root :: valid)
  end.

Definition check_spends (b : Bundle) : P () :=
  for_each (Nullifiers b) (λ nf,
    spent ← get_store (λ s, bool_decide (nf ∈ p_Nullifiers s));
    refuse_if spent ErrNullifierSpent);;
  for_each (bun_Balances b) (λ bal, _ ← AssetID (bal_Denom bal); mret ()).

(** The release map of an unshield, and of a msg with an action: exactly the declared denoms are released. *)
Definition check_unshield_map (rem : list Coin) (recv : outcome (option bytes)) : P () :=
  recv ← lift recv;
  refuse_if (negb (eqb (bool_decide (recv = None)) (length rem =? 0)%nat)) ErrReleaseMap;;
  for_each rem (λ r,
    coin ← lift (NewCoin (Denom r) (Amount r));
    checkUnshield coin (default [] recv)).
Definition check_action_map (rem : list Coin) (declared : list string) : P () :=
  for_each rem (λ r,
    refuse_if (negb (bool_decide (Denom r ∈ declared))) ErrReleaseMap;;
    coin ← lift (NewCoin (Denom r) (Amount r));
    read_bank (IsSendEnabledCoins coin));;
  for_each declared (λ d, refuse_if (negb (bool_decide (d ∈ Denom <$> rem))) ErrReleaseMap).

Definition checkReleaseMap (m : PrivateMsg) : P () :=
  rem ← lift (Remainders m);
  match pm_UnshieldReceiver m with
  | Some recv => check_unshield_map rem recv
  | None =>
      match PrivateAction m with
      | None => refuse_if (negb (length rem =? 0)%nat) ErrReleaseMap
      | Some h => declared ← lift (ReleasedDenoms h m); check_action_map rem declared
      end
  end.

Record PreparedPrivateMsg := mkPrepared { pp_Bundles : list Orchard.Bundle; pp_Sighash : Z }.

(** [SighashOf]: outside a private tx there are no tx fields. *)
Definition SighashOf (m : PrivateMsg) : P Z :=
  f ← get_ctx c_TxFields;
  chainID ← get_ctx c_ChainID;
  match f with
  | None => fail ErrUnauthorized
  | Some f => lift (MsgSighash m chainID f)
  end.

(** The bundle size cap of the params. *)
Definition check_sizes (m : PrivateMsg) : P () :=
  params ← GetParams;
  for_each (pm_Bundles m) (λ b,
    refuse_if (MaxActionsPerBundle params <? Z.of_nat (length (bun_Actions b))) ErrInvalidBundle).

Definition CheckPrivateMsg (m : PrivateMsg) : P PreparedPrivateMsg :=
  check_sizes m;;
  check_anchors (pm_Bundles m ≫= λ b, act_Anchor <$> bun_Actions b) [];;
  for_each (pm_Bundles m) check_spends;;
  checkCapacity (ActionCount m + 1);;
  checkReleaseMap m;;
  sighash ← SighashOf m;
  bs ← lift (mapM ToOrchard (pm_Bundles m));
  mret (mkPrepared bs sighash).

(** [VerifyPrivateMsg]: in a block the proofs run in parallel, in CheckTx one at a time; either way the first failure in
    order is reported ([Orchard.parallel_verification_deterministic]). *)
Definition VerifyPrivateMsg (p : PreparedPrivateMsg) : P () :=
  params ← GetParams;
  match VerifyingKeys params !! CircuitAction with
  | None | Some [] => fail ErrMissingVerifyingKey
  | Some vk =>
      for_each (pp_Bundles p) (λ b,
        lift (wrap_error (CheckBalance CurveR b (pp_Sighash p) CanonicalBase) ErrInvalidBindingSig));;
      refuse_if (bool_decide (is_Some (VerifyProofsSequential (pp_Bundles p) (pp_Sighash p) (verifyProof vk))))
        ErrInvalidProof
  end.

(** ** private.go: execution *)
Fixpoint execute_bundles (bs : list Bundle) : P (list (list Z)) :=
  match bs with
  | [] => mret []
  | b :: bs =>
      pos ← executeBundle b;
      positions ← execute_bundles bs;
      mret (pos :: positions)
  end.

Definition ExecutePrivateMsg (m : PrivateMsg) : P () :=
  positions ← execute_bundles (pm_Bundles m);
  (if 0 <? pm_Fee m then payFee (pm_Fee m) else mret ());;
  AuthorizeMsg m positions;;
  match pm_UnshieldReceiver m with
  | None => mret ()
  | Some recv =>
      recv ← lift recv;
      match recv with None => mret () | Some receiver => unshield m receiver end
  end.

Definition ExecutePrivateAction (m : PrivateMsg) (prepared : option AnyValue) : W () :=
  match PrivateAction m with
  | Some {| Executor := Some (executesInAnte, execute) |} =>
      if executesInAnte m then
        result ← execute m prepared;
        pool (withExecutedAction result)
      else mret ()
  | _ => mret ()
  end;;
  a ← pool (get_ctx c_Authorization);
  refuse_if (bool_decide (a = None)) ErrUnauthorized.
End keeper.
