(* ===== verification/ShieldedAnte.v ===== *)
(** * x/shielded: the private ante

    [x/shielded/ante/ante.go] and [guards.go]: the router that sends a tx with a private msg down its own chain, and the
    decorators of that chain.  A decorator is its own step; the code's [next] call is the composition of the steps.  The
    out-of-gas panic of the gas meter is the error the outermost decorator turns it into. *)

From S2P Require Export ShieldedPrivate.

(** ** Txs *)
Inductive TxMsg :=
| PrivateTxMsg (m : PrivateMsg)
| OtherMsg (typeURL : string) (value : bytes).

Record TxFee := { fee_Amount : Coins; fee_GasLimit : Z; fee_Payer : string; fee_Granter : string }.
Record TxBody := {
  body_Memo : string; body_TimeoutHeight : Z; body_Unordered : bool; body_TimeoutTimestamp : option bytes;
  body_ExtensionOptions : list bytes; body_NonCriticalExtensionOptions : list bytes;
}.
Record AuthInfo := { ai_SignerInfos : list bytes; ai_Fee : option TxFee; ai_Tip : option bytes }.
(** The decoded tx: [GetMsgs] and [GetProtoTx]. *)
Record Tx := {
  tx_Msgs : list TxMsg;
  tx_Body : option TxBody;
  tx_AuthInfo : option AuthInfo;
  tx_Signatures : list bytes;
}.

Definition MaxGasWanted : Z := 2 ^ 63 - 1.

(** x/auth's sentinel errors. *)
Definition sdk_error (code : Z) : error := Sentinel "sdk" code.
Definition sdkErrTxDecode := sdk_error 2.
Definition sdkErrUnauthorized := sdk_error 4.
Definition sdkErrOutOfGas := sdk_error 11.
Definition sdkErrInsufficientFee := sdk_error 13.
Definition sdkErrInvalidRequest := sdk_error 18.
Definition sdkErrTxTimeoutHeight := sdk_error 30.
Definition sdkErrPanic : error := Sentinel "undefined" 111222.

Definition is_private (m : TxMsg) : bool := match m with PrivateTxMsg _ => true | OtherMsg _ _ => false end.
Definition countPrivate (tx : Tx) : nat := length (filter (λ m, is_private m = true) (tx_Msgs tx)).

(** [tx.GetMsgs()[0].(types.PrivateMsg)]; the index and the type assertion panic. *)
Definition private_msg (tx : Tx) : outcome PrivateMsg :=
  match tx_Msgs tx with PrivateTxMsg m :: _ => Ok m | _ => Panic end.

Section ante.
Context `{Host, !PoolEnv} (Rest : Type) (actions : gmap string (PrivateActionHandler Rest)).

(** What a decorator reads and writes of the context, besides the pool's part: the tx's bytes, the gas meter, the
    node's minimum gas price in uerth (a [LegacyDec]) and the priority. *)
Record AnteState := mkAnteState {
  an_World : World Rest;
  an_TxBytes : bytes;
  an_GasConsumed : Z; an_GasMeterLimit : Z;
  an_MinGasPrice : Z;
  an_Priority : Z;
}.
Definition set_an_World v s := mkAnteState v (an_TxBytes s) (an_GasConsumed s) (an_GasMeterLimit s) (an_MinGasPrice s) (an_Priority s).
Definition set_an_Gas v s := mkAnteState (an_World s) (an_TxBytes s) v (an_GasMeterLimit s) (an_MinGasPrice s) (an_Priority s).
Definition set_an_Priority v s := mkAnteState (an_World s) (an_TxBytes s) (an_GasConsumed s) (an_GasMeterLimit s) (an_MinGasPrice s) v.
Abbreviation A := (prog AnteState).

Definition on_world {X} (p : prog (World Rest) X) : A X := λ s,
  match p (an_World s) with Ok (x, w) => Ok (x, set_an_World w s) | Err e => Err e | Panic => Panic end.
Definition on_pool {X} (p : prog PoolWorld X) : A X := on_world (pool Rest p).
Definition ctx_of (s : AnteState) : Ctx := ps_ctx (snd (fst (an_World s))).

Definition IsReCheckTx : A bool := gets (λ s, c_IsReCheckTx (ctx_of s)).

(** [GasMeter.ConsumeGas] *)
Definition ConsumeGas (amount : Z) : A () :=
  used ← gets an_GasConsumed;
  limit ← gets an_GasMeterLimit;
  refuse_if (2 ^ 64 - 1 <? used + amount) sdkErrOutOfGas;;
  modify (set_an_Gas (used + amount));;
  refuse_if (limit <? used + amount) sdkErrOutOfGas.

(** ** The router *)
Definition NewRouter (normal private_ : Tx → bool → A ()) (tx : Tx) (simulate : bool) : A () :=
  let n := countPrivate tx in
  if (n =? 0)%nat then normal tx simulate
  else
    refuse_if (negb (n =? 1)%nat || negb (length (tx_Msgs tx) =? 1)%nat) sdkErrInvalidRequest;;
    refuse_if (match tx_AuthInfo tx with
               | None => true
               | Some ai => negb (length (tx_Signatures tx) =? 0)%nat || negb (length (ai_SignerInfos ai) =? 0)%nat
               end) sdkErrUnauthorized;;
    private_ tx simulate.

(** ** guards.go *)

(** [RecoverDecorator] around the rest of the chain. *)
Definition Recover (next : A ()) : A () := λ s,
  match next s with Panic => Err sdkErrPanic | r => r end.

Definition ExpiredTimeout (tx : Tx) : A () :=
  ctx ← gets ctx_of;
  let th := match tx_Body tx with Some b => body_TimeoutHeight b | None => 0 end in
  refuse_if ((c_IsCheckTx ctx || c_IsReCheckTx ctx) && negb (th =? 0) && (0 <=? c_Height ctx) && (th <=? c_Height ctx))
    sdkErrTxTimeoutHeight.

(** ** The shape of a private tx *)
Definition msg_any (m : TxMsg) : outcome ProtoValue :=
  match m with
  | PrivateTxMsg m => v ← wrap_error (pm_Bytes m) sdkErrTxDecode; mret (PV_message [PV_string (pm_TypeURL m); PV_bytes v])
  | OtherMsg t v => mret (PV_message [PV_string t; PV_bytes v])
  end.

(** The one canonical encoding of a tx. *)
Definition canonical_encoding (tx : Tx) (body : TxBody) (ai : AuthInfo) : outcome bytes :=
  msgs ← mapM msg_any (tx_Msgs tx);
  bodyBz ← wrap_error (proto_Marshal "cosmos.tx.v1beta1.TxBody" (PV_message [PV_message msgs; PV_string (body_Memo body);
    PV_uint64 (body_TimeoutHeight body); PV_uint64 (if body_Unordered body then 1 else 0);
    PV_message (PV_bytes <$> option_list (body_TimeoutTimestamp body));
    PV_message (PV_bytes <$> body_ExtensionOptions body); PV_message (PV_bytes <$> body_NonCriticalExtensionOptions body)]))
    sdkErrTxDecode;
  authBz ← wrap_error (proto_Marshal "cosmos.tx.v1beta1.AuthInfo" (PV_message [PV_message (PV_bytes <$> ai_SignerInfos ai);
    PV_message ((λ f : TxFee, PV_message [PV_message ((λ c : Coin, PV_message [PV_string (Denom c); PV_string (pretty (Amount c))]) <$> fee_Amount f);
      PV_uint64 (fee_GasLimit f); PV_string (fee_Payer f); PV_string (fee_Granter f)]) <$> option_list (ai_Fee ai));
    PV_message (PV_bytes <$> option_list (ai_Tip ai))]))
    sdkErrTxDecode;
  wrap_error (proto_Marshal "cosmos.tx.v1beta1.TxRaw" (PV_message [PV_bytes bodyBz; PV_bytes authBz])) sdkErrTxDecode.

Definition requireCanonicalEncoding (tx : Tx) (body : TxBody) (ai : AuthInfo) : A () :=
  raw ← gets an_TxBytes;
  if (length raw =? 0)%nat then mret ()
  else
    canonical ← lift (canonical_encoding tx body ai);
    refuse_if (negb (bool_decide (raw = canonical))) sdkErrTxDecode.

(** [Coins.IsValid] and [Coins.Equal] *)
Fixpoint coins_sorted (l : Coins) : bool :=
  match l with
  | x :: ((y :: _) as l') => bool_decide (String.compare (Denom x) (Denom y) = Lt) && coins_sorted l'
  | _ => true
  end.
Definition CoinsIsValid (cs : Coins) : bool :=
  forallb (λ c, ValidateDenom (Denom c) && (0 <? Amount c)) cs && coins_sorted cs.
Definition CoinsEqual (a b : Coins) : bool := bool_decide (a = b).

(** [p.Body == nil || p.AuthInfo == nil || p.AuthInfo.Fee == nil] *)
Definition tx_parts (tx : Tx) : outcome (TxBody * AuthInfo * TxFee) :=
  match tx_Body tx, tx_AuthInfo tx with
  | Some body, Some ai => match ai_Fee ai with Some fee => mret (body, ai, fee) | None => Err sdkErrInvalidRequest end
  | _, _ => Err sdkErrInvalidRequest
  end.

Definition ValidateTx (tx : Tx) : A () :=
  recheck ← IsReCheckTx;
  if recheck : bool then mret ()
  else
    parts ← lift (tx_parts tx);
    let '(body, ai, fee) := parts in
    refuse_if (MaxGasWanted <? fee_GasLimit fee) sdkErrInvalidRequest;;
    refuse_if (negb (bool_decide (fee_Payer fee = "")) || negb (bool_decide (fee_Granter fee = ""))) sdkErrInvalidRequest;;
    refuse_if (negb (length (body_ExtensionOptions body) =? 0)%nat ||
               negb (length (body_NonCriticalExtensionOptions body) =? 0)%nat) sdkErrInvalidRequest;;
    refuse_if (body_Unordered body) sdkErrInvalidRequest;;
    refuse_if (negb (bool_decide (ai_Tip ai = None))) sdkErrInvalidRequest;;
    requireCanonicalEncoding tx body ai;;
    refuse_if (negb (bool_decide (body_TimeoutTimestamp body = None))) sdkErrInvalidRequest;;
    let declared := fee_Amount fee in
    refuse_if (negb (CoinsIsValid declared) && negb (length declared =? 0)%nat) sdkErrInsufficientFee;;
    m ← lift (private_msg tx);
    lift (ValidateBundles m);;
    c ← lift (NewCoin FeeDenom (TotalFee m));
    want ← lift (NewCoins [c]);
    refuse_if (negb (CoinsEqual declared want)) sdkErrInvalidRequest.

(** ** [PrivateMsgDecorator] *)

(** The gas: the fixed price of the bundles and of the action, and the ceiling on what the tx may claim. *)
Definition charge_private_gas (m : PrivateMsg) (gasLimit : Z) (simulate : bool) : A () :=
  params ← on_pool GetParams;
  on_pool (check_sizes m);;
  ConsumeGas (PrivateMsgGas params (pm_Bundles m));;
  match PrivateAction Rest actions m with
  | None => mret ()
  | Some h => w ← gets an_World; g ← lift (PrivateActionGas _ h m w); ConsumeGas g
  end;;
  used ← gets an_GasConsumed;
  refuse_if (negb simulate && (PrivateGasCeiling used <? gasLimit)) sdkErrInvalidRequest.

(** The block's cap, the fee floor and the node's minimum gas price. *)
Definition check_fee (m : PrivateMsg) (gas : Z) (simulate : bool) : A () :=
  ctx ← gets ctx_of;
  (if c_Finalize ctx then on_pool (CountPrivateActions (ActionCount m)) else mret ());;
  let amt := TotalFee m in
  minFee ← on_pool GetMinFee;
  refuse_if (amt <? Amount minFee) sdkErrInsufficientFee;;
  price ← gets an_MinGasPrice;
  if c_IsCheckTx ctx && negb simulate && (0 <? price) then
    d ← lift (DecMulInt64 price (wrap_i64 gas));
    d ← lift (DecCeil d);
    req ← lift (DecTruncateInt d);
    refuse_if (amt <? req) sdkErrInsufficientFee
  else mret ().

(** The state checks, then the proofs. *)
Definition check_and_verify (m : PrivateMsg) (simulate : bool) : A (option AnyValue) :=
  prepared ← on_pool (CheckPrivateMsg Rest actions m);
  let action := PrivateAction Rest actions m in
  w ← gets an_World;
  actionPrepared ← lift (match action with None => Ok None | Some h => CheckPrivateAction _ h m w end);
  recheck ← IsReCheckTx;
  (if (recheck || simulate) then mret ()
   else
     lift (match action with None => Ok () | Some h => VerifyPrivateAction _ h m actionPrepared w end);;
     on_pool (VerifyPrivateMsg prepared));;
  mret actionPrepared.

Definition execute_private (m : PrivateMsg) (actionPrepared : option AnyValue) : A () :=
  on_pool (ExecutePrivateMsg m);;
  (if bool_decide (is_Some (PrivateAction Rest actions m)) then on_pool (WithAuthorizedAction actionPrepared) else mret ());;
  on_world (ExecutePrivateAction Rest actions m actionPrepared).

(** The priority: fee / gas, capped to an [int64]. *)
Definition set_priority (amt gas : Z) : A () :=
  if 0 <? gas then
    prio ← lift (IntQuo amt gas);
    modify (set_an_Priority (if (prio <? - 2 ^ 63) || (2 ^ 63 - 1 <? prio) then 2 ^ 63 - 1 else prio))
  else mret ().

Definition PrivateMsgDecorator (tx : Tx) (simulate : bool) : A () :=
  m ← lift (private_msg tx);
  parts ← lift (tx_parts tx);
  let '(body, _, fee) := parts in
  on_pool (set_ctx (set_c_TxFields (Some (mkTxFields (body_Memo body) (body_TimeoutHeight body) (fee_GasLimit fee)))));;
  charge_private_gas m (fee_GasLimit fee) simulate;;
  check_fee m (fee_GasLimit fee) simulate;;
  actionPrepared ← check_and_verify m simulate;
  execute_private m actionPrepared;;
  set_priority (TotalFee m) (fee_GasLimit fee).

(** The private chain ([app/ante.go]), around the SDK's own decorators, which are arguments: the simulation gas limit and the
    circuit breaker, the timeout height, the memo and the gas for the tx's size. *)
Definition private_ante (limits timeout size : Tx → bool → A ()) (tx : Tx) (simulate : bool) : A () :=
  Recover (limits tx simulate;; ValidateTx tx;; timeout tx simulate;; ExpiredTimeout tx;; size tx simulate;;
           PrivateMsgDecorator tx simulate).

(** [RejectFeeDenomsDecorator], on the normal chain. *)
Definition RejectFeeDenoms (denoms : list string) (tx : Tx) : A () :=
  let fees := match tx_AuthInfo tx with Some ai => match ai_Fee ai with Some f => fee_Amount f | None => [] end | None => [] end in
  refuse_if (existsb (λ c, bool_decide (Denom c ∈ denoms)) fees) sdkErrInvalidRequest.
End ante.
