(* ===== verification/ShieldedInv.v ===== *)
(** * x/shielded: the pool's invariant and how its operations keep it

    The pool is sound when, for every denom, its account holds exactly what the turnstile says ([turnstiles_ok]), the note tree
    is the tree of the notes appended so far ([notes_rep]) and the asset registry maps a denom to its id.  Each
    operation is shown to keep it, and what it does to the nullifiers and the notes. *)

From S2P Require Export ShieldedPrivate.

(** ** The node store is a lawful one *)
#[export, refine] Instance kvNodeStore_laws : NodeStoreLaws TreeNodes := {|
  ns_rep s m := ∀ level i, s !! (Z.of_nat level, i) = FieldBytes <$> m !! (level, i) ∧ (∀ v, m !! (level, i) = Some v → is_fr v);
|}.
Proof.
  - intros s m level i Hm. destruct (Hm level i) as [E Hv]. cbn [ns_Get kvNodeStore]. rewrite E.
    destruct (m !! (level, i)) as [v|]; [|done]. cbn [fmap option_fmap option_map]. rewrite FieldFromBytes_Bytes by by apply Hv. done.
  - intros s m level i v Hm Hv. unfold TreeNodes in s. eexists. split; [reflexivity|]. intros level' i'. unfold TreeNodes.
    destruct (decide ((level, i) = (level', i'))) as [[= <- <-]|Hne].
    + split; [by rewrite !lookup_insert_eq|]. rewrite lookup_insert_eq. intros ? [= <-]. exact Hv.
    + rewrite !lookup_insert_ne; [apply Hm|done|]. intros [= E ->]. apply Hne. f_equal. lia.
Defined.

(** ** Inverting a run *)
Section runs.
Context `{Host, !PoolEnv}.

Lemma get_store_ok {A} (f : PoolStore → A) w a w' : get_store f w = Ok (a, w') ↔ a = f (ps_store (snd w)) ∧ w' = w.
Proof. exact (gets_ok (λ w : PoolWorld, f (ps_store (snd w))) w a w'). Qed.
Lemma get_ctx_ok {A} (f : Ctx → A) w a w' : get_ctx f w = Ok (a, w') ↔ a = f (ps_ctx (snd w)) ∧ w' = w.
Proof. exact (gets_ok (λ w : PoolWorld, f (ps_ctx (snd w))) w a w'). Qed.
Lemma set_store_ok f w u w' :
  set_store f w = Ok (u, w') ↔ w' = (fst w, mkPoolState (ps_ctx (snd w)) (f (ps_store (snd w)))).
Proof. exact (modify_ok (λ w : PoolWorld, (fst w, mkPoolState (ps_ctx (snd w)) (f (ps_store (snd w))))) w u w'). Qed.
Lemma set_ctx_ok f w u w' :
  set_ctx f w = Ok (u, w') ↔ w' = (fst w, mkPoolState (f (ps_ctx (snd w))) (ps_store (snd w))).
Proof. exact (modify_ok (λ w : PoolWorld, (fst w, mkPoolState (f (ps_ctx (snd w))) (ps_store (snd w)))) w u w'). Qed.
Lemma pool_bank_ok f w u w' : pool_bank f w = Ok (u, w') ↔ ∃ b, f (fst w) = Ok b ∧ w' = (b, snd w).
Proof. unfold pool_bank. destruct u, (f (fst w)) as [b| |]; naive_solver. Qed.
Lemma read_bank_ok {A} (f : bank_state → outcome A) w a w' : read_bank f w = Ok (a, w') ↔ f (fst w) = Ok a ∧ w' = w.
Proof. unfold read_bank. destruct (f (fst w)) as [x| |]; naive_solver. Qed.
Lemma GetParams_ok w p w' : GetParams w = Ok (p, w') ↔ p_Params (ps_store (snd w)) = Some p ∧ w' = w.
Proof.
  unfold GetParams, mbind, prog_bind, get_store, gets. destruct (p_Params _); cbn; unfold fail, mret, prog_ret; naive_solver.
Qed.
End runs.

Ltac pool_step :=
  match goal with
  | H : get_store _ _ = Ok (_, _) |- _ => apply get_store_ok in H; destruct H as [-> ->]
  | H : get_ctx _ _ = Ok (_, _) |- _ => apply get_ctx_ok in H; destruct H as [-> ->]
  | H : set_store _ _ = Ok (_, _) |- _ => apply set_store_ok in H; subst
  | H : set_ctx _ _ = Ok (_, _) |- _ => apply set_ctx_ok in H; subst
  | H : read_bank _ _ = Ok (_, _) |- _ => apply read_bank_ok in H; destruct H as [? ->]
  | H : GetParams _ = Ok (_, _) |- _ => apply GetParams_ok in H; destruct H as [? ->]
  | H : turnstile _ _ = Ok (_, _) |- _ => apply get_store_ok in H; destruct H as [-> ->]
  | H : pool_bank _ _ = Ok (_, _) |- _ =>
      let b := fresh "b" in let Hb := fresh "Hbank" in
      apply pool_bank_ok in H; destruct H as (b & Hb & ->)
  end.
Ltac pool_inv := repeat first [pool_step | host_step | prog_step].

(** ** Read-only operations *)
Section readonly.
Context `{Host, !PoolEnv}.

(** An operation that writes nothing. *)
Definition reads {A} (p : prog PoolWorld A) : Prop := ∀ w a w', p w = Ok (a, w') → w' = w.

Lemma reads_ret {A} (a : A) : reads (mret a).
Proof. by intros w b w' [= <- <-]. Qed.
Lemma reads_bind {A B} (p : prog PoolWorld A) (f : A → prog PoolWorld B) : reads p → (∀ a, reads (f a)) → reads (p ≫= f).
Proof. intros Hp Hf w b w' (a & w1 & ->%Hp & E%Hf)%bind_ok. done. Qed.
Lemma reads_lift {A} (o : outcome A) : reads (lift o).
Proof. by intros w a w' [_ ->]%lift_ok. Qed.
Lemma reads_refuse b e : reads (refuse_if b e).
Proof. by intros w a w' [_ ->]%refuse_if_ok. Qed.
Lemma reads_fail {A} e : reads (fail e : prog PoolWorld A).
Proof. by intros w a w' ?%fail_ok. Qed.
Lemma reads_gets {A} (f : PoolWorld → A) : reads (gets f).
Proof. by intros w a w' [_ ->]%gets_ok. Qed.
Lemma reads_read_bank {A} (f : bank_state → outcome A) : reads (read_bank f).
Proof. by intros w a w' [_ ->]%read_bank_ok. Qed.
Lemma reads_params : reads GetParams.
Proof. by intros w a w' [_ ->]%GetParams_ok. Qed.
Lemma reads_for_each {A} (l : list A) f : (∀ x, reads (f x)) → reads (for_each l f).
Proof.
  intros Hf. induction l as [|x l IH]; [apply reads_ret|]. apply reads_bind; [apply Hf|]. intros _. apply IH.
Qed.
(** Every call of a loop that only reads passed on the same world. *)
Lemma for_each_reads {A} (l : list A) (f : A → prog PoolWorld ()) (w w' : PoolWorld) x :
  (∀ y, reads (f y)) → for_each l f w = Ok ((), w') → x ∈ l → f x w = Ok ((), w).
Proof.
  intros Hf. induction l as [|y l IH]; intros Hr Hx; [by apply elem_of_nil in Hx|]. cbn [for_each] in Hr.
  apply bind_ok in Hr as ([] & w1 & Hy & Hr). pose proof (Hf _ _ _ _ Hy) as ->.
  apply elem_of_cons in Hx as [->|Hx]; [done|by apply IH].
Qed.
End readonly.

Create HintDb reads.
#[export] Hint Resolve reads_ret reads_bind reads_lift reads_refuse reads_fail reads_gets reads_read_bank reads_params
  reads_for_each : reads.
Ltac solve_reads :=
  repeat first
    [ progress intros
    | apply reads_ret | apply reads_lift | apply reads_refuse | apply reads_fail | apply reads_gets
    | apply reads_read_bank | apply reads_params | apply reads_for_each | apply reads_bind
    | progress unfold get_store, get_ctx, turnstile
    | solve [auto with reads]
    | match goal with |- reads (match ?x with _ => _ end) => destruct x end ].

Section readers.
Context `{Host, !PoolEnv} (Rest : Type) (actions : gmap string (PrivateActionHandler Rest)).

Lemma reads_tree : reads tree.
Proof. unfold tree. solve_reads. Qed.
Lemma reads_PoolSize : reads PoolSize.
Proof. unfold PoolSize. apply reads_bind; [apply reads_tree|]. solve_reads. Qed.
Lemma reads_checkCapacity n : reads (checkCapacity n).
Proof. unfold checkCapacity. apply reads_bind; [apply reads_PoolSize|]. solve_reads. Qed.
Lemma reads_AssetID d : reads (AssetID d).
Proof. unfold AssetID. solve_reads. Qed.
Lemma reads_note_asset c : reads (note_asset c).
Proof. unfold note_asset. apply reads_bind; [apply reads_AssetID|]. solve_reads. Qed.
Lemma reads_noteFor c pc ct : reads (noteFor c pc ct).
Proof. unfold noteFor. pose proof (reads_note_asset c). solve_reads. Qed.
Lemma reads_CheckMint pc ct : reads (CheckMint pc ct).
Proof. unfold CheckMint. pose proof reads_checkCapacity. solve_reads. Qed.
Lemma reads_authorizedFor m : reads (authorizedFor m).
Proof. unfold authorizedFor. solve_reads. Qed.
Lemma reads_checkDenom d : reads (checkDenom d).
Proof. unfold checkDenom. solve_reads. Qed.
Lemma reads_PoolAnchor r : reads (PoolAnchor r).
Proof. unfold PoolAnchor. solve_reads. Qed.
Lemma reads_checkAnchor r : reads (checkAnchor r).
Proof. unfold checkAnchor. apply reads_bind; [apply reads_PoolAnchor|]. solve_reads. Qed.
Lemma reads_check_anchors roots valid : reads (check_anchors roots valid).
Proof.
  revert valid. induction roots as [|r roots IH]; intros valid; cbn [check_anchors]; [apply reads_ret|].
  destruct (bool_decide _); [apply IH|]. apply reads_bind; [apply reads_checkAnchor|]. intros _. apply IH.
Qed.
Lemma reads_check_spends b : reads (check_spends b).
Proof. unfold check_spends. pose proof reads_AssetID. solve_reads. Qed.
Lemma reads_checkUnshield c r : reads (checkUnshield c r).
Proof. unfold checkUnshield. solve_reads. Qed.
Lemma reads_checkReleaseMap m : reads (checkReleaseMap Rest actions m).
Proof. unfold checkReleaseMap, check_unshield_map, check_action_map. pose proof reads_checkUnshield. solve_reads. Qed.
Lemma reads_SighashOf m : reads (SighashOf m).
Proof. unfold SighashOf. solve_reads. Qed.
Lemma reads_check_sizes m : reads (check_sizes m).
Proof. unfold check_sizes. solve_reads. Qed.
Lemma reads_CheckPrivateMsg m : reads (CheckPrivateMsg Rest actions m).
Proof.
  unfold CheckPrivateMsg.
  pose proof (reads_check_sizes m). pose proof reads_check_anchors. pose proof reads_check_spends. pose proof reads_checkCapacity.
  pose proof (reads_checkReleaseMap m). pose proof (reads_SighashOf m). solve_reads.
Qed.
Lemma reads_VerifyPrivateMsg p : reads (VerifyPrivateMsg p).
Proof. unfold VerifyPrivateMsg. solve_reads. Qed.
Lemma reads_Send m : reads (Send m).
Proof. unfold Send, AuthorizedPositions. pose proof reads_authorizedFor. solve_reads. Qed.
End readers.

(** ** The invariant *)
Section invariant.
Context `{HostLaws, !PoolEnv}.
Implicit Types (w : PoolWorld) (s : PoolStore) (b : bank_state).

Definition st (w : PoolWorld) : PoolStore := ps_store (snd w).

(** The turnstiles account for the pool's coins: its balance of a denom is what entered less what left. *)
Definition turnstile_at (ts : gmap string Turnstile) (d : string) : Turnstile := default (mkTurnstile d 0 0) (ts !! d).
Definition turnstiles_ok (b : bank_state) (ts : gmap string Turnstile) : Prop :=
  ∀ d, let t := turnstile_at ts d in
    GetBalance b PoolAddress d = ts_In t - ts_Out t ∧ 0 ≤ ts_Out t ∧ ts_Denom t = d.

Definition note_tree (s : PoolStore) : Tree TreeNodes := New (p_TreeNodes s) (default 0 (p_TreeSize s)).
(** The notes appended so far, as field elements. *)
Definition notes_rep (s : PoolStore) (L : list Z) : Prop := tree_rep (note_tree s) L.

(** A denom the registry admits. *)
Definition admissible (d : string) : Prop := ValidateDenom d = true ∧ IsExcludedAsset wiring d = false.

Definition assets_ok (s : PoolStore) : Prop :=
  (∀ d id, p_Assets s !! d = Some id → id = FieldBytes (privacy_AssetID d) ∧ admissible d) ∧
  (∀ d id, p_Assets s !! d = Some id ↔ p_AssetsByID s !! id = Some d).

Record pool_ok (w : PoolWorld) : Prop := {
  po_turnstiles : turnstiles_ok (fst w) (p_Turnstiles (st w));
  po_notes : ∃ L, notes_rep (st w) L;
  po_assets : assets_ok (st w);
  po_params : ∃ p, p_Params (st w) = Some p ∧ Validate p = Ok ();
}.

(** What a note operation leaves alone: everything but the tree, the turnstiles, the nullifiers and the authorization;
    an asset once registered stays. *)
Record pool_frame (w w' : PoolWorld) : Prop := {
  pf_ctx : set_c_Authorization None (ps_ctx (snd w')) = set_c_Authorization None (ps_ctx (snd w));
  pf_params : p_Params (st w') = p_Params (st w);
  pf_Roots : p_Roots (st w') = p_Roots (st w);
  pf_RootsByTime : p_RootsByTime (st w') = p_RootsByTime (st w);
  pf_LatestRoot : p_LatestRoot (st w') = p_LatestRoot (st w);
  pf_assets : p_Assets (st w) ⊆ p_Assets (st w');
  pf_count : p_PrivateActionCount (st w') = p_PrivateActionCount (st w);
}.

#[export] Instance pool_frame_preorder : PreOrder pool_frame.
Proof.
  split.
  - intros w. by split.
  - intros w1 w2 w3 [] []. split; (congruence || by etrans).
Qed.

Lemma turnstile_at_insert ts d t d' :
  turnstile_at (<[d := t]> ts) d' = if decide (d = d') then t else turnstile_at ts d'.
Proof.
  unfold turnstile_at. destruct (decide (d = d')) as [<-|]; [by rewrite lookup_insert_eq|by rewrite lookup_insert_ne].
Qed.

(** ** Coins in and out *)
Lemma bank_moved_coins `{!BankKeeper} src dst cs cs' b b' :
  (∀ d, AmountOf cs d = AmountOf cs' d) → bank_moved src dst cs b b' → bank_moved src dst cs' b b'.
Proof. intros E [Hb Hs]. split; intros; rewrite <-!E; [apply Hb|apply Hs]. Qed.

Lemma turnstiles_in b b' ts a c :
  turnstiles_ok b ts → bank_moved (Some a) (Some PoolAddress) [c] b b' → a ≠ PoolAddress →
  let t := turnstile_at ts (Denom c) in
  turnstiles_ok b' (<[Denom c := mkTurnstile (ts_Denom t) (ts_In t + Amount c) (ts_Out t)]> ts).
Proof.
  intros Hts [Hb _] Ha t d. destruct (Hts d) as (Eb & Ho & Ed). destruct (Hts (Denom c)) as (_ & _ & Edc).
  rewrite turnstile_at_insert, Hb. rewrite bool_decide_eq_false_2 by congruence. rewrite bool_decide_eq_true_2 by done.
  rewrite AmountOf_cons, AmountOf_nil. unfold t. destruct (decide (Denom c = d)) as [<-|Hne]; cbn [ts_In ts_Out ts_Denom].
  - rewrite bool_decide_eq_true_2 by done. split_and!; [lia|done|done].
  - rewrite bool_decide_eq_false_2 by done. split_and!; [lia|done|done].
Qed.

Lemma turnstiles_out b b' ts a c :
  turnstiles_ok b ts → bank_moved (Some PoolAddress) (Some a) [c] b b' → a ≠ PoolAddress → 0 ≤ Amount c →
  let t := turnstile_at ts (Denom c) in
  turnstiles_ok b' (<[Denom c := mkTurnstile (ts_Denom t) (ts_In t) (ts_Out t + Amount c)]> ts).
Proof.
  intros Hts [Hb _] Ha Hc t d. destruct (Hts d) as (Eb & Ho & Ed). destruct (Hts (Denom c)) as (_ & Hoc & Edc).
  rewrite turnstile_at_insert, Hb. rewrite bool_decide_eq_true_2 by done. rewrite bool_decide_eq_false_2 by congruence.
  rewrite AmountOf_cons, AmountOf_nil. unfold t. destruct (decide (Denom c = d)) as [<-|Hne]; cbn [ts_In ts_Out ts_Denom].
  - rewrite bool_decide_eq_true_2 by done. split_and!; [lia|lia|done].
  - rewrite bool_decide_eq_false_2 by done. split_and!; [lia|done|done].
Qed.

(** A bank operation that leaves the pool's balances alone. *)
Lemma turnstiles_elsewhere b b' ts :
  turnstiles_ok b ts → (∀ d, GetBalance b' PoolAddress d = GetBalance b PoolAddress d) → turnstiles_ok b' ts.
Proof. intros Hts E d. rewrite E. apply Hts. Qed.

(** ** Appending a note *)
Lemma tree_run w t w' : tree w = Ok (t, w') ↔ t = note_tree (st w) ∧ w' = w.
Proof. unfold tree. split; [intros Hr; by pool_inv|]. by intros [-> ->]. Qed.

Lemma PoolSize_run w n w' : PoolSize w = Ok (n, w') ↔ n = default 0 (p_TreeSize (st w)) ∧ w' = w.
Proof. unfold PoolSize, tree. split; [intros Hr; by pool_inv|]. by intros [-> ->]. Qed.

Definition appended (n : TreeNodes) (size : Z) (w : PoolWorld) : PoolWorld :=
  (fst w, mkPoolState (ps_ctx (snd w)) (set_p_TreeSize (Some size) (set_p_TreeNodes n (st w)))).

Lemma appended_frame n size w : pool_frame w (appended n size w).
Proof. by split. Qed.

Lemma appendNote_ok cm w pos w' L :
  is_bytes cm → notes_rep (st w) L → appendNote cm w = Ok (pos, w') →
  ∃ e n, FieldFromBytes cm = Ok e ∧ is_fr e ∧ pos = Z.of_nat (length L) ∧ Z.of_nat (length L) < Capacity ∧
    w' = appended n (Z.of_nat (length L) + 1) w ∧ notes_rep (st w') (L ++ [e]).
Proof.
  intros Hcm HL Hr. unfold appendNote in Hr. apply bind_ok in Hr as (e & s1 & Hr1 & Hr).
  apply lift_ok in Hr1 as [He%wrap_error_ok ->]. apply bind_ok in Hr as (t & s2 & [-> ->]%tree_run & Hr).
  destruct (FieldFromBytes_canonical _ _ Hcm He) as [Hfr _].
  apply bind_ok in Hr as ([p t'] & s3 & Hr1 & Hr).
  destruct (decide (Z.of_nat (length L) < Capacity)) as [Hlt|Hge].
  - destruct (Append_spec _ _ e HL Hfr Hlt) as (t1 & Et & Ht1). unfold run_tree in Hr1.
    rewrite (run_bind _ _ _ _ _ (proj2 (lift_ok _ _ _ _) (conj Et eq_refl))) in Hr1.
    cbv beta iota in Hr1.
    destruct ((set_store (set_p_TreeNodes (t_store t1));; mret (Z.of_nat (length L), t1)) w) as [[[p' t''] w1]| |] eqn:E1;
      [|by destruct (bool_decide _)|done].
    injection Hr1 as -> -> ->. pool_inv. exists e, (t_store t1). split_and!; try done.
    unfold appended. cbn. f_equal. f_equal. unfold set_p_TreeSize, set_p_TreeNodes. cbn. f_equal.
    unfold Merkle.Size. pose proof Ht1 as (_ & -> & _). rewrite length_app. cbn. f_equal. lia.
  - exfalso. unfold run_tree in Hr1. assert (Z.of_nat (length L) = Capacity) as El by (pose proof HL as (? & _); lia).
    pose proof (Append_full _ _ e HL El) as Ea. unfold mbind, prog_bind, lift in Hr1. by rewrite Ea in Hr1.
Qed.
End invariant.
