(* ===== verification/ShieldedEffects.v ===== *)
(** * x/shielded: what each operation does

    For every operation of the pool, the coins it moves, the notes it appends, the nullifiers it spends, and that it
    keeps the invariant of [ShieldedInv.v]. *)

From S2P Require Export ShieldedInv.

(** ** Operations that do not touch the bank *)
Section bankless.
Context `{Host, !PoolEnv}.

Definition bankless {A} (p : prog PoolWorld A) : Prop := ∀ w a w', p w = Ok (a, w') → fst w' = fst w.

Lemma bankless_reads {A} (p : prog PoolWorld A) : reads p → bankless p.
Proof. intros Hp w a w' ->%Hp. done. Qed.
Lemma bankless_bind {A B} (p : prog PoolWorld A) (f : A → prog PoolWorld B) :
  bankless p → (∀ a, bankless (f a)) → bankless (p ≫= f).
Proof. intros Hp Hf w b w' (a & w1 & E%Hp & E'%Hf)%bind_ok. congruence. Qed.
Lemma bankless_set_store f : bankless (set_store f).
Proof. by intros w [] w' ->%set_store_ok. Qed.
Lemma bankless_set_ctx f : bankless (set_ctx f).
Proof. by intros w [] w' ->%set_ctx_ok. Qed.
Lemma bankless_for_each {A} (l : list A) f : (∀ x, bankless (f x)) → bankless (for_each l f).
Proof.
  intros Hf. induction l as [|x l IH]; [apply bankless_reads, reads_ret|]. apply bankless_bind; [apply Hf|]. intros _. apply IH.
Qed.
End bankless.

Ltac solve_bankless :=
  repeat first
    [ progress intros
    | apply bankless_set_store | apply bankless_set_ctx | apply bankless_for_each
    | solve [apply bankless_reads; solve_reads]
    | solve [auto]
    | apply bankless_bind
    | match goal with |- bankless (match ?x with _ => _ end) => destruct x end ].

Section moves.
Context `{HostLaws, !PoolEnv}.

Lemma bankless_appendNote cm : bankless (appendNote cm).
Proof.
  unfold appendNote. apply bankless_bind; [solve_bankless|]. intros leaf. apply bankless_bind; [apply bankless_reads, reads_tree|].
  intros t. apply bankless_bind; [|intros [pos t']; solve_bankless]. intros w a w' E.
  destruct (run_tree t (Merkle.Append leaf) w) as [[x w1]| |] eqn:E1; [|by destruct (bool_decide _)|done].
  injection E as -> ->. unfold run_tree in E1. prog_inv. by pool_inv.
Qed.
Lemma bankless_countIn d amt : bankless (countIn d amt).
Proof. unfold countIn. solve_bankless. Qed.
Lemma bankless_countOut d amt : bankless (countOut d amt).
Proof. unfold countOut. solve_bankless. Qed.
Lemma bankless_depositNote c cm : bankless (depositNote c cm).
Proof. unfold depositNote. apply bankless_bind; [apply bankless_countIn|]. intros _. apply bankless_appendNote. Qed.
Lemma bankless_RegisterAsset d : bankless (RegisterAsset d).
Proof. unfold RegisterAsset. solve_bankless. Qed.
Lemma bankless_release m d : bankless (release m d).
Proof. unfold release. pose proof (reads_authorizedFor m) as Hr%bankless_reads. solve_bankless. Qed.

Lemma NewCoins_single_amount c cs : NewCoins [c] = Ok cs → ∀ d, AmountOf cs d = AmountOf [c] d.
Proof. intros Hc. by apply NewCoins_spec in Hc as [Hc _]. Qed.

(** [send_m2m] moves the coin between the two module accounts. *)
Lemma send_m2m_moved from to_ c w u w' :
  send_m2m from to_ c w = Ok (u, w') →
  bank_moved (Some (NewModuleAddress from)) (Some (NewModuleAddress to_)) [c] (fst w) (fst w') ∧ snd w' = snd w.
Proof.
  unfold send_m2m. intros Hr. pool_inv. split; [|done]. eapply bank_moved_coins; [by apply NewCoins_single_amount|].
  by apply SendM2M_spec.
Qed.

(** ** The interface's promises: the coins of each operation *)
Lemma MintNote_moved m c pc ct w r w' :
  MintNote m c pc ct w = Ok (r, w') →
  m ≠ shielded_ModuleName ∧ 0 < Amount c ∧
  bank_moved (Some (NewModuleAddress m)) (Some PoolAddress) [c] (fst w) (fst w').
Proof.
  unfold MintNote. intros Hr. apply bind_ok in Hr as (u & w1 & [Hm%refuse_ok ->]%lift_ok & Hr).
  apply bool_decide_eq_false in Hm. apply bind_ok in Hr as (u1 & w1 & [_ ->]%read_bank_ok & Hr).
  apply bind_ok in Hr as (cm & w1 & Hn & Hr). pose proof (reads_noteFor _ _ _ _ _ _ Hn) as ->.
  unfold noteFor in Hn. apply bind_ok in Hn as (u2 & w1 & [Hfit _]%refuse_if_ok & _).
  apply orb_false_iff in Hfit as [_ Hfit%negb_false_iff]. unfold FitsNote in Hfit.
  apply bind_ok in Hr as (u3 & w2 & ->%reads_checkCapacity & Hr).
  apply bind_ok in Hr as ([] & w2 & [Hmv _]%send_m2m_moved & Hr).
  apply bind_ok in Hr as (pos & w3 & Hd%bankless_depositNote & [= _ <-]%ret_ok).
  split_and!; [done|lia|]. rewrite Hd. exact Hmv.
Qed.

Lemma mint_all_moved m d pc ct values w r w' :
  mint_all m d pc ct values w = Ok (r, w') →
  bank_moved (Some (NewModuleAddress m)) (Some PoolAddress) [mkCoin d (list_sum id values)] (fst w) (fst w').
Proof.
  revert w r w'. induction values as [|v values IH]; intros w r w' Hr; cbn [mint_all] in Hr.
  - pool_inv. split; intros; rewrite AmountOf_cons, AmountOf_nil; cbn; repeat case_bool_decide; lia.
  - assert (∀ x, AmountOf [mkCoin d (list_sum id (v :: values))] x =
      AmountOf [mkCoin d v] x + AmountOf [mkCoin d (list_sum id values)] x) as E.
    { intros x. rewrite !AmountOf_cons, !AmountOf_nil, list_sum_cons. change (id v) with v. cbn [Denom Amount].
      case_bool_decide; lia. }
    apply bind_ok in Hr as (c & w1 & [[-> _]%NewCoin_spec ->]%lift_ok & Hr).
    apply bind_ok in Hr as ([p cm] & w1 & (Hne & _ & [Hb Hs])%MintNote_moved & Hr).
    apply bind_ok in Hr as (ps & w2 & [Hb' Hs']%IH & [= _ <-]%ret_ok).
    split.
    + intros a x. rewrite Hb', Hb, E. clear. repeat case_bool_decide; lia.
    + intros x. rewrite Hs', Hs, E. clear. repeat case_bool_decide; lia.
Qed.

Lemma MintNoteSplit_moved m c pc ct w r w' :
  MintNoteSplit m c pc ct w = Ok (r, w') →
  bank_moved (Some (NewModuleAddress m)) (Some PoolAddress) [c] (fst w) (fst w').
Proof.
  unfold MintNoteSplit. intros Hr. apply bind_ok in Hr as (values & w1 & [Hv%wrap_error_ok ->]%lift_ok & Hr).
  apply bind_ok in Hr as (u & w1 & ->%reads_checkCapacity & Hr%mint_all_moved).
  destruct (split_values (Amount c) _ Hv) as (E & _). destruct c as [d a]. cbn in *. by rewrite <-E.
Qed.

Lemma release_moved m d w c w' : release m d w = Ok (c, w') → Denom c = d ∧ fst w' = fst w.
Proof.
  intros Hr. split; [|by apply bankless_release in Hr]. unfold release in Hr. apply bind_ok in Hr as (a & w1 & _ & Hr).
  destruct (au_remaining a !! d); [|by apply fail_ok in Hr]. by pool_inv.
Qed.

Lemma ReleaseToModule_moved m d target w c w' :
  ReleaseToModule m d target w = Ok (c, w') →
  target ≠ shielded_ModuleName ∧ Denom c = d ∧
  bank_moved (Some PoolAddress) (Some (NewModuleAddress target)) [c] (fst w) (fst w').
Proof.
  unfold ReleaseToModule. intros Hr. apply bind_ok in Hr as (u & w1 & [Hm%refuse_ok ->]%lift_ok & Hr).
  apply bool_decide_eq_false in Hm. apply bind_ok in Hr as (z & w1 & [_ ->]%lift_ok & Hr).
  apply bind_ok in Hr as (u1 & w1 & [_ ->]%read_bank_ok & Hr).
  apply bind_ok in Hr as (c' & w1 & [Ed Eb]%release_moved & Hr).
  apply bind_ok in Hr as (u2 & w2 & [Hmv _]%send_m2m_moved & Hr).
  apply bind_ok in Hr as (u3 & w3 & Ec%bankless_countOut & [= -> <-]%ret_ok).
  split_and!; [done|done|]. rewrite Ec, <-Eb. exact Hmv.
Qed.
End moves.

(** ** Effects *)
Section effects.
Context `{HostLaws, !PoolEnv}.
Implicit Types (w : PoolWorld) (cms nfs : list bytes).

(** The notes [cms] were appended. *)
Definition appends w w' cms : Prop :=
  ∀ L, notes_rep (st w) L → ∃ es, mapM FieldFromBytes cms = Ok es ∧ notes_rep (st w') (L ++ es).

(** A step that appends the notes [cms] and spends the nullifiers [nfs]. *)
Record pool_effect w w' cms nfs : Prop := {
  pe_frame : pool_frame w w';
  pe_ok : pool_ok w → pool_ok w';
  pe_notes : appends w w' cms;
  pe_nullifiers : p_Nullifiers (st w') = list_to_set nfs ∪ p_Nullifiers (st w);
}.

Lemma mapM_app_ok {A B} (f : A → outcome B) l l' r r' :
  mapM f l = Ok r → mapM f l' = Ok r' → mapM f (l ++ l') = Ok (r ++ r').
Proof.
  revert r. induction l as [|x l IH]; intros r; cbn [mapM].
  - by intros [= <-].
  - intros Hr Hr'. apply outcome_bind_ok in Hr as (y & Ey & Hr). apply outcome_bind_ok in Hr as (ys & Eys & [= <-]).
    cbn [app mapM]. rewrite Ey. cbn [mbind outcome_bind]. by rewrite (IH _ Eys Hr').
Qed.

Lemma effect_trans w1 w2 w3 c n c' n' :
  pool_effect w1 w2 c n → pool_effect w2 w3 c' n' → pool_effect w1 w3 (c ++ c') (n ++ n').
Proof.
  intros [F1 K1 N1 E1] [F2 K2 N2 E2]. split.
  - by etrans.
  - tauto.
  - intros L HL. destruct (N1 L HL) as (es & Em & HL1). destruct (N2 _ HL1) as (es' & Em' & HL2).
    exists (es ++ es'). split; [by apply mapM_app_ok|]. by rewrite app_assoc.
  - rewrite E2, E1, list_to_set_app_L. set_solver.
Qed.

Lemma effect_refl w : pool_effect w w [] [].
Proof. split; [done|done|intros L HL; exists []; by rewrite app_nil_r|set_solver]. Qed.

(** A write that touches neither the tree, the nullifiers nor the assets. *)
Lemma effect_quiet w w' :
  pool_frame w w' → (pool_ok w → turnstiles_ok (fst w') (p_Turnstiles (st w'))) →
  p_TreeNodes (st w') = p_TreeNodes (st w) → p_TreeSize (st w') = p_TreeSize (st w) →
  p_Assets (st w') = p_Assets (st w) → p_AssetsByID (st w') = p_AssetsByID (st w) →
  p_Nullifiers (st w') = p_Nullifiers (st w) → pool_effect w w' [] [].
Proof.
  intros F Ht Et Es Ea Eb En. assert (note_tree (st w') = note_tree (st w)) as Etree by (unfold note_tree; by rewrite Et, Es).
  split; [done| | |set_solver].
  - intros Hok. split; [by apply Ht| | |].
    + destruct (po_notes w Hok) as [L HL]. exists L. unfold notes_rep. by rewrite Etree.
    + unfold assets_ok. rewrite Ea, Eb. apply (po_assets w Hok).
    + rewrite (pf_params w w' F). apply (po_params w Hok).
  - intros L HL. exists []. split; [done|]. rewrite app_nil_r. unfold notes_rep. by rewrite Etree.
Qed.

(** ** Notes *)
Lemma appendNote_effect cm w pos w' :
  is_bytes cm → pool_ok w → appendNote cm w = Ok (pos, w') → pool_effect w w' [cm] [].
Proof.
  intros Hcm Hok Hr. destruct (po_notes w Hok) as [L HL].
  destruct (appendNote_ok cm w pos w' L Hcm HL Hr) as (e & n & Ee & Hfr & -> & Hlt & -> & HL').
  split; [apply appended_frame| | |set_solver].
  - intros _. split; [apply Hok|by eexists|apply Hok|apply Hok].
  - intros L' HL2. destruct (appendNote_ok cm w _ _ L' Hcm HL2 Hr) as (e' & n' & Ee' & _ & _ & _ & E' & HL3).
    exists [e']. cbn [mapM]. rewrite Ee'. split; [done|]. exact HL3.
Qed.

Lemma appendNote_pos cm w pos w' : is_bytes cm → pool_ok w → appendNote cm w = Ok (pos, w') → pos = default 0 (p_TreeSize (st w)).
Proof.
  intros Hcm Hok Hr. destruct (po_notes w Hok) as [L HL].
  destruct (appendNote_ok cm w pos w' L Hcm HL Hr) as (e & n & _ & _ & -> & _). destruct HL as (_ & E & _). exact (eq_sym E).
Qed.

Lemma countIn_effect d amt w u b w' :
  (pool_ok w → turnstiles_ok b (let t := turnstile_at (p_Turnstiles (st w)) d in
     <[d := mkTurnstile (ts_Denom t) (ts_In t + amt) (ts_Out t)]> (p_Turnstiles (st w)))) →
  countIn d amt (b, snd w) = Ok (u, w') → pool_effect w w' [] [] ∧ fst w' = b.
Proof.
  intros Ht Hr. unfold countIn in Hr. pool_inv. split; [|done]. apply effect_quiet; try done.
Qed.

Lemma countOut_effect d amt w u b w' :
  (pool_ok w → turnstiles_ok b (let t := turnstile_at (p_Turnstiles (st w)) d in
     <[d := mkTurnstile (ts_Denom t) (ts_In t) (ts_Out t + amt)]> (p_Turnstiles (st w)))) →
  countOut d amt (b, snd w) = Ok (u, w') → pool_effect w w' [] [] ∧ fst w' = b.
Proof.
  intros Ht Hr. unfold countOut in Hr. pool_inv. split; [|done]. apply effect_quiet; try done.
Qed.

(** Coins arrive, are counted, and their note is appended. *)
Lemma deposit_effect a c cm w b pos w' :
  is_bytes cm → pool_ok w → bank_moved (Some a) (Some PoolAddress) [c] (fst w) b → a ≠ PoolAddress →
  depositNote c cm (b, snd w) = Ok (pos, w') →
  pool_effect w w' [cm] [] ∧ fst w' = b ∧ pos = default 0 (p_TreeSize (st w)).
Proof.
  intros Hcm Hok Hb Ha Hr. unfold depositNote in Hr. apply bind_ok in Hr as (u & w1 & Hc & Hr).
  apply countIn_effect in Hc as [E1 Eb]; [|intros Hok'; eapply turnstiles_in; [apply Hok'|exact Hb|done]].
  pose proof (pe_ok _ _ _ _ E1 Hok) as Hok1. pose proof (appendNote_effect _ _ _ _ Hcm Hok1 Hr) as E2.
  split_and!.
  - exact (effect_trans _ _ _ _ _ _ _ E1 E2).
  - rewrite <-Eb. by apply bankless_appendNote in Hr.
  - pose proof (appendNote_pos _ _ _ _ Hcm Hok1 Hr) as ->. destruct (po_notes w Hok) as [L HL].
    destruct (pe_notes _ _ _ _ E1 L HL) as (es & [= <-] & HL1). rewrite app_nil_r in HL1.
    destruct HL as (_ & E & _), HL1 as (_ & E' & _). unfold note_tree, New in E, E'. cbn [t_next] in E, E'. congruence.
Qed.

Lemma noteFor_ok c pc ct w cm w' : noteFor c pc ct w = Ok (cm, w') →
  w' = w ∧ is_bytes cm ∧ 0 < Amount c ≤ MaxNoteValue ∧ ∃ id asset pcEl,
    p_Assets (st w) !! Denom c = Some id ∧ FieldFromBytes id = Ok asset ∧ FieldFromBytes pc = Ok pcEl ∧
    cm = FieldBytes (CM asset (Amount c) pcEl).
Proof.
  intros Hr. pose proof (reads_noteFor _ _ _ _ _ _ Hr) as ->. split; [done|]. unfold noteFor in Hr.
  apply bind_ok in Hr as (u & w1 & [Hf ->]%refuse_if_ok & Hr). apply orb_false_iff in Hf as [_ Hf%negb_false_iff].
  unfold FitsNote, MaxNoteValue in *.
  apply bind_ok in Hr as (p & w1 & [Hp%wrap_error_ok ->]%lift_ok & Hr).
  apply bind_ok in Hr as (u1 & w1 & [_ ->]%lift_ok & Hr). apply bind_ok in Hr as (asset & w1 & Ha & Hr).
  apply ret_ok in Hr. injection Hr as -> _. rewrite wrap_u64_id by lia.
  unfold note_asset, AssetID in Ha. apply bind_ok in Ha as (id & w2 & Hid & Ha). apply bind_ok in Hid as (as_ & w3 & [-> ->]%get_store_ok & Hid).
  destruct (p_Assets _ !! Denom c) as [id'|] eqn:E; [|by apply fail_ok in Hid]. apply ret_ok in Hid. injection Hid as -> ->.
  apply lift_ok in Ha as [Ha ->]. split_and!; [apply FieldBytes_range|lia|lia|]. by do 3 eexists.
Qed.

(** A mint by a module: the coin moves in, is counted, and one note of exactly its value is appended. *)
Lemma MintNote_effect m c pc ct w pos cm w' :
  pool_ok w → MintNote m c pc ct w = Ok ((pos, cm), w') →
  pool_effect w w' [cm] [] ∧ pos = default 0 (p_TreeSize (st w)).
Proof.
  intros Hok Hr. pose proof (MintNote_moved _ _ _ _ _ _ _ Hr) as (Hm & _ & _). unfold MintNote in Hr.
  apply bind_ok in Hr as (u & w1 & [_ ->]%lift_ok & Hr). apply bind_ok in Hr as (u1 & w1 & [_ ->]%read_bank_ok & Hr).
  apply bind_ok in Hr as (cm' & w1 & (-> & Hcm & _)%noteFor_ok & Hr).
  apply bind_ok in Hr as (u3 & w2 & ->%reads_checkCapacity & Hr). apply bind_ok in Hr as ([] & w2 & [Hmv Es]%send_m2m_moved & Hr).
  apply bind_ok in Hr as (pos' & w3 & Hd & [= -> -> <-]%ret_ok). destruct w2 as [b s2]. cbn in Es. subst s2.
  apply (deposit_effect (NewModuleAddress m)) in Hd as (E & _ & Ep); [done..|exact Hmv|].
  intros Ea%NewModuleAddress_inj. done.
Qed.

Lemma mint_all_effect m d pc ct values w ps w' :
  pool_ok w → mint_all m d pc ct values w = Ok (ps, w') →
  ∃ cms, pool_effect w w' cms [] ∧ length cms = length values ∧ length ps = length values.
Proof.
  revert w ps w'. induction values as [|v values IH]; intros w ps w' Hok Hr; cbn [mint_all] in Hr.
  - apply ret_ok in Hr. injection Hr as -> ->. exists []. split_and!; [apply effect_refl|done|done].
  - apply bind_ok in Hr as (c & w1 & [_ ->]%lift_ok & Hr). apply bind_ok in Hr as ([p cm] & w1 & Hm & Hr).
    apply MintNote_effect in Hm as [E1 _]; [|done]. apply bind_ok in Hr as (ps' & w2 & Hr & [= -> <-]%ret_ok).
    destruct (IH _ _ _ (pe_ok _ _ _ _ E1 Hok) Hr) as (cms & E2 & El & Ep). exists (cm :: cms).
    split; [exact (effect_trans _ _ _ _ _ _ _ E1 E2)|]. cbn [length]. lia.
Qed.

Lemma MintNoteSplit_effect m c pc ct w ps w' :
  pool_ok w → MintNoteSplit m c pc ct w = Ok (ps, w') → ∃ cms, pool_effect w w' cms [].
Proof.
  intros Hok Hr. unfold MintNoteSplit in Hr. apply bind_ok in Hr as (vs & w1 & [_ ->]%lift_ok & Hr).
  apply bind_ok in Hr as (u & w1 & ->%reads_checkCapacity & Hr). apply mint_all_effect in Hr as (cms & E & _); eauto.
Qed.

Lemma MintOpenNote_effect m c pk rho rcm w pos cm w' :
  pool_ok w → MintOpenNote m c pk rho rcm w = Ok ((pos, cm), w') → pool_effect w w' [cm] [].
Proof.
  intros Hok Hr. unfold MintOpenNote in Hr.
  apply bind_ok in Hr as (u & w1 & [Hm%refuse_ok ->]%lift_ok & Hr). apply bool_decide_eq_false in Hm.
  apply bind_ok in Hr as (u1 & w1 & [_ ->]%read_bank_ok & Hr). apply bind_ok in Hr as (u2 & w1 & [_ ->]%refuse_if_ok & Hr).
  apply bind_ok in Hr as (asset & w1 & ->%reads_note_asset & Hr). cbv zeta in Hr.
  apply bind_ok in Hr as (u3 & w2 & ->%reads_checkCapacity & Hr). apply bind_ok in Hr as ([] & w2 & [Hmv Es]%send_m2m_moved & Hr).
  apply bind_ok in Hr as (pos' & w3 & Hd & [= -> -> <-]%ret_ok). destruct w2 as [b s2]. cbn in Es. subst s2.
  apply (deposit_effect (NewModuleAddress m)) in Hd as (E & _); [done|apply FieldBytes_range|done|exact Hmv|].
  intros Ea%NewModuleAddress_inj. done.
Qed.

Lemma Shield_effect a c pc ct w pos cm w' :
  pool_ok w → a ≠ PoolAddress → Shield a c pc ct w = Ok ((pos, cm), w') →
  pool_effect w w' [cm] [] ∧ bank_moved (Some a) (Some PoolAddress) [c] (fst w) (fst w').
Proof.
  intros Hok Ha Hr. unfold Shield in Hr. apply bind_ok in Hr as (u1 & w1 & [_ ->]%read_bank_ok & Hr).
  apply bind_ok in Hr as (cm' & w1 & (-> & Hcm & _)%noteFor_ok & Hr).
  apply bind_ok in Hr as (u3 & w2 & ->%reads_checkCapacity & Hr). apply bind_ok in Hr as (cs & w2 & [Hcs ->]%lift_ok & Hr).
  apply bind_ok in Hr as (u4 & w2 & (b & Hb & ->)%pool_bank_ok & Hr).
  apply bind_ok in Hr as (pos' & w3 & Hd & [= -> -> <-]%ret_ok).
  assert (bank_moved (Some a) (Some PoolAddress) [c] (fst w) b) as Hmv.
  { eapply bank_moved_coins; [by apply NewCoins_single_amount|]. by apply SendA2M_spec. }
  apply (deposit_effect a) in Hd as (E & Eb & _); [|done..]. rewrite Eb. by split.
Qed.
End effects.

(** ** Spending, paying and releasing *)
Section spending.
Context `{HostLaws, !PoolEnv}.
Implicit Types (w : PoolWorld) (cms nfs : list bytes).

Lemma spend_all nfs w u w' :
  for_each nfs spend w = Ok (u, w') →
  NoDup nfs ∧ (∀ nf, nf ∈ nfs → nf ∉ p_Nullifiers (st w)) ∧ fst w' = fst w ∧ pool_effect w w' [] nfs.
Proof.
  revert w u. induction nfs as [|nf nfs IH]; intros w u Hr; cbn [for_each] in Hr.
  - apply ret_ok in Hr. injection Hr as _ ->. split_and!; [constructor|by intros ? ?%elem_of_nil|done|apply effect_refl].
  - apply bind_ok in Hr as (u1 & w1 & Hs & Hr). unfold spend in Hs. pool_inv.
    apply IH in Hr as (Hnd & Hfr & Eb & E). match goal with Hn : nf ∉ _ |- _ => rename Hn into Hnf | Hn : bool_decide (nf ∈ _) = false |- _ => apply bool_decide_eq_false in Hn; rename Hn into Hnf end.
    assert (pool_effect w (fst w, mkPoolState (ps_ctx (snd w)) (set_p_Nullifiers ({[nf]} ∪.) (st w))) [] [nf]) as E1.
    { split; [done|intros Hok; split; apply Hok| |].
      - intros L HL. exists []. split; [done|]. by rewrite app_nil_r.
      - unfold st. cbn. set_solver. }
    split_and!; [|intros x [->|Hx]%elem_of_cons; [done|]|done|].
    + constructor; [|done]. intros Hin%Hfr. unfold st in Hin. cbn in Hin. set_solver.
    + apply Hfr in Hx. unfold st in Hx. cbn in Hx. unfold st. set_solver.
    + exact (effect_trans _ _ _ _ _ _ _ E1 E).
Qed.

Lemma append_all_effect cms w ps w' :
  Forall is_bytes cms → pool_ok w → append_all cms w = Ok (ps, w') →
  pool_effect w w' cms [] ∧ fst w' = fst w ∧ length ps = length cms ∧
  ∀ i pos, ps !! i = Some pos → pos = default 0 (p_TreeSize (st w)) + Z.of_nat i.
Proof.
  revert w ps. induction cms as [|cm cms IH]; intros w ps Hcm Hok Hr; cbn [append_all] in Hr.
  - apply ret_ok in Hr. injection Hr as -> ->. split_and!; [apply effect_refl|done|done|]. intros i pos Hi. by rewrite lookup_nil in Hi.
  - apply Forall_cons in Hcm as [Hc Hcm]. apply bind_ok in Hr as (pos & w1 & Ha & Hr).
    apply bind_ok in Hr as (ps' & w2 & Hr & [= -> <-]%ret_ok). pose proof (appendNote_effect _ _ _ _ Hc Hok Ha) as E1.
    destruct (po_notes w Hok) as [L HL]. destruct (appendNote_ok _ _ _ _ _ Hc HL Ha) as (e & n & _ & _ & Ep & _ & Ew1 & _).
    destruct HL as (_ & Es & _). unfold note_tree, New in Es. cbn [t_next] in Es.
    apply IH in Hr as (E2 & Eb & El & Hpos); [|done|by eapply pe_ok]. split_and!.
    + exact (effect_trans _ _ _ _ _ _ _ E1 E2).
    + rewrite Eb. by apply bankless_appendNote in Ha.
    + cbn [length]. by rewrite El.
    + intros [|i] p; cbn; [intros [= <-]; lia|]. intros Hi%Hpos. rewrite Hi, Ew1, Es. unfold st, appended. cbn. lia.
Qed.

Lemma executeBundle_effect b w ps w' :
  Forall is_bytes (act_Commitment <$> bun_Actions b) → pool_ok w → executeBundle b w = Ok (ps, w') →
  pool_effect w w' (act_Commitment <$> bun_Actions b) (Nullifiers b) ∧ fst w' = fst w ∧
  NoDup (Nullifiers b) ∧ (∀ nf, nf ∈ Nullifiers b → nf ∉ p_Nullifiers (st w)) ∧ length ps = length (bun_Actions b).
Proof.
  intros Hcm Hok Hr. unfold executeBundle in Hr. apply bind_ok in Hr as (u & w1 & (Hnd & Hfr & Eb & E1)%spend_all & Hr).
  apply append_all_effect in Hr as (E2 & Eb' & El & _); [|done|by eapply pe_ok]. rewrite length_fmap in El. split_and!; try done.
  - exact (eq_rect _ (λ n, pool_effect w w' _ n) (effect_trans _ _ _ _ _ _ _ E1 E2) _ (app_nil_r _)).
  - by rewrite Eb', Eb.
Qed.

Lemma execute_bundles_effect bs w ps w' :
  (∀ b, b ∈ bs → Forall is_bytes (act_Commitment <$> bun_Actions b)) → pool_ok w → execute_bundles bs w = Ok (ps, w') →
  pool_effect w w' (bs ≫= λ b, act_Commitment <$> bun_Actions b) (bs ≫= Nullifiers) ∧ fst w' = fst w ∧
  NoDup (bs ≫= Nullifiers) ∧ (∀ nf, nf ∈ bs ≫= Nullifiers → nf ∉ p_Nullifiers (st w)).
Proof.
  revert w ps. induction bs as [|b bs IH]; intros w ps Hcm Hok Hr; cbn [execute_bundles] in Hr.
  - apply ret_ok in Hr. injection Hr as -> ->. split_and!; [apply effect_refl|done|constructor|by intros ? ?%elem_of_nil].
  - apply bind_ok in Hr as (p & w1 & Hb & Hr). apply bind_ok in Hr as (ps' & w2 & Hr & [= -> <-]%ret_ok).
    apply executeBundle_effect in Hb as (E1 & Eb & Hnd & Hfr & _); [|apply Hcm; left|done].
    apply IH in Hr as (E2 & Eb' & Hnd' & Hfr'); [|intros; apply Hcm; by right|by eapply pe_ok].
    cbn [mbind list_bind]. split_and!.
    + exact (effect_trans _ _ _ _ _ _ _ E1 E2).
    + by rewrite Eb', Eb.
    + apply NoDup_app. split_and!; [done| |done]. intros nf Hin Hin'. apply (Hfr' nf Hin').
      rewrite (pe_nullifiers _ _ _ _ E1). set_solver.
    + intros nf [Hin|Hin]%elem_of_app; [by apply Hfr|]. intros Hs. apply (Hfr' nf Hin).
      rewrite (pe_nullifiers _ _ _ _ E1). set_solver.
Qed.

(** ** The authorization *)
Lemma set_auth_effect f w u w' :
  set_ctx (λ c, set_c_Authorization (f c) c) w = Ok (u, w') → pool_effect w w' [] [] ∧ fst w' = fst w.
Proof.
  intros ->%set_ctx_ok. split; [|done]. apply effect_quiet; try done. intros Hok. exact (po_turnstiles w Hok).
Qed.

(** What [release] claims: what remains of [d] of the authorized msg, once. *)
Lemma release_ok m d w c w' :
  release m d w = Ok (c, w') →
  ∃ a v, c_Authorization (ps_ctx (snd w)) = Some a ∧ msgKey m = Ok (au_key a) ∧ au_remaining a !! d = Some v ∧ 0 < v ∧
    c = mkCoin d v ∧
    w' = (fst w, mkPoolState (set_c_Authorization (Some (au_set_remaining <[d := 0]> a)) (ps_ctx (snd w))) (st w)).
Proof.
  intros Hr. unfold release, authorizedFor in Hr. apply bind_ok in Hr as (a & w1 & Ha & Hr).
  apply bind_ok in Ha as (o & w2 & [-> ->]%get_ctx_ok & Ha).
  destruct (c_Authorization _) as [a'|] eqn:Eo; [|by apply fail_ok in Ha].
  apply bind_ok in Ha as (k & w2 & [Hk ->]%lift_ok & Ha). apply bind_ok in Ha as (u & w2 & [Hk'%negb_false_iff ->]%refuse_if_ok & Ha).
  apply bool_decide_eq_true in Hk'. subst k. apply ret_ok in Ha. injection Ha as -> ->.
  destruct (au_remaining a' !! d) as [v|] eqn:Ev; [|by apply fail_ok in Hr].
  apply bind_ok in Hr as (u1 & w2 & [Hv%Z.eqb_neq ->]%refuse_if_ok & Hr). apply bind_ok in Hr as (u2 & w2 & ->%set_ctx_ok & Hr).
  apply lift_ok in Hr as [[-> Hpos]%NewCoin_spec ->]. exists a', v. split_and!; try done; [lia|]. cbn. by rewrite Eo.
Qed.

Lemma release_effect m d w c w' : release m d w = Ok (c, w') → pool_effect w w' [] [] ∧ fst w' = fst w.
Proof.
  intros Hr. destruct (release_ok _ _ _ _ _ Hr) as (a & v & _ & _ & _ & _ & _ & ->). split; [|done].
  apply effect_quiet; try done. intros Hok. exact (po_turnstiles w Hok).
Qed.

(** ** Coins out *)

(** A payment of a coin out of the pool, counted. *)
Lemma payout_effect c a w b u w' :
  pool_ok w → bank_moved (Some PoolAddress) (Some a) [c] (fst w) b → a ≠ PoolAddress → 0 ≤ Amount c →
  countOut (Denom c) (Amount c) (b, snd w) = Ok (u, w') → pool_effect w w' [] [] ∧ fst w' = b.
Proof. intros Hok Hb Ha Hc. apply countOut_effect. intros _. eapply turnstiles_out; [apply Hok|done..]. Qed.

Lemma payFee_effect fee w u w' :
  pool_ok w → payFee fee w = Ok (u, w') →
  pool_effect w w' [] [] ∧ 0 < fee ∧
  bank_moved (Some PoolAddress) (Some (NewModuleAddress FeeCollectorName)) [mkCoin FeeDenom fee] (fst w) (fst w') ∧
  ps_ctx (snd w') = ps_ctx (snd w).
Proof.
  intros Hok Hr. unfold payFee in Hr. apply bind_ok in Hr as (u1 & w1 & [Hf%negb_false_iff%Z.ltb_lt ->]%refuse_if_ok & Hr).
  apply bind_ok in Hr as (c & w1 & [[-> _]%NewCoin_spec ->]%lift_ok & Hr).
  apply bind_ok in Hr as ([] & w1 & [Hmv Es]%send_m2m_moved & Hr). destruct w1 as [b s1]. cbn [fst snd] in *. subst s1.
  assert (NewModuleAddress FeeCollectorName ≠ PoolAddress) as Hne by (intros E%NewModuleAddress_inj; done).
  assert (ps_ctx (snd w') = ps_ctx (snd w)) as Ec by (unfold countOut in Hr; by pool_inv).
  apply (payout_effect (mkCoin FeeDenom fee) (NewModuleAddress FeeCollectorName)) in Hr as [E Eb]; [|done|exact Hmv|done|cbn; lia].
  split; [done|]. split; [done|]. split; [by rewrite Eb|done].
Qed.

Lemma ReleaseToModule_effect m d target w c w' :
  pool_ok w → ReleaseToModule m d target w = Ok (c, w') → pool_effect w w' [] [].
Proof.
  intros Hok Hr. unfold ReleaseToModule in Hr. apply bind_ok in Hr as (u & w1 & [Hm%refuse_ok ->]%lift_ok & Hr).
  apply bool_decide_eq_false in Hm. apply bind_ok in Hr as (z & w1 & [_ ->]%lift_ok & Hr).
  apply bind_ok in Hr as (u1 & w1 & [_ ->]%read_bank_ok & Hr). apply bind_ok in Hr as (c' & w1 & Hrel & Hr).
  destruct (release_ok _ _ _ _ _ Hrel) as (a & v & _ & _ & _ & Hv & -> & _). apply release_effect in Hrel as [E1 _].
  apply bind_ok in Hr as ([] & w2 & [Hmv Es]%send_m2m_moved & Hr). apply bind_ok in Hr as (u2 & w3 & Hc & [= _ <-]%ret_ok).
  destruct w2 as [b s2]. cbn [fst snd] in *. subst s2.
  apply (payout_effect (mkCoin d v) (NewModuleAddress target)) in Hc as [E2 _]; [|by eapply pe_ok|exact Hmv| |cbn; lia].
  - exact (effect_trans _ _ _ _ _ _ _ E1 E2).
  - intros E%NewModuleAddress_inj. done.
Qed.

(** One remainder of an unshield, and all of them. *)
Lemma unshield_one_ok m receiver r w u w' :
  pool_ok w → receiver ≠ PoolAddress → unshield_one m receiver r w = Ok (u, w') →
  ∃ a v, c_Authorization (ps_ctx (snd w)) = Some a ∧ au_remaining a !! Denom r = Some v ∧
    pool_effect w w' [] [] ∧ bank_moved (Some PoolAddress) (Some receiver) [mkCoin (Denom r) v] (fst w) (fst w') ∧
    c_Authorization (ps_ctx (snd w')) = Some (au_set_remaining <[Denom r := 0]> a).
Proof.
  intros Hok Hne Hr. unfold unshield_one in Hr. apply bind_ok in Hr as (c & w1 & Hrel & Hr).
  destruct (release_ok _ _ _ _ _ Hrel) as (a & v & Ea & _ & Ev & Hv & -> & Ew1). apply release_effect in Hrel as [E1 _].
  apply bind_ok in Hr as (cs & w2 & [Hcs ->]%lift_ok & Hr). apply bind_ok in Hr as (u1 & w2 & (b & Hb & ->)%pool_bank_ok & Hr).
  assert (bank_moved (Some PoolAddress) (Some receiver) [mkCoin (Denom r) v] (fst w1) b) as Hmv.
  { eapply bank_moved_coins; [by apply NewCoins_single_amount|]. by apply SendM2A_spec. }
  assert (ps_ctx (snd w') = ps_ctx (snd w1)) as Ec by (unfold countOut in Hr; by pool_inv).
  apply (payout_effect (mkCoin (Denom r) v) receiver) in Hr as [E2 Eb]; [|by eapply pe_ok|exact Hmv|done|cbn; lia].
  exists a, v. split_and!; [done|done|exact (effect_trans _ _ _ _ _ _ _ E1 E2)| |].
  - rewrite Eb. rewrite Ew1 in Hmv. exact Hmv.
  - rewrite Ec, Ew1. done.
Qed.

Lemma unshield_all m receiver rem w u w' a :
  pool_ok w → receiver ≠ PoolAddress → c_Authorization (ps_ctx (snd w)) = Some a → NoDup (Denom <$> rem) →
  (∀ r, r ∈ rem → au_remaining a !! Denom r = Some (Amount r)) →
  for_each rem (unshield_one m receiver) w = Ok (u, w') →
  pool_effect w w' [] [] ∧ bank_moved (Some PoolAddress) (Some receiver) rem (fst w) (fst w') ∧
  ∃ a', c_Authorization (ps_ctx (snd w')) = Some a' ∧ au_key a' = au_key a ∧ au_nullifiers a' = au_nullifiers a ∧
    (∀ d, au_remaining a' !! d = if decide (d ∈ Denom <$> rem) then Some 0 else au_remaining a !! d).
Proof.
  intros Hok Hne. revert w a u Hok. induction rem as [|r rem IH]; intros w a u Hok Ha Hnd Hrem Hr; cbn [for_each] in Hr.
  - apply ret_ok in Hr. injection Hr as _ ->. split; [apply effect_refl|]. split.
    + split; intros; rewrite AmountOf_nil; repeat case_bool_decide; lia.
    + exists a. split_and!; [done..|]. intros d. by rewrite decide_False by by intros ?%elem_of_nil.
  - cbn [fmap list_fmap] in Hnd. apply NoDup_cons in Hnd as [Hnr Hnd]. apply bind_ok in Hr as (u1 & w1 & H1r & Hr).
    apply unshield_one_ok in H1r as (a1 & v & Ea1 & Ev & E1 & [Hb Hs] & Ea1'); [|done..].
    assert (a1 = a) as -> by congruence. assert (v = Amount r) as -> by (pose proof (Hrem r ltac:(left)); congruence).
    edestruct (IH w1) as (E2 & [Hb' Hs'] & a' & Ea' & Ek & En & Hrem'); [by eapply pe_ok|exact Ea1'|done| |exact Hr|].
    { intros r' Hr'. cbn. rewrite lookup_insert_ne; [apply Hrem; by right|]. intros E. apply Hnr. rewrite E.
      by apply list_elem_of_fmap_2. }
    split; [exact (effect_trans _ _ _ _ _ _ _ E1 E2)|]. split.
    + destruct r as [d v]. cbn [Denom Amount] in *. split.
      * intros x dd. rewrite Hb', Hb, (AmountOf_cons (mkCoin d v) rem), (AmountOf_cons (mkCoin d v) []), AmountOf_nil. clear.
        repeat case_bool_decide; lia.
      * intros dd. rewrite Hs', Hs, (AmountOf_cons (mkCoin d v) rem), (AmountOf_cons (mkCoin d v) []), AmountOf_nil. clear.
        repeat case_bool_decide; lia.
    + exists a'. split_and!; [done|exact Ek|exact En|]. intros d. rewrite Hrem'. cbn. destruct (decide (d ∈ Denom <$> rem)) as [Hin|Hin].
      * rewrite decide_True; [done|]. by right.
      * destruct (decide (Denom r = d)) as [<-|Hd].
        -- rewrite lookup_insert_eq, decide_True; [done|]. by left.
        -- rewrite lookup_insert_ne, decide_False; [done| |done]. by intros [->|?]%elem_of_cons.
Qed.
End spending.
