(* ===== verification/ShieldedMsg.v ===== *)
(** * x/shielded: what a private msg does

    The accounting of a private msg ([ExecutePrivateMsg] and the releases after it), the spent set, the authorization that
    guards the handlers, and the send restriction that closes the pool's account. *)

From S2P Require Export ShieldedEffects ShieldedAnte.

Section msg.
Context `{HostLaws, !PoolEnv}.
Implicit Types (w : PoolWorld) (m : PrivateMsg).

(** The nullifiers a msg spends and the notes it appends. *)
Definition msg_nullifiers m : list bytes := pm_Bundles m ≫= Nullifiers.
Definition msg_commitments m : list bytes := pm_Bundles m ≫= λ b, act_Commitment <$> bun_Actions b.

(** Its commitments are bytes, and its unshield does not go to the pool itself. *)
Definition msg_ok m : Prop :=
  msg_typed m ∧ (∀ b, b ∈ pm_Bundles m → Forall is_bytes (act_Commitment <$> bun_Actions b)) ∧
  pm_UnshieldReceiver m ≠ Some (Ok (Some PoolAddress)).

Definition unshields_to m : option bytes :=
  match pm_UnshieldReceiver m with Some (Ok (Some r)) => Some r | _ => None end.

Lemma AuthorizeMsg_ok m ps w u w' :
  msg_typed m → AuthorizeMsg m ps w = Ok (u, w') →
  ∃ rem a, Remainders m = Ok rem ∧ msgKey m = Ok (au_key a) ∧ au_nullifiers a = list_to_set (msg_nullifiers m) ∧
    au_positions a = ps ∧ au_action a = None ∧ au_executed a = false ∧
    (∀ r, r ∈ rem → au_remaining a !! Denom r = Some (Amount r)) ∧
    (∀ d, default 0 (au_remaining a !! d) = AmountOf rem d) ∧
    w' = (fst w, mkPoolState (set_c_Authorization (Some a) (ps_ctx (snd w))) (st w)).
Proof.
  intros Ht Hr. unfold AuthorizeMsg in Hr. apply bind_ok in Hr as (k & w1 & [Hk ->]%lift_ok & Hr).
  apply bind_ok in Hr as (rem & w1 & [Hrem ->]%lift_ok & Hr). cbv zeta in Hr. apply set_ctx_ok in Hr as ->.
  pose proof (Remainders_spec m rem Ht Hrem) as (_ & [Hnd _] & _).
  assert (∀ r : Coin, r ∈ rem → (list_to_map ((λ r, (Denom r, Amount r)) <$> rem) : gmap string Z) !! Denom r = Some (Amount r)) as Hl.
  { intros r Hr. apply elem_of_list_to_map_1.
    - by rewrite <-list_fmap_compose.
    - apply list_elem_of_fmap. by exists r. }
  exists rem, (mkAuthorization k (list_to_set (msg_nullifiers m)) ps
    (list_to_map ((λ r, (Denom r, Amount r)) <$> rem)) None false None).
  split_and!; try done. intros d. cbn [au_remaining].
  destruct (decide (d ∈ Denom <$> rem)) as [Hin|Hn].
  - apply list_elem_of_fmap in Hin as (r & -> & Hr). rewrite Hl by done. cbn. symmetry. by apply AmountOf_elem.
  - rewrite AmountOf_notin by done. rewrite not_elem_of_list_to_map_1; [done|]. by rewrite <-list_fmap_compose.
Qed.

(** Payments that end in the same balances. *)
Definition balances_moved (b b' : bank_state) (f : bytes → string → Z) : Prop :=
  ∀ x d, GetBalance b' x d = GetBalance b x d + f x d.
Definition at_ (x y : bytes) (v : Z) : Z := if bool_decide (x = y) then v else 0.

Lemma moved_balances src dst cs b b' :
  bank_moved (Some src) (Some dst) cs b b' →
  balances_moved b b' (λ x d, at_ x dst (AmountOf cs d) - at_ x src (AmountOf cs d)).
Proof.
  intros [Hb _] x d. rewrite Hb. unfold at_.
  rewrite (bool_decide_ext (Some src = Some x) (x = src)) by (split; congruence).
  rewrite (bool_decide_ext (Some dst = Some x) (x = dst)) by (split; congruence).
  repeat case_bool_decide; lia.
Qed.

(** A msg was executed: what it released ([rem]), the authorization recorded, the notes and nullifiers, and the coins: the
    fee to the collector, and an unshield's whole remainder to its receiver. *)
Record executed m w w' (rem : list Coin) (a : Authorization) : Prop := {
  ex_rem : Remainders m = Ok rem;
  ex_auth : c_Authorization (ps_ctx (snd w')) = Some a;
  ex_key : msgKey m = Ok (au_key a);
  ex_nullifiers : au_nullifiers a = list_to_set (msg_nullifiers m);
  ex_effect : pool_effect w w' (msg_commitments m) (msg_nullifiers m);
  ex_distinct : NoDup (msg_nullifiers m);
  ex_fresh : ∀ nf, nf ∈ msg_nullifiers m → nf ∉ p_Nullifiers (st w);
  ex_paid : balances_moved (fst w) (fst w') (λ x d,
    at_ x (NewModuleAddress FeeCollectorName) (fee_of m d) +
    match unshields_to m with Some r => at_ x r (AmountOf rem d) | None => 0 end -
    at_ x PoolAddress (fee_of m d + match unshields_to m with Some _ => AmountOf rem d | None => 0 end));
  ex_remaining : ∀ d, default 0 (au_remaining a !! d) = match unshields_to m with Some _ => 0 | None => AmountOf rem d end;
}.

Lemma fee_paid m w u w' :
  pool_ok w → 0 ≤ pm_Fee m →
  (if 0 <? pm_Fee m then payFee (pm_Fee m) else mret ()) w = Ok (u, w') →
  pool_effect w w' [] [] ∧ balances_moved (fst w) (fst w') (λ x d,
    at_ x (NewModuleAddress FeeCollectorName) (fee_of m d) - at_ x PoolAddress (fee_of m d)).
Proof.
  intros Hok Hfee Hf. destruct (Z.ltb_spec 0 (pm_Fee m)) as [Hpos|Hz].
  - apply payFee_effect in Hf as (E & _ & Hmv & _); [|done]. split; [done|]. intros x d.
    rewrite (moved_balances _ _ _ _ _ Hmv x d). unfold fee_of. rewrite AmountOf_cons, AmountOf_nil. cbn [Denom Amount].
    rewrite Z.add_0_r. rewrite (bool_decide_ext (FeeDenom = d) (d = FeeDenom)) by (split; congruence). done.
  - apply ret_ok in Hf. injection Hf as _ ->. split; [apply effect_refl|]. intros x d.
    assert (fee_of m d = 0) as ->; [|unfold at_; clear; repeat case_bool_decide; lia].
    unfold fee_of. case_bool_decide; lia.
Qed.

Lemma AuthorizeMsg_effect m ps w u w' : AuthorizeMsg m ps w = Ok (u, w') → pool_effect w w' [] [] ∧ fst w' = fst w.
Proof.
  unfold AuthorizeMsg. intros Ha. apply bind_ok in Ha as (k & w4 & [_ ->]%lift_ok & Ha).
  apply bind_ok in Ha as (r & w4 & [_ ->]%lift_ok & Ha). by apply set_auth_effect in Ha.
Qed.

(** The execution up to the authorization. *)
Lemma executed_authorized m w ps w1 u1 w2 u2 w3 :
  pool_ok w → msg_ok m → execute_bundles (pm_Bundles m) w = Ok (ps, w1) →
  (if 0 <? pm_Fee m then payFee (pm_Fee m) else mret ()) w1 = Ok (u1, w2) → AuthorizeMsg m ps w2 = Ok (u2, w3) →
  ∃ rem a, Remainders m = Ok rem ∧ c_Authorization (ps_ctx (snd w3)) = Some a ∧ msgKey m = Ok (au_key a) ∧
    au_nullifiers a = list_to_set (msg_nullifiers m) ∧ pool_effect w w3 (msg_commitments m) (msg_nullifiers m) ∧
    NoDup (msg_nullifiers m) ∧ (∀ nf, nf ∈ msg_nullifiers m → nf ∉ p_Nullifiers (st w)) ∧
    balances_moved (fst w) (fst w3) (λ x d,
      at_ x (NewModuleAddress FeeCollectorName) (fee_of m d) - at_ x PoolAddress (fee_of m d)) ∧
    (∀ r, r ∈ rem → au_remaining a !! Denom r = Some (Amount r)) ∧
    (∀ d, default 0 (au_remaining a !! d) = AmountOf rem d).
Proof.
  intros Hok (Ht & Hcm & _) Hb Hf Ha.
  apply execute_bundles_effect in Hb as (E1 & Eb1 & Hnd & Hfr); [|done..]. pose proof (pe_ok _ _ _ _ E1 Hok) as Hok1.
  apply fee_paid in Hf as [E2 Hfee]; [|done|apply Ht]. pose proof (AuthorizeMsg_effect _ _ _ _ _ Ha) as [E3 Eb3].
  apply AuthorizeMsg_ok in Ha as (rem & a & Hrem & Hk & Hnf & _ & _ & _ & Hl & Hd & Ew3); [|done].
  pose proof (effect_trans _ _ _ _ _ _ _ (effect_trans _ _ _ _ _ _ _ E1 E2) E3) as E13. rewrite !app_nil_r in E13.
  exists rem, a. split_and!; try done; [by rewrite Ew3|]. intros x d. rewrite Eb3, Hfee, Eb1. done.
Qed.

Lemma ExecutePrivateMsg_spec m w u w' :
  pool_ok w → msg_ok m → ExecutePrivateMsg m w = Ok (u, w') → ∃ rem a, executed m w w' rem a.
Proof.
  intros Hok Hm Hr. unfold ExecutePrivateMsg in Hr. apply bind_ok in Hr as (ps & w1 & Hb & Hr).
  apply bind_ok in Hr as (u1 & w2 & Hf & Hr). apply bind_ok in Hr as (u2 & w3 & Ha & Hr).
  destruct (executed_authorized m w ps w1 u1 w2 u2 w3 Hok Hm Hb Hf Ha)
    as (rem & a & Hrem & Hca & Hk & Hnf & E & Hnd & Hfr & Hpaid & Hl & Hd).
  assert (unshields_to m = None → w' = w3 → ∃ rem a, executed m w w' rem a) as Hnone.
  { intros Hn ->. exists rem, a. split; try done.
    - intros x d. rewrite Hn, Hpaid. unfold at_. clear. repeat case_bool_decide; lia.
    - by rewrite Hn. }
  unfold unshields_to in Hnone. destruct (pm_UnshieldReceiver m) as [recv|] eqn:Eu;
    [|apply ret_ok in Hr; injection Hr as _ ->; by apply Hnone].
  apply bind_ok in Hr as (r & w4 & [-> ->]%lift_ok & Hr).
  destruct r as [r|]; [|apply ret_ok in Hr; injection Hr as _ ->; by apply Hnone].
  clear Hnone. unfold unshield in Hr. apply bind_ok in Hr as (rem' & w4 & [Hrem' ->]%lift_ok & Hr).
  assert (rem' = rem) as -> by congruence. destruct (Remainders_spec m rem (proj1 Hm) Hrem) as (_ & [Hndr _] & _).
  apply (unshield_all m r rem _ _ _ a) in Hr as (E4 & Hmv & a' & Ha' & Ek & En & Hrem4);
    [|by eapply pe_ok|destruct Hm as (_ & _ & Hne); congruence|done..].
  pose proof (effect_trans _ _ _ _ _ _ _ E E4) as E'. rewrite !app_nil_r in E'.
  assert (unshields_to m = Some r) as Eto by (unfold unshields_to; by rewrite Eu).
  exists rem, a'. split; try done; [congruence..| |].
  - intros x d. rewrite Eto, (moved_balances _ _ _ _ _ Hmv x d), Hpaid. unfold at_. clear. repeat case_bool_decide; lia.
  - intros d. rewrite Eto, Hrem4. destruct (decide _) as [Hin|Hin]; [done|]. rewrite Hd. by apply AmountOf_notin.
Qed.

(** ** The spent set refuses *)

(** Spent nullifiers are final: neither the check nor the execution of a msg that spends one passes. *)
Lemma spent_refused nfs w nf : nf ∈ nfs → nf ∈ p_Nullifiers (st w) → ∀ r, for_each nfs spend w ≠ Ok r.
Proof. intros Hin Hs [u w'] (_ & Hfr & _)%spend_all. by apply (Hfr nf). Qed.

Lemma check_spent_refused (Rest : Type) actions m w nf :
  nf ∈ msg_nullifiers m → nf ∈ p_Nullifiers (st w) → ∀ r, CheckPrivateMsg Rest actions m w ≠ Ok r.
Proof.
  intros (b & Hnf & Hb)%list_elem_of_bind Hs [p w'] Hr. unfold CheckPrivateMsg in Hr.
  apply bind_ok in Hr as (u1 & w1 & ->%reads_check_sizes & Hr). apply bind_ok in Hr as (u2 & w1 & ->%reads_check_anchors & Hr).
  apply bind_ok in Hr as (u3 & w1 & Hr & _). revert Hr. generalize (pm_Bundles m), Hb. clear Hb.
  intros bs Hb. induction Hb as [b' bs|b' y bs Hb IH]; cbn [for_each]; intros Hr; apply bind_ok in Hr as (u & w2 & Hc & Hr).
  - clear Hr. unfold check_spends in Hc. apply bind_ok in Hc as (u4 & w3 & Hc & _). revert Hc. clear -Hnf Hs.
    induction Hnf as [nf l|nf y l Hin IH]; cbn [for_each]; intros Hc; apply bind_ok in Hc as (u5 & w4 & Hc1 & Hc2).
    + apply bind_ok in Hc1 as (sp & w5 & [-> ->]%get_store_ok & [Hn _]%refuse_if_ok).
      by apply bool_decide_eq_false in Hn.
    + assert (w4 = w) as ->; [|by apply IH]. revert Hc1. apply (reads_bind (get_store _)); [apply reads_gets|].
      intros; apply reads_refuse.
  - rewrite (reads_check_spends _ _ _ _ Hc) in Hr. by apply (IH Hnf).
Qed.

Lemma execute_spent_refused m w nf :
  pool_ok w → msg_ok m → nf ∈ msg_nullifiers m → nf ∈ p_Nullifiers (st w) → ∀ r, ExecutePrivateMsg m w ≠ Ok r.
Proof.
  intros Hok Hm Hin Hs [u w'] Hr. apply ExecutePrivateMsg_spec in Hr as (rem & a & Hx); [|done..].
  by apply (ex_fresh _ _ _ _ _ Hx nf).
Qed.

(** A claimed remainder is gone. *)
Lemma release_claimed m d w a :
  c_Authorization (ps_ctx (snd w)) = Some a → au_remaining a !! d = Some 0 → ∀ r, release m d w ≠ Ok r.
Proof.
  intros Ha Hd [c w'] (a' & v & Ea & _ & Ev & Hv & _)%release_ok. assert (a' = a) as -> by congruence.
  rewrite Hd in Ev. injection Ev as <-. lia.
Qed.

Lemma ReleaseToModule_release m d t w c w' :
  ReleaseToModule m d t w = Ok (c, w') → ∃ w1, release m d w = Ok (c, w1) ∧ ps_ctx (snd w') = ps_ctx (snd w1).
Proof.
  intros Hr. unfold ReleaseToModule in Hr. apply bind_ok in Hr as (u & w1 & [_ ->]%lift_ok & Hr).
  apply bind_ok in Hr as (z & w1 & [_ ->]%lift_ok & Hr). apply bind_ok in Hr as (u1 & w1 & [_ ->]%read_bank_ok & Hr).
  apply bind_ok in Hr as (c' & w1 & Hrel & Hr). apply bind_ok in Hr as ([] & w2 & [_ Es]%send_m2m_moved & Hr).
  apply bind_ok in Hr as (u2 & w3 & Hc & [= -> <-]%ret_ok). exists w1. split; [done|].
  unfold countOut in Hc. pool_inv. by rewrite <-Es.
Qed.
End msg.

(** ** Properties *)
Section msg_properties.
Context `{HostLaws, !PoolEnv}.
Implicit Types (w : PoolWorld) (m : PrivateMsg).

(** C7: A private msg moves exactly what its bundles release: executed on a sound pool it leaves a sound pool, pays the
    collector exactly the fee and an unshield's receiver, per denom, exactly the bundles' balance less the fee, out of the
    pool's account and to the unit; what it does not pay out stays claimable, once, by its handler.  Its nullifiers were
    unspent and pairwise distinct and are spent now, and the notes it appends are exactly its commitments, in order. *)
Theorem private_msg_conserves m w u w' :
  pool_ok w → msg_ok m → ExecutePrivateMsg m w = Ok (u, w') →
  let out d := balances_of m d - fee_of m d in
  pool_ok w' ∧ pm_Fee m ≤ balances_of m FeeDenom ∧
  (∀ x d, GetBalance (fst w') x d = GetBalance (fst w) x d +
     at_ x (NewModuleAddress FeeCollectorName) (fee_of m d) +
     match unshields_to m with Some r => at_ x r (out d) | None => 0 end -
     at_ x PoolAddress (fee_of m d + match unshields_to m with Some _ => out d | None => 0 end)) ∧
  (∃ a, c_Authorization (ps_ctx (snd w')) = Some a ∧ msgKey m = Ok (au_key a) ∧
     ∀ d, default 0 (au_remaining a !! d) = match unshields_to m with Some _ => 0 | None => out d end) ∧
  NoDup (msg_nullifiers m) ∧ (∀ nf, nf ∈ msg_nullifiers m → nf ∉ p_Nullifiers (st w)) ∧
  p_Nullifiers (st w') = list_to_set (msg_nullifiers m) ∪ p_Nullifiers (st w) ∧
  (∀ L, notes_rep (st w) L → ∃ es, mapM FieldFromBytes (msg_commitments m) = Ok es ∧ notes_rep (st w') (L ++ es)).
Proof.
  intros Hok Hm Hr out. destruct (ExecutePrivateMsg_spec m w u w' Hok Hm Hr) as (rem & a & []).
  destruct (Remainders_spec m rem (proj1 Hm) ex_rem0) as (Hout & _ & Hfee & _). fold (out) in Hout.
  destruct ex_effect0 as [_ Hok' Hnotes Hnf]. split_and!; try done.
  - by apply Hok'.
  - intros x d. rewrite (ex_paid0 x d), Hout. unfold out. by destruct (unshields_to m); lia.
  - exists a. split_and!; [done..|]. intros d. by rewrite ex_remaining0, Hout.
Qed.

(** C8: What a private msg leaves to its handler is paid once: a release needs the authorization of that very msg (its
    hash), pays the target module exactly what remains of the denom, positive and out of the pool's account, and
    afterwards no release of the denom passes, whatever msg and target it names. *)
Theorem release_pays_once m d target w c w' :
  pool_ok w → ReleaseToModule m d target w = Ok (c, w') →
  (∃ a, c_Authorization (ps_ctx (snd w)) = Some a ∧ msgKey m = Ok (au_key a) ∧ au_remaining a !! d = Some (Amount c) ∧
    0 < Amount c ∧ Denom c = d) ∧
  pool_ok w' ∧ target ≠ shielded_ModuleName ∧
  bank_moved (Some PoolAddress) (Some (NewModuleAddress target)) [c] (fst w) (fst w') ∧
  p_Nullifiers (st w') = p_Nullifiers (st w) ∧
  ∀ m' target' r, ReleaseToModule m' d target' w' ≠ Ok r.
Proof.
  intros Hok Hr. pose proof (ReleaseToModule_effect _ _ _ _ _ _ Hok Hr) as [_ Hok' _ Hnf].
  destruct (ReleaseToModule_release _ _ _ _ _ _ Hr) as (w1 & Hrel & Ectx). apply ReleaseToModule_moved in Hr as (Ht & Hd & Hmv).
  destruct (release_ok _ _ _ _ _ Hrel) as (a & v & Ea & Hk & Ev & Hv & -> & ->). split_and!; try done.
  - by exists a.
  - by apply Hok'.
  - rewrite Hnf. set_solver.
  - intros m' t' [c' w''] (w2 & Hrel' & _)%ReleaseToModule_release. revert Hrel'. eapply release_claimed.
    + rewrite Ectx. reflexivity.
    + apply lookup_insert_eq.
Qed.
End msg_properties.
