(* ===== verification/ShieldedRoots.v ===== *)
(** * x/shielded: anchors and the end of a block

    What [EndBlocker] does on a sound pool: it always returns, records the tree's root as the latest anchor, starts the window
    of the one it replaces and prunes closed windows only. *)

From S2P Require Export ShieldedMsg.

Section anchors.
Context `{HostLaws, !PoolEnv}.
Implicit Types (w : PoolWorld) (s : PoolStore) (r root : bytes) (t : Z).

Definition with_store (f : PoolStore → PoolStore) w : PoolWorld := (fst w, mkPoolState (ps_ctx (snd w)) (f (st w))).
Definition now_of w : Z := c_Time (ps_ctx (snd w)).

(** Every recorded root is the root of a prefix of the notes, of the size it records. *)
Definition records_are (P : bytes → Z → Prop) s : Prop :=
  ∀ r rec, p_Roots s !! r = Some rec → rr_Root rec = r ∧ P r (rr_TreeSize rec).
Definition root_of_prefix (L : list Z) root (n : Z) : Prop :=
  0 ≤ n ≤ Z.of_nat (length L) ∧ root = FieldBytes (ref_root (take (Z.to_nat n) L)).
Definition anchored s (L : list Z) : Prop := records_are (root_of_prefix L) s.

(** Seconds at which [int64] arithmetic with a window is exact. *)
Definition time_ok t : Prop := 0 < t < 2 ^ 62.

(** The by-time index is exact, and the latest root is recorded and not superseded. *)
Record index_ok s : Prop := {
  io_root : ∀ r rec, p_Roots s !! r = Some rec → rr_Root rec = r ∧ r ≠ [] ∧ time_ok (windowStart rec);
  io_index : ∀ t r, (t, r) ∈ p_RootsByTime s ↔ ∃ rec, p_Roots s !! r = Some rec ∧ windowStart rec = t;
  io_latest : ∀ r, p_LatestRoot s = Some r → is_Some (p_Roots s !! r);
}.

(** ** The steps of the end of a block, as functions *)
Definition set_superseded t rec := mkRootRecord (rr_Root rec) (rr_Height rec) (rr_Time rec) (rr_TreeSize rec) t.
Definition superseded root t s : PoolStore :=
  match p_Roots s !! root with
  | None => s
  | Some rec =>
      let rec' := set_superseded t rec in
      set_p_RootsByTime ({[(windowStart rec', rr_Root rec')]} ∪.)
        (set_p_Roots <[rr_Root rec' := rec']> (set_p_RootsByTime (.∖ {[(windowStart rec, rr_Root rec)]}) s))
  end.

Definition put_root rec s : PoolStore :=
  set_p_LatestRoot (Some (rr_Root rec))
    (set_p_RootsByTime ({[(windowStart rec, rr_Root rec)]} ∪.) (set_p_Roots <[rr_Root rec := rec]> s)).

Definition recorded root (size now height : Z) s : PoolStore :=
  let latest := default [] (p_LatestRoot s) in
  if bool_decide (latest = root) then s
  else put_root (mkRootRecord root height now size 0)
         (if (0 <? length latest)%nat then superseded latest now s else s).

Fixpoint pruned (ks : list (Z * bytes)) s : PoolStore :=
  match ks with [] => s | k :: ks => pruned ks (set_p_Roots (delete (snd k)) (set_p_RootsByTime (.∖ {[k]}) s)) end.

Lemma with_store_id w : with_store id w = w.
Proof. by destruct w as [b [c s]]. Qed.

Lemma supersede_run root t w : supersede root t w = Ok ((), with_store (superseded root t) w).
Proof.
  unfold supersede, superseded, with_store, get_store. erewrite run_bind by reflexivity. cbv beta. fold (st w).
  destruct (p_Roots (st w) !! root) as [rec|]; [reflexivity|]. by destruct w as [b [c s]].
Qed.

Lemma putRoot_run rec w : putRoot rec true w = Ok ((), with_store (put_root rec) w).
Proof. reflexivity. Qed.

Lemma run_root L w :
  notes_rep (st w) L → run_tree (note_tree (st w)) Merkle.Root w = Ok ((ref_root L, note_tree (st w)), w).
Proof.
  intros HL. unfold run_tree. rewrite (run_bind _ _ _ (ref_root L, note_tree (st w)) w).
  - unfold set_store, modify. erewrite run_bind by reflexivity. destruct w as [b [c []]]. reflexivity.
  - unfold lift. by rewrite (Root_spec _ _ HL).
Qed.

Lemma recordRoot_run L w :
  notes_rep (st w) L →
  recordRoot w = Ok ((), with_store (recorded (FieldBytes (ref_root L)) (Z.of_nat (length L)) (now_of w) (c_Height (ps_ctx (snd w)))) w).
Proof.
  intros HL. unfold recordRoot. rewrite (run_bind _ _ _ (note_tree (st w)) w) by by apply tree_run.
  rewrite (run_bind _ _ _ _ _ (run_root L w HL)). cbv beta iota zeta.
  assert (Merkle.Size (note_tree (st w)) = Z.of_nat (length L)) as ->.
  { destruct HL as (_ & E & _). exact E. }
  generalize (FieldBytes (ref_root L)). clear HL. intros root. unfold recorded.
  erewrite run_bind by reflexivity. cbv beta. fold (st w). change (ps_store (snd w)) with (st w).
  destruct (bool_decide (default [] (p_LatestRoot (st w)) = root)) eqn:E.
  - rewrite <-(with_store_id w) at 1. unfold with_store at 2. rewrite E. reflexivity.
  - unfold with_store at 1. rewrite E. erewrite run_bind by reflexivity. cbv beta. erewrite run_bind by reflexivity. cbv beta.
    destruct (0 <? length (default [] (p_LatestRoot (st w))))%nat.
    + rewrite (run_bind _ _ _ _ _ (supersede_run _ _ _)). reflexivity.
    + reflexivity.
Qed.

(** ** What the walk dooms *)
Lemma doomed_elem latest window now limit l k :
  k ∈ doomed_walk latest window now limit l →
  k ∈ l ∧ snd k ≠ latest ∧ wrap_i64 (fst k + wrap_i64 window) < now.
Proof.
  revert limit. induction l as [|x l IH]; intros limit; cbn [doomed_walk]; [by intros ?%elem_of_nil|].
  destruct (_ || _) eqn:E; [by intros ?%elem_of_nil|]. apply orb_false_iff in E as [_ E%Z.leb_gt].
  case_bool_decide as Hs.
  - intros (? & ? & ?)%IH. split_and!; [by right|done..].
  - intros [->|(? & ? & ?)%IH]%elem_of_cons; split_and!; try done; [by left|by right].
Qed.

Lemma pruned_Roots ks s r :
  p_Roots (pruned ks s) !! r = if bool_decide (r ∈ snd <$> ks) then None else p_Roots s !! r.
Proof.
  revert s. induction ks as [|k ks IH]; intros s; cbn [pruned fmap list_fmap].
  - by rewrite bool_decide_eq_false_2 by by intros ?%elem_of_nil.
  - rewrite IH. cbn. destruct (decide (r ∈ snd <$> ks)) as [Hin|Hn].
    + rewrite !bool_decide_eq_true_2; [done|by right|done].
    + rewrite (bool_decide_eq_false_2 (r ∈ snd <$> ks)) by done. destruct (decide (r = snd k)) as [->|Hne].
      * rewrite bool_decide_eq_true_2 by by left. by rewrite lookup_delete_eq.
      * rewrite bool_decide_eq_false_2 by by intros [?|?]%elem_of_cons. by rewrite lookup_delete_ne.
Qed.

Lemma pruned_ByTime ks s : p_RootsByTime (pruned ks s) = p_RootsByTime s ∖ list_to_set ks.
Proof. revert s. induction ks as [|k ks IH]; intros s; cbn [pruned list_to_set]; [set_solver|]. rewrite IH. cbn. set_solver. Qed.

(** The rest of the store is as it was: what the root operations keep. *)
Definition same_pool s s' : Prop :=
  p_Params s' = p_Params s ∧ note_tree s' = note_tree s ∧ p_Nullifiers s' = p_Nullifiers s ∧ p_Assets s' = p_Assets s ∧
  p_AssetsByID s' = p_AssetsByID s ∧ p_Turnstiles s' = p_Turnstiles s ∧ p_DirtyDenoms s' = p_DirtyDenoms s.

#[export] Instance same_pool_preorder : PreOrder same_pool.
Proof. split; [done|]. intros s1 s2 s3 (?&?&?&?&?&?&?) (?&?&?&?&?&?&?). repeat split; congruence. Qed.

Lemma superseded_same root t s : same_pool s (superseded root t s).
Proof. unfold superseded. by destruct (p_Roots s !! root). Qed.
Lemma recorded_same root n t h s : same_pool s (recorded root n t h s).
Proof.
  unfold recorded. destruct (bool_decide _); [done|]. destruct (_ <? _)%nat; [|done]. etrans; [apply superseded_same|]. done.
Qed.
Lemma pruned_same ks s : same_pool s (pruned ks s) ∧ p_LatestRoot (pruned ks s) = p_LatestRoot s.
Proof.
  revert s. induction ks as [|k ks IH]; intros s; [done|]. cbn [pruned].
  destruct (IH (set_p_Roots (delete (snd k)) (set_p_RootsByTime (.∖ {[k]}) s))) as [Hs ->]. split; [|done]. etrans; [|exact Hs]. done.
Qed.

Lemma pool_ok_same w s' : same_pool (st w) s' → pool_ok w → pool_ok (with_store (λ _, s') w).
Proof.
  intros (Ep & Et & En & Ea & Eb & Eu & _) []. split; unfold st in *; cbn.
  - by rewrite Eu.
  - unfold notes_rep in *. by rewrite Et.
  - unfold assets_ok in *. by rewrite Ea, Eb.
  - by rewrite Ep.
Qed.

(** ** The end of a block *)
Definition ended (L : list Z) (window : Z) w : PoolStore :=
  let s := recorded (FieldBytes (ref_root L)) (Z.of_nat (length L)) (now_of w) (c_Height (ps_ctx (snd w))) (st w) in
  set_p_DirtyDenoms (λ _, ∅) (set_p_PrivateActionCount None
    (pruned (doomed_walk (default [] (p_LatestRoot s)) window (now_of w) RootPruneLimit (iter_set (p_RootsByTime s))) s)).

Lemma checkDenom_run w d : turnstiles_ok (fst w) (p_Turnstiles (st w)) → checkDenom d w = Ok ((), w).
Proof.
  intros Hts. destruct (Hts d) as (Eb & Ho & _). pose proof (GetBalance_range (fst w) PoolAddress d) as Hb.
  unfold checkDenom, turnstile, turnstile_of. erewrite run_bind by reflexivity. cbv beta. erewrite run_bind by reflexivity. cbv beta.
  change (default (mkTurnstile d 0 0) (p_Turnstiles (ps_store (snd w)) !! d)) with (turnstile_at (p_Turnstiles (st w)) d).
  rewrite (run_bind _ _ _ (GetBalance (fst w) PoolAddress d) w).
  - by rewrite Z.eqb_refl.
  - unfold lift, Held. rewrite IntSub_spec, <-Eb. replace (fits_int _) with true; [done|]. symmetry. apply fits_int_spec.
    unfold MaxBitLen in Hb. lia.
Qed.

Lemma assertMoved_run w :
  turnstiles_ok (fst w) (p_Turnstiles (st w)) → assertMoved w = Ok ((), with_store (set_p_DirtyDenoms (λ _, ∅)) w).
Proof.
  intros Hts. unfold assertMoved. erewrite run_bind by reflexivity. cbv beta.
  assert (∀ l w, turnstiles_ok (fst w) (p_Turnstiles (st w)) →
    for_each l (λ d, checkDenom d;; set_store (set_p_DirtyDenoms (.∖ {[d]}))) w =
      Ok ((), with_store (set_p_DirtyDenoms (.∖ list_to_set l)) w)) as Hl.
  { clear -H0. intros l. induction l as [|d l IH]; intros w Hts; cbn [for_each].
    - unfold with_store. destruct w as [b [c []]]. cbn. unfold set_p_DirtyDenoms. cbn. by rewrite difference_empty_L.
    - rewrite (run_bind _ _ _ () (with_store (set_p_DirtyDenoms (.∖ {[d]})) w)).
      + rewrite IH by done. unfold with_store, set_p_DirtyDenoms, st. cbn. by rewrite difference_difference_l_L.
      + by rewrite (run_bind _ _ _ _ _ (checkDenom_run w d Hts)). }
  rewrite Hl by done. unfold with_store, set_p_DirtyDenoms. cbn.
  assert (∀ X : gset string, X ∖ list_to_set (iter_set X) = ∅) as ->; [|done]. intros X. apply set_eq. intros x.
  rewrite elem_of_difference, elem_of_list_to_set, elem_of_iter_set. set_solver.
Qed.

Lemma pruneRoots_run window limit w :
  pruneRoots window limit w = Ok ((), with_store (λ s,
    pruned (doomed_walk (default [] (p_LatestRoot s)) window (now_of w) limit (iter_set (p_RootsByTime s))) s) w).
Proof.
  unfold pruneRoots. do 3 (erewrite run_bind by reflexivity; cbv beta). unfold now_of, with_store, st.
  generalize (doomed_walk (default [] (p_LatestRoot (ps_store (snd w)))) window (c_Time (ps_ctx (snd w))) limit
    (iter_set (p_RootsByTime (ps_store (snd w))))). intros ks. clear window limit. revert w.
  induction ks as [|k ks IH]; intros w; cbn [for_each pruned].
  - by destruct w as [b [c s]].
  - erewrite run_bind by reflexivity. rewrite IH. reflexivity.
Qed.

Lemma EndBlocker_run L p w :
  pool_ok w → notes_rep (st w) L → p_Params (st w) = Some p →
  EndBlocker w = Ok ((), with_store (λ _, ended L (RootWindowSeconds p) w) w).
Proof.
  intros Hok HL Hp. unfold EndBlocker. rewrite (run_bind _ _ _ _ _ (recordRoot_run L w HL)).
  set (s1 := recorded (FieldBytes (ref_root L)) (Z.of_nat (length L)) (now_of w) (c_Height (ps_ctx (snd w))) (st w)).
  change (with_store (recorded _ _ _ _) w) with (with_store (λ _, s1) w).
  pose proof (recorded_same (FieldBytes (ref_root L)) (Z.of_nat (length L)) (now_of w) (c_Height (ps_ctx (snd w))) (st w)) as Hs1.
  fold s1 in Hs1. rewrite (run_bind _ _ _ p (with_store (λ _, s1) w)).
  2: { apply GetParams_ok. split; [|done]. cbn. destruct Hs1 as [-> _]. done. }
  rewrite (run_bind _ _ _ _ _ (pruneRoots_run _ _ _)). erewrite run_bind by reflexivity. cbv beta.
  rewrite assertMoved_run; [reflexivity|].
  pose (ks := doomed_walk (default [] (p_LatestRoot s1)) (RootWindowSeconds p) (now_of w) RootPruneLimit (iter_set (p_RootsByTime s1))).
  change (turnstiles_ok (fst w) (p_Turnstiles (pruned ks s1))).
  destruct (pruned_same ks s1) as [(_ & _ & _ & _ & _ & -> & _) _]. destruct Hs1 as (_ & _ & _ & _ & _ & -> & _).
  apply (po_turnstiles w Hok).
Qed.

(** ** What stays true of the records *)
Lemma superseded_Roots root t s r :
  (∀ rec, p_Roots s !! root = Some rec → rr_Root rec = root) →
  p_Roots (superseded root t s) !! r = if bool_decide (r = root) then set_superseded t <$> p_Roots s !! r else p_Roots s !! r.
Proof.
  intros Hk. unfold superseded. destruct (p_Roots s !! root) as [rec|] eqn:E; cbn.
  - specialize (Hk rec eq_refl). case_bool_decide as Hr.
    + subst r. rewrite Hk, lookup_insert_eq, E. done.
    + rewrite lookup_insert_ne; [done|congruence].
  - case_bool_decide as Hr; [|done]. subst. by rewrite E.
Qed.

Lemma records_superseded P root t s : records_are P s → records_are P (superseded root t s).
Proof.
  intros Ha r rec. rewrite superseded_Roots by (intros rec' Hr'; by apply Ha). case_bool_decide as Hr; [|apply Ha].
  destruct (p_Roots s !! r) as [rec0|] eqn:E; [|done]. intros [= <-]. cbn. by apply Ha.
Qed.

Lemma records_recorded P root n now h s : P root n → records_are P s → records_are P (recorded root n now h s).
Proof.
  intros HP Ha. unfold recorded. case_bool_decide; [done|]. set (s' := if _ : bool then _ else _).
  assert (records_are P s') as Ha' by (unfold s'; destruct (_ <? _)%nat; [by apply records_superseded|done]).
  intros r rec. cbn. destruct (decide (root = r)) as [<-|Hne].
  - rewrite lookup_insert_eq. by intros [= <-].
  - rewrite lookup_insert_ne by done. apply Ha'.
Qed.

Lemma records_pruned P ks s : records_are P s → records_are P (pruned ks s).
Proof. intros Ha r rec. rewrite pruned_Roots. case_bool_decide; [done|]. apply Ha. Qed.

Lemma anchored_ended L window w : anchored (st w) L → anchored (ended L window w) L.
Proof.
  intros Ha. apply (records_pruned _ _ (recorded _ _ _ _ _)), records_recorded, Ha. split; [lia|].
  rewrite Nat2Z.id, take_ge by lia. reflexivity.
Qed.

Lemma windowStart_superseded t rec : time_ok t → windowStart (set_superseded t rec) = t.
Proof. intros Ht. unfold windowStart. cbn. unfold time_ok in Ht. destruct (Z.eqb_spec t 0); [lia|done]. Qed.

Lemma superseded_index root t s : index_ok s → time_ok t → index_ok (superseded root t s).
Proof.
  intros [Hr Hi Hl] Ht. assert (∀ rec, p_Roots s !! root = Some rec → rr_Root rec = root) as Hk by (intros; by apply Hr).
  pose proof (superseded_Roots root t s) as Hlook. unfold superseded in *. destruct (p_Roots s !! root) as [rec|] eqn:E; [|done].
  specialize (Hk rec eq_refl). assert (rr_Root (set_superseded t rec) = root) as Ek by exact Hk.
  split.
  - intros r rec'. rewrite Hlook by (intros; congruence). case_bool_decide as Hd; [|apply Hr]. subst r. rewrite E. intros [= <-].
    split; [done|]. split; [by apply (Hr root rec)|]. by rewrite windowStart_superseded.
  - intros t' r. rewrite Hlook by (intros; congruence).
    cbn [p_RootsByTime set_p_RootsByTime set_p_Roots]. rewrite windowStart_superseded by done. rewrite ?Ek, ?Hk.
    rewrite elem_of_union, elem_of_difference, !elem_of_singleton, Hi. case_bool_decide as Hd.
    + subst r. rewrite E. split.
      * intros [[= ->]|[(rec' & [= <-] & <-) Hn]]; [|done]. eexists. split; [done|]. by apply windowStart_superseded.
      * intros (rec' & [= <-] & <-). left. by rewrite windowStart_superseded.
    + split; [intros [[= -> ->]|[Hx _]]; done|]. intros Hx. right. split; [done|]. by intros [= -> ->].
  - intros r. rewrite Hlook by (intros; congruence). cbn [p_LatestRoot set_p_RootsByTime set_p_Roots]. intros Hlr%Hl.
    case_bool_decide; [|done]. by apply fmap_is_Some.
Qed.

Lemma put_root_index rec s :
  index_ok s → p_Roots s !! rr_Root rec = None → rr_Root rec ≠ [] → time_ok (windowStart rec) → index_ok (put_root rec s).
Proof.
  intros [Hr Hi Hl] Hn Hne Ht. unfold put_root. split.
  - intros r rec'. cbn. destruct (decide (rr_Root rec = r)) as [<-|].
    + rewrite lookup_insert_eq. by intros [= <-].
    + rewrite lookup_insert_ne by done. apply Hr.
  - intros t r. cbn. rewrite elem_of_union, elem_of_singleton, Hi. destruct (decide (rr_Root rec = r)) as [<-|Hd].
    + rewrite lookup_insert_eq, Hn. split; [|intros (rec' & [= <-] & <-); by left].
      intros [[= ->]|(rec' & ? & _)]; [by eexists|done].
    + rewrite lookup_insert_ne by done. split; [intros [[= _ E]|?]; [congruence|done]|by right].
  - intros r. cbn. intros [= <-]. by rewrite lookup_insert_eq.
Qed.

Lemma recorded_index root n now h s :
  index_ok s → time_ok now → root ≠ [] → p_LatestRoot s = Some root ∨ p_Roots s !! root = None →
  index_ok (recorded root n now h s) ∧ p_LatestRoot (recorded root n now h s) = Some root.
Proof.
  intros Hi Ht Hne Hr. unfold recorded. case_bool_decide as Hd.
  - split; [done|]. destruct (p_LatestRoot s) as [l|]; cbn in Hd; congruence.
  - destruct Hr as [Hr|Hr]; [by rewrite Hr in Hd|]. split; [|done].
    set (s' := if _ : bool then _ else _).
    assert (index_ok s' ∧ p_Roots s' !! root = None) as [Hi' Hr'].
    { unfold s'. destruct (_ <? _)%nat; [|done]. split; [by apply superseded_index|].
      rewrite superseded_Roots by (intros; by apply Hi). case_bool_decide; [|done]. by rewrite Hr. }
    by apply put_root_index.
Qed.

Lemma pruned_index ks s :
  index_ok s → (∀ k, k ∈ ks → k ∈ p_RootsByTime s ∧ snd k ≠ default [] (p_LatestRoot s)) → index_ok (pruned ks s).
Proof.
  intros [Hr Hi Hl] Hks. split.
  - intros r rec. rewrite pruned_Roots. case_bool_decide; [done|]. apply Hr.
  - intros t r. rewrite pruned_ByTime, elem_of_difference, elem_of_list_to_set, Hi, pruned_Roots. split.
    + intros [(rec & Hrec & Hw) Hn]. exists rec. split; [|done]. rewrite bool_decide_eq_false_2; [done|].
      intros ([t' r'] & -> & Hin)%list_elem_of_fmap. destruct (Hks _ Hin) as [(rec' & Hrec' & Hw')%Hi _]. cbn in *.
      assert (t' = t) as -> by congruence. done.
    + intros (rec & Hrec & Hw). case_bool_decide as Hd; [done|]. split; [by exists rec|]. intros Hin. apply Hd.
      by apply (list_elem_of_fmap_2 snd ks (t, r)).
  - intros r. destruct (pruned_same ks s) as [_ ->]. intros Hlr. rewrite pruned_Roots, bool_decide_eq_false_2; [by apply Hl|].
    intros (k & -> & Hin)%list_elem_of_fmap. apply (Hks k) in Hin as [_ Hn]. by rewrite Hlr in Hn.
Qed.

(** ** Anchors *)

(** The world at another block time. *)
Definition at_time t w : PoolWorld := (fst w, mkPoolState (WithBlockTime t (ps_ctx (snd w))) (ps_store (snd w))).
(** [Anchor] says yes at time [t]. *)
Definition accepts t r w : Prop := ∃ e w', PoolAnchor r (at_time t w) = Ok ((true, e), w').

Lemma accepts_spec t r w p :
  index_ok (st w) → p_Params (st w) = Some p → 0 ≤ RootWindowSeconds p < 2 ^ 62 →
  accepts t r w ↔ ∃ rec, p_Roots (st w) !! r = Some rec ∧
    (p_LatestRoot (st w) = Some r ∨ t ≤ windowStart rec + RootWindowSeconds p).
Proof.
  intros Hi Hp Hw. unfold accepts, PoolAnchor, at_time. setoid_rewrite (run_bind _ _ _ _ _ eq_refl). cbv beta. cbn [snd ps_store].
  fold (st w). destruct (p_Roots (st w) !! r) as [rec|] eqn:Er; [|split; [by intros (e & w' & [=])|by intros (? & ? & _)]].
  destruct (io_root _ Hi r rec Er) as (_ & Hne & Ht). setoid_rewrite (run_bind _ _ _ _ _ eq_refl). cbv beta. cbn [snd ps_store].
  fold (st w). case_bool_decide as Hl.
  - assert (p_LatestRoot (st w) = Some r) as Hl' by (destruct (p_LatestRoot (st w)); cbn in Hl; congruence).
    split; [|intros _; by do 2 eexists]. intros _. exists rec. split; [done|by left].
  - assert (GetParams (fst w, mkPoolState (WithBlockTime t (ps_ctx (snd w))) (ps_store (snd w))) =
      Ok (p, (fst w, mkPoolState (WithBlockTime t (ps_ctx (snd w))) (ps_store (snd w))))) as Hg by by apply GetParams_ok.
    setoid_rewrite (run_bind _ _ _ _ _ Hg). cbv beta zeta. setoid_rewrite (run_bind _ _ _ _ _ eq_refl). cbv beta.
    unfold time_ok in Ht. rewrite !wrap_i64_id by (rewrite ?wrap_i64_id; lia). cbn [snd ps_ctx WithBlockTime c_Time]. split.
    + intros (e & w' & [= E _ _]). exists rec. split; [done|]. right. lia.
    + intros (rec' & [= <-] & [Hlr|Hle]); [by rewrite Hlr in Hl|]. do 2 eexists. unfold mret, prog_ret. repeat f_equal. lia.
Qed.
End anchors.

(** ** The end of a block on a sound pool *)
Section ending.
Context `{HostLaws, !PoolEnv}.
Implicit Types (w : PoolWorld).

Lemma window_range p : params_typed p → Validate p = Ok () → 0 ≤ RootWindowSeconds p < 2 ^ 62.
Proof. intros Ht Hv. apply (Validate_spec p Ht) in Hv as (_ & _ & _ & _ & ? & _). lia. Qed.

Lemma ended_same L window w : same_pool (set_p_DirtyDenoms (λ _, ∅) (st w)) (ended L window w).
Proof.
  unfold ended. generalize (FieldBytes (ref_root L)). intros root. set (s1 := recorded _ _ _ _ _).
  pose proof (recorded_same root (Z.of_nat (length L)) (now_of w) (c_Height (ps_ctx (snd w))) (st w)) as Hs1. fold s1 in Hs1.
  set (ks := doomed_walk _ _ _ _ _). destruct (pruned_same ks s1) as [Hs2 _].
  destruct (transitivity Hs1 Hs2) as (?&?&?&?&?&?&?). by repeat split.
Qed.

Lemma EndBlocker_ok L w :
  pool_ok w → notes_rep (st w) L →
  ∃ w', EndBlocker w = Ok ((), w') ∧ pool_ok w' ∧ fst w' = fst w ∧ ps_ctx (snd w') = ps_ctx (snd w) ∧
    p_Nullifiers (st w') = p_Nullifiers (st w) ∧ notes_rep (st w') L ∧ (anchored (st w) L → anchored (st w') L).
Proof.
  intros Hok HL. destruct (po_params w Hok) as (p & Hp & _).
  pose proof (anchored_ended L (RootWindowSeconds p) w) as Ha. pose proof (ended_same L (RootWindowSeconds p) w) as Hs.
  exists (with_store (λ _, ended L (RootWindowSeconds p) w) w). split; [exact (EndBlocker_run L p w Hok HL Hp)|].
  revert Ha Hs. generalize (ended L (RootWindowSeconds p) w). intros s' Ha (Ep & Et & En & Ea & Eb & Eu & _).
  split_and!.
  - destruct Hok. split; unfold st in *; cbn in *.
    + by rewrite Eu.
    + unfold notes_rep, note_tree in *. cbn in *. by rewrite Et.
    + unfold assets_ok in *. cbn in *. by rewrite Ea, Eb.
    + by rewrite Ep.
  - reflexivity.
  - reflexivity.
  - exact En.
  - unfold notes_rep, note_tree in *. unfold st in *. cbn in *. rewrite Et. exact HL.
  - exact Ha.
Qed.

(** ** The anchors after it *)

(** What [accepts] comes to ([accepts_spec]). *)
Definition valid window t s r : Prop :=
  ∃ rec, p_Roots s !! r = Some rec ∧ (p_LatestRoot s = Some r ∨ t ≤ windowStart rec + window).

Lemma recorded_Roots root n now h s r :
  index_ok s → root ≠ [] → p_LatestRoot s ≠ Some root → p_Roots s !! root = None →
  p_Roots (recorded root n now h s) !! r =
    if bool_decide (r = root) then Some (mkRootRecord root h now n 0)
    else if decide (p_LatestRoot s = Some r) then set_superseded now <$> p_Roots s !! r else p_Roots s !! r.
Proof.
  intros Hi Hne Hl Hn. unfold recorded.
  rewrite bool_decide_eq_false_2 by (destruct (p_LatestRoot s) as [l|]; cbn; congruence).
  unfold put_root. cbn [p_Roots set_p_LatestRoot set_p_RootsByTime set_p_Roots rr_Root]. case_bool_decide as Hr.
  - subst r. by rewrite lookup_insert_eq.
  - rewrite lookup_insert_ne by done. destruct (p_LatestRoot s) as [l|] eqn:El; cbn [default id].
    + destruct (io_latest s Hi l El) as [rec Hrec]. destruct (io_root s Hi l rec Hrec) as (_ & Hlne & _).
      destruct (Nat.ltb_spec 0 (length l)) as [_|Hz]; [|by destruct l; cbn in Hz; [|lia]].
      cbv iota. rewrite superseded_Roots by (intros; by apply Hi). case_bool_decide as Hrl; destruct (decide _); congruence.
    + cbn. destruct (decide _); congruence.
Qed.

Lemma ended_valid root n now h window s t r :
  index_ok s → root ≠ [] → time_ok now → 0 ≤ window < 2 ^ 62 → p_LatestRoot s = Some root ∨ p_Roots s !! root = None → now ≤ t →
  let s1 := recorded root n now h s in
  let s2 := pruned (doomed_walk (default [] (p_LatestRoot s1)) window now RootPruneLimit (iter_set (p_RootsByTime s1))) s1 in
  index_ok s2 ∧ p_LatestRoot s2 = Some root ∧
  (valid window t s2 r ↔ r = root ∨ (if decide (p_LatestRoot s = Some r) then t ≤ now + window else valid window t s r)).
Proof.
  intros Hi Hne Ht Hw Hroot Hle s1. destruct (recorded_index root n now h s Hi Ht Hne Hroot) as [Hi1 Hl1]. fold s1 in Hi1, Hl1.
  set (ks := doomed_walk _ _ _ _ _). intros s2.
  assert (∀ k, k ∈ ks → k ∈ p_RootsByTime s1 ∧ snd k ≠ root ∧ fst k + window < now) as Hks.
  { intros [t' r'] (Hk & Hn & Hd)%doomed_elem. rewrite elem_of_iter_set in Hk. rewrite Hl1 in Hn. split_and!; [done..|].
    apply (io_index s1 Hi1) in Hk as (rec & Hrec & <-). destruct (io_root s1 Hi1 _ _ Hrec) as (_ & _ & Htr). unfold time_ok in Htr.
    cbn [fst] in *. by rewrite !wrap_i64_id in Hd by (rewrite ?wrap_i64_id; lia). }
  destruct (pruned_same ks s1) as [_ Hl2]. fold s2 in Hl2.
  assert (index_ok s2) as Hi2.
  { apply pruned_index; [done|]. intros k Hk. rewrite Hl1. split; by apply Hks. }
  assert (∀ x, valid window t s2 x ↔ valid window t s1 x) as E.
  { intros x. unfold valid. rewrite Hl2. unfold s2. rewrite pruned_Roots. case_bool_decide as Hx; [|done].
    split; [by intros (? & ? & _)|]. apply list_elem_of_fmap in Hx as ([t' r'] & -> & Hk).
    destruct (Hks _ Hk) as (Hk1 & Hk2 & Hk3). apply (io_index s1 Hi1) in Hk1 as (rec & Hrec & Ew). cbn in *.
    intros (rec' & Hrec' & [Hla|Hla]); [congruence|]. assert (rec' = rec) as -> by congruence. lia. }
  split; [done|]. split; [by rewrite Hl2|]. rewrite E. clear E Hks Hi2 Hl2 s2 ks. unfold valid. rewrite Hl1.
  destruct (decide (p_LatestRoot s = Some root)) as [Hlr|Hlr].
  - assert (s1 = s) as Es by (unfold s1, recorded; rewrite Hlr; by rewrite bool_decide_eq_true_2). rewrite Es, Hlr.
    destruct (decide (r = root)) as [->|Hd].
    + destruct (io_latest s Hi root Hlr) as [rec Hrec]. split; [by left|]. intros _. exists rec. split; [done|by left].
    + rewrite decide_False by congruence. split; [intros Hv; by right|by intros [|]].
  - destruct Hroot as [|Hroot]; [done|]. unfold s1. rewrite recorded_Roots by done. case_bool_decide as Hd.
    + subst r. split; [by left|]. intros _. eexists. split; [done|by left].
    + destruct (decide (p_LatestRoot s = Some r)) as [Hla|Hla].
      * destruct (io_latest s Hi r Hla) as [rec Hrec]. rewrite Hrec. cbn [fmap option_fmap option_map]. split.
        -- intros (? & [= <-] & [?|Hb]); [congruence|]. right. by rewrite windowStart_superseded in Hb.
        -- intros [?|Hb]; [done|]. eexists. split; [done|]. right. by rewrite windowStart_superseded.
      * split.
        -- intros (rec & Hrec & [?|Hb]); [congruence|]. right. exists rec. split; [done|by right].
        -- intros [?|(rec & Hrec & [?|Hb])]; [done..|]. exists rec. split; [done|by right].
Qed.

Lemma index_ok_dirty f v s : index_ok s → index_ok (set_p_DirtyDenoms f (set_p_PrivateActionCount v s)).
Proof. intros [Hr Hi Hl]. by split. Qed.
End ending.

(** ** Properties *)
Section root_properties.
Context `{HostLaws, !PoolEnv}.
Implicit Types (w : PoolWorld).

(** C14: The anchor window is exact: the end of a block makes the tree's root the latest anchor, which never expires; the
    anchor it replaces stays valid for the window from now, to the second, however long it had been the latest; and every
    other root is an anchor at a later time exactly when it would have been: pruning takes closed windows only.
    (The new root must not collide with an older recorded one.) *)
Theorem anchor_window_exact w w' L p :
  pool_ok w → notes_rep (st w) L → index_ok (st w) → time_ok (now_of w) → p_Params (st w) = Some p → params_typed p →
  let root := FieldBytes (ref_root L) in
  p_LatestRoot (st w) = Some root ∨ p_Roots (st w) !! root = None →
  EndBlocker w = Ok ((), w') →
  index_ok (st w') ∧ p_LatestRoot (st w') = Some root ∧
  ∀ t r, now_of w ≤ t →
    accepts t r w' ↔
      r = root ∨ (if decide (p_LatestRoot (st w) = Some r) then t ≤ now_of w + RootWindowSeconds p else accepts t r w).
Proof.
  intros Hok HL Hi Ht Hp Hty. destruct (po_params w Hok) as (p' & Hp' & Hv). rewrite Hp in Hp'. injection Hp' as <-.
  pose proof (window_range p Hty Hv) as Hw. pose proof (EndBlocker_run L p w Hok HL Hp) as Hrun.
  pose proof (ended_same L (RootWindowSeconds p) w) as (Ep & _). unfold ended in *.
  assert (FieldBytes (ref_root L) ≠ []) as Hne by (intros E%(f_equal length); rewrite FieldBytes_length in E; discriminate E).
  clear HL. revert Hrun Ep Hne. generalize (FieldBytes (ref_root L)). intros root Hrun Ep Hne. cbv zeta. intros Hroot Hr.
  rewrite Hrun in Hr. injection Hr as <-. pose proof (λ t r, ended_valid root (Z.of_nat (length L)) (now_of w) (c_Height (ps_ctx (snd w)))
    (RootWindowSeconds p) (st w) t r Hi Hne Ht Hw Hroot) as Hev.
  destruct (Hev (now_of w) [] ltac:(lia)) as (Hi2 & Hl2 & _). split; [by apply index_ok_dirty|]. split; [exact Hl2|].
  intros t r Hle. destruct (Hev t r Hle) as (_ & _ & Hval).
  etrans; [apply (accepts_spec t r _ p); [by apply index_ok_dirty|etrans; [exact Ep|exact Hp]|exact Hw]|].
  etrans; [exact Hval|]. apply or_iff_compat_l. destruct (decide _); [done|]. symmetry. by apply accepts_spec.
Qed.
End root_properties.
