(* ===== verification/ShieldedChain.v ===== *)
(** * x/shielded on the chain: reachable states

    A step is an operation of the pool, another transfer of the bank that the send restriction lets through, a change of the
    running context (a new block, a new tx) or the end of a block.  A failed tx changes nothing and is no step. *)

From S2P Require Export ShieldedRoots.

Section chain.
Context `{Host, !PoolEnv} (Rest : Type) (actions : gmap string (PrivateActionHandler Rest)).

(** A decoded msg: its integers are of their widths, its commitments bytes. *)
Definition msg_wf (m : PrivateMsg) : Prop :=
  msg_typed m ∧ ∀ b, b ∈ pm_Bundles m → Forall is_bytes (act_Commitment <$> bun_Actions b).

Inductive chain_step : PoolWorld → PoolWorld → Prop :=
| cs_context w c : chain_step w (fst w, mkPoolState c (ps_store (snd w)))
| cs_shield sender coin pc ct r w w' : sender ≠ PoolAddress → Shield sender coin pc ct w = Ok (r, w') → chain_step w w'
| cs_mint m coin pc ct r w w' : MintNote m coin pc ct w = Ok (r, w') → chain_step w w'
| cs_mint_split m coin pc ct r w w' : MintNoteSplit m coin pc ct w = Ok (r, w') → chain_step w w'
| cs_mint_open m coin pk rho rcm r w w' : MintOpenNote m coin pk rho rcm w = Ok (r, w') → chain_step w w'
| cs_register d r w w' : RegisterAsset d w = Ok (r, w') → chain_step w w'
| cs_private m pp w w' : msg_wf m → CheckPrivateMsg Rest actions m w = Ok (pp, w) → ExecutePrivateMsg m w = Ok ((), w') →
    chain_step w w'
| cs_release m d target c w w' : ReleaseToModule m d target w = Ok (c, w') → chain_step w w'
| cs_count n u w w' : CountPrivateActions n w = Ok (u, w') → chain_step w w'
| cs_params auth p w w' : UpdateParams auth p w = Ok ((), w') → chain_step w w'
| cs_send from to_ cs b w : from ≠ PoolAddress → checkSend false from to_ cs = Ok () →
    bank_moved (Some from) (Some to_) cs (fst w) b → chain_step w (b, snd w)
| cs_mint_coins a cs b w : a ≠ PoolAddress → bank_moved None (Some a) cs (fst w) b → chain_step w (b, snd w)
| cs_burn_coins a cs b w : a ≠ PoolAddress → bank_moved (Some a) None cs (fst w) b → chain_step w (b, snd w)
| cs_end_block w w' : EndBlocker w = Ok ((), w') → chain_step w w'.

Definition chain_reachable : PoolWorld → PoolWorld → Prop := rtc chain_step.
End chain.

Section chain_inv.
Context `{HostLaws, !PoolEnv} (Rest : Type) (actions : gmap string (PrivateActionHandler Rest)).
Implicit Types (w : PoolWorld) (L : list Z).

(** The send restriction keeps coins out of the pool's account. *)
Lemma checkSend_pool from cs : checkSend false from PoolAddress cs ≠ Ok ().
Proof.
  unfold checkSend. rewrite (bool_decide_eq_true_2 (PoolAddress = PoolAddress)) by reflexivity. cbn. discriminate.
Qed.

(** The check of an unshield refuses the pool as the receiver. *)
Lemma check_receiver m pp w :
  CheckPrivateMsg Rest actions m w = Ok (pp, w) → pm_UnshieldReceiver m ≠ Some (Ok (Some PoolAddress)).
Proof.
  intros Hr Hu. unfold CheckPrivateMsg in Hr. apply bind_ok in Hr as (u1 & w1 & ->%reads_check_sizes & Hr).
  apply bind_ok in Hr as (u2 & w1 & ->%reads_check_anchors & Hr).
  assert (reads (for_each (pm_Bundles m) check_spends)) as Hsp by (apply reads_for_each, reads_check_spends).
  apply bind_ok in Hr as (u3 & w1 & ->%Hsp & Hr). apply bind_ok in Hr as (u4 & w1 & ->%reads_checkCapacity & Hr).
  apply bind_ok in Hr as (u5 & w1 & Hr & _). unfold checkReleaseMap in Hr. apply bind_ok in Hr as (rem & w2 & [_ ->]%lift_ok & Hr).
  rewrite Hu in Hr. unfold check_unshield_map in Hr. apply bind_ok in Hr as (r & w2 & [[= <-] ->]%lift_ok & Hr).
  apply bind_ok in Hr as (u6 & w2 & [Hb%negb_false_iff ->]%refuse_if_ok & Hr).
  destruct rem as [|c rem]; [by rewrite bool_decide_eq_false_2 in Hb|]. cbn [for_each] in Hr.
  apply bind_ok in Hr as (u7 & w2 & Hr & _). apply bind_ok in Hr as (c' & w3 & [_ ->]%lift_ok & Hr).
  unfold checkUnshield in Hr. do 3 (apply bind_ok in Hr as (? & w3 & [_ ->]%refuse_if_ok & Hr)).
  apply bind_ok in Hr as (? & w3 & [_ ->]%read_bank_ok & Hr). apply bind_ok in Hr as (cs & w3 & [_ ->]%lift_ok & Hr).
  apply lift_ok in Hr as [Hr _]. destruct u7. cbn [default] in Hr. by apply checkSend_pool in Hr.
Qed.

(** [RegisterAsset]: an admissible denom, new or registered before. *)
Definition registered (d : string) (s : PoolStore) : PoolStore :=
  set_p_AssetsByID <[FieldBytes (privacy_AssetID d) := d]> (set_p_Assets <[d := FieldBytes (privacy_AssetID d)]> s).

Lemma RegisterAsset_ok d w r w' :
  RegisterAsset d w = Ok (r, w') ↔
  admissible d ∧
  ((p_Assets (st w) !! d = Some r ∧ w' = w) ∨
   (p_Assets (st w) !! d = None ∧ p_AssetsByID (st w) !! FieldBytes (privacy_AssetID d) = None ∧
    r = FieldBytes (privacy_AssetID d) ∧ w' = with_store (registered d) w)).
Proof.
  unfold RegisterAsset, admissible. split.
  - intros Hr. apply bind_ok in Hr as (u1 & w1 & [Hv%negb_false_iff ->]%refuse_if_ok & Hr).
    apply bind_ok in Hr as (u2 & w2 & [Hx ->]%refuse_if_ok & Hr). split; [done|].
    apply bind_ok in Hr as (as_ & w3 & [-> ->]%get_store_ok & Hr). fold (st w) in Hr.
    destruct (p_Assets (st w) !! d) as [id|]; [apply ret_ok in Hr as [= -> ->]; by left|]. right.
    apply bind_ok in Hr as (by_ & w4 & [-> ->]%get_store_ok & Hr). fold (st w) in Hr.
    apply bind_ok in Hr as (u3 & w5 & [Hn%bool_decide_eq_false ->]%refuse_if_ok & Hr). apply eq_None_not_Some in Hn.
    apply bind_ok in Hr as (u4 & w6 & ->%set_store_ok & Hr). apply bind_ok in Hr as (u5 & w7 & ->%set_store_ok & Hr).
    apply ret_ok in Hr as [= -> ->]. done.
  - intros [[Hv Hx] Hor]. rewrite (run_bind _ _ w () w) by by rewrite Hv. rewrite (run_bind _ _ w () w) by by rewrite Hx.
    erewrite run_bind by reflexivity. cbv beta. fold (st w). destruct Hor as [[-> ->]|(-> & Hn & -> & ->)]; [done|].
    cbv zeta. erewrite run_bind by reflexivity. cbv beta. fold (st w). rewrite Hn. reflexivity.
Qed.

Lemma assets_ok_registered d s :
  assets_ok s → admissible d → p_Assets s !! d = None → p_AssetsByID s !! FieldBytes (privacy_AssetID d) = None →
  assets_ok (registered d s).
Proof.
  intros [Ha Hb] Hd Hn Hid. unfold registered.
  pose (id := FieldBytes (privacy_AssetID d)). fold id in Hid |- *.
  split; cbn [p_Assets p_AssetsByID set_p_Assets set_p_AssetsByID].
  - intros d' id' [[<- <-]|[Hne Hl]]%lookup_insert_Some; [by split|by apply Ha].
  - intros d' id'. rewrite !lookup_insert_Some, <-Hb. split.
    + intros [[<- <-]|[Hne Hl]]; [by left|]. right. split; [|done]. intros <-. apply Hb in Hl. congruence.
    + intros [[<- <-]|[Hne Hl]]; [by left|]. right. split; [|done]. intros <-. congruence.
Qed.

Lemma RegisterAsset_effect d w r w' : RegisterAsset d w = Ok (r, w') → pool_effect w w' [] [] ∧ fst w' = fst w.
Proof.
  intros [Hd [[_ ->]|(Hn & Hid & _ & ->)]]%RegisterAsset_ok; (split; [|done]); [apply effect_refl|]. split.
  - split; try done. unfold st. cbn. fold (st w). by apply insert_subseteq.
  - intros []. split; try done. exact (assets_ok_registered d (st w) po_assets Hd Hn Hid).
  - intros L HL. exists []. rewrite app_nil_r. by split.
  - unfold st. cbn. set_solver.
Qed.

(** The invariant of a chain: the pool is sound and its recorded roots are roots of prefixes of its notes. *)
Definition pool_good w : Prop := pool_ok w ∧ ∃ L, notes_rep (st w) L ∧ anchored (st w) L.

Lemma anchored_app s L L' : anchored s L → anchored s (L ++ L').
Proof.
  intros Ha r rec Hrec. destruct (Ha r rec Hrec) as [Hk [Hn Hr]]. split; [exact Hk|]. split; [rewrite length_app; lia|].
  rewrite take_app_le by lia. exact Hr.
Qed.

Lemma anchored_roots s s' L : p_Roots s' = p_Roots s → anchored s L → anchored s' L.
Proof. intros E Ha r rec. rewrite E. apply Ha. Qed.

(** A step grows the notes and the spent set. *)
Record grows w w' : Prop := {
  gr_good : pool_good w → pool_good w';
  gr_nullifiers : pool_good w → p_Nullifiers (st w) ⊆ p_Nullifiers (st w');
  gr_notes : ∀ L, pool_good w → notes_rep (st w) L → ∃ L', notes_rep (st w') (L ++ L');
}.

Lemma grows_effect w w' : (pool_good w → ∃ cms nfs, pool_effect w w' cms nfs) → grows w w'.
Proof.
  intros E. split.
  - intros Hg. destruct (E Hg) as (cms & nfs & [F Hok HN _]). destruct Hg as [Hp (L & HL & Ha)]. split; [by apply Hok|].
    destruct (HN L HL) as (es & _ & HL'). exists (L ++ es). split; [exact HL'|]. apply anchored_app.
    eapply anchored_roots; [apply F|exact Ha].
  - intros Hg. destruct (E Hg) as (cms & nfs & F). rewrite (pe_nullifiers _ _ _ _ F). set_solver.
  - intros L Hg HL. destruct (E Hg) as (cms & nfs & F). destruct (pe_notes _ _ _ _ F L HL) as (es & _ & HL'). by exists es.
Qed.

Lemma grows_trans w1 w2 w3 : grows w1 w2 → grows w2 w3 → grows w1 w3.
Proof.
  intros [G1 N1 L1] [G2 N2 L2]. split; [tauto| |].
  - intros Hg. exact (transitivity (N1 Hg) (N2 (G1 Hg))).
  - intros L Hg HL. destruct (L1 L Hg HL) as (L' & HL'). destruct (L2 _ (G1 Hg) HL') as (L'' & HL'').
    exists (L' ++ L''). rewrite app_assoc. exact HL''.
Qed.

(** A step of the bank that leaves the pool's balances alone. *)
Lemma grows_bank w b : (∀ d, GetBalance b PoolAddress d = GetBalance (fst w) PoolAddress d) → grows w (b, snd w).
Proof.
  intros Hb. apply grows_effect. intros _. exists [], []. apply effect_quiet; try done. intros Hok.
  eapply turnstiles_elsewhere; [apply Hok|exact Hb].
Qed.

Lemma bank_elsewhere src dst cs b b' :
  bank_moved src dst cs b b' → src ≠ Some PoolAddress → dst ≠ Some PoolAddress →
  ∀ d, GetBalance b' PoolAddress d = GetBalance b PoolAddress d.
Proof. intros [Hb _] Hs Hd d. rewrite Hb, !bool_decide_eq_false_2 by done. lia. Qed.

Lemma grows_ctx w c : grows w (fst w, mkPoolState c (ps_store (snd w))).
Proof.
  split.
  - intros [[] HL]. split; [by split|exact HL].
  - done.
  - intros L _ HL. exists []. rewrite app_nil_r. exact HL.
Qed.

Lemma grows_params auth p w w' : UpdateParams auth p w = Ok ((), w') → grows w w'.
Proof.
  unfold UpdateParams. intros Hr. apply bind_ok in Hr as (u & w1 & [_ ->]%lift_ok & Hr).
  apply bind_ok in Hr as ([] & w1 & [Hv ->]%lift_ok & Hr). apply set_store_ok in Hr as ->. split.
  - intros [[] HL]. split; [|exact HL]. split; try done. exists p. by split.
  - done.
  - intros L _ HL. exists []. rewrite app_nil_r. exact HL.
Qed.

Lemma CountPrivateActions_ok n w u w' :
  CountPrivateActions n w = Ok (u, w') →
  ∃ p, p_Params (st w) = Some p ∧
    let c := wrap_u64 (default 0 (p_PrivateActionCount (st w)) + n) in
    c ≤ MaxPrivateActionsPerBlock p ∧ w' = with_store (set_p_PrivateActionCount (Some c)) w.
Proof.
  unfold CountPrivateActions. intros Hr. apply bind_ok in Hr as (p & w1 & [Hp ->]%GetParams_ok & Hr).
  apply bind_ok in Hr as (c & w1 & [-> ->]%get_store_ok & Hr). apply bind_ok in Hr as (u1 & w1 & [Hc%Z.ltb_ge ->]%refuse_if_ok & Hr).
  apply set_store_ok in Hr as ->. exists p. split; [exact Hp|]. split; [exact Hc|reflexivity].
Qed.

Lemma grows_count n u w w' : CountPrivateActions n w = Ok (u, w') → grows w w'.
Proof.
  intros (p & _ & _ & ->)%CountPrivateActions_ok. split.
  - intros [[] HL]. split; [by split|exact HL].
  - done.
  - intros L _ HL. exists []. rewrite app_nil_r. exact HL.
Qed.

Lemma grows_end w w' : EndBlocker w = Ok ((), w') → grows w w'.
Proof.
  intros Hr. split.
  - intros [Hok (L & HL & Ha)]. destruct (EndBlocker_ok L w Hok HL) as (w1 & Hr1 & Hok1 & _ & _ & _ & HL1 & Ha1).
    rewrite Hr in Hr1. injection Hr1 as <-. split; [exact Hok1|]. exists L. split; [exact HL1|exact (Ha1 Ha)].
  - intros [Hok (L & HL & _)]. destruct (EndBlocker_ok L w Hok HL) as (w1 & Hr1 & _ & _ & _ & En & _).
    rewrite Hr in Hr1. injection Hr1 as <-. by rewrite En.
  - intros L [Hok _] HL. destruct (EndBlocker_ok L w Hok HL) as (w1 & Hr1 & _ & _ & _ & _ & HL1 & _).
    rewrite Hr in Hr1. injection Hr1 as <-. exists []. rewrite app_nil_r. exact HL1.
Qed.

Lemma private_msg_ok m pp w : msg_wf m → CheckPrivateMsg Rest actions m w = Ok (pp, w) → msg_ok m.
Proof. intros [Ht Hb] Hc%check_receiver. done. Qed.

Lemma step_grows w w' : chain_step Rest actions w w' → grows w w'.
Proof.
  destruct 1 as [w c|sender coin pc ct [pos cm] w w' Hs Hr|m coin pc ct [pos cm] w w' Hr|m coin pc ct ps w w' Hr
    |m coin pk rho rcm [pos cm] w w' Hr|d r w w' Hr|m pp w w' Hm Hc Hr|m d target c w w' Hr|n u w w' Hr|auth p w w' Hr
    |from to_ cs b w Hf Hs Hb|a cs b w Ha Hb|a cs b w Ha Hb|w w' Hr].
  - apply grows_ctx.
  - apply grows_effect. intros [Hok _]. apply Shield_effect in Hr as [? _]; eauto.
  - apply grows_effect. intros [Hok _]. apply MintNote_effect in Hr as [? _]; eauto.
  - apply grows_effect. intros [Hok _]. apply MintNoteSplit_effect in Hr as [cms ?]; eauto.
  - apply grows_effect. intros [Hok _]. apply MintOpenNote_effect in Hr; eauto.
  - apply grows_effect. intros _. apply RegisterAsset_effect in Hr as [? _]; eauto.
  - apply grows_effect. intros [Hok _]. apply ExecutePrivateMsg_spec in Hr as (rem & a & Hx); [|done|by eapply private_msg_ok].
    do 2 eexists. apply Hx.
  - apply grows_effect. intros [Hok _]. apply ReleaseToModule_effect in Hr; eauto.
  - by eapply grows_count.
  - by eapply grows_params.
  - apply grows_bank. eapply bank_elsewhere; [exact Hb|congruence|]. intros [= ->]. by apply checkSend_pool in Hs.
  - apply grows_bank. eapply bank_elsewhere; [exact Hb|done|congruence].
  - apply grows_bank. eapply bank_elsewhere; [exact Hb|congruence|done].
  - by apply grows_end.
Qed.

Lemma reachable_grows w w' : chain_reachable Rest actions w w' → grows w w'.
Proof.
  induction 1 as [w|w1 w2 w3 Hs _ IH]; [|eapply grows_trans; [by apply step_grows|exact IH]].
  apply grows_effect. intros _. do 2 eexists. apply effect_refl.
Qed.

(** ** What the invariant gives *)
Lemma AssertInvariants_pass w : pool_ok w → AssertInvariants w = Ok ((), w).
Proof.
  intros Hok. pose proof (po_turnstiles w Hok) as Hts. unfold AssertInvariants. erewrite run_bind by reflexivity. cbv beta.
  fold (st w). rewrite (run_bind _ _ _ () w).
  2: { generalize (iter_keys (p_Turnstiles (st w))). intros l. induction l as [|d l IH]; [done|]. cbn [for_each].
       by rewrite (run_bind _ _ _ _ _ (checkDenom_run w d Hts)). }
  erewrite run_bind by reflexivity. cbv beta. pose proof (GetAllBalances_spec (fst w) PoolAddress) as [[Hnd Hpos] Ham].
  assert (∀ c, c ∈ GetAllBalances (fst w) PoolAddress → p_Turnstiles (st w) !! Denom c ≠ None) as Hc.
  { intros c Hc Hn. destruct (Hts (Denom c)) as (Eb & _). unfold turnstile_at in Eb. rewrite Hn in Eb. cbn in Eb.
    rewrite <-Ham, AmountOf_elem in Eb by done. specialize (Hpos c Hc). lia. }
  revert Hc. generalize (GetAllBalances (fst w) PoolAddress). intros l Hc. clear -Hc.
  induction l as [|c l IH]; [done|]. cbn [for_each]. rewrite (run_bind _ _ _ () w).
  - apply IH. intros c' Hc'. apply Hc. by right.
  - rewrite bool_decide_eq_false_2; [done|]. apply Hc. by left.
Qed.

Lemma checkAnchor_recorded r w w' : checkAnchor r w = Ok ((), w') → is_Some (p_Roots (st w) !! r).
Proof.
  unfold checkAnchor. intros Hr. apply bind_ok in Hr as ([ok e] & w1 & Ha & Hr). apply bind_ok in Hr as (u & w2 & [Hok ->]%refuse_if_ok & _).
  unfold PoolAnchor in Ha. apply bind_ok in Ha as (roots & w3 & [-> ->]%get_store_ok & Ha). fold (st w) in Ha.
  destruct (p_Roots (st w) !! r); [by eexists|]. apply ret_ok in Ha. injection Ha as -> -> ->. done.
Qed.
End chain_inv.

(** ** Properties *)
Section chain_properties.
Context `{HostLaws, !PoolEnv} (Rest : Type) (actions : gmap string (PrivateActionHandler Rest)).
Implicit Types (w : PoolWorld).

(** C3: The pool is always backed: in every state reachable from a good one, by whatever the pool's users, the modules and
    the bank do, the pool's account holds of each denom exactly what entered less what left; the exhaustive check
    passes, and the end of a block returns without an error: it never halts the chain. *)
Theorem pool_backed_and_never_halts w w' :
  pool_good w → chain_reachable Rest actions w w' →
  (∀ d, let t := turnstile_of (st w') d in GetBalance (fst w') PoolAddress d = ts_In t - ts_Out t ∧ 0 ≤ ts_Out t ≤ ts_In t) ∧
  AssertInvariants w' = Ok ((), w') ∧
  ∃ w'', EndBlocker w' = Ok ((), w'').
Proof.
  intros Hg Hr%reachable_grows. apply (gr_good _ _ Hr) in Hg as [Hok (L & HL & _)]. split; [|split].
  - intros d t. destruct (po_turnstiles w' Hok d) as (Eb & Ho & _). pose proof (GetBalance_range (fst w') PoolAddress d) as Hb.
    unfold t, turnstile_of. unfold turnstile_at in Eb, Ho. lia.
  - by apply AssertInvariants_pass.
  - destruct (EndBlocker_ok L w' Hok HL) as (w'' & E & _). exists w''. exact E.
Qed.

(** C6: No note is spent twice: once a private msg has executed, then whatever happens on the chain afterwards, a msg that
    spends any of its nullifiers again is refused, by the ante's check and by the execution. *)
Theorem nullifier_spent_once w w1 w2 w3 m m' nf :
  pool_good w → chain_reachable Rest actions w w1 → msg_ok m → ExecutePrivateMsg m w1 = Ok ((), w2) →
  chain_reachable Rest actions w2 w3 → nf ∈ msg_nullifiers m → nf ∈ msg_nullifiers m' → msg_ok m' →
  nf ∉ p_Nullifiers (st w1) ∧ nf ∈ p_Nullifiers (st w3) ∧
  (∀ r, CheckPrivateMsg Rest actions m' w3 ≠ Ok r) ∧ (∀ r, ExecutePrivateMsg m' w3 ≠ Ok r).
Proof.
  intros Hg Hr1%reachable_grows Hm Hx Hr2%reachable_grows Hnf Hnf' Hm'. apply (gr_good _ _ Hr1) in Hg as Hg1.
  apply ExecutePrivateMsg_spec in Hx as (rem & a & Hx); [|apply Hg1|done].
  assert (pool_good w2) as Hg2.
  { refine (gr_good _ _ (grows_effect w1 w2 _) Hg1). intros _. do 2 eexists. apply Hx. }
  assert (nf ∈ p_Nullifiers (st w3)) as Hin.
  { apply (gr_nullifiers _ _ Hr2 Hg2). rewrite (pe_nullifiers _ _ _ _ (ex_effect _ _ _ _ _ Hx)). set_solver. }
  split_and!; [by apply (ex_fresh _ _ _ _ _ Hx)|done|by apply (check_spent_refused _ _ _ _ nf)|].
  apply (execute_spent_refused _ _ nf); try done. apply (gr_good _ _ Hr2 Hg2).
Qed.

(** C15: An anchor is the pool's own past: whatever happened on the chain, a root the anchor check accepts is the root of the
    tree of the first [n] notes ever appended, for some [n], and the notes appended before are still the first of the tree. *)
Theorem anchors_are_past_roots w w' L r w'' :
  pool_good w → notes_rep (st w) L → chain_reachable Rest actions w w' → checkAnchor r w' = Ok ((), w'') →
  ∃ L' n, notes_rep (st w') (L ++ L') ∧ 0 ≤ n ≤ Z.of_nat (length (L ++ L')) ∧
    r = FieldBytes (ref_root (take (Z.to_nat n) (L ++ L'))).
Proof.
  intros Hg HL Hr%reachable_grows Hc. destruct (gr_notes _ _ Hr L Hg HL) as (L' & HL').
  apply (gr_good _ _ Hr) in Hg as (_ & L2 & HL2 & Ha). rewrite (tree_rep_unique _ _ _ HL2 HL') in Ha.
  apply checkAnchor_recorded in Hc as [rec Hrec]. destruct (Ha r rec Hrec) as [_ [Hn Hroot]].
  exists L', (rr_TreeSize rec). split; [exact HL'|]. split; [exact Hn|exact Hroot].
Qed.
End chain_properties.
