(* ===== verification/ShieldedGenesis.v ===== *)
(** * x/shielded: the pool's genesis

    [x/shielded/types/genesis.go] and [x/shielded/keeper/genesis.go].  A module account's creation writes x/auth's store, which is
    not part of the pool's world; [math.Int] has no nil.  A validated genesis that imports gives a pool every theorem of
    [ShieldedChain.v] starts from, and what a chain exports at the end of a block imports again as the same pool. *)

From S2P Require Export ShieldedChain.

(** ** types/genesis.go *)
Record Asset := mkAsset { as_Denom : string; as_AssetId : bytes }.

Record ShieldedGenesis := mkShieldedGenesis {
  sg_Params : ShieldedParams.Params;
  sg_Assets : list Asset;
  sg_Commitments : list bytes;
  sg_Nullifiers : list bytes;
  sg_Roots : list RootRecord;
  sg_Turnstiles : list Turnstile;
}.

Section genesis.
Context `{Host, !PoolEnv}.
Abbreviation P := (prog PoolWorld).

Definition NewAsset (denom : string) : Asset := mkAsset denom (FieldBytes (privacy_AssetID denom)).
Definition DefaultAssets : list Asset := [NewAsset FeeDenom; NewAsset AnmlDenom].
Definition ShieldedDefaultGenesis : ShieldedGenesis := mkShieldedGenesis ShieldedParams.DefaultParams DefaultAssets [] [] [] [].

(** The loops of [Validate], each over the names seen so far. *)
Fixpoint validate_assets (denoms : gset string) (l : list Asset) : outcome (gset string) :=
  match l with
  | [] => mret denoms
  | a :: l =>
      _ ← refuse (negb (ValidateDenom (as_Denom a))) (Plain "asset: invalid denom");
      _ ← refuse (bool_decide (as_Denom a ∈ denoms)) (Plain "duplicate asset");
      _ ← refuse (negb (bool_decide (as_AssetId a = as_AssetId (NewAsset (as_Denom a))))) (Plain "asset_id is not AssetID(denom)");
      validate_assets ({[as_Denom a]} ∪ denoms) l
  end.
Fixpoint validate_commitments (l : list bytes) : outcome () :=
  match l with
  | [] => mret ()
  | cm :: l => _ ← FieldFromBytes cm; validate_commitments l
  end.
Fixpoint validate_nullifiers (seen : gset bytes) (l : list bytes) : outcome () :=
  match l with
  | [] => mret ()
  | nf :: l =>
      _ ← FieldFromBytes nf;
      _ ← refuse (bool_decide (nf ∈ seen)) (Plain "duplicate nullifier");
      validate_nullifiers ({[nf]} ∪ seen) l
  end.
Fixpoint validate_roots (commitments : Z) (seen : gset bytes) (l : list RootRecord) : outcome () :=
  match l with
  | [] => mret ()
  | r :: l =>
      _ ← FieldFromBytes (rr_Root r);
      _ ← refuse (bool_decide (rr_Root r ∈ seen)) (Plain "duplicate root");
      _ ← refuse (commitments <? rr_TreeSize r) (Plain "root claims a tree_size beyond the commitments");
      validate_roots commitments ({[rr_Root r]} ∪ seen) l
  end.
Fixpoint validate_turnstiles (denoms seen : gset string) (l : list Turnstile) : outcome () :=
  match l with
  | [] => mret ()
  | t :: l =>
      _ ← refuse (negb (bool_decide (ts_Denom t ∈ denoms))) (Plain "turnstile for unadmitted denom");
      _ ← refuse (bool_decide (ts_Denom t ∈ seen)) (Plain "duplicate turnstile");
      _ ← refuse ((ts_Out t <? 0) || (ts_In t <? ts_Out t)) (Plain "need 0 <= out <= in");
      validate_turnstiles denoms ({[ts_Denom t]} ∪ seen) l
  end.

Definition ShieldedGenesisValidate (gs : ShieldedGenesis) : outcome () :=
  _ ← Validate (sg_Params gs);
  denoms ← validate_assets ∅ (sg_Assets gs);
  _ ← refuse (negb (bool_decide (FeeDenom ∈ denoms))) (Plain "the fee asset must be admitted");
  _ ← refuse (Capacity <? Z.of_nat (length (sg_Commitments gs))) (Plain "commitments exceed the tree's capacity");
  _ ← validate_commitments (sg_Commitments gs);
  _ ← validate_nullifiers ∅ (sg_Nullifiers gs);
  _ ← validate_roots (Z.of_nat (length (sg_Commitments gs))) ∅ (sg_Roots gs);
  validate_turnstiles denoms ∅ (sg_Turnstiles gs).

(** ** keeper/genesis.go: InitGenesis *)
Definition init_asset (a : Asset) : P () :=
  id ← RegisterAsset (as_Denom a);
  refuse_if (negb (bool_decide (id = as_AssetId a))) (Plain "asset: id mismatch").

(** The first loop over the root records: the roots wanted, by tree size. *)
Fixpoint want_roots (genesisTime : Z) (want : gmap Z bytes) (l : list RootRecord) : outcome (gmap Z bytes) :=
  match l with
  | [] => mret want
  | r :: l =>
      _ ← refuse ((genesisTime <? rr_Time r) || (genesisTime <? rr_SupersededAt r)) (Plain "root: after genesis time");
      let last := (length l =? 0)%nat in
      _ ← refuse (xorb last (rr_SupersededAt r =? 0) || (negb last && (rr_SupersededAt r <? rr_Time r)))
            (Plain "root: superseded_at does not fit its place");
      _ ← refuse (match want !! rr_TreeSize r with Some prev => negb (bool_decide (prev = rr_Root r)) | None => false end)
            (Plain "root: tree_size already has a different root");
      want_roots genesisTime (<[rr_TreeSize r := rr_Root r]> want) l
  end.

Definition checkRoot (want : gmap Z bytes) (t : Tree TreeNodes) : P () :=
  match want !! Merkle.Size t with
  | None => mret ()
  | Some r =>
      '(got, _) ← run_tree t Merkle.Root;
      refuse_if (negb (bool_decide (FieldBytes got = r))) (Plain "root record is not the root of the first commitments")
  end.

Fixpoint append_leaves (want : gmap Z bytes) (t : Tree TreeNodes) (cms : list bytes) : P (Tree TreeNodes) :=
  match cms with
  | [] => mret t
  | cm :: cms =>
      leaf ← lift (FieldFromBytes cm);
      '(_, t) ← run_tree t (Merkle.Append leaf);
      checkRoot want t;;
      append_leaves want t cms
  end.

Fixpoint put_roots (l : list RootRecord) : P () :=
  match l with
  | [] => mret ()
  | r :: l => putRoot r (length l =? 0)%nat;; put_roots l
  end.

Definition ShieldedInitGenesis (gs : ShieldedGenesis) : P () :=
  set_store (set_p_Params (Some (sg_Params gs)));;
  for_each (sg_Assets gs) init_asset;;
  genesisTime ← get_ctx c_Time;
  want ← lift (want_roots genesisTime ∅ (sg_Roots gs));
  t ← tree;
  refuse_if (negb (Merkle.Size t =? 0)) (Plain "note tree is not empty at genesis");;
  checkRoot want t;;
  t ← append_leaves want t (sg_Commitments gs);
  set_store (set_p_TreeSize (Some (Merkle.Size t)));;
  for_each (sg_Nullifiers gs) (λ nf, set_store (set_p_Nullifiers ({[nf]} ∪.)));;
  put_roots (sg_Roots gs);;
  recordRoot;;
  for_each (sg_Turnstiles gs) (λ ts, set_store (set_p_Turnstiles <[ts_Denom ts := ts]>));;
  AssertInvariants.

(** ** keeper/genesis.go: ExportGenesis *)

(** The leaves at [i], [i+1], ..., [n] of them. *)
Fixpoint export_leaves (t : Tree TreeNodes) (i : Z) (n : nat) : P (list bytes) :=
  match n with
  | O => mret []
  | S n =>
      '(l, _) ← run_tree t (Merkle.Leaf i);
      cms ← export_leaves t (i + 1) n;
      mret (FieldBytes l :: cms)
  end.

(** The walk over the by-time entries: the records in order, the latest apart. *)
Fixpoint export_roots (latest : bytes) (keys : list (Z * bytes)) : P (list RootRecord * option RootRecord) :=
  match keys with
  | [] => mret ([], None)
  | key :: keys =>
      roots ← get_store p_Roots;
      match roots !! snd key with
      | None => fail collections_ErrNotFound
      | Some rec =>
          '(recs, lat) ← export_roots latest keys;
          mret (if bool_decide (rr_Root rec = latest) then (recs, Some (default rec lat)) else (rec :: recs, lat))
      end
  end.

Definition ShieldedExportGenesis : P ShieldedGenesis :=
  params ← GetParams;
  assets ← get_store (λ s, (λ e : string * bytes, mkAsset e.1 e.2) <$> iter_map (p_Assets s));
  t ← tree;
  cms ← export_leaves t 0 (Z.to_nat (Merkle.Size t));
  nfs ← get_store (λ s, iter_set (p_Nullifiers s));
  latest ← get_store (λ s, default [] (p_LatestRoot s));
  byTime ← get_store (λ s, iter_set (p_RootsByTime s));
  '(roots, latestRec) ← export_roots latest byTime;
  turnstiles ← get_store (λ s, snd <$> iter_map (p_Turnstiles s));
  mret (mkShieldedGenesis params assets cms nfs (roots ++ option_list latestRec) turnstiles).

(** [module.go]: what a chain runs at genesis.  Any error is a panic. *)
Definition ShieldedModuleInitGenesis (gs : ShieldedGenesis) : P () := λ w,
  match (lift (ShieldedGenesisValidate gs);; ShieldedInitGenesis gs) w with Ok r => Ok r | _ => Panic end.
End genesis.

(** ** Validation *)

Section validation.
Context `{HostLaws, !PoolEnv}.

Definition asset_valid (a : Asset) : Prop := ValidateDenom (as_Denom a) = true ∧ a = NewAsset (as_Denom a).

Lemma validate_assets_spec seen l ds :
  validate_assets seen l = Ok ds ↔
  unseen as_Denom seen l ∧ Forall asset_valid l ∧ ds = list_to_set (as_Denom <$> l) ∪ seen.
Proof.
  revert seen. induction l as [|a l IH]; intros seen; cbn [validate_assets].
  - cbn. rewrite union_empty_l_L. split; [intros [= <-]; split_and!; [apply unseen_nil|constructor|done]|by intros (_ & _ & ->)].
  - rewrite unseen_cons, Forall_cons. cbn [fmap list_fmap list_to_set]. split.
    + intros Hr. apply outcome_bind_ok in Hr as (u1 & Hv%refuse_ok%negb_false_iff & Hr).
      apply outcome_bind_ok in Hr as (u2 & Hs%refuse_ok%bool_decide_eq_false & Hr).
      apply outcome_bind_ok in Hr as (u3 & Hi%refuse_ok%negb_false_iff%bool_decide_eq_true & (Hu & Hf & ->)%IH).
      split_and!; try done; [|set_solver]. split; [done|]. destruct a. cbn in *. by subst.
    + intros ((Hs & Hu) & ([Hv Ha] & Hf) & ->). rewrite Hv. cbn [negb refuse mbind outcome_bind].
      rewrite (bool_decide_eq_false_2 _ Hs). cbn [refuse mbind outcome_bind].
      rewrite (bool_decide_eq_true_2 _ (f_equal as_AssetId Ha)). cbn [negb refuse mbind outcome_bind]. apply IH.
      split_and!; [done..|set_solver].
Qed.

Lemma validate_commitments_spec l : validate_commitments l = Ok () ↔ Forall (λ cm, is_ok (FieldFromBytes cm) = true) l.
Proof.
  induction l as [|cm l IH]; cbn [validate_commitments]; [split; [constructor|done]|]. rewrite Forall_cons, <-IH.
  destruct (FieldFromBytes cm); cbn; naive_solver.
Qed.

Lemma validate_nullifiers_spec seen l :
  validate_nullifiers seen l = Ok () ↔ unseen id seen l ∧ Forall (λ nf, is_ok (FieldFromBytes nf) = true) l.
Proof.
  revert seen. induction l as [|nf l IH]; intros seen; cbn [validate_nullifiers].
  - split; [intros _; split; [apply unseen_nil|constructor]|done].
  - rewrite unseen_cons, Forall_cons. change (id nf) with nf. destruct (FieldFromBytes nf); cbn [mbind outcome_bind]; [|naive_solver..].
    unfold refuse. case_bool_decide; cbn [mbind outcome_bind]; [naive_solver|]. rewrite IH. naive_solver.
Qed.

Lemma validate_roots_spec n seen l :
  validate_roots n seen l = Ok () ↔
  unseen rr_Root seen l ∧ Forall (λ r, is_ok (FieldFromBytes (rr_Root r)) = true ∧ rr_TreeSize r ≤ n) l.
Proof.
  revert seen. induction l as [|r l IH]; intros seen; cbn [validate_roots].
  - split; [intros _; split; [apply unseen_nil|constructor]|done].
  - rewrite unseen_cons, Forall_cons. destruct (FieldFromBytes (rr_Root r)); cbn [mbind outcome_bind]; [|naive_solver..].
    unfold refuse. case_bool_decide; cbn [mbind outcome_bind]; [naive_solver|].
    destruct (Z.ltb_spec n (rr_TreeSize r)); cbn [mbind outcome_bind]; [split; [done|intros (_ & (_ & ?) & _); lia]|].
    rewrite IH. naive_solver.
Qed.

Lemma validate_turnstiles_spec ds seen l :
  validate_turnstiles ds seen l = Ok () ↔
  unseen ts_Denom seen l ∧ Forall (λ t, ts_Denom t ∈ ds ∧ 0 ≤ ts_Out t ≤ ts_In t) l.
Proof.
  revert seen. induction l as [|t l IH]; intros seen; cbn [validate_turnstiles].
  - split; [intros _; split; [apply unseen_nil|constructor]|done].
  - rewrite unseen_cons, Forall_cons. unfold refuse.
    destruct (decide (ts_Denom t ∈ ds)) as [Hx|Hx]; [rewrite (bool_decide_eq_true_2 _ Hx)|rewrite (bool_decide_eq_false_2 _ Hx)];
      cbn [negb mbind outcome_bind]; [|split; [done|by intros (_ & (? & _) & _)]].
    case_bool_decide; cbn [mbind outcome_bind]; [split; [done|by intros ((? & _) & _)]|].
    destruct (Z.ltb_spec (ts_Out t) 0), (Z.ltb_spec (ts_In t) (ts_Out t)); cbn [orb mbind outcome_bind];
      [split; [done|intros (_ & (_ & ? & ?) & _); lia]..|]. rewrite IH. split; [|naive_solver].
    intros [? ?]. split_and!; try done; lia.
Qed.

(** What a validated genesis says. *)
Record genesis_valid (gs : ShieldedGenesis) : Prop := {
  gv_params : Validate (sg_Params gs) = Ok ();
  gv_assets : NoDup (as_Denom <$> sg_Assets gs) ∧ Forall asset_valid (sg_Assets gs);
  gv_fee : FeeDenom ∈ as_Denom <$> sg_Assets gs;
  gv_capacity : Z.of_nat (length (sg_Commitments gs)) ≤ Capacity;
  gv_commitments : Forall (λ cm, is_ok (FieldFromBytes cm) = true) (sg_Commitments gs);
  gv_nullifiers : NoDup (sg_Nullifiers gs) ∧ Forall (λ nf, is_ok (FieldFromBytes nf) = true) (sg_Nullifiers gs);
  gv_roots : NoDup (rr_Root <$> sg_Roots gs) ∧
    Forall (λ r, is_ok (FieldFromBytes (rr_Root r)) = true ∧ rr_TreeSize r ≤ Z.of_nat (length (sg_Commitments gs))) (sg_Roots gs);
  gv_turnstiles : NoDup (ts_Denom <$> sg_Turnstiles gs) ∧
    Forall (λ t, ts_Denom t ∈ as_Denom <$> sg_Assets gs ∧ 0 ≤ ts_Out t ≤ ts_In t) (sg_Turnstiles gs);
}.

Lemma GenesisValidate_spec gs : ShieldedGenesisValidate gs = Ok () ↔ genesis_valid gs.
Proof.
  assert (∀ d ds, d ∈ (list_to_set ds ∪ ∅ : gset string) ↔ d ∈ ds) as Hds by (intros; rewrite union_empty_r_L; apply elem_of_list_to_set).
  unfold ShieldedGenesisValidate. split.
  - intros Hr. apply outcome_bind_ok in Hr as ([] & Hp & Hr).
    apply outcome_bind_ok in Hr as (ds & (Hu & Hf & ->)%validate_assets_spec & Hr). apply unseen_empty in Hu.
    apply outcome_bind_ok in Hr as (u1 & Hfee%refuse_ok%negb_false_iff%bool_decide_eq_true & Hr). apply Hds in Hfee.
    apply outcome_bind_ok in Hr as (u2 & Hcap%refuse_ok%Z.ltb_ge & Hr).
    apply outcome_bind_ok in Hr as ([] & Hcm%validate_commitments_spec & Hr).
    apply outcome_bind_ok in Hr as ([] & [Hnu%unseen_empty Hn]%validate_nullifiers_spec & Hr). rewrite list_fmap_id in Hnu.
    apply outcome_bind_ok in Hr as ([] & [Hru%unseen_empty Hro]%validate_roots_spec & [Htu%unseen_empty Ht]%validate_turnstiles_spec).
    split; try done. split; [done|]. eapply Forall_impl; [exact Ht|]. cbn. intros t [Hd ?]. by apply Hds in Hd.
  - intros [Hp [Ha Ha'] Hfee Hcap Hcm [Hn Hn'] [Hro Hro'] [Ht Ht']].
    rewrite Hp. cbn [mbind outcome_bind].
    rewrite (proj2 (validate_assets_spec ∅ (sg_Assets gs) _) (conj (proj2 (unseen_empty _ _) Ha) (conj Ha' eq_refl))).
    cbn [mbind outcome_bind]. rewrite bool_decide_eq_true_2 by by apply Hds. cbn [negb refuse mbind outcome_bind].
    rewrite (proj2 (Z.ltb_ge _ _) Hcap). cbn [refuse mbind outcome_bind].
    rewrite (proj2 (validate_commitments_spec _) Hcm). cbn [mbind outcome_bind].
    rewrite (proj2 (validate_nullifiers_spec ∅ _)); [|split; [apply unseen_empty; by rewrite list_fmap_id|done]].
    cbn [mbind outcome_bind]. rewrite (proj2 (validate_roots_spec _ ∅ _)); [|split; [by apply unseen_empty|done]].
    cbn [mbind outcome_bind]. apply validate_turnstiles_spec. split; [by apply unseen_empty|].
    eapply Forall_impl; [exact Ht'|]. cbn. intros t [Hd ?]. by rewrite Hds.
Qed.
End validation.

(** ** What InitGenesis does, loop by loop *)
Section init.
Context `{HostLaws, !PoolEnv}.
Implicit Types (w : PoolWorld) (s : PoolStore) (L : list Z).

(** The assets. *)
Definition assets_loaded (l : list Asset) s : PoolStore :=
  set_p_AssetsByID (insert_all ((λ a, (as_AssetId a, as_Denom a)) <$> l))
    (set_p_Assets (insert_all ((λ a, (as_Denom a, as_AssetId a)) <$> l)) s).

Lemma assets_loaded_cons a l s :
  as_AssetId a = FieldBytes (privacy_AssetID (as_Denom a)) →
  assets_loaded (a :: l) s = assets_loaded l (registered (as_Denom a) s).
Proof. intros E. unfold registered. rewrite <-E. reflexivity. Qed.

Lemma init_assets_ok l w w' :
  unseen as_Denom (dom (p_Assets (st w))) l → for_each l init_asset w = Ok ((), w') →
  w' = with_store (assets_loaded l) w ∧ (assets_ok (st w) → assets_ok (assets_loaded l (st w))).
Proof.
  revert w. induction l as [|a l IH]; intros w Hu Hr; cbn [for_each] in Hr.
  { apply ret_ok in Hr as [= ->]. by destruct w as [b [c []]]. }
  apply unseen_cons in Hu as [Hn Hu]. apply not_elem_of_dom in Hn. apply bind_ok in Hr as ([] & w1 & Ha & Hr).
  apply bind_ok in Ha as (id & w2 & Ha & [Hid%negb_false_iff%bool_decide_eq_true ->]%refuse_if_ok).
  apply RegisterAsset_ok in Ha as [Hd [[? _]|(_ & Hb & -> & ->)]]; [congruence|]. symmetry in Hid.
  rewrite (assets_loaded_cons _ _ _ Hid). apply IH in Hr as [-> Hok].
  - split; [|intros Hs; by apply Hok, assets_ok_registered]. unfold with_store. cbn [fst snd ps_ctx ps_store st].
    by rewrite (assets_loaded_cons _ _ _ Hid).
  - unfold st, with_store, registered. cbn [snd ps_store p_Assets set_p_Assets set_p_AssetsByID]. by rewrite dom_insert_L.
Qed.

Lemma init_assets_total l w :
  Forall (λ a, admissible (as_Denom a) ∧ as_AssetId a = FieldBytes (privacy_AssetID (as_Denom a))) l →
  unseen as_Denom (dom (p_Assets (st w))) l → unseen as_AssetId (dom (p_AssetsByID (st w))) l →
  for_each l init_asset w = Ok ((), with_store (assets_loaded l) w).
Proof.
  revert w. induction l as [|a l IH]; intros w Hf Hu Hi; cbn [for_each]; [by destruct w as [b [c []]]|].
  apply Forall_cons in Hf as [[Hd Hid] Hf]. apply unseen_cons in Hu as [Hn Hu]. apply unseen_cons in Hi as [Hin Hi].
  apply not_elem_of_dom in Hn, Hin.
  rewrite (run_bind _ _ w () (with_store (registered (as_Denom a)) w)).
  - rewrite IH; [|done|..].
    + unfold with_store. cbn [fst snd ps_ctx ps_store st]. by rewrite (assets_loaded_cons _ _ _ Hid).
    + unfold st, with_store, registered. cbn [snd ps_store p_Assets set_p_Assets set_p_AssetsByID]. by rewrite dom_insert_L.
    + unfold st, with_store, registered. cbn [snd ps_store p_AssetsByID set_p_AssetsByID set_p_Assets]. rewrite dom_insert_L.
      by rewrite <-Hid.
  - unfold init_asset. rewrite (run_bind _ _ w (as_AssetId a) (with_store (registered (as_Denom a)) w)).
    + by rewrite bool_decide_eq_true_2.
    + apply RegisterAsset_ok. split; [done|]. right. by rewrite <-Hid.
Qed.

(** The nullifiers and the turnstiles. *)
Lemma init_nullifiers_run l w :
  for_each l (λ nf, set_store (set_p_Nullifiers ({[nf]} ∪.))) w =
    Ok ((), with_store (set_p_Nullifiers (list_to_set l ∪.)) w).
Proof.
  revert w. induction l as [|nf l IH]; intros w; cbn [for_each].
  - destruct w as [b [c []]]. unfold with_store, set_p_Nullifiers. cbn. by rewrite union_empty_l_L.
  - erewrite run_bind by reflexivity. rewrite IH. unfold with_store, set_p_Nullifiers. cbn.
    by rewrite (assoc_L (∪)), (comm_L (∪) (list_to_set l)).
Qed.

Lemma init_turnstiles_run l w :
  for_each l (λ ts, set_store (set_p_Turnstiles <[ts_Denom ts := ts]>)) w =
    Ok ((), with_store (set_p_Turnstiles (insert_all ((λ t, (ts_Denom t, t)) <$> l))) w).
Proof.
  revert w. induction l as [|t l IH]; intros w; cbn [for_each]; [by destruct w as [b [c []]]|].
  erewrite run_bind by reflexivity. rewrite IH. reflexivity.
Qed.

(** The root records. *)
Definition roots_loaded (l : list RootRecord) s : PoolStore :=
  set_p_LatestRoot (match last l with Some r => Some (rr_Root r) | None => p_LatestRoot s end)
    (set_p_RootsByTime (list_to_set ((λ r, (windowStart r, rr_Root r)) <$> l) ∪.)
      (set_p_Roots (insert_all ((λ r, (rr_Root r, r)) <$> l)) s)).

Lemma init_roots_run l w : put_roots l w = Ok ((), with_store (roots_loaded l) w).
Proof.
  revert w. induction l as [|r l IH]; intros w; cbn [put_roots].
  - destruct w as [b [c []]]. unfold with_store, roots_loaded, set_p_RootsByTime. cbn. by rewrite union_empty_l_L.
  - destruct l as [|r' l]; cbn [length Nat.eqb].
    + erewrite run_bind by reflexivity. cbn [put_roots]. unfold with_store, roots_loaded, set_p_RootsByTime, set_p_Roots, set_p_LatestRoot.
      cbn. by rewrite union_empty_r_L.
    + erewrite run_bind by reflexivity. rewrite IH. unfold with_store, roots_loaded, set_p_RootsByTime, set_p_Roots, set_p_LatestRoot.
      cbn [fst snd ps_ctx ps_store p_LatestRoot p_Roots p_RootsByTime st].
      rewrite (assoc_L (∪)), (comm_L (∪) (list_to_set ((λ r, (windowStart r, rr_Root r)) <$> r' :: l))). reflexivity.
Qed.
End init.

(** ** What InitGenesis does to the tree *)
Section init_tree.
Context `{HostLaws, !PoolEnv}.
Implicit Types (w : PoolWorld) (s : PoolStore) (L : list Z) (t : Tree TreeNodes) (want : gmap Z bytes).

(** The roots wanted: by tree size, each a root of [l] with nothing else there. *)
Lemma want_roots_ok now want l want' :
  want_roots now want l = Ok want' →
  (∀ n r, want !! n = Some r → want' !! n = Some r) ∧
  Forall (λ r, want' !! rr_TreeSize r = Some (rr_Root r) ∧ rr_Time r ≤ now ∧ rr_SupersededAt r ≤ now) l.
Proof.
  revert want. induction l as [|r l IH]; intros want; cbn [want_roots]; [by intros [= ->]|].
  intros Hr. apply outcome_bind_ok in Hr as (u1 & [Ht%Z.ltb_ge Hs%Z.ltb_ge]%refuse_ok%orb_false_iff & Hr).
  apply outcome_bind_ok in Hr as (u2 & _ & Hr). apply outcome_bind_ok in Hr as (u3 & Hd%refuse_ok & [Hk Hf]%IH). split.
  - intros n x Hn. apply Hk. destruct (decide (rr_TreeSize r = n)) as [<-|Hne]; [|by rewrite lookup_insert_ne].
    rewrite Hn in Hd. apply negb_false_iff, bool_decide_eq_true in Hd. rewrite lookup_insert_eq. by rewrite Hd.
  - constructor; [|exact Hf]. split_and!; try done. apply Hk. apply lookup_insert_eq.
Qed.

(** A root record's place in a list of them: only the last is not superseded. *)
Definition placed (now : Z) (last : bool) (r : RootRecord) : Prop :=
  rr_Time r ≤ now ∧ rr_SupersededAt r ≤ now ∧
  (if last then rr_SupersededAt r = 0 else rr_SupersededAt r ≠ 0 ∧ rr_Time r ≤ rr_SupersededAt r).

Lemma want_roots_total (rootAt : Z → bytes) now want l :
  Forall (λ r, rr_Root r = rootAt (rr_TreeSize r)) l → (∀ n r, want !! n = Some r → r = rootAt n) →
  (∀ i r, l !! i = Some r → placed now (bool_decide (S i = length l)) r) →
  ∃ want', want_roots now want l = Ok want' ∧ ∀ n r, want' !! n = Some r → r = rootAt n.
Proof.
  revert want. induction l as [|r l IH]; intros want Hf Hw Hp; cbn [want_roots]; [by exists want|].
  apply Forall_cons in Hf as [Hr Hf]. pose proof (Hp 0%nat r eq_refl) as (Ht & Hs & Hl). cbn [length] in Hl.
  rewrite (proj2 (Z.ltb_ge _ _) Ht), (proj2 (Z.ltb_ge _ _) Hs). cbn [orb refuse mbind outcome_bind].
  assert (xorb (length l =? 0)%nat (rr_SupersededAt r =? 0) || (negb (length l =? 0)%nat && (rr_SupersededAt r <? rr_Time r)) = false) as ->.
  { destruct l as [|r' l]; cbn [length Nat.eqb].
    - rewrite bool_decide_eq_true_2 in Hl by done. by rewrite Hl.
    - rewrite bool_decide_eq_false_2 in Hl by (cbn [length]; lia). destruct Hl as [Hz Hle].
      rewrite (proj2 (Z.eqb_neq _ _) Hz), (proj2 (Z.ltb_ge _ _) Hle). done. }
  cbn [refuse mbind outcome_bind].
  assert (match want !! rr_TreeSize r with Some prev => negb (bool_decide (prev = rr_Root r)) | None => false end = false) as ->.
  { destruct (want !! rr_TreeSize r) as [prev|] eqn:E; [|done]. apply Hw in E. rewrite bool_decide_eq_true_2; [done|]. by rewrite E, Hr. }
  cbn [refuse mbind outcome_bind]. apply IH; [done|..].
  - intros n x [[<- <-]|[_ Hx]]%lookup_insert_Some; [done|by apply Hw].
  - intros i x Hx. pose proof (Hp (S i) x Hx) as Hpx. cbn [length] in Hpx.
    rewrite (bool_decide_ext (S (S i) = S (length l)) (S i = length l)) in Hpx by lia. exact Hpx.
Qed.

(** The tree [t] holds the notes [L], and the store its nodes. *)
Definition at_tree w t L : Prop := tree_rep t L ∧ p_TreeNodes (st w) = t_store t.

Lemma at_tree_root w t L : at_tree w t L → run_tree t Merkle.Root w = Ok ((ref_root L, t), w).
Proof.
  intros [HL E]. unfold run_tree. rewrite (run_bind _ _ _ (ref_root L, t) w).
  - erewrite run_bind by reflexivity. rewrite <-E. destruct w as [b [c []]]. reflexivity.
  - unfold lift. by rewrite (Root_spec _ _ HL).
Qed.

Definition wanted want L : Prop := ∀ r, want !! Z.of_nat (length L) = Some r → r = FieldBytes (ref_root L).

Lemma checkRoot_run want w t L w' :
  at_tree w t L → checkRoot want t w = Ok ((), w') ↔ w' = w ∧ wanted want L.
Proof.
  intros Ht. unfold checkRoot, wanted. assert (Merkle.Size t = Z.of_nat (length L)) as -> by apply Ht.
  destruct (want !! Z.of_nat (length L)) as [r|].
  - rewrite (run_bind _ _ _ _ _ (at_tree_root w t L Ht)). cbv beta iota. rewrite refuse_if_ok, negb_false_iff, bool_decide_eq_true.
    generalize (FieldBytes (ref_root L)). intros x. split.
    + intros [-> ->]. split; [done|]. by intros r' [= ->].
    + intros [-> Hx]. split; [|done]. symmetry. by apply Hx.
  - split; [intros [= ->]; split; [done|by intros r [=]]|by intros [-> _]].
Qed.

Lemma at_tree_append w t L e :
  at_tree w t L → is_fr e → Z.of_nat (length L) < Capacity →
  ∃ t', run_tree t (Merkle.Append e) w = Ok ((Z.of_nat (length L), t'), with_store (set_p_TreeNodes (t_store t')) w) ∧
    at_tree (with_store (set_p_TreeNodes (t_store t')) w) t' (L ++ [e]).
Proof.
  intros [HL E] He Hlt. destruct (Append_spec t L e HL He Hlt) as (t' & Ea & HL'). exists t'. split; [|by split].
  unfold run_tree. rewrite (run_bind _ _ w (Z.of_nat (length L), t') w); [reflexivity|]. unfold lift. by rewrite Ea.
Qed.

(** [wanted] at every size after [L], up to [L ++ es]. *)
Definition wanted_all want L es : Prop := ∀ es1 es2, es = es1 ++ es2 → es1 ≠ [] → wanted want (L ++ es1).

Lemma wanted_all_cons want L e es : wanted_all want L (e :: es) ↔ wanted want (L ++ [e]) ∧ wanted_all want (L ++ [e]) es.
Proof.
  unfold wanted_all. split.
  - intros Ha. split; [by apply (Ha [e] es)|]. intros es1 es2 -> Hne. rewrite <-app_assoc. by apply (Ha (e :: es1) es2).
  - intros [He Ha] [|e' es1] es2 Heq Hne; [done|]. injection Heq as <- ->. change (e :: es1) with ([e] ++ es1). rewrite app_assoc.
    destruct es1 as [|e1 es1]; [by rewrite app_nil_r|]. by apply (Ha (e1 :: es1) es2).
Qed.

Lemma append_leaves_run want es t L w :
  at_tree w t L → Forall is_fr es → Z.of_nat (length (L ++ es)) ≤ Capacity → wanted_all want L es →
  ∃ t', append_leaves want t (FieldBytes <$> es) w = Ok (t', with_store (set_p_TreeNodes (t_store t')) w) ∧ tree_rep t' (L ++ es).
Proof.
  revert t L w. induction es as [|e es IH]; intros t L w Ht Hf Hcap Hw.
  - exists t. destruct Ht as [HL E]. rewrite app_nil_r. split; [|exact HL]. cbn [fmap list_fmap append_leaves]. rewrite <-E.
    destruct w as [b [c []]]. reflexivity.
  - apply Forall_cons in Hf as [He Hf]. apply wanted_all_cons in Hw as [Hw1 Hw]. cbn [fmap list_fmap append_leaves].
    rewrite (run_bind _ _ w e w) by (unfold lift; by rewrite (FieldFromBytes_Bytes e He)).
    rewrite length_app in Hcap. cbn [length] in Hcap.
    destruct (at_tree_append w t L e Ht He) as (t1 & E1 & Ht1); [lia|]. rewrite (run_bind _ _ _ _ _ E1). cbv beta iota.
    rewrite (run_bind _ _ _ _ _ (proj2 (checkRoot_run want _ t1 _ _ Ht1) (conj eq_refl Hw1))).
    destruct (IH t1 (L ++ [e]) _ Ht1 Hf) as (t2 & E2 & HL2); [rewrite !length_app; cbn [length]; lia|exact Hw|].
    exists t2. rewrite <-app_assoc in HL2. split; [|exact HL2]. unfold with_store in E2 |- *. exact E2.
Qed.

Lemma append_leaves_ok want cms t L w t' w' :
  Forall is_bytes cms → at_tree w t L → append_leaves want t cms w = Ok (t', w') →
  ∃ es, mapM FieldFromBytes cms = Ok es ∧ cms = FieldBytes <$> es ∧ Forall is_fr es ∧ tree_rep t' (L ++ es) ∧
    w' = with_store (set_p_TreeNodes (t_store t')) w ∧ wanted_all want L es.
Proof.
  revert t L w. induction cms as [|cm cms IH]; intros t L w Hf Ht Hr; cbn [append_leaves] in Hr.
  - apply ret_ok in Hr as [= -> ->]. exists []. rewrite app_nil_r. destruct Ht as [HL E].
    split; [reflexivity|]. split; [reflexivity|]. split; [constructor|]. split; [exact HL|]. split.
    + rewrite <-E. destruct w as [b [c []]]. reflexivity.
    + intros es1 es2 Heq Hne. by destruct es1.
  - apply Forall_cons in Hf as [Hcm Hf]. apply bind_ok in Hr as (e & w1 & [He ->]%lift_ok & Hr).
    destruct (FieldFromBytes_canonical _ _ Hcm He) as [Hfr Hb].
    destruct (decide (Z.of_nat (length L) < Capacity)) as [Hlt|Hge].
    2: { exfalso. assert (Z.of_nat (length L) = Capacity) as El by (destruct Ht as [(? & _) _]; lia).
         pose proof (Append_full _ _ e (proj1 Ht) El) as Ea. unfold run_tree, mbind at 1 2, prog_bind at 1 2, lift in Hr. by rewrite Ea in Hr. }
    destruct (at_tree_append w t L e Ht Hfr Hlt) as (t1 & E1 & Ht1). rewrite (run_bind _ _ _ _ _ E1) in Hr. cbv beta iota in Hr.
    apply bind_ok in Hr as ([] & w1 & Hc & Hr). apply (checkRoot_run want _ t1 _ _ Ht1) in Hc as [-> Hw1].
    apply (IH t1 _ _ Hf Ht1) in Hr as (es & Em & Ees & Hfes & HL' & -> & Hw).
    exists (e :: es). rewrite <-app_assoc in HL'. split_and!.
    + cbn [mapM]. rewrite He. cbn [mbind outcome_bind]. by rewrite Em.
    + cbn [fmap list_fmap]. by rewrite Hb, <-Ees.
    + by constructor.
    + exact HL'.
    + reflexivity.
    + by apply wanted_all_cons.
Qed.
End init_tree.

(** ** The store a genesis gives *)
Section genesis_store.
Context `{HostLaws, !PoolEnv}.
Implicit Types (w : PoolWorld) (s : PoolStore) (L : list Z) (t : Tree TreeNodes) (gs : ShieldedGenesis).

(** The store before the rebuilt root is recorded, and after. *)
Definition before_root gs (n : TreeNodes) L : PoolStore :=
  roots_loaded (sg_Roots gs)
    (set_p_Nullifiers (list_to_set (sg_Nullifiers gs) ∪.)
      (set_p_TreeSize (Some (Z.of_nat (length L)))
        (set_p_TreeNodes n (assets_loaded (sg_Assets gs) (set_p_Params (Some (sg_Params gs)) empty_store))))).
Definition genesis_store gs (n : TreeNodes) L (now height : Z) : PoolStore :=
  set_p_Turnstiles (insert_all ((λ ts, (ts_Denom ts, ts)) <$> sg_Turnstiles gs))
    (recorded (FieldBytes (ref_root L)) (Z.of_nat (length L)) now height (before_root gs n L)).
Definition genesis_world gs n L w : PoolWorld :=
  with_store (λ _, genesis_store gs n L (now_of w) (c_Height (ps_ctx (snd w)))) w.

(** The genesis's root records are the roots of the prefixes of its notes. *)
Definition roots_match gs L : Prop :=
  Forall (λ r, 0 ≤ rr_TreeSize r ≤ Z.of_nat (length L) → rr_Root r = FieldBytes (ref_root (take (Z.to_nat (rr_TreeSize r)) L))) (sg_Roots gs).

Lemma empty_tree : tree_rep (New (∅ : TreeNodes) 0) [].
Proof.
  split; [apply Z.leb_le; reflexivity|]. split; [reflexivity|]. split; [constructor|].
  exists ∅. split; [|intros level i _ _; rewrite node_of_empty, <-(subtree_zero level i);
    apply subtree_ext; intros j _; unfold leaf_at; by rewrite lookup_nil].
  intros level i. cbn [t_store New]. rewrite !lookup_empty. split; [reflexivity|]. intros v [=].
Qed.

Lemma wanted_at (want : gmap Z bytes) L n r :
  wanted want [] → wanted_all want [] L → 0 ≤ n ≤ Z.of_nat (length L) → want !! n = Some r →
  r = FieldBytes (ref_root (take (Z.to_nat n) L)).
Proof.
  intros Hw Ha Hn Hr. assert (wanted want (take (Z.to_nat n) L)) as Hx.
  { destruct (take (Z.to_nat n) L) as [|x l] eqn:E; [exact Hw|]. apply (Ha (x :: l) (drop (Z.to_nat n) L)); [|done].
    by rewrite <-E, take_drop. }
  apply Hx. rewrite length_take. replace (Z.of_nat (Z.to_nat n `min` length L)) with n by lia. exact Hr.
Qed.

(** The part of InitGenesis after the assets. *)
Definition init_rest gs : prog PoolWorld () :=
  genesisTime ← get_ctx c_Time;
  want ← lift (want_roots genesisTime ∅ (sg_Roots gs));
  t ← tree;
  refuse_if (negb (Merkle.Size t =? 0)) (Plain "note tree is not empty at genesis");;
  checkRoot want t;;
  t ← append_leaves want t (sg_Commitments gs);
  set_store (set_p_TreeSize (Some (Merkle.Size t)));;
  for_each (sg_Nullifiers gs) (λ nf, set_store (set_p_Nullifiers ({[nf]} ∪.)));;
  put_roots (sg_Roots gs);;
  recordRoot;;
  for_each (sg_Turnstiles gs) (λ ts, set_store (set_p_Turnstiles <[ts_Denom ts := ts]>));;
  AssertInvariants.

(** Its end, once the leaves are in the tree. *)
Lemma init_tail_run gs n L w :
  tree_rep (New n (Z.of_nat (length L))) L →
  st w = set_p_TreeNodes n (assets_loaded (sg_Assets gs) (set_p_Params (Some (sg_Params gs)) empty_store)) →
  (set_store (set_p_TreeSize (Some (Z.of_nat (length L))));;
   for_each (sg_Nullifiers gs) (λ nf, set_store (set_p_Nullifiers ({[nf]} ∪.)));;
   put_roots (sg_Roots gs);;
   recordRoot;;
   for_each (sg_Turnstiles gs) (λ ts, set_store (set_p_Turnstiles <[ts_Denom ts := ts]>));;
   AssertInvariants) w = AssertInvariants (genesis_world gs n L w).
Proof.
  intros HL Es. erewrite run_bind by reflexivity.
  rewrite (run_bind _ _ _ _ _ (init_nullifiers_run _ _)), (run_bind _ _ _ _ _ (init_roots_run _ _)).
  assert (∀ w', st w' = before_root gs n L → (recordRoot;; for_each (sg_Turnstiles gs) (λ ts, set_store (set_p_Turnstiles <[ts_Denom ts := ts]>));;
    AssertInvariants) w' = AssertInvariants (genesis_world gs n L w')) as Hgo.
  { intros w' E. assert (notes_rep (st w') L) as HL' by (rewrite E; exact HL).
    rewrite (run_bind _ _ _ _ _ (recordRoot_run L w' HL')), (run_bind _ _ _ _ _ (init_turnstiles_run _ _)).
    f_equal. unfold genesis_world, genesis_store. rewrite <-E. reflexivity. }
  rewrite Hgo; [reflexivity|]. unfold before_root. rewrite <-Es. reflexivity.
Qed.

Lemma init_rest_ok gs w w' :
  Forall is_bytes (sg_Commitments gs) →
  st w = assets_loaded (sg_Assets gs) (set_p_Params (Some (sg_Params gs)) empty_store) →
  init_rest gs w = Ok ((), w') →
  ∃ L n, mapM FieldFromBytes (sg_Commitments gs) = Ok L ∧ Forall is_fr L ∧ tree_rep (New n (Z.of_nat (length L))) L ∧ roots_match gs L ∧
    w' = genesis_world gs n L w ∧ AssertInvariants w' = Ok ((), w').
Proof.
  intros Hb Es Hr. unfold init_rest in Hr. apply bind_ok in Hr as (now & w1 & [-> ->]%get_ctx_ok & Hr).
  apply bind_ok in Hr as (want & w1 & [[_ Hw]%want_roots_ok ->]%lift_ok & Hr).
  apply bind_ok in Hr as (t & w1 & [-> ->]%tree_run & Hr). apply bind_ok in Hr as (u1 & w1 & [_ ->]%refuse_if_ok & Hr).
  assert (note_tree (st w) = New ∅ 0) as Et by (rewrite Es; reflexivity). rewrite Et in Hr.
  assert (at_tree w (New ∅ 0) []) as Ht by (split; [exact empty_tree|rewrite Es; reflexivity]).
  apply bind_ok in Hr as ([] & w1 & [-> Hw0]%(checkRoot_run want w _ [] _ Ht) & Hr).
  apply bind_ok in Hr as (t' & w1 & Ha & Hr). apply (append_leaves_ok want _ _ [] _ _ _ Hb Ht) in Ha as (L & Em & _ & Hf & HL & -> & Hwa).
  cbn [app] in HL. exists L, (t_store t').
  assert (t' = New (t_store t') (Z.of_nat (length L))) as Et' by (destruct HL as (_ & <- & _); by destruct t').
  rewrite <-Et'. split; [exact Em|]. split; [exact Hf|]. split; [exact HL|]. split.
  - apply Forall_forall. intros r Hin Hn. rewrite Forall_forall in Hw. destruct (Hw r Hin) as (Hr1 & _).
    by apply (wanted_at want L _ _ Hw0 Hwa Hn Hr1).
  - assert (Merkle.Size t' = Z.of_nat (length L)) as Esz by (rewrite Et'; reflexivity). rewrite Esz in Hr.
    rewrite Et' in HL. rewrite (init_tail_run gs (t_store t') L) in Hr; [|exact HL|unfold with_store, st; cbn [snd ps_store]; fold (st w); by rewrite Es].
    assert (reads AssertInvariants) as Hra by (unfold AssertInvariants; pose proof reads_checkDenom; solve_reads).
    pose proof (Hra _ _ _ Hr) as ->. split; [reflexivity|]. exact Hr.
Qed.
End genesis_store.

(** ** A validated genesis gives a sound pool *)
Section genesis_sound.
Context `{HostLaws, !PoolEnv}.
Implicit Types (w : PoolWorld) (s : PoolStore) (L : list Z) (gs : ShieldedGenesis).

Lemma checkDenom_ok d w w' : checkDenom d w = Ok ((), w') →
  let t := turnstile_at (p_Turnstiles (st w)) d in GetBalance (fst w) PoolAddress d = ts_In t - ts_Out t.
Proof.
  unfold checkDenom. intros Hr. apply bind_ok in Hr as (t & w1 & [-> ->]%get_store_ok & Hr).
  apply bind_ok in Hr as (held & w1 & [-> ->]%gets_ok & Hr). apply bind_ok in Hr as (h & w1 & [Hh ->]%lift_ok & Hr).
  apply refuse_if_ok in Hr as [Hr%negb_false_iff%Z.eqb_eq _]. rewrite Hr. unfold Held in Hh. rewrite IntSub_spec in Hh.
  destruct (fits_int _); [|done]. injection Hh as <-. reflexivity.
Qed.

(** The exhaustive check passes only on a pool that holds what its turnstiles say. *)
Lemma AssertInvariants_ok w w' :
  AssertInvariants w = Ok ((), w') →
  (∀ d t, p_Turnstiles (st w) !! d = Some t → ts_Denom t = d ∧ 0 ≤ ts_Out t) → turnstiles_ok (fst w) (p_Turnstiles (st w)).
Proof.
  unfold AssertInvariants. intros Hr Hk. apply bind_ok in Hr as (ts & w1 & [-> ->]%get_store_ok & Hr). fold (st w) in Hr.
  apply bind_ok in Hr as ([] & w1 & Hd & Hr).
  assert (w1 = w) as -> by by apply (reads_for_each _ _ reads_checkDenom) in Hd.
  apply bind_ok in Hr as (held & w1 & [-> ->]%gets_ok & Hr). intros d.
  pose proof (GetAllBalances_spec (fst w) PoolAddress) as [_ Ham].
  destruct (p_Turnstiles (st w) !! d) as [t|] eqn:Et.
  - assert (d ∈ iter_keys (p_Turnstiles (st w))) as Hin by (apply elem_of_iter_keys; by eexists).
    pose proof (for_each_reads _ _ _ _ d reads_checkDenom Hd Hin) as E%checkDenom_ok. destruct (Hk d t Et) as [Hn Ho].
    unfold turnstile_at in *. rewrite Et in *. cbn [default] in *. by split.
  - unfold turnstile_at. rewrite Et. cbn. split; [|done]. rewrite <-Ham. apply AmountOf_notin.
    intros (c & E & Hc)%list_elem_of_fmap.
    pose proof (for_each_reads _ _ _ _ c (λ c, reads_refuse _ _) Hr Hc) as [Hc'%bool_decide_eq_false _]%refuse_if_ok.
    by rewrite <-E in Hc'.
Qed.

Lemma roots_loaded_same l s : same_pool s (roots_loaded l s).
Proof. repeat split. Qed.

Lemma asset_keys l : (((λ a, (as_Denom a, as_AssetId a)) <$> l) : list (string * bytes)).*1 = as_Denom <$> l.
Proof. by rewrite <-list_fmap_compose. Qed.

Lemma before_root_lookup gs n L r rec :
  NoDup (rr_Root <$> sg_Roots gs) → p_Roots (before_root gs n L) !! r = Some rec ↔ rec ∈ sg_Roots gs ∧ rr_Root rec = r.
Proof.
  intros Hnd. change (p_Roots (before_root gs n L)) with (insert_all ((λ r, (rr_Root r, r)) <$> sg_Roots gs) ∅).
  rewrite insert_all_lookup by by rewrite <-list_fmap_compose. rewrite list_elem_of_fmap, lookup_empty. split.
  - intros [(y & [= -> ->] & Hy)|[_ [=]]]. done.
  - intros [Hin <-]. left. by exists rec.
Qed.

Lemma genesis_anchored gs n L now height :
  NoDup (rr_Root <$> sg_Roots gs) → roots_match gs L →
  Forall (λ r, 0 ≤ rr_TreeSize r ≤ Z.of_nat (length L)) (sg_Roots gs) → anchored (genesis_store gs n L now height) L.
Proof.
  intros Hnd Hm Hs. apply (anchored_roots (recorded (FieldBytes (ref_root L)) (Z.of_nat (length L)) now height (before_root gs n L)));
    [reflexivity|].
  assert (root_of_prefix L (FieldBytes (ref_root L)) (Z.of_nat (length L))) as Hroot
    by (split; [lia|]; rewrite Nat2Z.id, take_ge by lia; reflexivity).
  revert Hroot. generalize (FieldBytes (ref_root L)). intros root Hroot.
  apply (records_recorded (root_of_prefix L) root); [exact Hroot|]. intros r rec Hr.
  apply before_root_lookup in Hr as [Hin <-]; [|done]. unfold roots_match in Hm. rewrite Forall_forall in Hm, Hs.
  split; [reflexivity|]. split; [by apply Hs|]. by apply Hm, Hs.
Qed.

Lemma recorded_latest root n now h s : root ≠ [] → p_LatestRoot (recorded root n now h s) = Some root.
Proof.
  intros Hne. unfold recorded. case_bool_decide as Hd; [|reflexivity]. destruct (p_LatestRoot s) as [l|]; cbn in Hd; congruence.
Qed.

Lemma FieldBytes_nonempty e : FieldBytes e ≠ [].
Proof. intros E. pose proof (FieldBytes_length e) as Hl. by rewrite E in Hl. Qed.

(** What a genesis files under a root: the file's record of it; and, unless the file's latest root is the rebuilt tree's, the
    latest one superseded now and the tree's root recorded as the latest. *)
Definition imported_record (l : list RootRecord) (final : bytes) (size now height : Z) (r : bytes) (rec : RootRecord) : Prop :=
  if bool_decide (rr_Root <$> last l = Some final) then rec ∈ l ∧ rr_Root rec = r
  else if bool_decide (r = final) then rec = mkRootRecord final height now size 0
  else ∃ rec0, rec0 ∈ l ∧ rr_Root rec0 = r ∧ rec = if bool_decide (rr_Root <$> last l = Some r) then set_superseded now rec0 else rec0.

Section imported_roots.
Variables (l : list RootRecord) (final : bytes) (size now height : Z) (s : PoolStore).
Hypotheses (Hnd : NoDup (rr_Root <$> l)) (Hne : Forall (λ r, rr_Root r ≠ []) l) (Hf : final ≠ [])
  (Hs : p_Roots s = insert_all ((λ r, (rr_Root r, r)) <$> l) ∅)
  (Hi : p_RootsByTime s = list_to_set ((λ r, (windowStart r, rr_Root r)) <$> l))
  (Hl : p_LatestRoot s = rr_Root <$> last l).

Lemma file_record r rec : p_Roots s !! r = Some rec ↔ rec ∈ l ∧ rr_Root rec = r.
Proof.
  rewrite Hs, (file_map_lookup rr_Root (λ r, r)) by done. split; [by intros (x & Hx & <- & ->)|]. intros [Hin <-]. by exists rec.
Qed.

Lemma file_index t r : (t, r) ∈ p_RootsByTime s ↔ ∃ rec, p_Roots s !! r = Some rec ∧ windowStart rec = t.
Proof.
  rewrite Hi, elem_of_list_to_set, list_elem_of_fmap. setoid_rewrite file_record. split.
  - intros (rec & [= -> ->] & Hin). by exists rec.
  - intros (rec & (Hin & <-) & <-). by exists rec.
Qed.

(** The record the walk supersedes. *)
Lemma latest_record rec : last l = Some rec → p_Roots s !! rr_Root rec = Some rec ∧ rr_Root rec ≠ [].
Proof.
  intros E. assert (rec ∈ l) as Hin by (apply last_Some in E as (l' & ->); apply elem_of_app; right; left).
  split; [by apply file_record|]. rewrite Forall_forall in Hne. by apply Hne.
Qed.

Lemma same_record rec rec0 : last l = Some rec → rec0 ∈ l → rr_Root rec0 = rr_Root rec → rec0 = rec.
Proof. intros [Hr _]%latest_record Hin E. assert (p_Roots s !! rr_Root rec = Some rec0) by (by apply file_record). congruence. Qed.

Lemma imported_records r rec : p_Roots (recorded final size now height s) !! r = Some rec ↔ imported_record l final size now height r rec.
Proof.
  unfold recorded, imported_record. rewrite Hl. case_eq (last l); [intros x E|intros E]; cbn [fmap option_fmap option_map default].
  - destruct (latest_record x E) as [Hx Hxn]. rewrite (bool_decide_ext (Some (rr_Root x) = Some final) (rr_Root x = final)) by (split; congruence).
    change (id (rr_Root x)) with (rr_Root x). case_bool_decide as Hd; [apply file_record|]. destruct (length (rr_Root x)) eqn:El; [by apply nil_length_inv in El|]. cbn [Nat.ltb Nat.leb].
    cbn [put_root p_Roots set_p_LatestRoot set_p_RootsByTime set_p_Roots]. rewrite lookup_insert. cbn [rr_Root].
    destruct (decide (final = r)) as [<-|Hr]; [rewrite bool_decide_eq_true_2 by done; split; congruence|].
    rewrite (bool_decide_eq_false_2 (r = final)) by congruence.
    rewrite superseded_Roots by (intros rec0; rewrite Hx; congruence). case_bool_decide as Hrx.
    + subst r. rewrite Hx. split.
      * intros [= <-]. exists x. pose proof Hx as [Hin _]%file_record. by rewrite bool_decide_eq_true_2.
      * intros (rec0 & Hin & E0 & ->). by rewrite (same_record x rec0 E Hin E0), bool_decide_eq_true_2.
    + rewrite file_record. split.
      * intros [Hin <-]. exists rec. by rewrite bool_decide_eq_false_2 by congruence.
      * intros (rec0 & Hin & <- & ->). by rewrite bool_decide_eq_false_2 by congruence.
  - apply last_None in E. rewrite (bool_decide_eq_false_2 (@None bytes = Some final)), (bool_decide_eq_false_2 ([] = final)) by congruence.
    cbn [length Nat.ltb Nat.leb put_root p_Roots set_p_LatestRoot set_p_RootsByTime set_p_Roots]. rewrite lookup_insert. cbn [rr_Root].
    destruct (decide (final = r)) as [<-|Hr]; [rewrite bool_decide_eq_true_2 by done; split; congruence|].
    rewrite (bool_decide_eq_false_2 (r = final)) by congruence.
    rewrite file_record, E. split; [by intros [?%elem_of_nil _]|by intros (? & ?%elem_of_nil & _)].
Qed.

(** Every record is in the by-time index where its window starts, and the index names no other root. *)
Lemma imported_index :
  (∀ r rec, p_Roots (recorded final size now height s) !! r = Some rec → (windowStart rec, r) ∈ p_RootsByTime (recorded final size now height s)) ∧
  ∀ t r, (t, r) ∈ p_RootsByTime (recorded final size now height s) → is_Some (p_Roots (recorded final size now height s) !! r).
Proof.
  assert ((∀ r rec, p_Roots s !! r = Some rec → (windowStart rec, r) ∈ p_RootsByTime s) ∧
    ∀ t r, (t, r) ∈ p_RootsByTime s → is_Some (p_Roots s !! r)) as Hs0.
  { split; [intros r rec Hr; apply file_index; by exists rec|]. intros t r (rec & Hr & _)%file_index. by exists rec. }
  unfold recorded. case_bool_decide; [exact Hs0|]. set (s1 := if _ : bool then _ else _).
  assert ((∀ r rec, p_Roots s1 !! r = Some rec → (windowStart rec, r) ∈ p_RootsByTime s1) ∧
    ∀ t r, (t, r) ∈ p_RootsByTime s1 → is_Some (p_Roots s1 !! r)) as Hs1.
  { unfold s1. destruct (_ <? _)%nat; [|exact Hs0]. set (root := default [] (p_LatestRoot s)). unfold superseded.
    destruct (p_Roots s !! root) as [x|] eqn:Ex; [|exact Hs0]. pose proof Ex as [_ Er]%file_record.
    cbn [p_Roots p_RootsByTime set_p_RootsByTime set_p_Roots rr_Root set_superseded]. rewrite Er. split.
    - intros r rec [[<- <-]|[Hne' Hr]]%lookup_insert_Some; [set_solver|]. apply Hs0 in Hr. set_solver.
    - intros t r. rewrite lookup_insert_is_Some'. intros [[= _ ->]%elem_of_singleton|[Hin _]%elem_of_difference]%elem_of_union; [by left|].
      right. by eapply Hs0. }
  cbn [put_root p_Roots p_RootsByTime set_p_LatestRoot set_p_RootsByTime set_p_Roots rr_Root]. split.
  - intros r rec [[<- <-]|[Hne' Hr]]%lookup_insert_Some; [set_solver|]. apply Hs1 in Hr. set_solver.
  - intros t r. rewrite lookup_insert_is_Some'. intros [[= _ ->]%elem_of_singleton|Hin]%elem_of_union; [by left|]. right. by eapply Hs1.
Qed.
End imported_roots.

Lemma genesis_roots gs n L now height : genesis_valid gs →
  let s := genesis_store gs n L now height in
  (∀ r rec, p_Roots s !! r = Some rec ↔ imported_record (sg_Roots gs) (FieldBytes (ref_root L)) (Z.of_nat (length L)) now height r rec) ∧
  (∀ r rec, p_Roots s !! r = Some rec → (windowStart rec, r) ∈ p_RootsByTime s) ∧
  ∀ t r, (t, r) ∈ p_RootsByTime s → is_Some (p_Roots s !! r).
Proof.
  intros Hv. cbv zeta. destruct (gv_roots gs Hv) as [Hnd Hall].
  assert (Forall (λ r, rr_Root r ≠ []) (sg_Roots gs)) as Hne.
  { eapply Forall_impl; [exact Hall|]. intros r [Hr _] E. by rewrite E in Hr. }
  change (p_Roots (genesis_store gs n L now height)) with (p_Roots (recorded (FieldBytes (ref_root L)) (Z.of_nat (length L)) now height (before_root gs n L))).
  change (p_RootsByTime (genesis_store gs n L now height)) with (p_RootsByTime (recorded (FieldBytes (ref_root L)) (Z.of_nat (length L)) now height (before_root gs n L))).
  assert (p_RootsByTime (before_root gs n L) = list_to_set ((λ r, (windowStart r, rr_Root r)) <$> sg_Roots gs)) as Hi by apply union_empty_r_L.
  assert (p_LatestRoot (before_root gs n L) = rr_Root <$> last (sg_Roots gs)) as Hl
    by (change (p_LatestRoot (before_root gs n L)) with (match last (sg_Roots gs) with Some r => Some (rr_Root r) | None => None end); by destruct (last _)).
  revert Hi Hl. generalize (FieldBytes_nonempty (ref_root L)). generalize (FieldBytes (ref_root L)). intros final Hf Hi Hl. split.
  - intros r rec. by apply imported_records.
  - by eapply imported_index.
Qed.

(** The widths of a decoded genesis. *)
Definition genesis_typed gs : Prop :=
  Forall is_bytes (sg_Commitments gs) ∧ Forall (λ r, 0 ≤ rr_TreeSize r) (sg_Roots gs).

(** The parts of the store that are no roots: as the genesis says. *)
Lemma genesis_store_same gs n L now height :
  same_pool (set_p_Turnstiles (insert_all ((λ ts, (ts_Denom ts, ts)) <$> sg_Turnstiles gs)) (before_root gs n L))
    (genesis_store gs n L now height).
Proof.
  unfold genesis_store. generalize (FieldBytes (ref_root L)). intros root.
  destruct (recorded_same root (Z.of_nat (length L)) now height (before_root gs n L)) as (Ep & Et & En & Ea & Eb & Eu & Ed).
  split_and!; cbn [p_Params p_TreeNodes p_TreeSize p_Nullifiers p_Assets p_AssetsByID p_Turnstiles p_DirtyDenoms set_p_Turnstiles];
    [exact Ep|exact Et|exact En|exact Ea|exact Eb| |exact Ed]. f_equal. exact Eu.
Qed.

Lemma genesis_store_params gs n L now height : p_Params (genesis_store gs n L now height) = Some (sg_Params gs).
Proof. by destruct (genesis_store_same gs n L now height) as (-> & _). Qed.
Lemma genesis_store_tree gs n L now height : note_tree (genesis_store gs n L now height) = New n (Z.of_nat (length L)).
Proof. by destruct (genesis_store_same gs n L now height) as (_ & -> & _). Qed.
Lemma genesis_store_nullifiers gs n L now height :
  p_Nullifiers (genesis_store gs n L now height) = list_to_set (sg_Nullifiers gs).
Proof.
  destruct (genesis_store_same gs n L now height) as (_ & _ & -> & _). exact (union_empty_r_L _).
Qed.
Lemma genesis_store_assets gs n L now height :
  p_Assets (genesis_store gs n L now height) = p_Assets (assets_loaded (sg_Assets gs) empty_store) ∧
  p_AssetsByID (genesis_store gs n L now height) = p_AssetsByID (assets_loaded (sg_Assets gs) empty_store).
Proof. by destruct (genesis_store_same gs n L now height) as (_ & _ & _ & -> & -> & _). Qed.
Lemma genesis_store_turnstiles gs n L now height :
  p_Turnstiles (genesis_store gs n L now height) = insert_all ((λ ts, (ts_Denom ts, ts)) <$> sg_Turnstiles gs) ∅.
Proof. by destruct (genesis_store_same gs n L now height) as (_ & _ & _ & _ & _ & -> & _). Qed.

Lemma genesis_turnstile gs d t :
  NoDup (ts_Denom <$> sg_Turnstiles gs) →
  insert_all ((λ ts, (ts_Denom ts, ts)) <$> sg_Turnstiles gs) ∅ !! d = Some t ↔ t ∈ sg_Turnstiles gs ∧ ts_Denom t = d.
Proof.
  intros Hnd. rewrite insert_all_lookup by by rewrite <-list_fmap_compose. rewrite list_elem_of_fmap, lookup_empty. split.
  - intros [(y & [= -> ->] & Hy)|[_ [=]]]. done.
  - intros [Hin <-]. left. by exists t.
Qed.

Lemma genesis_asset l d id :
  NoDup (as_Denom <$> l) → insert_all ((λ a, (as_Denom a, as_AssetId a)) <$> l) ∅ !! d = Some id ↔ mkAsset d id ∈ l.
Proof.
  intros Hnd. rewrite insert_all_lookup by by rewrite asset_keys. rewrite list_elem_of_fmap, lookup_empty. split.
  - intros [([] & [= -> ->] & Hy)|[_ [=]]]. done.
  - intros Hin. left. by exists (mkAsset d id).
Qed.

(** A world with the genesis's store is good if its assets are and its coins are accounted for. *)
Lemma genesis_world_good gs n L w :
  genesis_valid gs → genesis_typed gs → assets_ok (assets_loaded (sg_Assets gs) empty_store) →
  mapM FieldFromBytes (sg_Commitments gs) = Ok L → tree_rep (New n (Z.of_nat (length L))) L → roots_match gs L →
  AssertInvariants (genesis_world gs n L w) = Ok ((), genesis_world gs n L w) → pool_good (genesis_world gs n L w).
Proof.
  intros Hv [_ Hsz] Hao Em HL Hm Ha. unfold genesis_world in *. set (now := now_of w) in *. set (height := c_Height _) in *.
  pose proof (genesis_store_tree gs n L now height) as Et.
  assert (length (sg_Commitments gs) = length L) as Elen.
  { clear -Em. revert L Em. induction (sg_Commitments gs) as [|cm cms IH]; intros L; cbn [mapM]; [by intros [= <-]|].
    intros Hr. apply outcome_bind_ok in Hr as (e & _ & Hr). apply outcome_bind_ok in Hr as (es & Ees & [= <-]).
    cbn [length]. by rewrite (IH _ Ees). }
  assert (Forall (λ r, 0 ≤ rr_TreeSize r ≤ Z.of_nat (length L)) (sg_Roots gs)) as Hs.
  { rewrite <-Elen. destruct (gv_roots gs Hv) as [_ Hro]. rewrite Forall_forall in Hsz, Hro |- *. intros r Hr.
    split; [by apply Hsz|by apply Hro]. }
  pose proof (genesis_anchored gs n L now height (proj1 (gv_roots gs Hv)) Hm Hs) as Hanc.
  destruct (genesis_store_assets gs n L now height) as [Eas Ebs]. pose proof (genesis_store_turnstiles gs n L now height) as Ets.
  pose proof (genesis_store_params gs n L now height) as Ep.
  revert Et Hanc Eas Ebs Ets Ep Ha. generalize (genesis_store gs n L now height). intros s Et Hanc Eas Ebs Ets Ep Ha.
  assert (notes_rep s L) as HL' by (unfold notes_rep; rewrite Et; exact HL).
  split; [|exists L; split; [exact HL'|exact Hanc]]. split.
  - apply (AssertInvariants_ok _ _ Ha). intros d t. change (p_Turnstiles (st (with_store (λ _, s) w))) with (p_Turnstiles s).
    rewrite Ets. intros [Hin <-]%genesis_turnstile; [|apply (gv_turnstiles gs Hv)]. split; [done|].
    destruct (gv_turnstiles gs Hv) as [_ Ht]. rewrite Forall_forall in Ht. by apply (Ht t Hin).
  - by exists L.
  - unfold assets_ok, st, with_store. cbn [snd ps_store]. rewrite Eas, Ebs. exact Hao.
  - exists (sg_Params gs). split; [exact Ep|apply Hv].
Qed.
End genesis_sound.

(** ** Properties *)
Section genesis_properties.
Context `{HostLaws, !PoolEnv}.
Implicit Types (w : PoolWorld) (gs : ShieldedGenesis).

(** C17: A genesis that the module accepts gives a sound pool: into an empty store, over the balances the bank loaded, it loads the
    commitments in order as the notes, and the parameters, assets, nullifiers and turnstiles as they are listed; the tree's
    root is the latest anchor, every recorded root is the root of a prefix of the notes, the pool's account holds what the
    turnstiles say, and no balance moves.  The root records on file are the file's, to the field, each in the by-time index at
    the start of its window: only where the file's latest root is not the tree's is that one superseded now and the tree's
    recorded ([imported_record]).  A genesis with a forged anchor or an unbacked turnstile is refused. *)
Theorem genesis_gives_good_pool gs w w' :
  genesis_typed gs → st w = empty_store → ShieldedModuleInitGenesis gs w = Ok ((), w') →
  pool_good w' ∧ fst w' = fst w ∧ p_Params (st w') = Some (sg_Params gs) ∧
  p_Nullifiers (st w') = list_to_set (sg_Nullifiers gs) ∧
  (∀ d id, p_Assets (st w') !! d = Some id ↔ mkAsset d id ∈ sg_Assets gs) ∧
  (∀ d t, p_Turnstiles (st w') !! d = Some t ↔ t ∈ sg_Turnstiles gs ∧ ts_Denom t = d) ∧
  ∃ L, mapM FieldFromBytes (sg_Commitments gs) = Ok L ∧ notes_rep (st w') L ∧
    p_LatestRoot (st w') = Some (FieldBytes (ref_root L)) ∧
    (∀ r rec, p_Roots (st w') !! r = Some rec ↔ imported_record (sg_Roots gs) (FieldBytes (ref_root L)) (Z.of_nat (length L))
       (now_of w) (c_Height (ps_ctx (snd w))) r rec) ∧
    (∀ r rec, p_Roots (st w') !! r = Some rec → (windowStart rec, r) ∈ p_RootsByTime (st w')) ∧
    (∀ t r, (t, r) ∈ p_RootsByTime (st w') → is_Some (p_Roots (st w') !! r)).
Proof.
  intros Hty Es Hr. unfold ShieldedModuleInitGenesis in Hr.
  destruct ((lift (ShieldedGenesisValidate gs);; ShieldedInitGenesis gs) w) as [r| |] eqn:E; [injection Hr as ->|done..].
  apply bind_ok in E as ([] & w1 & [Hv%GenesisValidate_spec ->]%lift_ok & E).
  change (ShieldedInitGenesis gs) with
    (set_store (set_p_Params (Some (sg_Params gs)));; for_each (sg_Assets gs) init_asset;; init_rest gs) in E.
  apply bind_ok in E as ([] & w1 & ->%set_store_ok & E). apply bind_ok in E as ([] & w2 & Ha & E).
  assert (∀ f, with_store f w = with_store (λ _, f empty_store) w) as Hst by (intros f; unfold with_store; by rewrite Es).
  fold (st w) in Ha. change (w.1, _) with (with_store (set_p_Params (Some (sg_Params gs))) w) in Ha. rewrite Hst in Ha.
  apply init_assets_ok in Ha as [-> Hao]; [|apply unseen_empty, (gv_assets gs Hv)].
  apply init_rest_ok in E as (L & n & Em & Hfr & HL & Hm & -> & Hinv); [|apply Hty|reflexivity].
  change (genesis_world gs n L _) with (genesis_world gs n L w) in Hinv |- *.
  assert (assets_ok (assets_loaded (sg_Assets gs) empty_store)) as Hao'.
  { apply Hao. split; [by intros d id [=]|]. intros d id. split; by intros [=]. }
  split; [exact (genesis_world_good gs n L w Hv Hty Hao' Em HL Hm Hinv)|]. split; [reflexivity|].
  unfold genesis_world. unfold with_store, st. cbn [snd ps_store]. set (now := now_of w). set (h := c_Height _).
  rewrite genesis_store_params, genesis_store_nullifiers, genesis_store_turnstiles.
  destruct (genesis_store_assets gs n L now h) as [-> _]. split; [reflexivity|]. split; [reflexivity|].
  split; [intros d id; apply genesis_asset, (gv_assets gs Hv)|]. split; [intros d t; apply genesis_turnstile, (gv_turnstiles gs Hv)|].
  exists L. split; [exact Em|]. split; [unfold notes_rep; rewrite genesis_store_tree; exact HL|].
  split; [apply recorded_latest, FieldBytes_nonempty|]. by apply genesis_roots.
Qed.
End genesis_properties.
