(* ===== verification/ShieldedExport.v ===== *)
(** * x/shielded: what a chain exports imports again

    The history of root records the end of every block keeps ([history_ok]), what [ExportGenesis] reads of a sound pool, and that
    the module's genesis rebuilds the same pool from it. *)

From S2P Require Export ShieldedGenesis.

(** ** The history of roots *)
Section history.
Context `{HostLaws, !PoolEnv}.
Implicit Types (w : PoolWorld) (s : PoolStore) (L : list Z).

(** The records of roots are well dated: the index is exact, only the latest is not superseded, and none was superseded before it
    was recorded or later than [now]. *)
Record history_ok (now : Z) s : Prop := {
  ho_index : index_ok s;
  ho_placed : ∀ r rec, p_Roots s !! r = Some rec → placed now (bool_decide (p_LatestRoot s = Some r)) rec;
}.

Lemma placed_later now now' b r : now ≤ now' → placed now b r → placed now' b r.
Proof. intros Hle (? & ? & ?). split_and!; [lia|lia|done]. Qed.

Lemma recorded_history now root n now' h s :
  history_ok now s → now ≤ now' → time_ok now' → root ≠ [] → p_LatestRoot s = Some root ∨ p_Roots s !! root = None →
  history_ok now' (recorded root n now' h s) ∧ p_LatestRoot (recorded root n now' h s) = Some root.
Proof.
  intros [Hi Hp] Hle Ht Hne Hr. destruct (recorded_index root n now' h s Hi Ht Hne Hr) as [Hi' Hl']. split; [|exact Hl'].
  split; [exact Hi'|]. rewrite Hl'. destruct (decide (p_LatestRoot s = Some root)) as [El|El].
  - assert (recorded root n now' h s = s) as -> by (unfold recorded; rewrite El; by rewrite bool_decide_eq_true_2).
    intros r rec Hrec. rewrite <-El. eapply placed_later; [exact Hle|by apply Hp].
  - destruct Hr as [?|Hr]; [done|]. intros r rec. rewrite (recorded_Roots root n now' h s r Hi Hne El Hr).
    unfold time_ok in Ht. case_bool_decide as Hd.
    + intros [= <-]. subst r. rewrite bool_decide_eq_true_2 by done. split_and!; cbn; lia.
    + rewrite (bool_decide_eq_false_2 (Some root = Some r)) by congruence. destruct (decide (p_LatestRoot s = Some r)) as [Elr|Elr].
      * intros (rec0 & Hrec0 & ->)%fmap_Some_1. pose proof (Hp r rec0 Hrec0) as (? & ? & _).
        split_and!; cbn [set_superseded rr_Time rr_SupersededAt]; lia.
      * intros Hrec. pose proof (Hp r rec Hrec) as Hpr. rewrite bool_decide_eq_false_2 in Hpr by done. by eapply placed_later.
Qed.

Lemma pruned_history now ks s :
  history_ok now s → (∀ k, k ∈ ks → k ∈ p_RootsByTime s ∧ snd k ≠ default [] (p_LatestRoot s)) → history_ok now (pruned ks s).
Proof.
  intros [Hi Hp] Hks. split; [by apply pruned_index|]. intros r rec. destruct (pruned_same ks s) as [_ ->].
  rewrite pruned_Roots. case_bool_decide; [done|]. apply Hp.
Qed.

(** The end of a block keeps the history and makes the tree's root the latest. *)
Lemma ended_history now L window w :
  history_ok now (st w) → now ≤ now_of w → time_ok (now_of w) →
  p_LatestRoot (st w) = Some (FieldBytes (ref_root L)) ∨ p_Roots (st w) !! FieldBytes (ref_root L) = None →
  history_ok (now_of w) (ended L window w) ∧ p_LatestRoot (ended L window w) = Some (FieldBytes (ref_root L)).
Proof.
  unfold ended. pose proof (FieldBytes_nonempty (ref_root L)) as Hne. revert Hne. generalize (FieldBytes (ref_root L)).
  intros root Hne Hh Hle Ht Hr.
  destruct (recorded_history now root (Z.of_nat (length L)) (now_of w) (c_Height (ps_ctx (snd w))) (st w) Hh Hle Ht Hne Hr) as [Hh1 Hl1].
  set (s1 := recorded _ _ _ _ _) in *. set (ks := doomed_walk _ _ _ _ _).
  assert (history_ok (now_of w) (pruned ks s1)) as [Hi2 Hp2].
  { apply pruned_history; [done|]. intros k (Hk & Hn & _)%doomed_elem. by rewrite elem_of_iter_set in Hk. }
  destruct (pruned_same ks s1) as [_ Hl2]. split; [split; [|exact Hp2]|].
  - destruct Hi2 as [H2 H3 H4]. split; [exact H2|exact H3|exact H4].
  - cbn [p_LatestRoot set_p_DirtyDenoms set_p_PrivateActionCount]. by rewrite Hl2.
Qed.
End history.

(** ** What ExportGenesis gives *)
Section export.
Context `{HostLaws, !PoolEnv}.
Implicit Types (w : PoolWorld) (s : PoolStore) (L : list Z) (t : Tree TreeNodes).

Lemma at_tree_leaf w t L i : at_tree w t L → 0 ≤ i → run_tree t (Merkle.Leaf i) w = Ok ((leaf_at L i, t), w).
Proof.
  intros [HL E] Hi. unfold run_tree. rewrite (run_bind _ _ w (leaf_at L i, t) w).
  - erewrite run_bind by reflexivity. rewrite <-E. destruct w as [b [c []]]. reflexivity.
  - unfold lift. by rewrite (Leaf_spec _ _ _ HL Hi).
Qed.

Lemma export_leaves_run n i t L w :
  at_tree w t L → (i + n = length L)%nat → export_leaves t (Z.of_nat i) n w = Ok (FieldBytes <$> drop i L, w).
Proof.
  revert i. induction n as [|n IH]; intros i Ht Hn; cbn [export_leaves].
  - rewrite drop_ge by lia. reflexivity.
  - rewrite (run_bind _ _ _ _ _ (at_tree_leaf w t L (Z.of_nat i) Ht ltac:(lia))). cbv beta iota.
    replace (Z.of_nat i + 1) with (Z.of_nat (S i)) by lia. rewrite (run_bind _ _ _ _ _ (IH (S i) Ht ltac:(lia))).
    destruct (lookup_lt_is_Some_2 L i ltac:(lia)) as [e He]. rewrite (drop_S L e i He). unfold leaf_at. rewrite Nat2Z.id, He. reflexivity.
Qed.

(** The records the walk gives, in order, the latest apart. *)
Definition walked (roots : gmap bytes RootRecord) (latest : bytes) (ks : list (Z * bytes)) : list RootRecord :=
  omap (λ k, if bool_decide (snd k = latest) then None else roots !! snd k) ks.

Lemma export_roots_run latest ks w :
  (∀ k, k ∈ ks → ∃ rec, p_Roots (st w) !! snd k = Some rec ∧ rr_Root rec = snd k) →
  export_roots latest ks w =
    Ok ((walked (p_Roots (st w)) latest ks, if bool_decide (latest ∈ snd <$> ks) then p_Roots (st w) !! latest else None), w).
Proof.
  induction ks as [|k ks IH]; intros Hk; cbn [export_roots]; [reflexivity|].
  erewrite run_bind by reflexivity. cbv beta. fold (st w). destruct (Hk k ltac:(by left)) as (rec & Hrec & Er). rewrite Hrec, Er.
  rewrite (run_bind _ _ _ _ _ (IH ltac:(intros; apply Hk; by right))). cbv beta iota.
  unfold walked. cbn [omap list_omap fmap list_fmap]. rewrite Hrec. destruct (decide (snd k = latest)) as [E|E].
  - rewrite !(bool_decide_eq_true_2 _ E). assert (latest ∈ snd k :: (snd <$> ks)) as Hin by (rewrite E; left). rewrite (bool_decide_eq_true_2 _ Hin).
    case_bool_decide; rewrite <-E, Hrec; reflexivity.
  - rewrite !(bool_decide_eq_false_2 _ E).
    rewrite (bool_decide_ext (latest ∈ snd k :: (snd <$> ks)) (latest ∈ snd <$> ks)); [reflexivity|].
    rewrite elem_of_cons. naive_solver.
Qed.
End export.

(** ** The exported records *)
Section exported.
Context `{HostLaws, !PoolEnv}.
Implicit Types (w : PoolWorld) (s : PoolStore) (L : list Z).

Definition export_records s : list RootRecord :=
  let latest := default [] (p_LatestRoot s) in
  walked (p_Roots s) latest (iter_set (p_RootsByTime s)) ++ option_list (p_Roots s !! latest).

Lemma index_key s k : index_ok s → k ∈ iter_set (p_RootsByTime s) → ∃ rec, p_Roots s !! snd k = Some rec ∧ rr_Root rec = snd k.
Proof.
  intros Hi Hk. rewrite elem_of_iter_set in Hk. destruct k as [t r]. apply (io_index s Hi) in Hk as (rec & Hrec & _).
  exists rec. split; [done|]. by apply (io_root s Hi r rec).
Qed.

Lemma index_keys_NoDup s : index_ok s → NoDup (snd <$> iter_set (p_RootsByTime s)).
Proof.
  intros Hi. apply NoDup_fmap_2_strong; [|apply iter_set_NoDup]. intros [t r] [t' r'] Hk Hk' E. cbn in E. subst r'.
  rewrite elem_of_iter_set in Hk, Hk'. apply (io_index s Hi) in Hk as (rec & Hrec & <-), Hk' as (rec' & Hrec' & <-). congruence.
Qed.

Lemma index_keys s r : index_ok s → r ∈ snd <$> iter_set (p_RootsByTime s) ↔ is_Some (p_Roots s !! r).
Proof.
  intros Hi. rewrite list_elem_of_fmap. split.
  - intros (k & -> & Hk). destruct (index_key s k Hi Hk) as (rec & -> & _). by eexists.
  - intros [rec Hrec]. exists (windowStart rec, r). split; [done|]. rewrite elem_of_iter_set. apply (io_index s Hi). by exists rec.
Qed.

Lemma walked_elem s latest rec :
  index_ok s →
  rec ∈ walked (p_Roots s) latest (iter_set (p_RootsByTime s)) ↔ p_Roots s !! rr_Root rec = Some rec ∧ rr_Root rec ≠ latest.
Proof.
  intros Hi. unfold walked. rewrite list_elem_of_omap. split.
  - intros (k & Hk & Hr). case_bool_decide as Hd; [done|]. by destruct (io_root s Hi _ _ Hr) as (-> & _).
  - intros [Hr Hne]. exists (windowStart rec, rr_Root rec). cbn [snd]. rewrite bool_decide_eq_false_2 by done.
    split; [|done]. rewrite elem_of_iter_set. apply (io_index s Hi). by exists rec.
Qed.

Lemma walked_roots (roots : gmap bytes RootRecord) latest ks :
  (∀ k, k ∈ ks → ∃ rec, roots !! snd k = Some rec ∧ rr_Root rec = snd k) →
  rr_Root <$> walked roots latest ks = filter (λ r, r ≠ latest) (snd <$> ks).
Proof.
  induction ks as [|k ks IH]; intros Hk; [reflexivity|]. specialize (IH ltac:(intros; apply Hk; by right)).
  destruct (Hk k ltac:(by left)) as (rec & Hrec & Er). unfold walked in *. cbn [omap list_omap fmap list_fmap]. rewrite Hrec.
  destruct (decide (snd k = latest)) as [E|E].
  - rewrite (bool_decide_eq_true_2 _ E), filter_cons_False by (intros Hx; by apply Hx). exact IH.
  - rewrite (bool_decide_eq_false_2 _ E), filter_cons_True by done. cbn [fmap list_fmap]. by rewrite Er, IH.
Qed.

(** Exactly the store's records, each once, the latest at the end. *)
Lemma export_records_spec s root :
  index_ok s → p_LatestRoot s = Some root →
  NoDup (rr_Root <$> export_records s) ∧ (∀ rec, rec ∈ export_records s ↔ p_Roots s !! rr_Root rec = Some rec) ∧
  ∃ l rec, export_records s = l ++ [rec] ∧ rr_Root rec = root ∧ ∀ r, r ∈ l → rr_Root r ≠ root.
Proof.
  intros Hi Hl. destruct (io_latest s Hi root Hl) as [rec Hrec]. destruct (io_root s Hi root rec Hrec) as (Er & _).
  unfold export_records. rewrite Hl. cbn [default id]. rewrite Hrec. change (option_list (Some rec)) with [rec]. split_and!.
  - rewrite fmap_app, walked_roots by (intros; by apply index_key). cbn [fmap list_fmap]. apply NoDup_app. split_and!.
    + apply NoDup_filter. by apply index_keys_NoDup.
    + intros x [Hx _]%list_elem_of_filter ->%list_elem_of_singleton. by apply Hx.
    + apply NoDup_singleton.
  - intros r. rewrite elem_of_app, walked_elem, list_elem_of_singleton by done. split.
    + intros [[? _]| ->]; [done|]. by rewrite Er.
    + intros Hr. destruct (decide (rr_Root r = root)) as [E|]; [right|by left]. rewrite E in Hr. congruence.
  - exists (walked (p_Roots s) root (iter_set (p_RootsByTime s))), rec. split_and!; try done.
    intros r Hr. by apply (walked_elem s root r Hi) in Hr as [_ ?].
Qed.

(** What a chain's store must say besides for its export to be valid: the fee asset is admitted, a turnstile is of an admitted
    denom, and the nullifiers are field elements. *)
Record exportable s : Prop := {
  ex_fee : is_Some (p_Assets s !! FeeDenom);
  ex_admitted : ∀ d, is_Some (p_Turnstiles s !! d) → is_Some (p_Assets s !! d);
  ex_nullifiers : ∀ nf, nf ∈ p_Nullifiers s → is_ok (FieldFromBytes nf) = true;
}.

Definition exported p L s : ShieldedGenesis :=
  mkShieldedGenesis p ((λ e : string * bytes, mkAsset e.1 e.2) <$> iter_map (p_Assets s)) (FieldBytes <$> L) (iter_set (p_Nullifiers s))
    (export_records s) (snd <$> iter_map (p_Turnstiles s)).

Lemma ExportGenesis_run p L w :
  notes_rep (st w) L → p_Params (st w) = Some p → index_ok (st w) → is_Some (p_LatestRoot (st w)) →
  ShieldedExportGenesis w = Ok (exported p L (st w), w).
Proof.
  intros HL Hp Hi [root Hl]. unfold ShieldedExportGenesis. rewrite (run_bind _ _ w p w) by by apply GetParams_ok.
  erewrite run_bind by reflexivity. cbv beta. rewrite (run_bind _ _ w (note_tree (st w)) w) by by apply tree_run.
  assert (Merkle.Size (note_tree (st w)) = Z.of_nat (length L)) as -> by apply HL. rewrite Nat2Z.id.
  rewrite (run_bind _ _ _ _ _ (export_leaves_run (length L) 0 (note_tree (st w)) L w (conj HL eq_refl) ltac:(lia))).
  do 3 (erewrite run_bind by reflexivity; cbv beta). fold (st w).
  rewrite (run_bind _ _ _ _ _ (export_roots_run _ _ w (λ k, index_key (st w) k Hi))). cbv beta iota.
  erewrite run_bind by reflexivity. cbv beta. fold (st w). unfold mret, prog_ret, exported, export_records. rewrite Hl. cbn [default id].
  rewrite bool_decide_eq_true_2 by by (apply index_keys; [|apply (io_latest _ Hi)]). reflexivity.
Qed.
End exported.

(** ** The round trip *)
Section round_trip.
Context `{HostLaws, !PoolEnv}.
Implicit Types (w : PoolWorld) (s : PoolStore) (L : list Z) (gs : ShieldedGenesis).

Lemma ref_root_fr L : Forall is_fr L → is_fr (ref_root L).
Proof. intros HL. unfold ref_root. apply subtree_fr. intros j. by apply leaf_at_fr. Qed.

Lemma take_fr n L : Forall is_fr L → Forall is_fr (take n L).
Proof. apply Forall_take. Qed.

Lemma canonical_root n L : Forall is_fr L → is_ok (FieldFromBytes (FieldBytes (ref_root (take n L)))) = true.
Proof. intros HL. by rewrite (FieldFromBytes_Bytes _ (ref_root_fr _ (take_fr n L HL))). Qed.

Lemma exported_asset s d id : mkAsset d id ∈ (λ e : string * bytes, mkAsset e.1 e.2) <$> iter_map (p_Assets s) ↔ p_Assets s !! d = Some id.
Proof.
  rewrite list_elem_of_fmap. split.
  - intros ([d' id'] & [= -> ->] & Hin). by apply elem_of_iter_map in Hin.
  - intros Hin. exists (d, id). split; [done|]. by apply elem_of_iter_map.
Qed.
Lemma exported_denoms s d :
  d ∈ as_Denom <$> ((λ e : string * bytes, mkAsset e.1 e.2) <$> iter_map (p_Assets s)) ↔ is_Some (p_Assets s !! d).
Proof.
  rewrite list_elem_of_fmap. split.
  - intros ([d' id] & -> & Hin%exported_asset). by eexists.
  - intros [id Hid%exported_asset]. by exists (mkAsset d id).
Qed.
Lemma exported_turnstile s t :
  (∀ d t, p_Turnstiles s !! d = Some t → ts_Denom t = d) →
  t ∈ snd <$> iter_map (p_Turnstiles s) ↔ p_Turnstiles s !! ts_Denom t = Some t.
Proof.
  intros Hk. rewrite list_elem_of_fmap. split.
  - intros ([d t'] & -> & Hin). apply elem_of_iter_map in Hin. cbn. by rewrite (Hk _ _ Hin).
  - intros Ht. exists (ts_Denom t, t). split; [done|]. by apply elem_of_iter_map.
Qed.

Lemma NoDup_asset_denoms s : NoDup (as_Denom <$> ((λ e : string * bytes, mkAsset e.1 e.2) <$> iter_map (p_Assets s))).
Proof. rewrite <-list_fmap_compose. exact (iter_map_NoDup (p_Assets s)). Qed.

Lemma NoDup_asset_ids s :
  assets_ok s → NoDup (as_AssetId <$> ((λ e : string * bytes, mkAsset e.1 e.2) <$> iter_map (p_Assets s))).
Proof.
  intros [_ Hb]. rewrite <-list_fmap_compose. apply NoDup_fmap_2_strong.
  - intros [d id] [d' id'] Hin%elem_of_iter_map Hin'%elem_of_iter_map E. cbn in E. subst id'.
    apply Hb in Hin, Hin'. congruence.
  - eapply NoDup_fmap_1. apply iter_map_NoDup.
Qed.

Lemma NoDup_turnstiles s :
  (∀ d t, p_Turnstiles s !! d = Some t → ts_Denom t = d) → NoDup (ts_Denom <$> (snd <$> iter_map (p_Turnstiles s))).
Proof.
  intros Hk. rewrite <-list_fmap_compose. apply NoDup_fmap_2_strong.
  - intros [d t] [d' t'] Hin%elem_of_iter_map Hin'%elem_of_iter_map E. cbn in E.
    rewrite (Hk _ _ Hin), (Hk _ _ Hin') in E. subst d'. congruence.
  - eapply NoDup_fmap_1. apply iter_map_NoDup.
Qed.

Lemma turnstile_keys b s : turnstiles_ok b (p_Turnstiles s) → ∀ d t, p_Turnstiles s !! d = Some t →
  ts_Denom t = d ∧ 0 ≤ ts_Out t ≤ ts_In t.
Proof.
  intros Hts d t Ht. destruct (Hts d) as (Eb & Ho & Ed). pose proof (GetBalance_range b PoolAddress d) as Hr.
  unfold turnstile_at in *. rewrite Ht in *. cbn [default id] in *. split; [done|]. lia.
Qed.

(** The export of a sound pool is a valid genesis. *)
Lemma exported_valid p L w now root :
  pool_ok w → notes_rep (st w) L → anchored (st w) L → history_ok now (st w) → p_LatestRoot (st w) = Some root →
  p_Params (st w) = Some p → exportable (st w) → genesis_valid (exported p L (st w)).
Proof.
  intros Hok HL Ha [Hi _] Hl Hp [Hfee Hadm Hnf]. pose proof HL as (Hcap & _ & Hfr & _).
  pose proof (turnstile_keys _ _ (po_turnstiles w Hok)) as Hk. destruct (po_assets w Hok) as [Has _].
  destruct (export_records_spec (st w) root Hi Hl) as (Hnd & Hrec & _).
  split; cbn [exported sg_Params sg_Assets sg_Commitments sg_Nullifiers sg_Roots sg_Turnstiles].
  - destruct (po_params w Hok) as (p' & Hp' & Hv). congruence.
  - split; [apply NoDup_asset_denoms|]. apply Forall_forall. intros [d id] [Ed [Hvd _]]%exported_asset%Has.
    split; [done|]. unfold NewAsset. cbn [as_Denom]. by rewrite Ed.
  - by apply exported_denoms.
  - rewrite length_fmap. exact Hcap.
  - apply Forall_forall. intros cm (e & -> & He)%list_elem_of_fmap. rewrite Forall_forall in Hfr.
    by rewrite (FieldFromBytes_Bytes e (Hfr e He)).
  - split; [apply iter_set_NoDup|]. apply Forall_forall. intros nf Hin. rewrite elem_of_iter_set in Hin. by apply Hnf.
  - split; [done|]. rewrite length_fmap. apply Forall_forall. intros r Hr%Hrec. destruct (Ha _ _ Hr) as [_ [Hn ->]].
    split; [by apply canonical_root|apply Hn].
  - split; [apply NoDup_turnstiles; intros d t Ht; by apply (Hk d t)|]. apply Forall_forall. intros t Ht.
    apply exported_turnstile in Ht; [|intros d t' Ht'; by apply (Hk d t')]. split; [|by apply (Hk _ _ Ht)].
    apply exported_denoms, Hadm. by eexists.
Qed.

(** Init after the assets, on a genesis whose leaves are canonical and whose records match. *)
Lemma init_rest_run gs L w :
  sg_Commitments gs = FieldBytes <$> L → Forall is_fr L → Z.of_nat (length L) ≤ Capacity →
  Forall (λ r, rr_Root r = FieldBytes (ref_root (take (Z.to_nat (rr_TreeSize r)) L))) (sg_Roots gs) →
  (∀ i r, sg_Roots gs !! i = Some r → placed (now_of w) (bool_decide (S i = length (sg_Roots gs))) r) →
  st w = assets_loaded (sg_Assets gs) (set_p_Params (Some (sg_Params gs)) empty_store) →
  ∃ n, tree_rep (New n (Z.of_nat (length L))) L ∧ init_rest gs w = AssertInvariants (genesis_world gs n L w).
Proof.
  intros Hcm Hfr Hcap Hroots Hplace Es. unfold init_rest. erewrite run_bind by reflexivity. cbv beta.
  pose (rootAt := λ n, FieldBytes (ref_root (take (Z.to_nat n) L))).
  destruct (want_roots_total rootAt (now_of w) ∅ (sg_Roots gs) Hroots) as (want & Ew & Hw); [intros n r [=]|done|].
  fold (now_of w). rewrite (run_bind _ _ w want w) by (unfold lift; by rewrite Ew).
  rewrite (run_bind _ _ w (New ∅ 0) w) by (apply tree_run; by rewrite Es).
  erewrite run_bind by reflexivity. assert (at_tree w (New ∅ 0) []) as Ht by (split; [exact empty_tree|rewrite Es; reflexivity]).
  assert (∀ es1 es2, L = es1 ++ es2 → wanted want es1) as Hwant.
  { intros es1 es2 -> r Hr. apply Hw in Hr. unfold rootAt in Hr. rewrite Nat2Z.id, take_app_length in Hr. exact Hr. }
  rewrite (run_bind _ _ _ _ _ (proj2 (checkRoot_run want w _ [] w Ht) (conj eq_refl (Hwant [] L eq_refl)))).
  rewrite Hcm. destruct (append_leaves_run want L (New ∅ 0) [] w Ht Hfr Hcap) as (t' & Ea & HL).
  { intros es1 es2 El _. exact (Hwant es1 es2 El). }
  rewrite (run_bind _ _ _ _ _ Ea). cbn [app] in HL. exists (t_store t').
  assert (t' = New (t_store t') (Z.of_nat (length L))) as Et' by (destruct HL as (_ & <- & _); by destruct t').
  rewrite Et' in HL. split; [exact HL|].
  assert (Merkle.Size t' = Z.of_nat (length L)) as -> by (rewrite Et'; reflexivity).
  rewrite (init_tail_run gs (t_store t') L); [reflexivity|exact HL|]. unfold with_store, st. cbn [snd ps_store]. fold (st w). by rewrite Es.
Qed.

Lemma store_ext s s' :
  p_Params s = p_Params s' → p_TreeNodes s = p_TreeNodes s' → p_TreeSize s = p_TreeSize s' → p_Roots s = p_Roots s' →
  p_RootsByTime s = p_RootsByTime s' → p_LatestRoot s = p_LatestRoot s' → p_Nullifiers s = p_Nullifiers s' →
  p_Assets s = p_Assets s' → p_AssetsByID s = p_AssetsByID s' → p_Turnstiles s = p_Turnstiles s' →
  p_DirtyDenoms s = p_DirtyDenoms s' → p_PrivateActionCount s = p_PrivateActionCount s' → s = s'.
Proof. destruct s, s'. cbn. intros. subst. reflexivity. Qed.

Lemma recorded_noop root n now h s : p_LatestRoot s = Some root → recorded root n now h s = s.
Proof. intros El. unfold recorded. rewrite El. by rewrite bool_decide_eq_true_2. Qed.

(** The store at the end of a block, with its tree rebuilt. *)
Definition rebuilt (n : TreeNodes) L s : PoolStore := set_p_TreeNodes n (set_p_TreeSize (Some (Z.of_nat (length L))) s).

Lemma exported_assets s :
  assets_ok s →
  let l := (λ e : string * bytes, mkAsset e.1 e.2) <$> iter_map (p_Assets s) in
  insert_all ((λ a, (as_Denom a, as_AssetId a)) <$> l) ∅ = p_Assets s ∧
  insert_all ((λ a, (as_AssetId a, as_Denom a)) <$> l) ∅ = p_AssetsByID s.
Proof.
  intros Hok l. split; apply insert_all_empty.
  - rewrite asset_keys. apply NoDup_asset_denoms.
  - intros d id. rewrite list_elem_of_fmap, <-exported_asset. split; [by intros ([] & [= -> ->] & ?)|by exists (mkAsset d id)].
  - rewrite <-list_fmap_compose. exact (NoDup_asset_ids s Hok).
  - intros id d. destruct Hok as [_ Hb]. rewrite <-Hb, list_elem_of_fmap, <-exported_asset.
    split; [by intros ([] & [= -> ->] & ?)|by exists (mkAsset d id)].
Qed.

Lemma exported_turnstiles s :
  (∀ d t, p_Turnstiles s !! d = Some t → ts_Denom t = d) →
  insert_all ((λ ts, (ts_Denom ts, ts)) <$> (snd <$> iter_map (p_Turnstiles s))) ∅ = p_Turnstiles s.
Proof.
  intros Hk. apply insert_all_empty.
  - rewrite <-list_fmap_compose. by apply NoDup_turnstiles.
  - intros d t. rewrite list_elem_of_fmap. setoid_rewrite exported_turnstile; [|done..]. split.
    + by intros (t' & [= -> ->] & Ht).
    + intros Ht. exists t. rewrite (Hk d t Ht). done.
Qed.

Lemma exported_roots s root :
  index_ok s → p_LatestRoot s = Some root →
  insert_all ((λ r, (rr_Root r, r)) <$> export_records s) ∅ = p_Roots s ∧
  list_to_set ((λ r, (windowStart r, rr_Root r)) <$> export_records s) ∪ ∅ = p_RootsByTime s ∧
  (match last (export_records s) with Some r => Some (rr_Root r) | None => None end) = Some root.
Proof.
  intros Hi Hl. destruct (export_records_spec s root Hi Hl) as (Hnd & Hrec & l & rec & El & Er & _). split_and!.
  - apply insert_all_empty; [by rewrite <-list_fmap_compose|]. intros r rec'. rewrite list_elem_of_fmap. split.
    + by intros (x & [= -> ->] & Hx%Hrec).
    + intros Hx. destruct (io_root s Hi _ _ Hx) as (E & _). exists rec'. rewrite E. split; [done|]. apply Hrec. by rewrite E.
  - rewrite union_empty_r_L. apply set_eq. intros [t r]. rewrite elem_of_list_to_set, list_elem_of_fmap, (io_index s Hi). split.
    + intros (x & [= -> ->] & Hx%Hrec). by exists x.
    + intros (x & Hx & <-). destruct (io_root s Hi _ _ Hx) as (E & _). exists x. rewrite E. split; [done|]. apply Hrec. by rewrite E.
  - by rewrite El, last_snoc, Er.
Qed.

Lemma exported_store p L w n now h :
  pool_ok w → index_ok (st w) → p_LatestRoot (st w) = Some (FieldBytes (ref_root L)) → p_Params (st w) = Some p →
  p_DirtyDenoms (st w) = ∅ → p_PrivateActionCount (st w) = None →
  genesis_store (exported p L (st w)) n L now h = rebuilt n L (st w).
Proof.
  intros Hok Hi Hl Hp Hd Hc. pose proof (turnstile_keys _ _ (po_turnstiles w Hok)) as Hk.
  destruct (exported_assets (st w) (po_assets w Hok)) as [Ea Eb].
  pose proof (exported_turnstiles (st w) (λ d t Ht, proj1 (Hk d t Ht))) as Et.
  destruct (exported_roots (st w) _ Hi Hl) as (Er & Ert & Elast). unfold genesis_store. revert Hl Elast.
  generalize (FieldBytes (ref_root L)). intros root Hl Elast.
  rewrite recorded_noop by exact Elast. apply store_ext.
  - symmetry. exact Hp.
  - reflexivity.
  - reflexivity.
  - exact Er.
  - exact Ert.
  - exact (eq_trans Elast (eq_sym Hl)).
  - apply set_eq. intros x. transitivity (x ∈ list_to_set (iter_set (p_Nullifiers (st w))) ∪ (∅ : gset bytes)); [reflexivity|].
    rewrite union_empty_r_L, elem_of_list_to_set, elem_of_iter_set. reflexivity.
  - exact Ea.
  - exact Eb.
  - exact Et.
  - symmetry. exact Hd.
  - symmetry. exact Hc.
Qed.

(** Importing the export of a sound pool rebuilds it. *)
Lemma import_exported p L w now w0 :
  pool_ok w → notes_rep (st w) L → anchored (st w) L → history_ok now (st w) →
  p_LatestRoot (st w) = Some (FieldBytes (ref_root L)) → p_Params (st w) = Some p → exportable (st w) →
  p_DirtyDenoms (st w) = ∅ → p_PrivateActionCount (st w) = None →
  st w0 = empty_store → fst w0 = fst w → now ≤ now_of w0 →
  ∃ n, tree_rep (New n (Z.of_nat (length L))) L ∧
    ShieldedModuleInitGenesis (exported p L (st w)) w0 = Ok ((), with_store (λ _, rebuilt n L (st w)) w0).
Proof.
  intros Hok HL Ha Hh Hl Hp Hx Hd Hc Es0 Eb Hle.
  pose proof (exported_valid p L w now _ Hok HL Ha Hh Hl Hp Hx) as Hv. pose proof HL as (Hcap & _ & Hfr & _).
  destruct Hh as [Hi Hplace]. destruct (export_records_spec (st w) _ Hi Hl) as (Hnd & Hrec & l & rec & El & Er & Hne).
  set (gs := exported p L (st w)) in *. pose (w1 := with_store (set_p_Params (Some p)) w0).
  assert (for_each (sg_Assets gs) init_asset w1 = Ok ((), with_store (assets_loaded (sg_Assets gs)) w1)) as Eas.
  { apply init_assets_total.
    - apply Forall_forall. intros [d id] [-> Had]%exported_asset%(po_assets w Hok). split; [exact Had|reflexivity].
    - assert (p_Assets (st w1) = ∅) as -> by (unfold w1, with_store, st; cbn; fold (st w0); by rewrite Es0). rewrite dom_empty_L.
      apply unseen_empty, NoDup_asset_denoms.
    - assert (p_AssetsByID (st w1) = ∅) as -> by (unfold w1, with_store, st; cbn; fold (st w0); by rewrite Es0). rewrite dom_empty_L.
      apply unseen_empty, NoDup_asset_ids, (po_assets w Hok). }
  destruct (init_rest_run gs L (with_store (assets_loaded (sg_Assets gs)) w1)) as (n & Hn & Erest).
  - reflexivity.
  - exact Hfr.
  - exact Hcap.
  - apply Forall_forall. intros r Hr%Hrec. destruct (Ha _ _ Hr) as [_ [_ E]]. exact E.
  - intros i r Hr. cbn [gs exported sg_Roots] in Hr |- *. eapply placed_later; [exact Hle|].
    pose proof (list_elem_of_lookup_2 _ _ _ Hr) as Hin. apply Hrec in Hin. pose proof (Hplace _ _ Hin) as Hpl.
    rewrite (bool_decide_ext _ (S i = length (export_records (st w)))) in Hpl; [exact Hpl|]. rewrite Hl, El, length_app. cbn [length].
    rewrite El in Hr. split.
    + intros [= E]. rewrite E in Er. apply lookup_app_Some in Hr as [Hr|[Hle' Hr]].
      * apply list_elem_of_lookup_2 in Hr. by apply Hne in Hr.
      * apply list_lookup_singleton_Some in Hr as [? _]. lia.
    + intros Hi'. rewrite lookup_app_r in Hr by lia. replace (i - length l)%nat with 0%nat in Hr by lia. injection Hr as <-. by rewrite Er.
  - unfold w1, with_store, st. cbn [snd ps_store]. fold (st w0). by rewrite Es0.
  - exists n. split; [exact Hn|]. unfold ShieldedModuleInitGenesis.
    rewrite (run_bind _ _ w0 () w0) by (unfold lift; by rewrite (proj2 (GenesisValidate_spec gs) Hv)).
    change (ShieldedInitGenesis gs) with
      (set_store (set_p_Params (Some p));; for_each (sg_Assets gs) init_asset;; init_rest gs).
    rewrite (run_bind _ _ w0 () w1) by reflexivity. rewrite (run_bind _ _ _ _ _ Eas), Erest. unfold genesis_world.
    rewrite (exported_store p L w n _ _ Hok Hi Hl Hp Hd Hc). change (with_store _ _) with (with_store (λ _, rebuilt n L (st w)) w0).
    rewrite AssertInvariants_pass; [reflexivity|]. destruct Hok. split.
    + unfold with_store, st, rebuilt. cbn [fst snd ps_store p_Turnstiles set_p_TreeNodes set_p_TreeSize]. rewrite Eb. exact po_turnstiles.
    + exists L. exact Hn.
    + exact po_assets.
    + exact po_params.
Qed.
End round_trip.

(** ** Properties *)
Section export_properties.
Context `{HostLaws, !PoolEnv}.
Implicit Types (w : PoolWorld) (gs : ShieldedGenesis).

Lemma exportable_same s s' : same_pool s s' → exportable s → exportable s'.
Proof.
  intros (_ & _ & En & Ea & _ & Et & _) [Hfee Hadm Hnf]. split; [by rewrite Ea|intros d; rewrite Et, Ea; apply Hadm|].
  intros nf. rewrite En. apply Hnf.
Qed.

(** C18: What a chain exports at the end of a block imports again: the export succeeds and changes nothing, the new chain's
    module accepts it over the same balances, and its pool is the old one: the same notes, nullifiers, turnstiles, assets and
    parameters, and the same root records with the same windows, so that the same anchors stay valid for the same time. *)
Theorem pool_export_imports w w1 w0 L now :
  pool_good w → notes_rep (st w) L → history_ok now (st w) → exportable (st w) → now ≤ now_of w → time_ok (now_of w) →
  p_LatestRoot (st w) = Some (FieldBytes (ref_root L)) ∨ p_Roots (st w) !! FieldBytes (ref_root L) = None →
  EndBlocker w = Ok ((), w1) → st w0 = empty_store → fst w0 = fst w1 → now_of w ≤ now_of w0 →
  ∃ gs n, ShieldedExportGenesis w1 = Ok (gs, w1) ∧
    ShieldedModuleInitGenesis gs w0 = Ok ((), with_store (λ _, rebuilt n L (st w1)) w0) ∧
    notes_rep (rebuilt n L (st w1)) L.
Proof.
  intros [Hok (L' & HL' & Ha)] HL Hh Hx Hle Ht Hroot Hr Es0 Eb Hlater. rewrite (tree_rep_unique _ _ _ HL' HL) in Ha.
  destruct (po_params w Hok) as (p & Hp & _).
  destruct (EndBlocker_ok L w Hok HL) as (w' & Hr' & Hok1 & Eb1 & _ & _ & HL1 & Ha1).
  rewrite Hr in Hr'. injection Hr' as <-. rewrite (EndBlocker_run L p w Hok HL Hp) in Hr. injection Hr as Ew1.
  destruct (ended_history now L (RootWindowSeconds p) w Hh Hle Ht Hroot) as [Hh1 Hl1].
  pose proof (ended_same L (RootWindowSeconds p) w) as Hs.
  assert (exportable (set_p_DirtyDenoms (λ _, ∅) (st w))) as Hx0 by (destruct Hx as [Hfee Hadm Hnf]; split; [exact Hfee|exact Hadm|exact Hnf]).
  assert (p_DirtyDenoms (ended L (RootWindowSeconds p) w) = ∅) as Hd1 by reflexivity.
  assert (p_PrivateActionCount (ended L (RootWindowSeconds p) w) = None) as Hc1 by reflexivity.
  assert (st w1 = ended L (RootWindowSeconds p) w) as Est by (rewrite <-Ew1; reflexivity).
  rewrite <-Est in Hh1, Hl1, Hs, Hd1, Hc1. pose proof (exportable_same _ _ Hs Hx0) as Hx1.
  assert (p_Params (st w1) = Some p) as Hp1 by (destruct Hs as [-> _]; exact Hp).
  destruct (import_exported p L w1 (now_of w) w0 Hok1 HL1 (Ha1 Ha) Hh1 Hl1 Hp1 Hx1 Hd1 Hc1 Es0 Eb Hlater) as (n & Hn & Hi).
  exists (exported p L (st w1)), n. split; [|split; [exact Hi|exact Hn]].
  apply ExportGenesis_run; [exact HL1|exact Hp1|apply Hh1|by eexists].
Qed.
End export_properties.
