(* ===== verification/ShieldedTx.v ===== *)
(** * x/shielded: what the private ante admits

    A tx with a private msg that the app's ante handler accepts is one unsigned private msg, paying exactly the fee it declares, within
    the gas and block limits, with its binding signatures verified over the tx's own fields; and its msg has been executed. *)

From S2P Require Export ShieldedAnte ShieldedChain.

Section tx.
Context `{HostLaws, !PoolEnv} (Rest : Type) (actions : gmap string (PrivateActionHandler Rest)).
Abbreviation A := (prog (AnteState Rest)).
Implicit Types (s : AnteState Rest) (m : PrivateMsg) (tx : Tx).

(** The pool's part of the state. *)
Definition pool_of s : PoolWorld := fst (an_World Rest s).
Definition with_pool (w : PoolWorld) s : AnteState Rest := set_an_World Rest (w, snd (an_World Rest s)) s.

Lemma with_pool_id s : with_pool (pool_of s) s = s.
Proof. by destruct s as [[w r]]. Qed.

Lemma on_pool_ok {X} (p : prog PoolWorld X) s x s' :
  on_pool Rest p s = Ok (x, s') ↔ ∃ w, p (pool_of s) = Ok (x, w) ∧ s' = with_pool w s.
Proof.
  unfold on_pool, on_world, pool, with_pool, pool_of. destruct (p (fst (an_World Rest s))) as [[a w]| |]; split.
  - intros [= -> <-]. by exists w.
  - by intros (w' & [= -> ->] & ->).
  - done.
  - by intros (? & [=] & _).
  - done.
  - by intros (? & [=] & _).
Qed.

Lemma on_pool_reads {X} (p : prog PoolWorld X) s x s' :
  reads p → on_pool Rest p s = Ok (x, s') → p (pool_of s) = Ok (x, pool_of s) ∧ s' = s.
Proof.
  intros Hp (w & Hr & ->)%on_pool_ok. pose proof (Hp _ _ _ Hr) as ->. by rewrite with_pool_id.
Qed.

Lemma ConsumeGas_ok g s u s' :
  ConsumeGas Rest g s = Ok (u, s') → s' = set_an_Gas Rest (an_GasConsumed Rest s + g) s ∧ an_GasConsumed Rest s + g ≤ an_GasMeterLimit Rest s.
Proof.
  unfold ConsumeGas. intros Hr. apply bind_ok in Hr as (used & s1 & [-> ->]%gets_ok & Hr).
  apply bind_ok in Hr as (limit & s1 & [-> ->]%gets_ok & Hr). apply bind_ok in Hr as (u1 & s1 & [_ ->]%refuse_if_ok & Hr).
  apply bind_ok in Hr as (u2 & s1 & ->%modify_ok & [Hl%Z.ltb_ge ->]%refuse_if_ok). by split.
Qed.

(** ** The shape of the tx *)
Record tx_shape tx m (body : TxBody) (ai : AuthInfo) (fee : TxFee) : Prop := {
  ts_parts : tx_Body tx = Some body ∧ tx_AuthInfo tx = Some ai ∧ ai_Fee ai = Some fee;
  ts_msg : ∃ rest, tx_Msgs tx = PrivateTxMsg m :: rest;
  ts_gas : fee_GasLimit fee ≤ MaxGasWanted;
  ts_payer : fee_Payer fee = "" ∧ fee_Granter fee = "";
  ts_bare : body_ExtensionOptions body = [] ∧ body_NonCriticalExtensionOptions body = [] ∧ body_Unordered body = false ∧
    ai_Tip ai = None ∧ body_TimeoutTimestamp body = None;
  ts_valid : ValidateBundles m = Ok ();
  ts_fee : 0 < TotalFee m → fee_Amount fee = [mkCoin FeeDenom (TotalFee m)];
}.

Lemma tx_parts_ok tx body ai fee :
  tx_parts tx = Ok (body, ai, fee) ↔ tx_Body tx = Some body ∧ tx_AuthInfo tx = Some ai ∧ ai_Fee ai = Some fee.
Proof.
  unfold tx_parts. destruct (tx_Body tx) as [b|], (tx_AuthInfo tx) as [a|]; try (split; [done|by intros (? & ? & _)]).
  destruct (ai_Fee a) as [f|] eqn:E.
  - split; [by intros [= <- <- <-]|]. intros ([= <-] & [= <-] & Ef). rewrite E in Ef. by injection Ef as <-.
  - split; [done|]. intros (_ & [= <-] & Ef). by rewrite E in Ef.
Qed.

Lemma private_msg_ok' tx m : private_msg tx = Ok m ↔ ∃ rest, tx_Msgs tx = PrivateTxMsg m :: rest.
Proof.
  unfold private_msg. destruct (tx_Msgs tx) as [|[m'|t v] l].
  - split; [done|by intros (rest & [=])].
  - split; [intros [= ->]; by exists l|by intros (rest & [= -> _])].
  - split; [done|by intros (rest & [=])].
Qed.

Lemma length_zero {X} (l : list X) : negb (length l =? 0)%nat = false ↔ l = [].
Proof. by destruct l. Qed.

(** [NewCoins] of one positive coin is that coin. *)
Lemma coins_single d a cs : 0 < a → NewCoins [mkCoin d a] = Ok cs → cs = [mkCoin d a].
Proof.
  intros Ha [Ham [Hnd Hpos]]%NewCoins_spec.
  assert (∀ c, c ∈ cs → c = mkCoin d a) as Hc.
  { intros c Hin. pose proof (AmountOf_elem cs c Hnd Hin) as E. rewrite Ham, AmountOf_cons, AmountOf_nil in E. cbn [Denom Amount] in E.
    specialize (Hpos c Hin). destruct c as [d' a']. cbn [Denom Amount] in *. case_bool_decide; [subst; f_equal; lia|lia]. }
  pose proof (Ham d) as Hd. rewrite AmountOf_cons, AmountOf_nil in Hd. cbn [Denom Amount] in Hd. rewrite bool_decide_eq_true_2 in Hd by done.
  destruct cs as [|c1 [|c2 cs]].
  - rewrite AmountOf_nil in Hd. lia.
  - by rewrite (Hc c1 ltac:(left)).
  - exfalso. rewrite (Hc c1 ltac:(left)), (Hc c2 ltac:(right; left)) in Hnd. cbn in Hnd. apply NoDup_cons in Hnd as [Hnd _].
    apply Hnd. left.
Qed.

Lemma ValidateTx_ok tx s s' :
  c_IsReCheckTx (ctx_of Rest s) = false → ValidateTx Rest tx s = Ok ((), s') →
  s' = s ∧ ∃ m body ai fee, tx_shape tx m body ai fee.
Proof.
  intros Hre Hr. unfold ValidateTx in Hr. apply bind_ok in Hr as (re & s1 & [-> ->]%gets_ok & Hr).
  fold (ctx_of Rest s) in Hr. rewrite Hre in Hr. apply bind_ok in Hr as ([[body ai] fee] & s1 & [Hparts%tx_parts_ok ->]%lift_ok & Hr).
  apply bind_ok in Hr as (u1 & s1 & [Hgas%Z.ltb_ge ->]%refuse_if_ok & Hr).
  apply bind_ok in Hr as (u2 & s1 & [[Hpay%negb_false_iff%bool_decide_eq_true Hgr%negb_false_iff%bool_decide_eq_true]%orb_false_iff ->]%refuse_if_ok & Hr).
  apply bind_ok in Hr as (u3 & s1 & [[He1%length_zero He2%length_zero]%orb_false_iff ->]%refuse_if_ok & Hr).
  apply bind_ok in Hr as (u4 & s1 & [Hun ->]%refuse_if_ok & Hr).
  apply bind_ok in Hr as (u5 & s1 & [Htip%negb_false_iff%bool_decide_eq_true ->]%refuse_if_ok & Hr).
  apply bind_ok in Hr as (u6 & s1 & Hcan & Hr).
  assert (s1 = s) as ->.
  { unfold requireCanonicalEncoding in Hcan. apply bind_ok in Hcan as (raw & s2 & [-> ->]%gets_ok & Hcan).
    destruct (_ =? 0)%nat; [by apply ret_ok in Hcan as [= _ ->]|].
    apply bind_ok in Hcan as (c & s3 & [_ ->]%lift_ok & [_ ->]%refuse_if_ok). done. }
  apply bind_ok in Hr as (u7 & s1 & [Hts%negb_false_iff%bool_decide_eq_true ->]%refuse_if_ok & Hr).
  apply bind_ok in Hr as (u8 & s1 & [_ ->]%refuse_if_ok & Hr). apply bind_ok in Hr as (m & s1 & [Hm%private_msg_ok' ->]%lift_ok & Hr).
  apply bind_ok in Hr as ([] & s1 & [Hv ->]%lift_ok & Hr). apply bind_ok in Hr as (c & s1 & [[-> _]%NewCoin_spec ->]%lift_ok & Hr).
  apply bind_ok in Hr as (want & s1 & [Hw ->]%lift_ok & [Heq%negb_false_iff%bool_decide_eq_true ->]%refuse_if_ok).
  split; [done|]. exists m, body, ai, fee. split; try done. intros Hpos. rewrite Heq. by apply coins_single.
Qed.

(** ** Gas, the fee, the checks and the execution *)
Lemma charge_private_gas_ok m limit s s' :
  charge_private_gas Rest actions m limit false s = Ok ((), s') →
  ∃ p used, p_Params (st (pool_of s)) = Some p ∧ s' = set_an_Gas Rest used s ∧ limit ≤ PrivateGasCeiling used ∧
    (∀ b, b ∈ pm_Bundles m → Z.of_nat (length (bun_Actions b)) ≤ MaxActionsPerBundle p) ∧
    (match PrivateAction Rest actions m with
     | None => used = an_GasConsumed Rest s + PrivateMsgGas p (pm_Bundles m)
     | Some _ => True
     end).
Proof.
  intros Hr. unfold charge_private_gas in Hr. apply bind_ok in Hr as (p & s1 & [Hp%GetParams_ok ->]%(on_pool_reads _ _ _ _ reads_params) & Hr).
  destruct Hp as [Hp _]. apply bind_ok in Hr as (u1 & s1 & Hsz & Hr).
  apply on_pool_reads in Hsz as [Hsz ->]; [|apply reads_check_sizes].
  unfold check_sizes in Hsz. apply bind_ok in Hsz as (p' & w1 & [Hp' ->]%GetParams_ok & Hsz). rewrite Hp in Hp'. injection Hp' as <-.
  apply bind_ok in Hr as (u2 & s1 & [-> _]%ConsumeGas_ok & Hr).
  apply bind_ok in Hr as (u3 & s2 & Hact & Hr). apply bind_ok in Hr as (used & s3 & [-> ->]%gets_ok & Hr).
  apply refuse_if_ok in Hr as [Hceil%Z.ltb_ge ->].
  assert (∀ b, b ∈ pm_Bundles m → Z.of_nat (length (bun_Actions b)) ≤ MaxActionsPerBundle p) as Hsizes.
  { intros b Hb. destruct u1.
    pose proof (for_each_reads _ _ _ _ b (λ b, reads_refuse _ _) Hsz Hb) as [Hle%Z.ltb_ge _]%refuse_if_ok. exact Hle. }
  destruct (PrivateAction Rest actions m) as [h|].
  - apply bind_ok in Hact as (w & s4 & [-> ->]%gets_ok & Hact). apply bind_ok in Hact as (g & s4 & [_ ->]%lift_ok & [-> _]%ConsumeGas_ok).
    eexists p, _. split; [exact Hp|]. split; [reflexivity|]. split; [exact Hceil|]. split; [exact Hsizes|done].
  - apply ret_ok in Hact as [= _ ->]. eexists p, _. split; [exact Hp|]. split; [reflexivity|]. split; [exact Hceil|].
    split; [exact Hsizes|reflexivity].
Qed.

(** The count of the block's private actions, when the tx runs in a block. *)
Definition counted m (w : PoolWorld) : PoolWorld :=
  if c_Finalize (ps_ctx (snd w)) then
    with_store (set_p_PrivateActionCount (Some (wrap_u64 (default 0 (p_PrivateActionCount (st w)) + ActionCount m)))) w
  else w.

Lemma check_fee_ok m gas s s' :
  check_fee Rest m gas false s = Ok ((), s') →
  ∃ p, p_Params (st (pool_of s)) = Some p ∧ s' = with_pool (counted m (pool_of s)) s ∧
    Z.max 1 (MinFee p) ≤ TotalFee m ∧
    (c_Finalize (ctx_of Rest s) = true →
     wrap_u64 (default 0 (p_PrivateActionCount (st (pool_of s))) + ActionCount m) ≤ MaxPrivateActionsPerBlock p).
Proof.
  intros Hr. unfold check_fee in Hr. apply bind_ok in Hr as (ctx & s1 & [-> ->]%gets_ok & Hr).
  apply bind_ok in Hr as (u1 & s1 & Hc & Hr).
  assert (s1 = with_pool (counted m (pool_of s)) s ∧ (c_Finalize (ctx_of Rest s) = true → ∃ p, p_Params (st (pool_of s)) = Some p ∧
     wrap_u64 (default 0 (p_PrivateActionCount (st (pool_of s))) + ActionCount m) ≤ MaxPrivateActionsPerBlock p)) as [-> Hc'].
  { unfold counted. change (c_Finalize (ps_ctx (snd (pool_of s)))) with (c_Finalize (ctx_of Rest s)).
    destruct (c_Finalize (ctx_of Rest s)).
    - apply on_pool_ok in Hc as (w & (p & Hp & Hle & ->)%CountPrivateActions_ok & ->). split; [done|]. intros _. by exists p.
    - apply ret_ok in Hc as [= _ ->]. split; [by rewrite with_pool_id|done]. }
  set (s1 := with_pool _ s) in *.
  assert (p_Params (st (pool_of s1)) = p_Params (st (pool_of s))) as Ep.
  { unfold s1, counted. cbn [pool_of with_pool an_World set_an_World fst]. by destruct (c_Finalize _). }
  apply bind_ok in Hr as (minFee & s2 & Hmin & Hr).
  assert (reads GetMinFee) as Hrm by (unfold GetMinFee; solve_reads).
  apply on_pool_reads in Hmin as [Hmin ->]; [|exact Hrm]. unfold GetMinFee in Hmin.
  apply bind_ok in Hmin as (p & w1 & [Hp ->]%GetParams_ok & [[-> _]%NewCoin_spec _]%lift_ok). fold (st (pool_of s1)) in Hp. rewrite Ep in Hp.
  apply bind_ok in Hr as (u2 & s2 & [Hfee%Z.ltb_ge ->]%refuse_if_ok & Hr). cbn [Amount] in Hfee.
  apply bind_ok in Hr as (price & s2 & [_ ->]%gets_ok & Hr).
  assert (s' = s1) as ->.
  { destruct (_ && _ && _); [|by apply ret_ok in Hr as [= ->]]. do 3 (apply bind_ok in Hr as (? & ? & [_ ->]%lift_ok & Hr)).
    by apply refuse_if_ok in Hr as [_ ->]. }
  exists p. split; [exact Hp|]. split; [done|]. split; [destruct (Z.ltb_spec 0 (MinFee p)); lia|].
  intros Hf. destruct (Hc' Hf) as (p' & Hp' & Hle). rewrite Hp in Hp'. by injection Hp' as <-.
Qed.

(** The checks and the proofs: the binding signatures verify over the sighash of the tx's own fields. *)
Lemma check_and_verify_ok m s x s' :
  c_IsReCheckTx (ctx_of Rest s) = false → check_and_verify Rest actions m false s = Ok (x, s') →
  s' = s ∧ ∃ prepared, CheckPrivateMsg Rest actions m (pool_of s) = Ok (prepared, pool_of s) ∧
    VerifyPrivateMsg prepared (pool_of s) = Ok ((), pool_of s).
Proof.
  intros Hre Hr. unfold check_and_verify in Hr.
  apply bind_ok in Hr as (pp & s1 & [Hc ->]%(on_pool_reads _ _ _ _ (reads_CheckPrivateMsg _ _ m)) & Hr).
  apply bind_ok in Hr as (w & s1 & [-> ->]%gets_ok & Hr). apply bind_ok in Hr as (ap & s1 & [_ ->]%lift_ok & Hr).
  apply bind_ok in Hr as (re & s1 & [-> ->]%gets_ok & Hr). fold (ctx_of Rest s) in Hr. rewrite Hre in Hr. cbn [orb] in Hr.
  apply bind_ok in Hr as (u1 & s1 & Hv & [= -> ->]%ret_ok). apply bind_ok in Hv as (u2 & s2 & [_ ->]%lift_ok & Hv).
  apply on_pool_reads in Hv as [Hv ->]; [|apply reads_VerifyPrivateMsg]. destruct u1. split; [done|]. by exists pp.
Qed.

Lemma CheckPrivateMsg_sighash m w pp w' :
  CheckPrivateMsg Rest actions m w = Ok (pp, w') →
  ∃ f, c_TxFields (ps_ctx (snd w)) = Some f ∧ MsgSighash m (c_ChainID (ps_ctx (snd w))) f = Ok (pp_Sighash pp) ∧
    mapM ToOrchard (pm_Bundles m) = Ok (pp_Bundles pp).
Proof.
  intros Hr. unfold CheckPrivateMsg in Hr. apply bind_ok in Hr as (u1 & w1 & ->%reads_check_sizes & Hr).
  apply bind_ok in Hr as (u2 & w1 & ->%reads_check_anchors & Hr).
  assert (reads (for_each (pm_Bundles m) check_spends)) as Hsp by (apply reads_for_each, reads_check_spends).
  apply bind_ok in Hr as (u3 & w1 & ->%Hsp & Hr). apply bind_ok in Hr as (u4 & w1 & ->%reads_checkCapacity & Hr).
  apply bind_ok in Hr as (u5 & w1 & ->%reads_checkReleaseMap & Hr). apply bind_ok in Hr as (h & w1 & Hh & Hr).
  unfold SighashOf in Hh. apply bind_ok in Hh as (f & w2 & [-> ->]%get_ctx_ok & Hh).
  apply bind_ok in Hh as (cid & w2 & [-> ->]%get_ctx_ok & Hh). destruct (c_TxFields (ps_ctx (snd w))) as [f|]; [|by apply fail_ok in Hh].
  apply lift_ok in Hh as [Hh ->]. apply bind_ok in Hr as (bs & w2 & [Hbs ->]%lift_ok & [= -> _]%ret_ok). by exists f.
Qed.

Lemma VerifyPrivateMsg_ok pp w :
  VerifyPrivateMsg pp w = Ok ((), w) →
  (∀ b, b ∈ pp_Bundles pp → CheckBalance CurveR b (pp_Sighash pp) CanonicalBase = Ok ()) ∧
  ∃ p vk, p_Params (st w) = Some p ∧ VerifyingKeys p !! CircuitAction = Some vk ∧
    VerifyProofsSequential (pp_Bundles pp) (pp_Sighash pp) (verifyProof vk) = None.
Proof.
  intros Hr. unfold VerifyPrivateMsg in Hr. apply bind_ok in Hr as (p & w1 & [Hp ->]%GetParams_ok & Hr).
  destruct (VerifyingKeys p !! CircuitAction) as [[|k vk]|] eqn:Evk; [by apply fail_ok in Hr| |by apply fail_ok in Hr].
  apply bind_ok in Hr as ([] & w1 & Hb & [Hp'%bool_decide_eq_false _]%refuse_if_ok). split.
  - intros b Hin. pose proof (for_each_reads _ _ _ _ b (λ b, reads_lift _) Hb Hin) as [Hx%wrap_error_ok _]%lift_ok. exact Hx.
  - exists p, (k :: vk). split; [exact Hp|]. split; [done|]. by apply eq_None_not_Some.
Qed.

Lemma execute_private_ok m x s s' :
  execute_private Rest actions m x s = Ok ((), s') →
  an_GasConsumed Rest s' = an_GasConsumed Rest s ∧
  ∃ w, ExecutePrivateMsg m (pool_of s) = Ok ((), w) ∧ (PrivateAction Rest actions m = None → pool_of s' = w).
Proof.
  intros Hr. unfold execute_private in Hr. apply bind_ok in Hr as ([] & s1 & (w & Hx & ->)%on_pool_ok & Hr).
  apply bind_ok in Hr as (u1 & s1 & Ha & Hr).
  assert (an_GasConsumed Rest s1 = an_GasConsumed Rest s ∧ (PrivateAction Rest actions m = None → pool_of s1 = w)) as [Eg Ew].
  { case_bool_decide as Hd.
    - apply on_pool_ok in Ha as (w1 & _ & ->). split; [done|]. intros E. rewrite E in Hd. by destruct Hd.
    - apply ret_ok in Ha as [= _ ->]. by split. }
  unfold on_world in Hr. destruct (ExecutePrivateAction Rest actions m x (an_World Rest s1)) as [[u w2]| |] eqn:E; [|done..].
  injection Hr as _ <-. split; [exact Eg|]. exists w. split; [exact Hx|]. intros Hn. rewrite <-(Ew Hn). unfold ExecutePrivateAction in E.
  rewrite Hn in E. apply bind_ok in E as (u2 & w3 & [= _ ->]%ret_ok & E). apply bind_ok in E as (a & w3 & E & [_ ->]%refuse_if_ok).
  unfold pool, get_ctx, gets in E. injection E as _ <-. unfold pool_of. cbn. by destruct (an_World Rest s1).
Qed.

Lemma set_priority_ok amt gas s u s' :
  set_priority Rest amt gas s = Ok (u, s') → an_GasConsumed Rest s' = an_GasConsumed Rest s ∧ pool_of s' = pool_of s.
Proof.
  unfold set_priority. destruct (0 <? gas); intros Hr; [|by apply ret_ok in Hr as [= _ ->]].
  by apply bind_ok in Hr as (prio & s1 & [_ ->]%lift_ok & ->%modify_ok).
Qed.

(** ** An admitted tx *)

(** The pool as the checks and the execution of the tx find it: its fields in the context and its actions counted. *)
Definition bound_world m (body : TxBody) (fee : TxFee) (w : PoolWorld) : PoolWorld :=
  let f := mkTxFields (body_Memo body) (body_TimeoutHeight body) (fee_GasLimit fee) in
  counted m (fst w, mkPoolState (set_c_TxFields (Some f) (ps_ctx (snd w))) (st w)).

Record admitted m (body : TxBody) (fee : TxFee) s s' (p : ShieldedParams.Params) (pp : PreparedPrivateMsg) : Prop := {
  ad_params : p_Params (st (pool_of s)) = Some p;
  ad_sizes : ∀ b, b ∈ pm_Bundles m → Z.of_nat (length (bun_Actions b)) ≤ MaxActionsPerBundle p;
  ad_min_fee : Z.max 1 (MinFee p) ≤ TotalFee m;
  ad_gas_limit : fee_GasLimit fee ≤ PrivateGasCeiling (an_GasConsumed Rest s');
  ad_cap : c_Finalize (ctx_of Rest s) = true →
    wrap_u64 (default 0 (p_PrivateActionCount (st (pool_of s))) + ActionCount m) ≤ MaxPrivateActionsPerBlock p;
  ad_checked : ∃ w, w = bound_world m body fee (pool_of s) ∧ CheckPrivateMsg Rest actions m w = Ok (pp, w);
  ad_sighash : MsgSighash m (c_ChainID (ctx_of Rest s)) (mkTxFields (body_Memo body) (body_TimeoutHeight body) (fee_GasLimit fee)) =
    Ok (pp_Sighash pp);
  ad_bundles : mapM ToOrchard (pm_Bundles m) = Ok (pp_Bundles pp);
  ad_balance : ∀ b, b ∈ pp_Bundles pp → CheckBalance CurveR b (pp_Sighash pp) CanonicalBase = Ok ();
  ad_proofs : ∃ vk, VerifyingKeys p !! CircuitAction = Some vk ∧ VerifyProofsSequential (pp_Bundles pp) (pp_Sighash pp) (verifyProof vk) = None;
  ad_executed : ∃ w, ExecutePrivateMsg m (bound_world m body fee (pool_of s)) = Ok ((), w) ∧
    (PrivateAction Rest actions m = None → pool_of s' = w);
}.

Lemma counted_params m w : p_Params (st (counted m w)) = p_Params (st w).
Proof. unfold counted. by destruct (c_Finalize _). Qed.
Lemma counted_ctx m w : ps_ctx (snd (counted m w)) = ps_ctx (snd w).
Proof. unfold counted. by destruct (c_Finalize _). Qed.

Lemma PrivateMsgDecorator_ok tx m body ai fee s s' :
  tx_shape tx m body ai fee → c_IsReCheckTx (ctx_of Rest s) = false → PrivateMsgDecorator Rest actions tx false s = Ok ((), s') →
  ∃ p pp, admitted m body fee s s' p pp.
Proof.
  intros [Hparts Hm _ _ _ _ _] Hre Hr. unfold PrivateMsgDecorator in Hr.
  apply bind_ok in Hr as (m' & s1 & [Hm' ->]%lift_ok & Hr). rewrite (proj2 (private_msg_ok' tx m) Hm) in Hm'. injection Hm' as <-.
  apply bind_ok in Hr as (parts & s1 & [Hp' ->]%lift_ok & Hr). rewrite (proj2 (tx_parts_ok tx body ai fee) Hparts) in Hp'. injection Hp' as <-.
  apply bind_ok in Hr as (u1 & s1 & (w1 & ->%set_ctx_ok & ->)%on_pool_ok & Hr). set (s1 := with_pool _ s) in *.
  apply bind_ok in Hr as ([] & s2 & (p & used & Hp & -> & Hceil & Hsz & _)%charge_private_gas_ok & Hr).
  apply bind_ok in Hr as ([] & s2 & (p' & Hp' & -> & Hfee & Hcap)%check_fee_ok & Hr).
  change (pool_of (set_an_Gas Rest used s1)) with (pool_of s1) in *. rewrite Hp in Hp'. injection Hp' as <-.
  set (s2 := with_pool (counted m (pool_of s1)) (set_an_Gas Rest used s1)) in *. assert (pool_of s2 = bound_world m body fee (pool_of s)) as Ew by reflexivity.
  assert (ps_ctx (snd (pool_of s2)) = ps_ctx (snd (pool_of s1))) as Ectx by (rewrite Ew; apply counted_ctx).
  apply bind_ok in Hr as (x & s3 & Hc & Hr). apply check_and_verify_ok in Hc as [-> (pp & Hc & Hv)].
  2: { change (c_IsReCheckTx (ps_ctx (snd (pool_of s2))) = false). by rewrite Ectx. }
  apply bind_ok in Hr as ([] & s3 & (Eg & w & Hx & Hw)%execute_private_ok & [Eg' Ew']%set_priority_ok).
  destruct (CheckPrivateMsg_sighash _ _ _ _ Hc) as (f & Hf & Hsig & Hbs). rewrite Ectx in Hf, Hsig. injection Hf as <-.
  destruct (VerifyPrivateMsg_ok _ _ Hv) as [Hbal (p' & vk & Hp' & Hvk & Hproofs)]. rewrite Ew in Hp', Hc, Hx.
  assert (p' = p) as ->.
  { unfold bound_world in Hp'. rewrite counted_params in Hp'. change (p_Params (st (pool_of s)) = Some p') in Hp'.
    change (p_Params (st (pool_of s)) = Some p) in Hp. congruence. }
  exists p, pp. split; try done.
  - rewrite Eg', Eg. exact Hceil.
  - eexists. split; [reflexivity|exact Hc].
  - by exists vk.
  - exists w. split; [exact Hx|]. intros Hn. rewrite Ew'. by apply Hw.
Qed.

(** A decorator of the SDK's that leaves the pool's part of the state alone. *)
Definition keeps_pool (d : Tx → bool → A ()) : Prop := ∀ tx sim s u s', d tx sim s = Ok (u, s') → pool_of s' = pool_of s.
End tx.

(** ** Properties *)
Section tx_properties.
Context `{HostLaws, !PoolEnv} (Rest : Type) (actions : gmap string (PrivateActionHandler Rest)).
Implicit Types (s : AnteState Rest) (m : PrivateMsg) (tx : Tx).

(** C16: What the ante admits of private txs: a tx with a private msg that the app's ante accepts is that one msg and nothing else,
    without signatures or signer infos; it declares as its fee exactly the msg's, at least the minimum; its gas limit is within the
    ceiling over the gas it was charged, its bundles and the block's count of actions within their caps; the binding
    signatures and the proofs verify over the sighash of the msg and of the tx's own memo, timeout and gas limit; and the
    msg has been executed on the pool.  The SDK's decorators on the way need only leave the pool alone. *)
Theorem private_tx_admitted normal limits timeout size tx s s' :
  keeps_pool Rest limits → keeps_pool Rest timeout → keeps_pool Rest size → countPrivate tx ≠ 0%nat →
  c_IsReCheckTx (ctx_of Rest s) = false →
  NewRouter Rest normal (private_ante Rest actions limits timeout size) tx false s = Ok ((), s') →
  ∃ m body ai fee s1 p pp, tx_Msgs tx = [PrivateTxMsg m] ∧ tx_Signatures tx = [] ∧ ai_SignerInfos ai = [] ∧
    tx_shape tx m body ai fee ∧ fee_Amount fee = [mkCoin FeeDenom (TotalFee m)] ∧
    pool_of Rest s1 = pool_of Rest s ∧ admitted Rest actions m body fee s1 s' p pp.
Proof.
  intros Hlim Htim Hsize Hn Hre Hr. unfold NewRouter in Hr. rewrite (proj2 (Nat.eqb_neq _ _) Hn) in Hr.
  apply bind_ok in Hr as (u1 & s1 & [[_ Hone%negb_false_iff%Nat.eqb_eq]%orb_false_iff ->]%refuse_if_ok & Hr).
  apply bind_ok in Hr as (u2 & s1 & [Hsig ->]%refuse_if_ok & Hr). unfold private_ante, Recover in Hr.
  match type of Hr with (match ?x with _ => _ end) = _ => destruct x as [r| |] eqn:E; [injection Hr as ->|done..] end.
  apply bind_ok in E as (u3 & s1 & E1%Hlim & E). apply bind_ok in E as ([] & s2 & Hval & E).
  assert (ctx_of Rest s1 = ctx_of Rest s) as Ec by (change (ps_ctx (snd (pool_of Rest s1)) = ps_ctx (snd (pool_of Rest s))); by rewrite E1).
  apply ValidateTx_ok in Hval as [-> (m & body & ai & fee & Hsh)]; [|by rewrite Ec].
  apply bind_ok in E as (u4 & s2 & E2%Htim & E). apply bind_ok in E as (u5 & s3 & Hexp & E). assert (s3 = s2) as ->.
  { unfold ExpiredTimeout in Hexp. by apply bind_ok in Hexp as (c & s4 & [_ ->]%gets_ok & [_ ->]%refuse_if_ok). }
  apply bind_ok in E as (u6 & s3 & E3%Hsize & E). assert (pool_of Rest s3 = pool_of Rest s) as Ep by congruence.
  apply (PrivateMsgDecorator_ok _ _ tx m body ai fee) in E as (p & pp & Had); [|exact Hsh|].
  2: { change (c_IsReCheckTx (ps_ctx (snd (pool_of Rest s3))) = false). by rewrite Ep. }
  destruct (ts_parts _ _ _ _ _ Hsh) as (_ & Hai & _). rewrite Hai in Hsig.
  apply orb_false_iff in Hsig as [Hsigs%length_zero Hinfos%length_zero].
  exists m, body, ai, fee, s3, p, pp. destruct (ts_msg _ _ _ _ _ Hsh) as [rest Emsgs].
  split_and!; try done.
  - rewrite Emsgs in Hone |- *. by destruct rest.
  - apply (ts_fee _ _ _ _ _ Hsh). pose proof (ad_min_fee _ _ _ _ _ _ _ _ _ Had). lia.
Qed.
End tx_properties.
