(* ===== verification/ShieldedKeeper.v ===== *)
(** * x/shielded: the keeper other modules call

    The pool's keeper as an instance of the interface the dex is proved against ([ShieldedKeeper] of [ShieldedTypes.v]): its
    operations are those of [ShieldedNotes.v] and [ShieldedStore.v], and they keep the interface's promises. *)

From S2P Require Export ShieldedChain.

Section instance.
Context `{Host, !PoolEnv}.

(** What an operation that writes nothing answers. *)
Definition answer {A} (p : prog PoolWorld A) (w : PoolWorld) : outcome A := '(a, _) ← p w; mret a.

Definition pool_keeper : ShieldedKeeper := {|
  shielded_state := PoolState;
  ShieldedTypes.IsShieldedOnly := IsShieldedOnly wiring;
  ShieldedTypes.AssetID d := answer (ShieldedStore.AssetID d);
  ShieldedTypes.CheckMint pc ct := answer (ShieldedNotes.CheckMint pc ct);
  ShieldedTypes.MintNote := ShieldedNotes.MintNote;
  ShieldedTypes.MintNoteSplit := ShieldedNotes.MintNoteSplit;
  ShieldedTypes.RegisterAsset := ShieldedStore.RegisterAsset;
  ShieldedTypes.ReleaseToModule := ShieldedNotes.ReleaseToModule;
|}.
End instance.

Section instance_laws.
Context `{HostLaws, !PoolEnv}.

(** C19: The pool keeps what it promises its clients: the keeper the app wires satisfies the interface under which every
    theorem of the dex is proved.  A mint moves exactly the coin from the paying module into the pool's account, a release
    moves exactly the returned coin of the asked denom out of it, registering an asset moves nothing. *)
Theorem pool_keeper_laws : @ShieldedLaws _ pool_keeper.
Proof.
  split.
  - intros m c pc ct b s r b' s' Hr. by apply MintNote_moved in Hr as (_ & _ & ?).
  - intros m c pc ct b s r b' s' Hr. by apply MintNoteSplit_moved in Hr.
  - intros d b s r b' s' Hr. by apply bankless_RegisterAsset in Hr.
  - intros msg d m b s c b' s' Hr. pose proof Hr as Hr'. apply ReleaseToModule_moved in Hr as (_ & Hd & Hm).
    split; [done|]. split; [|done]. apply ReleaseToModule_release in Hr' as (w1 & Hrel & _).
    destruct (release_ok _ _ _ _ _ Hrel) as (a & v & _ & _ & _ & Hv & -> & _). exact Hv.
Qed.
End instance_laws.
