(* ===== verification/ShieldedDemo.v ===== *)
(** * A concrete pool

    The environment of the pool at the instances of [HostModel.v] and [ZkModel.v], and the states its properties' witnesses run
    on, reached by running the keeper's operations from an empty pool: a deposit, the end of a block that makes it an anchor,
    a private payment to a public address, and a private msg whose value a module collects. *)

From S2P Require Export ShieldedKeeper ShieldedExport ShieldedTx HostModel ZkModel.

Definition gov : bytes := codes "gov".

(** uanml may go to the pool and the dex only. *)
Definition demo_wiring : Wiring :=
  mkWiring gov {["uanml"]} {[module_account shielded_ModuleName; module_account "dex"]} ∅ {["lp/"]} {["dust/"]}.

#[export] Instance demo_pool_env : PoolEnv := {
  CurveR := demo_R;
  CanonicalBase a := Ok (demo_G a);
  proofVerifier _ _ _ := Ok true;
  wiring := demo_wiring;
  AnyValue := Z;
  IsSendEnabledCoins _ _ := Ok ();
  BlockedAddr a := bool_decide (a = module_account "mint");
  ModulePermissions := [("mint", module_account "mint"); ("dex", module_account "dex")];
}.

Definition prun {A} (p : prog PoolWorld A) (w : PoolWorld) : PoolWorld := match p w with Ok (_, w') => w' | _ => w end.
Definition panswer {A} (p : prog PoolWorld A) (w : PoolWorld) : option A := match p w with Ok (a, _) => Some a | _ => None end.

Lemma prun_ok {A} (p : prog PoolWorld A) w : is_ok (p w) = true → ∃ a, p w = Ok (a, prun p w).
Proof. unfold prun. destruct (p w) as [[a w']| |]; [|done..]. by exists a. Qed.
Lemma prun_unit (p : prog PoolWorld ()) w : is_ok (p w) = true → p w = Ok ((), prun p w).
Proof. intros Hr. by destruct (prun_ok p w Hr) as [[] ?]. Qed.

(** ** The empty pool *)
Definition demo_pool_params : ShieldedParams.Params :=
  NewParams {["action" := [1]]} DefaultMinFee DefaultProofVerificationGas DefaultNoteGas DefaultBundleGas
    DefaultRootWindowSeconds DefaultMaxPrivateActionsPerBlock DefaultMaxActionsPerBundle.

Definition demo_ctx (t h : Z) : Ctx := mkCtx t h "earth-1" false false true (Some (mkTxFields "" 0 10000000)) None.

Definition demo_store : PoolStore :=
  Build_PoolStore (Some demo_pool_params) ∅ None ∅ ∅ None ∅ ∅ ∅ ∅ ∅ None.

Definition pool_funds : book :=
  list_to_map [(codes "alice", list_to_map [("uerth", 10 ^ 12); ("uusdc", 10 ^ 12)]);
               (module_account "dex", list_to_map [("uusdc", 10 ^ 12)])].

Definition s0 : PoolWorld := (pool_funds, mkPoolState (demo_ctx 1700000000 1) demo_store).

Lemma pool_funds_ok : book_ok pool_funds = true.
Proof. vm_compute. reflexivity. Qed.

Lemma demo_pool_params_ok : Validate demo_pool_params = Ok ().
Proof. vm_compute. reflexivity. Qed.

Lemma empty_notes : notes_rep demo_store [].
Proof. exact empty_tree. Qed.

Lemma s0_pool_balance d : GetBalance (fst s0) PoolAddress d = 0.
Proof.
  change (GetBalance (fst s0) PoolAddress d) with (if book_ok pool_funds then held_by pool_funds (module_account "shielded") d else 0).
  rewrite pool_funds_ok. reflexivity.
Qed.

Lemma s0_good : pool_good s0.
Proof.
  split.
  - split.
    + intros d. rewrite s0_pool_balance. change (p_Turnstiles (st s0)) with (∅ : gmap string Turnstile).
      unfold turnstile_at. rewrite lookup_empty. done.
    + exists []. exact empty_notes.
    + split; [intros d id [=]|intros d id; split; intros [=]].
    + exists demo_pool_params. split; [reflexivity|exact demo_pool_params_ok].
  - exists []. split; [exact empty_notes|]. by intros r rec [=].
Qed.

(** ** At work *)
Definition zeros (n : Z) : bytes := repeat 0 (Z.to_nat n).
Definition demo_pc : bytes := FieldBytes 5.
Definition demo_ciphertext : bytes := zeros BlindCiphertextBytes.

(** Two assets are admitted, alice shields, the block ends. *)
Definition s1 : PoolWorld := prun (ShieldedStore.RegisterAsset "uerth") s0.
Definition s2 : PoolWorld := prun (ShieldedStore.RegisterAsset "uusdc") s1.
Definition s3 : PoolWorld := prun (Shield (codes "alice") (mkCoin "uerth" (10 ^ 9)) demo_pc demo_ciphertext) s2.
Definition s4 : PoolWorld := prun (Shield (codes "alice") (mkCoin "uusdc" (10 ^ 9)) demo_pc demo_ciphertext) s3.
Definition s5 : PoolWorld := prun EndBlocker s4.

Lemma s1_run : is_ok (ShieldedStore.RegisterAsset "uerth" s0) = true.
Proof. vm_compute. reflexivity. Qed.
Lemma s2_run : is_ok (ShieldedStore.RegisterAsset "uusdc" s1) = true.
Proof. vm_compute. reflexivity. Qed.
Lemma s3_run : is_ok (Shield (codes "alice") (mkCoin "uerth" (10 ^ 9)) demo_pc demo_ciphertext s2) = true.
Proof. vm_compute. reflexivity. Qed.
Lemma s4_run : is_ok (Shield (codes "alice") (mkCoin "uusdc" (10 ^ 9)) demo_pc demo_ciphertext s3) = true.
Proof. vm_compute. reflexivity. Qed.
Lemma s5_run : is_ok (EndBlocker s4) = true.
Proof. vm_compute. reflexivity. Qed.

(** A bundle of two actions against the latest anchor, releasing [bals]; [k] tells its notes apart. *)
Definition demo_anchor : bytes := default [] (p_LatestRoot (st s5)).
Definition demo_action (k : Z) : ShieldedTypes.Action :=
  {| act_Anchor := demo_anchor; act_Nullifier := FieldBytes (100 + k); act_Commitment := FieldBytes (200 + k);
     act_Cv := PointBytes (demo_G k); act_Ciphertext := [k]; act_Proof := [k] |}.
Definition demo_bundle (k : Z) (bals : list ShieldedTypes.Balance) : ShieldedTypes.Bundle :=
  {| bun_Actions := [demo_action k; demo_action (k + 1)]; bun_Balances := bals; bun_BindingSig := zeros 96 |}.

(** A payment of a million uerth to bob's public address, and a msg that releases uusdc to its handler. *)
Definition pay_msg : PrivateMsg := MsgSend_private
  {| sd_Bundle := demo_bundle 1 [{| bal_Denom := "uerth"; bal_Amount := 1001000 |}]; sd_Receiver := "bob"; sd_Fee := 1000 |}.
Definition action_msg : PrivateMsg :=
  {| pm_TypeURL := "/earth.dex.v1.MsgNoteSwap"; pm_Bytes := Ok [7; 7];
     pm_Bundles := [demo_bundle 3 [{| bal_Denom := "uerth"; bal_Amount := 1000 |}; {| bal_Denom := "uusdc"; bal_Amount := 500000 |}]];
     pm_Fee := 1000; pm_SighashFields := Ok [1]; pm_UnshieldReceiver := None |}.

Definition demo_handler : PrivateActionHandler () :=
  {| PrivateActionGas _ _ := Ok 1000; CheckPrivateAction _ _ := Ok None; VerifyPrivateAction _ _ _ := Ok ();
     ReleasedDenoms _ := Ok ["uusdc"]; Executor := None |}.
Definition demo_actions : gmap string (PrivateActionHandler ()) := {["/earth.dex.v1.MsgNoteSwap" := demo_handler]}.

Definition s6 : PoolWorld := prun (ExecutePrivateMsg pay_msg) s5.
Definition s7 : PoolWorld := prun (ExecutePrivateMsg action_msg) s6.
Definition s8 : PoolWorld := prun (ShieldedNotes.ReleaseToModule action_msg "uusdc" "dex") s7.

Lemma pay_check : is_ok (CheckPrivateMsg () demo_actions pay_msg s5) = true.
Proof. vm_compute. reflexivity. Qed.
Lemma s6_run : is_ok (ExecutePrivateMsg pay_msg s5) = true.
Proof. vm_compute. reflexivity. Qed.
Lemma action_check : is_ok (CheckPrivateMsg () demo_actions action_msg s6) = true.
Proof. vm_compute. reflexivity. Qed.
Lemma s7_run : is_ok (ExecutePrivateMsg action_msg s6) = true.
Proof. vm_compute. reflexivity. Qed.
Lemma s8_run : is_ok (ShieldedNotes.ReleaseToModule action_msg "uusdc" "dex" s7) = true.
Proof. vm_compute. reflexivity. Qed.

(** ** They are good *)
Lemma alice_not_pool : codes "alice" ≠ PoolAddress.
Proof. apply (bool_decide_unpack _). vm_compute. exact I. Qed.

Lemma demo_reachable (w w' : PoolWorld) : chain_step () demo_actions w w' → chain_reachable () demo_actions w w'.
Proof. apply rtc_once. Qed.

Lemma s4_reachable : chain_reachable () demo_actions s0 s4.
Proof.
  destruct (prun_ok _ _ s1_run) as [r1 E1]. destruct (prun_ok _ _ s2_run) as [r2 E2].
  destruct (prun_ok _ _ s3_run) as [r3 E3]. destruct (prun_ok _ _ s4_run) as [r4 E4].
  eapply rtc_l; [exact (cs_register _ _ _ _ _ _ E1)|]. eapply rtc_l; [exact (cs_register _ _ _ _ _ _ E2)|].
  eapply rtc_l; [exact (cs_shield _ _ _ _ _ _ _ _ _ alice_not_pool E3)|].
  eapply rtc_l; [exact (cs_shield _ _ _ _ _ _ _ _ _ alice_not_pool E4)|]. apply rtc_refl.
Qed.

Lemma s5_reachable : chain_reachable () demo_actions s0 s5.
Proof.
  eapply rtc_r; [exact s4_reachable|]. exact (cs_end_block _ _ _ _ (prun_unit _ _ s5_run)).
Qed.

Lemma pay_msg_wf : msg_wf pay_msg.
Proof.
  split.
  - split; [by vm_compute|]. intros b bal ->%list_elem_of_singleton ->%list_elem_of_singleton. by vm_compute.
  - intros b ->%list_elem_of_singleton. repeat (constructor; [apply FieldBytes_range|]). constructor.
Qed.
Lemma action_msg_wf : msg_wf action_msg.
Proof.
  split.
  - split; [by vm_compute|]. intros b bal ->%list_elem_of_singleton [->| ->%list_elem_of_singleton]%elem_of_cons; by vm_compute.
  - intros b ->%list_elem_of_singleton. repeat (constructor; [apply FieldBytes_range|]). constructor.
Qed.

Lemma check_step m w : is_ok (CheckPrivateMsg () demo_actions m w) = true → ∃ pp, CheckPrivateMsg () demo_actions m w = Ok (pp, w).
Proof.
  intros Hc. destruct (prun_ok _ _ Hc) as [pp E]. exists pp. rewrite E. f_equal. f_equal.
  by apply reads_CheckPrivateMsg in E.
Qed.

Lemma s6_step : chain_step () demo_actions s5 s6.
Proof.
  destruct (check_step _ _ pay_check) as [pp E]. exact (cs_private _ _ _ _ _ _ pay_msg_wf E (prun_unit _ _ s6_run)).
Qed.
Lemma s7_step : chain_step () demo_actions s6 s7.
Proof.
  destruct (check_step _ _ action_check) as [pp E]. exact (cs_private _ _ _ _ _ _ action_msg_wf E (prun_unit _ _ s7_run)).
Qed.

Lemma s5_good : pool_good s5.
Proof. exact (gr_good _ _ (reachable_grows _ _ _ _ s5_reachable) s0_good). Qed.
Lemma s7_reachable : chain_reachable () demo_actions s5 s7.
Proof. eapply rtc_l; [exact s6_step|]. apply rtc_once. exact s7_step. Qed.
Lemma s7_good : pool_good s7.
Proof. exact (gr_good _ _ (reachable_grows _ _ _ _ s7_reachable) s5_good). Qed.
