(* ===== verification/ShieldedWitnesses.v ===== *)
(** * Witnesses of the pool's properties, on the states of [ShieldedDemo.v] *)

From S2P Require Export ShieldedDemo.

(** ** Parameters and bundles *)
Lemma demo_params_typed : params_typed demo_pool_params.
Proof. vm_compute. repeat split; discriminate. Qed.

Lemma params_bound_gas_witness :
  Validate demo_pool_params = Ok () ∧
  PrivateMsgGas demo_pool_params [demo_bundle 1 []] = DefaultBundleGas + 2 * (DefaultProofVerificationGas + 2 * DefaultNoteGas).
Proof.
  destruct (params_bound_gas demo_pool_params demo_params_typed) as [Hv Hg]. split; [exact demo_pool_params_ok|].
  destruct (Hg (proj1 Hv demo_pool_params_ok) (demo_bundle 1 []) ltac:(by vm_compute)) as [-> _]. reflexivity.
Defined.

(** A bundle of full-size proofs and ciphertexts. *)
Definition full_action (k : Z) : ShieldedTypes.Action :=
  {| act_Anchor := FieldBytes 9; act_Nullifier := FieldBytes (100 + k); act_Commitment := FieldBytes (200 + k);
     act_Cv := PointBytes (demo_G k); act_Ciphertext := zeros NoteCiphertextBytes; act_Proof := zeros ProofBytes |}.
Definition full_bundle : ShieldedTypes.Bundle :=
  {| bun_Actions := [full_action 1; full_action 2]; bun_Balances := [{| bal_Denom := "uerth"; bal_Amount := 1000 |}];
     bun_BindingSig := zeros BindingSigSize |}.

Lemma full_bundle_typed : bundle_typed full_bundle.
Proof.
  split.
  - repeat (constructor; [split_and!; [apply FieldBytes_range..|apply Forall_app; split; apply FieldBytes_range]|]). constructor.
  - repeat constructor; by vm_compute.
Qed.
Lemma full_bundle_valid : BundleValidateBasic full_bundle = Ok ().
Proof. vm_compute. reflexivity. Qed.

Lemma validated_bundle_converts_witness :
  BundleValidateBasic full_bundle = Ok () ∧ ∃ o, ToOrchard full_bundle = Ok o ∧ Forall2 same_action (bun_Actions full_bundle) (Actions o).
Proof.
  split; [exact full_bundle_valid|].
  destruct (validated_bundle_converts full_bundle full_bundle_typed full_bundle_valid) as (o & E & Hs & _).
  exists o. split; [exact E|exact Hs].
Defined.

(** ** Private msgs *)
Lemma pay_msg_ok : msg_ok pay_msg.
Proof. destruct (check_step _ _ pay_check) as [pp E]. exact (private_msg_ok _ _ _ _ _ pay_msg_wf E). Qed.
Lemma action_msg_ok : msg_ok action_msg.
Proof. destruct (check_step _ _ action_check) as [pp E]. exact (private_msg_ok _ _ _ _ _ action_msg_wf E). Qed.

Lemma bob_paid : unshields_to pay_msg = Some (codes "bob") ∧ balances_of pay_msg "uerth" - fee_of pay_msg "uerth" = 1000000.
Proof. vm_compute. split; reflexivity. Qed.

Lemma private_msg_conserves_witness :
  ExecutePrivateMsg pay_msg s5 = Ok ((), s6) ∧
  GetBalance (fst s6) (codes "bob") "uerth" = GetBalance (fst s5) (codes "bob") "uerth" + 1000000 ∧
  GetBalance (fst s6) PoolAddress "uerth" = GetBalance (fst s5) PoolAddress "uerth" - 1001000.
Proof.
  pose proof (prun_unit _ _ s6_run) as E. split; [exact E|].
  destruct (private_msg_conserves pay_msg s5 () s6 (proj1 s5_good) pay_msg_ok E) as (_ & _ & Hb & _).
  destruct bob_paid as [Eu Ev]. pose proof (Hb (codes "bob") "uerth") as Hbob. pose proof (Hb PoolAddress "uerth") as Hpool.
  rewrite Eu, Ev in Hbob, Hpool.
  split.
  - etrans; [exact Hbob|]. generalize (GetBalance (fst s5) (codes "bob") "uerth"). intros z.
    transitivity (z + 0 + 1000000 - 0); [reflexivity|lia].
  - etrans; [exact Hpool|]. generalize (GetBalance (fst s5) PoolAddress "uerth"). intros z.
    transitivity (z + 0 + 0 - 1001000); [reflexivity|lia].
Defined.

Lemma release_pays_once_witness :
  ∃ c, ShieldedNotes.ReleaseToModule action_msg "uusdc" "dex" s7 = Ok (c, s8) ∧ 0 < Amount c ∧
    ∀ m t r, ShieldedNotes.ReleaseToModule m "uusdc" t s8 ≠ Ok r.
Proof.
  destruct (prun_ok _ _ s8_run) as [c E]. exists c. split; [exact E|].
  destruct (release_pays_once action_msg "uusdc" "dex" s7 c s8 (proj1 s7_good) E) as ((a & _ & _ & _ & Hp & _) & _ & _ & _ & _ & Hn).
  split; [exact Hp|exact Hn].
Defined.

(** ** Anchors *)
Lemma empty_index s : p_LatestRoot s = None → p_Roots s = ∅ → p_RootsByTime s = ∅ → index_ok s.
Proof.
  intros El Er Et. split.
  - intros r rec. rewrite Er, lookup_empty. intros [=].
  - intros t r. rewrite Er, Et, lookup_empty. split; [by intros ?%elem_of_empty|by intros (? & [=] & _)].
  - intros r. rewrite El. intros [=].
Qed.

Lemma s4_index : index_ok (st s4) ∧ p_LatestRoot (st s4) = None ∧ p_Roots (st s4) = ∅.
Proof.
  assert (p_LatestRoot (st s4) = None) as El by (vm_compute; reflexivity).
  assert (p_Roots (st s4) = ∅) as Er by (vm_compute; reflexivity).
  assert (p_RootsByTime (st s4) = ∅) as Et by (vm_compute; reflexivity).
  exact (conj (empty_index _ El Er Et) (conj El Er)).
Qed.

Lemma s4_time : time_ok (now_of s4).
Proof. unfold time_ok. replace (now_of s4) with 1700000000 by (vm_compute; reflexivity). lia. Qed.
Lemma s4_later : now_of s4 ≤ now_of s4 + 10 ^ 9.
Proof. generalize (now_of s4). intros z. lia. Qed.
Lemma s4_params : p_Params (st s4) = Some demo_pool_params.
Proof. vm_compute. reflexivity. Qed.

Lemma s4_good : pool_good s4.
Proof. exact (gr_good _ _ (reachable_grows _ _ _ _ s4_reachable) s0_good). Qed.

Lemma anchor_window_exact_witness :
  ∃ L, notes_rep (st s4) L ∧ EndBlocker s4 = Ok ((), s5) ∧
    ∀ r, accepts (now_of s4 + 10 ^ 9) r s5 ↔ r = FieldBytes (ref_root L) ∨ accepts (now_of s4 + 10 ^ 9) r s4.
Proof.
  destruct s4_good as [Hok (L & HL & _)]. pose proof (prun_unit _ _ s5_run) as E. exists L. split; [exact HL|]. split; [exact E|].
  destruct s4_index as (Hi & El & Er).
  assert (p_Roots (st s4) !! FieldBytes (ref_root L) = None) as Hn by (rewrite Er; apply lookup_empty).
  pose proof (anchor_window_exact s4 s5 L demo_pool_params Hok HL Hi s4_time s4_params demo_params_typed (or_intror Hn) E) as (_ & _ & Ha).
  intros r. pose proof (Ha (now_of s4 + 10 ^ 9) r s4_later) as Hr. rewrite El in Hr. exact Hr.
Defined.

Lemma anchors_are_past_roots_witness :
  is_ok (checkAnchor demo_anchor s7) = true ∧
  ∃ L n, 0 ≤ n ≤ Z.of_nat (length L) ∧ demo_anchor = FieldBytes (ref_root (take (Z.to_nat n) L)).
Proof.
  assert (is_ok (checkAnchor demo_anchor s7) = true) as Hc by (vm_compute; reflexivity). split; [exact Hc|].
  pose proof (prun_unit _ _ Hc) as E. pose proof s5_good as Hg. destruct (proj2 s5_good) as (L & HL & _).
  destruct (anchors_are_past_roots () demo_actions s5 s7 L demo_anchor _ Hg HL s7_reachable E) as (L' & n & _ & Hn & Hr).
  exists (L ++ L'), n. split; [exact Hn|exact Hr].
Defined.

(** ** The chain *)
Lemma pool_backed_and_never_halts_witness :
  pool_good s5 ∧ AssertInvariants s7 = Ok ((), s7) ∧ ∃ w, EndBlocker s7 = Ok ((), w).
Proof.
  split; [exact s5_good|]. destruct (pool_backed_and_never_halts () demo_actions s5 s7 s5_good s7_reachable) as (_ & Ha & He).
  split; [exact Ha|exact He].
Defined.

Lemma nullifier_spent_once_witness :
  ExecutePrivateMsg pay_msg s5 = Ok ((), s6) ∧ ∀ r, ExecutePrivateMsg pay_msg s7 ≠ Ok r.
Proof.
  pose proof (prun_unit _ _ s6_run) as E. split; [exact E|].
  destruct (nullifier_spent_once () demo_actions s5 s5 s6 s7 pay_msg pay_msg (FieldBytes 101) s5_good (rtc_refl _ _) pay_msg_ok E
    (rtc_once _ _ s7_step) ltac:(left) ltac:(left) pay_msg_ok) as (_ & _ & _ & Hx).
  exact Hx.
Defined.

Lemma pool_keeper_laws_witness :
  ∃ c, ShieldedTypes.ReleaseToModule (ShieldedKeeper := pool_keeper) action_msg "uusdc" "dex" s7 = Ok (c, s8) ∧
    Denom c = "uusdc" ∧ 0 < Amount c.
Proof.
  destruct (prun_ok _ _ s8_run) as [c E]. exists c. split; [exact E|].
  destruct (@ReleaseToModule_spec _ _ pool_keeper_laws action_msg "uusdc" "dex" (fst s7) (snd s7) c (fst s8) (snd s8)) as (Hd & Hp & _);
    [|by split]. rewrite <-!surjective_pairing. exact E.
Defined.

(** ** Genesis *)

(** A genesis with a note, a spent nullifier, a settled turnstile and the empty tree's root on record. *)
Definition demo_genesis : ShieldedGenesis :=
  mkShieldedGenesis demo_pool_params DefaultAssets [FieldBytes 7] [FieldBytes 9]
    [mkRootRecord (FieldBytes (Zero Depth)) 1 1600000000 0 0] [mkTurnstile "uerth" 5 5].
Definition sg0 : PoolWorld := (pool_funds, mkPoolState (demo_ctx 1700000000 1) empty_store).
Definition sg1 : PoolWorld := prun (ShieldedModuleInitGenesis demo_genesis) sg0.

Lemma sg1_run : is_ok (ShieldedModuleInitGenesis demo_genesis sg0) = true.
Proof. vm_compute. reflexivity. Qed.

Lemma genesis_gives_good_pool_witness :
  ShieldedModuleInitGenesis demo_genesis sg0 = Ok ((), sg1) ∧ pool_good sg1 ∧ fst sg1 = fst sg0.
Proof.
  pose proof (prun_unit _ _ sg1_run) as E. split; [exact E|].
  destruct (genesis_gives_good_pool demo_genesis sg0 sg1) as (Hg & Hb & _); [|reflexivity|exact E|].
  - split; [constructor; [apply FieldBytes_range|constructor]|]. constructor; [by vm_compute|constructor].
  - split; [exact Hg|exact Hb].
Defined.

Lemma s4_exportable : exportable (st s4).
Proof.
  assert (bool_decide (is_Some (p_Assets (st s4) !! FeeDenom)) = true) as Hf by (vm_compute; reflexivity).
  assert (bool_decide (map_Forall (λ d _, is_Some (p_Assets (st s4) !! d)) (p_Turnstiles (st s4))) = true) as Ht
    by (vm_compute; reflexivity).
  assert (p_Nullifiers (st s4) = ∅) as En by (vm_compute; reflexivity).
  revert Hf Ht En. generalize (st s4). intros s Hf%bool_decide_eq_true Ht%bool_decide_eq_true En. split.
  - exact Hf.
  - intros d [t Hd]. exact (Ht d t Hd).
  - intros nf. rewrite En. by intros ?%elem_of_empty.
Qed.

Lemma s4_history : history_ok (now_of s4) (st s4).
Proof.
  destruct s4_index as (Hi & _ & Er). split; [exact Hi|]. revert Er. generalize (st s4). intros s Er r rec. rewrite Er. by intros [=].
Qed.

(** The pool of [s5] on a chain started a day later. *)
Definition sg2 : PoolWorld := (fst s5, mkPoolState (demo_ctx (now_of s4 + 86400) 1) empty_store).

Lemma pool_export_imports_witness :
  ∃ gs L n, ShieldedExportGenesis s5 = Ok (gs, s5) ∧
    ShieldedModuleInitGenesis gs sg2 = Ok ((), with_store (λ _, rebuilt n L (st s5)) sg2).
Proof.
  destruct s4_good as [Hok (L & HL & Ha)]. destruct s4_index as (Hi & El & Er).
  assert (p_Roots (st s4) !! FieldBytes (ref_root L) = None) as Hn by (rewrite Er; apply lookup_empty).
  assert (now_of s4 ≤ now_of sg2) as Hlater.
  { change (now_of sg2) with (now_of s4 + 86400). generalize (now_of s4). intros z. lia. }
  destruct (pool_export_imports s4 s5 sg2 L (now_of s4) s4_good HL s4_history s4_exportable (Z.le_refl _) s4_time (or_intror Hn)
    (prun_unit _ _ s5_run) eq_refl eq_refl Hlater) as (gs & n & Hx & Hm & _).
  exists gs, L, n. split; [exact Hx|exact Hm].
Defined.

(** ** A private tx through the ante *)

(** A payment inside the pool: its bundle releases the fee only, against the latest anchor of [s5]. *)
Definition tx_action (k : Z) : ShieldedTypes.Action :=
  {| act_Anchor := demo_anchor; act_Nullifier := FieldBytes (100 + k); act_Commitment := FieldBytes (200 + k);
     act_Cv := PointBytes (demo_G k); act_Ciphertext := zeros NoteCiphertextBytes; act_Proof := zeros ProofBytes |}.
Definition tx_bundle (sig : bytes) : ShieldedTypes.Bundle :=
  {| bun_Actions := [tx_action 1; tx_action 2]; bun_Balances := [{| bal_Denom := "uerth"; bal_Amount := 100000 |}]; bun_BindingSig := sig |}.
Definition tx_msg (sig : bytes) : PrivateMsg :=
  {| pm_TypeURL := TypeMsgSend; pm_Bytes := Ok (9 :: sig); pm_Bundles := [tx_bundle sig]; pm_Fee := 100000;
     pm_SighashFields := Ok [1]; pm_UnshieldReceiver := None |}.

(** Its binding signature: the demo group's logarithms are known. *)
Definition tx_fields : TxFields := mkTxFields "" 0 3000000.
Definition tx_sighash : Z := match MsgSighash (tx_msg (zeros BindingSigSize)) "earth-1" tx_fields with Ok h => h | _ => 0 end.
Definition tx_key : Z :=
  match ToOrchard (tx_bundle (zeros BindingSigSize)) with
  | Ok b => match BindingKey (λ a, Ok (demo_G a)) b with Ok p => grp_val p | _ => 0 end
  | _ => 0
  end.
Definition tx_sig : bytes := match SignBinding demo_R (λ b, b) tx_key tx_sighash (be_bytes 32 3) with Ok s => s | _ => [] end.

Definition demo_body : TxBody := Build_TxBody "" 0 false None [] [].
Definition demo_fee : TxFee := Build_TxFee [mkCoin "uerth" 100000] 3000000 "" "".
Definition demo_auth : AuthInfo := Build_AuthInfo [] (Some demo_fee) None.
Definition demo_tx : Tx := Build_Tx [PrivateTxMsg (tx_msg tx_sig)] (Some demo_body) (Some demo_auth) [].
Definition demo_raw : bytes := match canonical_encoding demo_tx demo_body demo_auth with Ok b => b | _ => [] end.
Definition demo_ante : AnteState () := mkAnteState () (s5, ()) demo_raw 0 10000000 0 0.

(** The SDK's decorators: one that looks on, one that charges for the size. *)
Definition demo_pass (tx : Tx) (sim : bool) : prog (AnteState ()) () := mret ().
Definition demo_size (tx : Tx) (sim : bool) : prog (AnteState ()) () := ConsumeGas () 5000.
Definition demo_router : prog (AnteState ()) () :=
  NewRouter () demo_pass (private_ante () demo_actions demo_pass demo_pass demo_size) demo_tx false.

Lemma demo_pass_keeps : keeps_pool () demo_pass.
Proof. intros tx sim s u s' [= _ ->]%ret_ok. reflexivity. Qed.
Lemma demo_size_keeps : keeps_pool () demo_size.
Proof. intros tx sim s u s' [-> _]%ConsumeGas_ok. reflexivity. Qed.

Lemma demo_router_run : is_ok (demo_router demo_ante) = true.
Proof. vm_compute. reflexivity. Qed.

Lemma private_tx_admitted_witness :
  ∃ s' m, demo_router demo_ante = Ok ((), s') ∧ tx_Msgs demo_tx = [PrivateTxMsg m] ∧
    ∃ w, ExecutePrivateMsg m (bound_world m demo_body demo_fee s5) = Ok ((), w) ∧ pool_of () s' = w.
Proof.
  destruct (demo_router demo_ante) as [[[] s']| |] eqn:E; [|pose proof demo_router_run as X; rewrite E in X; done..].
  destruct (private_tx_admitted () demo_actions demo_pass demo_pass demo_pass demo_size demo_tx demo_ante s'
    demo_pass_keeps demo_pass_keeps demo_size_keeps ltac:(done) eq_refl E)
    as (m & body & ai & fee & s1 & p & pp & Em & _ & _ & Hsh & _ & Es1 & Had).
  exists s', m. split; [reflexivity|]. split; [exact Em|].
  destruct (ts_parts _ _ _ _ _ Hsh) as ([= <-] & [= <-] & [= <-]).
  destruct (ad_executed _ _ _ _ _ _ _ _ _ Had) as (w & Hx & Hw). exists w. rewrite Es1 in Hx. split; [exact Hx|].
  apply Hw. injection Em as <-. reflexivity.
Defined.
