(* ===== verification/EarthTypes.v ===== *)
(** * x/earth: types

    The constants of [x/earth/types/keys.go] and the module's store ([Keeper.LastMintTime],
    [Keeper.Burned]). *)

From S2P Require Export Sdk.

Definition earth_ModuleName : string := "earth".
Definition EmissionPerSecondPerPillar : Z := 1000000.

Definition SourceGasFees : string := "gas_fees".
Definition SourceSwapFee : string := "swap_fee".
Definition SourcePolRetire : string := "pol_retire".
Definition SourceDexResidue : string := "dex_residue".

Record EarthStore := {
  e_LastMintTime : option Z;
  e_Burned : gmap (string * string) Z;
}.

Definition set_e_LastMintTime (f : option Z → option Z) (s : EarthStore) : EarthStore :=
  {| e_LastMintTime := f (e_LastMintTime s); e_Burned := e_Burned s |}.
Definition set_e_Burned (f : gmap (string * string) Z → gmap (string * string) Z)
    (s : EarthStore) : EarthStore :=
  {| e_LastMintTime := e_LastMintTime s; e_Burned := f (e_Burned s) |}.
