(* ===== verification/DexTypes.v ===== *)
(** * x/dex: types

    The records of [proto/earth/dex/v1], the errors of [x/dex/types/errors.go], the constants and
    helpers of [keys.go] and [params.go], and the module's store, one field per
    collection of [x/dex/keeper/keeper.go]'s [Keeper].  A [collections.Item] is an
    [option] ([None]: not found), a [Map] a finite map, a [KeySet] a finite set; [PoolSeq] is
    the next id its [Sequence] hands out.  [uint64] and [int64] keys are [Z]. *)

From S2P Require Export ShieldedTypes EarthTypes.

Definition ModuleName : string := "dex".

(** ** Errors: errors.go *)
Definition dex_error (code : Z) : error := Sentinel ModuleName code.
Definition ErrInvalidSigner := dex_error 1100.
Definition ErrInvalidAmount := dex_error 1101.
Definition ErrSameDenom := dex_error 1102.
Definition ErrPoolNotFound := dex_error 1103.
Definition ErrInvalidDenom := dex_error 1104.
Definition ErrInsufficientPool := dex_error 1105.
Definition ErrSlippage := dex_error 1106.
Definition ErrZeroShares := dex_error 1107.
Definition ErrPoolExists := dex_error 1108.
Definition ErrAuctionUnavailable := dex_error 1109.
Definition ErrAuctionState := dex_error 1110.
Definition ErrAuctionDuration := dex_error 1111.
Definition ErrNoBid := dex_error 1112.
Definition ErrAlreadyClaimed := dex_error 1113.
Definition ErrInvariantBroken := dex_error 1114.
Definition ErrPoolCreationLocked := dex_error 1115.
Definition ErrLpShareDenom := dex_error 1116.
Definition ErrInvalidUnbonding := dex_error 1117.
Definition ErrShieldedOnly := dex_error 1118.
Definition ErrInvalidPrivateMsg := dex_error 1119.
Definition ErrPoolCap := dex_error 1120.

(** [collections.ErrNotFound] *)
Definition ErrNotFound : error := Sentinel "collections" 1.

(** ** Constants: keys.go *)
Definition SolvencyRotationPerBlock : Z := 8.
Definition VolumeWindowDays : Z := 7.
Definition VolumeDecayWindowDays : Z := 14.
Definition VolumeIndexMaxCatchUpDays : Z := 90.
Definition VolumeIndexRebaseAt : Z := 1000000.
Definition VolumeIndexRebaseFactor : Z := 1000000.
Definition PoolStaleSeconds : Z := 60 * 24 * 60 * 60.
Definition PoolStaleSweepLimit : Z := 50.
Definition DefaultLpUnbondingSeconds : Z := 7 * 24 * 60 * 60.
Definition PolBurnSeconds : Z := 5 * 36525 * 864.
Definition LpUnbondSweepLimit : Z := 50.
Definition LpUnbondNoteBudget : Z := 256.
Definition LpUnbondRetryBaseSeconds : Z := 3600.
Definition LpUnbondRetryMaxShift : Z := 8.

(** [attempts] is a [uint32]. *)
Definition LpUnbondRetryDelay (attempts : Z) : Z :=
  let shift := if 1 <? attempts then attempts - 1 else 0 in
  let shift := if LpUnbondRetryMaxShift <? shift then LpUnbondRetryMaxShift else shift in
  Z.shiftl LpUnbondRetryBaseSeconds shift.

(** [fmt.Sprintf("dexlp/%d", poolID)] *)
Definition LPShareDenomPrefix : string := "dexlp/".
Definition LPShareDenom (poolID : Z) : string := LPShareDenomPrefix +:+ pretty (Z.to_N poolID).
Definition IsLPShareDenom (denom : string) : bool := String.prefix LPShareDenomPrefix denom.

Definition MaxPoolAmount : Z := Z.shiftl 1 120.
Definition WithinPoolCap (a : Z) : bool := negb (MaxPoolAmount <? a).

(** ** Parameters: params.go *)
Record Params := {
  SwapFee : Z;                (* a LegacyDec, in percent *)
  LpUnbondingSeconds : Z;
  VolumeDepthCapPerDay : Z;
}.

Definition MaxSwapFee `{SdkMath} : Z := NewDecFromInt 10.
Definition MaxLpUnbondingSeconds : Z := 90 * 24 * 60 * 60.
Definition DefaultVolumeDepthCapPerDay : Z := 2.
Definition MaxVolumeDepthCapPerDay : Z := 1000.

Definition VolumeDepthCapPerDayOrDefault (p : Params) : Z :=
  if VolumeDepthCapPerDay p =? 0 then DefaultVolumeDepthCapPerDay else VolumeDepthCapPerDay p.

(** [Params.Validate] *)
Definition ParamsValidate `{SdkMath} (p : Params) : outcome () :=
  _ ← refuse (SwapFee p <? 0) (Plain "swap fee must not be negative");
  _ ← refuse (MaxSwapFee <? SwapFee p) (Plain "swap fee exceeds maximum");
  _ ← refuse (MaxLpUnbondingSeconds <? LpUnbondingSeconds p) (Plain "lp unbonding exceeds maximum");
  _ ← refuse (MaxVolumeDepthCapPerDay <? VolumeDepthCapPerDay p)
        (Plain "volume_depth_cap_per_day exceeds maximum");
  mret ().

(** ** Records: pool.proto, auction.proto, unbonding.proto *)
Record Pool := {
  pl_PoolId : Z;
  pl_ReserveErth : Coin;
  pl_ReserveToken : Coin;
  pl_VolumeWeight : Z;
  pl_LastTradedDay : Z;
}.

Record PolBurn := {
  pb_PoolId : Z;
  pb_TotalShares : Z;
  pb_SharesRemaining : Z;
  pb_StartTime : Z;
  pb_DurationSeconds : Z;
  pb_BurnToken : bool;
}.

Inductive AuctionStatus :=
| AUCTION_STATUS_UNSPECIFIED
| AUCTION_STATUS_PENDING
| AUCTION_STATUS_OPEN
| AUCTION_STATUS_SETTLED.
#[export] Instance AuctionStatus_eq_dec : EqDecision AuctionStatus.
Proof. solve_decision. Defined.

Record LiquidityAuction := {
  la_Status : AuctionStatus;
  la_BidDenom : string;
  la_EndTime : Z;
  la_ErthForBidders : Coin;
  la_ErthForPool : Coin;
  la_TotalRaised : Z;
  la_PoolId : Z;
  la_Claimed : Z;
}.

Record AuctionBid := {
  ab_Bidder : string;
  ab_Amount : Z;
  ab_Claimed : bool;
}.

Record LpUnbonding := {
  ub_Address : string;
  ub_PoolId : Z;
  ub_Shares : Coin;
  ub_CompletionTime : Z;
  ub_Pc : bytes;
  ub_Ciphertext : bytes;
  ub_ErthPc : bytes;
  ub_ErthCiphertext : bytes;
  ub_WithdrawalId : bytes;
  ub_PayoutAttempts : Z;
}.

(** (completion_time, pool_id, address or withdrawal id) *)
Abbreviation UnbondKey := (Z * Z * bytes)%type.

(** ** The store: keeper.go *)
Record DexStore := {
  k_Params : option Params;
  k_Pool : gmap Z Pool;
  k_PoolSeq : Z;
  k_PoolByToken : gmap string Z;
  k_LpRewardIndex : option Z;
  k_LpTotalVolume : option Z;
  k_PoolLpIndex : gmap Z Z;
  k_PendingLpRewards : option Z;
  k_VolumeIndex : option Z;
  k_VolumeIndexDay : option Z;
  k_PoolStaleQueue : gset (Z * Z);
  k_PoolStaleDue : gmap Z Z;
  k_LpUnbondings : gmap UnbondKey LpUnbonding;
  k_LpUnbondingsByAddr : gset (bytes * Z * Z);
  k_LiquidityAuction : option LiquidityAuction;
  k_AuctionBids : gmap bytes AuctionBid;
  k_PolBurns : gmap Z PolBurn;
  k_TotalPoolErth : option Z;
  k_DirtyPools : gset Z;
  k_SolvencyCursor : option Z;
  k_PriceCumulative : gmap Z Z;
  k_PriceObservedAt : gmap Z Z;
}.

(** The store with one collection changed. *)
Definition set_k_Params (f : option Params → option Params) (s : DexStore) : DexStore :=
  {| k_Params := f (k_Params s); k_Pool := k_Pool s; k_PoolSeq := k_PoolSeq s;
     k_PoolByToken := k_PoolByToken s; k_LpRewardIndex := k_LpRewardIndex s;
     k_LpTotalVolume := k_LpTotalVolume s; k_PoolLpIndex := k_PoolLpIndex s;
     k_PendingLpRewards := k_PendingLpRewards s; k_VolumeIndex := k_VolumeIndex s;
     k_VolumeIndexDay := k_VolumeIndexDay s; k_PoolStaleQueue := k_PoolStaleQueue s;
     k_PoolStaleDue := k_PoolStaleDue s; k_LpUnbondings := k_LpUnbondings s;
     k_LpUnbondingsByAddr := k_LpUnbondingsByAddr s;
     k_LiquidityAuction := k_LiquidityAuction s; k_AuctionBids := k_AuctionBids s;
     k_PolBurns := k_PolBurns s; k_TotalPoolErth := k_TotalPoolErth s;
     k_DirtyPools := k_DirtyPools s; k_SolvencyCursor := k_SolvencyCursor s;
     k_PriceCumulative := k_PriceCumulative s; k_PriceObservedAt := k_PriceObservedAt s |}.
Definition set_k_Pool (f : gmap Z Pool → gmap Z Pool) (s : DexStore) : DexStore :=
  {| k_Params := k_Params s; k_Pool := f (k_Pool s); k_PoolSeq := k_PoolSeq s;
     k_PoolByToken := k_PoolByToken s; k_LpRewardIndex := k_LpRewardIndex s;
     k_LpTotalVolume := k_LpTotalVolume s; k_PoolLpIndex := k_PoolLpIndex s;
     k_PendingLpRewards := k_PendingLpRewards s; k_VolumeIndex := k_VolumeIndex s;
     k_VolumeIndexDay := k_VolumeIndexDay s; k_PoolStaleQueue := k_PoolStaleQueue s;
     k_PoolStaleDue := k_PoolStaleDue s; k_LpUnbondings := k_LpUnbondings s;
     k_LpUnbondingsByAddr := k_LpUnbondingsByAddr s;
     k_LiquidityAuction := k_LiquidityAuction s; k_AuctionBids := k_AuctionBids s;
     k_PolBurns := k_PolBurns s; k_TotalPoolErth := k_TotalPoolErth s;
     k_DirtyPools := k_DirtyPools s; k_SolvencyCursor := k_SolvencyCursor s;
     k_PriceCumulative := k_PriceCumulative s; k_PriceObservedAt := k_PriceObservedAt s |}.
Definition set_k_PoolSeq (f : Z → Z) (s : DexStore) : DexStore :=
  {| k_Params := k_Params s; k_Pool := k_Pool s; k_PoolSeq := f (k_PoolSeq s);
     k_PoolByToken := k_PoolByToken s; k_LpRewardIndex := k_LpRewardIndex s;
     k_LpTotalVolume := k_LpTotalVolume s; k_PoolLpIndex := k_PoolLpIndex s;
     k_PendingLpRewards := k_PendingLpRewards s; k_VolumeIndex := k_VolumeIndex s;
     k_VolumeIndexDay := k_VolumeIndexDay s; k_PoolStaleQueue := k_PoolStaleQueue s;
     k_PoolStaleDue := k_PoolStaleDue s; k_LpUnbondings := k_LpUnbondings s;
     k_LpUnbondingsByAddr := k_LpUnbondingsByAddr s;
     k_LiquidityAuction := k_LiquidityAuction s; k_AuctionBids := k_AuctionBids s;
     k_PolBurns := k_PolBurns s; k_TotalPoolErth := k_TotalPoolErth s;
     k_DirtyPools := k_DirtyPools s; k_SolvencyCursor := k_SolvencyCursor s;
     k_PriceCumulative := k_PriceCumulative s; k_PriceObservedAt := k_PriceObservedAt s |}.
Definition set_k_PoolByToken (f : gmap string Z → gmap string Z) (s : DexStore) : DexStore :=
  {| k_Params := k_Params s; k_Pool := k_Pool s; k_PoolSeq := k_PoolSeq s;
     k_PoolByToken := f (k_PoolByToken s); k_LpRewardIndex := k_LpRewardIndex s;
     k_LpTotalVolume := k_LpTotalVolume s; k_PoolLpIndex := k_PoolLpIndex s;
     k_PendingLpRewards := k_PendingLpRewards s; k_VolumeIndex := k_VolumeIndex s;
     k_VolumeIndexDay := k_VolumeIndexDay s; k_PoolStaleQueue := k_PoolStaleQueue s;
     k_PoolStaleDue := k_PoolStaleDue s; k_LpUnbondings := k_LpUnbondings s;
     k_LpUnbondingsByAddr := k_LpUnbondingsByAddr s;
     k_LiquidityAuction := k_LiquidityAuction s; k_AuctionBids := k_AuctionBids s;
     k_PolBurns := k_PolBurns s; k_TotalPoolErth := k_TotalPoolErth s;
     k_DirtyPools := k_DirtyPools s; k_SolvencyCursor := k_SolvencyCursor s;
     k_PriceCumulative := k_PriceCumulative s; k_PriceObservedAt := k_PriceObservedAt s |}.
Definition set_k_LpRewardIndex (f : option Z → option Z) (s : DexStore) : DexStore :=
  {| k_Params := k_Params s; k_Pool := k_Pool s; k_PoolSeq := k_PoolSeq s;
     k_PoolByToken := k_PoolByToken s; k_LpRewardIndex := f (k_LpRewardIndex s);
     k_LpTotalVolume := k_LpTotalVolume s; k_PoolLpIndex := k_PoolLpIndex s;
     k_PendingLpRewards := k_PendingLpRewards s; k_VolumeIndex := k_VolumeIndex s;
     k_VolumeIndexDay := k_VolumeIndexDay s; k_PoolStaleQueue := k_PoolStaleQueue s;
     k_PoolStaleDue := k_PoolStaleDue s; k_LpUnbondings := k_LpUnbondings s;
     k_LpUnbondingsByAddr := k_LpUnbondingsByAddr s;
     k_LiquidityAuction := k_LiquidityAuction s; k_AuctionBids := k_AuctionBids s;
     k_PolBurns := k_PolBurns s; k_TotalPoolErth := k_TotalPoolErth s;
     k_DirtyPools := k_DirtyPools s; k_SolvencyCursor := k_SolvencyCursor s;
     k_PriceCumulative := k_PriceCumulative s; k_PriceObservedAt := k_PriceObservedAt s |}.
Definition set_k_LpTotalVolume (f : option Z → option Z) (s : DexStore) : DexStore :=
  {| k_Params := k_Params s; k_Pool := k_Pool s; k_PoolSeq := k_PoolSeq s;
     k_PoolByToken := k_PoolByToken s; k_LpRewardIndex := k_LpRewardIndex s;
     k_LpTotalVolume := f (k_LpTotalVolume s); k_PoolLpIndex := k_PoolLpIndex s;
     k_PendingLpRewards := k_PendingLpRewards s; k_VolumeIndex := k_VolumeIndex s;
     k_VolumeIndexDay := k_VolumeIndexDay s; k_PoolStaleQueue := k_PoolStaleQueue s;
     k_PoolStaleDue := k_PoolStaleDue s; k_LpUnbondings := k_LpUnbondings s;
     k_LpUnbondingsByAddr := k_LpUnbondingsByAddr s;
     k_LiquidityAuction := k_LiquidityAuction s; k_AuctionBids := k_AuctionBids s;
     k_PolBurns := k_PolBurns s; k_TotalPoolErth := k_TotalPoolErth s;
     k_DirtyPools := k_DirtyPools s; k_SolvencyCursor := k_SolvencyCursor s;
     k_PriceCumulative := k_PriceCumulative s; k_PriceObservedAt := k_PriceObservedAt s |}.
Definition set_k_PoolLpIndex (f : gmap Z Z → gmap Z Z) (s : DexStore) : DexStore :=
  {| k_Params := k_Params s; k_Pool := k_Pool s; k_PoolSeq := k_PoolSeq s;
     k_PoolByToken := k_PoolByToken s; k_LpRewardIndex := k_LpRewardIndex s;
     k_LpTotalVolume := k_LpTotalVolume s; k_PoolLpIndex := f (k_PoolLpIndex s);
     k_PendingLpRewards := k_PendingLpRewards s; k_VolumeIndex := k_VolumeIndex s;
     k_VolumeIndexDay := k_VolumeIndexDay s; k_PoolStaleQueue := k_PoolStaleQueue s;
     k_PoolStaleDue := k_PoolStaleDue s; k_LpUnbondings := k_LpUnbondings s;
     k_LpUnbondingsByAddr := k_LpUnbondingsByAddr s;
     k_LiquidityAuction := k_LiquidityAuction s; k_AuctionBids := k_AuctionBids s;
     k_PolBurns := k_PolBurns s; k_TotalPoolErth := k_TotalPoolErth s;
     k_DirtyPools := k_DirtyPools s; k_SolvencyCursor := k_SolvencyCursor s;
     k_PriceCumulative := k_PriceCumulative s; k_PriceObservedAt := k_PriceObservedAt s |}.
Definition set_k_PendingLpRewards (f : option Z → option Z) (s : DexStore) : DexStore :=
  {| k_Params := k_Params s; k_Pool := k_Pool s; k_PoolSeq := k_PoolSeq s;
     k_PoolByToken := k_PoolByToken s; k_LpRewardIndex := k_LpRewardIndex s;
     k_LpTotalVolume := k_LpTotalVolume s; k_PoolLpIndex := k_PoolLpIndex s;
     k_PendingLpRewards := f (k_PendingLpRewards s); k_VolumeIndex := k_VolumeIndex s;
     k_VolumeIndexDay := k_VolumeIndexDay s; k_PoolStaleQueue := k_PoolStaleQueue s;
     k_PoolStaleDue := k_PoolStaleDue s; k_LpUnbondings := k_LpUnbondings s;
     k_LpUnbondingsByAddr := k_LpUnbondingsByAddr s;
     k_LiquidityAuction := k_LiquidityAuction s; k_AuctionBids := k_AuctionBids s;
     k_PolBurns := k_PolBurns s; k_TotalPoolErth := k_TotalPoolErth s;
     k_DirtyPools := k_DirtyPools s; k_SolvencyCursor := k_SolvencyCursor s;
     k_PriceCumulative := k_PriceCumulative s; k_PriceObservedAt := k_PriceObservedAt s |}.
Definition set_k_VolumeIndex (f : option Z → option Z) (s : DexStore) : DexStore :=
  {| k_Params := k_Params s; k_Pool := k_Pool s; k_PoolSeq := k_PoolSeq s;
     k_PoolByToken := k_PoolByToken s; k_LpRewardIndex := k_LpRewardIndex s;
     k_LpTotalVolume := k_LpTotalVolume s; k_PoolLpIndex := k_PoolLpIndex s;
     k_PendingLpRewards := k_PendingLpRewards s; k_VolumeIndex := f (k_VolumeIndex s);
     k_VolumeIndexDay := k_VolumeIndexDay s; k_PoolStaleQueue := k_PoolStaleQueue s;
     k_PoolStaleDue := k_PoolStaleDue s; k_LpUnbondings := k_LpUnbondings s;
     k_LpUnbondingsByAddr := k_LpUnbondingsByAddr s;
     k_LiquidityAuction := k_LiquidityAuction s; k_AuctionBids := k_AuctionBids s;
     k_PolBurns := k_PolBurns s; k_TotalPoolErth := k_TotalPoolErth s;
     k_DirtyPools := k_DirtyPools s; k_SolvencyCursor := k_SolvencyCursor s;
     k_PriceCumulative := k_PriceCumulative s; k_PriceObservedAt := k_PriceObservedAt s |}.
Definition set_k_VolumeIndexDay (f : option Z → option Z) (s : DexStore) : DexStore :=
  {| k_Params := k_Params s; k_Pool := k_Pool s; k_PoolSeq := k_PoolSeq s;
     k_PoolByToken := k_PoolByToken s; k_LpRewardIndex := k_LpRewardIndex s;
     k_LpTotalVolume := k_LpTotalVolume s; k_PoolLpIndex := k_PoolLpIndex s;
     k_PendingLpRewards := k_PendingLpRewards s; k_VolumeIndex := k_VolumeIndex s;
     k_VolumeIndexDay := f (k_VolumeIndexDay s); k_PoolStaleQueue := k_PoolStaleQueue s;
     k_PoolStaleDue := k_PoolStaleDue s; k_LpUnbondings := k_LpUnbondings s;
     k_LpUnbondingsByAddr := k_LpUnbondingsByAddr s;
     k_LiquidityAuction := k_LiquidityAuction s; k_AuctionBids := k_AuctionBids s;
     k_PolBurns := k_PolBurns s; k_TotalPoolErth := k_TotalPoolErth s;
     k_DirtyPools := k_DirtyPools s; k_SolvencyCursor := k_SolvencyCursor s;
     k_PriceCumulative := k_PriceCumulative s; k_PriceObservedAt := k_PriceObservedAt s |}.
Definition set_k_PoolStaleQueue (f : gset (Z * Z) → gset (Z * Z)) (s : DexStore) : DexStore :=
  {| k_Params := k_Params s; k_Pool := k_Pool s; k_PoolSeq := k_PoolSeq s;
     k_PoolByToken := k_PoolByToken s; k_LpRewardIndex := k_LpRewardIndex s;
     k_LpTotalVolume := k_LpTotalVolume s; k_PoolLpIndex := k_PoolLpIndex s;
     k_PendingLpRewards := k_PendingLpRewards s; k_VolumeIndex := k_VolumeIndex s;
     k_VolumeIndexDay := k_VolumeIndexDay s; k_PoolStaleQueue := f (k_PoolStaleQueue s);
     k_PoolStaleDue := k_PoolStaleDue s; k_LpUnbondings := k_LpUnbondings s;
     k_LpUnbondingsByAddr := k_LpUnbondingsByAddr s;
     k_LiquidityAuction := k_LiquidityAuction s; k_AuctionBids := k_AuctionBids s;
     k_PolBurns := k_PolBurns s; k_TotalPoolErth := k_TotalPoolErth s;
     k_DirtyPools := k_DirtyPools s; k_SolvencyCursor := k_SolvencyCursor s;
     k_PriceCumulative := k_PriceCumulative s; k_PriceObservedAt := k_PriceObservedAt s |}.
Definition set_k_PoolStaleDue (f : gmap Z Z → gmap Z Z) (s : DexStore) : DexStore :=
  {| k_Params := k_Params s; k_Pool := k_Pool s; k_PoolSeq := k_PoolSeq s;
     k_PoolByToken := k_PoolByToken s; k_LpRewardIndex := k_LpRewardIndex s;
     k_LpTotalVolume := k_LpTotalVolume s; k_PoolLpIndex := k_PoolLpIndex s;
     k_PendingLpRewards := k_PendingLpRewards s; k_VolumeIndex := k_VolumeIndex s;
     k_VolumeIndexDay := k_VolumeIndexDay s; k_PoolStaleQueue := k_PoolStaleQueue s;
     k_PoolStaleDue := f (k_PoolStaleDue s); k_LpUnbondings := k_LpUnbondings s;
     k_LpUnbondingsByAddr := k_LpUnbondingsByAddr s;
     k_LiquidityAuction := k_LiquidityAuction s; k_AuctionBids := k_AuctionBids s;
     k_PolBurns := k_PolBurns s; k_TotalPoolErth := k_TotalPoolErth s;
     k_DirtyPools := k_DirtyPools s; k_SolvencyCursor := k_SolvencyCursor s;
     k_PriceCumulative := k_PriceCumulative s; k_PriceObservedAt := k_PriceObservedAt s |}.
Definition set_k_LpUnbondings (f : gmap UnbondKey LpUnbonding → gmap UnbondKey LpUnbonding) (s : DexStore) : DexStore :=
  {| k_Params := k_Params s; k_Pool := k_Pool s; k_PoolSeq := k_PoolSeq s;
     k_PoolByToken := k_PoolByToken s; k_LpRewardIndex := k_LpRewardIndex s;
     k_LpTotalVolume := k_LpTotalVolume s; k_PoolLpIndex := k_PoolLpIndex s;
     k_PendingLpRewards := k_PendingLpRewards s; k_VolumeIndex := k_VolumeIndex s;
     k_VolumeIndexDay := k_VolumeIndexDay s; k_PoolStaleQueue := k_PoolStaleQueue s;
     k_PoolStaleDue := k_PoolStaleDue s; k_LpUnbondings := f (k_LpUnbondings s);
     k_LpUnbondingsByAddr := k_LpUnbondingsByAddr s;
     k_LiquidityAuction := k_LiquidityAuction s; k_AuctionBids := k_AuctionBids s;
     k_PolBurns := k_PolBurns s; k_TotalPoolErth := k_TotalPoolErth s;
     k_DirtyPools := k_DirtyPools s; k_SolvencyCursor := k_SolvencyCursor s;
     k_PriceCumulative := k_PriceCumulative s; k_PriceObservedAt := k_PriceObservedAt s |}.
Definition set_k_LpUnbondingsByAddr (f : gset (bytes * Z * Z) → gset (bytes * Z * Z)) (s : DexStore) : DexStore :=
  {| k_Params := k_Params s; k_Pool := k_Pool s; k_PoolSeq := k_PoolSeq s;
     k_PoolByToken := k_PoolByToken s; k_LpRewardIndex := k_LpRewardIndex s;
     k_LpTotalVolume := k_LpTotalVolume s; k_PoolLpIndex := k_PoolLpIndex s;
     k_PendingLpRewards := k_PendingLpRewards s; k_VolumeIndex := k_VolumeIndex s;
     k_VolumeIndexDay := k_VolumeIndexDay s; k_PoolStaleQueue := k_PoolStaleQueue s;
     k_PoolStaleDue := k_PoolStaleDue s; k_LpUnbondings := k_LpUnbondings s;
     k_LpUnbondingsByAddr := f (k_LpUnbondingsByAddr s);
     k_LiquidityAuction := k_LiquidityAuction s; k_AuctionBids := k_AuctionBids s;
     k_PolBurns := k_PolBurns s; k_TotalPoolErth := k_TotalPoolErth s;
     k_DirtyPools := k_DirtyPools s; k_SolvencyCursor := k_SolvencyCursor s;
     k_PriceCumulative := k_PriceCumulative s; k_PriceObservedAt := k_PriceObservedAt s |}.
Definition set_k_LiquidityAuction (f : option LiquidityAuction → option LiquidityAuction) (s : DexStore) : DexStore :=
  {| k_Params := k_Params s; k_Pool := k_Pool s; k_PoolSeq := k_PoolSeq s;
     k_PoolByToken := k_PoolByToken s; k_LpRewardIndex := k_LpRewardIndex s;
     k_LpTotalVolume := k_LpTotalVolume s; k_PoolLpIndex := k_PoolLpIndex s;
     k_PendingLpRewards := k_PendingLpRewards s; k_VolumeIndex := k_VolumeIndex s;
     k_VolumeIndexDay := k_VolumeIndexDay s; k_PoolStaleQueue := k_PoolStaleQueue s;
     k_PoolStaleDue := k_PoolStaleDue s; k_LpUnbondings := k_LpUnbondings s;
     k_LpUnbondingsByAddr := k_LpUnbondingsByAddr s;
     k_LiquidityAuction := f (k_LiquidityAuction s); k_AuctionBids := k_AuctionBids s;
     k_PolBurns := k_PolBurns s; k_TotalPoolErth := k_TotalPoolErth s;
     k_DirtyPools := k_DirtyPools s; k_SolvencyCursor := k_SolvencyCursor s;
     k_PriceCumulative := k_PriceCumulative s; k_PriceObservedAt := k_PriceObservedAt s |}.
Definition set_k_AuctionBids (f : gmap bytes AuctionBid → gmap bytes AuctionBid) (s : DexStore) : DexStore :=
  {| k_Params := k_Params s; k_Pool := k_Pool s; k_PoolSeq := k_PoolSeq s;
     k_PoolByToken := k_PoolByToken s; k_LpRewardIndex := k_LpRewardIndex s;
     k_LpTotalVolume := k_LpTotalVolume s; k_PoolLpIndex := k_PoolLpIndex s;
     k_PendingLpRewards := k_PendingLpRewards s; k_VolumeIndex := k_VolumeIndex s;
     k_VolumeIndexDay := k_VolumeIndexDay s; k_PoolStaleQueue := k_PoolStaleQueue s;
     k_PoolStaleDue := k_PoolStaleDue s; k_LpUnbondings := k_LpUnbondings s;
     k_LpUnbondingsByAddr := k_LpUnbondingsByAddr s;
     k_LiquidityAuction := k_LiquidityAuction s; k_AuctionBids := f (k_AuctionBids s);
     k_PolBurns := k_PolBurns s; k_TotalPoolErth := k_TotalPoolErth s;
     k_DirtyPools := k_DirtyPools s; k_SolvencyCursor := k_SolvencyCursor s;
     k_PriceCumulative := k_PriceCumulative s; k_PriceObservedAt := k_PriceObservedAt s |}.
Definition set_k_PolBurns (f : gmap Z PolBurn → gmap Z PolBurn) (s : DexStore) : DexStore :=
  {| k_Params := k_Params s; k_Pool := k_Pool s; k_PoolSeq := k_PoolSeq s;
     k_PoolByToken := k_PoolByToken s; k_LpRewardIndex := k_LpRewardIndex s;
     k_LpTotalVolume := k_LpTotalVolume s; k_PoolLpIndex := k_PoolLpIndex s;
     k_PendingLpRewards := k_PendingLpRewards s; k_VolumeIndex := k_VolumeIndex s;
     k_VolumeIndexDay := k_VolumeIndexDay s; k_PoolStaleQueue := k_PoolStaleQueue s;
     k_PoolStaleDue := k_PoolStaleDue s; k_LpUnbondings := k_LpUnbondings s;
     k_LpUnbondingsByAddr := k_LpUnbondingsByAddr s;
     k_LiquidityAuction := k_LiquidityAuction s; k_AuctionBids := k_AuctionBids s;
     k_PolBurns := f (k_PolBurns s); k_TotalPoolErth := k_TotalPoolErth s;
     k_DirtyPools := k_DirtyPools s; k_SolvencyCursor := k_SolvencyCursor s;
     k_PriceCumulative := k_PriceCumulative s; k_PriceObservedAt := k_PriceObservedAt s |}.
Definition set_k_TotalPoolErth (f : option Z → option Z) (s : DexStore) : DexStore :=
  {| k_Params := k_Params s; k_Pool := k_Pool s; k_PoolSeq := k_PoolSeq s;
     k_PoolByToken := k_PoolByToken s; k_LpRewardIndex := k_LpRewardIndex s;
     k_LpTotalVolume := k_LpTotalVolume s; k_PoolLpIndex := k_PoolLpIndex s;
     k_PendingLpRewards := k_PendingLpRewards s; k_VolumeIndex := k_VolumeIndex s;
     k_VolumeIndexDay := k_VolumeIndexDay s; k_PoolStaleQueue := k_PoolStaleQueue s;
     k_PoolStaleDue := k_PoolStaleDue s; k_LpUnbondings := k_LpUnbondings s;
     k_LpUnbondingsByAddr := k_LpUnbondingsByAddr s;
     k_LiquidityAuction := k_LiquidityAuction s; k_AuctionBids := k_AuctionBids s;
     k_PolBurns := k_PolBurns s; k_TotalPoolErth := f (k_TotalPoolErth s);
     k_DirtyPools := k_DirtyPools s; k_SolvencyCursor := k_SolvencyCursor s;
     k_PriceCumulative := k_PriceCumulative s; k_PriceObservedAt := k_PriceObservedAt s |}.
Definition set_k_DirtyPools (f : gset Z → gset Z) (s : DexStore) : DexStore :=
  {| k_Params := k_Params s; k_Pool := k_Pool s; k_PoolSeq := k_PoolSeq s;
     k_PoolByToken := k_PoolByToken s; k_LpRewardIndex := k_LpRewardIndex s;
     k_LpTotalVolume := k_LpTotalVolume s; k_PoolLpIndex := k_PoolLpIndex s;
     k_PendingLpRewards := k_PendingLpRewards s; k_VolumeIndex := k_VolumeIndex s;
     k_VolumeIndexDay := k_VolumeIndexDay s; k_PoolStaleQueue := k_PoolStaleQueue s;
     k_PoolStaleDue := k_PoolStaleDue s; k_LpUnbondings := k_LpUnbondings s;
     k_LpUnbondingsByAddr := k_LpUnbondingsByAddr s;
     k_LiquidityAuction := k_LiquidityAuction s; k_AuctionBids := k_AuctionBids s;
     k_PolBurns := k_PolBurns s; k_TotalPoolErth := k_TotalPoolErth s;
     k_DirtyPools := f (k_DirtyPools s); k_SolvencyCursor := k_SolvencyCursor s;
     k_PriceCumulative := k_PriceCumulative s; k_PriceObservedAt := k_PriceObservedAt s |}.
Definition set_k_SolvencyCursor (f : option Z → option Z) (s : DexStore) : DexStore :=
  {| k_Params := k_Params s; k_Pool := k_Pool s; k_PoolSeq := k_PoolSeq s;
     k_PoolByToken := k_PoolByToken s; k_LpRewardIndex := k_LpRewardIndex s;
     k_LpTotalVolume := k_LpTotalVolume s; k_PoolLpIndex := k_PoolLpIndex s;
     k_PendingLpRewards := k_PendingLpRewards s; k_VolumeIndex := k_VolumeIndex s;
     k_VolumeIndexDay := k_VolumeIndexDay s; k_PoolStaleQueue := k_PoolStaleQueue s;
     k_PoolStaleDue := k_PoolStaleDue s; k_LpUnbondings := k_LpUnbondings s;
     k_LpUnbondingsByAddr := k_LpUnbondingsByAddr s;
     k_LiquidityAuction := k_LiquidityAuction s; k_AuctionBids := k_AuctionBids s;
     k_PolBurns := k_PolBurns s; k_TotalPoolErth := k_TotalPoolErth s;
     k_DirtyPools := k_DirtyPools s; k_SolvencyCursor := f (k_SolvencyCursor s);
     k_PriceCumulative := k_PriceCumulative s; k_PriceObservedAt := k_PriceObservedAt s |}.
Definition set_k_PriceCumulative (f : gmap Z Z → gmap Z Z) (s : DexStore) : DexStore :=
  {| k_Params := k_Params s; k_Pool := k_Pool s; k_PoolSeq := k_PoolSeq s;
     k_PoolByToken := k_PoolByToken s; k_LpRewardIndex := k_LpRewardIndex s;
     k_LpTotalVolume := k_LpTotalVolume s; k_PoolLpIndex := k_PoolLpIndex s;
     k_PendingLpRewards := k_PendingLpRewards s; k_VolumeIndex := k_VolumeIndex s;
     k_VolumeIndexDay := k_VolumeIndexDay s; k_PoolStaleQueue := k_PoolStaleQueue s;
     k_PoolStaleDue := k_PoolStaleDue s; k_LpUnbondings := k_LpUnbondings s;
     k_LpUnbondingsByAddr := k_LpUnbondingsByAddr s;
     k_LiquidityAuction := k_LiquidityAuction s; k_AuctionBids := k_AuctionBids s;
     k_PolBurns := k_PolBurns s; k_TotalPoolErth := k_TotalPoolErth s;
     k_DirtyPools := k_DirtyPools s; k_SolvencyCursor := k_SolvencyCursor s;
     k_PriceCumulative := f (k_PriceCumulative s); k_PriceObservedAt := k_PriceObservedAt s |}.
Definition set_k_PriceObservedAt (f : gmap Z Z → gmap Z Z) (s : DexStore) : DexStore :=
  {| k_Params := k_Params s; k_Pool := k_Pool s; k_PoolSeq := k_PoolSeq s;
     k_PoolByToken := k_PoolByToken s; k_LpRewardIndex := k_LpRewardIndex s;
     k_LpTotalVolume := k_LpTotalVolume s; k_PoolLpIndex := k_PoolLpIndex s;
     k_PendingLpRewards := k_PendingLpRewards s; k_VolumeIndex := k_VolumeIndex s;
     k_VolumeIndexDay := k_VolumeIndexDay s; k_PoolStaleQueue := k_PoolStaleQueue s;
     k_PoolStaleDue := k_PoolStaleDue s; k_LpUnbondings := k_LpUnbondings s;
     k_LpUnbondingsByAddr := k_LpUnbondingsByAddr s;
     k_LiquidityAuction := k_LiquidityAuction s; k_AuctionBids := k_AuctionBids s;
     k_PolBurns := k_PolBurns s; k_TotalPoolErth := k_TotalPoolErth s;
     k_DirtyPools := k_DirtyPools s; k_SolvencyCursor := k_SolvencyCursor s;
     k_PriceCumulative := k_PriceCumulative s; k_PriceObservedAt := f (k_PriceObservedAt s) |}.

(** ** LP share denoms *)
Lemma LPShareDenom_IsLP id : IsLPShareDenom (LPShareDenom id) = true.
Proof.
  unfold IsLPShareDenom, LPShareDenom, LPShareDenomPrefix. cbv [String.append]. cbn.
  by destruct (pretty _).
Qed.

Lemma LPShareDenom_inj i j : 0 ≤ i → 0 ≤ j → LPShareDenom i = LPShareDenom j → i = j.
Proof.
  intros Hi Hj E. unfold LPShareDenom in E.
  apply (inj (String.app LPShareDenomPrefix)) in E. apply (inj pretty) in E. lia.
Qed.

Lemma WithinPoolCap_spec a : WithinPoolCap a = true ↔ a ≤ 2 ^ 120.
Proof. unfold WithinPoolCap, MaxPoolAmount. rewrite Z.shiftl_1_l. lia. Qed.

(** A failed payout is retried at a bounded pace: the delay after the n-th failure is an hour doubled per
    earlier failure, never under an hour and never over 256 hours, whatever the counter reads. *)
Theorem retry_delay_backs_off attempts :
  0 ≤ attempts < 2 ^ 32 →
  LpUnbondRetryDelay attempts = 3600 * 2 ^ Z.min 8 (Z.max 0 (attempts - 1)) ∧
  3600 ≤ LpUnbondRetryDelay attempts ≤ 3600 * 256.
Proof.
  intros Ha. unfold LpUnbondRetryDelay, LpUnbondRetryMaxShift, LpUnbondRetryBaseSeconds.
  set (sh := if 1 <? attempts then attempts - 1 else 0).
  assert (sh = Z.max 0 (attempts - 1)) as Hs by (unfold sh; destruct (Z.ltb_spec 1 attempts); lia).
  rewrite if_min, <-Hs, Z.shiftl_mul_pow2 by lia.
  pose proof (Z.pow_le_mono_r 2 0 (Z.min 8 sh) ltac:(lia) ltac:(lia)).
  pose proof (Z.pow_le_mono_r 2 (Z.min 8 sh) 8 ltac:(lia) ltac:(lia)).
  split; [done|]. change (2 ^ 0) with 1 in *. change (2 ^ 8) with 256 in *. lia.
Qed.
