(* ===== verification/World.v ===== *)
(** * The state a module call runs on

    [sdk.Context] as the modules use it: the block time and the stores.  A module reads and
    writes its own store, the bank's, and (through their keepers) x/earth's counters and the shielded
    pool. *)

From S2P Require Export DexTypes.

Section world.
Context `{Host, !ShieldedKeeper}.

Record World := {
  w_nanos : Z;              (* BlockTime().UnixNano() *)
  w_bank : bank_state;
  w_shielded : shielded_state;
  w_earth : EarthStore;
  w_dex : DexStore;
}.

Definition set_w_bank (b : bank_state) (w : World) : World :=
  {| w_nanos := w_nanos w; w_bank := b; w_shielded := w_shielded w;
     w_earth := w_earth w; w_dex := w_dex w |}.
(** The pool's view of the world: the bank and its own state. *)
Definition w_pool_state (w : World) : bank_state * shielded_state := (w_bank w, w_shielded w).
Definition set_w_pool_state (bs : bank_state * shielded_state) (w : World) : World :=
  {| w_nanos := w_nanos w; w_bank := fst bs; w_shielded := snd bs;
     w_earth := w_earth w; w_dex := w_dex w |}.
Definition upd_earth (f : EarthStore → EarthStore) (w : World) : World :=
  {| w_nanos := w_nanos w; w_bank := w_bank w; w_shielded := w_shielded w;
     w_earth := f (w_earth w); w_dex := w_dex w |}.
Definition upd_dex (f : DexStore → DexStore) (w : World) : World :=
  {| w_nanos := w_nanos w; w_bank := w_bank w; w_shielded := w_shielded w;
     w_earth := w_earth w; w_dex := f (w_dex w) |}.

(** [BlockTime().Unix()] *)
Definition unix (w : World) : Z := w_nanos w / 10 ^ 9.

Abbreviation M := (prog World).

Definition now : M Z := gets unix.
Definition get_dex {A} (f : DexStore → A) : M A := gets (λ w, f (w_dex w)).
Definition get_earth {A} (f : EarthStore → A) : M A := gets (λ w, f (w_earth w)).
Definition set_earth (f : EarthStore → EarthStore) : M () := modify (upd_earth f).
Definition get_bank {A} (f : bank_state → A) : M A := gets (λ w, f (w_bank w)).
Definition set_dex (f : DexStore → DexStore) : M () := modify (upd_dex f).

(** [Item.Get] and [Map.Get]: the value, or [collections.ErrNotFound]. *)
Definition item {A} (f : DexStore → option A) : M A := λ w,
  match f (w_dex w) with Some a => Ok (a, w) | None => Err ErrNotFound end.

(** A bank call, and a call of the shielded pool. *)
Definition bank (f : bank_state → outcome bank_state) : M () := λ w,
  match f (w_bank w) with
  | Ok b => Ok ((), set_w_bank b w)
  | Err e => Err e
  | Panic => Panic
  end.
Definition shielded {A} (f : bank_state * shielded_state → outcome (A * (bank_state * shielded_state))) :
    M A := λ w,
  match f (w_bank w, w_shielded w) with
  | Ok (a, bs) => Ok (a, set_w_pool_state bs w)
  | Err e => Err e
  | Panic => Panic
  end.

Lemma item_ok {A} (f : DexStore → option A) w a w' :
  item f w = Ok (a, w') ↔ f (w_dex w) = Some a ∧ w' = w.
Proof. unfold item. destruct (f (w_dex w)); intuition congruence. Qed.

Lemma bank_ok f w u w' : bank f w = Ok (u, w') ↔ ∃ b, f (w_bank w) = Ok b ∧ w' = set_w_bank b w.
Proof.
  unfold bank. destruct u, (f (w_bank w)) as [b| |]; split.
  - intros [= <-]. eauto.
  - by intros (? & [= ->] & ->).
  - done.
  - by intros (? & ? & _).
  - done.
  - by intros (? & ? & _).
Qed.

Lemma shielded_ok {A} (f : _ → outcome (A * _)) w a w' :
  shielded f w = Ok (a, w') ↔
  ∃ b s, f (w_bank w, w_shielded w) = Ok (a, (b, s)) ∧ w' = set_w_pool_state (b, s) w.
Proof.
  unfold shielded. destruct (f _) as [[a' [b s]]| |]; split.
  - intros [= -> <-]. eauto.
  - by intros (? & ? & [= -> -> ->] & ->).
  - done.
  - by intros (? & ? & ? & _).
  - done.
  - by intros (? & ? & ? & _).
Qed.

Lemma now_ok w t w' : now w = Ok (t, w') ↔ t = unix w ∧ w' = w.
Proof. apply gets_ok. Qed.
Lemma get_dex_ok {A} (f : DexStore → A) w a w' :
  get_dex f w = Ok (a, w') ↔ a = f (w_dex w) ∧ w' = w.
Proof. exact (gets_ok (λ w, f (w_dex w)) w a w'). Qed.
Lemma get_earth_ok {A} (f : EarthStore → A) w a w' :
  get_earth f w = Ok (a, w') ↔ a = f (w_earth w) ∧ w' = w.
Proof. exact (gets_ok (λ w, f (w_earth w)) w a w'). Qed.
Lemma get_bank_ok {A} (f : bank_state → A) w a w' :
  get_bank f w = Ok (a, w') ↔ a = f (w_bank w) ∧ w' = w.
Proof. exact (gets_ok (λ w, f (w_bank w)) w a w'). Qed.
Lemma set_earth_ok f w u w' : set_earth f w = Ok (u, w') ↔ w' = upd_earth f w.
Proof. apply modify_ok. Qed.
Lemma set_dex_ok f w u w' : set_dex f w = Ok (u, w') ↔ w' = upd_dex f w.
Proof. apply modify_ok. Qed.
End world.

#[global] Arguments World {_ _}.
#[global] Arguments Build_World {_ _} _ _ _ _ _.

Abbreviation M := (prog World).

Ltac world_step :=
  match goal with
  | H : item _ _ = Ok (_, _) |- _ => apply item_ok in H; destruct H as [? ->]
  | H : now _ = Ok (_, _) |- _ => apply now_ok in H; destruct H as [-> ->]
  | H : get_dex _ _ = Ok (_, _) |- _ => apply get_dex_ok in H; destruct H as [-> ->]
  | H : get_earth _ _ = Ok (_, _) |- _ => apply get_earth_ok in H; destruct H as [-> ->]
  | H : get_bank _ _ = Ok (_, _) |- _ => apply get_bank_ok in H; destruct H as [-> ->]
  | H : set_dex _ _ = Ok (_, _) |- _ => apply set_dex_ok in H; subst
  | H : set_earth _ _ = Ok (_, _) |- _ => apply set_earth_ok in H; subst
  | H : bank _ _ = Ok (_, _) |- _ =>
      let b := fresh "b" in let Hb := fresh "Hbank" in
      apply bank_ok in H; destruct H as (b & Hb & ->)
  | H : shielded _ _ = Ok (_, _) |- _ =>
      let b := fresh "b" in let s := fresh "sh" in let Hb := fresh "Hshielded" in
      apply shielded_ok in H; destruct H as (b & s & Hb & ->)
  end.
Ltac run_inv := repeat first [world_step | host_step | prog_step].

(** Two states with the same components are equal. *)
Ltac world_eta :=
  subst; repeat match goal with w : World |- _ => destruct w end;
  repeat match goal with s : DexStore |- _ => destruct s end; reflexivity.
