(* ===== verification/Earth.v ===== *)
(** * x/earth: issuance, gas-fee burning and the burn counters

    [x/earth/keeper/emission.go] ([MintEmission], run by x/mint's hook through [app/mint.go]),
    [fees.go] ([SplitCollectedFees], the module's EndBlock), [burns.go] and the genesis of the counters.  The
    theorems: the emission is the fixed rate prorated to the nanosecond and never ahead of it; half
    of each fee is destroyed, the odd unit with it, and counted; the counters are what was burned. *)

From S2P Require Export World.

Section earth.
Context `{Host, !ShieldedKeeper}.

(** ** burns.go *)

Definition RecordBurn (source : string) (coins : Coins) : M () :=
  for_each coins (λ c,
    if negb (0 <? Amount c) then mret ()
    else
      let key := (source, Denom c) in
      cur ← get_earth (λ s, e_Burned s !! key);
      total ← lift (IntAdd (default 0 cur) (Amount c));
      set_earth (set_e_Burned <[key := total]>)).

Record BurnTotal := { bt_Source : string; bt_Amount : Coins }.

(** [Walk] of the counters, in key order. *)
Definition walk_burned {A} (f : string → string → Z → A → outcome A) (a : A) (s : EarthStore) : outcome A :=
  foldl (λ acc kv, x ← acc; f (fst (fst kv)) (snd (fst kv)) (snd kv) x) (Ok a) (iter_map (e_Burned s)).

Definition BurnedBySource : M (list BurnTotal) :=
  s ← gets w_earth;
  bySource ← lift (walk_burned (λ source denom amount acc,
    c ← NewCoin denom amount;
    cs ← CoinsAdd (default [] (acc !! source)) [c];
    mret (<[source := cs]> acc)) (∅ : gmap string Coins) s);
  mret ((λ source, {| bt_Source := source; bt_Amount := default [] (bySource !! source) |}) <$>
        merge_sort string_le (map_to_list bySource).*1).

Definition TotalBurned : M Coins :=
  s ← gets w_earth;
  lift (walk_burned (λ _ denom amount total,
    c ← NewCoin denom amount;
    CoinsAdd total [c]) [] s).

Definition setBurned (source : string) (coins : Coins) : M () :=
  for_each coins (λ c,
    if negb (0 <? Amount c) then mret ()
    else set_earth (set_e_Burned <[(source, Denom c) := Amount c]>)).

(** ** emission.go *)

Definition GetLastMintTime : M Z := get_earth (λ s, default 0 (e_LastMintTime s)).

Definition MintEmission (mintDenom : string) : M Z :=
  now ← gets w_nanos;
  last ← GetLastMintTime;
  set_earth (set_e_LastMintTime (λ _, Some now));;
  if (last =? 0) || (now <=? last) then mret 0
  else
    m ← lift (IntMul EmissionPerSecondPerPillar (wrap_i64 (now - last)));
    minted ← lift (IntQuo m (10 ^ 9));
    if negb (0 <? minted) then mret 0
    else
      c ← lift (NewCoin mintDenom minted);
      coins ← lift (NewCoins [c]);
      bank (MintCoins earth_ModuleName coins);;
      bank (SendCoinsFromModuleToModule earth_ModuleName FeeCollectorName coins);;
      mret minted.

(** ** fees.go *)

(** The loop over the collected fees: the burned half of each denom. *)
Fixpoint burn_halves (fees burn : Coins) : outcome Coins :=
  match fees with
  | [] => mret burn
  | fee :: fees =>
      s ← IntAdd (Amount fee) 1;
      half ← IntQuo s 2;
      burn ← (if 0 <? half then c ← NewCoin (Denom fee) half; CoinsAdd burn [c] else mret burn);
      burn_halves fees burn
  end.

Definition SplitCollectedFees : M () :=
  let feeCollector := NewModuleAddress FeeCollectorName in
  fees ← get_bank (λ b, SpendableCoins b feeCollector);
  if CoinsIsZero fees then mret ()
  else
    burn ← lift (NewCoins [] ≫= burn_halves fees);
    if CoinsIsZero burn then mret ()
    else
      bank (SendCoinsFromModuleToModule FeeCollectorName earth_ModuleName burn);;
      bank (BurnCoins earth_ModuleName burn);;
      RecordBurn SourceGasFees burn.

(** ** genesis.go *)

(** [resumeClock] *)
Definition resumeClock (genesis last : Z) : Z :=
  if negb (last =? 0) && (last <? genesis) then genesis else last.

Record EarthGenesis := { eg_Burned : list BurnTotal; eg_LastMintTime : Z }.

(** [GenesisState.Validate]; [coinsValid] is the SDK's [Coins.Validate]. *)
Fixpoint validate_burned (coinsValid : Coins → bool) (bs : list BurnTotal) (seen : gset string) : outcome () :=
  match bs with
  | [] => mret ()
  | b :: bs =>
      _ ← refuse (bool_decide (bt_Source b = "")) (Plain "burn total with empty source");
      _ ← refuse (bool_decide (bt_Source b ∈ seen)) (Plain "duplicate burn source");
      _ ← refuse (negb (coinsValid (bt_Amount b))) (Plain "burn source: invalid coins");
      validate_burned coinsValid bs ({[bt_Source b]} ∪ seen)
  end.

Definition EarthGenesisValidate (coinsValid : Coins → bool) (gs : EarthGenesis) : outcome () :=
  _ ← validate_burned coinsValid (eg_Burned gs) ∅;
  refuse (eg_LastMintTime gs <? 0) (Plain "last mint time is negative").

Definition EarthInitGenesis (coinsValid : Coins → bool) (gs : EarthGenesis) : M () :=
  lift (EarthGenesisValidate coinsValid gs);;
  for_each (eg_Burned gs) (λ b, setBurned (bt_Source b) (bt_Amount b));;
  now ← gets w_nanos;
  set_earth (set_e_LastMintTime (λ _, Some (resumeClock now (eg_LastMintTime gs)))).

Definition EarthExportGenesis : M EarthGenesis :=
  burned ← BurnedBySource;
  last ← GetLastMintTime;
  mret {| eg_Burned := burned; eg_LastMintTime := last |}.

End earth.

(** ** What the operations do *)
Section earth_lemmas.
Context `{HostLaws, !ShieldedKeeper}.

(** The counter of a source and denom. *)
Definition burned (w : World) (source denom : string) : Z :=
  default 0 (e_Burned (w_earth w) !! (source, denom)).

Lemma RecordBurn_spec source coins w u w' :
  (∀ c, c ∈ coins → 0 ≤ Amount c) → RecordBurn source coins w = Ok (u, w') →
  (∃ bs, w' = upd_earth (set_e_Burned (λ _, bs)) w) ∧
  ∀ s d, burned w' s d = burned w s d + (if bool_decide (s = source) then AmountOf coins d else 0).
Proof.
  unfold RecordBurn. revert w. induction coins as [|c coins IH]; intros w Hc Hr; cbn in Hr.
  - run_inv. split; [exists (e_Burned (w_earth w)); by destruct w as [???[]?]|].
    intros. rewrite AmountOf_nil. case_bool_decide; lia.
  - assert (0 ≤ Amount c) by (apply Hc; left).
    assert (∀ c, c ∈ coins → 0 ≤ Amount c) as Hcs by (intros; apply Hc; by right).
    apply bind_ok in Hr as ([] & w1 & Hstep & Hr).
    apply IH in Hr as [[bs ->] Hb]; [|done]. run_inv.
    + split; [by exists bs|]. intros s d. rewrite Hb, AmountOf_cons.
      repeat case_bool_decide; lia.
    + split; [by exists bs|]. intros s d. rewrite Hb, AmountOf_cons. unfold burned. cbn.
      destruct (decide ((source, Denom c) = (s, d))) as [[= -> ->]|Hne].
      * rewrite lookup_insert_eq, !bool_decide_eq_true_2 by done. cbn. lia.
      * rewrite lookup_insert_ne by done. repeat case_bool_decide; simplify_eq; lia.
Qed.

(** It never fails for lack of anything but integer range. *)
Lemma RecordBurn_total source coins w :
  (∀ c, c ∈ coins → fits_int (burned w source (Denom c) + Amount c) = true) →
  NoDup (Denom <$> coins) →
  ∃ w', RecordBurn source coins w = Ok ((), w').
Proof.
  unfold RecordBurn. revert w. induction coins as [|c coins IH]; intros w Hf Hnd; cbn [for_each]; [by eexists|].
  cbn in Hnd. apply NoDup_cons in Hnd as [Hc Hnd].
  assert (∀ c0, c0 ∈ coins → Denom c0 ≠ Denom c) as Hne.
  { intros c0 Hc0 E. apply Hc. rewrite <-E. by apply list_elem_of_fmap_2. }
  destruct (negb (0 <? Amount c)).
  - run_fwd. apply IH; [|done]. intros c0 Hc0. apply Hf. by right.
  - pose proof (Hf c ltac:(left)) as Hfc. unfold burned in Hfc.
    erewrite run_bind; cycle 1.
    { run_fwd. erewrite run_bind; cycle 1.
      { apply lift_ok. split; [|done]. apply IntAdd_ok. split; [done|exact Hfc]. }
      reflexivity. }
    apply IH; [|done]. intros c0 Hc0. unfold burned. cbn.
    rewrite lookup_insert_ne; [by apply Hf; right|]. intros [= E]. by apply (Hne c0).
Qed.

Lemma burn_halves_spec fees burn r :
  (∀ c, c ∈ fees → 0 < Amount c) → coins_wf burn → burn_halves fees burn = Ok r → NoDup (Denom <$> fees) →
  coins_wf r ∧ ∀ d, AmountOf r d = AmountOf burn d + (AmountOf fees d + 1) / 2.
Proof.
  revert burn. induction fees as [|fee fees IH]; intros burn Hp Hwf Hr Hnd; cbn in Hr.
  - host_inv. split; [done|]. intros d. rewrite AmountOf_nil. change ((0 + 1) / 2) with 0. lia.
  - cbn in Hnd. apply NoDup_cons in Hnd as [Hf Hnd].
    assert (0 < Amount fee) by (apply Hp; left).
    prog_step. prog_step. prog_step. host_inv; rewrite quot_div_nonneg in * by lia;
      pose proof (div_mul_bounds (Amount fee + 1) 2 ltac:(done)); [|lia].
    apply CoinsAdd_spec in Hpure1 as [Hs Hw]. cbn in Hw.
    apply IH in Hr as [Hwr Hr]; [|intros; apply Hp; by right| |done].
    2:{ apply Hw; [done|]. apply coins_wf_single. lia. }
    split; [done|]. intros d. rewrite Hr, Hs, !AmountOf_cons, AmountOf_nil. cbn [Denom Amount].
    case_bool_decide as E; [|by rewrite !Z.add_0_l, Z.add_0_r].
    rewrite (AmountOf_notin fees d) by (rewrite <-E; done).
    rewrite !Z.add_0_r. change ((0 + 1) / 2) with 0. lia.
Qed.

(** Folding a monotone sum through the counters. *)
Lemma TotalBurned_fold (l : list (string * string * Z)) acc r :
  foldl (λ acc kv, x ← acc; c ← NewCoin (snd (fst kv)) (snd kv); CoinsAdd x [c]) acc l = Ok r →
  ∃ t, acc = Ok t ∧ ∀ d, AmountOf r d =
    AmountOf t d + list_sum (λ kv, if bool_decide (snd (fst kv) = d) then snd kv else 0) l.
Proof.
  revert acc. induction l as [|[[s d'] v] l IH]; intros acc; cbn [foldl].
  - intros ->. exists r. split; [done|]. intros. cbn. lia.
  - intros (t & Ht & Hr)%IH. cbn [fst snd] in *. host_inv. apply CoinsAdd_spec in Ht as [Hs _].
    eexists. split; [done|]. intros d.
    rewrite Hr, Hs, AmountOf_cons, AmountOf_nil, list_sum_cons. cbn [Denom Amount fst snd].
    case_bool_decide; lia.
Qed.

(** A fold that stopped never restarts. *)
Lemma foldl_bind_ok {A B} (f : A → B → outcome A) (l : list B) acc r :
  foldl (λ acc x, a ← acc; f a x) acc l = Ok r → ∃ a, acc = Ok a.
Proof.
  revert acc. induction l as [|x l IH]; intros acc; cbn [foldl]; [by eauto|].
  intros (a & Ha)%IH. prog_inv. eauto.
Qed.

Lemma BurnedBySource_fold (l : list (string * string * Z)) acc r :
  foldl (λ acc kv, x ← acc; c ← NewCoin (snd (fst kv)) (snd kv);
      cs ← CoinsAdd (default [] (x !! fst (fst kv))) [c];
      mret (<[fst (fst kv) := cs]> x)) acc l = Ok r →
  ∃ t : gmap string Coins, acc = Ok t ∧
    (∀ s d, AmountOf (default [] (r !! s)) d = AmountOf (default [] (t !! s)) d +
      list_sum (λ kv, if bool_decide (fst kv = (s, d)) then snd kv else 0) l) ∧
    (∀ s, is_Some (r !! s) ↔ is_Some (t !! s) ∨ s ∈ (λ kv, fst (fst kv)) <$> l) ∧
    ((∀ kv, kv ∈ l → 0 < snd kv) → (∀ s, coins_wf (default [] (t !! s))) →
      ∀ s, coins_wf (default [] (r !! s))).
Proof.
  revert acc. induction l as [|[[s0 d0] v] l IH]; intros acc; cbn [foldl].
  - intros ->. exists r. split; [done|]. split; [|split]; [intros; cbn; lia| |done].
    intros s. cbn. rewrite elem_of_nil. tauto.
  - intros (t & Ht & Hr & Hdom & Hwf)%IH. cbn [fst snd] in *. host_inv.
    match goal with H : CoinsAdd _ _ = Ok _ |- _ => apply CoinsAdd_spec in H as [Hs Hw] end.
    eexists. split; [done|]. split; [|split].
    + intros s d. rewrite Hr, list_sum_cons. cbn [fst snd]. destruct (decide (s0 = s)) as [->|Hne].
      * rewrite lookup_insert_eq. cbn [default from_option id]. rewrite Hs, AmountOf_cons, AmountOf_nil. cbn [Denom Amount].
        repeat case_bool_decide; simplify_eq; lia.
      * rewrite lookup_insert_ne by done. rewrite bool_decide_eq_false_2; [lia|congruence].
    + intros s. rewrite Hdom, fmap_cons, elem_of_cons. cbn.
      destruct (decide (s0 = s)) as [->|Hne].
      * rewrite lookup_insert_eq. split; [by right; left|]. left. by eexists.
      * rewrite lookup_insert_ne by done. intuition congruence.
    + intros Hpos Ht. apply Hwf; [intros; apply Hpos; by right|]. intros s.
      destruct (decide (s0 = s)) as [->|Hne].
      * rewrite lookup_insert_eq. cbn. apply Hw; [apply Ht|]. apply coins_wf_single.
        apply (Hpos (s, d0, v)). left.
      * rewrite lookup_insert_ne by done. apply Ht.
Qed.

(** One counter as a sum over the store. *)
Lemma burned_sum (m : gmap (string * string) Z) s d :
  list_sum (λ kv, if bool_decide (fst kv = (s, d)) then snd kv else 0) (iter_map m) =
  default 0 (m !! (s, d)).
Proof.
  refine (eq_trans (iter_map_sum
    (λ (k : string * string) (v : Z), if bool_decide (k = (s, d)) then v else 0) m) _).
  destruct (m !! (s, d)) as [v|] eqn:Hm; cbn.
  - rewrite (map_sum_single _ _ (s, d) v Hm); [by rewrite bool_decide_eq_true_2|].
    intros k v' _ Hne. by rewrite bool_decide_eq_false_2.
  - refine (eq_trans (map_sum_ext _ (λ _ _, 0) _ _) (map_sum_zero m)). intros k v Hk.
    rewrite bool_decide_eq_false_2; [done|]. intros ->. congruence.
Qed.

(** [BurnedBySource] lists each source once, with its counters. *)
Lemma BurnedBySource_spec w bs w' :
  BurnedBySource w = Ok (bs, w') →
  w' = w ∧ NoDup (bt_Source <$> bs) ∧
  (∀ b, b ∈ bs → ∀ d, AmountOf (bt_Amount b) d = burned w (bt_Source b) d) ∧
  (∀ s d v, e_Burned (w_earth w) !! (s, d) = Some v → s ∈ bt_Source <$> bs) ∧
  ((∀ k v, e_Burned (w_earth w) !! k = Some v → 0 < v) → ∀ b, b ∈ bs → coins_wf (bt_Amount b)).
Proof.
  unfold BurnedBySource, walk_burned. intros Hr. run_inv.
  apply BurnedBySource_fold in Hrun0 as (t & [= <-] & Hr & Hdom & Hwf).
  set (L := merge_sort string_le (map_to_list a0).*1) in *.
  assert (L ≡ₚ (map_to_list a0).*1) as HL by apply merge_sort_Permutation.
  assert (∀ s, s ∈ L ↔ is_Some (a0 !! s)) as HLs.
  { intros s. rewrite HL, list_elem_of_fmap. split.
    - intros ([s' v] & -> & Hkv). apply elem_of_map_to_list in Hkv. by exists v.
    - intros [v Hv]. exists (s, v). split; [done|]. by apply elem_of_map_to_list. }
  split; [done|]. split; [|split; [|split]].
  - rewrite <-list_fmap_compose. unfold compose. cbn. rewrite list_fmap_id, HL.
    apply NoDup_fst_map_to_list.
  - intros b (s & -> & Hs)%list_elem_of_fmap d.
    change (AmountOf (default [] (a0 !! s)) d = burned w s d).
    rewrite Hr, lookup_empty, burned_sum. unfold burned. done.
  - intros s d v Hv. rewrite <-list_fmap_compose. unfold compose. cbn. rewrite list_fmap_id.
    apply HLs, Hdom. right. apply list_elem_of_fmap. exists (s, d, v). split; [done|].
    by apply elem_of_iter_map.
  - intros Hpos b (s & -> & Hs)%list_elem_of_fmap. cbn. apply Hwf.
    + intros [k v] Hkv. apply elem_of_iter_map in Hkv. by apply (Hpos k).
    + intros s'. rewrite lookup_empty. apply coins_wf_nil.
Qed.
End earth_lemmas.

(** ** Properties *)
Section earth_properties.
Context `{HostLaws, !ShieldedKeeper}.

(** The emission of one call, as a function of the two times. *)
Definition emission_between (last now : Z) : Z :=
  if (last =? 0) || (now <=? last) then 0
  else EmissionPerSecondPerPillar * (now - last) / 10 ^ 9.

Lemma emission_between_nonneg last now : 0 ≤ emission_between last now.
Proof.
  unfold emission_between, EmissionPerSecondPerPillar. destruct (_ || _) eqn:E; [done|].
  apply orb_false_iff in E. apply Z.div_pos; lia.
Qed.

Lemma MintEmission_spec d w minted w' :
  0 ≤ default 0 (e_LastMintTime (w_earth w)) → w_nanos w < 2 ^ 63 →
  MintEmission d w = Ok (minted, w') →
  minted = emission_between (default 0 (e_LastMintTime (w_earth w))) (w_nanos w) ∧
  w_earth w' = set_e_LastMintTime (λ _, Some (w_nanos w)) (w_earth w) ∧
  w_nanos w' = w_nanos w ∧ w_dex w' = w_dex w ∧ w_shielded w' = w_shielded w ∧
  (∀ dd, GetSupply (w_bank w') dd = GetSupply (w_bank w) dd + (if bool_decide (dd = d) then minted else 0)) ∧
  (∀ a dd, GetBalance (w_bank w') a dd = GetBalance (w_bank w) a dd +
    (if bool_decide (a = NewModuleAddress FeeCollectorName ∧ dd = d) then minted else 0)).
Proof.
  intros Hlast Hnow. unfold MintEmission, GetLastMintTime. intros Hr.
  set (last := default 0 (e_LastMintTime (w_earth w))) in *.
  apply bind_ok in Hr as (n & w1 & [-> ->]%gets_ok & Hr).
  apply bind_ok in Hr as (l & w1 & [-> ->]%get_earth_ok & Hr).
  apply bind_ok in Hr as ([] & w1 & ->%set_earth_ok & Hr).
  fold last in Hr. unfold emission_between.
  destruct ((last =? 0) || (w_nanos w <=? last)) eqn:Hz.
  { run_inv. repeat split; intros; try done; cbn; case_bool_decide; lia. }
  apply orb_false_iff in Hz. rewrite wrap_i64_id in Hr by lia. run_inv.
  all: rewrite quot_div_nonneg in * by (unfold EmissionPerSecondPerPillar; lia).
  { assert (0 ≤ EmissionPerSecondPerPillar * (w_nanos w - last) / 10 ^ 9)
      by (unfold EmissionPerSecondPerPillar; apply Z.div_pos; lia).
    repeat split; intros; try done; cbn; try case_bool_decide; lia. }
  set (mi := EmissionPerSecondPerPillar * (w_nanos w - last) / 10 ^ 9) in *.
  match goal with H : NewCoins _ = Ok _ |- _ => apply NewCoins_spec in H as [Ham _] end.
  bank_inv.
  split; [done|]. split; [done|]. do 3 (split; [done|]). split.
  - intros dd. bank_rw. rewrite Ham, AmountOf_cons, AmountOf_nil. cbn.
    repeat case_bool_decide; simplify_eq; lia.
  - intros a dd. bank_rw. rewrite !Ham, AmountOf_cons, AmountOf_nil. cbn.
    repeat case_bool_decide; destruct_and?; simplify_eq; try lia; tauto.
Qed.

(** The chain's blocks as x/mint drives them: one [MintEmission] at each block time. *)
Definition at_time (t : Z) (w : World) : World :=
  {| w_nanos := t; w_bank := w_bank w; w_shielded := w_shielded w;
     w_earth := w_earth w; w_dex := w_dex w |}.

Fixpoint mint_blocks (d : string) (times : list Z) (w : World) : outcome (Z * World) :=
  match times with
  | [] => Ok (0, w)
  | t :: times =>
      '(m, w1) ← MintEmission d (at_time t w);
      '(ms, w2) ← mint_blocks d times w1;
      Ok (m + ms, w2)
  end.

Lemma mint_blocks_spec d times w total w' last :
  e_LastMintTime (w_earth w) = Some last → 0 < last →
  (∀ t, t ∈ times → 0 < t < 2 ^ 63) → StronglySorted Z.le (last :: times) →
  mint_blocks d times w = Ok (total, w') →
  let elapsed := List.last times last - last in
  total * 10 ^ 9 ≤ EmissionPerSecondPerPillar * elapsed ∧
  EmissionPerSecondPerPillar * elapsed ≤ (total + Z.of_nat (length times)) * 10 ^ 9 ∧
  GetSupply (w_bank w') d = GetSupply (w_bank w) d + total.
Proof.
  revert w total w' last. induction times as [|t times IH]; intros w total w' last Hl Hl0 Ht Hs Hr; cbn in Hr.
  - injection Hr as <- <-. cbn. lia.
  - apply outcome_bind_ok in Hr as ([m w1] & Hm & Hr).
    apply outcome_bind_ok in Hr as ([ms w2] & Hms & Hr). injection Hr as <- <-.
    assert (0 < t < 2 ^ 63) by (apply Ht; left).
    apply StronglySorted_inv in Hs as [Hs Hle]. apply Forall_cons in Hle as [Hlt _].
    apply MintEmission_spec in Hm as (-> & He & _ & _ & _ & Hsup & _); [|cbn; rewrite ?Hl; cbn; lia..].
    cbn in *. rewrite Hl in *. cbn in *.
    apply (IH w1 ms w2 t) in Hms as (Hup & Hlo & Hsup2).
    2:{ rewrite He. done. }
    2: lia.
    2:{ intros t' Ht'. apply Ht. by right. }
    2: done.
    assert (List.last times t = match times with [] => t | _ :: _ => List.last times last end) as El.
    { clear. destruct times as [|x l]; [done|]. revert x. induction l as [|y l IHl]; intros x; [done|]. apply IHl. }
    rewrite <-El. rewrite Hsup2, Hsup, bool_decide_eq_true_2 by done.
    set (E := List.last times t) in *.
    unfold emission_between, EmissionPerSecondPerPillar in *.
    replace (last =? 0) with false by lia. cbn [orb]. destruct (Z.leb_spec t last).
    + assert (t = last) as -> by lia. lia.
    + pose proof (div_mul_bounds (1000000 * (t - last)) (10 ^ 9) ltac:(done)). lia.
Qed.

(** The investor pillar's emission is the fixed rate prorated to the elapsed nanoseconds: a call of
    [MintEmission] mints [1_000_000 * (now - last) / 10^9] uerth (nothing on the first block or
    when the clock did not advance), hands exactly that to the fee collector, and stamps the clock. *)
Theorem MintEmission_prorated d w minted w' :
  0 ≤ default 0 (e_LastMintTime (w_earth w)) → w_nanos w < 2 ^ 63 →
  MintEmission d w = Ok (minted, w') →
  minted = emission_between (default 0 (e_LastMintTime (w_earth w))) (w_nanos w) ∧
  e_LastMintTime (w_earth w') = Some (w_nanos w) ∧
  GetSupply (w_bank w') d = GetSupply (w_bank w) d + minted ∧
  GetBalance (w_bank w') (NewModuleAddress FeeCollectorName) d =
    GetBalance (w_bank w) (NewModuleAddress FeeCollectorName) d + minted ∧
  (∀ a dd, a ≠ NewModuleAddress FeeCollectorName →
    GetBalance (w_bank w') a dd = GetBalance (w_bank w) a dd).
Proof.
  intros Hl Hn Hr. apply MintEmission_spec in Hr as (Hm & He & _ & _ & _ & Hs & Hb); [|done..].
  split; [done|]. rewrite He, Hs, Hb, !bool_decide_eq_true_2 by done. do 3 (split; [done|]).
  intros a dd Hne. rewrite Hb, bool_decide_eq_false_2; [lia|]. tauto.
Qed.

(** C40: Issuance follows the clock: over any sequence of blocks, the pillar has minted at most
    1 ERTH per second of elapsed time and at most one uerth per block less. *)
Theorem emission_tracks_clock d times w total w' last :
  e_LastMintTime (w_earth w) = Some last → 0 < last →
  (∀ t, t ∈ times → 0 < t < 2 ^ 63) → StronglySorted Z.le (last :: times) →
  mint_blocks d times w = Ok (total, w') →
  let elapsed := List.last times last - last in
  total * 10 ^ 9 ≤ EmissionPerSecondPerPillar * elapsed ≤ (total + Z.of_nat (length times)) * 10 ^ 9 ∧
  GetSupply (w_bank w') d = GetSupply (w_bank w) d + total.
Proof. intros H1' H2' H3' H4' H5'. pose proof (mint_blocks_spec _ _ _ _ _ _ H1' H2' H3' H4' H5'). cbn in *. lia. Qed.

(** Half of every fee is destroyed: after [SplitCollectedFees] the fee collector keeps the floor of
    half of each denom it held, the supply has fallen by the rest (the odd unit burned), the gas-fee
    counter has grown by what was burned, and no other account changed. *)
Theorem SplitCollectedFees_halves w w' :
  SplitCollectedFees w = Ok ((), w') →
  ∀ d, let fees := GetBalance (w_bank w) (NewModuleAddress FeeCollectorName) d in
       let burnt := (fees + 1) / 2 in
  GetBalance (w_bank w') (NewModuleAddress FeeCollectorName) d = fees / 2 ∧
  GetSupply (w_bank w') d = GetSupply (w_bank w) d - burnt ∧
  burned w' SourceGasFees d = burned w SourceGasFees d + burnt ∧
  (∀ s, s ≠ SourceGasFees → burned w' s d = burned w s d) ∧
  (∀ a, a ≠ NewModuleAddress FeeCollectorName → GetBalance (w_bank w') a d = GetBalance (w_bank w) a d).
Proof.
  unfold SplitCollectedFees. intros Hr d. apply bind_ok in Hr as (fees & w1 & [-> ->]%get_bank_ok & Hr).
  destruct (SpendableCoins_spec (w_bank w) FeeCollectorName) as [[Hnd Hpos] Hall].
  set (fees := SpendableCoins _ _) in *. cbn zeta. rewrite <-(Hall d).
  assert (0 ≤ AmountOf fees d) as Hge by (apply AmountOf_nonneg; intros; by apply Z.lt_le_incl, Hpos).
  assert (AmountOf fees d - (AmountOf fees d + 1) / 2 = AmountOf fees d / 2) as Hhalf.
  { pose proof (div_mul_bounds (AmountOf fees d + 1) 2 ltac:(done)).
    pose proof (div_mul_bounds (AmountOf fees d) 2 ltac:(done)). lia. }
  assert (∀ cs, coins_wf cs → CoinsIsZero cs = true → cs = []) as Hzero.
  { intros [|c cs] [_ Hp]; [done|]. cbn. pose proof (Hp c ltac:(left)). lia. }
  destruct (CoinsIsZero fees) eqn:Hz.
  { run_inv. apply Hzero in Hz; [|by split]. rewrite <-(Hall d). rewrite Hz, AmountOf_nil in *.
    repeat split; intros; try done; change ((0 + 1) / 2) with 0; try lia. }
  apply bind_ok in Hr as (burn & w1 & [Hb ->]%lift_ok & Hr). prog_step.
  apply NewCoins_spec in Hpure as [Hn0 Hn1].
  apply burn_halves_spec in Hb as [Hwf Hamt]; [|done..].
  assert (AmountOf burn d = (AmountOf fees d + 1) / 2) as Hbd by (rewrite Hamt, Hn0; done).
  destruct (CoinsIsZero burn) eqn:Hz2.
  { run_inv. apply Hzero in Hz2; [|done]. rewrite <-(Hall d). rewrite Hz2, AmountOf_nil in Hbd.
    repeat split; intros; try done; lia. }
  apply bind_ok in Hr as ([] & w1 & Hs1 & Hr). apply bind_ok in Hr as ([] & w2 & Hs2 & Hr).
  apply RecordBurn_spec in Hr as [[bs ->] Hrec]; [|intros; by apply Z.lt_le_incl, Hwf]. run_inv.
  bank_inv.
  pose proof NewModuleAddress_inj FeeCollectorName earth_ModuleName as Hinj.
  pose proof (Hall d) as Hall'. bank_rw. rewrite !Hrec. cbn.
  split; [|split; [|split; [|split]]].
  - repeat case_bool_decide; simplify_eq; try (by specialize (Hinj ltac:(congruence))); lia.
  - lia.
  - rewrite bool_decide_eq_true_2 by done. unfold burned. cbn. lia.
  - intros s Hs. rewrite Hrec, bool_decide_eq_false_2 by done. unfold burned. cbn. lia.
  - intros acc Hacc. bank_rw. repeat case_bool_decide; simplify_eq; try congruence; lia.
Qed.
End earth_properties.

(** ** Properties of the counters *)
Section counter_properties.
Context `{HostLaws, !ShieldedKeeper}.

(** The burn statistics are the counters: [BurnedBySource] lists every source that burned once, with exactly
    what it burned of each denom, and [TotalBurned] is the sum of the counters over all sources; neither
    writes anything. *)
Theorem burn_statistics_complete w bs total w1 w2 :
  BurnedBySource w = Ok (bs, w1) → TotalBurned w = Ok (total, w2) →
  w1 = w ∧ w2 = w ∧ NoDup (bt_Source <$> bs) ∧
  (∀ b d, b ∈ bs → AmountOf (bt_Amount b) d = burned w (bt_Source b) d) ∧
  (∀ s d v, e_Burned (w_earth w) !! (s, d) = Some v → s ∈ bt_Source <$> bs) ∧
  (∀ d, AmountOf total d = map_sum (λ k v, if bool_decide (snd k = d) then v else 0) (e_Burned (w_earth w))).
Proof.
  intros Hb Ht. apply BurnedBySource_spec in Hb as (-> & Hnd & Hbs & Hall & _). unfold TotalBurned, walk_burned in Ht.
  apply bind_ok in Ht as (s & w3 & [-> ->]%gets_ok & [Ht ->]%lift_ok).
  apply TotalBurned_fold in Ht as (t & [= <-] & Ht). split_and!; try done.
  - intros b d Hb. by apply Hbs.
  - intros d. rewrite Ht, AmountOf_nil.
    rewrite Z.add_0_l. exact (iter_map_sum (λ (k : string * string) (v : Z), if bool_decide (snd k = d) then v else 0) _).
Qed.

Lemma setBurned_spec source coins w w' :
  coins_wf coins → setBurned source coins w = Ok ((), w') →
  w' = upd_earth (λ _, w_earth w') w ∧ e_LastMintTime (w_earth w') = e_LastMintTime (w_earth w) ∧
  ∀ s d, burned w' s d = if bool_decide (s = source ∧ d ∈ Denom <$> coins) then AmountOf coins d else burned w s d.
Proof.
  unfold setBurned. intros [Hnd Hpos]. revert w. induction coins as [|c coins IH]; intros w Hr.
  - apply ret_ok in Hr as [= ->]. split; [by destruct w|]. split; [done|]. intros s d.
    rewrite bool_decide_eq_false_2; [done|]. by intros [_ ?%elem_of_nil].
  - cbn [fmap list_fmap] in Hnd. apply NoDup_cons in Hnd as [Hc Hnd]. pose proof (Hpos c ltac:(left)) as Hcp.
    apply bind_ok in Hr as ([] & w1 & Hset & Hr). replace (0 <? Amount c) with true in Hset by lia. cbn [negb] in Hset.
    apply set_earth_ok in Hset as ->.
    apply IH in Hr as (Hw & Hl & Hb); [|done|intros x Hx; apply Hpos; by right].
    split; [by rewrite Hw|]. split; [by rewrite Hl|]. intros s d. rewrite Hb, AmountOf_cons. unfold burned. cbn.
    destruct (decide (s = source)) as [->|Hs].
    + destruct (decide (d ∈ Denom <$> coins)) as [Hd|Hd].
      * rewrite bool_decide_eq_true_2 by done. rewrite (bool_decide_eq_true_2 (_ ∧ _)) by (split; [done|by right]).
        rewrite bool_decide_eq_false_2; [lia|]. intros E. by rewrite E in Hc.
      * rewrite bool_decide_eq_false_2 by (by intros [_ ?]). destruct (decide (Denom c = d)) as [<-|Hcd].
        -- rewrite lookup_insert_eq, !bool_decide_eq_true_2 by (done || (split; [done|left])).
           rewrite AmountOf_notin by done. cbn. lia.
        -- rewrite lookup_insert_ne by congruence. rewrite bool_decide_eq_false_2; [done|].
           intros [_ [E|E]%elem_of_cons]; congruence || done.
    + rewrite !bool_decide_eq_false_2 by (by intros [? _]). rewrite lookup_insert_ne by congruence. done.
Qed.

Lemma init_burned (bs : list BurnTotal) w w' :
  NoDup (bt_Source <$> bs) → (∀ b, b ∈ bs → coins_wf (bt_Amount b)) →
  for_each bs (λ b, setBurned (bt_Source b) (bt_Amount b)) w = Ok ((), w') →
  w' = upd_earth (λ _, w_earth w') w ∧
  (∀ b d, b ∈ bs → burned w' (bt_Source b) d =
     if bool_decide (d ∈ Denom <$> bt_Amount b) then AmountOf (bt_Amount b) d else burned w (bt_Source b) d) ∧
  (∀ s d, s ∉ bt_Source <$> bs → burned w' s d = burned w s d).
Proof.
  revert w. induction bs as [|b bs IH]; intros w Hnd Hwf Hr.
  - apply ret_ok in Hr as [= ->]. split; [by destruct w|]. split; [by intros ? ? ?%elem_of_nil|done].
  - cbn [fmap list_fmap] in Hnd. apply NoDup_cons in Hnd as [Hb Hnd].
    apply bind_ok in Hr as ([] & w1 & Hset & Hr). pose proof (Hwf b ltac:(left)) as Hwb.
    apply setBurned_spec in Hset as (Hw1 & _ & Hset); [|done].
    assert (∀ s d, s ≠ bt_Source b → burned w1 s d = burned w s d) as Hother.
    { intros s d Hs. rewrite Hset, bool_decide_eq_false_2; [done|]. by intros [? _]. }
    apply IH in Hr as (Hw & Hin & Hout); [|done|intros x Hx; apply Hwf; by right].
    split; [rewrite Hw, Hw1; done|]. split.
    + intros x d [->|Hx]%elem_of_cons.
      * rewrite Hout, Hset by done. rewrite (bool_decide_ext _ (d ∈ Denom <$> bt_Amount b)); [done|]. tauto.
      * rewrite Hin, Hother; [done| |done]. intros E. apply Hb. rewrite <-E. by apply list_elem_of_fmap_2.
    + intros s d Hs. apply not_elem_of_cons in Hs as [? ?]. rewrite Hout by done. by apply Hother.
Qed.

Lemma validate_burned_ok (coinsValid : Coins → bool) bs (seen : gset string) u :
  validate_burned coinsValid bs seen = Ok u →
  NoDup (bt_Source <$> bs) ∧ (∀ b, b ∈ bs → coinsValid (bt_Amount b) = true ∧ bt_Source b ∉ seen).
Proof.
  revert seen. induction bs as [|b bs IH]; intros seen Hr; cbn [validate_burned] in Hr.
  - split; [constructor|]. by intros ? ?%elem_of_nil.
  - apply outcome_bind_ok in Hr as ([] & _ & Hr).
    apply outcome_bind_ok in Hr as ([] & Hs%refuse_ok & Hr). apply bool_decide_eq_false in Hs.
    apply outcome_bind_ok in Hr as ([] & Hv%refuse_ok & Hr). apply negb_false_iff in Hv.
    apply IH in Hr as [Hnd Hall]. split.
    + cbn. apply NoDup_cons. split; [|done]. intros (x & E & Hx)%list_elem_of_fmap.
      destruct (Hall x Hx) as [_ Hn]. apply Hn, elem_of_union_l, elem_of_singleton. by symmetry.
    + intros x [->|Hx]%elem_of_cons; [done|]. destruct (Hall x Hx) as [? Hn]. split; [done|].
      intros E. by apply Hn, elem_of_union_r.
Qed.

(** The genesis carries the counters over: importing a validated genesis into an empty store and exporting
    it again gives the same totals per source and denom, invents no source, and gives the same mint clock,
    moved up to the import's block time if the chain was stopped in between (a clock that never
    started stays at zero). *)
Theorem earth_genesis_round_trip coinsValid gs gs' w w1 w2 :
  (∀ cs, coinsValid cs = true → coins_wf cs) → e_Burned (w_earth w) = ∅ →
  EarthInitGenesis coinsValid gs w = Ok ((), w1) → EarthExportGenesis w1 = Ok (gs', w2) →
  w2 = w1 ∧
  (∀ b d, b ∈ eg_Burned gs → burned w1 (bt_Source b) d = AmountOf (bt_Amount b) d) ∧
  (∀ b', b' ∈ eg_Burned gs' →
     (∀ d, AmountOf (bt_Amount b') d = 0) ∨
     ∃ b, b ∈ eg_Burned gs ∧ bt_Source b = bt_Source b' ∧ ∀ d, AmountOf (bt_Amount b') d = AmountOf (bt_Amount b) d) ∧
  (∀ b, b ∈ eg_Burned gs → bt_Amount b ≠ [] → bt_Source b ∈ bt_Source <$> eg_Burned gs') ∧
  eg_LastMintTime gs' = (if eg_LastMintTime gs =? 0 then 0 else Z.max (eg_LastMintTime gs) (w_nanos w)).
Proof.
  intros Hcv Hemp Hi He. unfold EarthInitGenesis, EarthGenesisValidate in Hi.
  apply bind_ok in Hi as ([] & v1 & [Hval ->]%lift_ok & Hi).
  apply outcome_bind_ok in Hval as ([] & [Hnd Hall]%validate_burned_ok & _).
  apply bind_ok in Hi as ([] & v1 & Hloop & Hi).
  apply init_burned in Hloop as (Hv1 & Hin & Hout); [|done|intros b Hb; by apply Hcv, Hall].
  apply bind_ok in Hi as (t & v2 & [-> ->]%gets_ok & ->%set_earth_ok).
  assert (∀ s d, burned w s d = 0) as Hz by (intros s d; unfold burned; by rewrite Hemp, lookup_empty).
  set (w1' := upd_earth _ v1) in *. assert (∀ s d, burned w1' s d = burned v1 s d) as Hsame by done.
  unfold EarthExportGenesis, GetLastMintTime in He.
  apply bind_ok in He as (bs & v3 & (-> & Hnd' & Hbs & Hdom & _)%BurnedBySource_spec & He).
  apply bind_ok in He as (l & v3 & [-> ->]%get_earth_ok & [= -> ->]%ret_ok). cbn [eg_Burned eg_LastMintTime].
  assert (∀ b d, b ∈ eg_Burned gs → burned w1' (bt_Source b) d = AmountOf (bt_Amount b) d) as Hb1.
  { intros b d Hb. rewrite Hsame, (Hin b d Hb), Hz. case_bool_decide as Hd; [done|]. by rewrite AmountOf_notin. }
  split; [done|]. split; [exact Hb1|]. split; [|split].
  - intros b' Hb'. destruct (decide (bt_Source b' ∈ bt_Source <$> eg_Burned gs)) as [Hs|Hs].
    + right. apply list_elem_of_fmap in Hs as (b & E & Hb). exists b. split; [done|]. split; [done|].
      intros d. rewrite (Hbs _ Hb'), E. by apply Hb1.
    + left. intros d. rewrite (Hbs _ Hb'), Hsame, Hout by done. apply Hz.
  - intros b Hb Hne. destruct (Hall b Hb) as [Hv _]. apply Hcv in Hv as [_ Hpos].
    destruct (bt_Amount b) as [|c cs] eqn:Hc; [done|].
    assert (0 < burned w1' (bt_Source b) (Denom c)) as Hpb.
    { rewrite (Hb1 _ _ Hb), Hc, AmountOf_cons, bool_decide_eq_true_2 by done.
      pose proof (Hpos c ltac:(left)). assert (0 ≤ AmountOf cs (Denom c)); [|lia].
      apply AmountOf_nonneg. intros x Hx. by apply Z.lt_le_incl, Hpos; right. }
    unfold burned in Hpb. destruct (e_Burned (w_earth w1') !! (bt_Source b, Denom c)) as [v|] eqn:Hl; [|cbn in Hpb; lia].
    by eapply Hdom.
  - cbn. rewrite Hv1. cbn. unfold resumeClock. destruct (Z.eqb_spec (eg_LastMintTime gs) 0) as [->|]; [done|].
    destruct (Z.ltb_spec (eg_LastMintTime gs) (w_nanos w)); cbn; lia.
Qed.
End counter_properties.
