(* ===== verification/DexAmm.v ===== *)
(** * x/dex: the pricing arithmetic

    [x/dex/keeper/amm.go].  Reserves and amounts are [math.Int]s, so every operation can
    panic past 256 bits; [big.Int] operations are exact.  The lemmas give the value of each
    operation, the theorems its bounds. *)

From S2P Require Export DexTypes.

Section amm.
Context `{SdkMath}.

(** [oneHundredPercent] *)
Definition oneHundredPercent : Z := NewDecFromInt 100.

Definition feeOf (amount swapFee : Z) : outcome Z :=
  d ← DecMul (NewDecFromInt amount) swapFee;
  d ← DecQuo d oneHundredPercent;
  d ← DecCeil d;
  DecTruncateInt d.

(** [big.Int.Sqrt] panics on a negative number. *)
Definition initialShares (reserveErth reserveToken : Z) : outcome Z :=
  let p := reserveErth * reserveToken in
  if p <? 0 then Panic else NewIntFromBigInt (Z.sqrt p).

Definition mulDivRound (a b c : Z) (up : bool) : outcome Z :=
  _ ← refuse (negb (0 <? c) || (a <? 0) || (b <? 0)) (Plain "mulDiv: invalid operands");
  let '(q, r) := Z.quotrem (a * b) c in
  let q := if up && negb (r =? 0) then q + 1 else q in
  _ ← refuse (negb (fits_int q)) (Plain "mulDiv: result out of range");
  NewIntFromBigInt q.

Definition mulDiv (a b c : Z) : outcome Z := mulDivRound a b c false.
Definition mulDivUp (a b c : Z) : outcome Z := mulDivRound a b c true.

Record hopResult := {
  amountOut : Z;
  burnErth : Z;
  feeErth : Z;
  volumeErth : Z;
  newReserveErth : Z;
  newReserveToken : Z;
}.

(** (burn, pool) *)
Definition splitFee (feeErth : Z) : outcome (Z * Z) :=
  s ← IntAdd feeErth 1;
  burn ← IntQuo s 2;
  pool ← IntSub feeErth burn;
  mret (burn, pool).

Definition swapTokenForHub (reserveErth reserveToken amountTokenIn swapFee : Z) : outcome hopResult :=
  num ← IntMul reserveErth amountTokenIn;
  den ← IntAdd reserveToken amountTokenIn;
  grossErth ← IntQuo num den;
  feeErth ← feeOf grossErth swapFee;
  '(burn, _) ← splitFee feeErth;
  userErth ← IntSub grossErth feeErth;
  e1 ← IntSub reserveErth userErth;
  newErth ← IntSub e1 burn;
  newToken ← IntAdd reserveToken amountTokenIn;
  mret {| amountOut := userErth; burnErth := burn; feeErth := feeErth;
          volumeErth := grossErth; newReserveErth := newErth; newReserveToken := newToken |}.

Definition swapHubForToken (reserveErth reserveToken amountErthIn swapFee : Z) : outcome hopResult :=
  feeErth ← feeOf amountErthIn swapFee;
  '(burn, _) ← splitFee feeErth;
  effectiveIn ← IntSub amountErthIn feeErth;
  num ← IntMul reserveToken effectiveIn;
  den ← IntAdd reserveErth effectiveIn;
  tokenOut ← IntQuo num den;
  e1 ← IntAdd reserveErth amountErthIn;
  newErth ← IntSub e1 burn;
  newToken ← IntSub reserveToken tokenOut;
  mret {| amountOut := tokenOut; burnErth := burn; feeErth := feeErth;
          volumeErth := amountErthIn; newReserveErth := newErth; newReserveToken := newToken |}.

End amm.

(** ** What the operations compute *)
Section amm_lemmas.
Context `{SdkMathLaws}.

Lemma quotrem_pair a b : Z.quotrem a b = (Z.quot a b, Z.rem a b).
Proof. unfold Z.quot, Z.rem. by destruct (Z.quotrem a b). Qed.

Lemma mulDivRound_ok a b c up q :
  mulDivRound a b c up = Ok q ↔
  0 < c ∧ 0 ≤ a ∧ 0 ≤ b ∧ fits_int q = true ∧
  q = a * b / c + (if up && negb (a * b mod c =? 0) then 1 else 0).
Proof.
  unfold mulDivRound. rewrite quotrem_pair. split.
  - intros Hq. host_inv; rewrite quot_div_nonneg, Z.rem_mod_nonneg in * by nia;
      repeat split; try lia; try (by apply negb_false_iff); case_match; lia.
  - intros (Hc & Ha & Hb & Hfit & Hq).
    assert ((negb (0 <? c) || (a <? 0) || (b <? 0)) = false) as -> by lia. cbn.
    rewrite quot_div_nonneg, Z.rem_mod_nonneg by nia.
    replace (if up && negb (a * b mod c =? 0) then a * b / c + 1 else a * b / c) with q
      by (case_match; lia).
    rewrite Hfit. cbn. by rewrite NewIntFromBigInt_spec, Hfit.
Qed.

Lemma mulDiv_ok a b c q :
  mulDiv a b c = Ok q ↔ 0 < c ∧ 0 ≤ a ∧ 0 ≤ b ∧ fits_int q = true ∧ q = a * b / c.
Proof. unfold mulDiv. rewrite mulDivRound_ok. cbn. rewrite Z.add_0_r. done. Qed.

(** The rounded-up quotient is the least [q] with [a * b <= q * c]. *)
Lemma mulDivUp_ok a b c q :
  mulDivUp a b c = Ok q →
  0 < c ∧ 0 ≤ a ∧ 0 ≤ b ∧ (q - 1) * c < a * b ≤ q * c.
Proof.
  unfold mulDivUp. rewrite mulDivRound_ok. intros (Hc & Ha & Hb & _ & Hq).
  pose proof (Z.div_mod (a * b) c ltac:(lia)). pose proof (Z.mod_pos_bound (a * b) c Hc).
  cbn in Hq. repeat split; try done; destruct (Z.eqb_spec (a * b mod c) 0); cbn in Hq; nia.
Qed.

(** A share of at most the whole never overflows. *)
Lemma mulDiv_total a b c :
  0 ≤ a → 0 ≤ b ≤ c → 0 < c → fits_int a = true → ∃ q, mulDiv a b c = Ok q ∧ 0 ≤ q ≤ a.
Proof.
  intros Ha Hb Hc Hfit%fits_int_spec. pose proof (div_mul_bounds (a * b) c Hc).
  exists (a * b / c). assert (0 ≤ a * b / c ≤ a) by (split; [apply Z.div_pos|]; nia).
  split; [|done]. rewrite mulDiv_ok. rewrite fits_int_spec. repeat split; try done; lia.
Qed.

(** The fee, in 10^-20 parts of the amount: the nearest unit of [amount * swapFee / 100],
    rounded up to an integer. *)
Lemma feeOf_ok a f r :
  0 ≤ a → 0 ≤ f → feeOf a f = Ok r → a * f - 50 ≤ r * 10 ^ 20 < a * f + 50 + 10 ^ 20.
Proof.
  intros Ha Hf. unfold feeOf, oneHundredPercent. rewrite !NewDecFromInt_spec. unfold dec_one.
  intros Hr. prog_inv.
  apply DecMul_spec in Hpure. apply DecQuo_spec in Hpure0; [|done].
  apply DecCeil_spec in Hpure1. apply DecTruncateInt_spec in Hr. unfold dec_one in *.
  assert (a0 = a * f) as -> by lia. subst a2.
  rewrite Z.quot_mul in Hr by done. subst r.
  pose proof (Z.div_mod (- a1) (10 ^ 18) ltac:(done)).
  pose proof (Z.mod_pos_bound (- a1) (10 ^ 18) ltac:(done)). lia.
Qed.

Lemma feeOf_nonneg a f r : 0 ≤ a → 0 ≤ f → feeOf a f = Ok r → 0 ≤ r.
Proof. intros Ha Hf Hr%feeOf_ok; [nia|done|done]. Qed.

(** With [swap_fee] at most 100%, the fee is at most the amount. *)
Lemma feeOf_le a f r : 0 ≤ a → 0 ≤ f ≤ 100 * 10 ^ 18 → feeOf a f = Ok r → r ≤ a.
Proof.
  intros Ha [Hf Hle]. unfold feeOf, oneHundredPercent. rewrite !NewDecFromInt_spec. unfold dec_one.
  intros Hr. prog_inv.
  apply DecMul_spec in Hpure. apply DecQuo_spec in Hpure0; [|done].
  apply DecCeil_spec in Hpure1. apply DecTruncateInt_spec in Hr. unfold dec_one in *.
  assert (a0 = a * f) as -> by lia. subst a2.
  rewrite Z.quot_mul in Hr by done. subst r.
  assert (a1 ≤ a * 10 ^ 18) by nia.
  assert (- a ≤ - a1 / 10 ^ 18); [|lia]. apply Z.div_le_lower_bound; lia.
Qed.

Lemma splitFee_ok fee burn pool :
  0 ≤ fee → splitFee fee = Ok (burn, pool) →
  burn + pool = fee ∧ 0 ≤ pool ≤ burn ∧ burn ≤ pool + 1.
Proof.
  intros Hfee. unfold splitFee. intros Hs. host_inv. rewrite quot_div_nonneg by lia.
  pose proof (div_mul_bounds (fee + 1) 2). lia.
Qed.

(** A token -> hub hop: the user's part, the burn and the pool's half of the fee make the gross
    output, which is the floor of the curve's price. *)
Lemma swapTokenForHub_ok E T x f r :
  0 ≤ E → 0 ≤ T → 0 ≤ x → 0 < T + x → 0 ≤ f ≤ 100 * 10 ^ 18 → swapTokenForHub E T x f = Ok r →
  volumeErth r = E * x / (T + x) ∧
  0 ≤ burnErth r ∧ burnErth r ≤ feeErth r ≤ volumeErth r ∧
  amountOut r = volumeErth r - feeErth r ∧
  newReserveErth r = E - amountOut r - burnErth r ∧
  newReserveToken r = T + x.
Proof.
  intros HE HT Hx HTx Hf. unfold swapTokenForHub. intros Hr. host_inv. cbn.
  rewrite quot_div_nonneg in * by nia. set (g := E * x / (T + x)) in *.
  assert (0 ≤ g) by (apply Z.div_pos; nia).
  match goal with Hfee : feeOf ?a _ = Ok ?r |- _ =>
    pose proof (feeOf_nonneg a f r ltac:(lia) ltac:(lia) Hfee);
    pose proof (feeOf_le a f r ltac:(lia) Hf Hfee) end.
  match goal with Hsp : splitFee _ = Ok _ |- _ => apply splitFee_ok in Hsp; [|lia] end.
  lia.
Qed.

Lemma swapHubForToken_ok E T x f r :
  0 ≤ E → 0 ≤ T → 0 ≤ x → 0 < E + x → 0 ≤ f ≤ 100 * 10 ^ 18 → swapHubForToken E T x f = Ok r →
  volumeErth r = x ∧
  0 ≤ burnErth r ∧ burnErth r ≤ feeErth r ≤ x ∧
  0 < E + (x - feeErth r) ∧
  amountOut r = T * (x - feeErth r) / (E + (x - feeErth r)) ∧
  newReserveErth r = E + x - burnErth r ∧
  newReserveToken r = T - amountOut r.
Proof.
  intros HE HT Hx HEx Hf. unfold swapHubForToken. intros Hr. host_inv. cbn.
  match goal with Hfee : feeOf ?a _ = Ok ?r |- _ =>
    pose proof (feeOf_nonneg a f r ltac:(lia) ltac:(lia) Hfee);
    pose proof (feeOf_le a f r ltac:(lia) Hf Hfee) end.
  match goal with Hsp : splitFee _ = Ok _ |- _ => apply splitFee_ok in Hsp; [|lia] end.
  rewrite quot_div_nonneg by nia. lia.
Qed.

(** Within the chain's caps no operation overflows. *)
Lemma is_ok_ex {A} (o : outcome A) : is_ok o = true → ∃ a, o = Ok a.
Proof. destruct o; cbn; try done. eauto. Qed.

Lemma feeOf_total a f :
  0 ≤ a ≤ 2 ^ 120 → 0 ≤ f ≤ 10 * 10 ^ 18 → ∃ r, feeOf a f = Ok r.
Proof.
  intros Ha Hf. unfold feeOf, oneHundredPercent. rewrite !NewDecFromInt_spec. unfold dec_one.
  assert (0 ≤ a * f ≤ 2 ^ 120 * (10 * 10 ^ 18)) by nia.
  destruct (is_ok_ex (DecMul (a * 10 ^ 18) f)) as [d1 Hd1].
  { apply DecMul_total. unfold MaxBitLen. nia. }
  rewrite Hd1. cbn. apply DecMul_spec in Hd1. unfold dec_one in *.
  assert (d1 = a * f) as -> by lia.
  destruct (is_ok_ex (DecQuo (a * f) (100 * 10 ^ 18))) as [d2 Hd2].
  { apply DecQuo_total; [done|]. unfold MaxBitLen, dec_one. lia. }
  change (100 * 1000000000000000000) with (100 * 10 ^ 18). rewrite Hd2. cbn.
  apply DecQuo_spec in Hd2; [|done]. unfold dec_one in *.
  destruct (is_ok_ex (DecCeil d2)) as [d3 Hd3].
  { apply DecCeil_total. unfold MaxBitLen. lia. }
  rewrite Hd3. cbn. apply DecCeil_spec in Hd3. unfold dec_one in *.
  apply is_ok_ex, DecTruncateInt_total. unfold MaxBitLen.
  pose proof (Z.div_mod (- d2) (10 ^ 18) ltac:(done)).
  pose proof (Z.mod_pos_bound (- d2) (10 ^ 18) ltac:(done)). lia.
Qed.

Lemma IntAdd_total a b : fits_int (a + b) = true → IntAdd a b = Ok (a + b).
Proof. intros. by apply IntAdd_ok. Qed.
Lemma IntSub_total a b : fits_int (a - b) = true → IntSub a b = Ok (a - b).
Proof. intros. by apply IntSub_ok. Qed.
Lemma IntMul_total a b : fits_int (a * b) = true → IntMul a b = Ok (a * b).
Proof. intros. by apply IntMul_ok. Qed.
Lemma IntQuo_total a b : b ≠ 0 → IntQuo a b = Ok (Z.quot a b).
Proof. intros. by apply IntQuo_ok. Qed.

Lemma splitFee_total fee : 0 ≤ fee ≤ 2 ^ 130 → ∃ burn pool, splitFee fee = Ok (burn, pool).
Proof.
  intros Hfee. unfold splitFee. rewrite IntAdd_total by (apply fits_int_spec; lia). cbn.
  rewrite IntQuo_total by done. cbn. rewrite quot_div_nonneg by lia.
  pose proof (div_mul_bounds (fee + 1) 2 ltac:(done)).
  rewrite IntSub_total by (apply fits_int_spec; lia). cbn. eauto.
Qed.
End amm_lemmas.

(** Evaluate a host call whose range condition is arithmetic. *)
Ltac int_total :=
  match goal with
  | |- context [IntAdd ?a ?b] => rewrite (IntAdd_total a b) by (apply fits_int_spec; nia)
  | |- context [IntSub ?a ?b] => rewrite (IntSub_total a b) by (apply fits_int_spec; nia)
  | |- context [IntMul ?a ?b] => rewrite (IntMul_total a b) by (apply fits_int_spec; nia)
  | |- context [IntQuo ?a ?b] => rewrite (IntQuo_total a b) by nia
  end; cbn [mbind outcome_bind].

(** ** Properties of the curve *)
Section amm_properties.
Context `{SdkMathLaws}.

Lemma swapTokenForHub_product E T x f r :
  0 ≤ E → 0 ≤ T → 0 ≤ x → 0 < T + x → 0 ≤ f ≤ 100 * 10 ^ 18 → swapTokenForHub E T x f = Ok r →
  E * T ≤ newReserveErth r * newReserveToken r ∧ 0 ≤ newReserveErth r ∧ (0 < E → 0 < T → 0 < newReserveErth r).
Proof.
  intros HE HT Hx HTx Hf Hr.
  apply swapTokenForHub_ok in Hr as (Hv & Hb & [Hbf Hfv] & Ho & -> & ->); [|lia..].
  pose proof (div_mul_bounds (E * x) (T + x) ltac:(lia)) as Hg. rewrite <-Hv in Hg.
  assert (volumeErth r ≤ E) by nia. split; [|split; [lia|intros; nia]].
  transitivity ((E - volumeErth r) * (T + x)); [nia|]. apply Z.mul_le_mono_nonneg_r; lia.
Qed.

Lemma swapHubForToken_product E T x f r :
  0 ≤ E → 0 ≤ T → 0 ≤ x → 0 < E + x → 0 ≤ f ≤ 100 * 10 ^ 18 → swapHubForToken E T x f = Ok r →
  E * T ≤ newReserveErth r * newReserveToken r ∧ 0 < newReserveErth r ∧ 0 ≤ newReserveToken r ∧
  (0 < E → 0 < T → 0 < newReserveToken r) ∧ 0 ≤ amountOut r.
Proof.
  intros HE HT Hx HEx Hf Hr.
  apply swapHubForToken_ok in Hr as (Hv & Hb & [Hbf Hfv] & HEx' & Ho & -> & ->); [|lia..].
  set (e := x - feeErth r) in *.
  pose proof (div_mul_bounds (T * e) (E + e) ltac:(lia)) as Hg. rewrite <-Ho in Hg.
  assert (amountOut r ≤ T) by nia. assert (0 ≤ amountOut r) by (rewrite Ho; apply Z.div_pos; nia).
  split; [|split; [lia|split; [lia|split; [intros; nia|done]]]].
  transitivity ((E + e) * (T - amountOut r)); [nia|]. apply Z.mul_le_mono_nonneg_r; lia.
Qed.

(** C28: The constant product never decreases: whichever way a hop goes, the product of the
    reserves after it is at least the product before, and both reserves stay positive. *)
Theorem hop_constant_product E T x f r :
  0 < E → 0 < T → 0 ≤ x → 0 ≤ f ≤ 100 * 10 ^ 18 →
  swapTokenForHub E T x f = Ok r ∨ swapHubForToken E T x f = Ok r →
  E * T ≤ newReserveErth r * newReserveToken r ∧ 0 < newReserveErth r ∧ 0 < newReserveToken r.
Proof.
  intros HE HT Hx Hf [Hr|Hr].
  - pose proof Hr as (_ & _ & _ & _ & _ & Ht)%swapTokenForHub_ok; [|lia..].
    apply swapTokenForHub_product in Hr; [|lia..]. intuition lia.
  - apply swapHubForToken_product in Hr; [|lia..]. intuition lia.
Qed.

(** No profit from a round trip: ERTH sold for the token and sold straight back returns at most
    the ERTH paid, less the ERTH the first hop burned. *)
Theorem hop_round_trip_no_profit E T x f r1 r2 :
  0 < E → 0 < T → 0 ≤ x → 0 ≤ f ≤ 100 * 10 ^ 18 →
  swapHubForToken E T x f = Ok r1 →
  swapTokenForHub (newReserveErth r1) (newReserveToken r1) (amountOut r1) f = Ok r2 →
  amountOut r2 ≤ x - burnErth r1.
Proof.
  intros HE HT Hx Hf H1 H2.
  apply swapHubForToken_ok in H1 as (_ & Hb & [Hbf Hfv] & HEx & Ho & He & Ht); [|lia..].
  set (e := x - feeErth r1) in *. set (y := amountOut r1) in *.
  pose proof (div_mul_bounds (T * e) (E + e) ltac:(lia)) as Hg. rewrite <-Ho in Hg.
  assert (0 ≤ y < T) by (split; [rewrite Ho; apply Z.div_pos|]; nia).
  rewrite He, Ht in H2.
  apply swapTokenForHub_ok in H2 as (Hv & Hb2 & [Hbf2 Hfv2] & Ho2 & _); [|lia..].
  replace (T - y + y) with T in Hv by lia.
  pose proof (div_mul_bounds ((E + x - burnErth r1) * y) T ltac:(lia)) as Hg2. rewrite <-Hv in Hg2.
  set (g := volumeErth r2) in *. set (E' := E + x - burnErth r1) in *.
  assert (g * (E + e) ≤ E' * e).
  { apply (Z.mul_le_mono_pos_r _ _ T); [lia|]. nia. }
  assert (g ≤ e + (feeErth r1 - burnErth r1)); [|lia]. nia.
Qed.

(** Pricing within the caps always returns: with reserves and input at most [MaxPoolAmount]
    and [swap_fee] at most [MaxSwapFee], neither direction panics. *)
Theorem hop_within_cap_returns E T x f :
  0 < E ≤ MaxPoolAmount → 0 < T ≤ MaxPoolAmount → 0 ≤ x ≤ MaxPoolAmount →
  0 ≤ f ≤ MaxSwapFee →
  (∃ r, swapTokenForHub E T x f = Ok r) ∧ (∃ r, swapHubForToken E T x f = Ok r).
Proof.
  unfold MaxPoolAmount, MaxSwapFee. rewrite Z.shiftl_1_l, !NewDecFromInt_spec.
  unfold dec_one. intros HE HT Hx Hf. split.
  - unfold swapTokenForHub. repeat int_total. rewrite quot_div_nonneg by nia.
    set (g := E * x / (T + x)).
    assert (0 ≤ g ≤ E) by (subst g; split; [apply Z.div_pos|apply Z.div_le_upper_bound]; nia).
    destruct (feeOf_total g f) as [fee Hfee]; [lia..|]. rewrite Hfee. cbn.
    pose proof (feeOf_nonneg g f fee ltac:(lia) ltac:(lia) Hfee).
    pose proof (feeOf_le g f fee ltac:(lia) ltac:(lia) Hfee).
    destruct (splitFee_total fee) as (burn & pool & Hs); [lia|]. rewrite Hs. cbn.
    apply splitFee_ok in Hs; [|lia]. repeat int_total. eauto.
  - unfold swapHubForToken.
    destruct (feeOf_total x f) as [fee Hfee]; [lia..|]. rewrite Hfee. cbn.
    pose proof (feeOf_nonneg x f fee ltac:(lia) ltac:(lia) Hfee).
    pose proof (feeOf_le x f fee ltac:(lia) ltac:(lia) Hfee).
    destruct (splitFee_total fee) as (burn & pool & Hs); [lia|]. rewrite Hs. cbn.
    apply splitFee_ok in Hs; [|lia].
    assert (0 ≤ T * (x - fee) ≤ 2 ^ 240) by nia.
    repeat int_total. rewrite quot_div_nonneg by nia.
    assert (0 ≤ T * (x - fee) / (E + (x - fee)) ≤ T)
      by (split; [apply Z.div_pos|apply Z.div_le_upper_bound]; nia).
    repeat int_total. eauto.
Qed.
End amm_properties.
