(* ===== verification/DexKeeper.v ===== *)
(** * x/dex: the keeper

    The reads and writes the rest of the module is built on ([x/dex/keeper/keeper.go], the getters of
    [lp_rewards.go] and [auction.go], [shares.go], and [SetPool], the one writer of a pool record, from
    [solvency.go]). *)

From S2P Require Export World.

Section dex_keeper.
Context `{Host, !ShieldedKeeper}.

(** ** keeper.go *)
Definition HubDenom : M string := lift BondDenom.

Definition HasPoolForToken (tokenDenom : string) : M bool :=
  get_dex (λ s, bool_decide (is_Some (k_PoolByToken s !! tokenDenom))).

Definition PoolGet (poolID : Z) : M Pool := item (λ s, k_Pool s !! poolID).

Definition PoolForToken (tokenDenom : string) : M Pool :=
  poolID ← item (λ s, k_PoolByToken s !! tokenDenom);
  PoolGet poolID.

(** [k.shielded] is the wired keeper, never nil. *)
Definition isShieldedOnly (denom : string) : bool := IsShieldedOnly denom.

Definition refuseShieldedOnly (denoms : list string) : outcome () :=
  refuse (existsb isShieldedOnly denoms) ErrShieldedOnly.

(** [Sequence.Next] *)
Definition PoolSeqNext : M Z :=
  n ← get_dex k_PoolSeq;
  set_dex (set_k_PoolSeq (λ n, n + 1));;
  mret n.

(** ** shares.go *)
Definition mintShares (recipient : bytes) (shares : Coin) : M () :=
  coins ← lift (NewCoins [shares]);
  bank (MintCoins ModuleName coins);;
  bank (SendCoinsFromModuleToAccount ModuleName recipient coins).

Definition escrowShares (owner : bytes) (shares : Coin) : M () :=
  coins ← lift (NewCoins [shares]);
  bank (SendCoinsFromAccountToModule owner ModuleName coins).

Definition burnEscrowedShares (shares : Coin) : M () :=
  coins ← lift (NewCoins [shares]);
  bank (BurnCoins ModuleName coins).

(** The amount of the coin [totalShares] returns; its denom is the argument's. *)
Definition totalShares (poolID : Z) : M Z := get_bank (λ b, GetSupply b (LPShareDenom poolID)).

(** ** Getters with zero defaults: lp_rewards.go, solvency.go *)
Definition getLpRewardIndex : M Z := get_dex (λ s, default 0 (k_LpRewardIndex s)).
Definition getLpTotalVolume : M Z := get_dex (λ s, default 0 (k_LpTotalVolume s)).
Definition getPoolLpIndex (poolID : Z) : M Z := get_dex (λ s, default 0 (k_PoolLpIndex s !! poolID)).
Definition getPendingLpRewards : M Z := get_dex (λ s, default 0 (k_PendingLpRewards s)).
Definition getTotalPoolErth : M Z := get_dex (λ s, default 0 (k_TotalPoolErth s)).

Definition initPoolLpIndex (poolID : Z) : M () :=
  idx ← getLpRewardIndex;
  set_dex (set_k_PoolLpIndex <[poolID := idx]>).

(** ** auction.go *)
Definition getAuction : M LiquidityAuction := λ w,
  match k_LiquidityAuction (w_dex w) with
  | Some a => Ok (a, w)
  | None => Err ErrAuctionUnavailable
  end.

Definition PoolCreationLocked : M bool :=
  a ← get_dex k_LiquidityAuction;
  mret (match a with
        | None => false
        | Some a => negb (bool_decide (la_Status a = AUCTION_STATUS_SETTLED))
        end).

(** ** SetPool: solvency.go *)
Definition overCap (a : Z) : bool := MaxPoolAmount <? a.

Definition SetPool (poolID : Z) (pool : Pool) : M () :=
  refuse_if (overCap (Amount (pl_ReserveErth pool)) || overCap (Amount (pl_ReserveToken pool))) ErrPoolCap;;
  refuse_if (IsLPShareDenom (Denom (pl_ReserveToken pool)) || IsLPShareDenom (Denom (pl_ReserveErth pool)))
    ErrLpShareDenom;;
  prev ← get_dex (λ s, k_Pool s !! poolID);
  let prevErth := match prev with Some p => Amount (pl_ReserveErth p) | None => 0 end in
  let newErth := Amount (pl_ReserveErth pool) in
  delta ← lift (IntSub newErth prevErth);
  (if delta =? 0 then mret () else
     total ← getTotalPoolErth;
     total ← lift (IntAdd total delta);
     set_dex (set_k_TotalPoolErth (λ _, Some (if total <? 0 then 0 else total))));;
  set_dex (set_k_DirtyPools (λ X, {[poolID]} ∪ X));;
  set_dex (set_k_Pool <[poolID := pool]>).

End dex_keeper.

(** The store after [SetPool]. *)
Definition after_SetPool (poolID : Z) (pool : Pool) (s : DexStore) : DexStore :=
  let prevErth := match k_Pool s !! poolID with Some p => Amount (pl_ReserveErth p) | None => 0 end in
  let delta := Amount (pl_ReserveErth pool) - prevErth in
  let total := default 0 (k_TotalPoolErth s) + delta in
  set_k_Pool <[poolID := pool]> (set_k_DirtyPools (λ X, {[poolID]} ∪ X)
    (set_k_TotalPoolErth (λ t, if delta =? 0 then t else Some (if total <? 0 then 0 else total)) s)).

Lemma upd_dex_id `{Host, !ShieldedKeeper} w : upd_dex (λ s, s) w = w.
Proof. by destruct w. Qed.

Lemma upd_dex_upd_dex `{Host, !ShieldedKeeper} f g w : upd_dex f (upd_dex g w) = upd_dex (λ s, f (g s)) w.
Proof. done. Qed.

Section dex_keeper_lemmas.
Context `{HostLaws, !ShieldedKeeper}.

Lemma SetPool_ok poolID pool w u w' :
  SetPool poolID pool w = Ok (u, w') →
  w' = upd_dex (after_SetPool poolID pool) w ∧
  Amount (pl_ReserveErth pool) ≤ MaxPoolAmount ∧ Amount (pl_ReserveToken pool) ≤ MaxPoolAmount ∧
  IsLPShareDenom (Denom (pl_ReserveToken pool)) = false ∧
  IsLPShareDenom (Denom (pl_ReserveErth pool)) = false.
Proof.
  unfold SetPool, overCap, getTotalPoolErth. intros Hr. run_inv.
  all: repeat match goal with H : _ || _ = false |- _ => apply orb_false_iff in H as [? ?] end.
  all: split; [|repeat split; try done; lia].
  all: unfold upd_dex, after_SetPool; cbn; f_equal.
  all: destruct (k_Pool (w_dex w) !! poolID); cbn in *;
    match goal with H : (_ =? 0) = _ |- _ => rewrite H end; done.
Qed.
End dex_keeper_lemmas.
