(* ===== verification/DexRewards.v ===== *)
(** * x/dex: LP rewards, the volume index and the price accumulator

    [x/dex/keeper/lp_rewards.go] and the accumulator of [twap.go].  A [*types.Pool] the Go code
    updates through a pointer is passed in and returned. *)

From S2P Require Export DexKeeper SafeExec.

Definition pl_set_erth (f : Coin → Coin) (p : Pool) : Pool :=
  {| pl_PoolId := pl_PoolId p; pl_ReserveErth := f (pl_ReserveErth p);
     pl_ReserveToken := pl_ReserveToken p; pl_VolumeWeight := pl_VolumeWeight p;
     pl_LastTradedDay := pl_LastTradedDay p |}.
Definition pl_set_volume (v day : Z) (p : Pool) : Pool :=
  {| pl_PoolId := pl_PoolId p; pl_ReserveErth := pl_ReserveErth p;
     pl_ReserveToken := pl_ReserveToken p; pl_VolumeWeight := v; pl_LastTradedDay := day |}.

Section dex_rewards.
Context `{Host, !ShieldedKeeper}.

(** ** twap.go: the accumulator *)
Definition spotPrice (pool : Pool) : outcome (option Z) :=
  let erth := Amount (pl_ReserveErth pool) in
  let token := Amount (pl_ReserveToken pool) in
  if negb (0 <? erth) || negb (0 <? token) then mret None
  else p ← DecQuo (NewDecFromInt erth) (NewDecFromInt token); mret (Some p).

Definition getPriceCumulative (poolID : Z) : M (Z * Z) :=
  cum ← get_dex (λ s, default 0 (k_PriceCumulative s !! poolID));
  at_ ← get_dex (λ s, default 0 (k_PriceObservedAt s !! poolID));
  mret (cum, at_).

Definition advancePriceCumulative (poolID : Z) (pool : Pool) : M () :=
  now ← now;
  '(cum, at_) ← getPriceCumulative poolID;
  price ← lift (spotPrice pool);
  match price with
  | None => set_dex (set_k_PriceObservedAt <[poolID := now]>)
  | Some price =>
      (if negb (at_ =? 0) && (at_ <? now) then
         d ← lift (DecMulInt64 price (wrap_i64 (now - at_)));
         cum ← lift (DecAdd cum d);
         set_dex (set_k_PriceCumulative <[poolID := cum]>)
       else if at_ =? 0 then set_dex (set_k_PriceCumulative <[poolID := cum]>)
       else mret ());;
      set_dex (set_k_PriceObservedAt <[poolID := now]>)
  end.

(** ** lp_rewards.go: the volume index *)
Definition lpIndexPrecision : Z := 10 ^ 18.
Definition volumeIndexPrecision : Z := 10 ^ 18.

Definition getVolumeIndex : M Z :=
  get_dex (λ s, match k_VolumeIndex s with
                | Some v => if negb (0 <? v) then volumeIndexPrecision else v
                | None => volumeIndexPrecision
                end).

(** [uint64(blockTime.Unix()) / 86400], with the block time in seconds. *)
Definition dayOf (blockTime : Z) : Z := wrap_u64 blockTime / 86400.

Fixpoint advance_steps (steps : nat) (idx : Z) : outcome Z :=
  match steps with
  | O => mret idx
  | S n =>
      m ← IntMul idx VolumeDecayWindowDays;
      idx ← IntQuo m (VolumeDecayWindowDays - 1);
      advance_steps n idx
  end.

Definition AdvanceVolumeIndex : M () :=
  t ← now;
  let day := dayOf t in
  last ← get_dex (λ s, default 0 (k_VolumeIndexDay s));
  if last =? 0 then set_dex (set_k_VolumeIndexDay (λ _, Some day))
  else if day <=? last then mret ()
  else
    let steps := day - last in
    let steps := if VolumeIndexMaxCatchUpDays <? steps then VolumeIndexMaxCatchUpDays else steps in
    idx ← getVolumeIndex;
    idx ← lift (advance_steps (Z.to_nat steps) idx);
    set_dex (set_k_VolumeIndex (λ _, Some idx));;
    set_dex (set_k_VolumeIndexDay (λ _, Some day)).

Definition volumeCap (pool : Pool) (perDay : Z) : outcome Z :=
  let r := Amount (pl_ReserveErth pool) in
  if negb (0 <? r) then mret 0
  else
    a ← IntMul r (wrap_i64 perDay);
    IntMul a VolumeWindowDays.

Definition capVolume (pool : Pool) (scaled : Z) : M Z :=
  params ← item k_Params;
  idx ← getVolumeIndex;
  c ← lift (volumeCap pool (VolumeDepthCapPerDayOrDefault params));
  c ← lift (IntMul c idx);
  cap ← lift (IntQuo c volumeIndexPrecision);
  mret (if cap <? scaled then cap else scaled).

Definition setPoolVolume (pool : Pool) (v day : Z) : M Pool :=
  let old := pl_VolumeWeight pool in
  let v := if v <? 0 then 0 else v in
  let pool := pl_set_volume v day pool in
  delta ← lift (IntSub v old);
  if delta =? 0 then mret pool
  else
    total ← getLpTotalVolume;
    total ← lift (IntAdd total delta);
    set_dex (set_k_LpTotalVolume (λ _, Some (if total <? 0 then 0 else total)));;
    mret pool.

(** ** lp_rewards.go: the stale queue *)
Definition scheduleStale (poolID : Z) (hasVolume : bool) : M () :=
  due ← get_dex (λ s, k_PoolStaleDue s !! poolID);
  (match due with
   | Some due =>
       set_dex (set_k_PoolStaleQueue (λ q, q ∖ {[(due, poolID)]}));;
       set_dex (set_k_PoolStaleDue (delete poolID))
   | None => mret ()
   end);;
  if negb hasVolume then mret ()
  else
    t ← now;
    let at_ := wrap_i64 (t + PoolStaleSeconds) in
    set_dex (set_k_PoolStaleDue <[poolID := at_]>);;
    set_dex (set_k_PoolStaleQueue (λ q, {[(at_, poolID)]} ∪ q)).

(** ** lp_rewards.go: paying in and settling *)
Definition DistributeLPRewards (amount : Z) : M Z :=
  if negb (0 <? amount) then mret 0
  else
    total ← getLpTotalVolume;
    if negb (0 <? total) then mret 0
    else
      m ← lift (IntMul amount lpIndexPrecision);
      delta ← lift (IntQuo m total);
      if negb (0 <? delta) then mret 0
      else
        idx ← getLpRewardIndex;
        idx' ← lift (IntAdd idx delta);
        set_dex (set_k_LpRewardIndex (λ _, Some idx'));;
        m ← lift (IntMul delta total);
        m ← lift (IntAdd m lpIndexPrecision);
        m ← lift (IntSub m 1);
        resolved ← lift (IntQuo m lpIndexPrecision);
        pending ← getPendingLpRewards;
        pending' ← lift (IntAdd pending resolved);
        set_dex (set_k_PendingLpRewards (λ _, Some pending'));;
        mret resolved.

Definition settlePoolRewards (poolID : Z) (pool : Pool) : M Pool :=
  advancePriceCumulative poolID pool;;
  idx ← getLpRewardIndex;
  last ← getPoolLpIndex poolID;
  if idx =? last then mret pool
  else
    let vol := pl_VolumeWeight pool in
    pool ← (if 0 <? vol then
        d ← lift (IntSub idx last);
        m ← lift (IntMul vol d);
        owed ← lift (IntQuo m lpIndexPrecision);
        if 0 <? owed then
          hub ← HubDenom;
          pending ← getPendingLpRewards;
          pending' ← lift (IntSub pending owed);
          set_dex (set_k_PendingLpRewards (λ _, Some pending'));;
          c ← lift (NewCoin hub owed);
          erth ← lift (CoinAdd (pl_ReserveErth pool) c);
          mret (pl_set_erth (λ _, erth) pool)
        else mret pool
      else mret pool);
    set_dex (set_k_PoolLpIndex <[poolID := idx]>);;
    mret pool.

Definition applyVolume (pool : Pool) (erthAmount blockTime : Z) : M Pool :=
  AdvanceVolumeIndex;;
  idx ← getVolumeIndex;
  let old := pl_VolumeWeight pool in
  m ← lift (IntMul erthAmount idx);
  q ← lift (IntQuo m volumeIndexPrecision);
  s ← lift (IntAdd old q);
  v ← capVolume pool s;
  pool ← setPoolVolume pool v (dayOf blockTime);
  scheduleStale (pl_PoolId pool) (0 <? v);;
  mret pool.

(** ** lp_rewards.go: the sweeps of EndBlock *)
Definition expirePoolVolume (poolID : Z) : M () :=
  p ← get_dex (λ s, k_Pool s !! poolID);
  match p with
  | None => mret ()
  | Some pool =>
      if negb (0 <? pl_VolumeWeight pool) then mret ()
      else
        pool ← settlePoolRewards poolID pool;
        t ← now;
        pool ← setPoolVolume pool 0 (dayOf t);
        SetPool poolID pool
  end.

(** The entries due at [now], in queue order, at most [PoolStaleSweepLimit]. *)
Fixpoint due_entries (limit : nat) (now : Z) (q : list (Z * Z)) {struct q} : list (Z * Z) :=
  match q with
  | [] => []
  | e :: q =>
      if now <? fst e then []
      else match limit with O => [] | S n => e :: due_entries n now q end
  end.

Definition SweepStalePools : M () :=
  t ← now;
  due ← get_dex (λ s, due_entries (Z.to_nat PoolStaleSweepLimit) t (iter_set (k_PoolStaleQueue s)));
  for_each due (λ entry,
    let poolID := snd entry in
    set_dex (set_k_PoolStaleQueue (λ q, q ∖ {[entry]}));;
    set_dex (set_k_PoolStaleDue (delete poolID));;
    _ ← Cached (expirePoolVolume poolID);
    mret ()).

Definition RebaseVolumeIndex : M () :=
  idx ← getVolumeIndex;
  limit ← lift (IntMul volumeIndexPrecision VolumeIndexRebaseAt);
  if idx <? limit then mret ()
  else
    ids ← get_dex (λ s, snd <$> iter_set (k_PoolStaleQueue s));
    for_each ids (λ poolID,
      p ← get_dex (λ s, k_Pool s !! poolID);
      match p with
      | None => mret ()
      | Some pool =>
          pool ← settlePoolRewards poolID pool;
          scaled ← lift (IntQuo (pl_VolumeWeight pool) VolumeIndexRebaseFactor);
          pool ← setPoolVolume pool scaled (pl_LastTradedDay pool);
          (if negb (0 <? scaled) then scheduleStale poolID false else mret ());;
          SetPool poolID pool
      end);;
    rebased ← lift (IntQuo idx VolumeIndexRebaseFactor);
    set_dex (set_k_VolumeIndex (λ _, Some rebased)).

Definition MaybeRebaseVolumeIndex : M () :=
  _ ← Cached RebaseVolumeIndex;
  mret ().

End dex_rewards.

(** ** What the operations do *)

(** The observers the specifications are stated with. *)
Definition lp_index (s : DexStore) : Z := default 0 (k_LpRewardIndex s).
Definition lp_last (s : DexStore) (id : Z) : Z := default 0 (k_PoolLpIndex s !! id).
Definition pending (s : DexStore) : Z := default 0 (k_PendingLpRewards s).
Definition total_volume (s : DexStore) : Z := default 0 (k_LpTotalVolume s).
Definition volume_index (s : DexStore) : Z :=
  match k_VolumeIndex s with
  | Some v => if negb (0 <? v) then volumeIndexPrecision else v
  | None => volumeIndexPrecision
  end.

(** What a settle pays a pool. *)
Definition settle_owed (s : DexStore) (id : Z) (p : Pool) : Z :=
  pl_VolumeWeight p * (lp_index s - lp_last s id) / lpIndexPrecision.

(** The price accumulator's two collections, written. *)
Definition set_price (cum obs : gmap Z Z) (s : DexStore) : DexStore :=
  set_k_PriceObservedAt (λ _, obs) (set_k_PriceCumulative (λ _, cum) s).

Section dex_rewards_lemmas.
Context `{HostLaws, !ShieldedKeeper}.

Lemma volume_index_pos s : 0 < volume_index s.
Proof. unfold volume_index, volumeIndexPrecision. destruct (k_VolumeIndex s); [destruct (negb _) eqn:E|]; lia. Qed.

(** The price the elapsed time is credited at: what [advancePriceCumulative] writes. *)
Definition spot (p : Pool) : option Z :=
  match spotPrice p with Ok (Some x) => Some x | _ => None end.

Definition advanced_cum (id : Z) (p : Pool) (now : Z) (s : DexStore) : gmap Z Z :=
  let cum := default 0 (k_PriceCumulative s !! id) in
  let at_ := default 0 (k_PriceObservedAt s !! id) in
  match spot p with
  | None => k_PriceCumulative s
  | Some x =>
      if negb (at_ =? 0) && (at_ <? now) then <[id := cum + x * wrap_i64 (now - at_)]> (k_PriceCumulative s)
      else if at_ =? 0 then <[id := cum]> (k_PriceCumulative s)
      else k_PriceCumulative s
  end.

Lemma advancePriceCumulative_ok id p w u w' :
  advancePriceCumulative id p w = Ok (u, w') →
  w' = upd_dex (λ s, set_price (advanced_cum id p (unix w) s) (<[id := unix w]> (k_PriceObservedAt s)) s) w.
Proof.
  unfold advancePriceCumulative, getPriceCumulative. intros Hr.
  apply bind_ok in Hr as (t & w1 & [-> ->]%now_ok & Hr). run_inv.
  all: unfold upd_dex, set_price, advanced_cum, spot; cbn;
    match goal with H : spotPrice _ = _ |- _ => rewrite H end; cbn;
    repeat match goal with H : (_ && _) = _ |- _ => rewrite H | H : (_ =? 0) = _ |- _ => rewrite H end;
    try match goal with H : DecMulInt64 _ _ = Ok _ |- _ => apply DecMulInt64_spec in H as -> end;
    try match goal with H : DecAdd _ _ = Ok _ |- _ => apply DecAdd_spec in H as -> end; done.
Qed.

Lemma settlePoolRewards_ok id p w p' w' :
  0 ≤ pl_VolumeWeight p → lp_last (w_dex w) id ≤ lp_index (w_dex w) →
  settlePoolRewards id p w = Ok (p', w') →
  let owed := settle_owed (w_dex w) id p in
  ∃ cum obs pend last,
    w' = upd_dex (λ s, set_price cum obs (set_k_PendingLpRewards (λ _, pend)
           (set_k_PoolLpIndex (λ _, last) s))) w ∧
    default 0 pend = pending (w_dex w) - owed ∧
    default 0 (last !! id) = lp_index (w_dex w) ∧
    (∀ i, i ≠ id → last !! i = k_PoolLpIndex (w_dex w) !! i) ∧
    p' = pl_set_erth (λ c, mkCoin (Denom c) (Amount c + owed)) p ∧
    0 ≤ owed ∧ (0 < owed → Denom (pl_ReserveErth p) = hub_denom) ∧
    cum = advanced_cum id p (unix w) (w_dex w) ∧ obs = <[id := unix w]> (k_PriceObservedAt (w_dex w)).
Proof.
  intros Hv Hl Hr. unfold settlePoolRewards in Hr.
  apply bind_ok in Hr as ([] & w1 & Hadv & Hr). apply advancePriceCumulative_ok in Hadv.
  unfold getLpRewardIndex, getPoolLpIndex, getPendingLpRewards, HubDenom in Hr.
  unfold settle_owed, lp_index, lp_last, pending in *.
  set (cum := advanced_cum id p (unix w) (w_dex w)) in *.
  set (obs := <[id := unix w]> (k_PriceObservedAt (w_dex w))) in *.
  assert (∀ owed, owed = 0 → p = pl_set_erth (λ c, mkCoin (Denom c) (Amount c + owed)) p) as Hp.
  { intros ? ->. destruct p as [? [? ?] ?]; unfold pl_set_erth; cbn. by rewrite Z.add_0_r. }
  exists cum, obs, (k_PendingLpRewards (w_dex w')), (k_PoolLpIndex (w_dex w')).
  subst w1. cbn in Hr. run_inv; cbn in *.
  all: try rewrite !quot_div_nonneg in * by (try done; nia).
  all: split; [world_eta|].
  all: rewrite ?lookup_insert_eq.
  - (* the pool is up to date *)
    apply Z.eqb_eq in Heqb. rewrite <-Heqb, Z.sub_diag, Z.mul_0_r.
    change (0 / lpIndexPrecision) with 0. repeat split; try done; try lia. by apply Hp.
  - (* a settle that pays *)
    match goal with H : BondDenom = Ok _ |- _ => rewrite host_bond_denom in H; injection H as <- end.
    repeat split; try done; try lia. intros i Hi. by rewrite lookup_insert_ne.
  - (* a settle too small to pay *)
    assert (0 ≤ pl_VolumeWeight p * (default 0 (k_LpRewardIndex (w_dex w)) -
      default 0 (k_PoolLpIndex (w_dex w) !! id)) / lpIndexPrecision) by (apply Z.div_pos; [nia|done]).
    repeat split; try done; try lia; [|apply Hp; lia]. intros i Hi. by rewrite lookup_insert_ne.
  - (* no volume *)
    assert (pl_VolumeWeight p = 0) as -> by lia. rewrite Z.mul_0_l. change (0 / lpIndexPrecision) with 0.
    repeat split; try done; try lia; [|by apply Hp]. intros i Hi. by rewrite lookup_insert_ne.
Qed.

Lemma setPoolVolume_ok p v day w p' w' :
  0 ≤ v → setPoolVolume p v day w = Ok (p', w') →
  ∃ t, w' = upd_dex (set_k_LpTotalVolume (λ _, t)) w ∧
    (0 ≤ total_volume (w_dex w) + (v - pl_VolumeWeight p) →
      default 0 t = total_volume (w_dex w) + (v - pl_VolumeWeight p)) ∧
    p' = pl_set_volume v day p.
Proof.
  intros Hv Hr. unfold setPoolVolume, getLpTotalVolume, total_volume in *.
  exists (k_LpTotalVolume (w_dex w')).
  replace (v <? 0) with false in Hr by lia. run_inv; cbn in *.
  all: split; [world_eta|]; split; [|done]; cbn; intros; try case_match; lia.
Qed.

Lemma scheduleStale_ok id hasVol w u w' :
  scheduleStale id hasVol w = Ok (u, w') →
  ∃ q due, w' = upd_dex (λ s, set_k_PoolStaleQueue (λ _, q) (set_k_PoolStaleDue (λ _, due) s)) w.
Proof.
  intros Hr. exists (k_PoolStaleQueue (w_dex w')), (k_PoolStaleDue (w_dex w')).
  unfold scheduleStale in Hr. run_inv; cbn; world_eta.
Qed.

(** The queue and the due map name the same schedule. *)
Definition stale_ok (s : DexStore) : Prop :=
  ∀ t id, (t, id) ∈ k_PoolStaleQueue s ↔ k_PoolStaleDue s !! id = Some t.

Lemma stale_ok_remove q d t id :
  (∀ t i, (t, i) ∈ q ↔ (d : gmap Z Z) !! i = Some t) → d !! id = Some t →
  ∀ t' i, (t', i) ∈ (q : gset (Z * Z)) ∖ {[(t, id)]} ↔ delete id d !! i = Some t'.
Proof.
  intros Hq Hd t' i. rewrite elem_of_difference, elem_of_singleton, Hq, lookup_delete_Some.
  split.
  - intros [Hi Hne]. split; [|done]. intros ->. apply Hne. congruence.
  - intros [Hne Hi]. split; [done|]. intros [= -> ->]. done.
Qed.

Lemma stale_ok_insert q d t id :
  (∀ t i, (t, i) ∈ q ↔ (d : gmap Z Z) !! i = Some t) → d !! id = None →
  ∀ t' i, (t', i) ∈ ({[(t, id)]} ∪ q : gset (Z * Z)) ↔ <[id := t]> d !! i = Some t'.
Proof.
  intros Hq Hd t' i. rewrite elem_of_union, elem_of_singleton, Hq, lookup_insert_Some.
  split.
  - intros [[= -> ->]|Hi]; [by left|]. right. split; [|done]. intros ->. congruence.
  - intros [[-> ->]|[Hne Hi]]; [by left|by right].
Qed.

Lemma scheduleStale_stale_ok id hasVol w u w' :
  scheduleStale id hasVol w = Ok (u, w') → stale_ok (w_dex w) → stale_ok (w_dex w') ∧
  (is_Some (k_PoolStaleDue (w_dex w') !! id) ↔ hasVol = true).
Proof.
  unfold scheduleStale, stale_ok. intros Hr Hok. run_inv; cbn.
  - split; [by apply stale_ok_remove|]. rewrite lookup_delete_eq. destruct hasVol; [done|].
    split; [by intros []|done].
  - split; [done|]. rewrite Heqo. destruct hasVol; [done|]. split; [by intros []|done].
  - split; [|rewrite lookup_insert_eq; destruct hasVol; [|done]; split; by eauto].
    apply stale_ok_insert; [by apply stale_ok_remove|apply lookup_delete_eq].
  - split; [by apply stale_ok_insert|]. rewrite lookup_insert_eq. destruct hasVol; [|done]. split; by eauto.
Qed.

Lemma AdvanceVolumeIndex_ok w u w' :
  AdvanceVolumeIndex w = Ok (u, w') →
  ∃ vi vd, w' = upd_dex (λ s, set_k_VolumeIndex (λ _, vi) (set_k_VolumeIndexDay (λ _, vd) s)) w.
Proof.
  intros Hr. exists (k_VolumeIndex (w_dex w')), (k_VolumeIndexDay (w_dex w')).
  unfold AdvanceVolumeIndex, getVolumeIndex in Hr. run_inv; cbn; world_eta.
Qed.

(** The most a pool's stored (scaled) volume may be. *)
Definition volume_cap (s : DexStore) (vi : Z) (p : Pool) : Z :=
  match k_Params s with
  | Some ps => 
      (if 0 <? Amount (pl_ReserveErth p) then
         Amount (pl_ReserveErth p) * wrap_i64 (VolumeDepthCapPerDayOrDefault ps) * VolumeWindowDays
       else 0) * vi / volumeIndexPrecision
  | None => 0
  end.

Lemma applyVolume_ok p amt t w p' w' :
  0 ≤ pl_VolumeWeight p → 0 ≤ amt → applyVolume p amt t w = Ok (p', w') →
  (∀ ps, k_Params (w_dex w) = Some ps → 0 ≤ VolumeDepthCapPerDay ps < 2 ^ 63) →
  ∃ vi vd q due tot v,
    w' = upd_dex (λ s, set_k_VolumeIndex (λ _, vi) (set_k_VolumeIndexDay (λ _, vd)
           (set_k_PoolStaleQueue (λ _, q) (set_k_PoolStaleDue (λ _, due)
             (set_k_LpTotalVolume (λ _, tot) s))))) w ∧
    p' = pl_set_volume v (dayOf t) p ∧ 0 ≤ v ∧
    (0 ≤ total_volume (w_dex w) + (v - pl_VolumeWeight p) →
      default 0 tot = total_volume (w_dex w) + (v - pl_VolumeWeight p)) ∧
    v = Z.min (pl_VolumeWeight p + amt * volume_index (w_dex w') / volumeIndexPrecision)
          (volume_cap (w_dex w) (volume_index (w_dex w')) p) ∧
    (stale_ok (w_dex w) → stale_ok (w_dex w')).
Proof.
  intros Hv Ha Hr Hps. unfold applyVolume in Hr.
  apply bind_ok in Hr as ([] & w1 & Hadv & Hr). 
  apply AdvanceVolumeIndex_ok in Hadv as (vi & vd & ->).
  apply bind_ok in Hr as (idx & w1 & [-> ->]%get_dex_ok & Hr). fold (volume_index (w_dex (upd_dex (λ s, set_k_VolumeIndex (λ _, vi) (set_k_VolumeIndexDay (λ _, vd) s)) w))) in Hr.
  set (w1 := upd_dex _ w) in *. pose proof (volume_index_pos (w_dex w1)) as Hvi.
  apply bind_ok in Hr as (m & w2 & [[-> _]%IntMul_ok ->]%lift_ok & Hr).
  apply bind_ok in Hr as (q0 & w2 & [[_ ->]%IntQuo_ok ->]%lift_ok & Hr).
  apply bind_ok in Hr as (s0 & w2 & [[-> _]%IntAdd_ok ->]%lift_ok & Hr).
  rewrite quot_div_nonneg in Hr by (try done; nia).
  apply bind_ok in Hr as (v & w2 & Hcap & Hr).
  assert (w2 = w1 ∧ 0 ≤ v ∧ v = Z.min (pl_VolumeWeight p + amt * volume_index (w_dex w1) / volumeIndexPrecision)
          (volume_cap (w_dex w) (volume_index (w_dex w1)) p)) as (-> & Hv0 & Hvm).
  { clear Hr. assert (0 ≤ amt * volume_index (w_dex w1) / volumeIndexPrecision) by (apply Z.div_pos; [nia|done]).
    unfold capVolume, getVolumeIndex, volumeCap in Hcap. 
    apply bind_ok in Hcap as (ps & w3 & [Hpar ->]%item_ok & Hcap).
    apply bind_ok in Hcap as (idx & w3 & [-> ->]%get_dex_ok & Hcap). fold (volume_index (w_dex w1)) in Hcap.
    unfold volume_cap. cbn in Hpar. rewrite Hpar. specialize (Hps _ Hpar).
    assert (0 ≤ wrap_i64 (VolumeDepthCapPerDayOrDefault ps)) as Hw.
    { unfold VolumeDepthCapPerDayOrDefault, DefaultVolumeDepthCapPerDay.
      destruct (_ =? 0); rewrite wrap_i64_id; lia. }
    destruct (0 <? Amount (pl_ReserveErth p)) eqn:HE; cbn [negb] in Hcap; run_inv;
      rewrite quot_div_nonneg in * by (try done; unfold VolumeWindowDays; nia).
    all: split; [done|].
    all: try (assert (0 ≤ Amount (pl_ReserveErth p) * wrap_i64 (VolumeDepthCapPerDayOrDefault ps) *
        VolumeWindowDays * volume_index (w_dex w1) / volumeIndexPrecision)
        by (apply Z.div_pos; [unfold VolumeWindowDays; nia|done])).
    all: try (change (0 * volume_index (w_dex w1) / volumeIndexPrecision) with 0 in * ).
    all: match goal with |- context [?x <? ?y] => destruct (Z.ltb_spec x y) end; lia. }
  apply bind_ok in Hr as (p1 & w2 & Hset & Hr).
  apply setPoolVolume_ok in Hset as (tot & -> & Htot & ->); [|done].
  apply bind_ok in Hr as ([] & w2 & Hsched & Hr). apply ret_ok in Hr as [= -> ->].
  pose proof (scheduleStale_stale_ok _ _ _ _ _ Hsched) as Hst.
  apply scheduleStale_ok in Hsched as (q & due & ->).
  exists vi, vd, q, due, tot, v. subst w1. unfold total_volume, volume_index in *. cbn in *.
  do 3 (split; [done|]). split; [exact Htot|]. split; [done|]. intros Hok. by apply Hst.
Qed.
End dex_rewards_lemmas.

(** ** Properties *)
Section rewards_properties.
Context `{HostLaws, !ShieldedKeeper}.

(** A settle pays a pool what accrued to it, once: the pool's ERTH reserve grows by the floor of its volume
    times the index's advance since its last settle, the unsettled rewards fall by the same, nothing is
    left to settle for it afterwards, and no other pool's accrual, no pool record and no coin moves. *)
Theorem settle_pays_once id p w p' w' :
  0 ≤ pl_VolumeWeight p → lp_last (w_dex w) id ≤ lp_index (w_dex w) →
  settlePoolRewards id p w = Ok (p', w') →
  let owed := pl_VolumeWeight p * (lp_index (w_dex w) - lp_last (w_dex w) id) / lpIndexPrecision in
  p' = pl_set_erth (λ c, mkCoin (Denom c) (Amount c + owed)) p ∧ 0 ≤ owed ∧
  pending (w_dex w') = pending (w_dex w) - owed ∧
  (∀ q, settle_owed (w_dex w') id q = 0) ∧
  (∀ i q, i ≠ id → settle_owed (w_dex w') i q = settle_owed (w_dex w) i q) ∧
  k_Pool (w_dex w') = k_Pool (w_dex w) ∧ w_bank w' = w_bank w.
Proof.
  intros Hv Hl Hr owed. apply settlePoolRewards_ok in Hr as (cum & obs & pend & last & -> & Hp & Hli & Hne & -> & Ho & _);
    [|done..].
  split; [done|]. split; [done|]. split; [exact Hp|]. split; [|split; [|done]].
  - intros q. unfold settle_owed, lp_index, lp_last in *. cbn. rewrite Hli, Z.sub_diag, Z.mul_0_r. done.
  - intros i q Hi. unfold settle_owed, lp_index, lp_last. cbn. by rewrite Hne.
Qed.

(** The price accumulator integrates the spot price: a call credits the price that stood since the last
    observation for the seconds elapsed, exactly once, to the pool's own accumulator (nothing on the
    first observation, while the clock stands, or while the pool has no price), stamps the clock, and
    touches no other pool's accumulator. *)
Theorem price_accumulates id p w w' :
  let at_ := default 0 (k_PriceObservedAt (w_dex w) !! id) in
  0 ≤ at_ → at_ ≤ unix w < 2 ^ 63 → advancePriceCumulative id p w = Ok ((), w') →
  default 0 (k_PriceCumulative (w_dex w') !! id) = default 0 (k_PriceCumulative (w_dex w) !! id) +
    (match spotPrice p with
     | Ok (Some price) => if at_ =? 0 then 0 else price * (unix w - at_)
     | _ => 0
     end) ∧
  k_PriceObservedAt (w_dex w') = <[id := unix w]> (k_PriceObservedAt (w_dex w)) ∧
  (∀ i, i ≠ id → k_PriceCumulative (w_dex w') !! i = k_PriceCumulative (w_dex w) !! i) ∧
  k_Pool (w_dex w') = k_Pool (w_dex w) ∧ w_bank w' = w_bank w.
Proof.
  intros at_ H1' H2' ->%advancePriceCumulative_ok. cbn. unfold advanced_cum, spot. fold at_.
  split; [|split; [done|split; [|done]]].
  - destruct (spotPrice p) as [[x|]| |]; try (cbn; lia).
    destruct (Z.eqb_spec at_ 0) as [E|E]; cbn [negb andb].
    + rewrite lookup_insert_eq. cbn. lia.
    + destruct (Z.ltb_spec at_ (unix w)).
      * rewrite lookup_insert_eq. cbn. rewrite wrap_i64_id by lia. done.
      * replace (unix w - at_) with 0 by lia. lia.
  - intros i Hi. destruct (spotPrice p) as [[x|]| |]; try done. repeat case_match; try done; by rewrite lookup_insert_ne.
Qed.

(** Wash trading cannot buy reward weight past the cap: a trade raises a pool's weight by at most its scaled
    ERTH amount and never past the cap on the pool's own depth, the chain's total moves by exactly the
    pool's change, and reserves do not move. *)
Theorem volume_is_capped p amt t w p' w' :
  0 ≤ pl_VolumeWeight p ≤ total_volume (w_dex w) → 0 ≤ amt →
  (∀ ps, k_Params (w_dex w) = Some ps → 0 ≤ VolumeDepthCapPerDay ps < 2 ^ 63) →
  applyVolume p amt t w = Ok (p', w') →
  let idx := volume_index (w_dex w') in
  0 ≤ pl_VolumeWeight p' ≤ pl_VolumeWeight p + amt * idx / volumeIndexPrecision ∧
  (∃ ps, k_Params (w_dex w) = Some ps ∧
     let perDay := if VolumeDepthCapPerDay ps =? 0 then 2 else VolumeDepthCapPerDay ps in
     pl_VolumeWeight p' ≤ Z.max 0 (Amount (pl_ReserveErth p)) * perDay * 7 * idx / volumeIndexPrecision) ∧
  total_volume (w_dex w') = total_volume (w_dex w) + pl_VolumeWeight p' - pl_VolumeWeight p ∧
  pl_ReserveErth p' = pl_ReserveErth p ∧ pl_ReserveToken p' = pl_ReserveToken p ∧ w_bank w' = w_bank w.
Proof.
  intros Hv Ha Hps Hr. pose proof Hr as Hr0.
  apply applyVolume_ok in Hr as (vi & vd & q & due & tot & v & -> & -> & Hv0 & Htot & Hmin & _); [|lia|done..].
  set (idx := volume_index _) in *. cbv zeta. cbn [pl_VolumeWeight pl_set_volume pl_ReserveErth pl_ReserveToken].
  split; [lia|]. split; [|split; [|done]].
  - unfold volume_cap in Hmin. destruct (k_Params (w_dex w)) as [ps|] eqn:Hp.
    + exists ps. split; [done|]. cbv zeta. specialize (Hps _ eq_refl).
      replace (if VolumeDepthCapPerDay ps =? 0 then 2 else VolumeDepthCapPerDay ps)
        with (wrap_i64 (VolumeDepthCapPerDayOrDefault ps)).
      2:{ unfold VolumeDepthCapPerDayOrDefault, DefaultVolumeDepthCapPerDay. destruct (_ =? 0); by rewrite wrap_i64_id by lia. }
      change 7 with VolumeWindowDays. destruct (Z.ltb_spec 0 (Amount (pl_ReserveErth p))).
      * rewrite Z.max_r by lia. lia.
      * rewrite Z.max_l by lia. rewrite !Z.mul_0_l in *. lia.
    + exfalso. clear -Hr0 Hp. unfold applyVolume in Hr0.
      apply bind_ok in Hr0 as ([] & w1 & (vi' & vd' & ->)%AdvanceVolumeIndex_ok & Hr).
      apply bind_ok in Hr as (idx & w1 & [-> ->]%get_dex_ok & Hr).
      apply bind_ok in Hr as (m & w2 & [_ ->]%lift_ok & Hr). apply bind_ok in Hr as (m2 & w2 & [_ ->]%lift_ok & Hr).
      apply bind_ok in Hr as (m3 & w2 & [_ ->]%lift_ok & Hr). apply bind_ok in Hr as (v' & w2 & Hc & _).
      unfold capVolume in Hc. apply bind_ok in Hc as (ps & w3 & [Hps _]%item_ok & _). cbn in Hps. congruence.
  - unfold total_volume in *. cbn. lia.
Qed.

Lemma advance_steps_ok n idx r :
  0 < idx → advance_steps n idx = Ok r →
  idx ≤ r ∧ r * 13 ^ Z.of_nat n ≤ idx * 14 ^ Z.of_nat n ∧
  (idx - 12) * 14 ^ Z.of_nat n ≤ (r - 12) * 13 ^ Z.of_nat n.
Proof.
  revert idx. induction n as [|n IH]; intros idx Hi; cbn [advance_steps].
  - intros [= ->]. rewrite !Z.mul_1_r. lia.
  - unfold VolumeDecayWindowDays. intros Hr. host_inv. rewrite quot_div_nonneg in * by lia.
    pose proof (div_mul_bounds (idx * 14) (14 - 1) ltac:(done)) as Hb.
    set (nx := idx * 14 / (14 - 1)) in *. apply IH in Hr as (E1 & E2 & E3); [|lia].
    rewrite !Nat2Z.inj_succ, !Z.pow_succ_r by lia.
    pose proof (Z.pow_pos_nonneg 14 (Z.of_nat n) ltac:(lia) ltac:(lia)).
    pose proof (Z.pow_pos_nonneg 13 (Z.of_nat n) ltac:(lia) ltac:(lia)).
    set (A := 14 ^ Z.of_nat n) in *. set (B := 13 ^ Z.of_nat n) in *. split; [lia|]. split; nia.
Qed.

(** Volume decays by a fixed factor per day: when a new day has begun the index grows by 14/13 for each
    elapsed day (ninety at most), rounded down each day, so a stored weight loses 1/14 a day; it
    never falls, and nothing but the index and its day changes. *)
Theorem decay_index_tracks_days w w' last :
  k_VolumeIndexDay (w_dex w) = Some last → last ≠ 0 → last < dayOf (unix w) →
  AdvanceVolumeIndex w = Ok ((), w') →
  let n := Z.min 90 (dayOf (unix w) - last) in
  let i := volume_index (w_dex w) in
  let i' := volume_index (w_dex w') in
  i ≤ i' ∧ i' * 13 ^ n ≤ i * 14 ^ n ∧ (i - 12) * 14 ^ n ≤ (i' - 12) * 13 ^ n ∧
  k_VolumeIndexDay (w_dex w') = Some (dayOf (unix w)) ∧
  w' = upd_dex (λ s, set_k_VolumeIndex (λ _, k_VolumeIndex (w_dex w')) (set_k_VolumeIndexDay (λ _, Some (dayOf (unix w))) s)) w.
Proof.
  intros Hlast Hz Hday Hr n i. unfold AdvanceVolumeIndex in Hr.
  apply bind_ok in Hr as (t & w1 & [-> ->]%now_ok & Hr). cbv zeta in Hr.
  apply bind_ok in Hr as (l & w1 & [-> ->]%get_dex_ok & Hr). rewrite Hlast in Hr. cbn [default from_option id] in Hr.
  destruct (Z.eqb_spec last 0); [done|]. destruct (Z.leb_spec (dayOf (unix w)) last); [lia|].
  rewrite if_min in Hr. change VolumeIndexMaxCatchUpDays with 90 in Hr. fold n in Hr.
  apply bind_ok in Hr as (idx & w1 & [-> ->]%get_dex_ok & Hr). fold (volume_index (w_dex w)) in Hr. fold i in Hr.
  apply bind_ok in Hr as (nx & w1 & [Hnx ->]%lift_ok & Hr).
  apply bind_ok in Hr as ([] & w1 & ->%set_dex_ok & ->%set_dex_ok).
  pose proof (volume_index_pos (w_dex w)) as Hpos. fold i in Hpos.
  apply advance_steps_ok in Hnx as (E1 & E2 & E3); [|done]. rewrite Z2Nat.id in E2, E3 by lia.
  assert (volume_index (set_k_VolumeIndexDay (λ _, Some (dayOf (unix w))) (set_k_VolumeIndex (λ _, Some nx) (w_dex w))) = nx) as Hv.
  { unfold volume_index. cbn. by replace (0 <? nx) with true by lia. }
  cbv zeta. cbn [w_dex upd_dex]. rewrite Hv. done.
Qed.
End rewards_properties.
