(* ===== verification/DexSolvency.v ===== *)
(** * x/dex: what the module owes, and the checks that it holds it

    [x/dex/keeper/solvency.go] (the EndBlocker's bounded check) and [invariants.go] (the exhaustive
    ones).  The error texts are dropped; a failed check is [ErrInvariantBroken]. *)

From S2P Require Export DexKeeper.

Section dex_solvency.
Context `{Host, !ShieldedKeeper}.

Definition dex_addr : bytes := NewModuleAddress ModuleName.

(** ** solvency.go *)

(** (ERTH owed on the auction's account, the denom its open bids are held in or [""]). *)
Definition auctionErthOwed : M (Z * string) :=
  a ← get_dex k_LiquidityAuction;
  match a with
  | None => mret (0, "")
  | Some a =>
      match la_Status a with
      | AUCTION_STATUS_SETTLED =>
          rem ← lift (IntSub (Amount (la_ErthForBidders a)) (la_Claimed a));
          mret (if 0 <? rem then rem else 0, "")
      | _ =>
          let owed := 0 in
          owed ← lift (if 0 <? Amount (la_ErthForBidders a)
                       then IntAdd owed (Amount (la_ErthForBidders a)) else mret owed);
          owed ← lift (if 0 <? Amount (la_ErthForPool a)
                       then IntAdd owed (Amount (la_ErthForPool a)) else mret owed);
          if bool_decide (la_Status a = AUCTION_STATUS_OPEN) && (0 <? la_TotalRaised a)
             && negb (bool_decide (la_BidDenom a = ""))
          then mret (owed, la_BidDenom a)
          else mret (owed, "")
      end
  end.

Definition checkErthSolvency : M () :=
  hub ← HubDenom;
  pools ← getTotalPoolErth;
  '(auction, _) ← auctionErthOwed;
  pending ← getPendingLpRewards;
  o ← lift (IntAdd pools auction);
  owed ← lift (IntAdd o pending);
  held ← get_bank (λ b, GetBalance b dex_addr hub);
  refuse_if (held <? owed) ErrInvariantBroken;;
  refuse_if (owed <? held) ErrInvariantBroken.

Definition checkPoolTokenSolvency (poolID : Z) : M () :=
  p ← get_dex (λ s, k_Pool s !! poolID);
  match p with
  | None => mret ()
  | Some pool =>
      let denom := Denom (pl_ReserveToken pool) in
      if bool_decide (denom = "") then mret ()
      else
        '(_, bidDenom) ← auctionErthOwed;
        if bool_decide (bidDenom = denom) then mret ()
        else
          held ← get_bank (λ b, GetBalance b dex_addr denom);
          let owed := Amount (pl_ReserveToken pool) in
          refuse_if (held <? owed) ErrInvariantBroken;;
          refuse_if (owed <? held) ErrInvariantBroken
  end.

Definition checkAuctionBidSolvency : M () :=
  a ← get_dex k_LiquidityAuction;
  match a with
  | None => mret ()
  | Some a =>
      if negb (bool_decide (la_Status a = AUCTION_STATUS_OPEN)) || bool_decide (la_BidDenom a = "")
         || negb (0 <? la_TotalRaised a)
      then mret ()
      else
        held ← get_bank (λ b, GetBalance b dex_addr (la_BidDenom a));
        refuse_if (negb (held =? la_TotalRaised a)) ErrInvariantBroken
  end.

(** The walk of [rotateSolvencyCheck] over the pool ids from its start: (checked, next). *)
Fixpoint rotate_walk (ids : list Z) (st : Z * Z) : M (Z * Z) :=
  match ids with
  | [] => mret st
  | id :: ids =>
      let '(checked, next) := st in
      if SolvencyRotationPerBlock <=? checked then mret (checked, id)
      else
        checkPoolTokenSolvency id;;
        rotate_walk ids (checked + 1, wrap_u64 (id + 1))
  end.

Definition rotateSolvencyCheck : M () :=
  cursor ← get_dex (λ s, default 0 (k_SolvencyCursor s));
  ids ← get_dex (λ s, iter_keys (k_Pool s));
  '(checked, next) ← rotate_walk (filter (λ id, cursor ≤ id) ids) (0, cursor);
  '(checked, next) ← (if (checked <? SolvencyRotationPerBlock) && negb (cursor =? 0)
                      then rotate_walk ids (checked, 0) else mret (checked, next));
  set_dex (set_k_SolvencyCursor (λ _, Some next)).

Definition AssertBoundedSolvency : M () :=
  checkErthSolvency;;
  checkAuctionBidSolvency;;
  dirty ← get_dex (λ s, iter_set (k_DirtyPools s));
  for_each dirty (λ id,
    checkPoolTokenSolvency id;;
    set_dex (set_k_DirtyPools (λ X, X ∖ {[id]})));;
  rotateSolvencyCheck.

(** ** invariants.go *)

(** The auction arm of [AssetObligations]. *)
Definition auction_obligations (owed : Coins) : M Coins :=
  a ← get_dex k_LiquidityAuction;
  match a with
  | None => mret owed
  | Some a =>
      match la_Status a with
      | AUCTION_STATUS_SETTLED =>
          rem ← lift (IntSub (Amount (la_ErthForBidders a)) (la_Claimed a));
          if 0 <? rem then
            c ← lift (NewCoin (Denom (la_ErthForBidders a)) rem);
            lift (CoinsAdd owed [c])
          else mret owed
      | _ =>
          owed ← lift (if 0 <? Amount (la_ErthForBidders a)
                       then CoinsAdd owed [la_ErthForBidders a] else mret owed);
          owed ← lift (if 0 <? Amount (la_ErthForPool a)
                       then CoinsAdd owed [la_ErthForPool a] else mret owed);
          if bool_decide (la_Status a = AUCTION_STATUS_OPEN) && (0 <? la_TotalRaised a)
             && negb (bool_decide (la_BidDenom a = ""))
          then c ← lift (NewCoin (la_BidDenom a) (la_TotalRaised a));
               lift (CoinsAdd owed [c])
          else mret owed
      end
  end.

(** One pool's reserves, added to what is owed. *)
Definition add_reserves (p : Pool) (owed : Coins) : outcome Coins :=
  owed ← (if 0 <? Amount (pl_ReserveErth p) then CoinsAdd owed [pl_ReserveErth p] else mret owed);
  if 0 <? Amount (pl_ReserveToken p) then CoinsAdd owed [pl_ReserveToken p] else mret owed.

Definition AssetObligations : M Coins :=
  pools ← get_dex (λ s, iter_map (k_Pool s));
  owed ← lift (foldl (λ acc kv, owed ← acc; add_reserves (snd kv) owed) (NewCoins []) pools);
  pending ← getPendingLpRewards;
  owed ← (if 0 <? pending then
            denom ← HubDenom;
            c ← lift (NewCoin denom pending);
            lift (CoinsAdd owed [c])
          else mret owed);
  auction_obligations owed.

Record BalanceReport := { br_Owed : Coins; br_Held : Coins; br_Short : Coins; br_Surplus : Coins }.

(** [BalanceReport.Broken] *)
Definition br_Broken (r : BalanceReport) : bool :=
  negb (CoinsIsZero (br_Short r)) || negb (CoinsIsZero (br_Surplus r)).

(** The coins of [xs] that exceed their amount in [ys], by how much: [short] and [surplus]. *)
Definition coins_over (xs ys : Coins) : outcome Coins :=
  foldl (λ acc c, over ← acc;
    let bal := AmountOf ys (Denom c) in
    if bal <? Amount c then
      d ← IntSub (Amount c) bal;
      c' ← NewCoin (Denom c) d;
      CoinsAdd over [c']
    else mret over) (NewCoins []) xs.

Definition CheckBalances : M BalanceReport :=
  owed ← AssetObligations;
  all ← get_bank (λ b, GetAllBalances b dex_addr);
  held ← lift (foldl (λ acc c, held ← acc;
      if IsLPShareDenom (Denom c) then mret held else CoinsAdd held [c]) (NewCoins []) all);
  short ← lift (coins_over owed held);
  surplus ← lift (coins_over held owed);
  mret {| br_Owed := owed; br_Held := held; br_Short := short; br_Surplus := surplus |}.

(** A sum over the pools in store order. *)
Definition sum_pools (f : Pool → Z) : M Z :=
  pools ← get_dex (λ s, iter_map (k_Pool s));
  lift (foldl (λ acc kv, x ← acc; IntAdd x (f (snd kv))) (Ok 0) pools).

Definition CheckVolumeAccounting : M (Z * Z) :=
  stored ← getLpTotalVolume;
  summed ← sum_pools pl_VolumeWeight;
  mret (stored, summed).

Definition CheckErthTotalAccounting : M () :=
  stored ← getTotalPoolErth;
  summed ← sum_pools (λ p, Amount (pl_ReserveErth p));
  refuse_if (negb (stored =? summed)) ErrInvariantBroken.

(** The problems [CheckShareBacking] reports, without their texts. *)
Inductive ShareProblem :=
| NegativeRemaining (pool : Z)
| RemainingOverTotal (pool : Z)
| ShortBalance (pool : Z)
| ShortSupply (pool : Z).

Definition sum_escrowed (us : list (UnbondKey * LpUnbonding)) : outcome (gmap Z Z) :=
  foldl (λ acc kv, m ← acc;
    let u := snd kv in
    s ← IntAdd (default 0 (m !! ub_PoolId u)) (Amount (ub_Shares u));
    mret (<[ub_PoolId u := s]> m)) (Ok ∅) us.

Definition pol_problems (kv : Z * PolBurn) : list ShareProblem :=
  let '(id, b) := kv in
  (if pb_SharesRemaining b <? 0 then [NegativeRemaining id] else []) ++
  (if pb_TotalShares b <? pb_SharesRemaining b then [RemainingOverTotal id] else []).

Definition CheckShareBacking : M (list ShareProblem) :=
  us ← get_dex (λ s, iter_map (k_LpUnbondings s));
  escrowed ← lift (sum_escrowed us);
  burns ← get_dex (λ s, iter_map (k_PolBurns s));
  let pol : gmap Z Z := list_to_map ((λ kv, (fst kv, pb_SharesRemaining (snd kv))) <$> burns) in
  let problems := mbind pol_problems burns in
  let pools := iter_set (dom escrowed ∪ dom pol : gset Z) in
  (fix go (ids : list Z) (problems : list ShareProblem) : M (list ShareProblem) :=
     match ids with
     | [] => mret problems
     | id :: ids =>
         claimed ← lift (IntAdd 0 (default 0 (escrowed !! id)));
         claimed ← lift (match pol !! id with
                         | Some v => if 0 <? v then IntAdd claimed v else mret claimed
                         | None => mret claimed
                         end);
         bal ← get_bank (λ b, GetBalance b dex_addr (LPShareDenom id));
         supply ← totalShares id;
         go ids (problems ++ (if bal <? claimed then [ShortBalance id] else [])
                          ++ (if supply <? claimed then [ShortSupply id] else []))
     end) pools problems.

Definition assertHotInvariants : M () := AssertBoundedSolvency.
Definition AssertHotInvariants : M () := assertHotInvariants.

Definition AssertInvariants : M () :=
  assertHotInvariants;;
  CheckErthTotalAccounting;;
  '(stored, summed) ← CheckVolumeAccounting;
  refuse_if (negb (stored =? summed)) ErrInvariantBroken;;
  rep ← CheckShareBacking;
  refuse_if (match rep with [] => false | _ => true end) ErrInvariantBroken.

End dex_solvency.
