(* ===== verification/DexInv.v ===== *)
(** * x/dex: the module's invariant

    What [x/dex/keeper/invariants.go] and [solvency.go] check, stated of the store and the bank: the
    running totals are the sums they claim to be, every pool is the only one for its token, the rewards
    paid in cover what the pools can settle, and the module account holds exactly what the records
    owe ([solvent]).  [touch] is the one way an operation changes a pool record (settle, then
    price, then [SetPool]); it keeps the pool part of the invariant and changes what is owed by
    the change of the reserves. *)

From S2P Require Export DexRewards DexSolvency.

(** ** What the records owe *)
Section owed.
Context `{Host, !ShieldedKeeper}.

Definition pool_holds (d : string) (p : Pool) : Z :=
  (if bool_decide (Denom (pl_ReserveErth p) = d) then Amount (pl_ReserveErth p) else 0) +
  (if bool_decide (Denom (pl_ReserveToken p) = d) then Amount (pl_ReserveToken p) else 0).

Definition auction_holds (a : LiquidityAuction) (d : string) : Z :=
  match la_Status a with
  | AUCTION_STATUS_SETTLED =>
      if bool_decide (d = hub_denom) then Amount (la_ErthForBidders a) - la_Claimed a else 0
  | st =>
      (if bool_decide (d = hub_denom)
       then Amount (la_ErthForBidders a) + Amount (la_ErthForPool a) else 0) +
      (if bool_decide (st = AUCTION_STATUS_OPEN ∧ d = la_BidDenom a) then la_TotalRaised a else 0)
  end.

Definition owed (s : DexStore) (d : string) : Z :=
  map_sum (λ _, pool_holds d) (k_Pool s) +
  (if bool_decide (d = hub_denom) then pending s else 0) +
  (match k_LiquidityAuction s with Some a => auction_holds a d | None => 0 end).

(** LP shares of a pool the module holds for someone: escrowed withdrawals and its own position. *)
Definition escrowed (s : DexStore) (id : Z) : Z :=
  map_sum (λ _ u, if ub_PoolId u =? id then Amount (ub_Shares u) else 0) (k_LpUnbondings s).
Definition pol_remaining (s : DexStore) (id : Z) : Z :=
  match k_PolBurns s !! id with Some b => pb_SharesRemaining b | None => 0 end.
Definition lp_claims (s : DexStore) (id : Z) : Z := escrowed s id + pol_remaining s id.

Definition solvent (b : bank_state) (s : DexStore) : Prop :=
  (∀ d, IsLPShareDenom d = false → GetBalance b dex_addr d = owed s d) ∧
  (∀ id, 0 ≤ id → lp_claims s id ≤ GetBalance b dex_addr (LPShareDenom id)).

(** ** The parts of the invariant *)
Record pool_ok (s : DexStore) (id : Z) (p : Pool) : Prop := {
  po_id : pl_PoolId p = id;
  po_seq : 0 ≤ id < k_PoolSeq s;
  po_hub : Denom (pl_ReserveErth p) = hub_denom;
  po_token : Denom (pl_ReserveToken p) ≠ hub_denom;
  po_not_lp : IsLPShareDenom (Denom (pl_ReserveToken p)) = false;
  po_erth : 0 ≤ Amount (pl_ReserveErth p) ≤ MaxPoolAmount;
  po_tok : 0 ≤ Amount (pl_ReserveToken p) ≤ MaxPoolAmount;
  po_weight : 0 ≤ pl_VolumeWeight p;
  po_by_token : k_PoolByToken s !! Denom (pl_ReserveToken p) = Some id;
  po_last : lp_last s id ≤ lp_index s;
}.

Record pools_inv (s : DexStore) : Prop := {
  pi_pool : ∀ id p, k_Pool s !! id = Some p → pool_ok s id p;
  pi_by_token : ∀ d id, k_PoolByToken s !! d = Some id →
    ∃ p, k_Pool s !! id = Some p ∧ Denom (pl_ReserveToken p) = d;
  pi_total : default 0 (k_TotalPoolErth s) = map_sum (λ _ p, Amount (pl_ReserveErth p)) (k_Pool s);
  pi_volume : total_volume s = map_sum (λ _ p, pl_VolumeWeight p) (k_Pool s);
  pi_rewards : map_sum (λ id p, pl_VolumeWeight p * (lp_index s - lp_last s id)) (k_Pool s)
    ≤ pending s * lpIndexPrecision;
  pi_index : 0 ≤ lp_index s;
  pi_hub : IsLPShareDenom hub_denom = false;
  pi_seq : 0 ≤ k_PoolSeq s;
}.

(** What the bidders who claimed took: the floor of each one's part of the earmark. *)
Definition bid_share (a : LiquidityAuction) (b : AuctionBid) : Z :=
  Amount (la_ErthForBidders a) * ab_Amount b / la_TotalRaised a.
Definition claimed_shares (a : LiquidityAuction) (bids : gmap bytes AuctionBid) : Z :=
  map_sum (λ _ b, if ab_Claimed b then bid_share a b else 0) bids.

Definition auction_inv (s : DexStore) : Prop :=
  match k_LiquidityAuction s with
  | None => k_AuctionBids s = ∅
  | Some a =>
      Denom (la_ErthForBidders a) = hub_denom ∧ Denom (la_ErthForPool a) = hub_denom ∧
      0 ≤ Amount (la_ErthForBidders a) ∧ 0 ≤ Amount (la_ErthForPool a) ∧
      0 ≤ la_Claimed a ≤ Amount (la_ErthForBidders a) ∧ 0 ≤ la_TotalRaised a ∧
      la_TotalRaised a = map_sum (λ _ b, ab_Amount b) (k_AuctionBids s) ∧
      (∀ addr b, k_AuctionBids s !! addr = Some b → 0 < ab_Amount b) ∧
      match la_Status a with
      | AUCTION_STATUS_OPEN =>
          la_BidDenom a ≠ hub_denom ∧ IsLPShareDenom (la_BidDenom a) = false ∧
          la_BidDenom a ≠ "" ∧ k_PoolByToken s !! la_BidDenom a = None ∧ la_Claimed a = 0 ∧
          (∀ addr b, k_AuctionBids s !! addr = Some b → ab_Claimed b = false)
      | AUCTION_STATUS_SETTLED => 0 < la_TotalRaised a ∧ la_Claimed a = claimed_shares a (k_AuctionBids s)
      | _ => k_AuctionBids s = ∅ ∧ la_Claimed a = 0
      end
  end.

Definition by_addr_key (k : UnbondKey) : bytes * Z * Z := let '(t, id, a) := k in (a, t, id).

Record unbond_inv (s : DexStore) : Prop := {
  ui_entry : ∀ t id a u, k_LpUnbondings s !! (t, id, a) = Some u →
    ub_PoolId u = id ∧ ub_CompletionTime u = t ∧ Denom (ub_Shares u) = LPShareDenom id ∧
    0 < Amount (ub_Shares u) ∧ is_Some (k_Pool s !! id);
  ui_index : ∀ k, by_addr_key k ∈ k_LpUnbondingsByAddr s ↔ is_Some (k_LpUnbondings s !! k);
}.

Definition pol_inv (s : DexStore) : Prop :=
  ∀ id b, k_PolBurns s !! id = Some b →
    pb_PoolId b = id ∧ 0 ≤ pb_SharesRemaining b ≤ pb_TotalShares b ∧ is_Some (k_Pool s !! id).

Definition params_inv (s : DexStore) : Prop :=
  ∃ ps, k_Params s = Some ps ∧ 0 ≤ SwapFee ps ≤ 10 * dec_one ∧
    0 ≤ LpUnbondingSeconds ps ≤ MaxLpUnbondingSeconds ∧
    0 ≤ VolumeDepthCapPerDay ps ≤ MaxVolumeDepthCapPerDay.

Record dex_inv (w : World) : Prop := {
  di_pools : pools_inv (w_dex w);
  di_auction : auction_inv (w_dex w);
  di_unbond : unbond_inv (w_dex w);
  di_pol : pol_inv (w_dex w);
  di_params : params_inv (w_dex w);
  di_stale : stale_ok (w_dex w);
  di_solvent : solvent (w_bank w) (w_dex w);
}.

(** ** touch: one pool rewritten *)
Record touch (id : Z) (p p' : Pool) (s s' : DexStore) : Prop := {
  t_pool : k_Pool s !! id = Some p;
  t_pools : k_Pool s' = <[id := p']> (k_Pool s);
  t_id : pl_PoolId p' = pl_PoolId p;
  t_erth_denom : Denom (pl_ReserveErth p') = Denom (pl_ReserveErth p);
  t_token_denom : Denom (pl_ReserveToken p') = Denom (pl_ReserveToken p);
  t_erth : 0 ≤ Amount (pl_ReserveErth p') ≤ MaxPoolAmount;
  t_token : 0 ≤ Amount (pl_ReserveToken p') ≤ MaxPoolAmount;
  t_weight : 0 ≤ pl_VolumeWeight p';
  t_total : default 0 (k_TotalPoolErth s') =
    default 0 (k_TotalPoolErth s) + Amount (pl_ReserveErth p') - Amount (pl_ReserveErth p);
  t_volume : total_volume s' = total_volume s + pl_VolumeWeight p' - pl_VolumeWeight p;
  t_pending : pending s' = pending s - settle_owed s id p;
  t_index : lp_index s' = lp_index s;
  t_last : lp_last s' id = lp_index s;
  t_last_ne : ∀ i, i ≠ id → lp_last s' i = lp_last s i;
  t_by_token : k_PoolByToken s' = k_PoolByToken s;
  t_seq : k_PoolSeq s' = k_PoolSeq s;
  t_params : k_Params s' = k_Params s;
  t_auction : k_LiquidityAuction s' = k_LiquidityAuction s;
  t_bids : k_AuctionBids s' = k_AuctionBids s;
  t_unbond : k_LpUnbondings s' = k_LpUnbondings s;
  t_unbond_by : k_LpUnbondingsByAddr s' = k_LpUnbondingsByAddr s;
  t_pol : k_PolBurns s' = k_PolBurns s;
  t_stale : stale_ok s → stale_ok s';
}.
End owed.

Section inv_lemmas.
Context `{HostLaws, !ShieldedKeeper}.

Lemma is_Some_insert_pool (m : gmap Z Pool) id p i :
  is_Some (m !! i) → is_Some (<[id := p]> m !! i).
Proof. intros. destruct (decide (i = id)) as [->|]; [rewrite lookup_insert_eq; eauto|by rewrite lookup_insert_ne]. Qed.

Lemma settle_owed_bound s id p :
  0 ≤ pl_VolumeWeight p → lp_last s id ≤ lp_index s →
  0 ≤ settle_owed s id p ∧
  settle_owed s id p * lpIndexPrecision ≤ pl_VolumeWeight p * (lp_index s - lp_last s id).
Proof.
  intros. unfold settle_owed. pose proof (div_mul_bounds (pl_VolumeWeight p * (lp_index s - lp_last s id)) lpIndexPrecision ltac:(done)).
  split; [apply Z.div_pos; [nia|done]|lia].
Qed.

Lemma touch_pools_inv id p p' s s' : touch id p p' s s' → pools_inv s → pools_inv s'.
Proof.
  intros [] []. pose proof (pi_pool0 _ _ t_pool0) as []. split.
  - intros i q. rewrite t_pools0. intros [[<- <-]|[Hne Hq]]%lookup_insert_Some.
    + split; try congruence; try lia; rewrite ?t_by_token0, ?t_token_denom0, ?t_erth_denom0, ?t_seq0; done || lia.
    + apply pi_pool0 in Hq as []. split; rewrite ?t_by_token0, ?t_seq0, ?t_index0, ?t_last_ne0 by done; done.
  - intros d i. rewrite t_by_token0. intros (q & Hq & Hd)%pi_by_token0. rewrite t_pools0.
    destruct (decide (i = id)) as [->|Hne].
    + exists p'. rewrite lookup_insert_eq. split; [done|]. congruence.
    + exists q. by rewrite lookup_insert_ne.
  - rewrite t_pools0, map_sum_insert, t_pool0, t_total0, pi_total0. cbn. lia.
  - rewrite t_pools0, map_sum_insert, t_pool0, t_volume0, pi_volume0. cbn. lia.
  - destruct (settle_owed_bound s id p ltac:(lia) ltac:(lia)) as [_ Hb].
    rewrite t_pools0, map_sum_insert, t_pool0, t_pending0. cbn. rewrite t_last0, t_index0, Z.sub_diag, !Z.mul_0_r.
    pose proof (map_sum_delete (λ id p, pl_VolumeWeight p * (lp_index s - lp_last s id)) _ _ _ t_pool0) as Hd1.
    pose proof (map_sum_delete (λ id p, pl_VolumeWeight p * (lp_index s - lp_last s' id)) _ _ _ t_pool0) as Hd2.
    cbv beta in Hd1, Hd2. rewrite t_last0, Z.sub_diag, Z.mul_0_r in Hd2.
    rewrite (map_sum_ext (λ id p, pl_VolumeWeight p * (lp_index s - lp_last s' id))
      (λ id p, pl_VolumeWeight p * (lp_index s - lp_last s id)) (delete id (k_Pool s))) in Hd2.
    2:{ intros i q [Hne _]%lookup_delete_Some. rewrite t_last_ne0; done. }
    lia.
  - lia.
  - done.
  - lia.
Qed.

(** What is owed changes by the change of the reserves and the reward settled. *)
Lemma touch_owed id p p' s s' d :
  touch id p p' s s' →
  owed s' d = owed s d + pool_holds d p' - pool_holds d p -
    (if bool_decide (d = hub_denom) then settle_owed s id p else 0).
Proof.
  intros []. unfold owed. rewrite t_pools0, map_sum_insert, t_pool0, t_auction0, t_pending0. cbn.
  case_bool_decide; lia.
Qed.

Lemma touch_lp_claims id p p' s s' i : touch id p p' s s' → lp_claims s' i = lp_claims s i.
Proof. intros []. unfold lp_claims, escrowed, pol_remaining. by rewrite t_unbond0, t_pol0. Qed.

(** The rest of the invariant does not depend on what a touch writes. *)
Lemma touch_rest id p p' s s' :
  touch id p p' s s' → auction_inv s → unbond_inv s → pol_inv s → params_inv s → stale_ok s →
  auction_inv s' ∧ unbond_inv s' ∧ pol_inv s' ∧ params_inv s' ∧ stale_ok s'.
Proof.
  intros [] Ha [] Hp Hpar Hst. split; [|split; [|split; [|split]]].
  - unfold auction_inv in *. by rewrite t_auction0, t_bids0, t_by_token0.
  - split.
    + intros t i a u. rewrite t_unbond0, t_pools0. intros (?&?&?&?&?)%ui_entry0.
      repeat (split; [done|]). by apply is_Some_insert_pool.
    + rewrite t_unbond0, t_unbond_by0. done.
  - intros i b. rewrite t_pol0, t_pools0. intros (?&?&?)%Hp. repeat (split; [done|]). by apply is_Some_insert_pool.
  - unfold params_inv in *. by rewrite t_params0.
  - by apply t_stale0.
Qed.

(** An operation on the other collections leaves the pools' part alone. *)
Record same_pools (s s' : DexStore) : Prop := {
  sp_pool : k_Pool s' = k_Pool s;
  sp_seq : k_PoolSeq s' = k_PoolSeq s;
  sp_by_token : k_PoolByToken s' = k_PoolByToken s;
  sp_index : lp_index s' = lp_index s;
  sp_last : ∀ i, lp_last s' i = lp_last s i;
  sp_pending : pending s' = pending s;
  sp_volume : total_volume s' = total_volume s;
  sp_total : default 0 (k_TotalPoolErth s') = default 0 (k_TotalPoolErth s);
}.

Lemma same_pools_inv s s' : same_pools s s' → pools_inv s → pools_inv s'.
Proof.
  intros [] []. split; rewrite ?sp_pool0, ?sp_by_token0, ?sp_index0, ?sp_pending0, ?sp_volume0, ?sp_total0, ?sp_seq0;
    try done.
  - intros id p [] %pi_pool0. split; rewrite ?sp_seq0, ?sp_by_token0, ?sp_last0, ?sp_index0; done.
  - erewrite map_sum_ext; [exact pi_rewards0|]. intros i p _. cbv beta. by rewrite sp_last0.
Qed.

Lemma same_pools_owed s s' d :
  same_pools s s' → k_LiquidityAuction s' = k_LiquidityAuction s → owed s' d = owed s d.
Proof. intros [] Ha. unfold owed. by rewrite sp_pool0, sp_pending0, Ha. Qed.

(** A touch whose bank moves match what it changed keeps the invariant. *)
Lemma touch_dex_inv id p p' w w' :
  touch id p p' (w_dex w) (w_dex w') → dex_inv w →
  (∀ d, IsLPShareDenom d = false →
    GetBalance (w_bank w') dex_addr d - GetBalance (w_bank w) dex_addr d =
    pool_holds d p' - pool_holds d p - (if bool_decide (d = hub_denom) then settle_owed (w_dex w) id p else 0)) →
  (∀ i, 0 ≤ i → GetBalance (w_bank w) dex_addr (LPShareDenom i) ≤ GetBalance (w_bank w') dex_addr (LPShareDenom i)) →
  dex_inv w'.
Proof.
  intros Ht [] Hb Hlp. pose proof (touch_rest _ _ _ _ _ Ht di_auction0 di_unbond0 di_pol0 di_params0 di_stale0)
    as (? & ? & ? & ? & ?).
  split; try done; [by eapply touch_pools_inv|]. destruct di_solvent0 as [Hs1 Hs2]. split.
  - intros d Hd. rewrite (touch_owed _ _ _ _ _ d Ht), <-(Hs1 d Hd). specialize (Hb d Hd). lia.
  - intros i Hi. rewrite (touch_lp_claims _ _ _ _ _ i Ht). specialize (Hs2 i Hi). specialize (Hlp i Hi). lia.
Qed.
End inv_lemmas.

(** ** Settle, change, write

    [settled id p s v s']: [s'] is [s] after pool [id] (record [p]) was settled and its volume set to [v],
    with no pool record written yet. *)
Section settled.
Context `{HostLaws, !ShieldedKeeper}.

Record settled (id : Z) (p : Pool) (s : DexStore) (v : Z) (s' : DexStore) : Prop := {
  st_pools : k_Pool s' = k_Pool s;
  st_total : k_TotalPoolErth s' = k_TotalPoolErth s;
  st_volume : total_volume s' = total_volume s + v - pl_VolumeWeight p;
  st_pending : pending s' = pending s - settle_owed s id p;
  st_index : lp_index s' = lp_index s;
  st_last : lp_last s' id = lp_index s;
  st_last_ne : ∀ i, i ≠ id → lp_last s' i = lp_last s i;
  st_by_token : k_PoolByToken s' = k_PoolByToken s;
  st_seq : k_PoolSeq s' = k_PoolSeq s;
  st_params : k_Params s' = k_Params s;
  st_auction : k_LiquidityAuction s' = k_LiquidityAuction s;
  st_bids : k_AuctionBids s' = k_AuctionBids s;
  st_unbond : k_LpUnbondings s' = k_LpUnbondings s;
  st_unbond_by : k_LpUnbondingsByAddr s' = k_LpUnbondingsByAddr s;
  st_pol : k_PolBurns s' = k_PolBurns s;
  st_stale : stale_ok s → stale_ok s';
}.

(** The pool's part of the running sums. *)
Lemma total_volume_ge s id p : pools_inv s → k_Pool s !! id = Some p → pl_VolumeWeight p ≤ total_volume s.
Proof.
  intros [] Hp. rewrite pi_volume0. apply (map_sum_elem_le (λ _ p, pl_VolumeWeight p) _ id p); [|done].
  intros i q Hq. apply (pi_pool0 _ _ Hq).
Qed.

Lemma total_erth_ge s id p :
  pools_inv s → k_Pool s !! id = Some p → Amount (pl_ReserveErth p) ≤ default 0 (k_TotalPoolErth s).
Proof.
  intros [] Hp. rewrite pi_total0. apply (map_sum_elem_le (λ _ p, Amount (pl_ReserveErth p)) _ id p); [|done].
  intros i q Hq. apply (pi_pool0 _ _ Hq).
Qed.

(** A settle leaves the reward credited to the pool's ERTH side. *)
Lemma settle_settled id p w p' w' :
  pools_inv (w_dex w) → k_Pool (w_dex w) !! id = Some p → settlePoolRewards id p w = Ok (p', w') →
  settled id p (w_dex w) (pl_VolumeWeight p) (w_dex w') ∧
  p' = pl_set_erth (λ c, mkCoin (Denom c) (Amount c + settle_owed (w_dex w) id p)) p ∧
  0 ≤ settle_owed (w_dex w) id p ∧ w' = upd_dex (λ _, w_dex w') w.
Proof.
  intros Hi Hp Hr. destruct (pi_pool _ Hi _ _ Hp) as [].
  apply settlePoolRewards_ok in Hr as (cum & obs & pend & last & -> & Hpe & Hl & Hln & -> & Ho & _ & _); [|done..].
  split; [|done]. unfold pending, total_volume, lp_last in *. split; cbn; try done.
  - unfold total_volume. lia.
  - intros i Hne. unfold lp_last. cbn. by rewrite Hln.
Qed.

Lemma volume_settled id p w q amt t q' w' v s :
  pools_inv s → k_Pool s !! id = Some p →
  settled id p s v (w_dex w) → pl_VolumeWeight q = v → 0 ≤ v → 0 ≤ amt → params_inv s →
  applyVolume q amt t w = Ok (q', w') →
  ∃ v', q' = pl_set_volume v' (dayOf t) q ∧ 0 ≤ v' ∧ settled id p s v' (w_dex w') ∧ w' = upd_dex (λ _, w_dex w') w.
Proof.
  intros Hi Hp [] Hq Hv Ha (ps & Hps & _ & _ & Hcap) Hr.
  apply applyVolume_ok in Hr as (vi & vd & qu & due & tot & v' & -> & -> & Hv' & Htot & _ & Hst); [|lia|done|].
  2:{ intros ps'. rewrite st_params0, Hps. intros [= <-]. unfold MaxVolumeDepthCapPerDay in *. lia. }
  exists v'. split; [done|]. split; [done|]. split; [|done].
  pose proof (total_volume_ge _ _ _ Hi Hp). unfold total_volume, pending, lp_index, lp_last in *.
  split; cbn; try done; [unfold total_volume; lia|]. intros Hok. by apply Hst, st_stale0.
Qed.

Lemma SetPool_touch id p q w w' u v s :
  pools_inv s → k_Pool s !! id = Some p → settled id p s v (w_dex w) →
  pl_PoolId q = pl_PoolId p → Denom (pl_ReserveErth q) = Denom (pl_ReserveErth p) →
  Denom (pl_ReserveToken q) = Denom (pl_ReserveToken p) →
  0 ≤ Amount (pl_ReserveErth q) → 0 ≤ Amount (pl_ReserveToken q) → pl_VolumeWeight q = v → 0 ≤ v →
  SetPool id q w = Ok (u, w') →
  touch id p q s (w_dex w') ∧ w' = upd_dex (λ _, w_dex w') w.
Proof.
  intros Hi Hp [] Hid Hd1 Hd2 Hn1 Hn2 Hw Hv Hr.
  apply SetPool_ok in Hr as (-> & Hc1 & Hc2 & _ & _). split; [|done].
  pose proof (total_erth_ge _ _ _ Hi Hp). pose proof (total_volume_ge _ _ _ Hi Hp).
  unfold total_volume, pending, lp_index, lp_last in *.
  split; cbn; try done; try lia; unfold total_volume, pending, lp_index, lp_last;
    rewrite ?st_pools0, ?Hp, ?st_total0; try done; try lia.
  destruct (Z.eqb_spec (Amount (pl_ReserveErth q) - Amount (pl_ReserveErth p)) 0); [lia|].
  cbn. case_match; lia.
Qed.
End settled.

(** ** The invariant up to coins in transit

    Inside a handler the account holds coins the records do not count yet, or has paid out coins
    they still count.  [inv_upto δ w]: the invariant, but with [δ d] coins of [d] on the account beyond what
    is owed.  Each step moves [δ]; a handler ends with [δ = 0]. *)
Section upto.
Context `{Host, !ShieldedKeeper}.

Record inv_upto (δ : string → Z) (w : World) : Prop := {
  iu_pools : pools_inv (w_dex w);
  iu_auction : auction_inv (w_dex w);
  iu_unbond : unbond_inv (w_dex w);
  iu_pol : pol_inv (w_dex w);
  iu_params : params_inv (w_dex w);
  iu_stale : stale_ok (w_dex w);
  iu_balance : ∀ d, IsLPShareDenom d = false →
    GetBalance (w_bank w) dex_addr d = owed (w_dex w) d + δ d;
  iu_shares : ∀ id, 0 ≤ id →
    lp_claims (w_dex w) id + δ (LPShareDenom id) ≤ GetBalance (w_bank w) dex_addr (LPShareDenom id);
}.
End upto.

Section upto_lemmas.
Context `{HostLaws, !ShieldedKeeper}.
Implicit Types (w : World) (δ : string → Z).

Lemma dex_inv_upto w : dex_inv w ↔ inv_upto (λ _, 0) w.
Proof.
  split; intros []; split; try done.
  - intros d Hd. destruct di_solvent0 as [Hs _]. rewrite Hs by done. lia.
  - intros i Hi. destruct di_solvent0 as [_ Hs]. specialize (Hs i Hi). lia.
  - split; [intros d Hd; rewrite iu_balance0 by done; lia|].
    intros i Hi. specialize (iu_shares0 i Hi). lia.
Qed.

(** [δ] is a function of the denoms that matter: exact off the LP denoms, a lower bound on them. *)
Lemma inv_upto_weaken δ δ' w :
  inv_upto δ w → (∀ d, IsLPShareDenom d = false → δ d = δ' d) →
  (∀ i, 0 ≤ i → δ' (LPShareDenom i) ≤ δ (LPShareDenom i)) → inv_upto δ' w.
Proof.
  intros [] He Hl. split; try done.
  - intros d Hd. rewrite iu_balance0, He by done. done.
  - intros i Hi. specialize (iu_shares0 i Hi). specialize (Hl i Hi). lia.
Qed.

(** A bank call of the module. *)
Lemma inv_upto_bank δ w src dst amt b :
  inv_upto δ w → bank_moved src dst amt (w_bank w) b →
  inv_upto (λ d, δ d - (if bool_decide (src = Some dex_addr) then AmountOf amt d else 0)
                     + (if bool_decide (dst = Some dex_addr) then AmountOf amt d else 0)) (set_w_bank b w).
Proof.
  intros [] [Hb _]. split; try done; cbn.
  - intros d Hd. rewrite Hb, iu_balance0 by done. lia.
  - intros i Hi. rewrite Hb. specialize (iu_shares0 i Hi). lia.
Qed.

Lemma inv_upto_pool_state δ w src dst amt b s :
  inv_upto δ w → bank_moved src dst amt (w_bank w) b →
  inv_upto (λ d, δ d - (if bool_decide (src = Some dex_addr) then AmountOf amt d else 0)
                     + (if bool_decide (dst = Some dex_addr) then AmountOf amt d else 0))
    (set_w_pool_state (b, s) w).
Proof. intros Hi Hb. pose proof (inv_upto_bank _ _ _ _ _ _ Hi Hb) as []. by split. Qed.

Lemma inv_upto_earth δ w f : inv_upto δ w → inv_upto δ (upd_earth f w).
Proof. intros []. by split. Qed.

(** A touch of one pool. *)
Lemma inv_upto_touch δ id p p' w w' :
  inv_upto δ w → touch id p p' (w_dex w) (w_dex w') → w_bank w' = w_bank w →
  inv_upto (λ d, δ d - (pool_holds d p' - pool_holds d p -
    (if bool_decide (d = hub_denom) then settle_owed (w_dex w) id p else 0))) w'.
Proof.
  intros [] Ht Hb. pose proof (touch_rest _ _ _ _ _ Ht iu_auction0 iu_unbond0 iu_pol0 iu_params0 iu_stale0)
    as (? & ? & ? & ? & ?).
  pose proof (pi_pool _ iu_pools0 _ _ (t_pool _ _ _ _ _ Ht)) as [].
  split; try done; [by eapply touch_pools_inv|..].
  - intros d Hd. rewrite Hb, (touch_owed _ _ _ _ _ d Ht), iu_balance0 by done. lia.
  - intros i Hi. rewrite Hb, (touch_lp_claims _ _ _ _ _ i Ht). specialize (iu_shares0 i Hi).
    assert (pool_holds (LPShareDenom i) p' - pool_holds (LPShareDenom i) p = 0) as E.
    { unfold pool_holds. rewrite (t_erth_denom _ _ _ _ _ Ht), (t_token_denom _ _ _ _ _ Ht).
      rewrite !bool_decide_eq_false_2; [lia|..]; intros E;
        [rewrite E, LPShareDenom_IsLP in po_not_lp0; done|].
      rewrite po_hub0 in E. pose proof (pi_hub _ iu_pools0) as Hh. rewrite E, LPShareDenom_IsLP in Hh. done. }
    rewrite bool_decide_eq_false_2; [lia|]. intros E'.
    pose proof (pi_hub _ iu_pools0) as Hh. rewrite <-E', LPShareDenom_IsLP in Hh. done.
Qed.

Lemma AmountOf_single d a d' : AmountOf [mkCoin d a] d' = if bool_decide (d = d') then a else 0.
Proof. rewrite AmountOf_cons, AmountOf_nil. cbn. case_bool_decide; lia. Qed.
Lemma AmountOf_coin c d' : AmountOf [c] d' = if bool_decide (Denom c = d') then Amount c else 0.
Proof. destruct c. apply AmountOf_single. Qed.
Lemma AmountOf_triple c x y d : AmountOf [c; x; y] d = AmountOf [c] d + AmountOf [x; y] d.
Proof. rewrite (AmountOf_cons c [x; y]), (AmountOf_coin c). done. Qed.
Lemma AmountOf_pair d a e c d' : AmountOf [mkCoin d a; mkCoin e c] d' =
  (if bool_decide (d = d') then a else 0) + (if bool_decide (e = d') then c else 0).
Proof. rewrite AmountOf_cons, AmountOf_single. done. Qed.
End upto_lemmas.

(** ** Balance changes

    [moved w w' k]: every balance changed by [k]. *)
Section moved.
Context `{HostLaws, !ShieldedKeeper}.
Implicit Types (w : World) (δ : string → Z) (k : bytes → string → Z).

Definition moved w w' k : Prop :=
  ∀ a d, GetBalance (w_bank w') a d = GetBalance (w_bank w) a d + k a d.

(** [x] to account [b], nothing to the others. *)
Definition at_ (b : bytes) (x : string → Z) (a : bytes) (d : string) : Z :=
  if bool_decide (a = b) then x d else 0.

Lemma at_eq b x d : at_ b x b d = x d.
Proof. unfold at_. by rewrite bool_decide_eq_true_2. Qed.
Lemma at_ne a b x d : a ≠ b → at_ b x a d = 0.
Proof. intros. unfold at_. by rewrite bool_decide_eq_false_2. Qed.

Lemma moved_refl w w' : w_bank w' = w_bank w → moved w w' (λ _ _, 0).
Proof. intros Hw a d. rewrite Hw. lia. Qed.

Lemma moved_trans w w' w'' k k' : moved w w' k → moved w' w'' k' → moved w w'' (λ a d, k a d + k' a d).
Proof. intros Hk Hk' a d. rewrite Hk', Hk. lia. Qed.

Lemma moved_bank src dst amt w b :
  bank_moved src dst amt (w_bank w) b →
  moved w (set_w_bank b w) (λ a d,
    (if bool_decide (dst = Some a) then AmountOf amt d else 0) -
    (if bool_decide (src = Some a) then AmountOf amt d else 0)).
Proof. intros [Hb _] a d. cbn. rewrite Hb. lia. Qed.

Lemma inv_upto_moved δ w w' k :
  inv_upto δ w → w_dex w' = w_dex w → moved w w' k → inv_upto (λ d, δ d + k dex_addr d) w'.
Proof.
  intros [] Hd Hk. split; rewrite ?Hd; try done.
  - intros d Hl. rewrite Hk, iu_balance0 by done. lia.
  - intros i Hi. rewrite Hk. specialize (iu_shares0 i Hi). lia.
Qed.

Lemma inv_upto_touch_moved δ id p p' w w' k :
  inv_upto δ w → touch id p p' (w_dex w) (w_dex w') → moved w w' k →
  inv_upto (λ d, δ d + k dex_addr d - (pool_holds d p' - pool_holds d p -
    (if bool_decide (d = hub_denom) then settle_owed (w_dex w) id p else 0))) w'.
Proof.
  intros Hi Ht Hk.
  set (w0 := {| w_nanos := w_nanos w'; w_bank := w_bank w'; w_shielded := w_shielded w';
                w_earth := w_earth w'; w_dex := w_dex w |}).
  pose proof (inv_upto_moved δ w w0 k Hi eq_refl Hk) as Hi0.
  exact (inv_upto_touch _ id p p' w0 w' Hi0 Ht eq_refl).
Qed.

(** The LP denoms are not the hub's nor any pool's reserve. *)
Lemma lp_ne_hub s i : pools_inv s → LPShareDenom i ≠ hub_denom.
Proof. intros Hi E. pose proof (pi_hub _ Hi) as Hh. rewrite <-E, LPShareDenom_IsLP in Hh. done. Qed.

Lemma lp_ne d i : IsLPShareDenom d = false → d ≠ LPShareDenom i.
Proof. intros Hd ->. by rewrite LPShareDenom_IsLP in Hd. Qed.

(** Minting shares to an account leaves the module's own balance as it was. *)
Lemma mintShares_ok recipient d amt w u w' :
  mintShares recipient (mkCoin d amt) w = Ok (u, w') →
  recipient ≠ dex_addr ∧ w_dex w' = w_dex w ∧ w_nanos w' = w_nanos w ∧
  moved w w' (at_ recipient (AmountOf [mkCoin d amt])) ∧
  (∀ d', GetSupply (w_bank w') d' = GetSupply (w_bank w) d' + AmountOf [mkCoin d amt] d').
Proof.
  unfold mintShares. intros Hr.
  apply bind_ok in Hr as (cs & w1 & [[Hcs _]%NewCoins_spec ->]%lift_ok & Hr).
  apply bind_ok in Hr as ([] & w1 & Hm & Hs). apply bank_ok in Hm as (b & Hm & ->).
  apply bank_ok in Hs as (b' & Hs & ->).
  assert (recipient ≠ dex_addr) as Hne.
  { intros ->. cbn in Hs. by apply SendM2A_blocked in Hs. }
  apply MintCoins_spec in Hm as [Hm1 Hm2]. apply SendM2A_spec in Hs as [Hs1 Hs2]. fold dex_addr in *.
  split; [done|]. do 2 (split; [done|]). split.
  - intros a d'. unfold at_. cbn in *. rewrite Hs1, Hm1, Hcs.
    repeat case_bool_decide; simplify_eq; lia.
  - intros d'. cbn in *. rewrite Hs2, Hm2, Hcs. repeat case_bool_decide; simplify_eq; lia.
Qed.

(** The retirement schedules rewritten at one pool. *)
Lemma pol_schedules δ w id m :
  inv_upto δ w → 0 ≤ id → (∀ i, i ≠ id → m !! i = k_PolBurns (w_dex w) !! i) →
  pol_inv (set_k_PolBurns (λ _, m) (w_dex w)) →
  inv_upto (λ d, δ d - (if bool_decide (LPShareDenom id = d)
      then pol_remaining (set_k_PolBurns (λ _, m) (w_dex w)) id - pol_remaining (w_dex w) id else 0))
    (upd_dex (set_k_PolBurns (λ _, m)) w).
Proof.
  intros [] Hid Hm Hp. split; try done;
    [by eapply same_pools_inv; [|exact iu_pools0]|by destruct iu_unbond0; split|..].
  - intros d Hl. cbn. rewrite iu_balance0 by done.
    rewrite bool_decide_eq_false_2 by (apply not_eq_sym; by apply lp_ne). unfold owed, pending. cbn. lia.
  - intros i Hi. specialize (iu_shares0 i Hi). unfold lp_claims, escrowed in *. cbn.
    destruct (decide (i = id)) as [->|Hne].
    + rewrite bool_decide_eq_true_2 by done. unfold pol_remaining in *. cbn. lia.
    + rewrite bool_decide_eq_false_2 by (by intros E%LPShareDenom_inj).
      unfold pol_remaining in *. cbn. rewrite Hm by done. lia.
Qed.
End moved.
