(* ===== verification/DexSwap.v ===== *)
(** * x/dex: swaps

    [x/dex/keeper/msg_server_swap.go]: the hops through the hub, the parties a swap pays and is paid
    by, and [MsgSwap]; the quotes of [twap.go], [note_paths.go] and [query_simulate.go], which run
    the same swap on a branch they drop. *)

From S2P Require Export DexInv DexAmm Earth.

Definition pl_set_reserves (erth token : Z) (p : Pool) : Pool :=
  {| pl_PoolId := pl_PoolId p;
     pl_ReserveErth := mkCoin (Denom (pl_ReserveErth p)) erth;
     pl_ReserveToken := mkCoin (Denom (pl_ReserveToken p)) token;
     pl_VolumeWeight := pl_VolumeWeight p; pl_LastTradedDay := pl_LastTradedDay p |}.

(** [swapParty]: an account, a module, or the dex itself ([sp_held]). *)
Record swapParty := { sp_addr : bytes; sp_module : string; sp_held : bool }.
Definition held : swapParty := {| sp_addr := []; sp_module := ""; sp_held := true |}.
Definition account_party (a : bytes) : swapParty := {| sp_addr := a; sp_module := ""; sp_held := false |}.
Definition module_party (m : string) : swapParty := {| sp_addr := []; sp_module := m; sp_held := false |}.

(** (fee, burn) *)
Record swapFees := { sf_fee : Z; sf_burn : Z }.

Record MsgSwap := {
  sw_Creator : string; sw_TokenIn : Coin; sw_DenomOut : string; sw_MinAmountOut : string;
}.

Section dex_swap.
Context `{Host, !ShieldedKeeper}.

Definition escrow (p : swapParty) (amt : Coins) : M () :=
  if sp_held p then mret ()
  else if negb (bool_decide (sp_module p = "")) then
    bank (SendCoinsFromModuleToModule (sp_module p) ModuleName amt)
  else bank (SendCoinsFromAccountToModule (sp_addr p) ModuleName amt).

Definition pay (p : swapParty) (amt : Coins) : M () :=
  if sp_held p then mret ()
  else if negb (bool_decide (sp_module p = "")) then
    bank (SendCoinsFromModuleToModule ModuleName (sp_module p) amt)
  else bank (SendCoinsFromModuleToAccount ModuleName (sp_addr p) amt).

Definition isAccount (p : swapParty) : bool := negb (sp_held p) && bool_decide (sp_module p = "").

(** (out, burn, fee) *)
Definition hopTokenToHub (tokenDenom : string) (amountIn swapFee : Z) : M (Z * Z * Z) :=
  refuse_if (negb (WithinPoolCap amountIn)) ErrPoolCap;;
  pool ← or_error (PoolForToken tokenDenom) ErrPoolNotFound;
  pool ← settlePoolRewards (pl_PoolId pool) pool;
  r ← lift (swapTokenForHub (Amount (pl_ReserveErth pool)) (Amount (pl_ReserveToken pool)) amountIn swapFee);
  refuse_if (negb (0 <? amountOut r) || negb (0 <? newReserveErth r)) ErrInsufficientPool;;
  let pool := pl_set_reserves (newReserveErth r) (newReserveToken r) pool in
  t ← now;
  pool ← applyVolume pool (volumeErth r) t;
  SetPool (pl_PoolId pool) pool;;
  mret (amountOut r, burnErth r, feeErth r).

Definition hopHubToToken (tokenDenom : string) (amountErthIn swapFee : Z) : M (Z * Z * Z) :=
  refuse_if (negb (WithinPoolCap amountErthIn)) ErrPoolCap;;
  pool ← or_error (PoolForToken tokenDenom) ErrPoolNotFound;
  pool ← settlePoolRewards (pl_PoolId pool) pool;
  r ← lift (swapHubForToken (Amount (pl_ReserveErth pool)) (Amount (pl_ReserveToken pool)) amountErthIn swapFee);
  refuse_if (negb (0 <? amountOut r) || negb (0 <? newReserveToken r)) ErrInsufficientPool;;
  let pool := pl_set_reserves (newReserveErth r) (newReserveToken r) pool in
  t ← now;
  pool ← applyVolume pool (volumeErth r) t;
  SetPool (pl_PoolId pool) pool;;
  mret (amountOut r, burnErth r, feeErth r).

(** The route through the hub: (outAmt, totalBurn, totalFee). *)
Definition swap_route (hub : string) (tokenIn : Coin) (denomOut : string) (fee : Z) : M (Z * Z * Z) :=
  if bool_decide (Denom tokenIn = hub) then hopHubToToken denomOut (Amount tokenIn) fee
  else if bool_decide (denomOut = hub) then hopTokenToHub (Denom tokenIn) (Amount tokenIn) fee
  else
    '(erthMid, burn1, fee1) ← hopTokenToHub (Denom tokenIn) (Amount tokenIn) fee;
    '(out, burn2, fee2) ← hopHubToToken denomOut erthMid fee;
    totalBurn ← lift (IntAdd burn1 burn2);
    totalFee ← lift (IntAdd fee1 fee2);
    mret (out, totalBurn, totalFee).

Definition swapExactInFees (from to : swapParty) (tokenIn : Coin) (denomOut : string) (minOut : Z) :
    M (Coin * swapFees) :=
  refuse_if (negb (0 <? Amount tokenIn)) ErrInvalidAmount;;
  refuse_if (negb (WithinPoolCap (Amount tokenIn))) ErrPoolCap;;
  refuse_if (bool_decide (denomOut = Denom tokenIn)) ErrInvalidDenom;;
  (if isAccount from then lift (refuseShieldedOnly [Denom tokenIn]) else mret ());;
  (if isAccount to then lift (refuseShieldedOnly [denomOut]) else mret ());;
  hub ← HubDenom;
  params ← item k_Params;
  let fee := SwapFee params in
  coins ← lift (NewCoins [tokenIn]);
  escrow from coins;;
  '(outAmt, totalBurn, totalFee) ← swap_route hub tokenIn denomOut fee;
  refuse_if (negb (0 <? outAmt)) ErrInsufficientPool;;
  refuse_if (outAmt <? minOut) ErrSlippage;;
  tokenOut ← lift (NewCoin denomOut outAmt);
  coins ← lift (NewCoins [tokenOut]);
  pay to coins;;
  (if 0 <? totalBurn then
     c ← lift (NewCoin hub totalBurn);
     burned ← lift (NewCoins [c]);
     bank (BurnCoins ModuleName burned);;
     RecordBurn SourceSwapFee burned
   else mret ());;
  mret (tokenOut, {| sf_fee := totalFee; sf_burn := totalBurn |}).

Definition swapExactIn (from to : swapParty) (tokenIn : Coin) (denomOut : string) (minOut : Z) : M Coin :=
  '(out, _) ← swapExactInFees from to tokenIn denomOut minOut;
  mret out.

Definition SwapExactIn (trader : bytes) (tokenIn : Coin) (denomOut : string) (minOut : Z) : M Coin :=
  let p := account_party trader in
  swapExactIn p p tokenIn denomOut minOut.

Definition SwapExactInForModule (moduleName : string) (tokenIn : Coin) (denomOut : string) (minOut : Z) : M Coin :=
  let p := module_party moduleName in
  swapExactIn p p tokenIn denomOut minOut.

(** [NewIntFromString], then [!ok || IsNegative]. *)
Definition parse_min (s : string) : outcome Z :=
  match NewIntFromString s with
  | Some v => if v <? 0 then Err ErrInvalidAmount else Ok v
  | None => Err ErrInvalidAmount
  end.

Definition Swap (msg : MsgSwap) : M Coin :=
  creatorBz ← lift (StringToBytes (sw_Creator msg));
  minOut ← lift (parse_min (sw_MinAmountOut msg));
  SwapExactIn creatorBz (sw_TokenIn msg) (sw_DenomOut msg) minOut.

(** ** Quotes: the swap on a branch whose writes are dropped *)
Definition discard {A} (m : M A) : M A := λ w,
  match m w with Ok (a, _) => Ok (a, w) | Err e => Err e | Panic => Panic end.

Definition simulateSwapExactIn (tokenIn : Coin) (denomOut : string) : M (Coin * swapFees) :=
  discard (swapExactInFees held held tokenIn denomOut 0).

Definition SimulateSwapExactIn (tokenIn : Coin) (denomOut : string) : M Coin :=
  '(out, _) ← simulateSwapExactIn tokenIn denomOut;
  mret out.

Definition QuoteHubToToken (tokenDenom : string) (amountErthIn : Z) : M Z :=
  refuse_if (negb (0 <? amountErthIn)) ErrInvalidAmount;;
  params ← item k_Params;
  '(out, _, _) ← discard (hopHubToToken tokenDenom amountErthIn (SwapFee params));
  mret out.

(** (cumulative, spot, observedAt) *)
Definition TwapObservation (tokenDenom : string) : M (Z * Z * Z) :=
  pool ← or_error (PoolForToken tokenDenom) ErrPoolNotFound;
  p ← lift (spotPrice pool);
  match p with
  | None => fail ErrInsufficientPool
  | Some price =>
      advancePriceCumulative (pl_PoolId pool) pool;;
      '(cum, at_) ← getPriceCumulative (pl_PoolId pool);
      mret (cum, price, at_)
  end.
End dex_swap.

Section dex_swap_lemmas.
Context `{HostLaws, !ShieldedKeeper}.

Lemma PoolForToken_ok d w p w' :
  pools_inv (w_dex w) → PoolForToken d w = Ok (p, w') →
  w' = w ∧ k_Pool (w_dex w) !! pl_PoolId p = Some p ∧ Denom (pl_ReserveToken p) = d ∧
  pool_ok (w_dex w) (pl_PoolId p) p.
Proof.
  intros Hi. unfold PoolForToken, PoolGet. intros Hr.
  apply bind_ok in Hr as (id & w1 & [Hid ->]%item_ok & [Hp ->]%item_ok).
  destruct (pi_by_token _ Hi _ _ Hid) as (q & Hq & Hd).
  assert (q = p) as -> by congruence.
  pose proof (pi_pool _ Hi _ _ Hq) as Hok. pose proof (po_id _ _ _ Hok) as ->. done.
Qed.

(** What a hop did: one pool settled, its volume counted and its reserves moved; nothing else of
    the world changed. *)
Definition hop_done (d : string) (dErth dToken : Z) (w w' : World) : Prop :=
  ∃ id p p', touch id p p' (w_dex w) (w_dex w') ∧ w' = upd_dex (λ _, w_dex w') w ∧
    Denom (pl_ReserveToken p) = d ∧
    Amount (pl_ReserveErth p') = Amount (pl_ReserveErth p) + settle_owed (w_dex w) id p + dErth ∧
    Amount (pl_ReserveToken p') = Amount (pl_ReserveToken p) + dToken ∧
    (Amount (pl_ReserveErth p) + settle_owed (w_dex w) id p) * Amount (pl_ReserveToken p) ≤
      Amount (pl_ReserveErth p') * Amount (pl_ReserveToken p').

(** The part the two hops share: from the settled pool to the written one. *)
Lemma hop_write id p (w w1 : World) p1 e t vol p2 w2 w3 u :
  pools_inv (w_dex w) → params_inv (w_dex w) → k_Pool (w_dex w) !! id = Some p →
  settlePoolRewards id p w = Ok (p1, w1) →
  applyVolume (pl_set_reserves e t p1) vol (unix w1) w1 = Ok (p2, w2) → SetPool (pl_PoolId p2) p2 w2 = Ok (u, w3) →
  0 ≤ e → 0 ≤ t → 0 ≤ vol →
  touch id p p2 (w_dex w) (w_dex w3) ∧ w3 = upd_dex (λ _, w_dex w3) w ∧
  Amount (pl_ReserveErth p2) = e ∧ Amount (pl_ReserveToken p2) = t.
Proof.
  intros Hi Hps Hp Hs Ha Hw He Ht Hv. destruct (pi_pool _ Hi _ _ Hp) as [].
  destruct (settle_settled _ _ _ _ _ Hi Hp Hs) as (Hst & -> & Ho & Hw1).
  eapply volume_settled in Ha as (v & -> & Hv0 & Hst2 & Hw2); [|exact Hi|exact Hp|exact Hst|done..].
  cbn in Hw. rewrite po_id in Hw.
  eapply SetPool_touch in Hw as [Ht' Hw3]; [|exact Hi|exact Hp|exact Hst2|cbn; done..].
  split; [exact Ht'|]. split; [|done]. rewrite Hw3, Hw2, Hw1. done.
Qed.

Lemma hopTokenToHub_ok d x f w out burn fee w' :
  pools_inv (w_dex w) → params_inv (w_dex w) → 0 < x → 0 ≤ f ≤ 10 * dec_one →
  hopTokenToHub d x f w = Ok (out, burn, fee, w') →
  hop_done d (- out - burn) x w w' ∧ 0 < out ∧ 0 ≤ burn ≤ fee.
Proof.
  intros Hi Hps Hx Hf Hr. unfold hopTokenToHub in Hr. unfold dec_one in *.
  apply bind_ok in Hr as ([] & w1 & [_ ->]%refuse_if_ok & Hr).
  apply bind_ok in Hr as (p & w1 & Hp%or_error_ok & Hr).
  apply PoolForToken_ok in Hp as (-> & Hp & Hd & Hok); [|done].
  apply bind_ok in Hr as (p1 & w1 & Hs & Hr).
  apply bind_ok in Hr as (r & w2 & [Hsw ->]%lift_ok & Hr).
  apply bind_ok in Hr as ([] & w2 & [Hpos ->]%refuse_if_ok & Hr).
  apply bind_ok in Hr as (t & w2 & [-> ->]%now_ok & Hr).
  apply bind_ok in Hr as (p2 & w2 & Ha & Hr).
  apply bind_ok in Hr as ([] & w3 & Hset & [= -> -> -> ->]%ret_ok).
  destruct Hok. destruct (settle_settled _ _ _ _ _ Hi Hp Hs) as (_ & Hp1 & Ho & _).
  rewrite Hp1 in Hsw. cbn in Hsw.
  pose proof Hsw as (Hv & Hb & [Hbf Hfv] & Hout & He & Ht)%swapTokenForHub_ok; [|lia..].
  pose proof Hsw as (Hk & Hne & _)%swapTokenForHub_product; [|lia..].
  assert (0 ≤ volumeErth r) by (rewrite Hv; apply Z.div_pos; nia).
  destruct (hop_write _ _ _ _ _ _ _ _ _ _ _ _ Hi Hps Hp Hs Ha Hset) as (Htouch & Hw' & HE & HT); [lia..|].
  split; [|lia]. exists (pl_PoolId p), p, p2. rewrite HE, HT. split_and!; done || lia.
Qed.

Lemma hopHubToToken_ok d x f w out burn fee w' :
  pools_inv (w_dex w) → params_inv (w_dex w) → 0 < x → 0 ≤ f ≤ 10 * dec_one →
  hopHubToToken d x f w = Ok (out, burn, fee, w') →
  hop_done d (x - burn) (- out) w w' ∧ 0 < out ∧ 0 ≤ burn ≤ fee.
Proof.
  intros Hi Hps Hx Hf Hr. unfold hopHubToToken in Hr. unfold dec_one in *.
  apply bind_ok in Hr as ([] & w1 & [_ ->]%refuse_if_ok & Hr).
  apply bind_ok in Hr as (p & w1 & Hp%or_error_ok & Hr).
  apply PoolForToken_ok in Hp as (-> & Hp & Hd & Hok); [|done].
  apply bind_ok in Hr as (p1 & w1 & Hs & Hr).
  apply bind_ok in Hr as (r & w2 & [Hsw ->]%lift_ok & Hr).
  apply bind_ok in Hr as ([] & w2 & [Hpos ->]%refuse_if_ok & Hr).
  apply bind_ok in Hr as (t & w2 & [-> ->]%now_ok & Hr).
  apply bind_ok in Hr as (p2 & w2 & Ha & Hr).
  apply bind_ok in Hr as ([] & w3 & Hset & [= -> -> -> ->]%ret_ok).
  destruct Hok. destruct (settle_settled _ _ _ _ _ Hi Hp Hs) as (_ & Hp1 & Ho & _).
  rewrite Hp1 in Hsw. cbn in Hsw.
  pose proof Hsw as (Hv & Hb & [Hbf Hfv] & _ & Hout & He & Ht)%swapHubForToken_ok; [|lia..].
  pose proof Hsw as (Hk & Hne & Hnt & _)%swapHubForToken_product; [|lia..].
  destruct (hop_write _ _ _ _ _ _ _ _ _ _ _ _ Hi Hps Hp Hs Ha Hset) as (Htouch & Hw' & HE & HT); [lia..|].
  split; [|lia]. exists (pl_PoolId p), p, p2. rewrite HE, HT. split_and!; done || lia.
Qed.
End dex_swap_lemmas.

Section dex_swap_inv.
Context `{HostLaws, !ShieldedKeeper}.
Implicit Types (w : World) (δ : string → Z).

Lemma hop_upto δ d e t w w' :
  inv_upto δ w → hop_done d e t w w' →
  inv_upto (λ d', δ d' - (if bool_decide (hub_denom = d') then e else 0)
                       - (if bool_decide (d = d') then t else 0)) w'.
Proof.
  intros Hi (id & p & p' & Ht & Hw & Hd & He & Htk & _).
  pose proof (inv_upto_touch _ _ _ _ _ _ Hi Ht ltac:(by rewrite Hw)) as Hi'.
  pose proof (po_hub _ _ _ (pi_pool _ (iu_pools _ _ Hi) _ _ (t_pool _ _ _ _ _ Ht))) as Hhub.
  eapply inv_upto_weaken; [exact Hi'|intros d' _|intros i _; apply Z.eq_le_incl, eq_sym]; cbv beta.
  all: unfold pool_holds; rewrite (t_erth_denom _ _ _ _ _ Ht), (t_token_denom _ _ _ _ _ Ht), He, Htk, Hd, Hhub;
    rewrite !(bool_decide_ext (_ = hub_denom) (hub_denom = _)) by done; repeat case_bool_decide; lia.
Qed.

Lemma swap_route_upto δ tokenIn denomOut fee w out burn tfee w' :
  inv_upto δ w → 0 < Amount tokenIn → 0 ≤ fee ≤ 10 * dec_one →
  swap_route hub_denom tokenIn denomOut fee w = Ok (out, burn, tfee, w') →
  inv_upto (λ d, δ d - AmountOf [tokenIn] d + (if bool_decide (hub_denom = d) then burn else 0)
                     + (if bool_decide (denomOut = d) then out else 0)) w' ∧
  w' = upd_dex (λ _, w_dex w') w ∧ 0 ≤ burn ≤ tfee.
Proof.
  intros Hi Hx Hf Hr. unfold swap_route in Hr.
  pose proof (iu_pools _ _ Hi) as Hp. pose proof (iu_params _ _ Hi) as Hps.
  destruct (decide (Denom tokenIn = hub_denom)) as [Hin|Hin].
  - rewrite bool_decide_eq_true_2 in Hr by done.
    apply hopHubToToken_ok in Hr as (Hd & Hout & Hb); [|done..].
    pose proof (hop_upto _ _ _ _ _ _ Hi Hd) as Hi'. destruct Hd as (? & ? & ? & _ & Hw & _).
    split; [|split; [done|lia]]. eapply inv_upto_weaken; [exact Hi'|intros d _|intros i _; apply Z.eq_le_incl, eq_sym];
      cbv beta; rewrite AmountOf_coin, Hin; repeat case_bool_decide; lia.
  - rewrite bool_decide_eq_false_2 in Hr by done.
    destruct (decide (denomOut = hub_denom)) as [Hout|Hout].
    + rewrite bool_decide_eq_true_2 in Hr by done.
      apply hopTokenToHub_ok in Hr as (Hd & Ho & Hb); [|done..].
      pose proof (hop_upto _ _ _ _ _ _ Hi Hd) as Hi'. destruct Hd as (? & ? & ? & _ & Hw & _).
      split; [|split; [done|lia]]. eapply inv_upto_weaken; [exact Hi'|intros d _|intros i _; apply Z.eq_le_incl, eq_sym];
        cbv beta; rewrite AmountOf_coin, Hout; repeat case_bool_decide; lia.
    + rewrite bool_decide_eq_false_2 in Hr by done.
      apply bind_ok in Hr as ([[mid b1] f1] & w1 & Hh1 & Hr).
      apply bind_ok in Hr as ([[o b2] f2] & w2 & Hh2 & Hr). host_inv. run_inv.
      apply hopTokenToHub_ok in Hh1 as (Hd1 & Ho1 & Hb1); [|done..].
      pose proof (hop_upto _ _ _ _ _ _ Hi Hd1) as Hi1.
      apply hopHubToToken_ok in Hh2 as (Hd2 & Ho2 & Hb2); [|apply (iu_pools _ _ Hi1)|apply (iu_params _ _ Hi1)|done..].
      pose proof (hop_upto _ _ _ _ _ _ Hi1 Hd2) as Hi2.
      destruct Hd1 as (? & ? & ? & _ & Hw1 & _). destruct Hd2 as (? & ? & ? & _ & Hw2 & _).
      split; [|split; [rewrite Hw2, Hw1; done|lia]].
      eapply inv_upto_weaken; [exact Hi2|intros d _|intros i _; apply Z.eq_le_incl, eq_sym];
        cbv beta; rewrite AmountOf_coin; repeat case_bool_decide; lia.
Qed.

(** A party that is not the dex under another name. *)
Definition outside (p : swapParty) : Prop :=
  sp_held p = true ∨ (sp_module p ≠ "" ∧ sp_module p ≠ ModuleName) ∨ (sp_module p = "" ∧ sp_addr p ≠ dex_addr).

Definition party_addr (p : swapParty) : bytes :=
  if bool_decide (sp_module p = "") then sp_addr p else NewModuleAddress (sp_module p).

Lemma party_addr_ne p : outside p → sp_held p = false → party_addr p ≠ dex_addr.
Proof.
  unfold outside, party_addr, dex_addr. intros [?|[[Hm Hne]|[Hm Hne]]] Hh; [congruence|..].
  - rewrite bool_decide_eq_false_2 by done. intros E%NewModuleAddress_inj. done.
  - by rewrite bool_decide_eq_true_2.
Qed.

Lemma escrow_ok p amt w u w' : escrow p amt w = Ok (u, w') →
  if sp_held p then w' = w
  else ∃ b, w' = set_w_bank b w ∧ bank_moved (Some (party_addr p)) (Some dex_addr) amt (w_bank w) b.
Proof.
  unfold escrow, party_addr. destruct (sp_held p); intros Hr; [by run_inv|].
  case_bool_decide; cbn in Hr; run_inv; eexists; (split; [done|]); by bank_step.
Qed.

Lemma pay_ok p amt w u w' : pay p amt w = Ok (u, w') →
  if sp_held p then w' = w
  else ∃ b, w' = set_w_bank b w ∧ bank_moved (Some dex_addr) (Some (party_addr p)) amt (w_bank w) b.
Proof.
  unfold pay, party_addr. destruct (sp_held p); intros Hr; [by run_inv|].
  case_bool_decide; cbn in Hr; run_inv; eexists; (split; [done|]); by bank_step.
Qed.

(** The whole swap: the reserves and the burn account for every coin that moved. *)
Lemma swapExactInFees_upto δ from to tokenIn denomOut minOut w out fees w' :
  inv_upto δ w → outside from → outside to →
  swapExactInFees from to tokenIn denomOut minOut w = Ok (out, fees, w') →
  inv_upto (λ d, δ d - (if sp_held from then AmountOf [tokenIn] d else 0)
                     + (if sp_held to then AmountOf [out] d else 0)) w' ∧
  Denom out = denomOut ∧ 0 < Amount out ∧ minOut ≤ Amount out ∧ 0 ≤ sf_burn fees ≤ sf_fee fees ∧
  (∀ a d, a ≠ dex_addr → GetBalance (w_bank w') a d = GetBalance (w_bank w) a d
     - (if negb (sp_held from) && bool_decide (a = party_addr from) then AmountOf [tokenIn] d else 0)
     + (if negb (sp_held to) && bool_decide (a = party_addr to) then AmountOf [out] d else 0)) ∧
  (∀ d, GetSupply (w_bank w') d = GetSupply (w_bank w) d - (if bool_decide (d = hub_denom) then sf_burn fees else 0)) ∧
  (∀ src d, burned w' src d = burned w src d +
     (if bool_decide (src = SourceSwapFee ∧ d = hub_denom) then sf_burn fees else 0)).
Proof.
  intros Hi Hfrom Hto Hr. unfold swapExactInFees in Hr.
  apply bind_ok in Hr as ([] & w1 & [Hpos ->]%refuse_if_ok & Hr).
  apply bind_ok in Hr as ([] & w1 & [_ ->]%refuse_if_ok & Hr).
  apply bind_ok in Hr as ([] & w1 & [Hne ->]%refuse_if_ok & Hr).
  apply bind_ok in Hr as ([] & w1 & Hc1 & Hr).
  assert (w1 = w) as -> by (destruct (isAccount from); by run_inv). clear Hc1.
  apply bind_ok in Hr as ([] & w1 & Hc1 & Hr).
  assert (w1 = w) as -> by (destruct (isAccount to); by run_inv). clear Hc1.
  apply bind_ok in Hr as (hub & w1 & [Hhub ->]%lift_ok & Hr).
  rewrite host_bond_denom in Hhub. injection Hhub as <-.
  apply bind_ok in Hr as (ps & w1 & [Hps ->]%item_ok & Hr).
  destruct (iu_params _ _ Hi) as (ps' & Hps' & Hfee & _). simplify_eq.
  apply bind_ok in Hr as (cin & w1 & [[Hcin _]%NewCoins_spec ->]%lift_ok & Hr).
  apply bind_ok in Hr as ([] & w1 & He & Hr). apply escrow_ok in He.
  apply bind_ok in Hr as ([[o burn] tfee] & w2 & Hroute & Hr).
  apply bind_ok in Hr as ([] & w3 & [Hopos ->]%refuse_if_ok & Hr).
  apply bind_ok in Hr as ([] & w3 & [Hmin ->]%refuse_if_ok & Hr).
  apply bind_ok in Hr as (tout & w3 & [[-> _]%NewCoin_spec ->]%lift_ok & Hr).
  apply bind_ok in Hr as (cout & w3 & [[Hcout _]%NewCoins_spec ->]%lift_ok & Hr).
  apply bind_ok in Hr as ([] & w3 & Hpay & Hr). apply pay_ok in Hpay.
  apply bind_ok in Hr as ([] & w4 & Hburn & [= -> -> <-]%ret_ok). cbn [sf_fee sf_burn Denom Amount].
  assert (0 < Amount tokenIn) by lia.
  (* escrow *)
  assert (inv_upto (λ d, δ d + (if sp_held from then 0 else AmountOf [tokenIn] d)) w1 ∧
    (∀ a d, a ≠ dex_addr → GetBalance (w_bank w1) a d = GetBalance (w_bank w) a d
     - (if negb (sp_held from) && bool_decide (a = party_addr from) then AmountOf [tokenIn] d else 0)) ∧
    (∀ d, GetSupply (w_bank w1) d = GetSupply (w_bank w) d) ∧ w_earth w1 = w_earth w) as (Hi1 & Hb1 & Hs1 & He1).
  { destruct (sp_held from) eqn:Hh.
    - subst w1. split; [|split]; [|intros; cbn; lia|done]. eapply inv_upto_weaken; [exact Hi|intros; cbv beta; lia..].
    - destruct He as (b & -> & Hm). pose proof (party_addr_ne _ Hfrom Hh).
      pose proof (inv_upto_bank _ _ _ _ _ _ Hi Hm) as Hi1. destruct Hm as [Hb Hs]. split; [|split].
      + eapply inv_upto_weaken; [exact Hi1|intros d _|intros i _]; cbv beta; rewrite Hcin;
          rewrite bool_decide_eq_false_2, bool_decide_eq_true_2 by congruence; lia.
      + intros a d Ha. cbn. rewrite Hb, Hcin. repeat case_bool_decide; simplify_eq; lia.
      + split; [|done]. intros d. cbn. rewrite Hs, !bool_decide_eq_false_2 by done. lia. }
  (* the route *)
  apply (swap_route_upto _ _ _ _ _ _ _ _ _ Hi1) in Hroute as (Hi2 & Hw2 & Hburn0); [|lia|done].
  assert (w_bank w2 = w_bank w1) as Hbk2 by (rewrite Hw2; done).
  (* paying out *)
  assert (inv_upto (λ d, δ d - (if sp_held from then AmountOf [tokenIn] d else 0)
      + (if bool_decide (hub_denom = d) then burn else 0)
      + (if sp_held to then AmountOf [mkCoin denomOut o] d else 0)) w3 ∧
    (∀ a d, a ≠ dex_addr → GetBalance (w_bank w3) a d = GetBalance (w_bank w1) a d
     + (if negb (sp_held to) && bool_decide (a = party_addr to) then AmountOf [mkCoin denomOut o] d else 0)) ∧
    (∀ d, GetSupply (w_bank w3) d = GetSupply (w_bank w1) d) ∧ w_earth w3 = w_earth w1) as (Hi3 & Hb3 & Hs3 & He3).
  { assert (w_earth w2 = w_earth w1) as He2 by (rewrite Hw2; done). destruct (sp_held to) eqn:Hh.
    - subst w3. rewrite Hbk2. split; [|split]; [|intros; cbn; lia|done].
      eapply inv_upto_weaken; [exact Hi2|intros d _|intros i _]; cbv beta; rewrite AmountOf_single;
        destruct (sp_held from); lia.
    - destruct Hpay as (b & -> & Hm). pose proof (party_addr_ne _ Hto Hh).
      pose proof (inv_upto_bank _ _ _ _ _ _ Hi2 Hm) as Hi3. destruct Hm as [Hb Hs]. rewrite Hbk2 in Hb, Hs.
      split; [|split].
      + eapply inv_upto_weaken; [exact Hi3|intros d _|intros i _]; cbv beta; rewrite Hcout, AmountOf_single;
          rewrite (bool_decide_eq_true_2 (Some dex_addr = _)) by done;
          rewrite (bool_decide_eq_false_2 (Some (party_addr to) = _)) by congruence;
          destruct (sp_held from); lia.
      + intros a d Ha. cbn. rewrite Hb, Hcout. repeat case_bool_decide; simplify_eq; lia.
      + split; [|exact He2]. intros d. cbn. rewrite Hs, !bool_decide_eq_false_2 by done. lia. }
  (* the burn *)
  assert (inv_upto (λ d, δ d - (if sp_held from then AmountOf [tokenIn] d else 0)
      + (if sp_held to then AmountOf [mkCoin denomOut o] d else 0)) w' ∧
    (∀ a d, a ≠ dex_addr → GetBalance (w_bank w') a d = GetBalance (w_bank w3) a d) ∧
    (∀ d, GetSupply (w_bank w') d = GetSupply (w_bank w3) d - (if bool_decide (d = hub_denom) then burn else 0)) ∧
    (∀ src d, burned w' src d = burned w3 src d + (if bool_decide (src = SourceSwapFee ∧ d = hub_denom) then burn else 0)))
    as (Hi4 & Hb4 & Hs4 & Hr4).
  { destruct (0 <? burn) eqn:Hbz.
    - apply bind_ok in Hburn as (c & w5 & [[-> _]%NewCoin_spec ->]%lift_ok & Hburn).
      apply bind_ok in Hburn as (bc & w5 & [[Hbc Hwf]%NewCoins_spec ->]%lift_ok & Hburn).
      apply bind_ok in Hburn as ([] & w5 & Hbb & Hrec). apply bank_ok in Hbb as (b & Hbb & ->).
      apply BurnCoins_spec in Hbb. pose proof (inv_upto_bank _ _ _ _ _ _ Hi3 Hbb) as Hi4.
      apply RecordBurn_spec in Hrec as [[bs ->] Hrec]; [|intros c Hc; by apply Z.lt_le_incl, Hwf].
      destruct Hbb as [Hb Hs]. split; [|split; [|split]].
      + apply inv_upto_earth. eapply inv_upto_weaken; [exact Hi4|intros d _|intros i _]; cbv beta;
          rewrite Hbc, !AmountOf_single; rewrite (bool_decide_eq_true_2 (Some _ = _)) by done;
          rewrite (bool_decide_eq_false_2 (None = _)) by done;
          destruct (sp_held from), (sp_held to); repeat case_bool_decide; lia.
      + intros a d Ha. cbn. rewrite Hb, Hbc. fold dex_addr.
        rewrite !bool_decide_eq_false_2 by congruence. lia.
      + intros d. cbn. rewrite Hs, Hbc, AmountOf_single. repeat case_bool_decide; simplify_eq; lia.
      + intros src d. rewrite Hrec, Hbc, AmountOf_single.
        change (burned (set_w_bank b w3) src d) with (burned w3 src d).
        destruct (decide (src = SourceSwapFee)), (decide (d = hub_denom)); subst;
          rewrite ?bool_decide_eq_true_2 by done; rewrite ?bool_decide_eq_false_2 by (done || naive_solver); lia.
    - run_inv. assert (burn = 0) as -> by lia. split; [|split; [|split]]; [|done|..].
      + eapply inv_upto_weaken; [exact Hi3|intros d _|intros i _]; cbv beta;
          destruct (sp_held from), (sp_held to); 
          match goal with |- context [if bool_decide ?P then 0 else 0] => destruct (bool_decide P) end; lia.
      + intros. destruct (bool_decide (d = hub_denom)); lia.
      + intros. destruct (bool_decide (_ ∧ _)); lia. }
  split; [exact Hi4|]. split; [done|]. split; [lia|]. split; [lia|]. split; [lia|]. split; [|split].
  - intros a d Ha. rewrite Hb4, Hb3, Hb1 by done. lia.
  - intros d. rewrite Hs4, Hs3, Hs1. done.
  - intros src d. rewrite Hr4. unfold burned. rewrite He3, He1. done.
Qed.

(** A swap an account makes for itself, and one a module makes. *)
Definition swapped (a : bytes) (tokenIn out : Coin) (burn : Z) (w w' : World) : Prop :=
  (∀ b d, b ≠ dex_addr → GetBalance (w_bank w') b d = GetBalance (w_bank w) b d +
     (if bool_decide (b = a) then AmountOf [out] d - AmountOf [tokenIn] d else 0)) ∧
  (∀ d, GetSupply (w_bank w') d = GetSupply (w_bank w) d - (if bool_decide (d = hub_denom) then burn else 0)) ∧
  (∀ src d, burned w' src d = burned w src d + (if bool_decide (src = SourceSwapFee ∧ d = hub_denom) then burn else 0)).

Lemma swap_self_spec p tokenIn denomOut minOut w out w' :
  dex_inv w → outside p → sp_held p = false → swapExactIn p p tokenIn denomOut minOut w = Ok (out, w') →
  dex_inv w' ∧ Denom out = denomOut ∧ 0 < Amount out ∧ minOut ≤ Amount out ∧
  ∃ burn, 0 ≤ burn ∧ swapped (party_addr p) tokenIn out burn w w'.
Proof.
  intros Hi%dex_inv_upto Ho Hh Hr. unfold swapExactIn in Hr.
  apply bind_ok in Hr as ([o fees] & w1 & Hr & [= -> ->]%ret_ok).
  destruct (swapExactInFees_upto _ _ _ _ _ _ _ _ _ _ Hi Ho Ho Hr) as (Hi' & Hd & Hp & Hm & Hb & Hbal & Hsup & Hrec).
  rewrite Hh in Hi', Hbal. split; [apply dex_inv_upto; eapply inv_upto_weaken; [exact Hi'|intros; cbv beta; lia..]|].
  split_and!; try done. exists (sf_burn fees). split; [lia|]. split; [|done].
  intros b d Hne. rewrite Hbal by done. cbn. case_bool_decide; lia.
Qed.

Lemma Swap_spec msg w out w' :
  dex_inv w → StringToBytes (sw_Creator msg) ≠ Ok dex_addr → Swap msg w = Ok (out, w') →
  dex_inv w' ∧ Denom out = sw_DenomOut msg ∧ 0 < Amount out ∧
  ∃ a minOut burn, StringToBytes (sw_Creator msg) = Ok a ∧ parse_min (sw_MinAmountOut msg) = Ok minOut ∧
    minOut ≤ Amount out ∧ 0 ≤ burn ∧ swapped a (sw_TokenIn msg) out burn w w'.
Proof.
  intros Hi Hne Hr. unfold Swap, SwapExactIn in Hr.
  apply bind_ok in Hr as (a & w1 & [Ha ->]%lift_ok & Hr).
  apply bind_ok in Hr as (mo & w1 & [Hmo ->]%lift_ok & Hr).
  apply swap_self_spec in Hr as (Hi' & Hd & Hp & Hm & burn & Hb & Hsw); [|done|right; right; cbn; split; [done|congruence]|done].
  split_and!; try done. by exists a, mo, burn.
Qed.

(** A quote is the swap it stands for, with nothing written. *)
Lemma discard_ok {A} (m : M A) w (a : A) w' : discard m w = Ok (a, w') ↔ w' = w ∧ ∃ w1, m w = Ok (a, w1).
Proof.
  unfold discard. destruct (m w) as [[b w1]| |]; [|naive_solver..].
  split; [intros [= -> ->]; eauto|]. by intros (-> & ? & [= -> _]).
Qed.
End dex_swap_inv.

(** ** What a quote sees

    A program that reads and writes only the module's store and the clock gives the same result on
    two worlds that agree on them. *)
Section dex_only.
Context `{Host, !ShieldedKeeper}.
Implicit Types w : World.

Definition same_view w1 w2 : Prop := w_dex w1 = w_dex w2 ∧ w_nanos w1 = w_nanos w2.

Class DexOnly {A} (m : M A) : Prop :=
  dex_only w1 w2 a v1 : same_view w1 w2 → m w1 = Ok (a, v1) → ∃ v2, m w2 = Ok (a, v2) ∧ same_view v1 v2.

#[export] Instance dex_only_ret {A} (a : A) : DexOnly (mret a : M A).
Proof. intros w1 w2 b v1 Hv [= -> ->]%ret_ok. by exists w2. Qed.
#[export] Instance dex_only_lift {A} (o : outcome A) : DexOnly (lift o : M A).
Proof. intros w1 w2 b v1 Hv [-> ->]%lift_ok. by exists w2. Qed.
#[export] Instance dex_only_refuse b e : DexOnly (refuse_if b e : M ()).
Proof. intros w1 w2 [] v1 Hv [-> ->]%refuse_if_ok. by exists w2. Qed.
#[export] Instance dex_only_get {A} (f : DexStore → A) : DexOnly (get_dex f).
Proof. intros w1 w2 b v1 Hv [-> ->]%get_dex_ok. exists w2. split; [|done]. destruct Hv as [E _]. apply get_dex_ok. by rewrite E. Qed.
#[export] Instance dex_only_set f : DexOnly (set_dex f).
Proof.
  intros w1 w2 [] v1 [Hd Hn] ->%set_dex_ok. exists (upd_dex f w2). split; [done|]. split; [|done]. cbn. by rewrite Hd.
Qed.
#[export] Instance dex_only_now : DexOnly now.
Proof. intros w1 w2 b v1 Hv [-> ->]%now_ok. exists w2. split; [|done]. destruct Hv as [_ E]. apply now_ok. unfold unix. by rewrite E. Qed.
#[export] Instance dex_only_item {A} (f : DexStore → option A) : DexOnly (item f).
Proof.
  intros w1 w2 b v1 Hv [Hf ->]%item_ok. exists w2. split; [|done]. destruct Hv as [E _]. apply item_ok. by rewrite <-E.
Qed.
#[export] Instance dex_only_or_error {A} (m : M A) e : DexOnly m → DexOnly (or_error m e).
Proof. intros Hm w1 w2 b v1 Hv Hr%or_error_ok. destruct (Hm _ _ _ _ Hv Hr) as (v2 & E & ?). exists v2. by rewrite or_error_ok. Qed.
#[export] Instance dex_only_bind {A B} (m : M A) (f : A → M B) : DexOnly m → (∀ a, DexOnly (f a)) → DexOnly (m ≫= f).
Proof.
  intros Hm Hf w1 w2 b v1 Hv Hr. apply bind_ok in Hr as (a & u1 & Hr1 & Hr2).
  destruct (Hm _ _ _ _ Hv Hr1) as (u2 & E1 & Hu). destruct (Hf _ _ _ _ _ Hu Hr2) as (v2 & E2 & ?).
  exists v2. split; [|done]. apply bind_ok. eauto.
Qed.
End dex_only.

Ltac solve_dex_only :=
  repeat first [progress intros | apply _ | apply dex_only_bind | apply dex_only_or_error
    | match goal with
      | |- DexOnly (if ?b then _ else _) => destruct b
      | |- DexOnly (let '(_, _) := ?x in _) => destruct x
      | |- DexOnly (match ?x with Some _ => _ | None => _ end) => destruct x
      end].

Section quotes.
Context `{Host, !ShieldedKeeper}.

#[export] Instance dex_only_settle id p : DexOnly (settlePoolRewards id p).
Proof.
  unfold settlePoolRewards, advancePriceCumulative, getPriceCumulative, getLpRewardIndex, getPoolLpIndex,
    getPendingLpRewards, HubDenom. solve_dex_only.
Qed.
#[export] Instance dex_only_volume p a t : DexOnly (applyVolume p a t).
Proof.
  unfold applyVolume, AdvanceVolumeIndex, capVolume, setPoolVolume, scheduleStale, getVolumeIndex, getLpTotalVolume.
  solve_dex_only.
Qed.
#[export] Instance dex_only_SetPool id p : DexOnly (SetPool id p).
Proof. unfold SetPool, getTotalPoolErth. solve_dex_only. Qed.
#[export] Instance dex_only_route hub ti d f : DexOnly (swap_route hub ti d f).
Proof.
  unfold swap_route, hopHubToToken, hopTokenToHub, PoolForToken, PoolGet. cbv zeta. solve_dex_only.
Qed.

Lemma same_view_sym w1 w2 : same_view w1 w2 → same_view w2 w1.
Proof. by intros []. Qed.
Lemma same_view_trans w1 w2 w3 : same_view w1 w2 → same_view w2 w3 → same_view w1 w3.
Proof. intros [] []. split; congruence. Qed.

(** Moving coins does not change the view. *)
Lemma escrow_view p amt w u w1 : escrow p amt w = Ok (u, w1) → same_view w w1.
Proof.
  unfold escrow. intros Hr. destruct (sp_held p); [by apply ret_ok in Hr as [= _ ->]|].
  destruct (negb _); by apply bank_ok in Hr as (b & _ & ->).
Qed.

(** Where a swap's output comes from. *)
Lemma swapExactInFees_out from to tokenIn denomOut minOut w out fees w' :
  swapExactInFees from to tokenIn denomOut minOut w = Ok (out, fees, w') →
  ∃ hub params coins w1 w2 amt burn fee, BondDenom = Ok hub ∧ k_Params (w_dex w) = Some params ∧
    escrow from coins w = Ok ((), w1) ∧
    swap_route hub tokenIn denomOut (SwapFee params) w1 = Ok (amt, burn, fee, w2) ∧ NewCoin denomOut amt = Ok out.
Proof.
  intros Hr. unfold swapExactInFees, HubDenom in Hr.
  apply bind_ok in Hr as ([] & w1 & [_ ->]%refuse_if_ok & Hr).
  apply bind_ok in Hr as ([] & w1 & [_ ->]%refuse_if_ok & Hr).
  apply bind_ok in Hr as ([] & w1 & [_ ->]%refuse_if_ok & Hr).
  apply bind_ok in Hr as ([] & w1 & Hc1 & Hr).
  assert (w1 = w) as -> by (destruct (isAccount from); by run_inv). clear Hc1.
  apply bind_ok in Hr as ([] & w1 & Hc1 & Hr).
  assert (w1 = w) as -> by (destruct (isAccount to); by run_inv). clear Hc1.
  apply bind_ok in Hr as (hub & w1 & [Hhub ->]%lift_ok & Hr).
  apply bind_ok in Hr as (ps & w1 & [Hps ->]%item_ok & Hr).
  apply bind_ok in Hr as (cin & w1 & [_ ->]%lift_ok & Hr).
  apply bind_ok in Hr as ([] & w1 & He & Hr).
  apply bind_ok in Hr as ([[o burn] tfee] & w2 & Hroute & Hr).
  apply bind_ok in Hr as ([] & w3 & [_ ->]%refuse_if_ok & Hr).
  apply bind_ok in Hr as ([] & w3 & [_ ->]%refuse_if_ok & Hr).
  apply bind_ok in Hr as (tout & w3 & [Hto ->]%lift_ok & Hr).
  apply bind_ok in Hr as (cout & w3 & [_ ->]%lift_ok & Hr).
  apply bind_ok in Hr as ([] & w3 & _ & Hr).
  apply bind_ok in Hr as ([] & w4 & _ & [= -> _ _]%ret_ok).
  by exists hub, ps, cin, w1, w2, o, burn, tfee.
Qed.
End quotes.

(** ** Properties *)
Section swap_properties.
Context `{HostLaws, !ShieldedKeeper}.
Implicit Types w : World.

(** C24: A swap moves exactly what it says: the trader pays [TokenIn] and receives at least its minimum of
    the denom it asked for, no other account changes, the supply falls by the burned part of the fee
    (in the hub denom only), the burn is counted under [swap_fee], and the module's account ends with
    exactly what its records owe. *)
Theorem swap_exact msg w out w' :
  dex_inv w → StringToBytes (sw_Creator msg) ≠ Ok dex_addr → Swap msg w = Ok (out, w') →
  ∃ trader minOut burn, StringToBytes (sw_Creator msg) = Ok trader ∧
    NewIntFromString (sw_MinAmountOut msg) = Some minOut ∧ 0 ≤ minOut ≤ Amount out ∧
    Denom out = sw_DenomOut msg ∧ 0 < Amount out ∧ 0 ≤ burn ∧
    (∀ d, GetBalance (w_bank w') trader d =
       GetBalance (w_bank w) trader d - AmountOf [sw_TokenIn msg] d + AmountOf [out] d) ∧
    (∀ a d, a ≠ trader → a ≠ dex_addr → GetBalance (w_bank w') a d = GetBalance (w_bank w) a d) ∧
    (∀ d, GetSupply (w_bank w') d = GetSupply (w_bank w) d - (if bool_decide (d = hub_denom) then burn else 0)) ∧
    burned w' SourceSwapFee hub_denom = burned w SourceSwapFee hub_denom + burn ∧
    (∀ d, IsLPShareDenom d = false → GetBalance (w_bank w') dex_addr d = owed (w_dex w') d).
Proof.
  intros Hi Hne Hr. apply Swap_spec in Hr as (Hi' & Hd & Hp & a & mo & burn & Ha & Hmo & Hm & Hb & Hbal & Hsup & Hrec);
    [|done..].
  exists a, mo, burn. split; [done|]. unfold parse_min in Hmo.
  destruct (NewIntFromString _) as [v|]; [|done]. destruct (Z.ltb_spec v 0); [done|]. injection Hmo as ->.
  assert (a ≠ dex_addr) by congruence. split; [done|]. split; [done|].
  do 3 (split; [done|]). split; [|split; [|split; [done|split]]].
  - intros d. rewrite Hbal, bool_decide_eq_true_2 by done. lia.
  - intros b d Hn1 Hn2. rewrite Hbal, bool_decide_eq_false_2 by done. lia.
  - by rewrite Hrec, bool_decide_eq_true_2.
  - apply (di_solvent _ Hi').
Qed.

(** A quote is the swap it stands for: what [SimulateSwapExactIn] reports is what a swap by any account,
    made on the same state, pays out; and the quote writes nothing. *)
Theorem quote_matches_swap trader tokenIn denomOut minOut w q v out w' :
  SimulateSwapExactIn tokenIn denomOut w = Ok (q, v) →
  SwapExactIn trader tokenIn denomOut minOut w = Ok (out, w') →
  v = w ∧ q = out.
Proof.
  unfold SimulateSwapExactIn, simulateSwapExactIn, SwapExactIn, swapExactIn. intros Hq Hs.
  apply bind_ok in Hq as ([q' fs] & w1 & [-> [w2 Hq]]%discard_ok & [= -> ->]%ret_ok). split; [done|].
  apply bind_ok in Hs as ([o fs'] & w3 & Hs & [= -> ->]%ret_ok).
  apply swapExactInFees_out in Hq as (hub & fee & cs & u1 & u2 & oa & b & f & Hh & Hf & He & Hr & Hc).
  apply swapExactInFees_out in Hs as (hub' & fee' & cs' & v1 & v2 & oa' & b' & f' & Hh' & Hf' & He' & Hr' & Hc').
  assert (hub' = hub ∧ fee' = fee) as [-> ->] by (split; congruence).
  assert (same_view u1 v1) as Hv.
  { apply same_view_trans with w; [apply same_view_sym|]; by eapply escrow_view. }
  destruct (dex_only_route hub tokenIn denomOut (SwapFee fee) u1 v1 (oa, b, f) u2 Hv Hr) as (x & Hx & _).
  rewrite Hx in Hr'. congruence.
Qed.
End swap_properties.
