(* ===== verification/DexLiquidity.v ===== *)
(** * x/dex: pools and deposits

    [x/dex/keeper/msg_server_create_pool.go] and [msg_server_add_liquidity.go].  [deposit] takes the
    provider ([None]: the shares stay on the module, for a private deposit to mint as a note) and
    the function that pulls the deposit. *)

From S2P Require Export DexSwap.

Record MsgCreatePool := { cp_Creator : string; cp_AmountA : Coin; cp_AmountB : Coin }.
Record MsgAddLiquidity := {
  al_Creator : string; al_PoolId : Z; al_AmountA : Coin; al_AmountB : Coin; al_MinShares : string;
}.

Section dex_liquidity.
Context `{Host, !ShieldedKeeper}.

(** [types.Pool] as a new pool is written. *)
Definition new_pool (poolID : Z) (erth token : Coin) (day : Z) : Pool :=
  {| pl_PoolId := poolID; pl_ReserveErth := erth; pl_ReserveToken := token;
     pl_VolumeWeight := 0; pl_LastTradedDay := day |}.

Definition CreatePool (msg : MsgCreatePool) : M Z :=
  lift (refuseShieldedOnly [Denom (cp_AmountA msg); Denom (cp_AmountB msg)]);;
  locked ← PoolCreationLocked;
  refuse_if locked ErrPoolCreationLocked;;
  creator ← lift (StringToBytes (cp_Creator msg));
  refuse_if (bool_decide (Denom (cp_AmountA msg) = Denom (cp_AmountB msg))) ErrSameDenom;;
  refuse_if (negb (CoinIsValid (cp_AmountA msg)) || negb (0 <? Amount (cp_AmountA msg)) ||
             negb (CoinIsValid (cp_AmountB msg)) || negb (0 <? Amount (cp_AmountB msg))) ErrInvalidAmount;;
  refuse_if (negb (WithinPoolCap (Amount (cp_AmountA msg))) ||
             negb (WithinPoolCap (Amount (cp_AmountB msg)))) ErrPoolCap;;
  hub ← HubDenom;
  '(erth, token) ← (if bool_decide (hub = Denom (cp_AmountA msg)) then mret (cp_AmountA msg, cp_AmountB msg)
                    else if bool_decide (hub = Denom (cp_AmountB msg)) then mret (cp_AmountB msg, cp_AmountA msg)
                    else fail ErrInvalidDenom);
  refuse_if (IsLPShareDenom (Denom token)) ErrLpShareDenom;;
  has ← get_dex (λ s, bool_decide (is_Some (k_PoolByToken s !! Denom token)));
  refuse_if has ErrPoolExists;;
  poolID ← PoolSeqNext;
  coins ← lift (NewCoins [erth; token]);
  bank (SendCoinsFromAccountToModule creator ModuleName coins);;
  shareAmt ← lift (initialShares (Amount erth) (Amount token));
  refuse_if (negb (0 <? shareAmt)) ErrZeroShares;;
  shares ← lift (NewCoin (LPShareDenom poolID) shareAmt);
  mintShares creator shares;;
  t ← now;
  SetPool poolID (new_pool poolID erth token (dayOf t));;
  set_dex (set_k_PoolByToken <[Denom token := poolID]>);;
  initPoolLpIndex poolID;;
  mret poolID.

Definition matchPair (a b : Coin) (erthDenom tokenDenom : string) : outcome (Coin * Coin) :=
  if bool_decide (Denom a = erthDenom) && bool_decide (Denom b = tokenDenom) then Ok (a, b)
  else if bool_decide (Denom a = tokenDenom) && bool_decide (Denom b = erthDenom) then Ok (b, a)
  else Err ErrInvalidDenom.

Definition burnResidue (pool : Pool) : M Pool :=
  residue ← lift (NewCoins [pl_ReserveErth pool; pl_ReserveToken pool]);
  if CoinsIsZero residue then mret pool
  else
    bank (BurnCoins ModuleName residue);;
    RecordBurn SourceDexResidue residue;;
    mret (pl_set_reserves 0 0 pool).

(** The shares a deposit gets and the amounts it takes: (shareAmt, depositErt, depositTok, pool). *)
Definition deposit_price (pool : Pool) (erthIn tokenIn : Coin) (total : Z) : M (Z * Coin * Coin * Pool) :=
  if total =? 0 then
    pool ← burnResidue pool;
    shareAmt ← lift (initialShares (Amount erthIn) (Amount tokenIn));
    mret (shareAmt, erthIn, tokenIn, pool)
  else
    refuse_if (negb (0 <? Amount (pl_ReserveErth pool)) || negb (0 <? Amount (pl_ReserveToken pool)))
      ErrInsufficientPool;;
    sharesFromErth ← lift (mulDiv (Amount erthIn) total (Amount (pl_ReserveErth pool)));
    sharesFromToken ← lift (mulDiv (Amount tokenIn) total (Amount (pl_ReserveToken pool)));
    let shareAmt := Z.min sharesFromErth sharesFromToken in
    refuse_if (negb (0 <? shareAmt)) ErrZeroShares;;
    e ← lift (mulDivUp shareAmt (Amount (pl_ReserveErth pool)) total);
    t ← lift (mulDivUp shareAmt (Amount (pl_ReserveToken pool)) total);
    refuse_if (negb (0 <? e) || negb (0 <? t) || (Amount erthIn <? e) || (Amount tokenIn <? t)) ErrZeroShares;;
    mret (shareAmt, mkCoin (Denom erthIn) e, mkCoin (Denom tokenIn) t, pool).

(** The slippage bound: an empty [min_shares] is none. *)
Definition check_min_shares (minSharesStr : string) (shareAmt : Z) : outcome () :=
  if bool_decide (minSharesStr = "") then Ok ()
  else
    minShares ← parse_min minSharesStr;
    refuse (shareAmt <? minShares) ErrSlippage.

Definition deposit (poolID : Z) (erthIn tokenIn : Coin) (minSharesStr : string) (provider : option bytes)
    (pull : Coin → Coin → M ()) : M (Coin * Coin * Coin) :=
  pool ← or_error (PoolGet poolID) ErrPoolNotFound;
  pool ← settlePoolRewards poolID pool;
  refuse_if (negb (bool_decide (Denom erthIn = Denom (pl_ReserveErth pool))) ||
             negb (bool_decide (Denom tokenIn = Denom (pl_ReserveToken pool)))) ErrInvalidDenom;;
  refuse_if (negb (0 <? Amount erthIn) || negb (0 <? Amount tokenIn)) ErrInvalidAmount;;
  refuse_if (negb (WithinPoolCap (Amount erthIn)) || negb (WithinPoolCap (Amount tokenIn))) ErrPoolCap;;
  total ← totalShares poolID;
  refuse_if (negb (WithinPoolCap total)) ErrPoolCap;;
  '(shareAmt, depositErt, depositTok, pool) ← deposit_price pool erthIn tokenIn total;
  s ← lift (IntAdd total shareAmt);
  refuse_if (negb (WithinPoolCap s)) ErrPoolCap;;
  e ← lift (IntAdd (Amount (pl_ReserveErth pool)) (Amount depositErt));
  t ← lift (IntAdd (Amount (pl_ReserveToken pool)) (Amount depositTok));
  refuse_if (negb (WithinPoolCap e) || negb (WithinPoolCap t)) ErrPoolCap;;
  refuse_if (negb (0 <? shareAmt)) ErrZeroShares;;
  lift (check_min_shares minSharesStr shareAmt);;
  pull depositErt depositTok;;
  shares ← lift (NewCoin (LPShareDenom poolID) shareAmt);
  (match provider with
   | None => coins ← lift (NewCoins [shares]); bank (MintCoins ModuleName coins)
   | Some provider => mintShares provider shares
   end);;
  erth ← lift (CoinAdd (pl_ReserveErth pool) depositErt);
  token ← lift (CoinAdd (pl_ReserveToken pool) depositTok);
  SetPool poolID (pl_set_reserves (Amount erth) (Amount token) pool);;
  mret (shares, depositErt, depositTok).

(** [pull] of a transparent deposit: the creator pays. *)
Definition pull_from (creator : bytes) (depErt depTok : Coin) : M () :=
  coins ← lift (NewCoins [depErt; depTok]);
  bank (SendCoinsFromAccountToModule creator ModuleName coins).

Definition AddLiquidity (msg : MsgAddLiquidity) : M Coin :=
  creator ← lift (StringToBytes (al_Creator msg));
  pool ← or_error (PoolGet (al_PoolId msg)) ErrPoolNotFound;
  lift (refuseShieldedOnly [Denom (pl_ReserveToken pool); Denom (al_AmountA msg); Denom (al_AmountB msg)]);;
  '(erthIn, tokenIn) ← lift (matchPair (al_AmountA msg) (al_AmountB msg)
                              (Denom (pl_ReserveErth pool)) (Denom (pl_ReserveToken pool)));
  '(shares, _, _) ← deposit (al_PoolId msg) erthIn tokenIn (al_MinShares msg) (Some creator) (pull_from creator);
  mret shares.
End dex_liquidity.

Section dex_liquidity_lemmas.
Context `{HostLaws, !ShieldedKeeper}.
Implicit Types (w : World) (δ : string → Z).

Lemma PoolGet_ok id w p w' : PoolGet id w = Ok (p, w') ↔ k_Pool (w_dex w) !! id = Some p ∧ w' = w.
Proof. exact (item_ok (λ s, k_Pool s !! id) w p w'). Qed.

Lemma initialShares_ok e t r : initialShares e t = Ok r → 0 ≤ e * t ∧ r = Z.sqrt (e * t).
Proof. unfold initialShares. intros Hr. host_inv. lia. Qed.

(** Clearing a pool with no shares burns exactly what its record held. *)
Lemma burnResidue_ok pool w pool' w' :
  0 ≤ Amount (pl_ReserveErth pool) → 0 ≤ Amount (pl_ReserveToken pool) →
  burnResidue pool w = Ok (pool', w') →
  pool' = pl_set_reserves 0 0 pool ∧ w_dex w' = w_dex w ∧ w_nanos w' = w_nanos w ∧
  moved w w' (at_ dex_addr (λ d, - pool_holds d pool)) ∧
  (∀ d, GetSupply (w_bank w') d = GetSupply (w_bank w) d - pool_holds d pool).
Proof.
  intros He Ht Hr. unfold burnResidue in Hr.
  apply bind_ok in Hr as (cs & w1 & [[Hcs [Hnd Hpos]]%NewCoins_spec ->]%lift_ok & Hr).
  assert (∀ d, AmountOf cs d = pool_holds d pool) as Hh.
  { intros d. rewrite Hcs, AmountOf_cons, AmountOf_coin. done. }
  destruct (CoinsIsZero cs) eqn:Hz.
  - apply ret_ok in Hr as [= -> ->].
    assert (cs = []) as ->.
    { destruct cs as [|c cs]; [done|]. cbn in Hz. pose proof (Hpos c ltac:(left)). lia. }
    assert (∀ d, pool_holds d pool = 0) as Hh0 by (intros d; rewrite <-Hh; done).
    split; [|split; [done|split; [done|split]]].
    + pose proof (Hh0 (Denom (pl_ReserveErth pool))) as Z1. pose proof (Hh0 (Denom (pl_ReserveToken pool))) as Z2.
      unfold pool_holds in Z1, Z2. rewrite bool_decide_eq_true_2 in Z1 by done.
      rewrite (bool_decide_eq_true_2 (Denom (pl_ReserveToken pool) = _)) in Z2 by done.
      destruct pool as [? [? ?] [? ?] ? ?]. unfold pl_set_reserves. cbn in *.
      repeat case_bool_decide; f_equal; f_equal; lia.
    + intros a d. unfold at_. rewrite Hh0. case_bool_decide; lia.
    + intros d. rewrite Hh0. lia.
  - apply bind_ok in Hr as ([] & w1 & Hb & Hr). apply bank_ok in Hb as (b & Hb & ->).
    apply bind_ok in Hr as ([] & w1 & Hrec & [= -> ->]%ret_ok).
    apply RecordBurn_spec in Hrec as [[bs ->] _]; [|intros c Hc; by apply Z.lt_le_incl, Hpos].
    apply BurnCoins_spec in Hb as [Hb1 Hb2]. split; [done|]. do 2 (split; [done|]). split.
    + intros a d. cbn. rewrite Hb1, Hh. unfold at_. fold dex_addr.
      repeat case_bool_decide; simplify_eq; lia.
    + intros d. cbn. rewrite Hb2, Hh. repeat case_bool_decide; simplify_eq; lia.
Qed.

(** The price of a deposit: the shares are the smaller of the two legs' parts of the supply, what it takes is at most what
    was offered, and what it takes of each leg is the granted shares' part of the reserve, rounded up. *)
Lemma deposit_price_ok pool erthIn tokenIn total w sh dE dT pool' w' :
  0 ≤ Amount (pl_ReserveErth pool) → 0 ≤ Amount (pl_ReserveToken pool) → 0 ≤ total →
  0 < Amount erthIn → 0 < Amount tokenIn →
  deposit_price pool erthIn tokenIn total w = Ok (sh, dE, dT, pool', w') →
  w_dex w' = w_dex w ∧ w_nanos w' = w_nanos w ∧ Denom dE = Denom erthIn ∧ Denom dT = Denom tokenIn ∧
  0 < Amount dE ≤ Amount erthIn ∧ 0 < Amount dT ≤ Amount tokenIn ∧
  moved w w' (at_ dex_addr (λ d, pool_holds d pool' - pool_holds d pool)) ∧
  (∀ d, GetSupply (w_bank w') d = GetSupply (w_bank w) d + pool_holds d pool' - pool_holds d pool) ∧
  if total =? 0 then pool' = pl_set_reserves 0 0 pool ∧ dE = erthIn ∧ dT = tokenIn ∧
    sh = Z.sqrt (Amount erthIn * Amount tokenIn)
  else pool' = pool ∧ w' = w ∧ 0 < Amount (pl_ReserveErth pool) ∧ 0 < Amount (pl_ReserveToken pool) ∧
    0 < sh ∧
    sh = Z.min (Amount erthIn * total / Amount (pl_ReserveErth pool)) (Amount tokenIn * total / Amount (pl_ReserveToken pool)) ∧
    (Amount dE - 1) * total < sh * Amount (pl_ReserveErth pool) ≤ Amount dE * total ∧
    (Amount dT - 1) * total < sh * Amount (pl_ReserveToken pool) ≤ Amount dT * total.
Proof.
  intros HE HT Htot HeI HtI Hr. unfold deposit_price in Hr. destruct (total =? 0) eqn:Hz.
  - apply bind_ok in Hr as (q & w1 & Hb & Hr).
    apply bind_ok in Hr as (s & w2 & [Hs ->]%lift_ok & [= -> -> -> -> ->]%ret_ok).
    apply burnResidue_ok in Hb as (-> & Hd & Hn & Hm & Hsu); [|done..].
    apply initialShares_ok in Hs as [_ ->]. do 2 (split; [done|]). split_and!; try done; try lia.
    + intros a d. rewrite Hm. unfold at_, pool_holds. cbn. repeat case_bool_decide; lia.
    + intros d. rewrite Hsu. unfold pool_holds. cbn. repeat case_bool_decide; lia.
  - apply bind_ok in Hr as ([] & w1 & [Hpos ->]%refuse_if_ok & Hr).
    apply bind_ok in Hr as (s1 & w1 & [(_ & _ & _ & _ & ->)%mulDiv_ok ->]%lift_ok & Hr).
    apply bind_ok in Hr as (s2 & w1 & [(_ & _ & _ & _ & ->)%mulDiv_ok ->]%lift_ok & Hr). cbv zeta in Hr.
    apply bind_ok in Hr as ([] & w1 & [Hsh ->]%refuse_if_ok & Hr).
    apply bind_ok in Hr as (e & w1 & [(_ & _ & _ & He)%mulDivUp_ok ->]%lift_ok & Hr).
    apply bind_ok in Hr as (t & w1 & [(_ & _ & _ & Ht)%mulDivUp_ok ->]%lift_ok & Hr).
    apply bind_ok in Hr as ([] & w1 & [Hle ->]%refuse_if_ok & [= -> -> -> -> ->]%ret_ok).
    cbn. split_and!; try done; try lia.
    intros a d. unfold at_. case_bool_decide; lia.
Qed.

Lemma pool_holds_set d e t p :
  pool_holds d (pl_set_reserves e t p) =
  (if bool_decide (Denom (pl_ReserveErth p) = d) then e else 0) +
  (if bool_decide (Denom (pl_ReserveToken p) = d) then t else 0).
Proof. done. Qed.

Lemma pool_holds_settled d s id p :
  pool_holds d (pl_set_erth (λ c, mkCoin (Denom c) (Amount c + settle_owed s id p)) p) =
  pool_holds d p + (if bool_decide (Denom (pl_ReserveErth p) = d) then settle_owed s id p else 0).
Proof. unfold pool_holds. cbn. repeat case_bool_decide; lia. Qed.

Lemma pool_holds_add d q e t :
  Denom (pl_ReserveErth q) = Denom e → Denom (pl_ReserveToken q) = Denom t →
  pool_holds d (pl_set_reserves (Amount (pl_ReserveErth q) + Amount e) (Amount (pl_ReserveToken q) + Amount t) q) =
  pool_holds d q + AmountOf [e; t] d.
Proof.
  intros He Ht. rewrite pool_holds_set, AmountOf_cons, AmountOf_coin. unfold pool_holds. rewrite He, Ht.
  repeat case_bool_decide; lia.
Qed.

(** Where the shares of a deposit go. *)
Definition shares_to (provider : option bytes) : bytes :=
  match provider with Some a => a | None => dex_addr end.

(** The shares of a deposit, minted. *)
Lemma mint_deposit_ok provider d amt w u w' :
  (match provider with
   | None => coins ← lift (NewCoins [mkCoin d amt]); bank (MintCoins ModuleName coins)
   | Some provider => mintShares provider (mkCoin d amt)
   end) w = Ok (u, w') →
  w_dex w' = w_dex w ∧ w_nanos w' = w_nanos w ∧ (provider = None ∨ shares_to provider ≠ dex_addr) ∧
  moved w w' (at_ (shares_to provider) (AmountOf [mkCoin d amt])) ∧
  (∀ d', GetSupply (w_bank w') d' = GetSupply (w_bank w) d' + AmountOf [mkCoin d amt] d').
Proof.
  destruct provider as [a|]; cbn [shares_to]; intros Hr.
  - apply mintShares_ok in Hr as (Hne & Hd & Hn & Hm & Hs). split_and!; try done. by right.
  - apply bind_ok in Hr as (cs & w1 & [[Hcs _]%NewCoins_spec ->]%lift_ok & Hr).
    apply bank_ok in Hr as (b & Hm & ->). apply MintCoins_spec in Hm as [Hm1 Hm2].
    do 2 (split; [done|]). split; [by left|]. split.
    + intros a d'. cbn. rewrite Hm1, Hcs. unfold at_. fold dex_addr.
      repeat case_bool_decide; simplify_eq; lia.
    + intros d'. cbn. rewrite Hm2, Hcs. repeat case_bool_decide; simplify_eq; lia.
Qed.

(** The facts of a deposit's price, against the reserves it was priced at. *)
Definition deposit_priced (E T total : Z) (erthIn tokenIn sh dE dT : Coin) : Prop :=
  Denom dE = Denom erthIn ∧ Denom dT = Denom tokenIn ∧
  0 < Amount dE ≤ Amount erthIn ∧ 0 < Amount dT ≤ Amount tokenIn ∧ 0 < Amount sh ∧
  (total = 0 → dE = erthIn ∧ dT = tokenIn ∧ Amount sh = Z.sqrt (Amount erthIn * Amount tokenIn)) ∧
  (total ≠ 0 → Amount sh = Z.min (Amount erthIn * total / E) (Amount tokenIn * total / T) ∧
     (Amount dE - 1) * total < Amount sh * E ≤ Amount dE * total ∧ (Amount dT - 1) * total < Amount sh * T ≤ Amount dT * total).

(** What the deposit left: the reserves (cleared first when there were no shares) with the deposit
    added, and the shares it minted. *)
Definition deposited (id : Z) (p : Pool) (sh dE dT : Coin) (w w' : World) : Prop :=
  let total := GetSupply (w_bank w) (LPShareDenom id) in
  ∃ p', k_Pool (w_dex w') !! id = Some p' ∧
    Amount (pl_ReserveErth p') =
      (if total =? 0 then 0 else Amount (pl_ReserveErth p) + settle_owed (w_dex w) id p) + Amount dE ∧
    Amount (pl_ReserveToken p') = (if total =? 0 then 0 else Amount (pl_ReserveToken p)) + Amount dT ∧
    GetSupply (w_bank w') (LPShareDenom id) = total + Amount sh.

Lemma lp_not_held s id p i : pools_inv s → k_Pool s !! id = Some p → pool_holds (LPShareDenom i) p = 0.
Proof.
  intros Hi Hp. destruct (pi_pool _ Hi _ _ Hp) as []. unfold pool_holds.
  rewrite po_hub, !bool_decide_eq_false_2; [done|by apply lp_ne|].
  intros E. by eapply lp_ne_hub.
Qed.

Lemma deposit_upto δ poolID erthIn tokenIn ms provider pull kp w sh dE dT w' :
  inv_upto δ w →
  (∀ e t w u w', pull e t w = Ok (u, w') → w_dex w' = w_dex w ∧ moved w w' (kp e t) ∧
     ∀ d, GetSupply (w_bank w') d = GetSupply (w_bank w) d) →
  (∀ d, 0 ≤ GetSupply (w_bank w) d) →
  deposit poolID erthIn tokenIn ms provider pull w = Ok ((sh, dE, dT), w') →
  inv_upto (λ d, δ d + kp dE dT dex_addr d - AmountOf [dE; dT] d +
                 (match provider with Some _ => 0 | None => AmountOf [sh] d end)) w' ∧
  (∀ a d, a ≠ dex_addr → GetBalance (w_bank w') a d = GetBalance (w_bank w) a d + kp dE dT a d +
     at_ (shares_to provider) (AmountOf [sh]) a d) ∧
  Denom sh = LPShareDenom poolID ∧
  ∃ p, k_Pool (w_dex w) !! poolID = Some p ∧ Denom dE = Denom (pl_ReserveErth p) ∧
    Denom dT = Denom (pl_ReserveToken p) ∧
    deposit_priced (Amount (pl_ReserveErth p) + settle_owed (w_dex w) poolID p) (Amount (pl_ReserveToken p))
      (GetSupply (w_bank w) (LPShareDenom poolID)) erthIn tokenIn sh dE dT ∧
    deposited poolID p sh dE dT w w' ∧ check_min_shares ms (Amount sh) = Ok ().
Proof.
  intros Hi Hpull Hsup Hr. unfold deposit in Hr. pose proof (iu_pools _ _ Hi) as Hp.
  apply bind_ok in Hr as (p & w1 & [Hpp ->]%or_error_ok%PoolGet_ok & Hr).
  apply bind_ok in Hr as (p1 & w1 & Hs & Hr).
  destruct (settle_settled _ _ _ _ _ Hp Hpp Hs) as (Hst & Hp1 & Ho & Hw1). destruct (pi_pool _ Hp _ _ Hpp) as [].
  apply bind_ok in Hr as ([] & w2 & [Hden ->]%refuse_if_ok & Hr).
  apply bind_ok in Hr as ([] & w2 & [Hpos ->]%refuse_if_ok & Hr).
  apply bind_ok in Hr as ([] & w2 & [_ ->]%refuse_if_ok & Hr).
  apply bind_ok in Hr as (total & w2 & [-> ->]%get_bank_ok & Hr).
  assert (w_bank w1 = w_bank w) as Hb1 by (rewrite Hw1; done). rewrite Hb1 in Hr. 
  set (total := GetSupply (w_bank w) (LPShareDenom poolID)) in *.
  apply bind_ok in Hr as ([] & w2 & [_ ->]%refuse_if_ok & Hr).
  apply bind_ok in Hr as ([[[sa e] t] q] & w2 & Hprice & Hr).
  apply deposit_price_ok in Hprice as (Hd2 & Hn2 & He & Ht & Hle & Hlt & Hm2 & Hs2 & Hcase);
    [|rewrite Hp1; cbn; lia|rewrite Hp1; cbn; lia|apply Hsup|lia..].
  apply bind_ok in Hr as (s & w3 & [_ ->]%lift_ok & Hr). apply bind_ok in Hr as ([] & w3 & [_ ->]%refuse_if_ok & Hr).
  apply bind_ok in Hr as (e' & w3 & [_ ->]%lift_ok & Hr). apply bind_ok in Hr as (t' & w3 & [_ ->]%lift_ok & Hr).
  apply bind_ok in Hr as ([] & w3 & [_ ->]%refuse_if_ok & Hr).
  apply bind_ok in Hr as ([] & w3 & [Hsa ->]%refuse_if_ok & Hr).
  apply bind_ok in Hr as ([] & w3 & [Hmin ->]%lift_ok & Hr).
  apply bind_ok in Hr as ([] & w3 & (Hd3 & Hm3 & Hs3)%Hpull & Hr).
  apply bind_ok in Hr as (shc & w4 & [[-> _]%NewCoin_spec ->]%lift_ok & Hr).
  apply bind_ok in Hr as ([] & w4 & (Hd4 & _ & Hprov & Hm4 & Hs4)%mint_deposit_ok & Hr).
  apply bind_ok in Hr as (ce & w5 & [[Hce ->]%CoinAdd_spec ->]%lift_ok & Hr).
  apply bind_ok in Hr as (ct & w5 & [[Hct ->]%CoinAdd_spec ->]%lift_ok & Hr).
  apply bind_ok in Hr as ([] & w5 & Hset & [= -> -> -> ->]%ret_ok). cbn [Amount] in Hset.
  assert (pl_PoolId q = pl_PoolId p ∧ Denom (pl_ReserveErth q) = Denom (pl_ReserveErth p) ∧
    Denom (pl_ReserveToken q) = Denom (pl_ReserveToken p) ∧ pl_VolumeWeight q = pl_VolumeWeight p ∧
    0 ≤ Amount (pl_ReserveErth q) ∧ 0 ≤ Amount (pl_ReserveToken q)) as (Hq1 & Hq2 & Hq3 & Hq4 & Hq5 & Hq6).
  { destruct (total =? 0); destruct Hcase as [-> _]; rewrite Hp1; cbn; split_and!; done || lia. }
  assert (settled poolID p (w_dex w) (pl_VolumeWeight p) (w_dex w4)) as Hst4 by (rewrite Hd4, Hd3, Hd2; done).
  eapply SetPool_touch in Hset as [Htouch Hw5]; [|exact Hp|exact Hpp|exact Hst4|cbn; try done; lia..].
  pose proof (moved_trans _ _ _ _ _ (moved_trans _ _ _ _ _ (moved_trans _ _ _ _ _
    (moved_refl w w1 Hb1) Hm2) Hm3) (moved_trans _ _ _ _ _ Hm4 (moved_refl w4 w5 ltac:(rewrite Hw5; done)))) as Hm.
  split; [|split; [|split]].
  - pose proof (inv_upto_touch_moved _ _ _ _ _ _ _ Hi Htouch Hm) as Hi'.
    eapply inv_upto_weaken; [exact Hi'|intros d _|intros i _; apply Z.eq_le_incl, eq_sym]; cbv beta;
      rewrite at_eq, pool_holds_add by congruence; rewrite Hp1, pool_holds_settled, po_hub;
      rewrite (bool_decide_ext (_ = hub_denom) (hub_denom = _)) by done;
      (destruct provider; cbn [shares_to] in *; [rewrite at_ne by (destruct Hprov; congruence)|rewrite at_eq]); lia.
  - intros a d Ha. rewrite Hm, (at_ne a dex_addr) by done. lia.
  - done.
  - rewrite Hp1 in Hden; cbn in Hden. exists p. split; [done|].
    assert (Denom erthIn = Denom (pl_ReserveErth p) ∧ Denom tokenIn = Denom (pl_ReserveToken p)) as [Hde Hdt]
      by (repeat case_bool_decide; done).
    split; [congruence|]. split; [congruence|].
    assert (deposited poolID p (mkCoin (LPShareDenom poolID) sa) e t w w5) as Hdep.
    { exists (pl_set_reserves (Amount (pl_ReserveErth q) + Amount e) (Amount (pl_ReserveToken q) + Amount t) q).
      fold total. pose proof (lp_not_held _ _ _ poolID Hp Hpp) as Hz.
      rewrite (t_pools _ _ _ _ _ Htouch), lookup_insert_eq. split; [done|].
      rewrite Hw5. cbn [w_bank upd_dex]. rewrite Hs4, Hs3, Hs2, AmountOf_single, bool_decide_eq_true_2, Hb1 by done.
      fold total. rewrite Hp1, pool_holds_settled, Hz, (bool_decide_eq_false_2 (Denom _ = LPShareDenom _))
        by (rewrite po_hub; apply not_eq_sym; by eapply lp_ne_hub).
      assert (pool_holds (LPShareDenom poolID) q = 0) as ->.
      { unfold pool_holds. rewrite Hq2, Hq3, po_hub, !bool_decide_eq_false_2; [done|by apply lp_ne|].
        intros E. by eapply lp_ne_hub. }
      rewrite Hp1 in Hcase. cbn. destruct (total =? 0); destruct Hcase as [-> _]; cbn; lia. }
    split; [|by split]. unfold deposit_priced. cbn [Amount].
    rewrite Hp1 in Hcase. cbn in Hcase. destruct (Z.eqb_spec total 0) as [Hz|Hz].
    + destruct Hcase as (_ & -> & -> & ->). split_and!; try done; try lia.
    + destruct Hcase as (_ & _ & _ & _ & Hsh & Hmn & Hx & Hy). split_and!; try done; lia.
Qed.
End dex_liquidity_lemmas.

(** ** A new pool *)
Section new_pool.
Context `{HostLaws, !ShieldedKeeper}.
Implicit Types (w : World) (δ : string → Z).

(** The store with one more pool, at the next id. *)
Definition add_pool (erth token : Coin) (day : Z) (s : DexStore) : DexStore :=
  let id := k_PoolSeq s in
  set_k_PoolLpIndex <[id := lp_index s]>
    (set_k_PoolByToken <[Denom token := id]>
      (after_SetPool id (new_pool id erth token day) (set_k_PoolSeq (λ n, n + 1) s))).

Lemma fresh_id s : pools_inv s → k_Pool s !! k_PoolSeq s = None.
Proof.
  intros Hi. destruct (k_Pool s !! k_PoolSeq s) as [p|] eqn:E; [|done].
  pose proof (po_seq _ _ _ (pi_pool _ Hi _ _ E)). lia.
Qed.

Definition new_pool_ok (s : DexStore) (erth token : Coin) : Prop :=
  Denom erth = hub_denom ∧ Denom token ≠ hub_denom ∧ IsLPShareDenom (Denom token) = false ∧
  0 ≤ Amount erth ≤ MaxPoolAmount ∧ 0 ≤ Amount token ≤ MaxPoolAmount ∧
  k_PoolByToken s !! Denom token = None.

Lemma add_pool_pools_inv s erth token day :
  pools_inv s → new_pool_ok s erth token → pools_inv (add_pool erth token day s).
Proof.
  intros Hi (H1' & H2' & H3' & H4' & H5' & H6'). pose proof (fresh_id s Hi) as Hf. destruct Hi.
  set (id := k_PoolSeq s) in *. 
  assert (∀ i, i ≠ id → lp_last (add_pool erth token day s) i = lp_last s i) as Hln.
  { intros i Hne. unfold lp_last, add_pool. cbn. fold id. by rewrite lookup_insert_ne. }
  assert (lp_last (add_pool erth token day s) id = lp_index s) as Hl.
  { unfold lp_last, add_pool. cbn. fold id. by rewrite lookup_insert_eq. }
  split.
  - intros i p. cbn. fold id. intros [[<- <-]|[Hne Hp]]%lookup_insert_Some.
    + split; try done; cbn; [unfold id; lia|by rewrite lookup_insert_eq|]. rewrite Hl. done.
    + apply pi_pool in Hp as []. split; try done; cbn; [fold id in po_seq |- *; lia| |by rewrite Hln].
      rewrite lookup_insert_ne; [done|]. intros E. congruence.
  - intros d i. cbn. fold id. intros [[<- <-]|[Hne Hp]]%lookup_insert_Some.
    + eexists. rewrite lookup_insert_eq. done.
    + destruct (pi_by_token _ _ Hp) as (p & Hpp & Hd). exists p. rewrite lookup_insert_ne; [done|].
      intros ->. congruence.
  - cbn. fold id. rewrite map_sum_insert, Hf. cbn.
    assert (0 ≤ default 0 (k_TotalPoolErth s)).
    { rewrite pi_total. apply map_sum_nonneg. intros i q Hq. apply (pi_pool _ _ Hq). }
    rewrite !Z.sub_0_r. destruct (Z.eqb_spec (Amount erth) 0) as [E|E]; [lia|]. cbn. case_match; lia.
  - unfold total_volume in *. cbn. fold id. rewrite map_sum_insert, Hf. cbn. lia.
  - cbn [k_Pool add_pool set_k_PoolLpIndex set_k_PoolByToken after_SetPool set_k_Pool]. fold id.
    rewrite map_sum_insert. cbn. rewrite Hf. cbn. unfold pending, lp_index in *. cbn.
    erewrite map_sum_ext; [exact pi_rewards || idtac|].
    2:{ intros i q Hq. cbv beta. rewrite (Hln i); [reflexivity|]. intros ->. congruence. }
    unfold pending in pi_rewards. lia.
  - done.
  - done.
  - cbn. fold id. lia.
Qed.

Lemma add_pool_owed s erth token day d :
  pools_inv s → owed (add_pool erth token day s) d =
  owed s d + pool_holds d (new_pool (k_PoolSeq s) erth token day).
Proof.
  intros Hi. unfold owed. cbn [k_Pool add_pool set_k_PoolLpIndex set_k_PoolByToken after_SetPool set_k_Pool].
  cbn. rewrite map_sum_insert, (fresh_id s Hi). cbn. unfold pending. cbn. lia.
Qed.

(** A new pool backed by coins in transit. *)
Lemma inv_upto_add_pool δ w w' erth token day :
  inv_upto δ w → new_pool_ok (w_dex w) erth token → w_bank w' = w_bank w →
  w_dex w' = add_pool erth token day (w_dex w) → auction_inv (w_dex w') →
  inv_upto (λ d, δ d - AmountOf [erth; token] d) w'.
Proof.
  intros [] Hok Hb Hd Ha. split; try done; rewrite ?Hb, ?Hd.
  - by apply add_pool_pools_inv.
  - destruct iu_unbond. split; [|done]. cbn. intros t i a u Hu.
    destruct (ui_entry _ _ _ _ Hu) as (?&?&?&?&?). split_and!; try done. by apply is_Some_insert_pool.
  - intros i b Hpb. cbn in *. destruct (iu_pol _ _ Hpb) as (?&?&?). do 2 (split; [done|]).
    by apply is_Some_insert_pool.
  - done.
  - done.
  - intros d Hl. rewrite add_pool_owed, iu_balance by done. unfold pool_holds. cbn.
    rewrite AmountOf_cons, AmountOf_coin. lia.
  - intros i Hi. change (lp_claims (add_pool erth token day (w_dex w)) i) with (lp_claims (w_dex w) i).
    specialize (iu_shares i Hi). destruct Hok as (He & Ht & Hl & _).
    rewrite AmountOf_cons, AmountOf_coin, He.
    rewrite (bool_decide_eq_false_2 (hub_denom = _)) by (intros E; by apply (lp_ne_hub _ i iu_pools)).
    rewrite (bool_decide_eq_false_2 (Denom token = _)) by (by apply lp_ne). lia.
Qed.
End new_pool.

(** ** The handlers keep the invariant *)
Section dex_liquidity_inv.
Context `{HostLaws, !ShieldedKeeper}.

Lemma GetSupply_nonneg b d : 0 ≤ GetSupply b d.
Proof. pose proof (GetBalance_supply b dex_addr d). pose proof (GetBalance_range b dex_addr d). lia. Qed.

Lemma pull_from_ok creator e t w u w' :
  pull_from creator e t w = Ok (u, w') →
  w_dex w' = w_dex w ∧ moved w w' (λ a d, at_ dex_addr (AmountOf [e; t]) a d - at_ creator (AmountOf [e; t]) a d) ∧
  ∀ d, GetSupply (w_bank w') d = GetSupply (w_bank w) d.
Proof.
  unfold pull_from. intros Hr.
  apply bind_ok in Hr as (cs & w1 & [[Hcs _]%NewCoins_spec ->]%lift_ok & Hr).
  apply bank_ok in Hr as (b & Hb & ->). apply SendA2M_spec in Hb as [Hb Hs]. split; [done|]. split.
  - intros a d. cbn. rewrite Hb, Hcs. unfold at_. fold dex_addr. repeat case_bool_decide; simplify_eq; lia.
  - intros d. cbn. rewrite Hs, !bd_none. lia.
Qed.

(** What a successful deposit from an account did. *)
Lemma AddLiquidity_spec msg w sh w' :
  dex_inv w → StringToBytes (al_Creator msg) ≠ Ok dex_addr → AddLiquidity msg w = Ok (sh, w') →
  dex_inv w' ∧ Denom sh = LPShareDenom (al_PoolId msg) ∧
  ∃ creator p erthIn tokenIn dE dT, StringToBytes (al_Creator msg) = Ok creator ∧
    k_Pool (w_dex w) !! al_PoolId msg = Some p ∧
    ((erthIn = al_AmountA msg ∧ tokenIn = al_AmountB msg) ∨ (erthIn = al_AmountB msg ∧ tokenIn = al_AmountA msg)) ∧
    Denom erthIn = Denom (pl_ReserveErth p) ∧ Denom tokenIn = Denom (pl_ReserveToken p) ∧
    deposit_priced (Amount (pl_ReserveErth p) + settle_owed (w_dex w) (al_PoolId msg) p)
      (Amount (pl_ReserveToken p)) (GetSupply (w_bank w) (LPShareDenom (al_PoolId msg))) erthIn tokenIn sh dE dT ∧
    deposited (al_PoolId msg) p sh dE dT w w' ∧ check_min_shares (al_MinShares msg) (Amount sh) = Ok () ∧
    (∀ a d, a ≠ dex_addr → GetBalance (w_bank w') a d = GetBalance (w_bank w) a d +
       (if bool_decide (a = creator) then AmountOf [sh] d - AmountOf [dE; dT] d else 0)).
Proof.
  intros Hi%dex_inv_upto Hc Hr. unfold AddLiquidity in Hr.
  apply bind_ok in Hr as (creator & w1 & [Hcr ->]%lift_ok & Hr). rewrite Hcr in Hc.
  assert (creator ≠ dex_addr) as Hne by congruence.
  apply bind_ok in Hr as (p & w1 & [Hp ->]%or_error_ok%PoolGet_ok & Hr).
  apply bind_ok in Hr as ([] & w1 & [_ ->]%lift_ok & Hr).
  apply bind_ok in Hr as ([erthIn tokenIn] & w1 & [Hmatch ->]%lift_ok & Hr).
  apply bind_ok in Hr as ([[sh' dE] dT] & w1 & Hdep & [= -> ->]%ret_ok).
  eapply deposit_upto in Hdep as (Hi' & Hb & Hd & p' & Hp' & HdE & HdT & Hpr & Hleft & Hmin);
    [|exact Hi|intros; by eapply pull_from_ok|apply GetSupply_nonneg].
  assert (p' = p) as -> by congruence. cbn [shares_to] in *. split; [|split; [done|]].
  - apply dex_inv_upto. eapply inv_upto_weaken; [exact Hi'|intros d _|intros i _]; cbv beta;
      rewrite at_eq, at_ne by done; lia.
  - exists creator, p, erthIn, tokenIn, dE, dT. split_and!; try done.
    + unfold matchPair in Hmatch. repeat case_match; simplify_eq; auto.
    + destruct Hpr as (E1 & _). congruence.
    + destruct Hpr as (_ & E1 & _). congruence.
    + intros a d Ha. rewrite Hb, at_ne by done. unfold at_. case_bool_decide; lia.
Qed.

(** What [CreatePool] decided and moved. *)
Lemma CreatePool_run msg w id w' :
  CreatePool msg w = Ok (id, w') →
  ∃ creator erth token, StringToBytes (cp_Creator msg) = Ok creator ∧
    ((erth = cp_AmountA msg ∧ token = cp_AmountB msg) ∨ (erth = cp_AmountB msg ∧ token = cp_AmountA msg)) ∧
    (∀ a, k_LiquidityAuction (w_dex w) = Some a → la_Status a = AUCTION_STATUS_SETTLED) ∧
    new_pool_ok (w_dex w) erth token ∧ id = k_PoolSeq (w_dex w) ∧
    w_dex w' = add_pool erth token (dayOf (unix w)) (w_dex w) ∧
    0 < Z.sqrt (Amount erth * Amount token) ∧
    (creator ≠ dex_addr → moved w w' (λ a d,
       at_ dex_addr (AmountOf [erth; token]) a d +
       at_ creator (λ d, AmountOf [mkCoin (LPShareDenom id) (Z.sqrt (Amount erth * Amount token))] d
                         - AmountOf [erth; token] d) a d)) ∧
    (∀ d, GetSupply (w_bank w') d = GetSupply (w_bank w) d +
       AmountOf [mkCoin (LPShareDenom id) (Z.sqrt (Amount erth * Amount token))] d).
Proof.
  unfold CreatePool. intros Hr.
  apply bind_ok in Hr as ([] & w1 & [_ ->]%lift_ok & Hr).
  apply bind_ok in Hr as (locked & w1 & Hl & Hr). unfold PoolCreationLocked in Hl.
  apply bind_ok in Hl as (au & w2 & [-> ->]%get_dex_ok & [= -> ->]%ret_ok).
  apply bind_ok in Hr as ([] & w1 & [Hlock ->]%refuse_if_ok & Hr).
  apply bind_ok in Hr as (creator & w1 & [Hcr ->]%lift_ok & Hr).
  apply bind_ok in Hr as ([] & w1 & [Hsame%bool_decide_eq_false ->]%refuse_if_ok & Hr).
  apply bind_ok in Hr as ([] & w1 & [Hval ->]%refuse_if_ok & Hr).
  apply bind_ok in Hr as ([] & w1 & [Hcap ->]%refuse_if_ok & Hr).
  apply bind_ok in Hr as (hub & w1 & [Hhub ->]%lift_ok & Hr).
  rewrite host_bond_denom in Hhub. injection Hhub as <-.
  apply bind_ok in Hr as ([erth token] & w1 & Hpair & Hr).
  assert (w1 = w ∧ ((erth = cp_AmountA msg ∧ token = cp_AmountB msg) ∨ (erth = cp_AmountB msg ∧ token = cp_AmountA msg))
    ∧ Denom erth = hub_denom) as (-> & Hwho & Hhe).
  { clear Hr. repeat case_bool_decide; run_inv; auto. }
  apply bind_ok in Hr as ([] & w1 & [Hlp ->]%refuse_if_ok & Hr).
  apply bind_ok in Hr as (has & w1 & [-> ->]%get_dex_ok & Hr).
  apply bind_ok in Hr as ([] & w1 & [Hhas%bool_decide_eq_false%eq_None_not_Some ->]%refuse_if_ok & Hr).
  apply bind_ok in Hr as (pid & w1 & Hseq & Hr). unfold PoolSeqNext in Hseq.
  apply bind_ok in Hseq as (n & w2 & [-> ->]%get_dex_ok & Hseq).
  apply bind_ok in Hseq as ([] & w2 & ->%set_dex_ok & [= -> ->]%ret_ok).
  apply bind_ok in Hr as (cs & w2 & [[Hcs _]%NewCoins_spec ->]%lift_ok & Hr).
  apply bind_ok in Hr as ([] & w2 & Hs & Hr). apply bank_ok in Hs as (b & Hs & ->). cbn in Hs.
  apply bind_ok in Hr as (sa & w2 & [[_ ->]%initialShares_ok ->]%lift_ok & Hr).
  apply bind_ok in Hr as ([] & w2 & [Hsh ->]%refuse_if_ok & Hr).
  apply bind_ok in Hr as (shc & w2 & [[-> _]%NewCoin_spec ->]%lift_ok & Hr).
  apply bind_ok in Hr as ([] & w2 & (_ & Hd2 & Hn2 & Hm2 & Hsu2)%mintShares_ok & Hr).
  apply bind_ok in Hr as (t & w3 & [-> ->]%now_ok & Hr).
  apply bind_ok in Hr as ([] & w3 & (-> & _)%SetPool_ok & Hr).
  apply bind_ok in Hr as ([] & w3 & ->%set_dex_ok & Hr).
  apply bind_ok in Hr as ([] & w3 & Hinit & [= -> ->]%ret_ok). unfold initPoolLpIndex in Hinit.
  apply bind_ok in Hinit as (idx & w4 & [-> ->]%get_dex_ok & ->%set_dex_ok).
  apply SendA2M_spec in Hs as [Hs Hss]. fold dex_addr in Hs.
  assert (unix w2 = unix w) as Ht by (unfold unix; by rewrite Hn2). rewrite Ht.
  exists creator, erth, token. split; [done|]. split; [done|]. split; [|split; [|split; [done|split; [|split; [|split]]]]].
  - intros a Ha. rewrite Ha in Hlock. by apply negb_false_iff, bool_decide_eq_true in Hlock.
  - unfold new_pool_ok, WithinPoolCap in *. destruct Hwho as [[-> ->]|[-> ->]]; split_and!; try done; try congruence; lia.
  - cbn [w_dex upd_dex]. rewrite Hd2. reflexivity.
  - lia.
  - intros Hne a d. cbn [w_bank upd_dex]. rewrite Hm2. cbn [w_bank set_w_bank]. rewrite Hs, Hcs. unfold at_.
    destruct (decide (a = dex_addr)) as [->|Ha]; [|destruct (decide (a = creator)) as [->|Ha']];
      rewrite ?bool_decide_eq_true_2, ?bool_decide_eq_false_2 by congruence; try lia.
    all: repeat (case_bool_decide; simplify_eq); lia.
  - intros d. cbn [w_bank upd_dex]. rewrite Hsu2. cbn [w_bank set_w_bank]. rewrite Hss.
    rewrite !(bool_decide_eq_false_2 (Some _ = None)) by done. lia.
Qed.

Lemma CreatePool_spec msg w id w' :
  dex_inv w → StringToBytes (cp_Creator msg) ≠ Ok dex_addr → CreatePool msg w = Ok (id, w') →
  dex_inv w' ∧ id = k_PoolSeq (w_dex w) ∧ k_Pool (w_dex w) !! id = None ∧
  ∃ creator erth token, StringToBytes (cp_Creator msg) = Ok creator ∧
    ((erth = cp_AmountA msg ∧ token = cp_AmountB msg) ∨ (erth = cp_AmountB msg ∧ token = cp_AmountA msg)) ∧
    Denom erth = hub_denom ∧
    k_Pool (w_dex w') !! id = Some (new_pool id erth token (dayOf (unix w))) ∧
    k_PoolByToken (w_dex w) !! Denom token = None ∧ k_PoolByToken (w_dex w') !! Denom token = Some id ∧
    GetSupply (w_bank w') (LPShareDenom id) = GetSupply (w_bank w) (LPShareDenom id) +
      Z.sqrt (Amount erth * Amount token) ∧ 0 < Z.sqrt (Amount erth * Amount token).
Proof.
  intros Hi Hc Hr. pose proof Hi as Hup%dex_inv_upto.
  apply CreatePool_run in Hr as (creator & erth & token & Hcr & Hwho & Hlock & Hnp & -> & Hd & Hsq & Hm & Hs).
  assert (creator ≠ dex_addr) as Hne by congruence. specialize (Hm Hne).
  split; [|split; [done|split; [by apply fresh_id, Hi|]]].
  - set (wb := {| w_nanos := w_nanos w; w_bank := w_bank w'; w_shielded := w_shielded w;
                  w_earth := w_earth w; w_dex := w_dex w |}).
    pose proof (inv_upto_moved _ w wb _ Hup eq_refl Hm) as Hup2.
    apply dex_inv_upto. eapply inv_upto_weaken;
      [apply (inv_upto_add_pool _ wb w' erth token _ Hup2 Hnp eq_refl Hd)|intros d _|intros i _]; cbv beta;
      rewrite ?at_eq, ?at_ne by done; try lia.
    rewrite Hd. pose proof (di_auction _ Hi) as Ha. unfold auction_inv, add_pool in *. cbn.
    destruct (k_LiquidityAuction (w_dex w)) as [a|]; [|done]. rewrite (Hlock a eq_refl) in *. tauto.
  - exists creator, erth, token. rewrite Hd, Hs, AmountOf_single, bool_decide_eq_true_2 by done.
    destruct Hnp as (? & ? & ? & ? & ? & ?). do 3 (split; [done|]). unfold add_pool. cbn.
    rewrite !lookup_insert_eq. done.
Qed.
End dex_liquidity_inv.

(** ** Properties *)
Section liquidity_properties.
Context `{HostLaws, !ShieldedKeeper}.
Implicit Types w : World.

(** A pool is created once per token: [CreatePool] takes the next id, which no pool had, for a token no
    pool had, pairs it with the hub asset, mints the creator floor(sqrt(erth * token)) shares, takes
    exactly the two amounts from it, and touches no other account. *)
Theorem create_pool_fresh msg w id w' :
  dex_inv w → StringToBytes (cp_Creator msg) ≠ Ok dex_addr → CreatePool msg w = Ok (id, w') →
  ∃ creator erth token, StringToBytes (cp_Creator msg) = Ok creator ∧
    ((erth, token) = (cp_AmountA msg, cp_AmountB msg) ∨ (erth, token) = (cp_AmountB msg, cp_AmountA msg)) ∧
    Denom erth = hub_denom ∧ Denom token ≠ hub_denom ∧
    k_Pool (w_dex w) !! id = None ∧ k_PoolByToken (w_dex w) !! Denom token = None ∧
    k_Pool (w_dex w') = <[id := new_pool id erth token (dayOf (unix w))]> (k_Pool (w_dex w)) ∧
    k_PoolByToken (w_dex w') !! Denom token = Some id ∧
    let shares := Z.sqrt (Amount erth * Amount token) in
    0 < shares ∧
    GetSupply (w_bank w') (LPShareDenom id) = GetSupply (w_bank w) (LPShareDenom id) + shares ∧
    (∀ d, GetBalance (w_bank w') creator d = GetBalance (w_bank w) creator d
       - AmountOf [erth; token] d + AmountOf [mkCoin (LPShareDenom id) shares] d) ∧
    (∀ a d, a ≠ creator → a ≠ dex_addr → GetBalance (w_bank w') a d = GetBalance (w_bank w) a d).
Proof.
  intros Hi Hc Hr.
  apply CreatePool_run in Hr as (creator & erth & token & Hcr & Hwho & _ & Hnp & -> & Hd & Hsq & Hm & Hs).
  assert (creator ≠ dex_addr) as Hne by congruence. specialize (Hm Hne).
  destruct Hnp as (E1 & E2 & _ & _ & _ & E3).
  exists creator, erth, token. split; [done|]. split; [destruct Hwho as [[-> ->]|[-> ->]]; auto|].
  do 2 (split; [done|]). split; [by apply fresh_id, Hi|]. split; [done|].
  rewrite Hd. split; [done|]. split; [unfold add_pool; cbn; by rewrite lookup_insert_eq|]. cbv zeta.
  split; [done|]. split; [by rewrite Hs, AmountOf_single, bool_decide_eq_true_2|]. split.
  - intros d. rewrite Hm, at_eq, at_ne by done. lia.
  - intros a d Ha1 Ha2. rewrite Hm, !at_ne by done. lia.
Qed.

(** C27: A deposit never dilutes: into a pool with shares outstanding, the reserves per share do not fall on
    either side (the reward due to the holders credited first).  The depositor gets exactly the shares of the smaller
    side, min(floor(erth * total / E), floor(token * total / T)) of its two offers, and at least its minimum; it gives of
    each leg exactly the least amount that pays for those shares, ceil(shares * reserve / total), at most what it
    offered; and no other account changes. *)
Theorem deposit_never_dilutes msg w sh w' :
  dex_inv w → StringToBytes (al_Creator msg) ≠ Ok dex_addr → AddLiquidity msg w = Ok (sh, w') →
  let total := GetSupply (w_bank w) (LPShareDenom (al_PoolId msg)) in total ≠ 0 →
  ∃ creator p p' eI tI dE dT, StringToBytes (al_Creator msg) = Ok creator ∧
    k_Pool (w_dex w) !! al_PoolId msg = Some p ∧ k_Pool (w_dex w') !! al_PoolId msg = Some p' ∧
    let E := Amount (pl_ReserveErth p) + settle_owed (w_dex w) (al_PoolId msg) p in
    let T := Amount (pl_ReserveToken p) in
    Amount (pl_ReserveErth p') = E + Amount dE ∧ Amount (pl_ReserveToken p') = T + Amount dT ∧
    GetSupply (w_bank w') (LPShareDenom (al_PoolId msg)) = total + Amount sh ∧
    E * (total + Amount sh) ≤ Amount (pl_ReserveErth p') * total ∧
    T * (total + Amount sh) ≤ Amount (pl_ReserveToken p') * total ∧
    (eI = al_AmountA msg ∧ tI = al_AmountB msg ∨ eI = al_AmountB msg ∧ tI = al_AmountA msg) ∧
    Denom dE = Denom eI ∧ Denom dT = Denom tI ∧
    Denom eI = Denom (pl_ReserveErth p) ∧ Denom tI = Denom (pl_ReserveToken p) ∧
    Amount sh = Z.min (Amount eI * total / E) (Amount tI * total / T) ∧
    (Amount dE - 1) * total < Amount sh * E ≤ Amount dE * total ∧
    (Amount dT - 1) * total < Amount sh * T ≤ Amount dT * total ∧
    Amount dE ≤ Amount eI ∧ Amount dT ≤ Amount tI ∧
    Denom sh = LPShareDenom (al_PoolId msg) ∧ 0 < Amount sh ∧ check_min_shares (al_MinShares msg) (Amount sh) = Ok () ∧
    (∀ d, GetBalance (w_bank w') creator d =
       GetBalance (w_bank w) creator d + AmountOf [sh] d - AmountOf [dE; dT] d) ∧
    (∀ a d, a ≠ creator → a ≠ dex_addr → GetBalance (w_bank w') a d = GetBalance (w_bank w) a d).
Proof.
  intros Hi Hc Hr total Htot.
  apply AddLiquidity_spec in Hr as (_ & Hden & creator & p & eI & tI & dE & dT & Hcr & Hp & Hwho & HeE & HtT & Hpr & Hdep & Hmin & Hb);
    [|done..].
  destruct Hpr as (Hd1 & Hd2 & HlE & HlT & Hpos & _ & Hprice). destruct (Hprice Htot) as (Hsh & HE & HT).
  destruct Hdep as (p' & Hp' & HE' & HT' & Hs). fold total in HE', HT', Hs, HE, HT, Hsh.
  destruct (Z.eqb_spec total 0); [done|].
  exists creator, p, p', eI, tI, dE, dT. cbv zeta. assert (creator ≠ dex_addr) by congruence.
  split_and!; try done; try lia.
  - intros d. rewrite Hb, bool_decide_eq_true_2 by done. lia.
  - intros a d Hn1 Hn2. rewrite Hb, bool_decide_eq_false_2 by done. lia.
Qed.

(** Left-over reserves never go to the next depositor: a deposit into a pool whose shares were all
    burned starts from empty reserves, holds exactly what was deposited, and mints
    floor(sqrt(erth * token)) shares. *)
Theorem deposit_into_emptied_pool msg w sh w' :
  dex_inv w → StringToBytes (al_Creator msg) ≠ Ok dex_addr → AddLiquidity msg w = Ok (sh, w') →
  GetSupply (w_bank w) (LPShareDenom (al_PoolId msg)) = 0 →
  ∃ p' dE dT, k_Pool (w_dex w') !! al_PoolId msg = Some p' ∧
    ((dE, dT) = (al_AmountA msg, al_AmountB msg) ∨ (dE, dT) = (al_AmountB msg, al_AmountA msg)) ∧
    Amount (pl_ReserveErth p') = Amount dE ∧ Amount (pl_ReserveToken p') = Amount dT ∧
    Amount sh = Z.sqrt (Amount dE * Amount dT) ∧
    GetSupply (w_bank w') (LPShareDenom (al_PoolId msg)) = Amount sh.
Proof.
  intros Hi Hc Hr Htot.
  apply AddLiquidity_spec in Hr as (_ & _ & creator & p & eI & tI & dE & dT & Hcr & Hp & Hwho & _ & _ & Hpr & Hdep & _ & _);
    [|done..].
  destruct Hpr as (_ & _ & _ & _ & _ & Hprice & _). rewrite Htot in Hprice. destruct (Hprice eq_refl) as (-> & -> & Hsh).
  destruct Hdep as (p' & Hp' & HE' & HT' & Hs). rewrite Htot in HE', HT', Hs.
  exists p', eI, tI. split_and!; try done. destruct Hwho as [[-> ->]|[-> ->]]; auto.
Qed.
End liquidity_properties.
