(* ===== verification/DexUnbonding.v ===== *)
(** * x/dex: withdrawals

    [x/dex/keeper/msg_server_remove_liquidity.go] (a withdrawal begins: shares escrowed, an entry
    filed) and [lp_unbonding.go] (the maturity sweep of EndBlock, the payout, the retry of a payout
    that failed). *)

From S2P Require Export DexLiquidity.

Record MsgRemoveLiquidity := {
  rl_Creator : string; rl_PoolId : Z; rl_Shares : Coin; rl_Pc : bytes; rl_Ciphertext : bytes;
}.

Definition ub_set_shares (c : Coin) (u : LpUnbonding) : LpUnbonding :=
  {| ub_Address := ub_Address u; ub_PoolId := ub_PoolId u; ub_Shares := c;
     ub_CompletionTime := ub_CompletionTime u; ub_Pc := ub_Pc u; ub_Ciphertext := ub_Ciphertext u;
     ub_ErthPc := ub_ErthPc u; ub_ErthCiphertext := ub_ErthCiphertext u;
     ub_WithdrawalId := ub_WithdrawalId u; ub_PayoutAttempts := ub_PayoutAttempts u |}.
Definition ub_set_retry (completion attempts : Z) (u : LpUnbonding) : LpUnbonding :=
  {| ub_Address := ub_Address u; ub_PoolId := ub_PoolId u; ub_Shares := ub_Shares u;
     ub_CompletionTime := completion; ub_Pc := ub_Pc u; ub_Ciphertext := ub_Ciphertext u;
     ub_ErthPc := ub_ErthPc u; ub_ErthCiphertext := ub_ErthCiphertext u;
     ub_WithdrawalId := ub_WithdrawalId u; ub_PayoutAttempts := attempts |}.

Section dex_unbonding.
Context `{Host, !ShieldedKeeper}.

(** ** The queue and its index *)
Definition byAddrKey (key : UnbondKey) : bytes * Z * Z := let '(t, id, a) := key in (a, t, id).

Definition setLpUnbonding (key : UnbondKey) (u : LpUnbonding) : M () :=
  set_dex (set_k_LpUnbondings <[key := u]>);;
  set_dex (set_k_LpUnbondingsByAddr (λ X, {[byAddrKey key]} ∪ X)).

Definition removeLpUnbonding (key : UnbondKey) : M () :=
  set_dex (set_k_LpUnbondings (delete key));;
  set_dex (set_k_LpUnbondingsByAddr (λ X, X ∖ {[byAddrKey key]})).

Definition LpUnbondingKey (u : LpUnbonding) : outcome UnbondKey :=
  if bool_decide (ub_Address u = "") then Ok (ub_CompletionTime u, ub_PoolId u, ub_WithdrawalId u)
  else
    addrBz ← StringToBytes (ub_Address u);
    Ok (ub_CompletionTime u, ub_PoolId u, addrBz).

(** [checkNoteOut]: an admitted asset, and a note the pool can mint. *)
Definition checkNoteOut (denom : string) (pc ct : bytes) : M () :=
  st ← gets w_pool_state;
  _ ← lift (AssetID denom st);
  lift (CheckMint pc ct st).

Definition maxWithdrawalNoteLeg : Z := MaxNoteValue * (MaxSplitNotes / 4).

Definition check_note_leg (shares total reserve : Z) (on : bool) : outcome () :=
  if negb on then Ok ()
  else
    match mulDiv shares reserve total with
    | Ok v => refuse (maxWithdrawalNoteLeg <? v) ErrInvalidAmount
    | Err _ => Err ErrInvalidAmount
    | Panic => Panic
    end.

Definition checkWithdrawalNoteLegs (pool : Pool) (shares total : Z) (erthNote tokenNote : bool) : outcome () :=
  if negb (0 <? total) then Ok ()
  else
    _ ← check_note_leg shares total (Amount (pl_ReserveErth pool)) erthNote;
    check_note_leg shares total (Amount (pl_ReserveToken pool)) tokenNote.

(** The first of [base + i], [i] from [i0], [n] of them, with no entry for the pool and owner. *)
Fixpoint free_slot (n : nat) (base i : Z) (id : Z) (a : bytes) (s : DexStore) : option Z :=
  match n with
  | O => None
  | S n =>
      let t := wrap_i64 (base + i) in
      if bool_decide (is_Some (k_LpUnbondings s !! (t, id, a))) then free_slot n base (i + 1) id a s
      else Some t
  end.

(** ** msg_server_remove_liquidity.go *)

(** A new entry, due at [completion]. *)
Definition fresh_entry (msg : MsgRemoveLiquidity) (creator : bytes) (completion : Z) : M (Z * LpUnbonding) :=
  canon ← lift (BytesToString creator);
  mret (completion, {| ub_Address := canon; ub_PoolId := rl_PoolId msg; ub_Shares := rl_Shares msg;
           ub_CompletionTime := completion; ub_Pc := rl_Pc msg; ub_Ciphertext := rl_Ciphertext msg;
           ub_ErthPc := []; ub_ErthCiphertext := []; ub_WithdrawalId := []; ub_PayoutAttempts := 0 |}).

(** The entry the shares are filed under: the one already there unless its payout failed before, else a
    new one, moved to the next free second past a failed one. *)
Definition withdrawal_entry (msg : MsgRemoveLiquidity) (creator : bytes) (completion : Z) : M (Z * LpUnbonding) :=
  found ← get_dex (λ s, k_LpUnbondings s !! (completion, rl_PoolId msg, creator));
  match found with
  | None => fresh_entry msg creator completion
  | Some entry =>
      if 0 <? ub_PayoutAttempts entry then
        slot ← get_dex (free_slot 60 completion 1 (rl_PoolId msg) creator);
        match slot with
        | Some completion => fresh_entry msg creator completion
        | None => fail ErrInvalidAmount
        end
      else
        refuse_if (negb (bool_decide (ub_Pc entry = rl_Pc msg)) ||
                   negb (bool_decide (ub_Ciphertext entry = rl_Ciphertext msg))) ErrInvalidPrivateMsg;;
        sum ← lift (CoinAdd (ub_Shares entry) (rl_Shares msg));
        mret (completion, ub_set_shares sum entry)
  end.

Definition RemoveLiquidity (msg : MsgRemoveLiquidity) : M Z :=
  creator ← lift (StringToBytes (rl_Creator msg));
  pool ← or_error (PoolGet (rl_PoolId msg)) ErrPoolNotFound;
  (if isShieldedOnly (Denom (pl_ReserveToken pool)) then
     checkNoteOut (Denom (pl_ReserveToken pool)) (rl_Pc msg) (rl_Ciphertext msg)
   else
     refuse_if (negb (bool_decide (rl_Pc msg = [])) || negb (bool_decide (rl_Ciphertext msg = []))) ErrInvalidPrivateMsg);;
  refuse_if (negb (bool_decide (Denom (rl_Shares msg) = LPShareDenom (rl_PoolId msg)))) ErrInvalidDenom;;
  refuse_if (negb (0 <? Amount (rl_Shares msg))) ErrInvalidAmount;;
  params ← item k_Params;
  escrowShares creator (rl_Shares msg);;
  t ← now;
  '(completion, entry) ← withdrawal_entry msg creator (wrap_i64 (t + wrap_i64 (LpUnbondingSeconds params)));
  (if isShieldedOnly (Denom (pl_ReserveToken pool)) then
     total ← totalShares (rl_PoolId msg);
     lift (checkWithdrawalNoteLegs pool (Amount (ub_Shares entry)) total false true)
   else mret ());;
  setLpUnbonding (completion, rl_PoolId msg, creator) entry;;
  mret completion.

(** ** lp_unbonding.go: the payout *)
Definition errNoteBudget : error := Plain "lp unbond sweep: note budget spent".

(** The notes the positive legs need. *)
Fixpoint notes_needed (legs : list Coin) : outcome Z :=
  match legs with
  | [] => mret 0
  | c :: legs =>
      n ← (if 0 <? Amount c then vs ← SplitNoteValues (Amount c); mret (Z.of_nat (length vs)) else mret 0);
      rest ← notes_needed legs;
      mret (n + rest)
  end.

(** One leg paid as notes, when it is positive: how many. *)
Definition mint_leg (c : Coin) (pc ct : bytes) : M Z :=
  if 0 <? Amount c then
    ps ← shielded (MintNoteSplit ModuleName c pc ct);
    mret (Z.of_nat (length ps))
  else mret 0.

(** Where the two legs go: as notes, or to the account [addrBz]; how many notes. *)
Definition pay_legs (entry : LpUnbonding) (private : bool) (addrBz : bytes) (outErth outToken : Coin) : M Z :=
  payout ← lift (NewCoins [outErth; outToken]);
  '(payout, notes) ←
    (if private then
       n1 ← mint_leg outErth (ub_ErthPc entry) (ub_ErthCiphertext entry);
       n2 ← mint_leg outToken (ub_Pc entry) (ub_Ciphertext entry);
       mret ([], n1 + n2)
     else if isShieldedOnly (Denom outToken) then
       refuse_if ((0 <? Amount outToken) && bool_decide (ub_Pc entry = [])) ErrInvalidUnbonding;;
       n ← mint_leg outToken (ub_Pc entry) (ub_Ciphertext entry);
       payout ← lift (NewCoins [outErth]);
       mret (payout, n)
     else mret (payout, 0));
  (if negb (CoinsIsZero payout) then bank (SendCoinsFromModuleToAccount ModuleName addrBz payout) else mret ());;
  mret notes.

Definition payoutUnbonding (entry : LpUnbonding) (budget : Z) : M Z :=
  let private := bool_decide (ub_Address entry = "") in
  addrBz ← (if private then
      refuse_if (bool_decide (ub_WithdrawalId entry = []) || bool_decide (ub_ErthPc entry = []) ||
                 bool_decide (ub_Pc entry = [])) ErrInvalidUnbonding;;
      mret []
    else lift (StringToBytes (ub_Address entry)));
  refuse_if (negb (0 <? Amount (ub_Shares entry))) ErrInvalidUnbonding;;
  refuse_if (negb (bool_decide (Denom (ub_Shares entry) = LPShareDenom (ub_PoolId entry)))) ErrInvalidUnbonding;;
  pool ← PoolGet (ub_PoolId entry);
  pool ← settlePoolRewards (ub_PoolId entry) pool;
  total ← totalShares (ub_PoolId entry);
  refuse_if (negb (0 <? total) || (total <? Amount (ub_Shares entry))) ErrInsufficientPool;;
  erthAmt ← or_error (lift (mulDiv (Amount (ub_Shares entry)) (Amount (pl_ReserveErth pool)) total)) ErrInvalidUnbonding;
  tokenAmt ← or_error (lift (mulDiv (Amount (ub_Shares entry)) (Amount (pl_ReserveToken pool)) total)) ErrInvalidUnbonding;
  outErth ← lift (NewCoin (Denom (pl_ReserveErth pool)) erthAmt);
  outToken ← lift (NewCoin (Denom (pl_ReserveToken pool)) tokenAmt);
  need ← lift (notes_needed (if private then [outErth; outToken]
                             else if isShieldedOnly (Denom outToken) then [outToken] else []));
  refuse_if ((budget <? need) && (budget <? LpUnbondNoteBudget)) errNoteBudget;;
  burnEscrowedShares (ub_Shares entry);;
  erth ← lift (CoinSub (pl_ReserveErth pool) outErth);
  token ← lift (CoinSub (pl_ReserveToken pool) outToken);
  SetPool (ub_PoolId entry) (pl_set_reserves (Amount erth) (Amount token) pool);;
  pay_legs entry private addrBz outErth outToken.

(** ** lp_unbonding.go: the retry *)
Definition retryUnbonding (key : UnbondKey) (entry : LpUnbonding) : M () :=
  let '(_, id, a) := key in
  let attempts := wrap_u32 (ub_PayoutAttempts entry + 1) in
  t ← now;
  let at_ := wrap_i64 (t + LpUnbondRetryDelay attempts) in
  slot ← get_dex (free_slot 60 at_ 0 id a);
  match slot with
  | Some next =>
      removeLpUnbonding key;;
      setLpUnbonding (next, id, a) (ub_set_retry next attempts entry)
  | None => set_dex (set_k_LpUnbondings <[key := ub_set_retry (ub_CompletionTime entry) attempts entry]>)
  end.

(** ** lp_unbonding.go: the sweep *)
Fixpoint matured (limit : nat) (now : Z) (q : list (UnbondKey * LpUnbonding))
    {struct q} : list (UnbondKey * LpUnbonding) :=
  match q with
  | [] => []
  | e :: q =>
      if now <? fst (fst (fst e)) then []
      else match limit with O => [] | S n => e :: matured n now q end
  end.

(** The loop over the matured entries: [notes] were minted so far. *)
Fixpoint sweep_loop (due : list (UnbondKey * LpUnbonding)) (notes : Z) : M () :=
  match due with
  | [] => mret ()
  | (key, entry) :: due =>
      if LpUnbondNoteBudget <=? notes then mret ()
      else
        r ← Cached (payoutUnbonding entry (LpUnbondNoteBudget - notes));
        match r with
        | inl e =>
            if bool_decide (e = errNoteBudget) then mret ()
            else
              _ ← Item (retryUnbonding key entry);
              sweep_loop due notes
        | inr minted =>
            removeLpUnbonding key;;
            sweep_loop due (notes + minted)
        end
  end.

Definition SweepMaturedUnbondings : M () :=
  t ← now;
  due ← get_dex (λ s, matured (Z.to_nat LpUnbondSweepLimit) t (iter_map (k_LpUnbondings s)));
  sweep_loop due 0.

End dex_unbonding.

(** ** The queue under the invariant *)
Section unbonding_lemmas.
Context `{HostLaws, !ShieldedKeeper, !ShieldedLaws}.
Implicit Types (w : World) (δ : string → Z) (s : DexStore).

#[local] Instance by_addr_key_inj : Inj (=) (=) by_addr_key.
Proof. intros [[? ?] ?] [[? ?] ?]. cbn. congruence. Qed.

(** An entry of the queue as it is filed. *)
Definition entry_ok s (k : UnbondKey) (u : LpUnbonding) : Prop :=
  let '(t, id, _) := k in
  ub_PoolId u = id ∧ ub_CompletionTime u = t ∧ Denom (ub_Shares u) = LPShareDenom id ∧
  0 < Amount (ub_Shares u) ∧ is_Some (k_Pool s !! id).

Definition with_entry (k : UnbondKey) (u : LpUnbonding) (s : DexStore) : DexStore :=
  set_k_LpUnbondingsByAddr (λ X, {[byAddrKey k]} ∪ X) (set_k_LpUnbondings <[k := u]> s).
Definition without_entry (k : UnbondKey) (s : DexStore) : DexStore :=
  set_k_LpUnbondingsByAddr (λ X, X ∖ {[byAddrKey k]}) (set_k_LpUnbondings (delete k) s).

Lemma setLpUnbonding_ok k u w r w' : setLpUnbonding k u w = Ok (r, w') ↔ w' = upd_dex (with_entry k u) w.
Proof.
  unfold setLpUnbonding. split.
  - intros Hr. run_inv. done.
  - intros ->. destruct r. done.
Qed.
Lemma removeLpUnbonding_ok k w r w' : removeLpUnbonding k w = Ok (r, w') ↔ w' = upd_dex (without_entry k) w.
Proof.
  unfold removeLpUnbonding. split.
  - intros Hr. run_inv. done.
  - intros ->. destruct r. done.
Qed.

Lemma unbond_inv_entry s k u : unbond_inv s → k_LpUnbondings s !! k = Some u → entry_ok s k u.
Proof. destruct k as [[t id] a]. intros [] Hk. exact (ui_entry t id a u Hk). Qed.

Lemma with_entry_unbond_inv k u s : unbond_inv s → entry_ok s k u → unbond_inv (with_entry k u s).
Proof.
  intros [] Hok. split.
  - intros t id a v. cbn. intros [[-> <-]|[_ Hv]]%lookup_insert_Some; [exact Hok|by apply (ui_entry t id a)].
  - intros k'. cbn [with_entry set_k_LpUnbondingsByAddr k_LpUnbondingsByAddr]. unfold with_entry. cbn.
    etransitivity; [apply elem_of_union|]. rewrite (ui_index k'), lookup_insert_is_Some'.
    rewrite elem_of_singleton. change (byAddrKey k) with (by_addr_key k).
    split; (intros [E|E]; [left|by right]); [by apply (inj by_addr_key) in E|by rewrite E].
Qed.

Lemma without_entry_unbond_inv k s : unbond_inv s → unbond_inv (without_entry k s).
Proof.
  intros []. split.
  - intros t id a v. cbn. intros [_ Hv]%lookup_delete_Some. by apply (ui_entry t id a).
  - intros k'. cbn. change (byAddrKey k) with (by_addr_key k).
    rewrite elem_of_difference, elem_of_singleton, ui_index, lookup_delete_is_Some.
    split; intros [E1 E2]; split; try done; intros E3; [by apply E2; rewrite E3|].
    by apply E1, symmetry, (inj by_addr_key).
Qed.

(** The module's LP claims: an entry's shares come and go with it. *)
Lemma entry_shares_lp s k u i : entry_ok s k u → 0 ≤ snd (fst k) → 0 ≤ i →
  AmountOf [ub_Shares u] (LPShareDenom i) = (if ub_PoolId u =? i then Amount (ub_Shares u) else 0).
Proof.
  destruct k as [[t id] a]. intros (Hid & _ & Hd & _) H1' H2'. rewrite AmountOf_coin, Hd, Hid.
  destruct (Z.eqb_spec id i) as [->|Hne]; [by rewrite bool_decide_eq_true_2|].
  rewrite bool_decide_eq_false_2; [done|]. intros E. by apply LPShareDenom_inj in E.
Qed.

Lemma entry_shares_other s k u d : entry_ok s k u → IsLPShareDenom d = false → AmountOf [ub_Shares u] d = 0.
Proof.
  destruct k as [[t id] a]. intros (_ & _ & Hd & _) Hl. rewrite AmountOf_coin, Hd, bool_decide_eq_false_2; [done|].
  intros <-. by rewrite LPShareDenom_IsLP in Hl.
Qed.

Lemma entry_id s k u : pools_inv s → entry_ok s k u → 0 ≤ snd (fst k).
Proof.
  destruct k as [[t id] a]. intros Hi (_ & _ & _ & _ & p & Hp). cbn.
  pose proof (po_seq _ _ _ (pi_pool _ Hi _ _ Hp)). lia.
Qed.

Lemma with_entry_upto δ w k u :
  inv_upto δ w → entry_ok (w_dex w) k u →
  inv_upto (λ d, δ d - AmountOf [ub_Shares u] d
     + (match k_LpUnbondings (w_dex w) !! k with Some v => AmountOf [ub_Shares v] d | None => 0 end))
    (upd_dex (with_entry k u) w).
Proof.
  intros Hi Hok. pose proof (entry_id _ _ _ (iu_pools _ _ Hi) Hok) as Hid. destruct Hi.
  split; try done; [by eapply same_pools_inv; [|exact iu_pools]|by apply with_entry_unbond_inv|..].
  - intros d Hl. cbn. change (owed (with_entry k u (w_dex w)) d) with (owed (w_dex w) d).
    rewrite iu_balance, (entry_shares_other _ _ _ _ Hok Hl) by done.
    destruct (k_LpUnbondings (w_dex w) !! k) as [v|] eqn:Hv; [|lia].
    rewrite (entry_shares_other _ _ _ _ (unbond_inv_entry _ _ _ iu_unbond Hv) Hl). lia.
  - intros i Hi. cbn. specialize (iu_shares i Hi). unfold lp_claims, escrowed, pol_remaining in *. cbn.
    rewrite map_sum_insert, (entry_shares_lp _ _ _ _ Hok Hid Hi).
    destruct (k_LpUnbondings (w_dex w) !! k) as [v|] eqn:Hv; cbn; [|lia].
    rewrite (entry_shares_lp _ _ _ _ (unbond_inv_entry _ _ _ iu_unbond Hv) Hid Hi). lia.
Qed.

Lemma without_entry_upto δ w k u :
  inv_upto δ w → k_LpUnbondings (w_dex w) !! k = Some u →
  inv_upto (λ d, δ d + AmountOf [ub_Shares u] d) (upd_dex (without_entry k) w).
Proof.
  intros Hi Hk. pose proof (unbond_inv_entry _ _ _ (iu_unbond _ _ Hi) Hk) as Hok.
  pose proof (entry_id _ _ _ (iu_pools _ _ Hi) Hok) as Hid. destruct Hi.
  split; try done; [by eapply same_pools_inv; [|exact iu_pools]|by apply without_entry_unbond_inv|..].
  - intros d Hl. cbn. change (owed (without_entry k (w_dex w)) d) with (owed (w_dex w) d).
    rewrite iu_balance, (entry_shares_other _ _ _ _ Hok Hl) by done. lia.
  - intros i Hi. cbn. specialize (iu_shares i Hi). unfold lp_claims, escrowed, pol_remaining in *. cbn.
    rewrite (map_sum_delete _ _ _ _ Hk), (entry_shares_lp _ _ _ _ Hok Hid Hi). lia.
Qed.

Lemma free_slot_ok n base i id a s t :
  free_slot n base i id a s = Some t → k_LpUnbondings s !! (t, id, a) = None.
Proof.
  revert i. induction n as [|n IH]; intros i; cbn [free_slot]; [done|].
  case_bool_decide as E; [apply IH|]. intros E'. injection E' as E'. rewrite E' in E.
  by apply eq_None_not_Some.
Qed.

Lemma checkNoteOut_ok d pc ct w u w' : checkNoteOut d pc ct w = Ok (u, w') → w' = w.
Proof. unfold checkNoteOut. intros Hr. run_inv. done. Qed.

(** Escrowing shares: the owner's to the module's account. *)
Lemma escrowShares_ok owner c w u w' :
  escrowShares owner c w = Ok (u, w') →
  ∃ b cs, w' = set_w_bank b w ∧ (∀ d, AmountOf cs d = AmountOf [c] d) ∧
    bank_moved (Some owner) (Some dex_addr) cs (w_bank w) b.
Proof.
  unfold escrowShares. intros Hr.
  apply bind_ok in Hr as (cs & w1 & [[Hcs _]%NewCoins_spec ->]%lift_ok & Hr).
  apply bank_ok in Hr as (b & Hm & ->). apply SendA2M_spec in Hm. eauto.
Qed.

Lemma escrowShares_upto δ owner c w u w' :
  inv_upto δ w → owner ≠ dex_addr → escrowShares owner c w = Ok (u, w') →
  inv_upto (λ d, δ d + AmountOf [c] d) w' ∧ w_dex w' = w_dex w ∧ w_nanos w' = w_nanos w ∧
  (∀ a d, GetBalance (w_bank w') a d = GetBalance (w_bank w) a d
     + (if bool_decide (a = dex_addr) then AmountOf [c] d else 0)
     - (if bool_decide (a = owner) then AmountOf [c] d else 0)).
Proof.
  intros Hi Hne (b & cs & -> & Hcs & Hm)%escrowShares_ok. split; [|split; [done|split; [done|]]].
  - eapply inv_upto_weaken; [exact (inv_upto_bank _ _ _ _ _ _ Hi Hm)|intros d _|intros i _]; cbv beta;
      rewrite Hcs, bool_decide_eq_false_2, bool_decide_eq_true_2 by congruence; lia.
  - intros a d. destruct Hm as [Hb _]. cbn. rewrite Hb, Hcs. repeat case_bool_decide; simplify_eq; lia.
Qed.

(** ** A withdrawal begins *)

(** The entry a withdrawal folds its shares into: none, or one its payout has not failed on. *)
Definition filed (k : UnbondKey) s : Z :=
  match k_LpUnbondings s !! k with Some v => Amount (ub_Shares v) | None => 0 end.

Lemma fresh_entry_ok msg a c w t u w' :
  fresh_entry msg a c w = Ok (t, u, w') →
  w' = w ∧ t = c ∧ ub_PoolId u = rl_PoolId msg ∧ ub_CompletionTime u = c ∧ ub_Shares u = rl_Shares msg ∧
  ub_PayoutAttempts u = 0 ∧ BytesToString a = Ok (ub_Address u) ∧ ub_Pc u = rl_Pc msg.
Proof. unfold fresh_entry. intros Hr. run_inv. done. Qed.

Lemma withdrawal_entry_ok msg a c w t u w' :
  unbond_inv (w_dex w) → Denom (rl_Shares msg) = LPShareDenom (rl_PoolId msg) → 0 < Amount (rl_Shares msg) →
  is_Some (k_Pool (w_dex w) !! rl_PoolId msg) →
  withdrawal_entry msg a c w = Ok (t, u, w') →
  let k := (t, rl_PoolId msg, a) in
  w' = w ∧ entry_ok (w_dex w) k u ∧ Amount (ub_Shares u) = Amount (rl_Shares msg) + filed k (w_dex w) ∧
  ub_PayoutAttempts u ≤ 0 ∧ ub_Pc u = rl_Pc msg.
Proof.
  intros Hu Hd Hpos Hpool. unfold withdrawal_entry. intros Hr.
  apply bind_ok in Hr as (fnd & w1 & [-> ->]%get_dex_ok & Hr).
  assert (∀ c, k_LpUnbondings (w_dex w) !! (c, rl_PoolId msg, a) = None → fresh_entry msg a c w = Ok (t, u, w') →
    let k := (t, rl_PoolId msg, a) in
    w' = w ∧ entry_ok (w_dex w) k u ∧ Amount (ub_Shares u) = Amount (rl_Shares msg) + filed k (w_dex w) ∧
    ub_PayoutAttempts u ≤ 0 ∧ ub_Pc u = rl_Pc msg) as Hfresh.
  { intros c' Hn (-> & -> & E1 & E2 & E3 & E4 & _ & E5)%fresh_entry_ok. unfold filed. rewrite Hn, E4, E5. cbn.
    rewrite E1, E2, E3. split_and!; try done; lia. }
  destruct (k_LpUnbondings (w_dex w) !! (c, rl_PoolId msg, a)) as [v|] eqn:Hv; [|by eapply Hfresh].
  destruct (0 <? ub_PayoutAttempts v) eqn:Hat.
  - apply bind_ok in Hr as (slot & w1 & [-> ->]%get_dex_ok & Hr).
    destruct (free_slot _ _ _ _ _ _) as [c'|] eqn:Hs; [|done]. apply free_slot_ok in Hs. by eapply Hfresh.
  - apply bind_ok in Hr as ([] & w1 & [Hpc ->]%refuse_if_ok & Hr).
    apply bind_ok in Hr as (sum & w1 & [[_ ->]%CoinAdd_spec ->]%lift_ok & [= -> -> ->]%ret_ok).
    destruct (unbond_inv_entry _ _ _ Hu Hv) as (E1 & E2 & E3 & E4 & E5).
    apply orb_false_iff in Hpc as [Hpc _]. rewrite negb_false_iff, bool_decide_eq_true in Hpc.
    unfold filed. rewrite Hv. cbn. split_and!; try done; lia.
Qed.

Lemma RemoveLiquidity_spec msg w t w' :
  dex_inv w → (∀ a, StringToBytes (rl_Creator msg) = Ok a → a ≠ dex_addr) →
  RemoveLiquidity msg w = Ok (t, w') →
  dex_inv w' ∧ ∃ a u, StringToBytes (rl_Creator msg) = Ok a ∧
    let k := (t, rl_PoolId msg, a) in
    w_dex w' = with_entry k u (w_dex w) ∧ 0 < Amount (rl_Shares msg) ∧
    Denom (rl_Shares msg) = LPShareDenom (rl_PoolId msg) ∧
    Amount (ub_Shares u) = Amount (rl_Shares msg) + filed k (w_dex w) ∧ ub_PayoutAttempts u ≤ 0 ∧
    (∀ a' d, GetBalance (w_bank w') a' d = GetBalance (w_bank w) a' d
     + (if bool_decide (a' = dex_addr) then AmountOf [rl_Shares msg] d else 0)
     - (if bool_decide (a' = a) then AmountOf [rl_Shares msg] d else 0)).
Proof.
  intros Hi Hne Hr. apply dex_inv_upto in Hi. unfold RemoveLiquidity in Hr.
  apply bind_ok in Hr as (a & w1 & [Ha ->]%lift_ok & Hr). specialize (Hne _ Ha).
  apply bind_ok in Hr as (p & w1 & Hp%or_error_ok & Hr). apply PoolGet_ok in Hp as [Hp ->].
  apply bind_ok in Hr as ([] & w1 & Hc & Hr).
  assert (w1 = w) as -> by (destruct (isShieldedOnly _); [by apply checkNoteOut_ok in Hc|by run_inv]). clear Hc.
  apply bind_ok in Hr as ([] & w1 & [Hd ->]%refuse_if_ok & Hr).
  rewrite negb_false_iff, bool_decide_eq_true in Hd.
  apply bind_ok in Hr as ([] & w1 & [Hpos ->]%refuse_if_ok & Hr).
  apply bind_ok in Hr as (ps & w1 & [_ ->]%item_ok & Hr).
  apply bind_ok in Hr as ([] & w1 & He & Hr).
  apply (escrowShares_upto _ _ _ _ _ _ Hi Hne) in He as (Hi1 & Hd1 & _ & Hb1).
  apply bind_ok in Hr as (tm & w2 & [-> ->]%now_ok & Hr).
  apply bind_ok in Hr as ([c u] & w2 & Hw & Hr).
  apply withdrawal_entry_ok in Hw as (-> & Hok & Hsh & Hat & _); [|apply (iu_unbond _ _ Hi1)|done|lia|rewrite Hd1; eauto].
  apply bind_ok in Hr as ([] & w2 & Hc & Hr).
  assert (w2 = w1) as ->.
  { destruct (isShieldedOnly _); [|by run_inv].
    by apply bind_ok in Hc as (tot & w3 & [_ ->]%get_bank_ok & [_ ->]%lift_ok). }
  clear Hc.
  apply bind_ok in Hr as ([] & w2 & Hset%setLpUnbonding_ok & [= -> ->]%ret_ok). subst w2.
  pose proof (with_entry_upto _ _ _ _ Hi1 Hok) as Hi2. split.
  - apply dex_inv_upto. eapply inv_upto_weaken; [exact Hi2|intros d Hl|intros i Hi0]; cbv beta.
    + rewrite (entry_shares_other _ _ _ _ Hok Hl). rewrite (AmountOf_coin (rl_Shares msg)), Hd, bool_decide_eq_false_2.
      2:{ intros <-. by rewrite LPShareDenom_IsLP in Hl. }
      destruct (k_LpUnbondings _ !! _) as [v|] eqn:Hv; [|done].
      rewrite (entry_shares_other _ _ _ _ (unbond_inv_entry _ _ _ (iu_unbond _ _ Hi1) Hv) Hl). done.
    + pose proof (entry_id _ _ _ (iu_pools _ _ Hi1) Hok) as Hid.
      rewrite (entry_shares_lp _ _ _ _ Hok Hid Hi0), (AmountOf_coin (rl_Shares msg)), Hd.
      destruct Hok as (-> & _). unfold filed in Hsh. cbn in Hid.
      replace (bool_decide (LPShareDenom (rl_PoolId msg) = LPShareDenom i)) with (rl_PoolId msg =? i).
      2:{ destruct (Z.eqb_spec (rl_PoolId msg) i) as [->|Hn]; [by rewrite bool_decide_eq_true_2|].
          rewrite bool_decide_eq_false_2; [done|]. intros E%LPShareDenom_inj; done. }
      destruct (k_LpUnbondings _ !! _) as [v|] eqn:Hv.
      * pose proof (unbond_inv_entry _ _ _ (iu_unbond _ _ Hi1) Hv) as Hok'.
        rewrite (entry_shares_lp _ _ _ _ Hok' Hid Hi0). destruct Hok' as (-> & _).
        destruct (_ =? _); lia.
      * destruct (_ =? _); lia.
  - exists a, u. split; [done|]. cbn. rewrite Hd1 in *. split_and!; try done. lia.
Qed.

(** ** The payout *)
Definition shielded_addr : bytes := NewModuleAddress shielded_ModuleName.

Lemma shielded_ne_dex : shielded_addr ≠ dex_addr.
Proof. by intros E%NewModuleAddress_inj. Qed.

Lemma CoinsIsZero_wf cs d : coins_wf cs → CoinsIsZero cs = true → AmountOf cs d = 0.
Proof.
  intros [_ Hpos] Hz. destruct cs as [|c cs]; [done|]. cbn in Hz. pose proof (Hpos c ltac:(left)). lia.
Qed.

Lemma mint_leg_ok c pc ct w n w' :
  0 ≤ Amount c → mint_leg c pc ct w = Ok (n, w') →
  w_dex w' = w_dex w ∧ w_nanos w' = w_nanos w ∧
  moved w w' (λ a d, at_ shielded_addr (AmountOf [c]) a d - at_ dex_addr (AmountOf [c]) a d) ∧
  (∀ d, GetSupply (w_bank w') d = GetSupply (w_bank w) d).
Proof.
  intros Hc Hr. unfold mint_leg in Hr. destruct (0 <? Amount c) eqn:Hp.
  - apply bind_ok in Hr as (ps & w1 & Hm & [= -> ->]%ret_ok).
    apply shielded_ok in Hm as (b & sh & Hm & ->). apply MintNoteSplit_spec in Hm as [Hb Hs].
    do 2 (split; [done|]). split.
    + intros a d. cbn. rewrite Hb, !bd_some. unfold at_, shielded_addr, dex_addr. lia.
    + intros d. cbn. rewrite Hs, !bd_none. lia.
  - apply ret_ok in Hr as [= -> ->]. do 2 (split; [done|]). split; [|done].
    intros a d. unfold at_. rewrite AmountOf_coin. repeat case_bool_decide; lia.
Qed.

(** The payout of coins to an account; nothing is sent when they are zero. *)
Lemma pay_account_ok a l cs w u w' :
  (∀ d, AmountOf cs d = AmountOf l d) → coins_wf cs →
  (if negb (CoinsIsZero cs) then bank (SendCoinsFromModuleToAccount ModuleName a cs) else mret ()) w = Ok (u, w') →
  w_dex w' = w_dex w ∧ w_nanos w' = w_nanos w ∧
  moved w w' (λ a' d, at_ a (AmountOf l) a' d - at_ dex_addr (AmountOf l) a' d) ∧
  (∀ d, at_ a (AmountOf l) dex_addr d = 0) ∧
  (∀ d, GetSupply (w_bank w') d = GetSupply (w_bank w) d).
Proof.
  intros Hcs Hwf Hr. destruct (CoinsIsZero cs) eqn:Hz; cbn [negb] in Hr.
  - apply ret_ok in Hr as [= -> ->]. assert (∀ d, AmountOf l d = 0) as Hl.
    { intros d. rewrite <-Hcs. by apply CoinsIsZero_wf. }
    do 2 (split; [done|]). split; [|split; [|done]].
    + intros a' d. unfold at_. rewrite Hl. repeat case_bool_decide; lia.
    + intros d. unfold at_. rewrite Hl. case_bool_decide; done.
  - apply bank_ok in Hr as (b & Hm & ->).
    assert (a ≠ dex_addr) as Hne by (intros ->; by apply SendM2A_blocked in Hm).
    apply SendM2A_spec in Hm as [Hb Hs]. do 2 (split; [done|]). split; [|split].
    + intros a' d. cbn. rewrite Hb, Hcs, !bd_some. unfold at_, dex_addr. lia.
    + intros d. by apply at_ne, not_eq_sym.
    + intros d. cbn. rewrite Hs, !bd_none. lia.
Qed.

(** Who gets the legs of a payout. *)
Definition leg_dst (note : bool) (addrBz : bytes) : bytes := if note then shielded_addr else addrBz.
Definition paid_out (private : bool) (addrBz : bytes) (outErth outToken : Coin) (a : bytes) (d : string) : Z :=
  at_ (leg_dst private addrBz) (AmountOf [outErth]) a d +
  at_ (leg_dst (private || isShieldedOnly (Denom outToken)) addrBz) (AmountOf [outToken]) a d.

Lemma pay_legs_ok u private a outErth outToken w n w' :
  0 ≤ Amount outErth → 0 ≤ Amount outToken →
  pay_legs u private a outErth outToken w = Ok (n, w') →
  w_dex w' = w_dex w ∧ w_nanos w' = w_nanos w ∧
  moved w w' (λ a' d, paid_out private a outErth outToken a' d
                      - at_ dex_addr (AmountOf [outErth; outToken]) a' d) ∧
  (∀ d, paid_out private a outErth outToken dex_addr d = 0) ∧
  (∀ d, GetSupply (w_bank w') d = GetSupply (w_bank w) d).
Proof.
  intros He Ht Hr. unfold pay_legs in Hr. unfold paid_out, leg_dst.
  assert (∀ l d, at_ shielded_addr (AmountOf l) dex_addr d = 0) as Hsh.
  { intros. apply at_ne, not_eq_sym, shielded_ne_dex. }
  assert (∀ x a' d, at_ x (AmountOf [outErth; outToken]) a' d =
    at_ x (AmountOf [outErth]) a' d + at_ x (AmountOf [outToken]) a' d) as Hsum.
  { intros x a' d. unfold at_. destruct (bool_decide (a' = x)); [|done].
    by rewrite (AmountOf_cons outErth [outToken]), (AmountOf_coin outErth). }
  apply bind_ok in Hr as (cs & w1 & [[Hcs Hwf]%NewCoins_spec ->]%lift_ok & Hr).
  destruct private; [|cbn [orb]; destruct (isShieldedOnly (Denom outToken))].
  - apply bind_ok in Hr as ([pay ns] & w1 & Hm & Hr).
    apply bind_ok in Hm as (n1 & w2 & Hm1 & Hm). apply bind_ok in Hm as (n2 & w3 & Hm2 & [= -> -> ->]%ret_ok).
    apply mint_leg_ok in Hm1 as (D1 & N1 & M1 & S1); [|done]. apply mint_leg_ok in Hm2 as (D2 & N2 & M2 & S2); [|done].
    apply bind_ok in Hr as ([] & w4 & [= ->]%ret_ok & [= -> ->]%ret_ok).
    split_and!; [congruence|congruence| |intros d; rewrite !Hsh; done|intros d; by rewrite S2, S1].
    intros a' d. rewrite (moved_trans _ _ _ _ _ M1 M2 a' d), Hsum. cbn. lia.
  - apply bind_ok in Hr as ([pay ns] & w1 & Hm & Hr).
    apply bind_ok in Hm as ([] & w2 & [_ ->]%refuse_if_ok & Hm).
    apply bind_ok in Hm as (n1 & w2 & Hm1 & Hm). apply bind_ok in Hm as (ec & w3 & [[Hec Hwe]%NewCoins_spec ->]%lift_ok & [= -> -> ->]%ret_ok).
    apply mint_leg_ok in Hm1 as (D1 & N1 & M1 & S1); [|done].
    apply bind_ok in Hr as ([] & w4 & Hp & [= -> ->]%ret_ok).
    apply (pay_account_ok _ [outErth]) in Hp as (D2 & N2 & M2 & Z2 & S2); [|done..].
    split_and!; [congruence|congruence| |intros d; rewrite Hsh, Z2; done|intros d; by rewrite S2, S1].
    intros a' d. rewrite (moved_trans _ _ _ _ _ M1 M2 a' d), Hsum. cbn. lia.
  - apply bind_ok in Hr as ([pay ns] & w1 & [= -> -> ->]%ret_ok & Hr).
    apply bind_ok in Hr as ([] & w4 & Hp & [= -> ->]%ret_ok).
    apply (pay_account_ok _ [outErth; outToken]) in Hp as (D2 & N2 & M2 & Z2 & S2); [|done..].
    split_and!; try done.
    + intros a' d. rewrite (M2 a' d), <-Hsum. lia.
    + intros d. rewrite <-Hsum. apply Z2.
Qed.

(** What a payout did: pool record [p] became [p'], the legs [e] and [t] (the shares' floor part of each
    reserve, rewards settled first) left for [paid_out]'s recipients, the shares were burned. *)
Record paid (u : LpUnbonding) (a : bytes) (p p' : Pool) (e t : Z) (w w' : World) : Prop := {
  pd_touch : touch (ub_PoolId u) p p' (w_dex w) (w_dex w');
  pd_total : 0 < Amount (ub_Shares u) ≤ GetSupply (w_bank w) (LPShareDenom (ub_PoolId u));
  pd_erth : e = Amount (ub_Shares u) * (Amount (pl_ReserveErth p) + settle_owed (w_dex w) (ub_PoolId u) p)
              / GetSupply (w_bank w) (LPShareDenom (ub_PoolId u));
  pd_token : t = Amount (ub_Shares u) * Amount (pl_ReserveToken p)
               / GetSupply (w_bank w) (LPShareDenom (ub_PoolId u));
  pd_erth_left : Amount (pl_ReserveErth p') = Amount (pl_ReserveErth p) + settle_owed (w_dex w) (ub_PoolId u) p - e;
  pd_token_left : Amount (pl_ReserveToken p') = Amount (pl_ReserveToken p) - t;
  pd_moved : moved w w' (λ a' d,
    paid_out (bool_decide (ub_Address u = "")) a (mkCoin (Denom (pl_ReserveErth p)) e)
      (mkCoin (Denom (pl_ReserveToken p)) t) a' d
    - at_ dex_addr (AmountOf [mkCoin (Denom (pl_ReserveErth p)) e; mkCoin (Denom (pl_ReserveToken p)) t]) a' d
    - at_ dex_addr (AmountOf [ub_Shares u]) a' d);
  pd_own : ∀ d, paid_out (bool_decide (ub_Address u = "")) a (mkCoin (Denom (pl_ReserveErth p)) e)
      (mkCoin (Denom (pl_ReserveToken p)) t) dex_addr d = 0;
  pd_supply : ∀ d, GetSupply (w_bank w') d = GetSupply (w_bank w) d - AmountOf [ub_Shares u] d;
  pd_addr : ub_Address u ≠ "" → StringToBytes (ub_Address u) = Ok a;
  pd_time : w_nanos w' = w_nanos w;
}.

Lemma burnEscrowed_ok c w u w' :
  burnEscrowedShares c w = Ok (u, w') →
  w_dex w' = w_dex w ∧ w_nanos w' = w_nanos w ∧ moved w w' (λ a d, - at_ dex_addr (AmountOf [c]) a d) ∧
  (∀ d, GetSupply (w_bank w') d = GetSupply (w_bank w) d - AmountOf [c] d).
Proof.
  unfold burnEscrowedShares. intros Hr.
  apply bind_ok in Hr as (cs & w1 & [[Hcs _]%NewCoins_spec ->]%lift_ok & Hr).
  apply bank_ok in Hr as (b & Hm & ->). apply BurnCoins_spec in Hm as [Hb Hs]. fold dex_addr in *.
  do 2 (split; [done|]). split.
  - intros a d. cbn. rewrite Hb, Hcs, bd_some, (bool_decide_eq_false_2 (None = _)) by done. unfold at_. 
    destruct (bool_decide _); lia.
  - intros d. cbn. rewrite Hs, Hcs, bd_none, bool_decide_eq_true_2 by done. lia.
Qed.

Lemma payoutUnbonding_paid u n w r w' :
  pools_inv (w_dex w) → payoutUnbonding u n w = Ok (r, w') →
  ∃ a p p' e t, paid u a p p' e t w w'.
Proof.
  intros Hi Hr. unfold payoutUnbonding in Hr. cbv zeta in Hr.
  apply bind_ok in Hr as (a & w1 & Ha & Hr).
  assert (w1 = w ∧ (ub_Address u ≠ "" → StringToBytes (ub_Address u) = Ok a)) as [-> Hau].
  { clear Hr. case_bool_decide; run_inv; done. }
  clear Ha.
  apply bind_ok in Hr as ([] & w1 & [Hpos ->]%refuse_if_ok & Hr).
  apply bind_ok in Hr as ([] & w1 & [_ ->]%refuse_if_ok & Hr).
  apply bind_ok in Hr as (p & w1 & [Hp ->]%PoolGet_ok & Hr).
  apply bind_ok in Hr as (p1 & w1 & Hs & Hr).
  destruct (settle_settled _ _ _ _ _ Hi Hp Hs) as (Hst & -> & Ho & Hw1). cbn in Hr.
  destruct (pi_pool _ Hi _ _ Hp) as [].
  assert (w_bank w1 = w_bank w) as Hbk by (by rewrite Hw1).
  assert (w_nanos w1 = w_nanos w) as Hnn by (by rewrite Hw1).
  apply bind_ok in Hr as (tot & w2 & [-> ->]%get_bank_ok & Hr). rewrite Hbk in Hr.
  apply bind_ok in Hr as ([] & w2 & [Htot ->]%refuse_if_ok & Hr).
  apply bind_ok in Hr as (e & w2 & He%or_error_ok & Hr). apply lift_ok in He as [(_ & _ & _ & _ & He)%mulDiv_ok ->].
  apply bind_ok in Hr as (t & w2 & Ht%or_error_ok & Hr). apply lift_ok in Ht as [(_ & _ & _ & _ & Ht)%mulDiv_ok ->].
  apply bind_ok in Hr as (oe & w2 & [[-> He0]%NewCoin_spec ->]%lift_ok & Hr).
  apply bind_ok in Hr as (ot & w2 & [[-> Ht0]%NewCoin_spec ->]%lift_ok & Hr).
  apply bind_ok in Hr as (need & w2 & [_ ->]%lift_ok & Hr).
  apply bind_ok in Hr as ([] & w2 & [_ ->]%refuse_if_ok & Hr).
  apply bind_ok in Hr as ([] & w2 & Hb & Hr). apply burnEscrowed_ok in Hb as (D2 & N2 & M2 & S2).
  apply bind_ok in Hr as (re & w3 & [(_ & -> & Hre)%CoinSub_spec ->]%lift_ok & Hr).
  apply bind_ok in Hr as (rt & w3 & [(_ & -> & Hrt)%CoinSub_spec ->]%lift_ok & Hr).
  apply bind_ok in Hr as ([] & w3 & Hset & Hr). cbn in Hset, Hre, Hrt.
  rewrite <-D2 in Hst.
  eapply SetPool_touch in Hset as [Htouch Hw3]; [|exact Hi|exact Hp|exact Hst|done..].
  apply pay_legs_ok in Hr as (D4 & N4 & M4 & Z4 & S4); [|done..]. 
  eexists a, p, _, e, t. rewrite <-D4 in Htouch.
  split; [exact Htouch|lia|done|done|done|done|..].
  - intros a' d. rewrite M4, Hw3. cbn. rewrite M2, Hbk. lia.
  - exact Z4.
  - intros d. rewrite S4, Hw3. cbn. by rewrite S2, Hbk.
  - done.
  - rewrite N4, Hw3. cbn. by rewrite N2, Hnn.
Qed.

Lemma paid_upto δ k u a p p' e t w w' :
  inv_upto δ w → entry_ok (w_dex w) k u → paid u a p p' e t w w' →
  inv_upto (λ d, δ d - AmountOf [ub_Shares u] d) w'.
Proof.
  intros Hi Hok []. pose proof (inv_upto_touch_moved _ _ _ _ _ _ _ Hi pd_touch0 pd_moved0) as Hi'.
  pose proof (po_hub _ _ _ (pi_pool _ (iu_pools _ _ Hi) _ _ (t_pool _ _ _ _ _ pd_touch0))) as Hhub.
  eapply inv_upto_weaken; [exact Hi'|intros d _|intros i _; apply Z.eq_le_incl, eq_sym]; cbv beta;
    rewrite pd_own0, !at_eq, AmountOf_pair; unfold pool_holds;
    rewrite (t_erth_denom _ _ _ _ _ pd_touch0), (t_token_denom _ _ _ _ _ pd_touch0), pd_erth_left0, pd_token_left0, Hhub;
    rewrite !(bool_decide_ext (_ = hub_denom) (hub_denom = _)) by done; repeat case_bool_decide; lia.
Qed.

(** ** The retry *)

(** The entry [u] at [k] filed again at [k'], one attempt more. *)
Definition retried (k k' : UnbondKey) (u : LpUnbonding) (s s' : DexStore) : Prop :=
  let u' := ub_set_retry (fst (fst k')) (wrap_u32 (ub_PayoutAttempts u + 1)) u in
  snd (fst k') = snd (fst k) ∧ snd k' = snd k ∧ (k' = k ∨ k_LpUnbondings s !! k' = None) ∧
  k_LpUnbondings s' = <[k' := u']> (delete k (k_LpUnbondings s)).

Lemma index_present s k u : unbond_inv s → k_LpUnbondings s !! k = Some u →
  {[byAddrKey k]} ∪ k_LpUnbondingsByAddr s = k_LpUnbondingsByAddr s.
Proof.
  intros [_ Hx] Hk. apply subseteq_union_1_L, singleton_subseteq_l.
  change (byAddrKey k) with (by_addr_key k). apply Hx. by eexists.
Qed.

Lemma retry_total k u w : ∃ w', retryUnbonding k u w = Ok ((), w').
Proof.
  unfold retryUnbonding. destruct k as [[t id] a]. run_fwd. destruct (free_slot _ _ _ _ _ _); eauto.
Qed.

Lemma retry_ok k u w w' :
  dex_inv w → k_LpUnbondings (w_dex w) !! k = Some u → retryUnbonding k u w = Ok ((), w') →
  dex_inv w' ∧ w' = upd_dex (λ _, w_dex w') w ∧ ∃ k', retried k k' u (w_dex w) (w_dex w').
Proof.
  intros Hi Hk Hr. apply dex_inv_upto in Hi. pose proof (iu_unbond _ _ Hi) as Hu.
  destruct k as [[t id] a].
  pose proof (unbond_inv_entry _ _ _ Hu Hk) as Hok. pose proof Hok as (E1 & E2 & E3 & E4 & E5).
  unfold retryUnbonding in Hr.
  apply bind_ok in Hr as (tm & w1 & [-> ->]%now_ok & Hr). cbv zeta in Hr.
  apply bind_ok in Hr as (slot & w1 & [-> ->]%get_dex_ok & Hr).
  destruct (free_slot _ _ _ _ _ _) as [n|] eqn:Hs.
  - apply free_slot_ok in Hs.
    apply bind_ok in Hr as ([] & w1 & ->%removeLpUnbonding_ok & ->%setLpUnbonding_ok).
    pose proof (without_entry_upto _ _ _ _ Hi Hk) as Hi1.
    eapply (with_entry_upto _ _ (n, id, a) (ub_set_retry n (wrap_u32 (ub_PayoutAttempts u + 1)) u)) in Hi1;
      [|cbn; by split_and!].
    cbn [w_dex upd_dex k_LpUnbondings without_entry set_k_LpUnbondingsByAddr set_k_LpUnbondings] in Hi1.
    rewrite lookup_delete_ne, Hs in Hi1 by congruence.
    split; [|split; [done|]].
    + apply dex_inv_upto. eapply inv_upto_weaken; [exact Hi1|intros; cbn; lia..].
    + exists (n, id, a). cbn. do 2 (split; [done|]). split; [by right|done].
  - apply set_dex_ok in Hr as ->.
    eapply (with_entry_upto _ _ (t, id, a) (ub_set_retry (ub_CompletionTime u) (wrap_u32 (ub_PayoutAttempts u + 1)) u))
      in Hi as Hi1; [|cbn; by split_and!].
    rewrite Hk in Hi1. unfold with_entry in Hi1.
    match type of Hi1 with inv_upto _ ?w1 => 
      assert (w1 = upd_dex (set_k_LpUnbondings <[(t, id, a) := ub_set_retry (ub_CompletionTime u)
        (wrap_u32 (ub_PayoutAttempts u + 1)) u]>) w) as Hw end.
    { unfold upd_dex. f_equal. cbn. unfold set_k_LpUnbondingsByAddr. cbn.
      pose proof (index_present _ _ _ Hu Hk) as Hx. cbn in Hx. by rewrite Hx. }
    rewrite Hw in Hi1. split; [|split; [done|]].
    + apply dex_inv_upto. eapply inv_upto_weaken; [exact Hi1|intros; cbn; lia..].
    + exists (t, id, a). cbn. do 2 (split; [done|]). split; [by left|]. by rewrite insert_delete_eq, E2.
Qed.

(** ** The sweep *)

(** A step of the sweep: an entry of the queue is paid and leaves it, or is filed again. *)
Inductive sweep_step : World → World → Prop :=
| sweep_pays k u budget n w w1 : k_LpUnbondings (w_dex w) !! k = Some u →
    payoutUnbonding u budget w = Ok (n, w1) → sweep_step w (upd_dex (without_entry k) w1)
| sweep_retries k u w w1 : k_LpUnbondings (w_dex w) !! k = Some u →
    retryUnbonding k u w = Ok ((), w1) → sweep_step w w1.

(** What became of an entry between [w] and [w']: still filed, filed again for a later try, or paid. *)
Inductive fate (k : UnbondKey) (u : LpUnbonding) (w w' : World) : Prop :=
| fate_kept : k_LpUnbondings (w_dex w') !! k = Some u → fate k u w w'
| fate_retried k' : snd (fst k') = snd (fst k) → snd k' = snd k →
    k_LpUnbondings (w_dex w') !! k' = Some (ub_set_retry (fst (fst k')) (wrap_u32 (ub_PayoutAttempts u + 1)) u) →
    fate k u w w'
| fate_paid budget n w1 w2 : rtc sweep_step w w1 → payoutUnbonding u budget w1 = Ok (n, w2) →
    rtc sweep_step (upd_dex (without_entry k) w2) w' → fate k u w w'.

Lemma fate_later k u w w1 w' : sweep_step w w1 → fate k u w1 w' → fate k u w w'.
Proof.
  intros Hs [Hk|k' E1 E2 Hk|b n v1 v2 Hr Hp Hr'].
  - by apply fate_kept.
  - by eapply fate_retried.
  - eapply fate_paid; [by eapply rtc_l|done..].
Qed.

Definition due_stored (due : list (UnbondKey * LpUnbonding)) s : Prop :=
  NoDup due.*1 ∧ ∀ k u, (k, u) ∈ due → k_LpUnbondings s !! k = Some u.

(** What the loop over [due] does to the queue. *)
Definition swept (due : list (UnbondKey * LpUnbonding)) (w w' : World) : Prop :=
  rtc sweep_step w w' ∧ w_nanos w' = w_nanos w ∧
  ∀ k u, k_LpUnbondings (w_dex w) !! k = Some u →
    (k ∉ due.*1 → k_LpUnbondings (w_dex w') !! k = Some u) ∧ fate k u w w'.

Lemma swept_refl due w : swept due w w.
Proof. split; [done|]. split; [done|]. intros k u Hk. split; [done|]. by apply fate_kept. Qed.

(** A payout and the removal of its entry. *)
Lemma payout_remove k u b w n w' :
  dex_inv w → k_LpUnbondings (w_dex w) !! k = Some u → payoutUnbonding u b w = Ok (n, w') →
  dex_inv (upd_dex (without_entry k) w') ∧ (∃ a p p' e t, paid u a p p' e t w w') ∧
  k_LpUnbondings (w_dex w') = k_LpUnbondings (w_dex w).
Proof.
  intros Hi Hk Hr. apply dex_inv_upto in Hi as Hiu.
  pose proof (unbond_inv_entry _ _ _ (iu_unbond _ _ Hiu) Hk) as Hok.
  apply payoutUnbonding_paid in Hr as (a & p & p' & e & t & Hpd); [|apply (iu_pools _ _ Hiu)].
  pose proof (paid_upto _ _ _ _ _ _ _ _ _ _ Hiu Hok Hpd) as Hi'.
  pose proof (t_unbond _ _ _ _ _ (pd_touch _ _ _ _ _ _ _ _ Hpd)) as Hsame.
  split; [|split; [by eauto 6|done]].
  apply dex_inv_upto. eapply inv_upto_weaken; [eapply without_entry_upto; [exact Hi'|by rewrite Hsame]|intros; cbn; lia..].
Qed.

Lemma sweep_loop_ok due notes w :
  dex_inv w → due_stored due (w_dex w) →
  ∃ w', sweep_loop due notes w = Ok ((), w') ∧ dex_inv w' ∧ swept due w w'.
Proof.
  revert notes w. induction due as [|[k u] due IH]; intros notes w Hi [Hnd Hst].
  { exists w. split; [done|]. split; [done|]. apply swept_refl. }
  cbn [sweep_loop]. destruct (LpUnbondNoteBudget <=? notes).
  { exists w. split; [done|]. split; [done|]. apply swept_refl. }
  cbn in Hnd. apply NoDup_cons in Hnd as [Hnk Hnd].
  assert (k_LpUnbondings (w_dex w) !! k = Some u) as Hk by (apply Hst; left).
  destruct (Cached_total (payoutUnbonding u (LpUnbondNoteBudget - notes)) w) as (r & w1 & Hc).
  erewrite run_bind by exact Hc. cbv beta.
  apply Cached_cases in Hc as [(n & -> & Hpay)|(err & -> & -> & _)].
  - destruct (payout_remove _ _ _ _ _ _ Hi Hk Hpay) as (Hi1 & (a & p & p' & e & t & Hpd) & Hsame).
    rewrite (run_bind _ _ _ () (upd_dex (without_entry k) w1)) by (by apply removeLpUnbonding_ok).
    assert (sweep_step w (upd_dex (without_entry k) w1)) as Hstep by by eapply sweep_pays.
    destruct (IH (notes + n) _ Hi1) as (w' & Hr & Hi' & Hrtc & Hn & Hsw).
    { split; [done|]. intros k' v Hv. cbn. rewrite Hsame, lookup_delete_ne; [apply Hst; by right|].
      intros ->. apply Hnk. by apply (list_elem_of_fmap_2 fst _ (k', v)). }
    exists w'. split; [done|]. split; [done|]. split; [by eapply rtc_l|].
    split; [rewrite Hn; apply (pd_time _ _ _ _ _ _ _ _ Hpd)|].
    intros k' v Hv. destruct (decide (k' = k)) as [->|Hne].
    + simplify_eq. split; [intros []; left|]. by eapply fate_paid.
    + destruct (Hsw k' v) as [H1' H2']; [cbn; by rewrite Hsame, lookup_delete_ne|].
      split; [|by eapply fate_later]. intros Hnin. apply H1'. intros Hin. apply Hnin. by right.
  - case_bool_decide as Hb.
    { exists w. split; [done|]. split; [done|]. apply swept_refl. }
    destruct (retry_total k u w) as (w1 & Hret).
    assert (Item (retryUnbonding k u) w = Ok (true, w1)) as Hitem.
    { unfold Item, Cached, mbind, prog_bind. by rewrite Hret. }
    erewrite run_bind by exact Hitem. cbv beta.
    destruct (retry_ok _ _ _ _ Hi Hk Hret) as (Hi1 & Hw1 & k' & Hid & Hown & Hfree & Hm).
    assert (k' ∉ due.*1) as Hk'.
    { intros ([q v] & -> & Hv)%list_elem_of_fmap. cbn in *. destruct Hfree as [->|Hf].
      - apply Hnk. by apply (list_elem_of_fmap_2 fst _ (k, v)).
      - rewrite Hst with q v in Hf; [done|by right]. }
    assert (sweep_step w w1) as Hstep by by eapply sweep_retries.
    destruct (IH notes _ Hi1) as (w' & Hr & Hi' & Hrtc & Hn & Hsw).
    { split; [done|]. intros q v Hv. rewrite Hm, lookup_insert_ne, lookup_delete_ne; [apply Hst; by right|..].
      - intros ->. apply Hnk. by apply (list_elem_of_fmap_2 fst _ (q, v)).
      - intros ->. apply Hk'. by apply (list_elem_of_fmap_2 fst _ (q, v)). }
    exists w'. split; [done|]. split; [done|]. split; [by eapply rtc_l|]. split; [rewrite Hn, Hw1; done|].
    intros q v Hv. destruct (decide (q = k)) as [->|Hne].
    + simplify_eq. split; [intros []; left|]. eapply fate_retried; [exact Hid|exact Hown|].
      apply (Hsw k'); [|done]. by rewrite Hm, lookup_insert_eq.
    + assert (q ≠ k') as Hne' by (destruct Hfree as [->|Hf]; congruence).
      destruct (Hsw q v) as [H1' H2']; [by rewrite Hm, lookup_insert_ne, lookup_delete_ne|].
      split; [|by eapply fate_later]. intros Hnin. apply H1'. intros Hin. apply Hnin. by right.
Qed.

Lemma matured_sublist limit t q : matured limit t q `prefix_of` q.
Proof.
  revert limit. induction q as [|e q IH]; intros limit; [apply prefix_nil|]; cbn [matured].
  case_match; [apply prefix_nil|]. destruct limit; [apply prefix_nil|]. by apply prefix_cons.
Qed.

Lemma matured_due limit t q e : e ∈ matured limit t q → fst (fst (fst e)) ≤ t.
Proof.
  revert limit. induction q as [|x q IH]; intros limit; cbn [matured]; [by intros ?%elem_of_nil|].
  destruct (Z.ltb_spec t (fst (fst (fst x)))); [by intros ?%elem_of_nil|].
  destruct limit; [by intros ?%elem_of_nil|]. intros [->|He]%elem_of_cons; [lia|by eapply IH].
Qed.

Lemma SweepMaturedUnbondings_ok w :
  dex_inv w →
  ∃ w', SweepMaturedUnbondings w = Ok ((), w') ∧ dex_inv w' ∧
    swept (matured (Z.to_nat LpUnbondSweepLimit) (unix w) (iter_map (k_LpUnbondings (w_dex w)))) w w'.
Proof.
  intros Hi. unfold SweepMaturedUnbondings. run_fwd.
  set (due := matured _ _ _). destruct (sweep_loop_ok due 0 w Hi) as (w' & Hr & Hi' & Hs); [|by eauto 6].
  destruct (matured_sublist (Z.to_nat LpUnbondSweepLimit) (unix w) (iter_map (k_LpUnbondings (w_dex w)))) as [l Hl].
  fold due in Hl. split.
  - pose proof (iter_map_NoDup (k_LpUnbondings (w_dex w))) as Hnd. rewrite Hl, fmap_app in Hnd.
    by apply NoDup_app in Hnd as [Hnd _].
  - intros k u Hku. apply elem_of_iter_map. rewrite Hl. apply elem_of_app. by left.
Qed.
End unbonding_lemmas.

(** ** Properties *)
Section unbonding_properties.
Context `{HostLaws, !ShieldedKeeper, !ShieldedLaws}.
Implicit Types w : World.

(** A withdrawal escrows exactly the shares it names: they move from the owner to the module, the one
    entry filed for them grows by them, no other entry of the queue changes, and no pool does. *)
Theorem remove_liquidity_files_entry msg w t w' :
  dex_inv w → StringToBytes (rl_Creator msg) ≠ Ok dex_addr → RemoveLiquidity msg w = Ok (t, w') →
  ∃ owner u, StringToBytes (rl_Creator msg) = Ok owner ∧
    let k := (t, rl_PoolId msg, owner) in
    k_LpUnbondings (w_dex w') = <[k := u]> (k_LpUnbondings (w_dex w)) ∧
    0 < Amount (rl_Shares msg) ∧ Denom (rl_Shares msg) = LPShareDenom (rl_PoolId msg) ∧
    ub_PoolId u = rl_PoolId msg ∧ ub_CompletionTime u = t ∧ Denom (ub_Shares u) = LPShareDenom (rl_PoolId msg) ∧
    Amount (ub_Shares u) = Amount (rl_Shares msg) +
      match k_LpUnbondings (w_dex w) !! k with Some v => Amount (ub_Shares v) | None => 0 end ∧
    k_Pool (w_dex w') = k_Pool (w_dex w) ∧
    (∀ d, GetBalance (w_bank w') owner d = GetBalance (w_bank w) owner d - AmountOf [rl_Shares msg] d) ∧
    (∀ d, GetBalance (w_bank w') dex_addr d = GetBalance (w_bank w) dex_addr d + AmountOf [rl_Shares msg] d) ∧
    (∀ a d, a ≠ owner → a ≠ dex_addr → GetBalance (w_bank w') a d = GetBalance (w_bank w) a d).
Proof.
  intros Hi Hc Hr. apply RemoveLiquidity_spec in Hr as (Hi' & a & u & Ha & Hd & Hp & Hden & Hsh & _ & Hb); [|done|].
  2:{ intros a Ha ->. by apply Hc. }
  assert (a ≠ dex_addr) by congruence. exists a, u. split; [done|]. cbv zeta in *.
  assert (entry_ok (w_dex w') (t, rl_PoolId msg, a) u) as (E1 & E2 & E3 & _).
  { apply unbond_inv_entry; [apply Hi'|]. rewrite Hd. cbn. by rewrite lookup_insert_eq. }
  rewrite Hd. split_and!; try done.
  - intros d. rewrite Hb, bool_decide_eq_false_2, bool_decide_eq_true_2 by done. lia.
  - intros d. rewrite Hb, bool_decide_eq_true_2, bool_decide_eq_false_2 by done. lia.
  - intros b d Hn1 Hn2. rewrite Hb, !bool_decide_eq_false_2 by done. lia.
Qed.

(** C25: A payout is the fair share: the withdrawn shares are burned for the floor of their part of each
    reserve (rewards credited first), so the reserves per remaining share do not fall; the legs reach
    the owner's account (the token leg of a shielded-only pool and both legs of a private entry reach
    the shielded pool as notes), and no other account changes. *)
Theorem payout_fair_share entry budget w notes w' :
  pools_inv (w_dex w) → payoutUnbonding entry budget w = Ok (notes, w') →
  ∃ owner p p' e t, k_Pool (w_dex w) !! ub_PoolId entry = Some p ∧
    k_Pool (w_dex w') = <[ub_PoolId entry := p']> (k_Pool (w_dex w)) ∧
    let S := GetSupply (w_bank w) (LPShareDenom (ub_PoolId entry)) in
    let sh := Amount (ub_Shares entry) in
    let E := Amount (pl_ReserveErth p) + settle_owed (w_dex w) (ub_PoolId entry) p in
    let T := Amount (pl_ReserveToken p) in
    0 < sh ≤ S ∧ e = sh * E / S ∧ t = sh * T / S ∧
    Amount (pl_ReserveErth p') = E - e ∧ Amount (pl_ReserveToken p') = T - t ∧
    E * (S - sh) ≤ Amount (pl_ReserveErth p') * S ∧ T * (S - sh) ≤ Amount (pl_ReserveToken p') * S ∧
    (∀ d, GetSupply (w_bank w') d = GetSupply (w_bank w) d - AmountOf [ub_Shares entry] d) ∧
    (ub_Address entry ≠ "" → StringToBytes (ub_Address entry) = Ok owner) ∧
    let private := bool_decide (ub_Address entry = "") in
    let erthTo := if private then shielded_addr else owner in
    let tokenTo := if private || isShieldedOnly (Denom (pl_ReserveToken p)) then shielded_addr else owner in
    (∀ a d, a ≠ dex_addr → GetBalance (w_bank w') a d = GetBalance (w_bank w) a d
       + (if bool_decide (a = erthTo) then AmountOf [mkCoin (Denom (pl_ReserveErth p)) e] d else 0)
       + (if bool_decide (a = tokenTo) then AmountOf [mkCoin (Denom (pl_ReserveToken p)) t] d else 0)).
Proof.
  intros Hi Hr. apply payoutUnbonding_paid in Hr as (a & p & p' & e & t & Hpd); [|done].
  destruct Hpd as [Htouch Htot He Ht HEl HTl Hmv Hown Hsup Hadr _].
  exists a, p, p', e, t. split; [apply Htouch|]. split; [apply Htouch|]. cbv zeta.
  set (S := GetSupply _ _) in *. set (E := Amount (pl_ReserveErth p) + _) in *.
  pose proof (div_mul_bounds (Amount (ub_Shares entry) * E) S ltac:(lia)) as B1.
  pose proof (div_mul_bounds (Amount (ub_Shares entry) * Amount (pl_ReserveToken p)) S ltac:(lia)) as B2.
  rewrite <-He in B1. rewrite <-Ht in B2.
  split_and!; try done; try lia; try nia.
  intros a' d Hne. rewrite Hmv, !(at_ne a' dex_addr) by done. unfold paid_out, leg_dst, at_. cbn [Denom]. lia.
Qed.

(** C26: No withdrawal is ever lost or paid early: the maturity sweep always returns; every entry of the
    queue is afterwards still there as it was, or filed again under the same pool and owner with its
    shares intact and one more attempt counted, or was paid during the sweep by a payout that ran to
    the end; and an entry that has not matured is untouched. *)
Theorem sweep_loses_nothing w :
  dex_inv w →
  ∃ w', SweepMaturedUnbondings w = Ok ((), w') ∧
  ∀ t id owner u, k_LpUnbondings (w_dex w) !! (t, id, owner) = Some u →
    (unix w < t → k_LpUnbondings (w_dex w') !! (t, id, owner) = Some u) ∧
    (k_LpUnbondings (w_dex w') !! (t, id, owner) = Some u ∨
     (∃ t', k_LpUnbondings (w_dex w') !! (t', id, owner) =
        Some (ub_set_retry t' (wrap_u32 (ub_PayoutAttempts u + 1)) u)) ∨
     ∃ budget notes w1 w2, rtc sweep_step w w1 ∧ payoutUnbonding u budget w1 = Ok (notes, w2) ∧
       rtc sweep_step (upd_dex (without_entry (t, id, owner)) w2) w').
Proof.
  intros Hi. destruct (SweepMaturedUnbondings_ok w Hi) as (w' & Hr & _ & _ & _ & Hs). exists w'. split; [done|].
  intros t id a u Hu. destruct (Hs _ _ Hu) as [Hkeep Hfate]. split.
  - intros Ht. apply Hkeep. intros ([k v] & E & He)%list_elem_of_fmap. apply matured_due in He. cbn in *. subst k.
    cbn in He. lia.
  - destruct Hfate as [?|[[t' id'] a'] E1 E2 ?|b n w1 w2 R1 P R2]; [by left| |right; right; eauto 10].
    cbn in E1, E2. subst. right. left. by exists t'.
Qed.
End unbonding_properties.
