(* ===== verification/DexAuction.v ===== *)
(** * x/dex: the genesis liquidity auction

    [x/dex/keeper/auction.go] (settlement at the deadline, what a bidder may claim) and
    [msg_server_auction.go] (start, bid, claim).  [authority] is the keeper's [GetAuthority]. *)

From S2P Require Export DexUnbonding.

Record MsgStartLiquidityAuction := { sa_Authority : string; sa_BidDenom : string; sa_DurationSeconds : Z }.
Record MsgBidLiquidityAuction := { bd_Bidder : string; bd_Amount : Coin }.
Record MsgClaimLiquidityAuction := { cl_Bidder : string }.

(** The auction with its window set, its raise, its status, its claims. *)
Definition la_set_window (status : AuctionStatus) (denom : string) (endTime raised : Z) (a : LiquidityAuction) :
    LiquidityAuction :=
  {| la_Status := status; la_BidDenom := denom; la_EndTime := endTime;
     la_ErthForBidders := la_ErthForBidders a; la_ErthForPool := la_ErthForPool a;
     la_TotalRaised := raised; la_PoolId := la_PoolId a; la_Claimed := la_Claimed a |}.
Definition la_set_settled (poolID : Z) (a : LiquidityAuction) : LiquidityAuction :=
  {| la_Status := AUCTION_STATUS_SETTLED; la_BidDenom := la_BidDenom a; la_EndTime := la_EndTime a;
     la_ErthForBidders := la_ErthForBidders a; la_ErthForPool := la_ErthForPool a;
     la_TotalRaised := la_TotalRaised a; la_PoolId := poolID; la_Claimed := la_Claimed a |}.
Definition la_set_claimed (claimed : Z) (a : LiquidityAuction) : LiquidityAuction :=
  {| la_Status := la_Status a; la_BidDenom := la_BidDenom a; la_EndTime := la_EndTime a;
     la_ErthForBidders := la_ErthForBidders a; la_ErthForPool := la_ErthForPool a;
     la_TotalRaised := la_TotalRaised a; la_PoolId := la_PoolId a; la_Claimed := claimed |}.

Section dex_auction.
Context `{Host, !ShieldedKeeper}.

Definition set_auction (a : LiquidityAuction) : M () := set_dex (set_k_LiquidityAuction (λ _, Some a)).

(** ** auction.go *)
Definition settleAuction (a : LiquidityAuction) : M () :=
  if negb (0 <? la_TotalRaised a) then
    set_auction (la_set_window AUCTION_STATUS_PENDING "" 0 (la_TotalRaised a) a)
  else
    raised ← lift (NewCoin (la_BidDenom a) (la_TotalRaised a));
    poolID ← PoolSeqNext;
    shareAmt ← lift (initialShares (Amount (la_ErthForPool a)) (Amount raised));
    refuse_if (negb (0 <? shareAmt)) ErrZeroShares;;
    shares ← lift (NewCoin (LPShareDenom poolID) shareAmt);
    coins ← lift (NewCoins [shares]);
    bank (MintCoins ModuleName coins);;
    t ← now;
    SetPool poolID (new_pool poolID (la_ErthForPool a) raised (dayOf t));;
    set_dex (set_k_PoolByToken <[Denom raised := poolID]>);;
    initPoolLpIndex poolID;;
    set_dex (set_k_PolBurns <[poolID := {| pb_PoolId := poolID; pb_TotalShares := shareAmt;
      pb_SharesRemaining := shareAmt; pb_StartTime := t; pb_DurationSeconds := PolBurnSeconds;
      pb_BurnToken := false |}]>);;
    set_auction (la_set_settled poolID a).

Definition SettleDueAuction : M () :=
  a ← get_dex k_LiquidityAuction;
  match a with
  | None => mret ()
  | Some a =>
      if negb (bool_decide (la_Status a = AUCTION_STATUS_OPEN)) then mret ()
      else
        t ← now;
        if t <? la_EndTime a then mret ()
        else
          _ ← Cached (settleAuction a);
          mret ()
  end.

Definition claimableFor (a : LiquidityAuction) (bid : AuctionBid) : outcome Z :=
  if negb (bool_decide (la_Status a = AUCTION_STATUS_SETTLED)) || ab_Claimed bid then Ok 0
  else if negb (0 <? la_TotalRaised a) then Ok 0
  else
    match mulDiv (Amount (la_ErthForBidders a)) (ab_Amount bid) (la_TotalRaised a) with
    | Err _ => Ok 0
    | Panic => Panic
    | Ok share =>
        remaining ← IntSub (Amount (la_ErthForBidders a)) (la_Claimed a);
        Ok (if remaining <? share then remaining else share)
    end.

(** ** msg_server_auction.go *)
Definition StartLiquidityAuction (authority : bytes) (msg : MsgStartLiquidityAuction) : M Z :=
  signer ← lift (StringToBytes (sa_Authority msg));
  refuse_if (negb (bool_decide (authority = signer))) ErrInvalidSigner;;
  refuse_if (sa_DurationSeconds msg <=? 0) ErrAuctionDuration;;
  refuse_if (negb (ValidateDenom (sa_BidDenom msg))) ErrInvalidDenom;;
  lift (refuseShieldedOnly [sa_BidDenom msg]);;
  hub ← HubDenom;
  refuse_if (bool_decide (sa_BidDenom msg = hub)) ErrInvalidDenom;;
  refuse_if (IsLPShareDenom (sa_BidDenom msg)) ErrLpShareDenom;;
  has ← HasPoolForToken (sa_BidDenom msg);
  refuse_if has ErrPoolExists;;
  a ← getAuction;
  refuse_if (negb (bool_decide (la_Status a = AUCTION_STATUS_PENDING))) ErrAuctionState;;
  t ← now;
  let endTime := wrap_i64 (t + sa_DurationSeconds msg) in
  set_auction (la_set_window AUCTION_STATUS_OPEN (sa_BidDenom msg) endTime 0 a);;
  mret endTime.

Definition BidLiquidityAuction (msg : MsgBidLiquidityAuction) : M Coin :=
  bidder ← lift (StringToBytes (bd_Bidder msg));
  a ← getAuction;
  refuse_if (negb (bool_decide (la_Status a = AUCTION_STATUS_OPEN))) ErrAuctionState;;
  t ← now;
  refuse_if (la_EndTime a <=? t) ErrAuctionState;;
  refuse_if (negb (CoinIsValid (bd_Amount msg)) || negb (0 <? Amount (bd_Amount msg))) ErrInvalidAmount;;
  refuse_if (negb (bool_decide (Denom (bd_Amount msg) = la_BidDenom a))) ErrInvalidDenom;;
  refuse_if (negb (WithinPoolCap (Amount (bd_Amount msg)))) ErrPoolCap;;
  raised ← lift (IntAdd (la_TotalRaised a) (Amount (bd_Amount msg)));
  refuse_if (negb (WithinPoolCap raised)) ErrPoolCap;;
  coins ← lift (NewCoins [bd_Amount msg]);
  bank (SendCoinsFromAccountToModule bidder ModuleName coins);;
  found ← get_dex (λ s, k_AuctionBids s !! bidder);
  bid ← match found with
        | Some bid => mret bid
        | None => canon ← lift (BytesToString bidder); mret {| ab_Bidder := canon; ab_Amount := 0; ab_Claimed := false |}
        end;
  amt ← lift (IntAdd (ab_Amount bid) (Amount (bd_Amount msg)));
  set_dex (set_k_AuctionBids <[bidder := {| ab_Bidder := ab_Bidder bid; ab_Amount := amt; ab_Claimed := ab_Claimed bid |}]>);;
  set_auction (la_set_window (la_Status a) (la_BidDenom a) (la_EndTime a) raised a);;
  lift (NewCoin (la_BidDenom a) amt).

Definition ClaimLiquidityAuction (msg : MsgClaimLiquidityAuction) : M Coin :=
  bidder ← lift (StringToBytes (cl_Bidder msg));
  a ← getAuction;
  refuse_if (negb (bool_decide (la_Status a = AUCTION_STATUS_SETTLED))) ErrAuctionState;;
  found ← get_dex (λ s, k_AuctionBids s !! bidder);
  bid ← match found with Some bid => mret bid | None => fail ErrNoBid end;
  refuse_if (ab_Claimed bid) ErrAlreadyClaimed;;
  amt ← lift (claimableFor a bid);
  refuse_if (negb (0 <? amt)) ErrInvalidAmount;;
  payout ← lift (NewCoin (Denom (la_ErthForBidders a)) amt);
  coins ← lift (NewCoins [payout]);
  bank (SendCoinsFromModuleToAccount ModuleName bidder coins);;
  set_dex (set_k_AuctionBids <[bidder := {| ab_Bidder := ab_Bidder bid; ab_Amount := ab_Amount bid; ab_Claimed := true |}]>);;
  claimed ← lift (IntAdd (la_Claimed a) amt);
  set_auction (la_set_claimed claimed a);;
  mret payout.
End dex_auction.

(** ** The auction under the invariant *)
Section auction_lemmas.
Context `{HostLaws, !ShieldedKeeper, !ShieldedLaws}.
Implicit Types (w : World) (δ : string → Z) (s : DexStore) (bids : gmap bytes AuctionBid).

Definition with_auction (a : LiquidityAuction) bids s : DexStore :=
  set_k_LiquidityAuction (λ _, Some a) (set_k_AuctionBids (λ _, bids) s).

Lemma with_same_bids a s : with_auction a (k_AuctionBids s) s = set_k_LiquidityAuction (λ _, Some a) s.
Proof. by destruct s. Qed.

(** Writing the auction and its bids moves what is owed by what the auction holds. *)
Lemma inv_upto_auction δ w a a' bids :
  inv_upto δ w → k_LiquidityAuction (w_dex w) = Some a → auction_inv (with_auction a' bids (w_dex w)) →
  inv_upto (λ d, δ d + auction_holds a d - auction_holds a' d) (upd_dex (with_auction a' bids) w).
Proof.
  intros [] Ha Hinv. split; try done; [by eapply same_pools_inv; [|exact iu_pools]|by destruct iu_unbond; split|..].
  - intros d Hl. cbn. rewrite iu_balance by done. unfold owed, pending. cbn. rewrite Ha. lia.
  - intros i Hi. cbn. specialize (iu_shares i Hi). 
    change (lp_claims (with_auction a' bids (w_dex w)) i) with (lp_claims (w_dex w) i).
    assert (∀ a, auction_inv (with_auction a bids (w_dex w)) → auction_holds a (LPShareDenom i) = 0) as Hz.
    { intros b. unfold auction_holds, auction_inv. cbn. intros (_&_&_&_&_&_&_&_&Hst).
      rewrite (bool_decide_eq_false_2 (LPShareDenom i = hub_denom)) by (by apply (lp_ne_hub _ i iu_pools)).
      destruct (la_Status b); try done; try (rewrite bool_decide_eq_false_2; [done|]; by intros [? _]).
      rewrite bool_decide_eq_false_2; [done|]. intros [_ E]. destruct Hst as (_ & Hl & _).
      by rewrite <-E, LPShareDenom_IsLP in Hl. }
    rewrite (Hz a' Hinv).
    assert (auction_holds a (LPShareDenom i) = 0); [|lia].
    unfold auction_inv in iu_auction. rewrite Ha in iu_auction. unfold auction_holds.
    destruct iu_auction as (_&_&_&_&_&_&_&_&Hst).
    rewrite (bool_decide_eq_false_2 (LPShareDenom i = hub_denom)) by (by apply (lp_ne_hub _ i iu_pools)).
    destruct (la_Status a); try done; try (rewrite bool_decide_eq_false_2; [done|]; by intros [? _]).
    rewrite bool_decide_eq_false_2; [done|]. intros [_ E]. destruct Hst as (_ & Hl & _).
    by rewrite <-E, LPShareDenom_IsLP in Hl.
Qed.

Lemma auction_holds_open a d : la_Status a = AUCTION_STATUS_OPEN →
  auction_holds a d =
    (if bool_decide (hub_denom = d) then Amount (la_ErthForBidders a) + Amount (la_ErthForPool a) else 0) +
    (if bool_decide (la_BidDenom a = d) then la_TotalRaised a else 0).
Proof.
  intros Hs. unfold auction_holds. rewrite Hs. f_equal.
  - by rewrite (bool_decide_ext (d = hub_denom) (hub_denom = d)).
  - rewrite (bool_decide_ext _ (la_BidDenom a = d)); [done|]. split; [by intros [_ ->]|by intros ->].
Qed.

Lemma auction_holds_pending a d : la_Status a = AUCTION_STATUS_PENDING →
  auction_holds a d =
    (if bool_decide (hub_denom = d) then Amount (la_ErthForBidders a) + Amount (la_ErthForPool a) else 0).
Proof.
  intros Hs. unfold auction_holds. rewrite Hs, (bool_decide_eq_false_2 (_ ∧ _)) by (by intros [? _]).
  rewrite (bool_decide_ext (d = hub_denom) (hub_denom = d)) by done. lia.
Qed.

Lemma auction_holds_settled a d : la_Status a = AUCTION_STATUS_SETTLED →
  auction_holds a d = (if bool_decide (hub_denom = d) then Amount (la_ErthForBidders a) - la_Claimed a else 0).
Proof. intros Hs. unfold auction_holds. rewrite Hs. by rewrite (bool_decide_ext (d = hub_denom) (hub_denom = d)). Qed.

Lemma getAuction_ok w a w' : getAuction w = Ok (a, w') ↔ k_LiquidityAuction (w_dex w) = Some a ∧ w' = w.
Proof. unfold getAuction. destruct (k_LiquidityAuction (w_dex w)); intuition congruence. Qed.

Lemma StartLiquidityAuction_spec authority msg w t w' :
  dex_inv w → StartLiquidityAuction authority msg w = Ok (t, w') →
  dex_inv w' ∧ StringToBytes (sa_Authority msg) = Ok authority ∧ 0 < sa_DurationSeconds msg ∧
  ∃ a, k_LiquidityAuction (w_dex w) = Some a ∧ la_Status a = AUCTION_STATUS_PENDING ∧
    w' = upd_dex (set_k_LiquidityAuction (λ _, Some (la_set_window AUCTION_STATUS_OPEN (sa_BidDenom msg) t 0 a))) w ∧
    t = wrap_i64 (unix w + sa_DurationSeconds msg).
Proof.
  intros Hi Hr. apply dex_inv_upto in Hi. unfold StartLiquidityAuction in Hr.
  apply bind_ok in Hr as (sg & w1 & [Hsg ->]%lift_ok & Hr).
  apply bind_ok in Hr as ([] & w1 & [Hau ->]%refuse_if_ok & Hr).
  rewrite negb_false_iff, bool_decide_eq_true in Hau. subst sg.
  apply bind_ok in Hr as ([] & w1 & [Hdur ->]%refuse_if_ok & Hr).
  apply bind_ok in Hr as ([] & w1 & [Hden ->]%refuse_if_ok & Hr).
  apply bind_ok in Hr as ([] & w1 & [_ ->]%lift_ok & Hr).
  apply bind_ok in Hr as (hub & w1 & [Hhub ->]%lift_ok & Hr).
  rewrite host_bond_denom in Hhub. injection Hhub as <-.
  apply bind_ok in Hr as ([] & w1 & [Hnh ->]%refuse_if_ok & Hr).
  apply bind_ok in Hr as ([] & w1 & [Hlp ->]%refuse_if_ok & Hr).
  apply bind_ok in Hr as (has & w1 & [-> ->]%get_dex_ok & Hr).
  apply bind_ok in Hr as ([] & w1 & [Hhas ->]%refuse_if_ok & Hr).
  apply bind_ok in Hr as (a & w1 & [Ha ->]%getAuction_ok & Hr).
  apply bind_ok in Hr as ([] & w1 & [Hst ->]%refuse_if_ok & Hr).
  rewrite negb_false_iff, bool_decide_eq_true in Hst.
  apply bind_ok in Hr as (tm & w1 & [-> ->]%now_ok & Hr). cbv zeta in Hr.
  apply bind_ok in Hr as ([] & w1 & ->%set_dex_ok & [= -> ->]%ret_ok).
  apply bool_decide_eq_false in Hnh, Hhas. apply negb_false_iff, ValidateDenom_nonempty in Hden.
  apply eq_None_not_Some in Hhas.
  set (a' := la_set_window AUCTION_STATUS_OPEN (sa_BidDenom msg) _ 0 a) in *.
  pose proof (iu_auction _ _ Hi) as Hav. unfold auction_inv in Hav. rewrite Ha, Hst in Hav.
  destruct Hav as (E1 & E2 & E3 & E4 & E5 & E6 & E7 & E8 & E9 & E10). 
  split; [|split; [done|split; [lia|by exists a]]].
  pose proof (inv_upto_auction _ _ _ a' (k_AuctionBids (w_dex w)) Hi Ha) as Hi'.
  assert (upd_dex (with_auction a' (k_AuctionBids (w_dex w))) w = upd_dex (set_k_LiquidityAuction (λ _, Some a')) w)
    as Hw by (unfold upd_dex; by rewrite with_same_bids).
  rewrite Hw in Hi'. apply dex_inv_upto. eapply inv_upto_weaken; [apply Hi'|intros d _|intros i _]; cbv beta.
  - unfold auction_inv, with_auction. cbn. rewrite E9 in *. split_and!; try done; lia.
  - rewrite (auction_holds_pending a), (auction_holds_open a') by done. cbn. repeat case_bool_decide; lia.
  - rewrite (auction_holds_pending a), (auction_holds_open a') by done. cbn. repeat case_bool_decide; lia.
Qed.

Lemma BidLiquidityAuction_spec msg w c w' :
  dex_inv w → (∀ a, StringToBytes (bd_Bidder msg) = Ok a → a ≠ dex_addr) →
  BidLiquidityAuction msg w = Ok (c, w') →
  dex_inv w' ∧ ∃ bidder a bid, StringToBytes (bd_Bidder msg) = Ok bidder ∧
    k_LiquidityAuction (w_dex w) = Some a ∧ la_Status a = AUCTION_STATUS_OPEN ∧ unix w < la_EndTime a ∧
    Denom (bd_Amount msg) = la_BidDenom a ∧ 0 < Amount (bd_Amount msg) ∧
    la_TotalRaised a + Amount (bd_Amount msg) ≤ MaxPoolAmount ∧
    w_dex w' = with_auction (la_set_window AUCTION_STATUS_OPEN (la_BidDenom a) (la_EndTime a)
                 (la_TotalRaised a + Amount (bd_Amount msg)) a)
               (<[bidder := bid]> (k_AuctionBids (w_dex w))) (w_dex w) ∧
    ab_Amount bid = Amount c ∧ ab_Claimed bid = false ∧
    Amount c = Amount (bd_Amount msg) +
      (match k_AuctionBids (w_dex w) !! bidder with Some b => ab_Amount b | None => 0 end) ∧
    moved w w' (λ a d, at_ dex_addr (AmountOf [bd_Amount msg]) a d - at_ bidder (AmountOf [bd_Amount msg]) a d).
Proof.
  intros Hi Hne Hr. apply dex_inv_upto in Hi. unfold BidLiquidityAuction in Hr.
  apply bind_ok in Hr as (bidder & w1 & [Hb ->]%lift_ok & Hr). specialize (Hne _ Hb).
  apply bind_ok in Hr as (a & w1 & [Ha ->]%getAuction_ok & Hr).
  apply bind_ok in Hr as ([] & w1 & [Hst ->]%refuse_if_ok & Hr).
  rewrite negb_false_iff, bool_decide_eq_true in Hst. rewrite Hst in Hr.
  apply bind_ok in Hr as (t & w1 & [-> ->]%now_ok & Hr).
  apply bind_ok in Hr as ([] & w1 & [Hend ->]%refuse_if_ok & Hr).
  apply bind_ok in Hr as ([] & w1 & [Hamt ->]%refuse_if_ok & Hr).
  apply bind_ok in Hr as ([] & w1 & [Hd ->]%refuse_if_ok & Hr).
  rewrite negb_false_iff, bool_decide_eq_true in Hd.
  apply bind_ok in Hr as ([] & w1 & [_ ->]%refuse_if_ok & Hr).
  apply bind_ok in Hr as (raised & w1 & [[-> _]%IntAdd_ok ->]%lift_ok & Hr).
  apply bind_ok in Hr as ([] & w1 & [Hcap ->]%refuse_if_ok & Hr).
  apply bind_ok in Hr as (cs & w1 & [[Hcs _]%NewCoins_spec ->]%lift_ok & Hr).
  apply bind_ok in Hr as ([] & w1 & Hm & Hr). apply bank_ok in Hm as (b & Hm & ->). apply SendA2M_spec in Hm.
  apply bind_ok in Hr as (found & w1 & [-> ->]%get_dex_ok & Hr).
  apply bind_ok in Hr as (bid0 & w1 & Hbid & Hr).
  pose proof (iu_auction _ _ Hi) as Hav. unfold auction_inv in Hav. rewrite Ha, Hst in Hav.
  destruct Hav as (E1 & E2 & E3 & E4 & E5 & E6 & E7 & E8 & E9 & E10 & E11 & E12 & E13 & E14).
  assert (w1 = set_w_bank b w ∧ ab_Claimed bid0 = false ∧ 0 ≤ ab_Amount bid0 ∧
    ab_Amount bid0 = (match k_AuctionBids (w_dex w) !! bidder with Some b => ab_Amount b | None => 0 end))
    as (-> & Hcl & Hb0 & Hbm).
  { clear Hr. cbn in Hbid. destruct (k_AuctionBids (w_dex w) !! bidder) as [b0|] eqn:Hl.
    - apply ret_ok in Hbid as [= -> ->]. specialize (E8 _ _ Hl). specialize (E14 _ _ Hl). split_and!; done || lia.
    - by apply bind_ok in Hbid as (canon & w2 & [_ ->]%lift_ok & [= -> ->]%ret_ok). }
  apply bind_ok in Hr as (amt & w1 & [[-> _]%IntAdd_ok ->]%lift_ok & Hr).
  apply bind_ok in Hr as ([] & w1 & ->%set_dex_ok & Hr).
  apply bind_ok in Hr as ([] & w1 & ->%set_dex_ok & [[-> _]%NewCoin_spec ->]%lift_ok).
  set (bid := {| ab_Bidder := ab_Bidder bid0; ab_Amount := _; ab_Claimed := ab_Claimed bid0 |}) in *.
  set (a' := la_set_window AUCTION_STATUS_OPEN (la_BidDenom a) (la_EndTime a) _ a).
  set (bids := <[bidder := bid]> (k_AuctionBids (w_dex w))).
  apply orb_false_iff in Hamt as [_ Hpos]. unfold WithinPoolCap in Hcap.
  split.
  - pose proof (inv_upto_auction _ _ a a' bids (inv_upto_bank _ _ _ _ _ _ Hi Hm) Ha) as Hi'.
    apply dex_inv_upto. eapply inv_upto_weaken; [apply Hi'|intros d _|intros i _]; cbv beta.
    + unfold auction_inv, with_auction, bids. cbn. 
      rewrite map_sum_insert, E7.
      assert (∀ addr b, <[bidder:=bid]> (k_AuctionBids (w_dex w)) !! addr = Some b → 0 < ab_Amount b) as F1.
      { intros ad b' [[<- <-]|[_ Hl]]%lookup_insert_Some; [cbn; lia|by eapply E8]. }
      assert (∀ addr b, <[bidder:=bid]> (k_AuctionBids (w_dex w)) !! addr = Some b → ab_Claimed b = false) as F2.
      { intros ad b' [[<- <-]|[_ Hl]]%lookup_insert_Some; [done|by eapply E14]. }
      split_and!; try done; try lia. destruct (_ !! bidder); cbn; lia.
    + rewrite bd_some, Hcs, AmountOf_coin, Hd, (auction_holds_open a), (auction_holds_open a') by done.
      rewrite (bool_decide_eq_true_2 (Some _ = _)), (bool_decide_eq_false_2 (dex_addr = _)) by done. cbn.
      repeat case_bool_decide; lia.
    + rewrite bd_some, Hcs, AmountOf_coin, Hd, (auction_holds_open a), (auction_holds_open a') by done.
      rewrite (bool_decide_eq_true_2 (Some _ = _)), (bool_decide_eq_false_2 (dex_addr = _)) by done. cbn.
      repeat case_bool_decide; lia.
  - exists bidder, a, bid. split_and!; try done; cbn; try lia.
    intros a1 d. cbn. destruct Hm as [Hbal _]. rewrite Hbal, !bd_some, Hcs. fold dex_addr. unfold at_. lia.
Qed.

(** *** Claims *)
Lemma claimableFor_ok a bid r :
  claimableFor a bid = Ok r → la_Status a = AUCTION_STATUS_SETTLED → ab_Claimed bid = false → 0 < la_TotalRaised a →
  0 < r → r = Z.min (bid_share a bid) (Amount (la_ErthForBidders a) - la_Claimed a).
Proof.
  unfold claimableFor, bid_share. intros Hr Hs Hc Hp Hr0. rewrite bool_decide_eq_true_2, Hc in Hr by done. cbn in Hr.
  replace (0 <? la_TotalRaised a) with true in Hr by lia. cbn in Hr.
  destruct (mulDiv _ _ _) as [x|e|] eqn:Hm; [|injection Hr as <-; lia|done].
  apply mulDiv_ok in Hm as (_ & _ & _ & _ & ->). host_inv. case_match; lia.
Qed.

(** The claims taken and one more stay within the earmark. *)
Lemma claim_fits a bids addr bid :
  0 ≤ Amount (la_ErthForBidders a) → 0 < la_TotalRaised a →
  la_TotalRaised a = map_sum (λ _ b, ab_Amount b) bids → (∀ k b, bids !! k = Some b → 0 < ab_Amount b) →
  bids !! addr = Some bid → ab_Claimed bid = false →
  claimed_shares a bids + bid_share a bid ≤ Amount (la_ErthForBidders a).
Proof.
  intros He Hp Hs Hb Hl Hc.
  pose proof (map_sum_floor (Amount (la_ErthForBidders a)) (la_TotalRaised a) (λ _ b, ab_Amount b) bids Hp) as Hf.
  rewrite <-Hs, Z.div_mul in Hf by lia.
  pose proof (map_sum_delete (λ _ b, if ab_Claimed b then bid_share a b else 0) _ _ _ Hl) as D1.
  pose proof (map_sum_delete (λ _ b, bid_share a b) _ _ _ Hl) as D2. cbv beta in *. rewrite Hc in D1.
  assert (map_sum (λ _ b, if ab_Claimed b then bid_share a b else 0) (delete addr bids) ≤
          map_sum (λ _ b, bid_share a b) (delete addr bids)) as Hle.
  { apply map_sum_le. intros k b [_ Hk]%lookup_delete_Some. specialize (Hb _ _ Hk).
    assert (0 ≤ bid_share a b) by (apply Z.div_pos; [nia|lia]). destruct (ab_Claimed b); lia. }
  unfold claimed_shares, bid_share in *. lia.
Qed.

Lemma ClaimLiquidityAuction_spec msg w c w' :
  dex_inv w → ClaimLiquidityAuction msg w = Ok (c, w') →
  dex_inv w' ∧ ∃ bidder a bid, StringToBytes (cl_Bidder msg) = Ok bidder ∧
    k_LiquidityAuction (w_dex w) = Some a ∧ la_Status a = AUCTION_STATUS_SETTLED ∧
    k_AuctionBids (w_dex w) !! bidder = Some bid ∧ ab_Claimed bid = false ∧
    c = mkCoin hub_denom (bid_share a bid) ∧ 0 < Amount c ∧
    w_dex w' = with_auction (la_set_claimed (la_Claimed a + bid_share a bid) a)
      (<[bidder := {| ab_Bidder := ab_Bidder bid; ab_Amount := ab_Amount bid; ab_Claimed := true |}]> (k_AuctionBids (w_dex w)))
      (w_dex w) ∧
    moved w w' (λ a d, at_ bidder (AmountOf [c]) a d - at_ dex_addr (AmountOf [c]) a d).
Proof.
  intros Hi Hr. apply dex_inv_upto in Hi. unfold ClaimLiquidityAuction in Hr.
  apply bind_ok in Hr as (bidder & w1 & [Hb ->]%lift_ok & Hr).
  apply bind_ok in Hr as (a & w1 & [Ha ->]%getAuction_ok & Hr).
  apply bind_ok in Hr as ([] & w1 & [Hst ->]%refuse_if_ok & Hr).
  rewrite negb_false_iff, bool_decide_eq_true in Hst.
  apply bind_ok in Hr as (found & w1 & [-> ->]%get_dex_ok & Hr).
  destruct (k_AuctionBids (w_dex w) !! bidder) as [bid|] eqn:Hbid; [|by apply bind_ok in Hr as (? & ? & []%fail_ok & _)].
  apply bind_ok in Hr as (bid' & w1 & [= -> ->]%ret_ok & Hr).
  apply bind_ok in Hr as ([] & w1 & [Hcl ->]%refuse_if_ok & Hr).
  apply bind_ok in Hr as (amt & w1 & [Hamt ->]%lift_ok & Hr).
  apply bind_ok in Hr as ([] & w1 & [Hpos ->]%refuse_if_ok & Hr).
  apply bind_ok in Hr as (pay & w1 & [[-> _]%NewCoin_spec ->]%lift_ok & Hr).
  apply bind_ok in Hr as (cs & w1 & [[Hcs _]%NewCoins_spec ->]%lift_ok & Hr).
  apply bind_ok in Hr as ([] & w1 & Hm & Hr). apply bank_ok in Hm as (b & Hm & ->).
  assert (bidder ≠ dex_addr) as Hne by (intros ->; by apply SendM2A_blocked in Hm).
  apply SendM2A_spec in Hm. fold dex_addr in Hm.
  apply bind_ok in Hr as ([] & w1 & ->%set_dex_ok & Hr).
  apply bind_ok in Hr as (claimed & w1 & [[-> _]%IntAdd_ok ->]%lift_ok & Hr).
  apply bind_ok in Hr as ([] & w1 & ->%set_dex_ok & [= -> ->]%ret_ok).
  pose proof (iu_auction _ _ Hi) as Hav. unfold auction_inv in Hav. rewrite Ha, Hst in Hav.
  destruct Hav as (E1 & E2 & E3 & E4 & E5 & E6 & E7 & E8 & E9 & E10).
  assert (amt = bid_share a bid) as ->.
  { apply claimableFor_ok in Hamt; [|done..|lia]. pose proof (claim_fits _ _ _ _ E3 E9 E7 E8 Hbid Hcl). lia. }
  pose proof (claim_fits _ _ _ _ E3 E9 E7 E8 Hbid Hcl) as Hfit. rewrite E1.
  set (bid1 := {| ab_Bidder := _; ab_Amount := ab_Amount bid; ab_Claimed := true |}) in *.
  split.
  - pose proof (inv_upto_auction _ _ a (la_set_claimed (la_Claimed a + bid_share a bid) a)
      (<[bidder := bid1]> (k_AuctionBids (w_dex w))) (inv_upto_bank _ _ _ _ _ _ Hi Hm) Ha) as Hi'.
    apply dex_inv_upto. eapply inv_upto_weaken; [apply Hi'|intros d _|intros i _]; cbv beta.
    + unfold auction_inv, with_auction. cbn. rewrite Hst, map_sum_insert, Hbid, E7. cbn.
      assert (∀ addr b, <[bidder:=bid1]> (k_AuctionBids (w_dex w)) !! addr = Some b → 0 < ab_Amount b) as F1.
      { intros ad b' [[<- <-]|[_ Hl]]%lookup_insert_Some; [cbn; by eapply E8|by eapply E8]. }
      unfold claimed_shares in *. rewrite map_sum_insert, Hbid. cbn. rewrite Hcl. rewrite <-E7.
      split_and!; try done; try lia. unfold bid_share in *. cbn. lia.
    + rewrite !bd_some, Hcs, AmountOf_single, E1, (bool_decide_eq_true_2 (dex_addr = dex_addr)),
        (bool_decide_eq_false_2 (dex_addr = bidder)) by congruence.
      rewrite (auction_holds_settled a), auction_holds_settled by done. cbn. repeat case_bool_decide; lia.
    + rewrite !bd_some, Hcs, AmountOf_single, E1, (bool_decide_eq_true_2 (dex_addr = dex_addr)),
        (bool_decide_eq_false_2 (dex_addr = bidder)) by congruence.
      rewrite (auction_holds_settled a), auction_holds_settled by done. cbn. repeat case_bool_decide; lia.
  - exists bidder, a, bid. split_and!; try done; cbn; try lia.
    intros a1 d. cbn. destruct Hm as [Hbal _]. rewrite Hbal, !bd_some, Hcs, E1. unfold at_. lia.
Qed.

(** *** Settlement *)

(** The schedule settlement registers. *)
Definition settled_pol (id shares t : Z) : PolBurn :=
  {| pb_PoolId := id; pb_TotalShares := shares; pb_SharesRemaining := shares; pb_StartTime := t;
     pb_DurationSeconds := PolBurnSeconds; pb_BurnToken := false |}.

Lemma settle_run a w w' :
  0 < la_TotalRaised a → settleAuction a w = Ok ((), w') →
  let id := k_PoolSeq (w_dex w) in
  let raised := mkCoin (la_BidDenom a) (la_TotalRaised a) in
  let shares := Z.sqrt (Amount (la_ErthForPool a) * la_TotalRaised a) in
  0 < shares ∧ Amount (la_ErthForPool a) ≤ MaxPoolAmount ∧ la_TotalRaised a ≤ MaxPoolAmount ∧
  moved w w' (at_ dex_addr (AmountOf [mkCoin (LPShareDenom id) shares])) ∧
  (∀ d, GetSupply (w_bank w') d = GetSupply (w_bank w) d + AmountOf [mkCoin (LPShareDenom id) shares] d) ∧
  w_nanos w' = w_nanos w ∧
  w_dex w' = set_k_LiquidityAuction (λ _, Some (la_set_settled id a))
    (set_k_PolBurns <[id := settled_pol id shares (unix w)]> (add_pool (la_ErthForPool a) raised (dayOf (unix w)) (w_dex w))).
Proof.
  intros Hpos Hr. unfold settleAuction in Hr. replace (0 <? la_TotalRaised a) with true in Hr by lia. cbn [negb] in Hr.
  apply bind_ok in Hr as (rc & w1 & [[-> _]%NewCoin_spec ->]%lift_ok & Hr).
  apply bind_ok in Hr as (pid & w1 & Hseq & Hr). unfold PoolSeqNext in Hseq.
  apply bind_ok in Hseq as (n & w2 & [-> ->]%get_dex_ok & Hseq).
  apply bind_ok in Hseq as ([] & w2 & ->%set_dex_ok & [= -> ->]%ret_ok).
  apply bind_ok in Hr as (sa & w2 & [[_ ->]%initialShares_ok ->]%lift_ok & Hr).
  apply bind_ok in Hr as ([] & w2 & [Hsh ->]%refuse_if_ok & Hr).
  apply bind_ok in Hr as (shc & w2 & [[-> _]%NewCoin_spec ->]%lift_ok & Hr).
  apply bind_ok in Hr as (cs & w2 & [[Hcs _]%NewCoins_spec ->]%lift_ok & Hr).
  apply bind_ok in Hr as ([] & w2 & Hm & Hr). apply bank_ok in Hm as (b & Hm & ->). apply MintCoins_spec in Hm as [Hb Hs].
  fold dex_addr in *. cbn [w_bank upd_dex] in Hb, Hs. cbn in Hcs.
  apply bind_ok in Hr as (t & w3 & [-> ->]%now_ok & Hr).
  apply bind_ok in Hr as ([] & w3 & (-> & Hc1 & Hc2 & _)%SetPool_ok & Hr). cbn in Hc1, Hc2, Hsh.
  apply bind_ok in Hr as ([] & w3 & ->%set_dex_ok & Hr).
  apply bind_ok in Hr as ([] & w3 & Hinit & Hr). unfold initPoolLpIndex in Hinit.
  apply bind_ok in Hinit as (idx & w4 & [-> ->]%get_dex_ok & ->%set_dex_ok).
  apply bind_ok in Hr as ([] & w3 & ->%set_dex_ok & ->%set_dex_ok). cbv zeta.
  split; [lia|]. do 2 (split; [done|]). split; [|split; [|done]].
  - intros a' d. cbn. rewrite Hb, Hcs, !bd_some, (bool_decide_eq_false_2 (None = _)) by done. unfold at_. lia.
  - intros d. cbn [w_bank upd_dex set_w_bank]. rewrite Hs, Hcs, bd_none, bool_decide_eq_true_2 by done. cbn. lia.
Qed.

Lemma claimed_shares_zero a bids :
  (∀ k b, bids !! k = Some b → ab_Claimed b = false) → claimed_shares a bids = 0.
Proof.
  intros Hb. unfold claimed_shares. rewrite (map_sum_ext _ (λ _ _, 0)); [apply map_sum_zero|].
  intros k b Hk. by rewrite (Hb _ _ Hk).
Qed.

Lemma bids_empty bids :
  (∀ k b, bids !! k = Some b → 0 < ab_Amount b) → map_sum (λ _ b, ab_Amount b) bids ≤ 0 → bids = ∅.
Proof.
  intros Hb Hz. apply map_empty. intros k. destruct (bids !! k) as [b|] eqn:Hk; [|done].
  pose proof (map_sum_elem_le (λ _ b, ab_Amount b) bids k b) as Hle. specialize (Hb k b Hk) as Hp.
  assert (ab_Amount b ≤ map_sum (λ _ b, ab_Amount b) bids); [|lia].
  apply Hle; [|done]. intros j c Hj. apply Z.lt_le_incl. by eapply Hb.
Qed.

(** Settlement's books: what the auction stops holding is what the pool starts with. *)
Lemma settle_delta a id shares d :
  la_Status a = AUCTION_STATUS_OPEN → Denom (la_ErthForPool a) = hub_denom → la_Claimed a = 0 →
  auction_holds a d - auction_holds (la_set_settled id a) d + AmountOf [mkCoin (LPShareDenom id) shares] d
  - AmountOf [la_ErthForPool a; mkCoin (la_BidDenom a) (la_TotalRaised a)] d
  - (if bool_decide (LPShareDenom id = d) then shares else 0) + 0 = 0.
Proof.
  intros Hs He Hc. rewrite auction_holds_open, auction_holds_settled, (AmountOf_cons (la_ErthForPool a)), !AmountOf_single, He by done.
  cbn. repeat case_bool_decide; lia.
Qed.

Lemma settleAuction_spec a w w' :
  dex_inv w → k_LiquidityAuction (w_dex w) = Some a → la_Status a = AUCTION_STATUS_OPEN →
  settleAuction a w = Ok ((), w') → dex_inv w' ∧ w_nanos w' = w_nanos w.
Proof.
  intros Hi Ha Hst Hr. apply dex_inv_upto in Hi.
  pose proof (iu_auction _ _ Hi) as Hav. unfold auction_inv in Hav. rewrite Ha, Hst in Hav.
  destruct Hav as (E1 & E2 & E3 & E4 & E5 & E6 & E7 & E8 & E9 & E10 & E11 & E12 & E13 & E14).
  destruct (Z.ltb_spec 0 (la_TotalRaised a)) as [Hpos|Hz].
  - apply settle_run in Hr as (Hsh & Hc1 & Hc2 & Hm & _ & Hn & Hd); [|done]. split; [|done].
    set (id := k_PoolSeq (w_dex w)) in *. set (raised := mkCoin (la_BidDenom a) (la_TotalRaised a)) in *.
    set (shares := Z.sqrt _) in *.
    (* the auction settled, the coins minted, the pool added, the schedule registered *)
    set (w1 := upd_dex (with_auction (la_set_settled id a) (k_AuctionBids (w_dex w))) w).
    assert (inv_upto (λ d, auction_holds a d - auction_holds (la_set_settled id a) d) w1) as Hi1.
    { eapply inv_upto_weaken; [apply (inv_upto_auction _ _ _ (la_set_settled id a) _ Hi Ha)|intros; cbv beta; lia..].
      unfold auction_inv. cbn. rewrite claimed_shares_zero by done. split_and!; done || lia. }
    set (w2 := {| w_nanos := w_nanos w; w_bank := w_bank w'; w_shielded := w_shielded w; w_earth := w_earth w; w_dex := w_dex w1 |}).
    pose proof (inv_upto_moved _ w1 w2 _ Hi1 eq_refl Hm) as Hi2.
    set (w3 := upd_dex (add_pool (la_ErthForPool a) raised (dayOf (unix w))) w2).
    assert (new_pool_ok (w_dex w2) (la_ErthForPool a) raised) as Hnp by (unfold new_pool_ok; cbn; split_and!; done || lia).
    assert (auction_inv (w_dex w3)) as Ha3.
    { unfold auction_inv. cbn. rewrite claimed_shares_zero by done. split_and!; done || lia. }
    pose proof (inv_upto_add_pool _ w2 w3 _ _ _ Hi2 Hnp eq_refl eq_refl Ha3) as Hi3.
    assert (0 ≤ id) as Hid by (apply (iu_pools _ _ Hi)).
    assert (k_PolBurns (w_dex w) !! id = None) as Hnopol.
    { destruct (k_PolBurns _ !! id) as [b|] eqn:Hb; [|done]. apply (iu_pol _ _ Hi) in Hb as (_ & _ & p & Hp).
      rewrite (fresh_id _ (iu_pools _ _ Hi) : k_Pool (w_dex w) !! id = None) in Hp. discriminate Hp. }
    set (m := <[id := settled_pol id shares (unix w)]> (k_PolBurns (w_dex w))).
    assert (∀ i, i ≠ id → m !! i = k_PolBurns (w_dex w3) !! i) as Hm1 by (intros i Hne; by apply lookup_insert_ne).
    assert (pol_inv (set_k_PolBurns (λ _, m) (w_dex w3))) as Hm2.
    { intros i b. cbn. unfold m. intros [[<- <-]|[Hne Hb]]%lookup_insert_Some.
      * cbn. fold id. rewrite lookup_insert_eq. split_and!; [done|lia|lia|by eexists].
      * apply (iu_pol _ _ Hi) in Hb as (? & ? & ?). do 2 (split; [done|]). by apply is_Some_insert_pool. }
    pose proof (pol_schedules _ w3 id m Hi3 Hid Hm1 Hm2) as Hi4.
    assert (w_dex (upd_dex (set_k_PolBurns (λ _, m)) w3) = w_dex w') as Hd' by (by rewrite Hd).
    assert (moved (upd_dex (set_k_PolBurns (λ _, m)) w3) w' (λ _ _, 0)) as Hm5 by (by apply moved_refl).
    pose proof (inv_upto_moved _ _ w' _ Hi4 (eq_sym Hd') Hm5) as Hi5.
    assert (pol_remaining (set_k_PolBurns (λ _, m) (w_dex w3)) id - pol_remaining (w_dex w3) id = shares) as Hrem.
    { unfold pol_remaining. cbn. unfold m. rewrite lookup_insert_eq, Hnopol. cbn. lia. }
    apply dex_inv_upto. eapply inv_upto_weaken; [exact Hi5|intros d Hl|intros i Hi0]; cbv beta.
    + rewrite at_eq, Hrem. exact (settle_delta a id shares d Hst E2 E13).
    + rewrite at_eq, Hrem. apply Z.eq_le_incl, eq_sym. exact (settle_delta a id shares (LPShareDenom i) Hst E2 E13).
  - unfold settleAuction in Hr. replace (0 <? la_TotalRaised a) with false in Hr by lia. cbn [negb] in Hr.
    apply set_dex_ok in Hr as ->. split; [|done]. set (a' := la_set_window _ _ _ _ a).
    assert (k_AuctionBids (w_dex w) = ∅) as Hemp by (apply bids_empty; [done|lia]).
    pose proof (inv_upto_auction _ _ _ a' (k_AuctionBids (w_dex w)) Hi Ha) as Hi'.
    assert (upd_dex (with_auction a' (k_AuctionBids (w_dex w))) w = upd_dex (set_k_LiquidityAuction (λ _, Some a')) w)
      as Hw by (unfold upd_dex; by rewrite with_same_bids).
    rewrite Hw in Hi'. apply dex_inv_upto. eapply inv_upto_weaken; [apply Hi'|intros d _|intros i _]; cbv beta.
    + unfold auction_inv, with_auction. cbn. split_and!; done || lia.
    + rewrite (auction_holds_pending a'), (auction_holds_open a) by done. cbn. repeat case_bool_decide; lia.
    + rewrite (auction_holds_pending a'), (auction_holds_open a) by done. cbn. repeat case_bool_decide; lia.
Qed.

Lemma SettleDueAuction_ok w :
  dex_inv w → ∃ w', SettleDueAuction w = Ok ((), w') ∧ dex_inv w' ∧ w_nanos w' = w_nanos w.
Proof.
  intros Hi. unfold SettleDueAuction. run_fwd.
  destruct (k_LiquidityAuction (w_dex w)) as [a|] eqn:Ha; [|by exists w].
  case_bool_decide as Hst; cbn [negb]; [|by exists w]. run_fwd. destruct (unix w <? la_EndTime a); [by exists w|].
  destruct (Cached_total (settleAuction a) w) as (r & w1 & Hc).
  exists w1. split; [by erewrite run_bind by exact Hc|].
  apply (Cached_inv (λ w1, dex_inv w1 ∧ w_nanos w1 = w_nanos w)) in Hc; [done|..|done].
  intros [] t Hr. by eapply settleAuction_spec.
Qed.
End auction_lemmas.

(** ** Properties *)
Section auction_properties.
Context `{HostLaws, !ShieldedKeeper, !ShieldedLaws}.
Implicit Types w : World.

(** A bid is counted once and in full: it is taken only while the window is open and in the auction's
    denom, it moves exactly its amount to the module, and both the bidder's standing bid and the
    raise grow by exactly it; nothing else of the module's store changes. *)
Theorem bid_counted_in_full msg w standing w' :
  dex_inv w → StringToBytes (bd_Bidder msg) ≠ Ok dex_addr → BidLiquidityAuction msg w = Ok (standing, w') →
  ∃ bidder a a' bid, StringToBytes (bd_Bidder msg) = Ok bidder ∧
    k_LiquidityAuction (w_dex w) = Some a ∧ la_Status a = AUCTION_STATUS_OPEN ∧ unix w < la_EndTime a ∧
    Denom (bd_Amount msg) = la_BidDenom a ∧ 0 < Amount (bd_Amount msg) ∧
    w_dex w' = with_auction a' (<[bidder := bid]> (k_AuctionBids (w_dex w))) (w_dex w) ∧
    a' = la_set_window AUCTION_STATUS_OPEN (la_BidDenom a) (la_EndTime a)
           (la_TotalRaised a + Amount (bd_Amount msg)) a ∧
    la_TotalRaised a' ≤ MaxPoolAmount ∧
    ab_Amount bid = Amount (bd_Amount msg) +
      match k_AuctionBids (w_dex w) !! bidder with Some b => ab_Amount b | None => 0 end ∧
    Amount standing = ab_Amount bid ∧ ab_Claimed bid = false ∧
    map_sum (λ _ b, ab_Amount b) (k_AuctionBids (w_dex w')) = la_TotalRaised a' ∧
    (∀ d, GetBalance (w_bank w') bidder d = GetBalance (w_bank w) bidder d - AmountOf [bd_Amount msg] d) ∧
    (∀ d, GetBalance (w_bank w') dex_addr d = GetBalance (w_bank w) dex_addr d + AmountOf [bd_Amount msg] d).
Proof.
  intros Hi Hne Hr. apply BidLiquidityAuction_spec in Hr as
    (Hi' & bidder & a & bid & Hb & Ha & Hst & Hend & Hd & Hp & Hcap & Hw & Hs1 & Hs2 & Hs3 & Hm); [|done|].
  2:{ intros x Hx ->. by apply Hne. }
  assert (bidder ≠ dex_addr) by congruence.
  set (a' := la_set_window _ _ _ _ a) in *. exists bidder, a, a', bid.
  pose proof (di_auction _ Hi') as Hav. unfold auction_inv in Hav. rewrite Hw in Hav. cbn in Hav.
  rewrite Hw. split_and!; try done; try lia; try (symmetry; tauto).
  - intros d. rewrite Hm, at_ne, at_eq by done. lia.
  - intros d. rewrite Hm, at_eq, at_ne by (by apply not_eq_sym). lia.
Qed.

(** C29: A claim pays a bidder once, its pro-rata floor of the earmark, and the claims never exceed the
    earmark: the bid was unclaimed and is marked, the bidder receives exactly
    floor(earmark * bid / raised) of the hub asset from the module, and what was claimed so far stays
    at most the earmark, so every later bidder can still be paid. *)
Theorem claim_pays_pro_rata_once msg w c w' :
  dex_inv w → ClaimLiquidityAuction msg w = Ok (c, w') →
  ∃ bidder a a' bid, StringToBytes (cl_Bidder msg) = Ok bidder ∧
    k_LiquidityAuction (w_dex w) = Some a ∧ la_Status a = AUCTION_STATUS_SETTLED ∧
    k_AuctionBids (w_dex w) !! bidder = Some bid ∧ ab_Claimed bid = false ∧
    c = mkCoin hub_denom (Amount (la_ErthForBidders a) * ab_Amount bid / la_TotalRaised a) ∧ 0 < Amount c ∧
    k_LiquidityAuction (w_dex w') = Some a' ∧ la_Claimed a' = la_Claimed a + Amount c ∧
    la_Claimed a' ≤ Amount (la_ErthForBidders a') ∧
    (∃ bid', k_AuctionBids (w_dex w') !! bidder = Some bid' ∧ ab_Claimed bid' = true ∧ ab_Amount bid' = ab_Amount bid) ∧
    (∀ r, ClaimLiquidityAuction msg w' ≠ Ok r) ∧
    (∀ d, bidder ≠ dex_addr → GetBalance (w_bank w') bidder d = GetBalance (w_bank w) bidder d + AmountOf [c] d) ∧
    (∀ x d, x ≠ bidder → x ≠ dex_addr → GetBalance (w_bank w') x d = GetBalance (w_bank w) x d).
Proof.
  intros Hi Hr. apply ClaimLiquidityAuction_spec in Hr as
    (Hi' & bidder & a & bid & Hb & Ha & Hst & Hbid & Hcl & Hc & Hp & Hw & Hm); [|done].
  set (a' := la_set_claimed _ a) in *. exists bidder, a, a', bid.
  pose proof (di_auction _ Hi') as Hav. unfold auction_inv in Hav. rewrite Hw in Hav. cbn in Hav.
  assert (Amount c = bid_share a bid) as Hcs by (by rewrite Hc).
  rewrite Hw. split_and!; try done; try (cbn; lia).
  - eexists. cbn. by rewrite lookup_insert_eq.
  - intros [c2 w2] Hr2. apply ClaimLiquidityAuction_spec in Hr2 as
      (_ & b2 & a2 & bid2 & Hb2 & _ & _ & Hbid2 & Hcl2 & _); [|done].
    assert (b2 = bidder) as -> by congruence. rewrite Hw in Hbid2. cbn in Hbid2.
    rewrite lookup_insert_eq in Hbid2. injection Hbid2 as <-. done.
  - intros d Hn. rewrite Hm, at_eq, at_ne by done. lia.
  - intros x d Hn1 Hn2. rewrite Hm, !at_ne by done. lia.
Qed.

(** Settlement seeds the pool with the auction's money: with a raise, settling creates the pool of
    the earmarked ERTH and the raised coins, mints floor(sqrt(erth * raised)) shares to the module,
    registers their whole retirement, and leaves the auction settled with nothing claimed; every
    other pool, bid, account and the hub supply stay as they were, and the module still holds exactly
    what it owes. *)
Theorem settlement_seeds_pool a w w' :
  dex_inv w → k_LiquidityAuction (w_dex w) = Some a → la_Status a = AUCTION_STATUS_OPEN → 0 < la_TotalRaised a →
  settleAuction a w = Ok ((), w') →
  let id := k_PoolSeq (w_dex w) in
  let raised := mkCoin (la_BidDenom a) (la_TotalRaised a) in
  let shares := Z.sqrt (Amount (la_ErthForPool a) * la_TotalRaised a) in
  k_Pool (w_dex w) !! id = None ∧ 0 < shares ∧
  k_Pool (w_dex w') = <[id := new_pool id (la_ErthForPool a) raised (dayOf (unix w))]> (k_Pool (w_dex w)) ∧
  k_PoolByToken (w_dex w') !! la_BidDenom a = Some id ∧
  k_PolBurns (w_dex w') = <[id := {| pb_PoolId := id; pb_TotalShares := shares; pb_SharesRemaining := shares;
    pb_StartTime := unix w; pb_DurationSeconds := PolBurnSeconds; pb_BurnToken := false |}]> (k_PolBurns (w_dex w)) ∧
  k_LiquidityAuction (w_dex w') = Some (la_set_settled id a) ∧ la_Claimed a = 0 ∧
  k_AuctionBids (w_dex w') = k_AuctionBids (w_dex w) ∧
  GetSupply (w_bank w') (LPShareDenom id) = GetSupply (w_bank w) (LPShareDenom id) + shares ∧
  GetBalance (w_bank w') dex_addr (LPShareDenom id) = GetBalance (w_bank w) dex_addr (LPShareDenom id) + shares ∧
  (∀ x d, (x, d) ≠ (dex_addr, LPShareDenom id) → GetBalance (w_bank w') x d = GetBalance (w_bank w) x d) ∧
  (∀ d, IsLPShareDenom d = false → GetBalance (w_bank w') dex_addr d = owed (w_dex w') d).
Proof.
  intros Hi Ha Hst Hpos Hr id raised shares. pose proof (settleAuction_spec _ _ _ Hi Ha Hst Hr) as [Hi' _].
  apply settle_run in Hr as (Hsh & _ & _ & Hm & Hs & _ & Hd); [|done]. fold id raised shares in Hsh, Hm, Hs, Hd.
  pose proof (di_auction _ Hi) as Hav. unfold auction_inv in Hav. rewrite Ha, Hst in Hav.
  rewrite Hd. split; [apply fresh_id, Hi|]. split; [done|]. split; [done|].
  split; [unfold add_pool; cbn; by rewrite lookup_insert_eq|]. do 2 (split; [done|]).
  split; [tauto|]. split; [done|]. split; [|split; [|split]].
  - by rewrite Hs, AmountOf_single, bool_decide_eq_true_2.
  - by rewrite Hm, at_eq, AmountOf_single, bool_decide_eq_true_2.
  - intros x d Hne. rewrite Hm. unfold at_. rewrite AmountOf_single. repeat case_bool_decide; subst; done || lia.
  - intros d Hl. destruct (di_solvent _ Hi') as [Hso _]. by rewrite Hso, Hd.
Qed.

(** The auction settles at its deadline and not before: while the window is open nothing happens; past the
    deadline an auction nobody bid in goes back to pending, with no denom and no deadline, so governance
    can start it anew; one with a raise is settled, or, if settling fails, left exactly as it was for
    the next block; and an auction that is not open is never touched. *)
Theorem auction_settles_at_deadline a w :
  k_LiquidityAuction (w_dex w) = Some a →
  (la_Status a ≠ AUCTION_STATUS_OPEN ∨ unix w < la_EndTime a → SettleDueAuction w = Ok ((), w)) ∧
  (la_Status a = AUCTION_STATUS_OPEN → la_EndTime a ≤ unix w →
     (la_TotalRaised a ≤ 0 → SettleDueAuction w = Ok ((), upd_dex (set_k_LiquidityAuction (λ _,
        Some (la_set_window AUCTION_STATUS_PENDING "" 0 (la_TotalRaised a) a))) w)) ∧
     (0 < la_TotalRaised a → ∃ w', SettleDueAuction w = Ok ((), w') ∧
        (settleAuction a w = Ok ((), w') ∨ w' = w ∧ is_ok (settleAuction a w) = false))).
Proof.
  intros Ha. unfold SettleDueAuction. run_fwd. rewrite Ha. split.
  - intros Hs. case_bool_decide as Hst; cbn [negb]; [|done]. run_fwd. destruct Hs as [?|Hlt]; [done|].
    by replace (unix w <? la_EndTime a) with true by lia.
  - intros Hst Hend. rewrite bool_decide_eq_true_2 by done. cbn [negb]. run_fwd.
    replace (unix w <? la_EndTime a) with false by lia. split.
    + intros Hz. unfold settleAuction. by replace (0 <? la_TotalRaised a) with false by lia.
    + intros Hp. destruct (Cached_total (settleAuction a) w) as (r & w1 & Hc).
      exists w1. split; [by erewrite run_bind by exact Hc|].
      apply Cached_cases in Hc as [([] & _ & ?)|(e & _ & -> & ?)]; [by left|by right].
Qed.
End auction_properties.
