(* ===== verification/DexPolBurn.v ===== *)
(** * x/dex: retiring the protocol's own liquidity

    [x/dex/keeper/pol_burn.go]: the straight-line schedules and the EndBlock step that advances them. *)

From S2P Require Export DexAuction.

Definition pb_set_start (t : Z) (b : PolBurn) : PolBurn :=
  {| pb_PoolId := pb_PoolId b; pb_TotalShares := pb_TotalShares b; pb_SharesRemaining := pb_SharesRemaining b;
     pb_StartTime := t; pb_DurationSeconds := pb_DurationSeconds b; pb_BurnToken := pb_BurnToken b |}.
Definition pb_set_remaining (r : Z) (b : PolBurn) : PolBurn :=
  {| pb_PoolId := pb_PoolId b; pb_TotalShares := pb_TotalShares b; pb_SharesRemaining := r;
     pb_StartTime := pb_StartTime b; pb_DurationSeconds := pb_DurationSeconds b; pb_BurnToken := pb_BurnToken b |}.

Section dex_pol.
Context `{Host, !ShieldedKeeper}.

Definition retirableAt (b : PolBurn) (now : Z) : outcome Z :=
  if (pb_DurationSeconds b <=? 0) || (now <=? pb_StartTime b) then Ok 0
  else
    let elapsed := wrap_i64 (now - pb_StartTime b) in
    if pb_DurationSeconds b <=? elapsed then Ok (pb_TotalShares b)
    else NewIntFromBigInt (Z.quot (pb_TotalShares b * elapsed) (pb_DurationSeconds b)).

Definition retirePolShares (b : PolBurn) (slice : Z) : M (Coin * Coin) :=
  pool ← PoolGet (pb_PoolId b);
  pool ← settlePoolRewards (pb_PoolId b) pool;
  total ← totalShares (pb_PoolId b);
  refuse_if (negb (0 <? total) || (total <? slice)) ErrInsufficientPool;;
  erthAmt ← or_error (lift (mulDiv slice (Amount (pl_ReserveErth pool)) total)) ErrInsufficientPool;
  outErth ← lift (NewCoin (Denom (pl_ReserveErth pool)) erthAmt);
  outToken ← lift (NewCoin (Denom (pl_ReserveToken pool)) 0);
  tokenAmt ← (if pb_BurnToken b
              then or_error (lift (mulDiv slice (Amount (pl_ReserveToken pool)) total)) ErrInsufficientPool
              else mret (Amount outToken));
  let outToken := mkCoin (Denom outToken) tokenAmt in
  shares ← lift (NewCoin (LPShareDenom (pb_PoolId b)) slice);
  burn ← lift (NewCoins [shares; outErth; outToken]);
  bank (BurnCoins ModuleName burn);;
  recorded ← lift (NewCoins [outErth; outToken]);
  RecordBurn SourcePolRetire recorded;;
  erth ← lift (CoinSub (pl_ReserveErth pool) outErth);
  token ← lift (CoinSub (pl_ReserveToken pool) outToken);
  SetPool (pb_PoolId b) (pl_set_reserves (Amount erth) (Amount token) pool);;
  mret (outErth, outToken).

Definition advancePolBurn (b : PolBurn) (now : Z) : M () :=
  if pb_StartTime b =? 0 then set_dex (set_k_PolBurns <[pb_PoolId b := pb_set_start now b]>)
  else
    retired ← lift (IntSub (pb_TotalShares b) (pb_SharesRemaining b));
    target ← lift (retirableAt b now);
    slice ← lift (IntSub target retired);
    let slice := if pb_SharesRemaining b <? slice then pb_SharesRemaining b else slice in
    if negb (0 <? slice) then mret ()
    else
      _ ← retirePolShares b slice;
      remaining ← lift (IntSub (pb_SharesRemaining b) slice);
      if remaining =? 0 then set_dex (set_k_PolBurns (delete (pb_PoolId b)))
      else set_dex (set_k_PolBurns <[pb_PoolId b := pb_set_remaining remaining b]>).

Definition BurnDuePol : M () :=
  t ← now;
  due ← get_dex (λ s, (iter_map (k_PolBurns s)).*2);
  for_each due (λ b, _ ← Cached (advancePolBurn b t); mret ()).
End dex_pol.

Section pol_lemmas.
Context `{HostLaws, !ShieldedKeeper}.
Implicit Types (w : World) (δ : string → Z) (s : DexStore).

(** The straight line: what the schedule should have retired by [now]. *)
Definition straight_line (b : PolBurn) (now : Z) : Z :=
  if (pb_DurationSeconds b <=? 0) || (now <=? pb_StartTime b) then 0
  else pb_TotalShares b * Z.min (now - pb_StartTime b) (pb_DurationSeconds b) / pb_DurationSeconds b.

Lemma retirableAt_ok b now r :
  0 ≤ pb_TotalShares b → - 2 ^ 63 ≤ now - pb_StartTime b < 2 ^ 63 →
  retirableAt b now = Ok r → r = straight_line b now.
Proof.
  intros Ht Hw. unfold retirableAt, straight_line. destruct (_ || _) eqn:Hz; [congruence|].
  apply orb_false_iff in Hz as [Hd Hn]. rewrite wrap_i64_id by lia.
  destruct (Z.leb_spec (pb_DurationSeconds b) (now - pb_StartTime b)).
  - intros [= <-]. rewrite Z.min_r, Z.div_mul by lia. done.
  - intros [-> _]%NewIntFromBigInt_ok. rewrite Z.min_l, quot_div_nonneg by nia. done.
Qed.

Lemma straight_line_range b now : 0 ≤ pb_TotalShares b → 0 ≤ straight_line b now ≤ pb_TotalShares b.
Proof.
  intros Ht. unfold straight_line. destruct (_ || _) eqn:Hz; [lia|]. apply orb_false_iff in Hz as [Hd Hn].
  split; [apply Z.div_pos; nia|]. apply Z.div_le_upper_bound; nia.
Qed.

(** What a retirement did: the slice's floor part of each reserve left the pool and was burned with
    the slice; the spoke side only when the schedule burns it. *)
Record retired_slice (b : PolBurn) (slice : Z) (p p' : Pool) (e t : Z) (w w' : World) : Prop := {
  rs_touch : touch (pb_PoolId b) p p' (w_dex w) (w_dex w');
  rs_total : slice ≤ GetSupply (w_bank w) (LPShareDenom (pb_PoolId b));
  rs_pos : 0 < GetSupply (w_bank w) (LPShareDenom (pb_PoolId b));
  rs_erth : e = slice * (Amount (pl_ReserveErth p) + settle_owed (w_dex w) (pb_PoolId b) p)
              / GetSupply (w_bank w) (LPShareDenom (pb_PoolId b));
  rs_token : t = if pb_BurnToken b then slice * Amount (pl_ReserveToken p)
               / GetSupply (w_bank w) (LPShareDenom (pb_PoolId b)) else 0;
  rs_erth_left : Amount (pl_ReserveErth p') = Amount (pl_ReserveErth p) + settle_owed (w_dex w) (pb_PoolId b) p - e;
  rs_token_left : Amount (pl_ReserveToken p') = Amount (pl_ReserveToken p) - t;
  rs_moved : moved w w' (λ a d, - at_ dex_addr (λ d, AmountOf [mkCoin (LPShareDenom (pb_PoolId b)) slice] d
    + AmountOf [mkCoin (Denom (pl_ReserveErth p)) e; mkCoin (Denom (pl_ReserveToken p)) t] d) a d);
  rs_supply : ∀ d, GetSupply (w_bank w') d = GetSupply (w_bank w) d
    - AmountOf [mkCoin (LPShareDenom (pb_PoolId b)) slice] d
    - AmountOf [mkCoin (Denom (pl_ReserveErth p)) e; mkCoin (Denom (pl_ReserveToken p)) t] d;
  rs_burned : ∀ src d, burned w' src d = burned w src d +
    (if bool_decide (src = SourcePolRetire)
     then AmountOf [mkCoin (Denom (pl_ReserveErth p)) e; mkCoin (Denom (pl_ReserveToken p)) t] d else 0);
  rs_time : w_nanos w' = w_nanos w;
}.

Lemma retirePolShares_ok b slice w r w' :
  pools_inv (w_dex w) → retirePolShares b slice w = Ok (r, w') →
  ∃ p p' e t, retired_slice b slice p p' e t w w'.
Proof.
  intros Hi Hr. unfold retirePolShares in Hr.
  apply bind_ok in Hr as (p & w1 & [Hp ->]%PoolGet_ok & Hr).
  apply bind_ok in Hr as (p1 & w1 & Hs & Hr).
  destruct (settle_settled _ _ _ _ _ Hi Hp Hs) as (Hst & -> & Ho & Hw1). cbn in Hr.
  destruct (pi_pool _ Hi _ _ Hp) as [].
  assert (w_bank w1 = w_bank w) as Hbk by (by rewrite Hw1).
  apply bind_ok in Hr as (tot & w2 & [-> ->]%get_bank_ok & Hr). rewrite Hbk in Hr.
  apply bind_ok in Hr as ([] & w2 & [Htot ->]%refuse_if_ok & Hr).
  apply bind_ok in Hr as (e & w2 & He%or_error_ok & Hr). apply lift_ok in He as [(_ & _ & _ & _ & He)%mulDiv_ok ->].
  apply bind_ok in Hr as (oe & w2 & [[-> _]%NewCoin_spec ->]%lift_ok & Hr).
  apply bind_ok in Hr as (ot & w2 & [[-> _]%NewCoin_spec ->]%lift_ok & Hr). cbn in Hr.
  apply bind_ok in Hr as (t & w2 & Ht & Hr).
  assert (w2 = w1 ∧ t = if pb_BurnToken b then slice * Amount (pl_ReserveToken p)
    / GetSupply (w_bank w) (LPShareDenom (pb_PoolId b)) else 0) as (-> & Ht').
  { clear Hr. destruct (pb_BurnToken b); [|by apply ret_ok in Ht as [= -> ->]].
    apply or_error_ok, lift_ok in Ht as [(_ & _ & _ & _ & Ht)%mulDiv_ok ->]. done. }
  clear Ht.
  apply bind_ok in Hr as (sc & w2 & [[-> _]%NewCoin_spec ->]%lift_ok & Hr).
  apply bind_ok in Hr as (bc & w2 & [[Hbc _]%NewCoins_spec ->]%lift_ok & Hr).
  apply bind_ok in Hr as ([] & w2 & Hb & Hr). apply bank_ok in Hb as (bk & Hb & ->). apply BurnCoins_spec in Hb as [Hb1 Hb2].
  rewrite Hbk in Hb1, Hb2. fold dex_addr in *.
  apply bind_ok in Hr as (rc & w2 & [[Hrc [_ Hrc0]]%NewCoins_spec ->]%lift_ok & Hr).
  apply bind_ok in Hr as ([] & w2 & [[bs ->] Hrec]%RecordBurn_spec & Hr); [|intros c Hc; by apply Z.lt_le_incl, Hrc0].
  apply bind_ok in Hr as (re & w3 & [(_ & -> & Hre)%CoinSub_spec ->]%lift_ok & Hr).
  apply bind_ok in Hr as (rt & w3 & [(_ & -> & Hrt)%CoinSub_spec ->]%lift_ok & Hr).
  apply bind_ok in Hr as ([] & w3 & Hset & [= -> ->]%ret_ok). cbn in Hset, Hre, Hrt.
  eapply SetPool_touch in Hset as [Htouch Hw3]; [|exact Hi|exact Hp|exact Hst|done..].
  eexists p, _, e, t.
  split; [exact Htouch|lia|lia|done|done|done|done|..].
  - intros a d. rewrite Hw3. cbn. rewrite Hb1, Hbc, bd_some, (bool_decide_eq_false_2 (None = _)) by done.
    rewrite AmountOf_triple. unfold at_.
    destruct (bool_decide (a = dex_addr)); lia.
  - intros d. rewrite Hw3. cbn. rewrite Hb2, Hbc. rewrite (bool_decide_eq_false_2 (Some _ = None)), bool_decide_eq_true_2 by done.
    rewrite AmountOf_triple. lia.
  - intros src d. rewrite <-Hrc. rewrite Hw3. change (burned (upd_dex _ _)) with (burned (upd_earth (set_e_Burned (λ _, bs)) (set_w_bank bk w1))).
    rewrite Hrec. f_equal. unfold burned. rewrite Hw1. done.
  - rewrite Hw3. cbn. rewrite Hw1. done.
Qed.

Lemma retired_upto δ b slice p p' e t w w' :
  inv_upto δ w → retired_slice b slice p p' e t w w' →
  inv_upto (λ d, δ d - (if bool_decide (LPShareDenom (pb_PoolId b) = d) then slice else 0)) w'.
Proof.
  intros Hi []. pose proof (inv_upto_touch_moved _ _ _ _ _ _ _ Hi rs_touch0 rs_moved0) as Hi'.
  pose proof (po_hub _ _ _ (pi_pool _ (iu_pools _ _ Hi) _ _ (t_pool _ _ _ _ _ rs_touch0))) as Hhub.
  eapply inv_upto_weaken; [exact Hi'|intros d _|intros i _; apply Z.eq_le_incl, eq_sym]; cbv beta;
    rewrite !at_eq, AmountOf_pair, AmountOf_single; unfold pool_holds;
    rewrite (t_erth_denom _ _ _ _ _ rs_touch0), (t_token_denom _ _ _ _ _ rs_touch0), rs_erth_left0, rs_token_left0, Hhub;
    rewrite !(bool_decide_ext (_ = hub_denom) (hub_denom = _)) by done; repeat case_bool_decide; lia.
Qed.

(** The schedule after [slice] more shares were retired. *)
Definition after_slice (b : PolBurn) (slice : Z) (m : gmap Z PolBurn) : gmap Z PolBurn :=
  if pb_SharesRemaining b - slice =? 0 then delete (pb_PoolId b) m
  else <[pb_PoolId b := pb_set_remaining (pb_SharesRemaining b - slice) b]> m.

Lemma advance_run b now w w' :
  advancePolBurn b now w = Ok ((), w') →
  if pb_StartTime b =? 0 then w' = upd_dex (set_k_PolBurns <[pb_PoolId b := pb_set_start now b]>) w
  else ∃ target, retirableAt b now = Ok target ∧
    let slice := Z.min (pb_SharesRemaining b) (target - (pb_TotalShares b - pb_SharesRemaining b)) in
    (slice ≤ 0 ∧ w' = w ∨
     0 < slice ∧ ∃ r w1, retirePolShares b slice w = Ok (r, w1) ∧ w' = upd_dex (set_k_PolBurns (after_slice b slice)) w1).
Proof.
  intros Hr. unfold advancePolBurn in Hr. destruct (_ =? 0); [by apply set_dex_ok in Hr|].
  apply bind_ok in Hr as (retired & w1 & [[-> _]%IntSub_ok ->]%lift_ok & Hr).
  apply bind_ok in Hr as (target & w1 & [Ht ->]%lift_ok & Hr).
  apply bind_ok in Hr as (sl & w1 & [[-> _]%IntSub_ok ->]%lift_ok & Hr). cbv zeta in Hr.
  exists target. split; [done|]. cbv zeta.
  rewrite if_min in Hr.
  set (slice := Z.min _ _) in *. destruct (0 <? slice) eqn:Hsl; cbn [negb] in Hr.
  - right. split; [lia|]. apply bind_ok in Hr as (r & w1 & Hret & Hr).
    apply bind_ok in Hr as (rem & w2 & [[-> _]%IntSub_ok ->]%lift_ok & Hr). exists r, w1. split; [done|].
    unfold after_slice. destruct (_ =? 0); by apply set_dex_ok in Hr.
  - left. apply ret_ok in Hr as [= ->]. split; [lia|done].
Qed.

Lemma after_slice_ne b slice m i : i ≠ pb_PoolId b → after_slice b slice m !! i = m !! i.
Proof. intros Hne. unfold after_slice. case_match; [by rewrite lookup_delete_ne|by rewrite lookup_insert_ne]. Qed.

Lemma after_slice_eq b slice m :
  after_slice b slice m !! pb_PoolId b =
  if pb_SharesRemaining b - slice =? 0 then None else Some (pb_set_remaining (pb_SharesRemaining b - slice) b).
Proof. unfold after_slice. case_match; [apply lookup_delete_eq|apply lookup_insert_eq]. Qed.

Lemma set_pol_const f s : set_k_PolBurns f s = set_k_PolBurns (λ _, f (k_PolBurns s)) s.
Proof. done. Qed.

Lemma upd_dex_const f w : upd_dex f w = upd_dex (λ _, f (w_dex w)) w.
Proof. done. Qed.

(** A schedule rewritten by a map [m'] that agrees elsewhere, and the pool's part of [δ] moved. *)
Lemma pol_rewrite w w1 b m' x :
  inv_upto (λ d, - (if bool_decide (LPShareDenom (pb_PoolId b) = d) then x else 0)) w1 →
  0 ≤ pb_PoolId b → k_PolBurns (w_dex w1) !! pb_PoolId b = Some b →
  (∀ i, i ≠ pb_PoolId b → m' !! i = k_PolBurns (w_dex w1) !! i) →
  (∀ b', m' !! pb_PoolId b = Some b' → pb_PoolId b' = pb_PoolId b ∧ 0 ≤ pb_SharesRemaining b' ≤ pb_TotalShares b') →
  (match m' !! pb_PoolId b with Some b' => pb_SharesRemaining b' | None => 0 end) = pb_SharesRemaining b - x →
  w = upd_dex (set_k_PolBurns (λ _, m')) w1 → dex_inv w.
Proof.
  intros Hi Hid Hb Hne Hok Hrem ->.
  pose proof (pol_schedules _ _ _ m' Hi Hid Hne) as Hi'. 
  apply dex_inv_upto. eapply inv_upto_weaken; [apply Hi'|intros d _|intros i _]; cbv beta.
  - intros i b'. cbn. destruct (decide (i = pb_PoolId b)) as [->|Hn].
    + intros Hb'. destruct (Hok _ Hb') as [E1 E2]. split; [done|]. split; [done|]. apply (iu_pol _ _ Hi _ _ Hb).
    + rewrite Hne by done. apply (iu_pol _ _ Hi).
  - unfold pol_remaining. cbn. rewrite Hrem, Hb. case_bool_decide; lia.
  - unfold pol_remaining. cbn. rewrite Hrem, Hb. case_bool_decide; lia.
Qed.

Lemma pol_id w b id : dex_inv w → k_PolBurns (w_dex w) !! id = Some b → pb_PoolId b = id ∧ 0 ≤ id.
Proof.
  intros Hi Hb. destruct (di_pol _ Hi _ _ Hb) as (E & _ & p & Hp). split; [done|].
  pose proof (po_seq _ _ _ (pi_pool _ (di_pools _ Hi) _ _ Hp)). lia.
Qed.

Lemma advance_inv b now w w' :
  dex_inv w → k_PolBurns (w_dex w) !! pb_PoolId b = Some b → advancePolBurn b now w = Ok ((), w') →
  dex_inv w' ∧ w_nanos w' = w_nanos w ∧
  (∀ i, i ≠ pb_PoolId b → k_PolBurns (w_dex w') !! i = k_PolBurns (w_dex w) !! i).
Proof.
  intros Hi Hb Hr. destruct (pol_id _ _ _ Hi Hb) as [_ Hid]. pose proof Hi as Hu%dex_inv_upto.
  destruct (di_pol _ Hi _ _ Hb) as (_ & Hrange & Hpool). apply advance_run in Hr.
  destruct (pb_StartTime b =? 0).
  - subst w'. split; [|split; [done|intros i Hne; cbn; by rewrite lookup_insert_ne]].
    eapply (pol_rewrite _ w b (<[pb_PoolId b := pb_set_start now b]> (k_PolBurns (w_dex w))) 0); try done.
    + eapply inv_upto_weaken; [exact Hu|intros; case_bool_decide; lia..].
    + intros i Hne. by rewrite lookup_insert_ne.
    + rewrite lookup_insert_eq. intros b' [= <-]. cbn. lia.
    + rewrite lookup_insert_eq. cbn. lia.
  - destruct Hr as (target & _ & Hr). cbv zeta in Hr. set (slice := Z.min _ _) in *.
    destruct Hr as [[_ ->]|(Hpos & r & w1 & Hret & ->)]; [done|].
    apply retirePolShares_ok in Hret as (p & p' & e & t & Hrs); [|apply Hi].
    pose proof (retired_upto _ _ _ _ _ _ _ _ _ Hu Hrs) as Hu1.
    pose proof (t_pol _ _ _ _ _ (rs_touch _ _ _ _ _ _ _ _ Hrs)) as Hsame.
    split; [|split; [apply (rs_time _ _ _ _ _ _ _ _ Hrs)|intros i Hne; cbn; by rewrite after_slice_ne, Hsame]].
    eapply (pol_rewrite _ w1 b (after_slice b slice (k_PolBurns (w_dex w1))) slice); try done.
    + by rewrite Hsame.
    + intros i Hne. by rewrite after_slice_ne.
    + rewrite after_slice_eq. intros b'. case_match; [done|]. intros [= <-]. cbn. lia.
    + rewrite after_slice_eq. destruct (Z.eqb_spec (pb_SharesRemaining b - slice) 0); cbn; lia.
Qed.

(** The schedule follows the straight line. *)
Lemma advance_schedule b now w w' :
  dex_inv w → k_PolBurns (w_dex w) !! pb_PoolId b = Some b → pb_StartTime b ≠ 0 →
  - 2 ^ 63 ≤ now - pb_StartTime b < 2 ^ 63 →
  advancePolBurn b now w = Ok ((), w') →
  k_PolBurns (w_dex w') !! pb_PoolId b =
    let rem := Z.min (pb_SharesRemaining b) (pb_TotalShares b - straight_line b now) in
    if rem =? pb_SharesRemaining b then Some b
    else if rem =? 0 then None else Some (pb_set_remaining rem b).
Proof.
  intros Hi Hb Hs Hw Hr. destruct (di_pol _ Hi _ _ Hb) as (_ & Hrange & Hpool). apply advance_run in Hr.
  destruct (Z.eqb_spec (pb_StartTime b) 0); [done|].
  destruct Hr as (target & ->%retirableAt_ok & Hr); [|lia|done]. cbv zeta in *.
  pose proof (straight_line_range b now ltac:(lia)) as Hsl. set (slice := Z.min _ (straight_line b now - _)) in *.
  destruct Hr as [[Hneg ->]|(Hpos & r & w1 & Hret & ->)].
  - rewrite Z.min_l by lia. by rewrite Z.eqb_refl.
  - apply retirePolShares_ok in Hret as (p & p' & e & t & Hrs); [|apply Hi].
    pose proof (t_pol _ _ _ _ _ (rs_touch _ _ _ _ _ _ _ _ Hrs)) as Hsame.
    cbn. rewrite after_slice_eq. replace (Z.min (pb_SharesRemaining b) (pb_TotalShares b - straight_line b now))
      with (pb_SharesRemaining b - slice) by lia.
    destruct (Z.eqb_spec (pb_SharesRemaining b - slice) (pb_SharesRemaining b)); [lia|done].
Qed.

Lemma BurnDuePol_loop due t w :
  dex_inv w → NoDup (pb_PoolId <$> due) → (∀ b, b ∈ due → k_PolBurns (w_dex w) !! pb_PoolId b = Some b) →
  ∃ w', for_each due (λ b, _ ← Cached (advancePolBurn b t); mret ()) w = Ok ((), w') ∧ dex_inv w' ∧ w_nanos w' = w_nanos w.
Proof.
  revert w. induction due as [|b due IH]; intros w Hi Hnd Hst; [by exists w|].
  cbn in Hnd. apply NoDup_cons in Hnd as [Hnb Hnd]. cbn [for_each].
  assert (k_PolBurns (w_dex w) !! pb_PoolId b = Some b) as Hb by (apply Hst; left).
  destruct (Cached_total (advancePolBurn b t) w) as (r & w1 & Hc).
  assert (dex_inv w1 ∧ w_nanos w1 = w_nanos w ∧
    (∀ i, i ≠ pb_PoolId b → k_PolBurns (w_dex w1) !! i = k_PolBurns (w_dex w) !! i)) as (Hi1 & Hn1 & Hne).
  { eapply (Cached_inv (λ w1, dex_inv w1 ∧ w_nanos w1 = w_nanos w ∧ _)) in Hc; [exact Hc| |by split_and!].
    intros [] w2 Hr. by eapply advance_inv. }
  destruct (IH w1 Hi1 Hnd) as (w' & Hr & Hi' & Hn').
  { intros b' Hb'. rewrite Hne; [apply Hst; by right|]. intros E. apply Hnb. rewrite <-E. by apply list_elem_of_fmap_2. }
  exists w'. split; [|split; [done|congruence]].
  apply bind_ok. exists (), w1. split; [|done]. apply bind_ok. by exists r, w1.
Qed.

Lemma BurnDuePol_ok w :
  dex_inv w → ∃ w', BurnDuePol w = Ok ((), w') ∧ dex_inv w' ∧ w_nanos w' = w_nanos w.
Proof.
  intros Hi. unfold BurnDuePol. run_fwd. apply BurnDuePol_loop; [done|..].
  - pose proof (iter_map_NoDup (k_PolBurns (w_dex w))) as Hnd.
    replace (pb_PoolId <$> (iter_map (k_PolBurns (w_dex w))).*2) with ((iter_map (k_PolBurns (w_dex w))).*1); [done|].
    rewrite <-list_fmap_compose. apply list_fmap_ext. intros i [k b] Hk%list_elem_of_lookup_2%elem_of_iter_map.
    cbn. symmetry. by apply (pol_id w b k Hi).
  - intros b ([k b'] & -> & Hk%elem_of_iter_map)%list_elem_of_fmap. cbn.
    by destruct (pol_id w b' k Hi Hk) as [-> _].
Qed.
End pol_lemmas.

(** ** Properties *)
Section pol_properties.
Context `{HostLaws, !ShieldedKeeper}.
Implicit Types w : World.

(** C30: Retirement follows the straight line: after a block that advances it, a started schedule has
    retired exactly floor(total * elapsed / duration) shares (all of them once the duration is over),
    never un-retires, and disappears exactly when nothing remains. *)
Theorem retirement_follows_straight_line b now w w' :
  dex_inv w → k_PolBurns (w_dex w) !! pb_PoolId b = Some b → pb_StartTime b ≠ 0 →
  - 2 ^ 63 ≤ now - pb_StartTime b < 2 ^ 63 → advancePolBurn b now w = Ok ((), w') →
  let remaining := Z.min (pb_SharesRemaining b) (pb_TotalShares b - straight_line b now) in
  0 ≤ remaining ≤ pb_SharesRemaining b ∧
  (pb_StartTime b + pb_DurationSeconds b ≤ now → 0 < pb_DurationSeconds b → remaining = 0) ∧
  k_PolBurns (w_dex w') !! pb_PoolId b =
    (if remaining =? pb_SharesRemaining b then Some b
     else if remaining =? 0 then None else Some (pb_set_remaining remaining b)).
Proof.
  intros Hi Hb Hs Hw Hr remaining. destruct (di_pol _ Hi _ _ Hb) as (_ & Hrange & _).
  pose proof (straight_line_range b now ltac:(lia)) as Hsl. split; [lia|]. split.
  - intros Hend Hdur. unfold remaining, straight_line.
    destruct (Z.leb_spec (pb_DurationSeconds b) 0), (Z.leb_spec now (pb_StartTime b)); try lia. cbn.
    rewrite (Z.min_r (now - _)), Z.div_mul by lia. lia.
  - by apply (advance_schedule b now w w').
Qed.

(** Retiring protocol liquidity burns exactly its share and nothing of anybody else's: the slice and the
    floor of its part of the ERTH reserve leave the pool and the supply and are counted under
    [pol_retire]; the token reserve stays to the remaining holders unless the schedule burns it; per
    remaining share neither reserve falls; and no account but the module's changes. *)
Theorem retirement_burns_its_share b slice w r w' :
  pools_inv (w_dex w) → 0 ≤ slice → retirePolShares b slice w = Ok (r, w') →
  ∃ p p' e t, k_Pool (w_dex w) !! pb_PoolId b = Some p ∧
    k_Pool (w_dex w') = <[pb_PoolId b := p']> (k_Pool (w_dex w)) ∧
    let S := GetSupply (w_bank w) (LPShareDenom (pb_PoolId b)) in
    let E := Amount (pl_ReserveErth p) + settle_owed (w_dex w) (pb_PoolId b) p in
    let T := Amount (pl_ReserveToken p) in
    let out := [mkCoin (Denom (pl_ReserveErth p)) e; mkCoin (Denom (pl_ReserveToken p)) t] in
    slice ≤ S ∧ e = slice * E / S ∧ t = (if pb_BurnToken b then slice * T / S else 0) ∧
    Amount (pl_ReserveErth p') = E - e ∧ Amount (pl_ReserveToken p') = T - t ∧
    E * (S - slice) ≤ Amount (pl_ReserveErth p') * S ∧ T * (S - slice) ≤ Amount (pl_ReserveToken p') * S ∧
    (∀ d, GetSupply (w_bank w') d = GetSupply (w_bank w) d
       - AmountOf [mkCoin (LPShareDenom (pb_PoolId b)) slice] d - AmountOf out d) ∧
    (∀ d, burned w' SourcePolRetire d = burned w SourcePolRetire d + AmountOf out d) ∧
    (∀ a d, a ≠ dex_addr → GetBalance (w_bank w') a d = GetBalance (w_bank w) a d).
Proof.
  intros Hi Hsl Hr. apply retirePolShares_ok in Hr as (p & p' & e & t & Hrs); [|done].
  destruct Hrs as [Htouch Htot HS He Ht HEl HTl Hmv Hsup Hrec _].
  exists p, p', e, t. split; [apply Htouch|]. split; [apply Htouch|]. cbv zeta.
  pose proof (pi_pool _ Hi _ _ (t_pool _ _ _ _ _ Htouch)) as [].
  set (S := GetSupply _ _) in *. set (E := Amount (pl_ReserveErth p) + _) in *.
  pose proof (div_mul_bounds (slice * E) S HS) as B1. rewrite <-He in B1.
  pose proof (div_mul_bounds (slice * Amount (pl_ReserveToken p)) S HS) as B2.
  split_and!; try done; try nia.
  - rewrite HTl, Ht. destruct (pb_BurnToken b); nia.
  - intros a d Hne. rewrite Hmv, at_ne by done. lia.
Qed.
End pol_properties.
