(* ===== verification/DexSweeps.v ===== *)
(** * x/dex: LP rewards paid in, the stale sweep and the rebase, under the invariant

    The operations of [x/dex/keeper/lp_rewards.go] modelled in [DexRewards.v]: what they keep and what they
    change. *)

From S2P Require Export DexPolBurn.

Section sweeps.
Context `{HostLaws, !ShieldedKeeper}.
Implicit Types (w : World) (δ : string → Z) (s : DexStore).

(** ** Paying rewards in *)
Lemma DistributeLPRewards_run amt w r w' :
  0 ≤ total_volume (w_dex w) → DistributeLPRewards amt w = Ok (r, w') →
  (r = 0 ∧ w' = w) ∨
  ∃ delta, 0 < delta ∧ 0 < total_volume (w_dex w) ∧ delta = amt * lpIndexPrecision / total_volume (w_dex w) ∧
    delta * total_volume (w_dex w) ≤ r * lpIndexPrecision ∧ 0 < r ≤ amt ∧
    w' = upd_dex (λ s, set_k_PendingLpRewards (λ _, Some (pending s + r))
           (set_k_LpRewardIndex (λ _, Some (lp_index s + delta)) s)) w.
Proof.
  intros Ht Hr. unfold DistributeLPRewards, getLpTotalVolume, getLpRewardIndex, getPendingLpRewards in Hr.
  destruct (Z.ltb_spec 0 amt) as [Ha|Ha]; cbn [negb] in Hr; [|left; by apply ret_ok in Hr as [= -> ->]].
  apply bind_ok in Hr as (tot & w1 & [-> ->]%get_dex_ok & Hr). fold (total_volume (w_dex w)) in Hr.
  set (V := total_volume (w_dex w)) in *.
  destruct (Z.ltb_spec 0 V) as [Hv|Hv]; cbn [negb] in Hr; [|left; by apply ret_ok in Hr as [= -> ->]].
  apply bind_ok in Hr as (m & w1 & [[-> _]%IntMul_ok ->]%lift_ok & Hr).
  apply bind_ok in Hr as (d & w1 & [[_ ->]%IntQuo_ok ->]%lift_ok & Hr).
  rewrite quot_div_nonneg in Hr by (try done; unfold lpIndexPrecision; nia).
  set (delta := amt * lpIndexPrecision / V) in *.
  destruct (Z.ltb_spec 0 delta) as [Hd|Hd]; cbn [negb] in Hr; [|left; by apply ret_ok in Hr as [= -> ->]].
  right. exists delta. split; [done|]. split; [done|]. split; [done|].
  apply bind_ok in Hr as (idx & w1 & [-> ->]%get_dex_ok & Hr).
  apply bind_ok in Hr as (idx & w1 & [[-> _]%IntAdd_ok ->]%lift_ok & Hr).
  apply bind_ok in Hr as ([] & w1 & ->%set_dex_ok & Hr).
  apply bind_ok in Hr as (m & w1 & [[-> _]%IntMul_ok ->]%lift_ok & Hr).
  apply bind_ok in Hr as (m & w1 & [[-> _]%IntAdd_ok ->]%lift_ok & Hr).
  apply bind_ok in Hr as (m & w1 & [[-> _]%IntSub_ok ->]%lift_ok & Hr).
  apply bind_ok in Hr as (res & w1 & [[_ ->]%IntQuo_ok ->]%lift_ok & Hr).
  rewrite quot_div_nonneg in Hr by (unfold lpIndexPrecision; nia).
  apply bind_ok in Hr as (pend & w1 & [-> ->]%get_dex_ok & Hr).
  apply bind_ok in Hr as (pend & w1 & [[-> _]%IntAdd_ok ->]%lift_ok & Hr).
  apply bind_ok in Hr as ([] & w1 & ->%set_dex_ok & [= -> ->]%ret_ok).
  assert (0 < lpIndexPrecision) as HP by done.
  pose proof (div_mul_bounds (delta * V + lpIndexPrecision - 1) lpIndexPrecision HP).
  pose proof (div_mul_bounds (amt * lpIndexPrecision) V Hv) as Hb. fold delta in Hb.
  split; [lia|]. split; [|done].
  split; [apply Z.div_str_pos; nia|]. apply Z.lt_succ_r, Z.div_lt_upper_bound; [done|]. nia.
Qed.

Lemma map_sum_scale (f : Z → Pool → Z) c (m : gmap Z Pool) : map_sum (λ i p, f i p * c) m = map_sum f m * c.
Proof.
  induction m as [|k v m Hk IH] using map_ind; [done|]. rewrite !map_sum_insert_fresh by done. lia.
Qed.

(** What is resolved is owed from then on, and covers what the pools will settle. *)
Lemma DistributeLPRewards_upto δ amt w r w' :
  inv_upto δ w → DistributeLPRewards amt w = Ok (r, w') →
  inv_upto (λ d, δ d - (if bool_decide (hub_denom = d) then r else 0)) w' ∧ 0 ≤ r ∧ (0 < amt → r ≤ amt) ∧ 
  w' = upd_dex (λ _, w_dex w') w.
Proof.
  intros Hi Hr. assert (0 ≤ total_volume (w_dex w)) as HV.
  { rewrite (pi_volume _ (iu_pools _ _ Hi)). apply map_sum_nonneg. intros i p Hp. apply (pi_pool _ (iu_pools _ _ Hi) _ _ Hp). }
  apply DistributeLPRewards_run in Hr as [[-> ->]|(delta & Hd & Hv & Hde & Hcov & Hr & ->)]; [| |done].
  { split; [|split; [done|split; [lia|by destruct w]]].
    eapply inv_upto_weaken; [exact Hi|intros; case_bool_decide; lia..]. }
  split; [|split; [lia|split; [lia|done]]].
  destruct Hi as [[] Ha [] Hpol Hpar Hst Hbal Hsh].
  assert (0 ≤ pending (w_dex w)) as Hpend.
  { assert (0 ≤ pending (w_dex w) * lpIndexPrecision); [|unfold lpIndexPrecision in *; lia].
    etransitivity; [|exact pi_rewards]. apply map_sum_nonneg. intros i p Hp. destruct (pi_pool _ _ Hp). nia. }
  split; try done.
  - split; try done.
    + intros i p Hp. destruct (pi_pool _ _ Hp). split; try done. unfold lp_index, lp_last in *. cbn in *. lia.
    + change (map_sum (λ i p, pl_VolumeWeight p * (lp_index (w_dex w) + delta - lp_last (w_dex w) i)) (k_Pool (w_dex w))
        ≤ (pending (w_dex w) + r) * lpIndexPrecision).
      rewrite (map_sum_ext _ (λ i p, pl_VolumeWeight p * (lp_index (w_dex w) - lp_last (w_dex w) i) + pl_VolumeWeight p * delta))
        by (intros; lia).
      rewrite map_sum_add, (map_sum_scale (λ _ p, pl_VolumeWeight p)), <-pi_volume. lia.
    + unfold lp_index in *. cbn. lia.
  - intros d Hl. cbn. rewrite Hbal by done. unfold owed. cbn.
    rewrite (bool_decide_ext (hub_denom = d) (d = hub_denom)) by done. unfold pending. cbn. case_bool_decide; lia.
  - intros i Hi. specialize (Hsh i Hi). cbn.
    match goal with |- lp_claims ?s i + _ ≤ _ => change (lp_claims s i) with (lp_claims (w_dex w) i) end.
    case_bool_decide; lia.
Qed.

(** ** A pool settled with its volume rewritten *)
Lemma setvol_settled id p w q v0 v day q' w' s :
  pools_inv s → k_Pool s !! id = Some p → settled id p s v0 (w_dex w) → pl_VolumeWeight q = v0 →
  0 ≤ v → setPoolVolume q v day w = Ok (q', w') →
  q' = pl_set_volume v day q ∧ settled id p s v (w_dex w') ∧ w' = upd_dex (λ _, w_dex w') w.
Proof.
  intros Hi Hp [] Hq Hv Hr. apply setPoolVolume_ok in Hr as (t & -> & Ht & ->); [|done]. split; [done|]. split; [|done].
  pose proof (total_volume_ge _ _ _ Hi Hp). unfold total_volume, pending, lp_index, lp_last in *.
  split; cbn; try done. unfold total_volume. cbn. lia.
Qed.

Lemma schedule_settled id p w i b u w' v s :
  settled id p s v (w_dex w) → scheduleStale i b w = Ok (u, w') →
  settled id p s v (w_dex w') ∧ w' = upd_dex (λ _, w_dex w') w.
Proof.
  intros [] Hr. pose proof (scheduleStale_stale_ok _ _ _ _ _ Hr) as Hst.
  apply scheduleStale_ok in Hr as (q & due & ->). split; [|done].
  split; try done. intros Hok. by apply Hst, st_stale.
Qed.

(** A touch that moves no coins. *)
Lemma touch_still id p p' w w' :
  touch id p p' (w_dex w) (w_dex w') → w' = upd_dex (λ _, w_dex w') w →
  Amount (pl_ReserveErth p') = Amount (pl_ReserveErth p) + settle_owed (w_dex w) id p →
  Amount (pl_ReserveToken p') = Amount (pl_ReserveToken p) → dex_inv w → dex_inv w'.
Proof.
  intros Ht Hw He Htk Hi. pose proof (po_hub _ _ _ (pi_pool _ (di_pools _ Hi) _ _ (t_pool _ _ _ _ _ Ht))) as Hhub.
  eapply touch_dex_inv; [exact Ht|done|rewrite Hw; cbn..].
  - intros d _. unfold pool_holds. rewrite (t_erth_denom _ _ _ _ _ Ht), (t_token_denom _ _ _ _ _ Ht), He, Htk, Hhub.
    rewrite (bool_decide_ext (d = hub_denom) (hub_denom = d)) by done. repeat case_bool_decide; lia.
  - lia.
Qed.

(** Settle, set the volume to [v], perhaps leave the stale queue, write. *)
Lemma rewrite_volume id p w p1 w1 v day p2 w2 b w3 u w4 :
  dex_inv w → k_Pool (w_dex w) !! id = Some p → settlePoolRewards id p w = Ok (p1, w1) → 0 ≤ v →
  setPoolVolume p1 v day w1 = Ok (p2, w2) →
  (if b : bool then scheduleStale id false else mret ()) w2 = Ok ((), w3) → SetPool id p2 w3 = Ok (u, w4) →
  dex_inv w4 ∧ w4 = upd_dex (λ _, w_dex w4) w ∧
  k_Pool (w_dex w4) = <[id := p2]> (k_Pool (w_dex w)) ∧ pl_VolumeWeight p2 = v.
Proof.
  intros Hi Hp Hs Hv Hsv Hsched Hset. pose proof (di_pools _ Hi) as Hpi.
  destruct (settle_settled _ _ _ _ _ Hpi Hp Hs) as (Hst & -> & Ho & Hw1).
  eapply setvol_settled in Hsv as (-> & Hst2 & Hw2); [|exact Hpi|exact Hp|exact Hst|done..].
  assert (settled id p (w_dex w) v (w_dex w3) ∧ w3 = upd_dex (λ _, w_dex w3) w2) as [Hst3 Hw3].
  { destruct b; [by eapply schedule_settled|]. apply ret_ok in Hsched as [= ->]. split; [done|]. by destruct w2. }
  destruct (pi_pool _ Hpi _ _ Hp) as [].
  eapply SetPool_touch in Hset as [Ht Hw4]; [|exact Hpi|exact Hp|exact Hst3|cbn; done || lia..].
  assert (w4 = upd_dex (λ _, w_dex w4) w) as Hw by (rewrite Hw4, Hw3, Hw2, Hw1; done).
  split; [by eapply touch_still|]. split; [done|]. split; [apply Ht|done].
Qed.

Lemma expirePoolVolume_ok id w u w' :
  dex_inv w → expirePoolVolume id w = Ok (u, w') →
  dex_inv w' ∧ w' = upd_dex (λ _, w_dex w') w ∧
  k_PoolStaleQueue (w_dex w') = k_PoolStaleQueue (w_dex w) ∧ k_PoolStaleDue (w_dex w') = k_PoolStaleDue (w_dex w) ∧
  (∀ p, k_Pool (w_dex w') !! id = Some p → pl_VolumeWeight p ≤ 0).
Proof.
  intros Hi Hr. unfold expirePoolVolume in Hr.
  assert (w = upd_dex (λ _, w_dex w) w) as Hw0 by (by destruct w).
  apply bind_ok in Hr as (p & w1 & [-> ->]%get_dex_ok & Hr).
  destruct (k_Pool (w_dex w) !! id) as [p|] eqn:Hp.
  2:{ apply ret_ok in Hr as [= -> ->]. split_and!; try done. intros p. by rewrite Hp. }
  destruct (Z.ltb_spec 0 (pl_VolumeWeight p)) as [Hv|Hv]; cbn [negb] in Hr.
  2:{ apply ret_ok in Hr as [= -> ->]. split_and!; try done. rewrite Hp. by intros ? [= <-]. }
  apply bind_ok in Hr as (p1 & w1 & Hs & Hr).
  apply bind_ok in Hr as (t & w2 & [-> ->]%now_ok & Hr).
  apply bind_ok in Hr as (p2 & w2 & Hsv & Hset).
  assert (k_PoolStaleQueue (w_dex w') = k_PoolStaleQueue (w_dex w) ∧ k_PoolStaleDue (w_dex w') = k_PoolStaleDue (w_dex w)) as [Hq Hd].
  { apply SetPool_ok in Hset as (-> & _). apply setPoolVolume_ok in Hsv as (tt & -> & _); [|done].
    destruct (pi_pool _ (di_pools _ Hi) _ _ Hp) as [].
    apply settlePoolRewards_ok in Hs as (? & ? & ? & ? & -> & _); done. }
  eapply (rewrite_volume id p w p1 w1 0 _ p2 w2 false w2) in Hset as (Hi' & Hw' & Hm & Hv'); [|done..].
  split_and!; try done. rewrite Hm, lookup_insert_eq. intros ? [= <-]. lia.
Qed.

(** ** The stale sweep *)
Lemma due_entries_sublist limit t q : due_entries limit t q `prefix_of` q.
Proof.
  revert limit. induction q as [|e q IH]; intros limit; [apply prefix_nil|]; cbn [due_entries].
  case_match; [apply prefix_nil|]. destruct limit; [apply prefix_nil|]. by apply prefix_cons.
Qed.

Definition drop_stale (e : Z * Z) : DexStore → DexStore := λ s,
  set_k_PoolStaleDue (delete (snd e)) (set_k_PoolStaleQueue (λ q, q ∖ {[e]}) s).

Lemma drop_stale_inv e w : dex_inv w → e ∈ k_PoolStaleQueue (w_dex w) → dex_inv (upd_dex (drop_stale e) w).
Proof.
  intros [] He. split; try done; [by eapply same_pools_inv; [|exact di_pools]|by destruct di_unbond; split|].
  destruct e as [t id]. unfold stale_ok. cbn. apply stale_ok_remove; [exact di_stale|]. by apply di_stale.
Qed.

Lemma SweepStale_loop due w :
  dex_inv w → NoDup due → (∀ e, e ∈ due → e ∈ k_PoolStaleQueue (w_dex w)) →
  ∃ w', for_each due (λ entry,
      let poolID := snd entry in
      set_dex (set_k_PoolStaleQueue (λ q, q ∖ {[entry]}));;
      set_dex (set_k_PoolStaleDue (delete poolID));;
      _ ← Cached (expirePoolVolume poolID);
      mret ()) w = Ok ((), w') ∧ dex_inv w' ∧ w' = upd_dex (λ _, w_dex w') w ∧
    k_PoolStaleQueue (w_dex w') = k_PoolStaleQueue (w_dex w) ∖ list_to_set due.
Proof.
  revert w. induction due as [|e due IH]; intros w Hi Hnd Hq.
  { exists w. split_and!; try done; [by destruct w|]. cbn. by rewrite difference_empty_L. }
  apply NoDup_cons in Hnd as [Hne Hnd]. cbn [for_each].
  assert (dex_inv (upd_dex (drop_stale e) w)) as Hi1 by (apply drop_stale_inv; [done|apply Hq; left]).
  set (w1 := upd_dex (drop_stale e) w) in *.
  destruct (Cached_total (expirePoolVolume (snd e)) w1) as (r & w2 & Hc).
  assert (dex_inv w2 ∧ w2 = upd_dex (λ _, w_dex w2) w1 ∧ k_PoolStaleQueue (w_dex w2) = k_PoolStaleQueue (w_dex w1))
    as (Hi2 & Hw2 & Hq2).
  { eapply (Cached_inv (λ w2, dex_inv w2 ∧ w2 = upd_dex (λ _, w_dex w2) w1 ∧ k_PoolStaleQueue (w_dex w2) = k_PoolStaleQueue (w_dex w1)))
      in Hc; [exact Hc| |by split_and!].
    intros [] t (?&?&?&?&?)%expirePoolVolume_ok; done. }
  destruct (IH w2 Hi2 Hnd) as (w' & Hr & Hi' & Hw' & Hq').
  { intros e' He'. rewrite Hq2. cbn. apply elem_of_difference. split; [apply Hq; by right|].
    intros ->%elem_of_singleton. by apply Hne. }
  exists w'. split; [|split; [done|split]].
  - apply bind_ok. exists (), w2. split; [|exact Hr]. cbv zeta.
    apply bind_ok. exists (), (upd_dex (set_k_PoolStaleQueue (λ q, q ∖ {[e]})) w). split; [done|].
    apply bind_ok. exists (), w1. split; [done|].
    apply bind_ok. exists r, w2. split; [exact Hc|done].
  - rewrite Hw', Hw2. done.
  - rewrite Hq', Hq2. cbn. by rewrite difference_difference_l_L.
Qed.

Lemma SweepStalePools_ok w :
  dex_inv w → ∃ w', SweepStalePools w = Ok ((), w') ∧ dex_inv w' ∧ w' = upd_dex (λ _, w_dex w') w.
Proof.
  intros Hi. unfold SweepStalePools. run_fwd. set (due := due_entries _ _ _).
  destruct (due_entries_sublist (Z.to_nat PoolStaleSweepLimit) (unix w) (iter_set (k_PoolStaleQueue (w_dex w)))) as [l Hl].
  fold due in Hl. destruct (SweepStale_loop due w Hi) as (w' & Hr & Hi' & Hw & _); [..|by exists w'].
  - assert (NoDup (iter_set (k_PoolStaleQueue (w_dex w)))) as Hnd.
    { unfold iter_set. rewrite merge_sort_Permutation. apply NoDup_elements. }
    rewrite Hl in Hnd. by apply NoDup_app in Hnd as [Hnd _].
  - intros e He. apply elem_of_iter_set. rewrite Hl. apply elem_of_app. by left.
Qed.

(** ** The rebase *)
Lemma RebaseVolumeIndex_ok w u w' :
  dex_inv w → RebaseVolumeIndex w = Ok (u, w') → dex_inv w' ∧ w' = upd_dex (λ _, w_dex w') w.
Proof.
  intros Hi Hr. unfold RebaseVolumeIndex, getVolumeIndex in Hr.
  apply bind_ok in Hr as (idx & w1 & [-> ->]%get_dex_ok & Hr). fold (volume_index (w_dex w)) in Hr.
  apply bind_ok in Hr as (lim & w1 & [_ ->]%lift_ok & Hr).
  destruct (_ <? lim). { apply ret_ok in Hr as [= -> ->]. split; [done|]. by destruct w. }
  apply bind_ok in Hr as (ids & w1 & [-> ->]%get_dex_ok & Hr).
  apply bind_ok in Hr as ([] & w1 & Hloop & Hr).
  assert (dex_inv w1 ∧ w1 = upd_dex (λ _, w_dex w1) w) as [Hi1 Hw1].
  { eapply (for_each_inv (λ x, dex_inv x ∧ x = upd_dex (λ _, w_dex x) w)) in Hloop; [exact Hloop| |split; [done|by destruct w]].
    clear Hi Hr Hloop. intros id v v' _ [Hi Hv] Hr.
    apply bind_ok in Hr as (p & v1 & [-> ->]%get_dex_ok & Hr).
    destruct (k_Pool (w_dex v) !! id) as [p|] eqn:Hp; [|by apply ret_ok in Hr as [= ->]].
    apply bind_ok in Hr as (p1 & v1 & Hs & Hr).
    destruct (settle_settled _ _ _ _ _ (di_pools _ Hi) Hp Hs) as (_ & Hp1 & _).
    destruct (pi_pool _ (di_pools _ Hi) _ _ Hp) as [].
    apply bind_ok in Hr as (sc & v2 & [[_ ->]%IntQuo_ok ->]%lift_ok & Hr).
    apply bind_ok in Hr as (p2 & v2 & Hsv & Hr).
    apply bind_ok in Hr as ([] & v3 & Hsched & Hset).
    assert (0 ≤ Z.quot (pl_VolumeWeight p1) VolumeIndexRebaseFactor) as Hq.
    { rewrite quot_div_nonneg; [apply Z.div_pos; [|done]|..]; try done; rewrite Hp1; done. }
    eapply (rewrite_volume id p v p1 v1 _ _ p2 v2 _ v3) in Hset as (Hi' & Hw' & _); [|done..].
    split; [done|]. rewrite Hw', Hv. done. }
  apply bind_ok in Hr as (reb & w2 & [[_ ->]%IntQuo_ok ->]%lift_ok & ->%set_dex_ok).
  split; [|rewrite Hw1; done]. destruct Hi1. split; try done;
    [by eapply same_pools_inv; [|exact di_pools]|by destruct di_unbond; split].
Qed.

Lemma MaybeRebaseVolumeIndex_ok w :
  dex_inv w → ∃ w', MaybeRebaseVolumeIndex w = Ok ((), w') ∧ dex_inv w' ∧ w' = upd_dex (λ _, w_dex w') w.
Proof.
  intros Hi. unfold MaybeRebaseVolumeIndex. destruct (Cached_total RebaseVolumeIndex w) as (r & w1 & Hc).
  exists w1. split; [by erewrite run_bind by exact Hc|].
  apply (Cached_inv (λ w1, dex_inv w1 ∧ w1 = upd_dex (λ _, w_dex w1) w)) in Hc; [done| |split; [done|by destruct w]].
  intros [] t Hr. by eapply RebaseVolumeIndex_ok.
Qed.
End sweeps.
