(* ===== verification/DexNotes.v ===== *)
(** * x/dex: trading with the shielded pool

    [x/dex/keeper/note_paths.go] and the msgs' accessors of [x/dex/types/msgs_private.go]: the swap, the
    deposit and the withdrawal the private ante executes, and [MsgBuyAnml].  The dex sees the pool through
    [ShieldedKeeper] and its laws only. *)

From S2P Require Export DexSweeps.

Record MsgNoteSwap := {
  ns_Bundle : Bundle; ns_DenomIn : string; ns_AmountIn : Z; ns_DenomOut : string; ns_MinAmountOut : Z;
  ns_Pc : bytes; ns_Ciphertext : bytes;
}.
Record MsgAddLiquidityShielded := {
  as_Bundle : Bundle; as_PoolId : Z; as_MinShares : string; as_ErthAmount : Z;
  as_SharePc : bytes; as_ShareCiphertext : bytes; as_RefundPc : bytes; as_RefundCiphertext : bytes;
}.
Record MsgRemoveLiquidityShielded := {
  rs_Bundle : Bundle; rs_PoolId : Z; rs_ErthPc : bytes; rs_ErthCiphertext : bytes;
  rs_TokenPc : bytes; rs_TokenCiphertext : bytes;
}.
Record MsgBuyAnml := {
  ba_Creator : string; ba_TokenIn : Coin; ba_MinAmountOut : string; ba_Pc : bytes; ba_Ciphertext : bytes;
}.

(** The private msgs of the module. *)
Inductive DexPrivateMsg :=
| NoteSwapMsg (m : MsgNoteSwap)
| AddLiquidityShieldedMsg (m : MsgAddLiquidityShielded)
| RemoveLiquidityShieldedMsg (m : MsgRemoveLiquidityShielded).

(** ** msgs_private.go *)
Definition NoteSwap_PrivateFee (m : MsgNoteSwap) : Z :=
  if bool_decide (ns_DenomIn m = FeeDenom) then FeeAfter [ns_Bundle m] (ns_AmountIn m) else FeeAfter [ns_Bundle m] 0.
Definition AddShielded_PrivateFee (m : MsgAddLiquidityShielded) : Z := FeeAfter [as_Bundle m] (as_ErthAmount m).
Definition RemoveShielded_PrivateFee (m : MsgRemoveLiquidityShielded) : Z := FeeAfter [rs_Bundle m] 0.

Definition NoteSwap_In (m : MsgNoteSwap) : Coin := mkCoin (ns_DenomIn m) (ns_AmountIn m).

Definition WithdrawalID (m : MsgRemoveLiquidityShielded) : bytes :=
  match bun_Actions (rs_Bundle m) with
  | [] => []
  | a :: _ => 0 :: act_Nullifier a
  end.

(** [sdk.Coin{}] *)
Definition zero_coin : Coin := mkCoin "" 0.

Section dex_notes.
Context `{Host, !ShieldedKeeper}.

(** The msgs as [shieldedtypes.PrivateMsg]. *)
Definition TypeMsgNoteSwap : string := "/earth.dex.v1.MsgNoteSwap".
Definition TypeMsgAddLiquidityShielded : string := "/earth.dex.v1.MsgAddLiquidityShielded".
Definition TypeMsgRemoveLiquidityShielded : string := "/earth.dex.v1.MsgRemoveLiquidityShielded".

Definition pcField (b : bytes) : outcome Z :=
  wrap_error (FieldFromBytes b) ErrInvalidPrivateMsg.

Definition NoteSwap_SighashFields (m : MsgNoteSwap) : outcome (list Z) :=
  pc ← pcField (ns_Pc m);
  mret [Bytes (codes (ns_DenomIn m)); U64 (ns_AmountIn m); Bytes (codes (ns_DenomOut m)); U64 (ns_MinAmountOut m);
        pc; Bytes (ns_Ciphertext m)].
Definition AddShielded_SighashFields (m : MsgAddLiquidityShielded) : outcome (list Z) :=
  sharePc ← pcField (as_SharePc m);
  refundPc ← pcField (as_RefundPc m);
  mret [U64 (as_PoolId m); Bytes (codes (as_MinShares m)); sharePc; Bytes (as_ShareCiphertext m); refundPc;
        Bytes (as_RefundCiphertext m); U64 (as_ErthAmount m)].
Definition RemoveShielded_SighashFields (m : MsgRemoveLiquidityShielded) : outcome (list Z) :=
  erthPc ← pcField (rs_ErthPc m);
  tokenPc ← pcField (rs_TokenPc m);
  mret [U64 (rs_PoolId m); erthPc; Bytes (rs_ErthCiphertext m); tokenPc; Bytes (rs_TokenCiphertext m)].

Definition NoteSwap_wire (m : MsgNoteSwap) : ProtoValue :=
  PV_message [bundle_wire (ns_Bundle m); PV_string (ns_DenomOut m); PV_uint64 (ns_MinAmountOut m); PV_bytes (ns_Pc m);
    PV_bytes (ns_Ciphertext m); PV_string (ns_DenomIn m); PV_uint64 (ns_AmountIn m)].
Definition AddShielded_wire (m : MsgAddLiquidityShielded) : ProtoValue :=
  PV_message [bundle_wire (as_Bundle m); PV_uint64 (as_PoolId m); PV_string (as_MinShares m);
    PV_bytes (as_RefundPc m); PV_bytes (as_RefundCiphertext m); PV_bytes (as_SharePc m);
    PV_bytes (as_ShareCiphertext m); PV_uint64 (as_ErthAmount m)].
Definition RemoveShielded_wire (m : MsgRemoveLiquidityShielded) : ProtoValue :=
  PV_message [bundle_wire (rs_Bundle m); PV_uint64 (rs_PoolId m); PV_bytes (rs_ErthPc m);
    PV_bytes (rs_ErthCiphertext m); PV_bytes (rs_TokenPc m); PV_bytes (rs_TokenCiphertext m)].

Definition NoteSwap_private (m : MsgNoteSwap) : PrivateMsg := {|
  pm_TypeURL := TypeMsgNoteSwap; pm_Bytes := proto_Marshal TypeMsgNoteSwap (NoteSwap_wire m);
  pm_Bundles := [ns_Bundle m]; pm_Fee := NoteSwap_PrivateFee m;
  pm_SighashFields := NoteSwap_SighashFields m; pm_UnshieldReceiver := None |}.
Definition AddShielded_private (m : MsgAddLiquidityShielded) : PrivateMsg := {|
  pm_TypeURL := TypeMsgAddLiquidityShielded;
  pm_Bytes := proto_Marshal TypeMsgAddLiquidityShielded (AddShielded_wire m);
  pm_Bundles := [as_Bundle m]; pm_Fee := AddShielded_PrivateFee m;
  pm_SighashFields := AddShielded_SighashFields m; pm_UnshieldReceiver := None |}.
Definition RemoveShielded_private (m : MsgRemoveLiquidityShielded) : PrivateMsg := {|
  pm_TypeURL := TypeMsgRemoveLiquidityShielded;
  pm_Bytes := proto_Marshal TypeMsgRemoveLiquidityShielded (RemoveShielded_wire m);
  pm_Bundles := [rs_Bundle m]; pm_Fee := RemoveShielded_PrivateFee m;
  pm_SighashFields := RemoveShielded_SighashFields m; pm_UnshieldReceiver := None |}.

(** The legs' denoms assigned in the order of the release map. *)
Fixpoint assign_legs (rem : list Coin) (legs : Coin * Coin) : outcome (Coin * Coin) :=
  match rem with
  | [] => mret legs
  | r :: rem =>
      c ← NewCoin (Denom r) (Amount r);
      assign_legs rem (if bool_decide (Denom r = FeeDenom) then (c, snd legs) else (fst legs, c))
  end.

(** [Legs]: (erth, token). *)
Definition Legs (m : MsgAddLiquidityShielded) : outcome (Coin * Coin) :=
  match Remainders (AddShielded_private m) with
  | Ok [a; b] => assign_legs [a; b] (zero_coin, zero_coin)
  | Panic => Panic
  | _ => mret (zero_coin, zero_coin)
  end.

(** ** note_paths.go *)
Definition ReleasedDenoms (msg : DexPrivateMsg) : outcome (list string) :=
  match msg with
  | NoteSwapMsg m => mret [Denom (NoteSwap_In m)]
  | AddLiquidityShieldedMsg m => '(erth, token) ← Legs m; mret [Denom erth; Denom token]
  | RemoveLiquidityShieldedMsg m => mret [LPShareDenom (rs_PoolId m)]
  end.

Definition checkRoute (denomIn denomOut : string) : M () :=
  hub ← HubDenom;
  for_each [denomIn; denomOut] (λ d,
    if bool_decide (d = hub) then mret ()
    else
      ok ← HasPoolForToken d;
      refuse_if (negb ok) ErrPoolNotFound).

Definition checkNoteSwap (m : MsgNoteSwap) : M () :=
  checkRoute (Denom (NoteSwap_In m)) (ns_DenomOut m);;
  checkNoteOut (ns_DenomOut m) (ns_Pc m) (ns_Ciphertext m).

(** (token out, position) *)
Definition executeNoteSwap (m : MsgNoteSwap) : M (Coin * Z) :=
  tokenIn ← shielded (ReleaseToModule (NoteSwap_private m) (Denom (NoteSwap_In m)) ModuleName);
  out ← swapExactIn held held tokenIn (ns_DenomOut m) (ns_MinAmountOut m);
  '(pos, _) ← shielded (MintNote ModuleName out (ns_Pc m) (ns_Ciphertext m));
  mret (out, pos).

Definition BuyAnml (m : MsgBuyAnml) : M (Coin * Z) :=
  creator ← lift (StringToBytes (ba_Creator m));
  minOut ← lift (if bool_decide (ba_MinAmountOut m = "") then Ok 0 else parse_min (ba_MinAmountOut m));
  checkNoteOut AnmlDenom (ba_Pc m) (ba_Ciphertext m);;
  out ← swapExactIn (account_party creator) held (ba_TokenIn m) AnmlDenom minOut;
  '(pos, _) ← shielded (MintNote ModuleName out (ba_Pc m) (ba_Ciphertext m));
  mret (out, pos).

Definition checkAddShielded (m : MsgAddLiquidityShielded) : M () :=
  pool ← or_error (PoolGet (as_PoolId m)) ErrPoolNotFound;
  '(erth, token) ← lift (Legs m);
  refuse_if (negb (bool_decide (Denom token = Denom (pl_ReserveToken pool))) ||
             negb (bool_decide (Denom erth = Denom (pl_ReserveErth pool)))) ErrInvalidDenom;;
  st ← gets w_pool_state;
  lift (CheckMint (as_SharePc m) (as_ShareCiphertext m) st);;
  checkNoteOut (Denom (pl_ReserveToken pool)) (as_RefundPc m) (as_RefundCiphertext m).

(** (shares, refund ERTH, refund token, share position) *)
Definition executeAddShielded (m : MsgAddLiquidityShielded) : M (Coin * Coin * Coin * Z) :=
  '(erth, token) ← lift (Legs m);
  tokenIn ← shielded (ReleaseToModule (AddShielded_private m) (Denom token) ModuleName);
  erthIn ← shielded (ReleaseToModule (AddShielded_private m) (Denom erth) ModuleName);
  '(shares, depErth, depTok) ← deposit (as_PoolId m) erthIn tokenIn (as_MinShares m) None (λ _ _, mret ());
  _ ← shielded (RegisterAsset (Denom shares));
  '(sharePos, _) ← shielded (MintNote ModuleName shares (as_SharePc m) (as_ShareCiphertext m));
  refundErth ← lift (CoinSub erthIn depErth);
  refundToken ← lift (CoinSub tokenIn depTok);
  for_each [refundErth; refundToken] (λ c,
    if 0 <? Amount c then
      _ ← shielded (MintNote ModuleName c (as_RefundPc m) (as_RefundCiphertext m));
      mret ()
    else mret ());;
  mret (shares, refundErth, refundToken, sharePos).

Definition checkRemoveShielded (m : MsgRemoveLiquidityShielded) : M () :=
  pool ← or_error (PoolGet (rs_PoolId m)) ErrPoolNotFound;
  checkNoteOut (Denom (pl_ReserveErth pool)) (rs_ErthPc m) (rs_ErthCiphertext m);;
  checkNoteOut (Denom (pl_ReserveToken pool)) (rs_TokenPc m) (rs_TokenCiphertext m).

Definition executeRemoveShielded (m : MsgRemoveLiquidityShielded) : M Z :=
  checkRemoveShielded m;;
  shares ← shielded (ReleaseToModule (RemoveShielded_private m) (LPShareDenom (rs_PoolId m)) ModuleName);
  pool ← PoolGet (rs_PoolId m);
  total ← totalShares (rs_PoolId m);
  lift (checkWithdrawalNoteLegs pool (Amount shares) total true true);;
  params ← item k_Params;
  t ← now;
  let completion := wrap_i64 (t + wrap_i64 (LpUnbondingSeconds params)) in
  let id := WithdrawalID m in
  let entry := {| ub_Address := ""; ub_PoolId := rs_PoolId m; ub_Shares := shares;
                  ub_CompletionTime := completion; ub_Pc := rs_TokenPc m; ub_Ciphertext := rs_TokenCiphertext m;
                  ub_ErthPc := rs_ErthPc m; ub_ErthCiphertext := rs_ErthCiphertext m;
                  ub_WithdrawalId := id; ub_PayoutAttempts := 0 |} in
  setLpUnbonding (completion, rs_PoolId m, id) entry;;
  mret completion.

Definition CheckPrivateAction (msg : DexPrivateMsg) : M () :=
  match msg with
  | NoteSwapMsg m => checkNoteSwap m
  | AddLiquidityShieldedMsg m => checkAddShielded m
  | RemoveLiquidityShieldedMsg m => checkRemoveShielded m
  end.

(** [ExecutePrivateAction]; the results are the handlers' responses. *)
Definition ExecutePrivateAction (msg : DexPrivateMsg) : M () :=
  match msg with
  | NoteSwapMsg m => _ ← executeNoteSwap m; mret ()
  | AddLiquidityShieldedMsg m => _ ← executeAddShielded m; mret ()
  | RemoveLiquidityShieldedMsg m => _ ← executeRemoveShielded m; mret ()
  end.
End dex_notes.

Section dex_notes_inv.
Context `{HostLaws, !ShieldedKeeper, !ShieldedLaws}.
Implicit Types (w : World) (δ : string → Z).

Lemma Release_upto δ msg d w c w' :
  inv_upto δ w → shielded (ReleaseToModule msg d ModuleName) w = Ok (c, w') →
  inv_upto (λ d', δ d' + AmountOf [c] d') w' ∧ Denom c = d ∧ 0 < Amount c ∧ w_dex w' = w_dex w ∧
  w_nanos w' = w_nanos w ∧
  moved w w' (λ a d', at_ dex_addr (AmountOf [c]) a d' - at_ shielded_addr (AmountOf [c]) a d').
Proof.
  intros Hi Hr. apply shielded_ok in Hr as (b & s & Hr & ->).
  apply ReleaseToModule_spec in Hr as (Hd & Hp & Hm). fold shielded_addr dex_addr in *.
  assert (moved w (set_w_pool_state (b, s) w) (λ a d', at_ dex_addr (AmountOf [c]) a d' - at_ shielded_addr (AmountOf [c]) a d')) as Hmv.
  { destruct Hm as [Hb _]. intros a d'. cbn. rewrite Hb, !bd_some. unfold at_, shielded_addr, dex_addr. lia. }
  split_and!; try done.
  pose proof (inv_upto_moved _ _ (set_w_pool_state (b, s) w) _ Hi eq_refl Hmv) as Hi'.
  eapply inv_upto_weaken; [exact Hi'|intros d' _|intros i _]; cbv beta;
    rewrite at_eq, at_ne by (apply not_eq_sym, shielded_ne_dex); lia.
Qed.

Lemma released_supply msg d w c w' d' :
  shielded (ReleaseToModule msg d ModuleName) w = Ok (c, w') → GetSupply (w_bank w') d' = GetSupply (w_bank w) d'.
Proof.
  intros Hr. apply shielded_ok in Hr as (b & s & Hr & ->). apply ReleaseToModule_spec in Hr as (_ & _ & _ & Hs).
  cbn. rewrite Hs, !bd_none. lia.
Qed.

Lemma MintNote_upto δ c pc ct w r w' :
  inv_upto δ w → shielded (MintNote ModuleName c pc ct) w = Ok (r, w') →
  inv_upto (λ d, δ d - AmountOf [c] d) w' ∧ w_dex w' = w_dex w ∧ w_nanos w' = w_nanos w ∧
  moved w w' (λ a d', at_ shielded_addr (AmountOf [c]) a d' - at_ dex_addr (AmountOf [c]) a d').
Proof.
  intros Hi Hr. apply shielded_ok in Hr as (b & s & Hr & ->).
  destruct r as [pos rcm]. apply MintNote_spec in Hr as Hm.
  assert (moved w (set_w_pool_state (b, s) w) (λ a d', at_ shielded_addr (AmountOf [c]) a d' - at_ dex_addr (AmountOf [c]) a d')) as Hmv.
  { destruct Hm as [Hb _]. intros a d'. cbn. rewrite Hb, !bd_some. unfold at_, shielded_addr, dex_addr. lia. }
  split_and!; try done.
  pose proof (inv_upto_moved _ _ (set_w_pool_state (b, s) w) _ Hi eq_refl Hmv) as Hi'.
  eapply inv_upto_weaken; [exact Hi'|intros d' _|intros i _]; cbv beta;
    rewrite at_eq, at_ne by (apply not_eq_sym, shielded_ne_dex); lia.
Qed.

Lemma swapExactIn_upto δ from to tokenIn denomOut minOut w out w' :
  inv_upto δ w → outside from → outside to →
  swapExactIn from to tokenIn denomOut minOut w = Ok (out, w') →
  inv_upto (λ d, δ d - (if sp_held from then AmountOf [tokenIn] d else 0)
                     + (if sp_held to then AmountOf [out] d else 0)) w' ∧
  Denom out = denomOut ∧ 0 < Amount out ∧ minOut ≤ Amount out ∧
  (∀ a d, a ≠ dex_addr → GetBalance (w_bank w') a d = GetBalance (w_bank w) a d
     - (if negb (sp_held from) && bool_decide (a = party_addr from) then AmountOf [tokenIn] d else 0)
     + (if negb (sp_held to) && bool_decide (a = party_addr to) then AmountOf [out] d else 0)).
Proof.
  intros Hi Hf Ht Hr. unfold swapExactIn in Hr. apply bind_ok in Hr as ([o fees] & w1 & Hr & [= -> ->]%ret_ok).
  by destruct (swapExactInFees_upto _ _ _ _ _ _ _ _ _ _ Hi Hf Ht Hr) as (? & ? & ? & ? & _ & ? & _).
Qed.

Lemma held_outside : outside held.
Proof. by left. Qed.
Lemma account_outside a : a ≠ dex_addr → outside (account_party a).
Proof. intros. right. by right. Qed.

(** A private swap: the released coin is swapped whole, and the whole output becomes the note. *)
Lemma executeNoteSwap_spec m w out pos w' :
  dex_inv w → executeNoteSwap m w = Ok (out, pos, w') →
  dex_inv w' ∧ Denom out = ns_DenomOut m ∧ 0 < Amount out ∧ ns_MinAmountOut m ≤ Amount out ∧
  ∃ tokenIn, Denom tokenIn = ns_DenomIn m ∧ 0 < Amount tokenIn ∧
    (∀ a d, a ≠ dex_addr → GetBalance (w_bank w') a d = GetBalance (w_bank w) a d
       + at_ shielded_addr (λ d, AmountOf [out] d - AmountOf [tokenIn] d) a d).
Proof.
  intros Hi%dex_inv_upto Hr. unfold executeNoteSwap in Hr.
  apply bind_ok in Hr as (c & w1 & Hrel & Hr). apply (Release_upto _ _ _ _ _ _ Hi) in Hrel as (Hi1 & Hdc & Hpc & _ & _ & Hm1).
  apply bind_ok in Hr as (o & w2 & Hsw & Hr).
  apply (swapExactIn_upto _ _ _ _ _ _ _ _ _ Hi1 held_outside held_outside) in Hsw as (Hi2 & Hd & Hp & Hm & Hb2). cbn in Hi2.
  apply bind_ok in Hr as ([p r] & w3 & Hmint & [= -> -> ->]%ret_ok).
  apply (MintNote_upto _ _ _ _ _ _ _ Hi2) in Hmint as (Hi3 & _ & _ & Hm3).
  split; [|split_and!; try done; exists c; split_and!; try done].
  2:{ intros a d Ha. rewrite Hm3, Hb2, Hm1, !(at_ne a dex_addr) by done. cbn. unfold at_. case_bool_decide; lia. }
  apply dex_inv_upto. eapply inv_upto_weaken; [exact Hi3|intros; cbv beta; lia..].
Qed.

Lemma BuyAnml_spec m w out pos w' :
  dex_inv w → StringToBytes (ba_Creator m) ≠ Ok dex_addr → BuyAnml m w = Ok (out, pos, w') →
  dex_inv w' ∧ Denom out = AnmlDenom ∧ 0 < Amount out ∧
  ∃ buyer, StringToBytes (ba_Creator m) = Ok buyer ∧
    (∀ a d, a ≠ dex_addr → GetBalance (w_bank w') a d = GetBalance (w_bank w) a d
       - at_ buyer (AmountOf [ba_TokenIn m]) a d + at_ shielded_addr (AmountOf [out]) a d).
Proof.
  intros Hi%dex_inv_upto Hne Hr. unfold BuyAnml in Hr.
  apply bind_ok in Hr as (cr & w1 & [Hcr ->]%lift_ok & Hr).
  apply bind_ok in Hr as (mo & w1 & [_ ->]%lift_ok & Hr).
  apply bind_ok in Hr as ([] & w1 & ->%checkNoteOut_ok & Hr).
  apply bind_ok in Hr as (o & w2 & Hsw & Hr).
  apply (swapExactIn_upto _ _ _ _ _ _ _ _ _ Hi) in Hsw as (Hi2 & Hd & Hp & Hm & Hb2);
    [|apply account_outside; congruence|exact held_outside]. cbn in Hi2.
  apply bind_ok in Hr as ([p r] & w3 & Hmint & [= -> -> ->]%ret_ok).
  apply (MintNote_upto _ _ _ _ _ _ _ Hi2) in Hmint as (Hi3 & _ & _ & Hm3).
  split; [|split_and!; try done; exists cr; split; [done|]].
  2:{ intros a d Ha. rewrite Hm3, Hb2, (at_ne a dex_addr) by done. 
      change (party_addr (account_party cr)) with cr. unfold at_. cbn. repeat case_bool_decide; lia. }
  apply dex_inv_upto. eapply inv_upto_weaken; [exact Hi3|intros; cbv beta; lia..].
Qed.

(** The refunds of a private deposit, minted one by one. *)
Lemma refunds_upto δ pc ct l w w' :
  inv_upto δ w → (∀ c, c ∈ l → 0 ≤ Amount c) →
  for_each l (λ c, if 0 <? Amount c then _ ← shielded (MintNote ModuleName c pc ct); mret () else mret ()) w = Ok ((), w') →
  inv_upto (λ d, δ d - AmountOf l d) w' ∧
  moved w w' (λ a d, at_ shielded_addr (AmountOf l) a d - at_ dex_addr (AmountOf l) a d).
Proof.
  revert δ w. induction l as [|c l IH]; intros δ w Hi Hl Hr.
  - apply ret_ok in Hr as [= ->]. split.
    + eapply inv_upto_weaken; [exact Hi|intros; rewrite AmountOf_nil; lia..].
    + intros a d. unfold at_. rewrite AmountOf_nil. repeat case_bool_decide; lia.
  - apply bind_ok in Hr as ([] & w1 & Hc & Hr).
    assert (inv_upto (λ d, δ d - AmountOf [c] d) w1 ∧
      moved w w1 (λ a d, at_ shielded_addr (AmountOf [c]) a d - at_ dex_addr (AmountOf [c]) a d)) as [Hi1 Hm1].
    { destruct (Z.ltb_spec 0 (Amount c)) as [Hp|Hp].
      - apply bind_ok in Hc as (r & w2 & Hm & [= ->]%ret_ok). by apply (MintNote_upto _ _ _ _ _ _ _ Hi) in Hm as (? & _ & _ & ?).
      - apply ret_ok in Hc as [= ->]. assert (Amount c = 0) as Hz by (pose proof (Hl c ltac:(left)); lia). split.
        + eapply inv_upto_weaken; [exact Hi|intros; rewrite AmountOf_coin, Hz; case_bool_decide; lia..].
        + intros a d. unfold at_. rewrite AmountOf_coin, Hz. repeat case_bool_decide; lia. }
    apply (IH _ _ Hi1) in Hr as [Hr Hm2]; [|intros x Hx; apply Hl; by right]. split.
    + eapply inv_upto_weaken; [exact Hr|intros d _|intros i _]; cbv beta;
        rewrite AmountOf_coin, AmountOf_cons; lia.
    + intros a d. rewrite (moved_trans _ _ _ _ _ Hm1 Hm2 a d). unfold at_. rewrite AmountOf_coin, (AmountOf_cons c).
      repeat case_bool_decide; lia.
Qed.

Lemma executeAddShielded_spec m w sh re rt pos w' :
  dex_inv w → executeAddShielded m w = Ok (sh, re, rt, pos, w') →
  dex_inv w' ∧ Denom sh = LPShareDenom (as_PoolId m) ∧ 0 < Amount sh ∧
  ∃ p eI tI dE dT, k_Pool (w_dex w) !! as_PoolId m = Some p ∧
    deposit_priced (Amount (pl_ReserveErth p) + settle_owed (w_dex w) (as_PoolId m) p) (Amount (pl_ReserveToken p))
      (GetSupply (w_bank w) (LPShareDenom (as_PoolId m))) eI tI sh dE dT ∧
    check_min_shares (as_MinShares m) (Amount sh) = Ok () ∧
    0 ≤ Amount re ∧ 0 ≤ Amount rt ∧ Amount re = Amount eI - Amount dE ∧ Amount rt = Amount tI - Amount dT ∧
    (∀ a d, a ≠ dex_addr → GetBalance (w_bank w') a d = GetBalance (w_bank w) a d
       + at_ shielded_addr (λ d, AmountOf [sh] d - AmountOf [dE; dT] d) a d).
Proof.
  intros Hi%dex_inv_upto Hr. unfold executeAddShielded in Hr.
  apply bind_ok in Hr as ([erth token] & w1 & [_ ->]%lift_ok & Hr).
  apply bind_ok in Hr as (ti & w1 & Hrel1 & Hr). pose proof Hrel1 as Hrel1'. apply (Release_upto _ _ _ _ _ _ Hi) in Hrel1 as (Hi1 & _ & _ & Hw1 & _ & Hm1).
  apply bind_ok in Hr as (ei & w2 & Hrel2 & Hr). pose proof Hrel2 as Hrel2'. apply (Release_upto _ _ _ _ _ _ Hi1) in Hrel2 as (Hi2 & _ & _ & Hw2 & _ & Hm2).
  apply bind_ok in Hr as ([[s dE] dT] & w3 & Hdep & Hr).
  eapply (deposit_upto _ _ _ _ _ _ _ (λ _ _ _ _, 0)) in Hdep as (Hi3 & Hb3 & Hds & p & Hp & HdE & HdT & Hpr & _ & Hmin);
    [|exact Hi2| |apply GetSupply_nonneg].
  2:{ intros e t v u v' [= -> ->]%ret_ok. split; [done|]. split; [by apply moved_refl|done]. }
  apply bind_ok in Hr as (reg & w4 & Hreg & Hr). apply shielded_ok in Hreg as (b & st & Hreg & ->).
  apply RegisterAsset_spec in Hreg as ->.
  assert (inv_upto (λ d, 0 + AmountOf [ti] d + AmountOf [ei] d + 0 - AmountOf [dE; dT] d + AmountOf [s] d)
    (set_w_pool_state (w_bank w3, st) w3)) as Hi4 by (by destruct Hi3; split).
  apply bind_ok in Hr as ([pp rr] & w5 & Hmint & Hr).
  apply (MintNote_upto _ _ _ _ _ _ _ Hi4) in Hmint as (Hi5 & _ & _ & Hm5).
  apply bind_ok in Hr as (refE & w6 & [(HE1 & -> & HE2)%CoinSub_spec ->]%lift_ok & Hr).
  apply bind_ok in Hr as (refT & w6 & [(HT1 & -> & HT2)%CoinSub_spec ->]%lift_ok & Hr).
  apply bind_ok in Hr as ([] & w6 & Hloop & [= -> -> -> -> ->]%ret_ok). cbn in HE2, HT2.
  apply (refunds_upto _ _ _ _ _ _ Hi5) in Hloop as [Hi6 Hm6].
  2:{ intros c [->|[->|[]%elem_of_nil]%elem_of_cons]%elem_of_cons; done. }
  split; [|split; [done|split; [apply Hpr|]]].
  2:{ rewrite Hw2, Hw1 in Hp. rewrite Hw2, Hw1, (released_supply _ _ _ _ _ _ Hrel2'), (released_supply _ _ _ _ _ _ Hrel1') in Hpr.
      exists p, ei, ti, dE, dT. split_and!; try done.
      intros a d Ha. rewrite Hm6, Hm5. cbn [w_bank set_w_pool_state]. rewrite Hb3, Hm2, Hm1, !(at_ne a dex_addr) by done.
      unfold at_. rewrite !(AmountOf_pair), (AmountOf_cons dE), !AmountOf_coin, HE1, HT1. cbn.
      rewrite (bool_decide_eq_false_2 (a = dex_addr)) by done. repeat case_bool_decide; lia. }
  apply dex_inv_upto. eapply inv_upto_weaken; [exact Hi6|intros d _|intros i _]; cbv beta;
    rewrite AmountOf_pair, (AmountOf_cons dE), !AmountOf_coin, HE1, HT1; repeat case_bool_decide; lia.
Qed.

(** A withdrawal id that no entry of the queue carries: the id is a nullifier the bundle spends, and the
    pool spends a nullifier once. *)
Definition fresh_withdrawal (m : MsgRemoveLiquidityShielded) (w : World) : Prop :=
  ∀ t id, k_LpUnbondings (w_dex w) !! (t, id, WithdrawalID m) = None.

Lemma checkRemoveShielded_ok m w u w' :
  checkRemoveShielded m w = Ok (u, w') → w' = w ∧ is_Some (k_Pool (w_dex w) !! rs_PoolId m).
Proof.
  unfold checkRemoveShielded. intros Hr.
  apply bind_ok in Hr as (p & w1 & [Hp ->]%or_error_ok%PoolGet_ok & Hr).
  apply bind_ok in Hr as ([] & w1 & ->%checkNoteOut_ok & ->%checkNoteOut_ok). split; [done|by eexists].
Qed.

(** A private withdrawal files one entry for the released shares and moves nothing else. *)
Lemma executeRemoveShielded_spec m w t w' :
  dex_inv w → fresh_withdrawal m w → executeRemoveShielded m w = Ok (t, w') →
  dex_inv w' ∧ ∃ u, w_dex w' = with_entry (t, rs_PoolId m, WithdrawalID m) u (w_dex w) ∧
    ub_Address u = "" ∧ ub_PoolId u = rs_PoolId m ∧ 0 < Amount (ub_Shares u) ∧
    moved w w' (λ a d, at_ dex_addr (AmountOf [ub_Shares u]) a d - at_ shielded_addr (AmountOf [ub_Shares u]) a d).
Proof.
  intros Hi%dex_inv_upto Hf Hr. unfold executeRemoveShielded in Hr.
  apply bind_ok in Hr as ([] & w1 & [-> Hpool]%checkRemoveShielded_ok & Hr).
  apply bind_ok in Hr as (c & w1 & Hrel & Hr). apply (Release_upto _ _ _ _ _ _ Hi) in Hrel as (Hi1 & Hd & Hp & Hd1 & _ & Hm).
  apply bind_ok in Hr as (p & w2 & [_ ->]%PoolGet_ok & Hr).
  apply bind_ok in Hr as (tot & w2 & [-> ->]%get_bank_ok & Hr).
  apply bind_ok in Hr as ([] & w2 & [_ ->]%lift_ok & Hr).
  apply bind_ok in Hr as (ps & w2 & [_ ->]%item_ok & Hr).
  apply bind_ok in Hr as (tm & w2 & [-> ->]%now_ok & Hr). cbv zeta in Hr.
  set (cpl := wrap_i64 _) in *. set (u := Build_LpUnbonding _ _ _ _ _ _ _ _ _ _) in *.
  apply bind_ok in Hr as ([] & w2 & ->%setLpUnbonding_ok & [= -> ->]%ret_ok).
  assert (entry_ok (w_dex w1) (cpl, rs_PoolId m, WithdrawalID m) u) as Hok.
  { unfold entry_ok. cbn. rewrite Hd1. split_and!; done. }
  pose proof (with_entry_upto _ _ _ _ Hi1 Hok) as Hi2. rewrite Hd1, (Hf cpl (rs_PoolId m)) in Hi2.
  split; [|exists u; cbn; rewrite Hd1; split_and!; done].
  apply dex_inv_upto. eapply inv_upto_weaken; [exact Hi2|intros; cbn; lia..].
Qed.
End dex_notes_inv.

(** ** Properties *)
Section notes_properties.
Context `{HostLaws, !ShieldedKeeper, !ShieldedLaws}.
Implicit Types w : World.

(** A private swap is swapped whole: one coin of the msg's denom is released by the shielded pool, the
    whole output (at least the minimum) goes back to it as a note, no other account changes, and
    the module ends with exactly what it owes. *)
Theorem note_swap_conserves m w out pos w' :
  dex_inv w → executeNoteSwap m w = Ok (out, pos, w') →
  ∃ tokenIn, Denom tokenIn = ns_DenomIn m ∧ 0 < Amount tokenIn ∧
    Denom out = ns_DenomOut m ∧ 0 < Amount out ∧ ns_MinAmountOut m ≤ Amount out ∧
    (∀ d, GetBalance (w_bank w') shielded_addr d =
       GetBalance (w_bank w) shielded_addr d - AmountOf [tokenIn] d + AmountOf [out] d) ∧
    (∀ a d, a ≠ shielded_addr → a ≠ dex_addr → GetBalance (w_bank w') a d = GetBalance (w_bank w) a d) ∧
    solvent (w_bank w') (w_dex w').
Proof.
  intros Hi Hr. apply executeNoteSwap_spec in Hr as (Hi' & Hd & Hp & Hm & c & Hc1 & Hc2 & Hb); [|done].
  pose proof shielded_ne_dex. exists c. split_and!; try done.
  - intros d. rewrite Hb, at_eq by done. lia.
  - intros a d Hn1 Hn2. rewrite Hb, at_ne by done. lia.
  - apply (di_solvent _ Hi').
Qed.

(** A private deposit is priced like a public one and refunds the rest: of the two released coins the
    pool keeps what the granted shares cost (never less than the shares' part of each reserve), the
    shares (at least the minimum) and both refunds go back to the shielded pool, no other account
    changes, and the module ends with exactly what it owes. *)
Theorem private_deposit_conserves m w sh refundE refundT pos w' :
  dex_inv w → executeAddShielded m w = Ok (sh, refundE, refundT, pos, w') →
  ∃ p erthIn tokenIn, k_Pool (w_dex w) !! as_PoolId m = Some p ∧
    let total := GetSupply (w_bank w) (LPShareDenom (as_PoolId m)) in
    let dE := Amount erthIn - Amount refundE in
    let dT := Amount tokenIn - Amount refundT in
    Denom sh = LPShareDenom (as_PoolId m) ∧ 0 < Amount sh ∧
    check_min_shares (as_MinShares m) (Amount sh) = Ok () ∧
    0 < dE ≤ Amount erthIn ∧ 0 < dT ≤ Amount tokenIn ∧
    (total ≠ 0 → Amount sh * (Amount (pl_ReserveErth p) + settle_owed (w_dex w) (as_PoolId m) p) ≤ dE * total ∧
                 Amount sh * Amount (pl_ReserveToken p) ≤ dT * total) ∧
    (total = 0 → Amount sh = Z.sqrt (Amount erthIn * Amount tokenIn)) ∧
    (∀ d, GetBalance (w_bank w') shielded_addr d = GetBalance (w_bank w) shielded_addr d
       - AmountOf [mkCoin (Denom erthIn) dE; mkCoin (Denom tokenIn) dT] d + AmountOf [sh] d) ∧
    (∀ a d, a ≠ shielded_addr → a ≠ dex_addr → GetBalance (w_bank w') a d = GetBalance (w_bank w) a d) ∧
    solvent (w_bank w') (w_dex w').
Proof.
  intros Hi Hr. apply executeAddShielded_spec in Hr as
    (Hi' & Hd & Hp & p & eI & tI & dE & dT & Hpp & Hpr & Hmin & Hr1 & Hr2 & Hre & Hrt & Hb); [|done].
  destruct Hpr as (E1 & E2 & E3 & E4 & E5 & E6 & E7). pose proof shielded_ne_dex.
  exists p, eI, tI. cbv zeta. replace (Amount eI - Amount refundE) with (Amount dE) by lia.
  replace (Amount tI - Amount refundT) with (Amount dT) by lia.
  split_and!; try done; try lia.
  - intros d. rewrite Hb, at_eq, <-E1, <-E2 by done. destruct dE, dT. cbn. lia.
  - intros a d Hn1 Hn2. rewrite Hb, at_ne by done. lia.
  - apply (di_solvent _ Hi').
Qed.

(** A private withdrawal escrows the released shares: one entry, without an owner's address and under
    the spent nullifier, is filed for exactly the released shares; they move from the shielded pool
    to the module, no other entry and no pool changes, and no other account does. *)
Theorem private_withdrawal_escrows m w t w' :
  dex_inv w → fresh_withdrawal m w → executeRemoveShielded m w = Ok (t, w') →
  ∃ u, k_LpUnbondings (w_dex w') = <[(t, rs_PoolId m, WithdrawalID m) := u]> (k_LpUnbondings (w_dex w)) ∧
    k_LpUnbondings (w_dex w) !! (t, rs_PoolId m, WithdrawalID m) = None ∧
    ub_Address u = "" ∧ ub_PoolId u = rs_PoolId m ∧
    Denom (ub_Shares u) = LPShareDenom (rs_PoolId m) ∧ 0 < Amount (ub_Shares u) ∧
    k_Pool (w_dex w') = k_Pool (w_dex w) ∧
    (∀ d, GetBalance (w_bank w') shielded_addr d = GetBalance (w_bank w) shielded_addr d - AmountOf [ub_Shares u] d) ∧
    (∀ d, GetBalance (w_bank w') dex_addr d = GetBalance (w_bank w) dex_addr d + AmountOf [ub_Shares u] d) ∧
    (∀ a d, a ≠ shielded_addr → a ≠ dex_addr → GetBalance (w_bank w') a d = GetBalance (w_bank w) a d).
Proof.
  intros Hi Hf Hr. apply executeRemoveShielded_spec in Hr as (Hi' & u & Hd & Ha & Hp & Hpos & Hm); [|done..].
  assert (entry_ok (w_dex w') (t, rs_PoolId m, WithdrawalID m) u) as (_ & _ & E3 & _).
  { apply unbond_inv_entry; [apply Hi'|]. rewrite Hd. cbn. by rewrite lookup_insert_eq. }
  pose proof shielded_ne_dex as Hne. exists u. rewrite Hd. split_and!; try done.
  - intros d. rewrite Hm, at_eq, at_ne by done. lia.
  - intros d. rewrite Hm, at_eq, at_ne by (by apply not_eq_sym). lia.
  - intros a d Hn1 Hn2. rewrite Hm, !at_ne by done. lia.
Qed.
End notes_properties.
