(* ===== verification/DexMsgs.v ===== *)
(** * x/dex: the stateless checks of its private messages

    The [ValidateBasic] methods of [x/dex/types/msgs_private.go].  The point of them is in the property below: what a msg
    that passes takes out of the shielded pool is its fee and, to the unit, what its handler then works with. *)

From S2P Require Export DexNotes ShieldedBundle.

Section dex_msgs.
Context `{Host, !ShieldedKeeper} `{Grumpkin}.

Definition checkNote (pc ct : bytes) : outcome () :=
  _ ← pcField pc;
  wrap_error (CheckBlindCiphertext ct) ErrInvalidPrivateMsg.

Definition remainders (m : PrivateMsg) : outcome (list Coin) :=
  _ ← ValidateBundles m;
  rem ← Remainders m;
  _ ← refuse (length rem =? 0)%nat ErrInvalidPrivateMsg;
  mret rem.

Definition NoteSwap_ValidateBasic (m : MsgNoteSwap) : outcome () :=
  _ ← refuse (negb (ValidateDenom (ns_DenomIn m))) ErrInvalidDenom;
  _ ← refuse (ns_AmountIn m =? 0) ErrInvalidAmount;
  rem ← remainders (NoteSwap_private m);
  _ ← refuse (NoteSwap_PrivateFee m =? 0) ErrInvalidPrivateMsg;
  _ ← refuse (match rem with
              | [r] => negb (bool_decide (Denom r = ns_DenomIn m)) || negb (Amount r =? ns_AmountIn m)
              | _ => true
              end) ErrInvalidPrivateMsg;
  _ ← refuse (negb (ValidateDenom (ns_DenomOut m))) ErrInvalidDenom;
  _ ← refuse (bool_decide (ns_DenomOut m = ns_DenomIn m)) ErrInvalidDenom;
  _ ← refuse (ns_MinAmountOut m =? 0) ErrInvalidPrivateMsg;
  checkNote (ns_Pc m) (ns_Ciphertext m).

(** [Int.String] of a value is its decimal digits.  The legs' amounts are [uint64]s, so [Uint64] reads them as they are. *)
Definition AddShielded_ValidateBasic (m : MsgAddLiquidityShielded) : outcome () :=
  rem ← remainders (AddShielded_private m);
  _ ← refuse ((as_ErthAmount m =? 0) || (AddShielded_PrivateFee m =? 0)) ErrInvalidPrivateMsg;
  '(erth, token) ← Legs m;
  _ ← refuse (negb (length rem =? 2)%nat || negb (CoinIsValid erth) || negb (CoinIsValid token) ||
              (Amount erth =? 0) || (Amount token =? 0) || negb (Amount erth =? as_ErthAmount m)) ErrInvalidDenom;
  _ ← refuse (negb (bool_decide (as_MinShares m = "")) &&
              match NewIntFromString (as_MinShares m) with
              | None => true
              | Some v => (v <? 0) || negb (bool_decide (pretty v = as_MinShares m))
              end) ErrInvalidAmount;
  _ ← checkNote (as_SharePc m) (as_ShareCiphertext m);
  checkNote (as_RefundPc m) (as_RefundCiphertext m).

Definition RemoveShielded_ValidateBasic (m : MsgRemoveLiquidityShielded) : outcome () :=
  rem ← remainders (RemoveShielded_private m);
  _ ← refuse (RemoveShielded_PrivateFee m =? 0) ErrInvalidPrivateMsg;
  _ ← refuse (match rem with
              | [r] => negb (bool_decide (Denom r = LPShareDenom (rs_PoolId m)))
              | _ => true
              end) ErrInvalidDenom;
  _ ← checkNote (rs_ErthPc m) (rs_ErthCiphertext m);
  checkNote (rs_TokenPc m) (rs_TokenCiphertext m).

Definition BuyAnml_ValidateBasic (m : MsgBuyAnml) : outcome () :=
  _ ← refuse (negb (CoinIsValid (ba_TokenIn m)) || negb (0 <? Amount (ba_TokenIn m))) ErrInvalidAmount;
  _ ← refuse (bool_decide (Denom (ba_TokenIn m) = AnmlDenom)) ErrInvalidDenom;
  _ ← refuse (negb (bool_decide (ba_MinAmountOut m = "")) &&
              match NewIntFromString (ba_MinAmountOut m) with None => true | Some v => v <? 0 end) ErrInvalidAmount;
  checkNote (ba_Pc m) (ba_Ciphertext m).

(** ** The three private msgs together *)
Definition dex_private (msg : DexPrivateMsg) : PrivateMsg :=
  match msg with
  | NoteSwapMsg m => NoteSwap_private m
  | AddLiquidityShieldedMsg m => AddShielded_private m
  | RemoveLiquidityShieldedMsg m => RemoveShielded_private m
  end.
Definition DexValidateBasic (msg : DexPrivateMsg) : outcome () :=
  match msg with
  | NoteSwapMsg m => NoteSwap_ValidateBasic m
  | AddLiquidityShieldedMsg m => AddShielded_ValidateBasic m
  | RemoveLiquidityShieldedMsg m => RemoveShielded_ValidateBasic m
  end.

(** The amounts of the bundle are [uint64]s. *)
Definition amounts_typed (m : PrivateMsg) : Prop :=
  ∀ b bal, b ∈ pm_Bundles m → bal ∈ bun_Balances b → 0 ≤ bal_Amount bal < 2 ^ 64.

(** A note the pool can mint: a field element and an amount-blind ciphertext. *)
Definition note_ok (pc ct : bytes) : Prop := is_ok (FieldFromBytes pc) = true ∧ Z.of_nat (length ct) = BlindCiphertextBytes.

(** What a msg says it works with, and the notes it asks for. *)
Definition says (msg : DexPrivateMsg) (rem : list Coin) : Prop :=
  match msg with
  | NoteSwapMsg m => rem = [NoteSwap_In m] ∧ 0 < ns_AmountIn m ∧ ns_DenomOut m ≠ ns_DenomIn m ∧
      ns_MinAmountOut m ≠ 0 ∧ note_ok (ns_Pc m) (ns_Ciphertext m)
  | AddLiquidityShieldedMsg m => ∃ token, Legs m = Ok (mkCoin FeeDenom (as_ErthAmount m), token) ∧
      Denom token ≠ FeeDenom ∧ 0 < as_ErthAmount m ∧ 0 < Amount token ∧
      (∀ d, AmountOf rem d = AmountOf [mkCoin FeeDenom (as_ErthAmount m); token] d) ∧
      note_ok (as_SharePc m) (as_ShareCiphertext m) ∧ note_ok (as_RefundPc m) (as_RefundCiphertext m)
  | RemoveLiquidityShieldedMsg m => ∃ shares, 0 < shares ∧ rem = [mkCoin (LPShareDenom (rs_PoolId m)) shares] ∧
      note_ok (rs_ErthPc m) (rs_ErthCiphertext m) ∧ note_ok (rs_TokenPc m) (rs_TokenCiphertext m)
  end.
End dex_msgs.

(** ** What the checks establish *)
Lemma UerthBalance_range bs : 0 ≤ UerthBalance bs < 2 ^ 64.
Proof.
  unfold UerthBalance. assert (∀ sum, 0 ≤ sum < 2 ^ 64 → 0 ≤ (fix go (bs : list Bundle) (sum : Z) : Z :=
    match bs with
    | [] => sum
    | b :: bs => let '(s, carry) := add64 sum (BundleBalance b FeeDenom) in if carry then 2 ^ 64 - 1 else go bs s
    end) bs sum < 2 ^ 64) as Hgo; [|by apply Hgo].
  induction bs as [|b bs IH]; intros sum Hs; [exact Hs|]. unfold add64. cbn beta iota zeta.
  destruct (2 ^ 64 <=? _); [lia|]. apply IH, Z.mod_pos_bound. lia.
Qed.

Lemma FeeAfter_range bs moved : 0 ≤ moved → 0 ≤ FeeAfter bs moved < 2 ^ 64.
Proof.
  intros Hm. pose proof (UerthBalance_range bs). unfold FeeAfter. cbv zeta. destruct (Z.ltb_spec (UerthBalance bs) moved); lia.
Qed.

Section dex_msgs_lemmas.
Context `{HostLaws, !ShieldedKeeper} `{Grumpkin}.

Lemma checkNote_ok pc ct u : checkNote pc ct = Ok u → note_ok pc ct.
Proof.
  unfold checkNote, pcField, CheckBlindCiphertext, note_ok. intros E. prog_inv.
  match goal with H : FieldFromBytes _ = Ok _ |- _ => rewrite H end. split; [done|lia].
Qed.

Lemma remainders_ok m rem :
  remainders m = Ok rem → ValidateBundles m = Ok () ∧ Remainders m = Ok rem ∧ rem ≠ [].
Proof. unfold remainders. intros E. prog_inv. split_and!; [done..|by intros ->]. Qed.

(** The legs of a release of two coins, one of them uerth. *)
Lemma assign_legs_ok a b erth token :
  Denom a ≠ Denom b → assign_legs [a; b] (zero_coin, zero_coin) = Ok (erth, token) →
  Amount erth ≠ 0 → Amount token ≠ 0 →
  Denom erth = FeeDenom ∧ Denom token ≠ FeeDenom ∧ (erth = a ∧ token = b ∨ erth = b ∧ token = a).
Proof.
  intros Hne E. cbn [assign_legs] in E. apply outcome_bind_ok in E as (c & [-> _]%NewCoin_spec & E).
  apply outcome_bind_ok in E as (c & [-> _]%NewCoin_spec & E). destruct a as [da xa], b as [db xb]. cbn [Denom Amount] in *.
  destruct (decide (da = FeeDenom)) as [Ea|Ea], (decide (db = FeeDenom)) as [Eb|Eb]; try congruence.
  - rewrite (bool_decide_eq_true_2 _ Ea), (bool_decide_eq_false_2 _ Eb) in E. injection E as <- <-. cbn. auto.
  - rewrite (bool_decide_eq_false_2 _ Ea), (bool_decide_eq_true_2 _ Eb) in E. injection E as <- <-. cbn. auto.
  - rewrite (bool_decide_eq_false_2 _ Ea), (bool_decide_eq_false_2 _ Eb) in E. injection E as <- <-. cbn. done.
Qed.

Lemma Legs_ok m rem erth token :
  Remainders (AddShielded_private m) = Ok rem → coins_wf rem → Legs m = Ok (erth, token) →
  Amount erth ≠ 0 → Amount token ≠ 0 →
  Denom erth = FeeDenom ∧ Denom token ≠ FeeDenom ∧ 0 < Amount erth ∧ 0 < Amount token ∧
  ∀ d, AmountOf rem d = AmountOf [erth; token] d.
Proof.
  unfold Legs. intros -> [Hnd Hpos] E He Ht. destruct rem as [|a [|b [|]]]; try (injection E as <- <-; done).
  apply assign_legs_ok in E as (Hd & Hd' & Hab); [|by apply NoDup_cons in Hnd as [Hnd _]; intros Eab; apply Hnd; rewrite Eab; left|done..].
  pose proof (Hpos a ltac:(left)). pose proof (Hpos b ltac:(right; left)).
  destruct Hab as [[-> ->]|[-> ->]]; (split_and!; try done); intros d; rewrite !AmountOf_cons; lia.
Qed.

Lemma NoteSwap_says m rem :
  0 ≤ ns_AmountIn m → NoteSwap_ValidateBasic m = Ok () → Remainders (NoteSwap_private m) = Ok rem →
  says (NoteSwapMsg m) rem ∧ NoteSwap_PrivateFee m ≠ 0 ∧ ValidateBundles (NoteSwap_private m) = Ok ().
Proof.
  unfold NoteSwap_ValidateBasic. intros Ha E Hrem. prog_inv.
  match goal with H : remainders _ = Ok _ |- _ => apply remainders_ok in H as (Hv & Er & _) end.
  rewrite Hrem in Er. injection Er as <-. destruct rem as [|r [|]]; [done| |done].
  match goal with H : _ || _ = false |- _ => apply orb_false_iff in H as [Hd Hx] end.
  apply negb_false_iff, bool_decide_eq_true in Hd. apply negb_false_iff, Z.eqb_eq in Hx. destruct r as [d x].
  cbn [Denom Amount] in *. subst. apply checkNote_ok in E.
  repeat match goal with H : (_ =? 0) = false |- _ => apply Z.eqb_neq in H | H : bool_decide _ = false |- _ => apply bool_decide_eq_false in H end.
  split; [|done]. cbn [says]. split_and!; try done. lia.
Qed.

Lemma AddShielded_says m rem :
  0 ≤ as_ErthAmount m → AddShielded_ValidateBasic m = Ok () → Remainders (AddShielded_private m) = Ok rem → coins_wf rem →
  says (AddLiquidityShieldedMsg m) rem ∧ AddShielded_PrivateFee m ≠ 0 ∧ ValidateBundles (AddShielded_private m) = Ok ().
Proof.
  unfold AddShielded_ValidateBasic. intros Ha E Hrem Hwf.
  apply outcome_bind_ok in E as (rem' & (Hv & Er & _)%remainders_ok & E). rewrite Hrem in Er. injection Er as <-.
  apply outcome_bind_ok in E as (u1 & [He Hf]%refuse_ok%orb_false_iff & E). apply Z.eqb_neq in He, Hf.
  apply outcome_bind_ok in E as ([erth token] & Hl & E). cbn beta iota in E.
  apply outcome_bind_ok in E as (u2 & Hg%refuse_ok & E). apply outcome_bind_ok in E as (u3 & _ & E).
  apply outcome_bind_ok in E as (u4 & Hn1%checkNote_ok & Hn2%checkNote_ok).
  repeat match goal with H : _ || _ = false |- _ => apply orb_false_iff in H as [? ?] end.
  repeat match goal with H : negb _ = false |- _ => apply negb_false_iff in H end.
  destruct (Legs_ok m rem erth token Hrem Hwf Hl) as (Hd & Hdt & Hpe & Hpt & Hsum); [by apply Z.eqb_neq..|].
  destruct erth as [de xe]. cbn [Denom Amount] in *. assert (xe = as_ErthAmount m) as -> by lia. subst de.
  split; [|done]. exists token. split_and!; done.
Qed.

Lemma RemoveShielded_says m rem :
  RemoveShielded_ValidateBasic m = Ok () → Remainders (RemoveShielded_private m) = Ok rem → coins_wf rem →
  says (RemoveLiquidityShieldedMsg m) rem ∧ RemoveShielded_PrivateFee m ≠ 0 ∧ ValidateBundles (RemoveShielded_private m) = Ok ().
Proof.
  unfold RemoveShielded_ValidateBasic. intros E Hrem [_ Hpos]. prog_inv.
  match goal with H : remainders _ = Ok _ |- _ => apply remainders_ok in H as (Hv & Er & _) end.
  rewrite Hrem in Er. injection Er as <-. destruct rem as [|[d x] [|]]; [done| |done].
  repeat match goal with H : negb _ = false |- _ => apply negb_false_iff in H end.
  match goal with H : bool_decide _ = true |- _ => apply bool_decide_eq_true in H; cbn [Denom] in H; subst d end.
  repeat match goal with H : checkNote _ _ = Ok _ |- _ => apply checkNote_ok in H end.
  match goal with H : (_ =? 0) = false |- _ => apply Z.eqb_neq in H end.
  split; [|done]. exists x. split_and!; try done. apply (Hpos _ ltac:(left)).
Qed.
End dex_msgs_lemmas.

(** ** Properties *)
Section dex_msgs_properties.
Context `{HostLaws, !ShieldedKeeper} `{Grumpkin}.

(** A private msg of the dex takes out of the shielded pool exactly what it says: when its stateless checks pass, it
    pays a positive fee, and the bundle's balances beyond that fee are, to the unit, the coin the swap trades, the two
    legs the deposit adds, or the shares of the pool the withdrawal names; those are the denoms its handler asks the pool to
    release, each once, and every note the handler mints has a well-formed commitment input and ciphertext. *)
Theorem private_msg_releases_what_it_says msg :
  amounts_typed (dex_private msg) →
  match msg with NoteSwapMsg m => 0 ≤ ns_AmountIn m | AddLiquidityShieldedMsg m => 0 ≤ as_ErthAmount m | _ => True end →
  DexValidateBasic msg = Ok () →
  0 < pm_Fee (dex_private msg) ∧ ValidateBundles (dex_private msg) = Ok () ∧
  ∃ rem ds, Remainders (dex_private msg) = Ok rem ∧ says msg rem ∧
    ReleasedDenoms msg = Ok ds ∧ NoDup ds ∧ (∀ d, d ∈ ds ↔ 0 < AmountOf rem d) ∧
    ∀ d, balances_of (dex_private msg) d = AmountOf rem d + (if bool_decide (d = FeeDenom) then pm_Fee (dex_private msg) else 0).
Proof.
  intros Ht Hu Hv.
  assert (0 ≤ pm_Fee (dex_private msg) < 2 ^ 64) as Hfee.
  { destruct msg as [m|m|m]; cbn; unfold NoteSwap_PrivateFee; try case_bool_decide; by apply FeeAfter_range. }
  assert (∃ rem, Remainders (dex_private msg) = Ok rem) as [rem Hrem].
  { destruct msg as [m|m|m]; cbn in Hv; unfold NoteSwap_ValidateBasic, AddShielded_ValidateBasic, RemoveShielded_ValidateBasic in Hv;
      repeat (apply outcome_bind_ok in Hv as (? & ? & Hv); match goal with H : remainders _ = _ |- _ => apply remainders_ok in H as (_ & H & _); by eexists | _ => idtac end). }
  destruct (Remainders_spec _ rem (conj Hfee Ht) Hrem) as (Hsum & Hwf & _ & Hpos).
  assert (says msg rem ∧ pm_Fee (dex_private msg) ≠ 0 ∧ ValidateBundles (dex_private msg) = Ok ()) as (Hs & Hf & Hb).
  { destruct msg; [by apply NoteSwap_says|by apply AddShielded_says|by apply RemoveShielded_says]. }
  split; [lia|]. split; [exact Hb|].
  assert (∃ ds, ReleasedDenoms msg = Ok ds ∧ NoDup ds ∧ ∀ d, d ∈ ds ↔ 0 < AmountOf rem d) as (ds & Eds & Hnd & Hds).
  { destruct msg as [m|m|m]; cbn [says ReleasedDenoms] in *.
    - destruct Hs as (-> & Hp & _). eexists. split; [done|]. split; [apply NoDup_singleton|]. intros d.
      rewrite list_elem_of_singleton, AmountOf_coin. cbn. case_bool_decide; [split; [done|by intros]|split; [by intros ->|lia]].
    - destruct Hs as (token & Hl & Hd & Hpe & Hpt & Ham & _). rewrite Hl. eexists. split; [done|]. cbn [Denom].
      split; [apply NoDup_cons; split; [by intros E%list_elem_of_singleton; apply Hd|apply NoDup_singleton]|]. intros d.
      rewrite Ham, !AmountOf_cons, AmountOf_nil, elem_of_cons, list_elem_of_singleton. cbn [Denom Amount].
      repeat case_bool_decide; subst; (split; [intros [?|?]; (congruence || lia)|intros; try (by left); try (by right); lia]).
    - destruct Hs as (x & Hp & -> & _). eexists. split; [done|]. split; [apply NoDup_singleton|]. intros d.
      rewrite list_elem_of_singleton, AmountOf_coin. cbn. case_bool_decide; [split; [done|by intros]|split; [by intros ->|lia]]. }
  exists rem, ds. split_and!; try done. intros d. rewrite Hsum. unfold fee_of. lia.
Qed.
End dex_msgs_properties.
