(* ===== verification/DexEndBlock.v ===== *)
(** * x/dex: the end of a block

    [AppModule.EndBlock] of [x/dex/module/module.go] and [UpdateParams]; the EndBlocker's solvency check
    never finds a breach in a state that meets the invariant, so no step of EndBlock can halt the chain. *)

From S2P Require Export DexNotes.

Record MsgUpdateParams := { up_Authority : string; up_Params : Params }.

Section dex_end_block.
Context `{Host, !ShieldedKeeper}.

(** ** module.go *)
Definition EndBlock : M () :=
  SweepMaturedUnbondings;;
  SettleDueAuction;;
  SweepStalePools;;
  MaybeRebaseVolumeIndex;;
  BurnDuePol;;
  AssertHotInvariants.

(** ** msg_update_params.go *)
Definition UpdateParams (authority : bytes) (req : MsgUpdateParams) : M () :=
  signer ← lift (StringToBytes (up_Authority req));
  refuse_if (negb (bool_decide (authority = signer))) ErrInvalidSigner;;
  lift (ParamsValidate (up_Params req));;
  set_dex (set_k_Params (λ _, Some (up_Params req))).

(** ** depinject.go: the handler of x/allocation's LP-rewards option, and [PayOutToModule] of
    [x/allocation/keeper/keeper.go], which sends the coins from that module's account. *)
Definition allocation_ModuleName : string := "allocation".

Definition PayOutToModule (recipientModule : string) (amount : Z) : M () :=
  if negb (0 <? amount) then mret ()
  else
    denom ← HubDenom;
    c ← lift (NewCoin denom amount);
    coins ← lift (NewCoins [c]);
    bank (SendCoinsFromModuleToModule allocation_ModuleName recipientModule coins).

Definition LPRewardsHandler (accrued : Z) : M Z :=
  resolved ← DistributeLPRewards accrued;
  PayOutToModule ModuleName resolved;;
  mret resolved.
End dex_end_block.

Section solvency_passes.
Context `{HostLaws, !ShieldedKeeper}.
Implicit Types (w : World) (s : DexStore).

Lemma pending_nonneg s : pools_inv s → 0 ≤ pending s.
Proof.
  intros []. assert (0 ≤ pending s * lpIndexPrecision); [|unfold lpIndexPrecision in *; lia].
  etransitivity; [|exact pi_rewards]. apply map_sum_nonneg. intros i p Hp. destruct (pi_pool _ _ Hp). nia.
Qed.

Lemma total_erth_nonneg s : pools_inv s → 0 ≤ default 0 (k_TotalPoolErth s).
Proof. intros []. rewrite pi_total. apply map_sum_nonneg. intros i p Hp. apply (pi_pool _ _ Hp). Qed.

(** The auction's part of what is owed in the hub. *)
Definition auction_hub (s : DexStore) : Z :=
  match k_LiquidityAuction s with Some a => auction_holds a hub_denom | None => 0 end.

Lemma hub_owed s : pools_inv s → owed s hub_denom = default 0 (k_TotalPoolErth s) + auction_hub s + pending s.
Proof.
  intros []. unfold owed, auction_hub. rewrite bool_decide_eq_true_2, pi_total by done.
  rewrite (map_sum_ext (λ _, pool_holds hub_denom) (λ _ p, Amount (pl_ReserveErth p))); [lia|].
  intros i p Hp. destruct (pi_pool _ _ Hp). unfold pool_holds.
  rewrite bool_decide_eq_true_2, bool_decide_eq_false_2 by done. lia.
Qed.

(** A pool's token is owed by that pool alone. *)
Lemma token_owed s id p :
  pools_inv s → auction_inv s → k_Pool s !! id = Some p →
  owed s (Denom (pl_ReserveToken p)) = Amount (pl_ReserveToken p).
Proof.
  intros [] Ha Hp. destruct (pi_pool _ _ Hp) as [].
  unfold owed. rewrite (bool_decide_eq_false_2 (_ = hub_denom)) by done.
  rewrite (map_sum_single _ (k_Pool s) id p Hp).
  - unfold pool_holds. rewrite po_hub, bool_decide_eq_false_2, bool_decide_eq_true_2 by done.
    unfold auction_inv in Ha. destruct (k_LiquidityAuction s) as [a|]; [|lia].
    destruct Ha as (_&_&_&_&_&_&_&_&Hst). unfold auction_holds.
    rewrite (bool_decide_eq_false_2 (_ = hub_denom)) by done.
    destruct (la_Status a); try lia; rewrite bool_decide_eq_false_2; try lia; try (by intros [? _]).
    intros [_ E]. destruct Hst as (_ & _ & _ & Hn & _). congruence.
  - intros i q Hq Hne. destruct (pi_pool _ _ Hq). unfold pool_holds.
    rewrite !bool_decide_eq_false_2; [lia|..]; congruence.
Qed.

(** The open bid denom is owed by the auction alone. *)
Lemma bid_owed s a :
  pools_inv s → auction_inv s → k_LiquidityAuction s = Some a → la_Status a = AUCTION_STATUS_OPEN →
  owed s (la_BidDenom a) = la_TotalRaised a.
Proof.
  intros [] Ha Hs Hst. unfold auction_inv in Ha. rewrite Hs, Hst in Ha.
  destruct Ha as (_&_&_&_&_&_&_&_&Hnh&Hlp&_&Hn&_).
  unfold owed. rewrite Hs, (bool_decide_eq_false_2 (_ = hub_denom)), auction_holds_open by done.
  rewrite (bool_decide_eq_false_2 (hub_denom = _)), bool_decide_eq_true_2 by congruence.
  rewrite (map_sum_ext _ (λ _ _, 0)); [rewrite map_sum_zero; lia|].
  intros i q Hq. destruct (pi_pool _ _ Hq). unfold pool_holds. rewrite !bool_decide_eq_false_2; [lia|..]; congruence.
Qed.

(** The denom [auctionErthOwed] reports. *)
Definition open_bid (s : DexStore) : string :=
  match k_LiquidityAuction s with
  | Some a => if bool_decide (la_Status a = AUCTION_STATUS_OPEN) && (0 <? la_TotalRaised a) then la_BidDenom a else ""
  | None => ""
  end.

Lemma fits_range x : 0 ≤ x < 2 ^ 256 → fits_int x = true.
Proof. intros. apply fits_int_spec. lia. Qed.

Lemma balance_fits (b : bank_state) a d : 0 ≤ GetBalance b a d < 2 ^ 256.
Proof. apply GetBalance_range. Qed.

Lemma IntAdd_fits a b : 0 ≤ a + b < 2 ^ 256 → IntAdd a b = Ok (a + b).
Proof. intros. rewrite IntAdd_spec, fits_range by done. done. Qed.

Lemma auction_hub_range w : dex_inv w → 0 ≤ auction_hub (w_dex w) < 2 ^ 256.
Proof.
  intros []. pose proof (hub_owed _ di_pools) as Ho. pose proof (total_erth_nonneg _ di_pools). pose proof (pending_nonneg _ di_pools).
  destruct di_solvent as [Hs _]. pose proof (balance_fits (w_bank w) dex_addr hub_denom) as Hb.
  rewrite (Hs _ (pi_hub _ di_pools)), Ho in Hb. split; [|lia].
  unfold auction_hub, auction_inv in *. destruct (k_LiquidityAuction _) as [a|]; [|done].
  destruct di_auction as (E1&E2&E3&E4&E5&E6&E7&E8&E9).
  unfold auction_holds. rewrite !(bool_decide_eq_true_2 (hub_denom = hub_denom)) by done.
  destruct (la_Status a); try lia; repeat case_bool_decide; lia.
Qed.

Lemma auctionErthOwed_pass w :
  dex_inv w → auctionErthOwed w = Ok ((auction_hub (w_dex w), open_bid (w_dex w)), w).
Proof.
  intros Hi. pose proof (auction_hub_range _ Hi) as Hr. destruct Hi.
  unfold auctionErthOwed, auction_hub, open_bid, auction_inv in *. run_fwd.
  destruct (k_LiquidityAuction (w_dex w)) as [a|]; [|done].
  destruct di_auction as (E1&E2&E3&E4&E5&E6&E7&E8&E9).
  destruct (la_Status a) eqn:Hst.
  4: { rewrite auction_holds_settled, bool_decide_eq_true_2 in * by done.
       rewrite (run_bind _ _ _ (Amount (la_ErthForBidders a) - la_Claimed a) w).
       - destruct (Z.ltb_spec 0 (Amount (la_ErthForBidders a) - la_Claimed a)); [done|].
         by replace (Amount (la_ErthForBidders a) - la_Claimed a) with 0 by lia.
       - unfold lift. rewrite IntSub_spec, fits_range by lia. done. }
  all: assert (auction_holds a hub_denom = Amount (la_ErthForBidders a) + Amount (la_ErthForPool a)) as Hh
    by (unfold auction_holds; rewrite Hst, (bool_decide_eq_true_2 (hub_denom = hub_denom)) by done;
        rewrite bool_decide_eq_false_2; [lia|]; [intros [E E']; try discriminate E]; destruct E9 as [? _]; congruence).
  all: rewrite Hh in *.
  all: rewrite (run_bind _ _ _ (Amount (la_ErthForBidders a)) w)
    by (destruct (Z.ltb_spec 0 (Amount (la_ErthForBidders a))); cbn;
        [by rewrite IntAdd_fits by lia|unfold mret; cbn; repeat f_equal; lia]).
  all: rewrite (run_bind _ _ _ (Amount (la_ErthForBidders a) + Amount (la_ErthForPool a)) w)
    by (destruct (Z.ltb_spec 0 (Amount (la_ErthForPool a))); cbn;
        [by rewrite IntAdd_fits by lia|unfold mret; cbn; repeat f_equal; lia]).
  all: try done.
  destruct E9 as (_ & _ & Hne & _). cbn. rewrite (bool_decide_eq_false_2 (la_BidDenom a = "")) by done.
  rewrite andb_true_r. by destruct (0 <? la_TotalRaised a).
Qed.

Lemma checkErthSolvency_pass w : dex_inv w → checkErthSolvency w = Ok ((), w).
Proof.
  intros Hi. pose proof (auction_hub_range _ Hi) as Hau. pose proof (auctionErthOwed_pass _ Hi) as Hau'. destruct Hi.
  pose proof (hub_owed _ di_pools) as Ho. pose proof (total_erth_nonneg _ di_pools). pose proof (pending_nonneg _ di_pools) as Hp.
  destruct di_solvent as [Hs _]. specialize (Hs _ (pi_hub _ di_pools)). rewrite Ho in Hs.
  pose proof (balance_fits (w_bank w) dex_addr hub_denom) as Hb. unfold pending in *.
  unfold checkErthSolvency, HubDenom, getTotalPoolErth, getPendingLpRewards.
  rewrite (run_bind _ _ _ hub_denom w) by (unfold lift; by rewrite host_bond_denom).
  run_fwd. rewrite (run_bind _ _ _ _ _ Hau'). cbv beta iota. run_fwd.
  rewrite (run_bind _ _ _ (default 0 (k_TotalPoolErth (w_dex w)) + auction_hub (w_dex w)) w)
    by (unfold lift; rewrite IntAdd_fits by lia; done).
  rewrite (run_bind _ _ _ (GetBalance (w_bank w) dex_addr hub_denom) w)
    by (unfold lift; rewrite IntAdd_fits by lia; by rewrite Hs).
  run_fwd. rewrite Z.ltb_irrefl. done.
Qed.

Lemma checkPoolTokenSolvency_pass id w : dex_inv w → checkPoolTokenSolvency id w = Ok ((), w).
Proof.
  intros Hi. pose proof (auctionErthOwed_pass _ Hi) as Hau. destruct Hi.
  unfold checkPoolTokenSolvency. run_fwd. destruct (k_Pool (w_dex w) !! id) as [p|] eqn:Hp; [|done].
  destruct (bool_decide (Denom (pl_ReserveToken p) = "")); [done|].
  rewrite (run_bind _ _ _ _ _ Hau). cbv beta iota. case_bool_decide; [done|]. run_fwd.
  pose proof (token_owed _ _ _ di_pools di_auction Hp) as Ho. destruct (pi_pool _ di_pools _ _ Hp).
  destruct di_solvent as [Hs _]. rewrite (Hs _ po_not_lp), Ho, Z.ltb_irrefl. done.
Qed.

Lemma checkAuctionBidSolvency_pass w : dex_inv w → checkAuctionBidSolvency w = Ok ((), w).
Proof.
  intros []. unfold checkAuctionBidSolvency. run_fwd.
  destruct (k_LiquidityAuction (w_dex w)) as [a|] eqn:Ha; [|done].
  destruct (negb _ || _ || _) eqn:E; [done|]. apply orb_false_iff in E as [E _]. apply orb_false_iff in E as [E _].
  rewrite negb_false_iff, bool_decide_eq_true in E.
  pose proof (bid_owed _ _ di_pools di_auction Ha E) as Ho.
  unfold auction_inv in di_auction. rewrite Ha, E in di_auction. destruct di_auction as (_&_&_&_&_&_&_&_&_&Hlp&_).
  run_fwd. destruct di_solvent as [Hs _]. rewrite (Hs _ Hlp), Ho, Z.eqb_refl. done.
Qed.

Lemma rotate_walk_pass ids st w : dex_inv w → ∃ st', rotate_walk ids st w = Ok (st', w).
Proof.
  intros Hi. revert st. induction ids as [|id ids IH]; intros [c n]; cbn [rotate_walk]; [by eexists|].
  destruct (_ <=? c); [by eexists|]. rewrite (run_bind _ _ _ _ _ (checkPoolTokenSolvency_pass id w Hi)). apply IH.
Qed.

(** The invariant does not read the checker's own collections. *)
Lemma checker_state_inv f g w :
  dex_inv w → dex_inv (upd_dex (λ s, set_k_SolvencyCursor f (set_k_DirtyPools g s)) w).
Proof.
  intros []. split; try done; [by eapply same_pools_inv; [|exact di_pools]|by destruct di_unbond; split].
Qed.

Lemma dirty_pass dirty w :
  dex_inv w →
  ∃ X, for_each dirty (λ id, checkPoolTokenSolvency id;; set_dex (set_k_DirtyPools (λ X, X ∖ {[id]}))) w =
    Ok ((), upd_dex (set_k_DirtyPools (λ _, X)) w).
Proof.
  revert w. induction dirty as [|id dirty IH]; intros w Hi.
  { exists (k_DirtyPools (w_dex w)). cbn. unfold mret, prog_ret. repeat f_equal. by destruct w as [? ? ? ? []]. }
  cbn [for_each]. set (w1 := upd_dex (set_k_DirtyPools (λ X, X ∖ {[id]})) w).
  assert (dex_inv w1) as Hi1.
  { unfold w1. destruct Hi. split; try done; [by eapply same_pools_inv; [|exact di_pools]|by destruct di_unbond; split]. }
  destruct (IH w1 Hi1) as [X HX]. exists X. rewrite (run_bind _ _ _ () w1); [exact HX|].
  rewrite (run_bind _ _ _ _ _ (checkPoolTokenSolvency_pass id w Hi)). done.
Qed.

(** The check passes on every state that meets the invariant, and writes only its own state. *)
Lemma AssertHotInvariants_pass w :
  dex_inv w → ∃ X c, AssertHotInvariants w =
    Ok ((), upd_dex (λ s, set_k_SolvencyCursor (λ _, c) (set_k_DirtyPools (λ _, X) s)) w).
Proof.
  intros Hi. unfold AssertHotInvariants, assertHotInvariants, AssertBoundedSolvency.
  rewrite (run_bind _ _ _ _ _ (checkErthSolvency_pass w Hi)), (run_bind _ _ _ _ _ (checkAuctionBidSolvency_pass w Hi)).
  run_fwd. destruct (dirty_pass (iter_set (k_DirtyPools (w_dex w))) w Hi) as [X HX].
  rewrite (run_bind _ _ _ _ _ HX). set (w1 := upd_dex _ w).
  assert (dex_inv w1) as Hi1.
  { unfold w1. destruct Hi. split; try done; [by eapply same_pools_inv; [|exact di_pools]|by destruct di_unbond; split]. }
  unfold rotateSolvencyCheck. run_fwd.
  destruct (rotate_walk_pass (filter (λ id, default 0 (k_SolvencyCursor (w_dex w1)) ≤ id) (iter_keys (k_Pool (w_dex w1))))
    (0, default 0 (k_SolvencyCursor (w_dex w1))) w1 Hi1) as [[c n] Hw].
  rewrite (run_bind _ _ _ _ _ Hw). cbv beta iota.
  destruct ((c <? _) && _).
  - destruct (rotate_walk_pass (iter_keys (k_Pool (w_dex w1))) (c, 0) w1 Hi1) as [[c' n'] Hw'].
    rewrite (run_bind _ _ _ _ _ Hw'). cbv beta iota. by exists X, (Some n').
  - rewrite (run_bind _ _ _ (c, n) w1) by done. cbv beta iota. by exists X, (Some n).
Qed.
End solvency_passes.

Section end_block.
Context `{HostLaws, !ShieldedKeeper, !ShieldedLaws}.
Implicit Types (w : World).

Lemma EndBlock_ok w : dex_inv w → ∃ w', EndBlock w = Ok ((), w') ∧ dex_inv w' ∧ w_nanos w' = w_nanos w.
Proof.
  intros Hi. unfold EndBlock.
  destruct (SweepMaturedUnbondings_ok w Hi) as (w1 & H1' & Hi1 & _ & Hn1 & _). rewrite (run_bind _ _ _ _ _ H1').
  destruct (SettleDueAuction_ok w1 Hi1) as (w2 & H2' & Hi2 & Hn2). rewrite (run_bind _ _ _ _ _ H2').
  destruct (SweepStalePools_ok w2 Hi2) as (w3 & H3' & Hi3 & Hw3). rewrite (run_bind _ _ _ _ _ H3').
  destruct (MaybeRebaseVolumeIndex_ok w3 Hi3) as (w4 & H4' & Hi4 & Hw4). rewrite (run_bind _ _ _ _ _ H4').
  destruct (BurnDuePol_ok w4 Hi4) as (w5 & H5' & Hi5 & Hn5). rewrite (run_bind _ _ _ _ _ H5').
  destruct (AssertHotInvariants_pass w5 Hi5) as (X & c & H6').
  eexists. split; [exact H6'|]. split.
  - pose proof (checker_state_inv (λ _, c) (λ _, X) w5 Hi5) as Hc. exact Hc.
  - cbn. rewrite Hn5, Hw4, Hw3. cbn. congruence.
Qed.

Lemma ParamsValidate_ok ps u :
  ParamsValidate ps = Ok u → 0 ≤ LpUnbondingSeconds ps → 0 ≤ VolumeDepthCapPerDay ps →
  0 ≤ SwapFee ps ≤ 10 * dec_one ∧ 0 ≤ LpUnbondingSeconds ps ≤ MaxLpUnbondingSeconds ∧
  0 ≤ VolumeDepthCapPerDay ps ≤ MaxVolumeDepthCapPerDay.
Proof. unfold ParamsValidate, MaxSwapFee. intros Hr. rewrite NewDecFromInt_spec in Hr. host_inv. lia. Qed.

(** The fields of [Params] are [uint64]s. *)
Lemma UpdateParams_spec authority req w u w' :
  dex_inv w → 0 ≤ LpUnbondingSeconds (up_Params req) → 0 ≤ VolumeDepthCapPerDay (up_Params req) →
  UpdateParams authority req w = Ok (u, w') →
  dex_inv w' ∧ StringToBytes (up_Authority req) = Ok authority ∧
  w' = upd_dex (set_k_Params (λ _, Some (up_Params req))) w ∧ 0 ≤ SwapFee (up_Params req) ≤ 10 * dec_one.
Proof.
  intros Hi Hu1 Hu2 Hr. unfold UpdateParams in Hr.
  apply bind_ok in Hr as (sg & w1 & [Hsg ->]%lift_ok & Hr).
  apply bind_ok in Hr as ([] & w1 & [Hau ->]%refuse_if_ok & Hr). rewrite negb_false_iff, bool_decide_eq_true in Hau.
  apply bind_ok in Hr as ([] & w1 & [Hv ->]%lift_ok & ->%set_dex_ok).
  apply ParamsValidate_ok in Hv; [|done..]. split; [|split; [congruence|split; [done|apply Hv]]].
  destruct Hi. split; try done; [by eapply same_pools_inv; [|exact di_pools]|by destruct di_unbond; split|].
  exists (up_Params req). done.
Qed.

Lemma LPRewardsHandler_spec amt w r w' :
  dex_inv w → 0 < amt → LPRewardsHandler amt w = Ok (r, w') →
  dex_inv w' ∧ 0 ≤ r ≤ amt ∧ lp_index (w_dex w) ≤ lp_index (w_dex w').
Proof.
  intros Hi Ha Hr. unfold LPRewardsHandler, PayOutToModule, HubDenom in Hr.
  assert (0 ≤ total_volume (w_dex w)) as HV.
  { rewrite (pi_volume _ (di_pools _ Hi)). apply map_sum_nonneg. intros i p Hpp. apply (pi_pool _ (di_pools _ Hi) _ _ Hpp). }
  apply bind_ok in Hr as (res & w1 & Hd & Hr).
  assert (lp_index (w_dex w) ≤ lp_index (w_dex w1)) as Hmono.
  { apply DistributeLPRewards_run in Hd as [[_ ->]|(de & Hde & _ & _ & _ & _ & ->)]; [done| |done].
    unfold lp_index. cbn. unfold lp_index. lia. }
  apply dex_inv_upto in Hi. apply (DistributeLPRewards_upto _ _ _ _ _ Hi) in Hd as (Hi1 & Hr0 & Hra & Hw1).
  apply bind_ok in Hr as ([] & w2 & Hpay & [= -> ->]%ret_ok).
  destruct (Z.ltb_spec 0 res) as [Hpos|Hz]; cbn [negb] in Hpay.
  - apply bind_ok in Hpay as (hub & w3 & [Hhub ->]%lift_ok & Hpay).
    rewrite host_bond_denom in Hhub. injection Hhub as <-.
    apply bind_ok in Hpay as (c & w3 & [[-> _]%NewCoin_spec ->]%lift_ok & Hpay).
    apply bind_ok in Hpay as (cs & w3 & [[Hcs _]%NewCoins_spec ->]%lift_ok & Hpay).
    apply bank_ok in Hpay as (b & Hm & ->). apply SendM2M_spec in Hm. fold dex_addr in Hm.
    assert (NewModuleAddress allocation_ModuleName ≠ dex_addr) as Hne by (by intros E%NewModuleAddress_inj).
    split; [|split; [lia|done]].
    apply dex_inv_upto. eapply inv_upto_weaken; [exact (inv_upto_bank _ _ _ _ _ _ Hi1 Hm)|intros d _|intros i _]; cbv beta;
      rewrite !bd_some, Hcs, AmountOf_single, (bool_decide_eq_true_2 (dex_addr = dex_addr)),
        (bool_decide_eq_false_2 (dex_addr = _)) by congruence; case_bool_decide; lia.
  - apply ret_ok in Hpay as [= ->]. split; [|split; [lia|done]].
    apply dex_inv_upto. eapply inv_upto_weaken; [exact Hi1|intros; cbv beta; case_bool_decide; lia..].
Qed.
End end_block.

(** ** Properties *)
Section end_block_properties.
Context `{HostLaws, !ShieldedKeeper, !ShieldedLaws}.
Implicit Types (w : World).

(** The bounded solvency check is exact for the hub asset: it passes in exactly the states where the
    module's ERTH balance is the pools' running total, the auction's obligation and the unsettled
    rewards together; it fails on a shortfall and on a surplus of a single unit alike. *)
Theorem erth_check_exact w auction bidDenom :
  auctionErthOwed w = Ok ((auction, bidDenom), w) →
  let owed := default 0 (k_TotalPoolErth (w_dex w)) + auction + pending (w_dex w) in
  0 ≤ default 0 (k_TotalPoolErth (w_dex w)) + auction < 2 ^ 256 → 0 ≤ owed < 2 ^ 256 →
  checkErthSolvency w =
    (if GetBalance (w_bank w) dex_addr hub_denom =? owed then Ok ((), w) else Err ErrInvariantBroken).
Proof.
  intros Ha owed Hr1 Hr2. unfold checkErthSolvency, HubDenom, getTotalPoolErth, getPendingLpRewards.
  rewrite (run_bind _ _ _ hub_denom w) by (unfold lift; by rewrite host_bond_denom).
  run_fwd. rewrite (run_bind _ _ _ _ _ Ha). cbv beta iota. run_fwd.
  rewrite (run_bind _ _ _ (default 0 (k_TotalPoolErth (w_dex w)) + auction) w)
    by (unfold lift; rewrite IntAdd_fits by lia; done).
  rewrite (run_bind _ _ _ owed w) by (unfold lift; rewrite IntAdd_fits by (unfold owed, pending in *; lia); done).
  run_fwd. destruct (Z.eqb_spec (GetBalance (w_bank w) dex_addr hub_denom) owed) as [->|Hne].
  - by rewrite Z.ltb_irrefl.
  - unfold mbind, prog_bind, refuse_if. destruct (Z.ltb_spec (GetBalance (w_bank w) dex_addr hub_denom) owed); [done|].
    by replace (owed <? GetBalance (w_bank w) dex_addr hub_denom) with true by lia.
Qed.

(** Only governance changes the parameters, and only to valid ones: [UpdateParams] succeeds for the
    authority alone, stores exactly the params it was given, whose swap fee is at most 10% and whose
    unbonding period and volume cap are within their maxima, and changes nothing else. *)
Theorem update_params_guarded authority req w w' :
  0 ≤ LpUnbondingSeconds (up_Params req) → 0 ≤ VolumeDepthCapPerDay (up_Params req) →
  UpdateParams authority req w = Ok ((), w') →
  StringToBytes (up_Authority req) = Ok authority ∧
  w' = upd_dex (set_k_Params (λ _, Some (up_Params req))) w ∧
  0 ≤ SwapFee (up_Params req) ≤ 10 * dec_one ∧ LpUnbondingSeconds (up_Params req) ≤ MaxLpUnbondingSeconds ∧
  VolumeDepthCapPerDay (up_Params req) ≤ MaxVolumeDepthCapPerDay.
Proof.
  intros Hu1 Hu2 Hr. unfold UpdateParams in Hr.
  apply bind_ok in Hr as (sg & w1 & [Hsg ->]%lift_ok & Hr).
  apply bind_ok in Hr as ([] & w1 & [Hau ->]%refuse_if_ok & Hr). rewrite negb_false_iff, bool_decide_eq_true in Hau.
  apply bind_ok in Hr as ([] & w1 & [Hv ->]%lift_ok & ->%set_dex_ok).
  apply ParamsValidate_ok in Hv; [|done..]. split_and!; done || lia || congruence.
Qed.

(** Rewards are funded before they are owed: the handler takes at most the accrued emission, x/allocation
    pays the module exactly what was resolved, the unsettled rewards grow by exactly that, and they
    cover everything the pools' volumes can settle at the new index. *)
Theorem lp_rewards_funded accrued r w w' :
  dex_inv w → 0 < accrued → LPRewardsHandler accrued w = Ok (r, w') →
  0 ≤ r ≤ accrued ∧ pending (w_dex w') = pending (w_dex w) + r ∧
  (r = 0 ∧ lp_index (w_dex w') = lp_index (w_dex w) ∨
   0 < r ∧ lp_index (w_dex w') = lp_index (w_dex w) + accrued * lpIndexPrecision / total_volume (w_dex w)) ∧
  map_sum (λ id p, pl_VolumeWeight p * (lp_index (w_dex w') - lp_last (w_dex w') id)) (k_Pool (w_dex w'))
    ≤ pending (w_dex w') * lpIndexPrecision ∧
  (∀ a d, GetBalance (w_bank w') a d = GetBalance (w_bank w) a d
     + at_ dex_addr (AmountOf [mkCoin hub_denom r]) a d
     - at_ (NewModuleAddress allocation_ModuleName) (AmountOf [mkCoin hub_denom r]) a d).
Proof.
  intros Hi Ha Hr. pose proof (LPRewardsHandler_spec _ _ _ _ Hi Ha Hr) as (Hi' & Hrange & _).
  unfold LPRewardsHandler, PayOutToModule, HubDenom in Hr.
  assert (0 ≤ total_volume (w_dex w)) as HV.
  { rewrite (pi_volume _ (di_pools _ Hi)). apply map_sum_nonneg. intros i p Hpp. apply (pi_pool _ (di_pools _ Hi) _ _ Hpp). }
  apply bind_ok in Hr as (res & w1 & Hd & Hr). apply bind_ok in Hr as ([] & w2 & Hpay & [= -> ->]%ret_ok).
  assert (w_dex w2 = w_dex w1 ∧ (0 ≤ res → ∀ a d, GetBalance (w_bank w2) a d = GetBalance (w_bank w1) a d
     + at_ dex_addr (AmountOf [mkCoin hub_denom res]) a d
     - at_ (NewModuleAddress allocation_ModuleName) (AmountOf [mkCoin hub_denom res]) a d)) as [Hd2 Hb2].
  { clear Hi' Hd. destruct (Z.ltb_spec 0 res) as [Hpos|Hz]; cbn [negb] in Hpay.
    - apply bind_ok in Hpay as (hub & w3 & [Hhub ->]%lift_ok & Hpay).
      rewrite host_bond_denom in Hhub. injection Hhub as <-.
      apply bind_ok in Hpay as (c & w3 & [[-> _]%NewCoin_spec ->]%lift_ok & Hpay).
      apply bind_ok in Hpay as (cs & w3 & [[Hcs _]%NewCoins_spec ->]%lift_ok & Hpay).
      apply bank_ok in Hpay as (b & [Hm _]%SendM2M_spec & ->). split; [done|]. intros _ a d. cbn.
      rewrite Hm, Hcs, !bd_some. unfold at_, dex_addr. lia.
    - apply ret_ok in Hpay as [= ->]. split; [done|]. intros Hr0 a d. assert (res = 0) as -> by lia.
      unfold at_. rewrite AmountOf_single. repeat case_bool_decide; lia. }
  assert (w_bank w1 = w_bank w) as Hb1.
  { apply DistributeLPRewards_run in Hd as [[_ ->]|(? & _ & _ & _ & _ & _ & ->)]; done. }
  split; [done|]. rewrite Hd2. split; [|split; [|split]].
  - apply DistributeLPRewards_run in Hd as [[-> ->]|(de & _ & _ & _ & _ & _ & ->)]; [lia|done|done].
  - apply DistributeLPRewards_run in Hd as [[-> ->]|(de & _ & _ & Hde & _ & Hr0 & ->)]; [by left| |done].
    right. split; [lia|]. unfold lp_index. cbn. by rewrite <-Hde.
  - rewrite <-Hd2. apply (pi_rewards _ (di_pools _ Hi')).
  - intros a d. rewrite Hb2, Hb1 by lia. done.
Qed.
End end_block_properties.

(** ** What the exhaustive check establishes *)
Section exhaustive.
Context `{HostLaws, !ShieldedKeeper}.
Implicit Types (w : World) (s : DexStore).

Lemma auctionErthOwed_ro w r w' : auctionErthOwed w = Ok (r, w') → w' = w.
Proof. unfold auctionErthOwed. intros Hr. run_inv; try done; destruct (la_Status _); run_inv; done. Qed.

Lemma checkErthSolvency_ro w u w' : checkErthSolvency w = Ok (u, w') → w' = w.
Proof.
  unfold checkErthSolvency, HubDenom, getTotalPoolErth, getPendingLpRewards. intros Hr. run_inv.
  match goal with H : auctionErthOwed _ = _ |- _ => by apply auctionErthOwed_ro in H end.
Qed.

Lemma checkPoolTokenSolvency_ro id w u w' : checkPoolTokenSolvency id w = Ok (u, w') → w' = w.
Proof.
  unfold checkPoolTokenSolvency. intros Hr. run_inv; try done;
    match goal with H : auctionErthOwed _ = _ |- _ => by apply auctionErthOwed_ro in H end.
Qed.

Lemma checkAuctionBidSolvency_ro w u w' : checkAuctionBidSolvency w = Ok (u, w') → w' = w.
Proof. unfold checkAuctionBidSolvency. intros Hr. by run_inv. Qed.

(** The hot check writes its own two collections only. *)
Definition checker_only w w' : Prop :=
  ∃ X c, w' = upd_dex (λ s, set_k_SolvencyCursor (λ _, c) (set_k_DirtyPools (λ _, X) s)) w.

Lemma rotate_walk_ro ids st w r w' : rotate_walk ids st w = Ok (r, w') → w' = w.
Proof.
  revert st. induction ids as [|id ids IH]; intros [c n]; cbn [rotate_walk]; [by intros [= _ ->]%ret_ok|].
  destruct (_ <=? c); [by intros [= _ ->]%ret_ok|].
  intros Hr. apply bind_ok in Hr as ([] & w1 & ->%checkPoolTokenSolvency_ro & Hr). by eapply IH.
Qed.

Lemma AssertBoundedSolvency_ro w u w' : AssertBoundedSolvency w = Ok (u, w') → checker_only w w'.
Proof.
  unfold AssertBoundedSolvency. intros Hr.
  apply bind_ok in Hr as ([] & w1 & ->%checkErthSolvency_ro & Hr).
  apply bind_ok in Hr as ([] & w1 & ->%checkAuctionBidSolvency_ro & Hr).
  apply bind_ok in Hr as (dirty & w1 & [-> ->]%get_dex_ok & Hr).
  apply bind_ok in Hr as ([] & w1 & Hloop & Hr).
  assert (checker_only w w1) as (X & c & Hw1).
  { eapply (for_each_inv (checker_only w)) in Hloop; [exact Hloop| |].
    - intros id v v' _ (X & c & ->) Hr'.
      apply bind_ok in Hr' as ([] & v1 & ->%checkPoolTokenSolvency_ro & ->%set_dex_ok). by exists (X ∖ {[id]}), c.
    - exists (k_DirtyPools (w_dex w)), (k_SolvencyCursor (w_dex w)). by destruct w as [? ? ? ? []]. }
  unfold rotateSolvencyCheck in Hr.
  apply bind_ok in Hr as (cur & w2 & [-> ->]%get_dex_ok & Hr). apply bind_ok in Hr as (ids & w2 & [-> ->]%get_dex_ok & Hr).
  apply bind_ok in Hr as ([ck nx] & w2 & ->%rotate_walk_ro & Hr).
  apply bind_ok in Hr as ([ck2 nx2] & w2 & Hw2 & ->%set_dex_ok).
  assert (w2 = w1) as -> by (destruct (_ && _); [by apply rotate_walk_ro in Hw2|by apply ret_ok in Hw2 as [= _ _ ->]]).
  exists X, (Some nx2). by rewrite Hw1.
Qed.

Lemma sum_pools_ok (f : Pool → Z) w r w' :
  sum_pools f w = Ok (r, w') → w' = w ∧ r = map_sum (λ _, f) (k_Pool (w_dex w)).
Proof.
  unfold sum_pools. intros Hr. apply bind_ok in Hr as (l & w1 & [-> ->]%get_dex_ok & [Hr ->]%lift_ok). split; [done|].
  assert (∀ l a r, foldl (λ acc kv, x ← acc; IntAdd x (f (snd kv))) (Ok a) l = Ok r →
    r = a + list_sum (λ kv : Z * Pool, f kv.2) l) as Hf.
  { clear Hr. intros l1. induction l1 as [|[k p] l1 IH]; intros a r1; cbn [foldl]; [intros [= ->]; cbn; lia|].
    intros Hr. destruct (foldl_bind_ok (λ x kv, IntAdd x (f (snd kv))) _ _ _ Hr) as [b Hb].
    rewrite Hb in Hr. cbn in Hb. apply IntAdd_ok in Hb as [-> _]. apply IH in Hr.
    rewrite list_sum_cons. cbn in *. lia. }
  apply Hf in Hr as ->. rewrite Z.add_0_l. exact (iter_map_sum (λ _, f) _).
Qed.

Lemma sum_escrowed_ok (l : list (UnbondKey * LpUnbonding)) (m0 m : gmap Z Z) (id : Z) :
  foldl (λ (acc : outcome (gmap Z Z)) kv, m ← acc;
    let u := snd kv in
    s ← IntAdd (default 0 (m !! ub_PoolId u)) (Amount (ub_Shares u));
    mret (<[ub_PoolId u := s]> m)) (Ok m0) l = Ok m →
  default 0 (m !! id) = default 0 (m0 !! id) +
    list_sum (λ kv : UnbondKey * LpUnbonding, if ub_PoolId kv.2 =? id then Amount (ub_Shares kv.2) else 0) l.
Proof.
  revert m0. induction l as [|[k u] l IH]; intros m0; cbn [foldl].
  - intros [= ->]. cbn. lia.
  - intros Hr. destruct (foldl_bind_ok (λ (m : gmap Z Z) (kv : UnbondKey * LpUnbonding), let u := snd kv in
      s ← IntAdd (default 0 (m !! ub_PoolId u)) (Amount (ub_Shares u)); mret (<[ub_PoolId u := s]> m)) _ _ _ Hr) as [m1 Hm1].
    rewrite Hm1 in Hr. cbn in Hm1. apply outcome_bind_ok in Hm1 as (s & [-> _]%IntAdd_ok & [= <-]).
    apply IH in Hr as E1. rewrite E1, list_sum_cons. cbn. destruct (Z.eqb_spec (ub_PoolId u) id) as [->|Hne].
    + rewrite lookup_insert_eq. cbn. lia.
    + rewrite lookup_insert_ne by done. lia.
Qed.

(** What a report without problems says. *)
Definition backing_walk (escrowed pol : gmap Z Z) :=
  fix go (ids : list Z) (problems : list ShareProblem) : M (list ShareProblem) :=
     match ids with
     | [] => mret problems
     | id :: ids =>
         claimed ← lift (IntAdd 0 (default 0 (escrowed !! id)));
         claimed ← lift (match pol !! id with
                         | Some v => if 0 <? v then IntAdd claimed v else mret claimed
                         | None => mret claimed
                         end);
         bal ← get_bank (λ b, GetBalance b dex_addr (LPShareDenom id));
         supply ← totalShares id;
         go ids (problems ++ (if bal <? claimed then [ShortBalance id] else [])
                          ++ (if supply <? claimed then [ShortSupply id] else []))
     end.

Lemma backing_walk_ok (esc pol : gmap Z Z) ids problems w w' :
  backing_walk esc pol ids problems w = Ok ([], w') →
  w' = w ∧ problems = [] ∧ ∀ id, id ∈ ids →
    default 0 (esc !! id) + Z.max 0 (default 0 (pol !! id)) ≤ GetBalance (w_bank w) dex_addr (LPShareDenom id) ∧
    default 0 (esc !! id) + Z.max 0 (default 0 (pol !! id)) ≤ GetSupply (w_bank w) (LPShareDenom id).
Proof.
  revert problems. induction ids as [|id ids IH]; intros ps Hr; cbn [backing_walk] in Hr.
  - apply ret_ok in Hr as [= <- ->]. do 2 (split; [done|]). by intros ? ?%elem_of_nil.
  - apply bind_ok in Hr as (c1 & w1 & [[-> _]%IntAdd_ok ->]%lift_ok & Hr).
    apply bind_ok in Hr as (c2 & w1 & [Hc2 ->]%lift_ok & Hr).
    assert (c2 = default 0 (esc !! id) + Z.max 0 (default 0 (pol !! id))) as ->.
    { destruct (pol !! id) as [v|]; cbn; [|injection Hc2 as <-; lia].
      destruct (Z.ltb_spec 0 v); [apply IntAdd_ok in Hc2 as [-> _]; lia|injection Hc2 as <-; lia]. }
    apply bind_ok in Hr as (bal & w1 & [-> ->]%get_bank_ok & Hr).
    apply bind_ok in Hr as (sup & w1 & [-> ->]%get_bank_ok & Hr).
    apply IH in Hr as (-> & Hnil & Hall). split; [done|].
    apply app_nil in Hnil as [-> [H1' H2']%app_nil]. split; [done|].
    intros i [->|Hi]%elem_of_cons; [|by apply Hall].
    destruct (Z.ltb_spec (GetBalance (w_bank w) dex_addr (LPShareDenom id)) (default 0 (esc !! id) + Z.max 0 (default 0 (pol !! id)))); [done|].
    destruct (Z.ltb_spec (GetSupply (w_bank w) (LPShareDenom id)) (default 0 (esc !! id) + Z.max 0 (default 0 (pol !! id)))); [done|].
    lia.
Qed.

Lemma CheckShareBacking_ok w w' :
  CheckShareBacking w = Ok ([], w') →
  w' = w ∧ (∀ id b, k_PolBurns (w_dex w) !! id = Some b → 0 ≤ pb_SharesRemaining b ≤ pb_TotalShares b) ∧
  (∀ id, is_Some (k_PolBurns (w_dex w) !! id) ∨ escrowed (w_dex w) id ≠ 0 →
     lp_claims (w_dex w) id ≤ GetBalance (w_bank w) dex_addr (LPShareDenom id) ∧
     lp_claims (w_dex w) id ≤ GetSupply (w_bank w) (LPShareDenom id)).
Proof.
  unfold CheckShareBacking. intros Hr.
  apply bind_ok in Hr as (us & w1 & [-> ->]%get_dex_ok & Hr).
  apply bind_ok in Hr as (esc & w1 & [Hesc ->]%lift_ok & Hr).
  apply bind_ok in Hr as (bs & w1 & [-> ->]%get_dex_ok & Hr). cbv zeta in Hr.
  set (pol := list_to_map _) in Hr.
  apply (backing_walk_ok esc pol) in Hr as (-> & Hprob & Hall). split; [done|].
  assert (∀ id b, k_PolBurns (w_dex w) !! id = Some b → pol_problems (id, b) = []) as Hnone.
  { intros id b Hb. destruct (pol_problems (id, b)) as [|x l] eqn:E; [done|]. exfalso.
    assert (x ∈ mbind pol_problems (iter_map (k_PolBurns (w_dex w)))) as Hx.
    { apply list_elem_of_bind. exists (id, b). rewrite E. split; [left|]. by apply elem_of_iter_map. }
    rewrite Hprob in Hx. by apply elem_of_nil in Hx. }
  assert (∀ id b, k_PolBurns (w_dex w) !! id = Some b → 0 ≤ pb_SharesRemaining b ≤ pb_TotalShares b) as Hrange.
  { intros id b Hb. specialize (Hnone _ _ Hb). cbn in Hnone. apply app_nil in Hnone as [N1 N2].
    destruct (Z.ltb_spec (pb_SharesRemaining b) 0); [done|].
    destruct (Z.ltb_spec (pb_TotalShares b) (pb_SharesRemaining b)); [done|]. lia. }
  split; [exact Hrange|].
  assert (∀ id, pol !! id = pb_SharesRemaining <$> k_PolBurns (w_dex w) !! id) as Hpol.
  { intros id. unfold pol. rewrite <-lookup_fmap. f_equal. apply map_eq. intros i. apply option_eq. intros v.
    rewrite lookup_fmap, fmap_Some.
    rewrite <-elem_of_list_to_map.
    - rewrite list_elem_of_fmap. split.
      + intros ([k b] & [= -> ->] & Hk%elem_of_iter_map). eauto.
      + intros (b & Hb & ->). exists (i, b). split; [done|]. by apply elem_of_iter_map.
    - rewrite <-list_fmap_compose. rewrite (list_fmap_ext _ fst); [apply iter_map_NoDup|]. by intros ? [] _. }
  assert (∀ id, default 0 (esc !! id) = escrowed (w_dex w) id) as Hescr.
  { intros id. unfold sum_escrowed in Hesc. apply (sum_escrowed_ok _ _ _ id) in Hesc as ->. rewrite lookup_empty. cbn.
    exact (iter_map_sum (λ (_ : UnbondKey) u, if ub_PoolId u =? id then Amount (ub_Shares u) else 0) _). }
  intros id Hid. specialize (Hall id).
  assert (pol_remaining (w_dex w) id = default 0 (pol !! id) ∧ 0 ≤ default 0 (pol !! id)) as [Hrem Hge].
  { rewrite Hpol. unfold pol_remaining. destruct (k_PolBurns (w_dex w) !! id) as [b|] eqn:Hb; cbn; [|done].
    specialize (Hrange _ _ Hb). lia. }
  unfold lp_claims. rewrite Hrem, <-Hescr. rewrite Z.max_r in Hall by done. apply Hall.
  apply elem_of_iter_set, elem_of_union. rewrite !elem_of_dom. destruct Hid as [Hs|Hne].
  - right. rewrite Hpol. by apply fmap_is_Some.
  - left. rewrite <-Hescr in Hne. destruct (esc !! id); [by eexists|done].
Qed.

(** The exhaustive check is sound: when [AssertInvariants] passes, the running ERTH total and the running
    volume are the sums over the pools, every retirement schedule is within its range, and for every pool
    the module's LP balance and the LP supply both cover the shares escrowed for withdrawals together
    with the module's own position; the check writes only its own dirty set and cursor. *)
Theorem exhaustive_check_sound w w' :
  AssertInvariants w = Ok ((), w') →
  default 0 (k_TotalPoolErth (w_dex w)) = map_sum (λ _ p, Amount (pl_ReserveErth p)) (k_Pool (w_dex w)) ∧
  total_volume (w_dex w) = map_sum (λ _ p, pl_VolumeWeight p) (k_Pool (w_dex w)) ∧
  (∀ id b, k_PolBurns (w_dex w) !! id = Some b → 0 ≤ pb_SharesRemaining b ≤ pb_TotalShares b) ∧
  (∀ id, is_Some (k_PolBurns (w_dex w) !! id) ∨ escrowed (w_dex w) id ≠ 0 →
     lp_claims (w_dex w) id ≤ GetBalance (w_bank w) dex_addr (LPShareDenom id) ∧
     lp_claims (w_dex w) id ≤ GetSupply (w_bank w) (LPShareDenom id)) ∧
  checker_only w w'.
Proof.
  unfold AssertInvariants, assertHotInvariants, CheckErthTotalAccounting, CheckVolumeAccounting. intros Hr.
  apply bind_ok in Hr as ([] & w1 & Hw1%AssertBoundedSolvency_ro & Hr).
  apply bind_ok in Hr as ([] & w2 & He & Hr).
  apply bind_ok in He as (st & w3 & [-> ->]%get_dex_ok & He).
  apply bind_ok in He as (sm & w3 & [-> ->]%sum_pools_ok & [He ->]%refuse_if_ok).
  apply bind_ok in Hr as ([st sm] & w2 & Hv & Hr).
  apply bind_ok in Hv as (sv & w3 & [-> ->]%get_dex_ok & Hv).
  apply bind_ok in Hv as (sm' & w3 & [-> ->]%sum_pools_ok & [= -> -> ->]%ret_ok).
  apply bind_ok in Hr as ([] & w2 & [Hv ->]%refuse_if_ok & Hr).
  apply bind_ok in Hr as (rep & w2 & Hrep & [Hemp ->]%refuse_if_ok).
  destruct rep; [|done]. clear Hemp.
  destruct Hw1 as (X & c & Hw1). assert (checker_only w w1) as Hco by (by exists X, c).
  apply CheckShareBacking_ok in Hrep as (-> & Hpol & Hback). rewrite Hw1 in He, Hv, Hpol, Hback. cbn in He, Hv, Hpol, Hback.
  apply negb_false_iff, Z.eqb_eq in He, Hv.
  split; [exact He|]. split; [exact Hv|]. split; [exact Hpol|]. split; [exact Hback|done].
Qed.
End exhaustive.
