(* ===== verification/DexChain.v ===== *)
(** * x/dex on the chain: reachable states

    A step is a message of the module, a call another module makes into it, the end of a block, or
    anything else on the chain that leaves the module's store and account alone.  A message that fails
    changes nothing (the transaction is rolled back) and is no step. *)

From S2P Require Export DexEndBlock.

Section chain.
Context `{Host, !ShieldedKeeper}.
Variable authority : bytes.

(** A signer: an address that is not the module's own account, which has no key. *)
Definition signer (addr : string) : Prop := StringToBytes addr ≠ Ok dex_addr.

Inductive step : World → World → Prop :=
| step_swap msg out w w' : signer (sw_Creator msg) → Swap msg w = Ok (out, w') → step w w'
| step_module_swap m tokenIn denomOut minOut out w w' : m ≠ "" → m ≠ ModuleName →
    SwapExactInForModule m tokenIn denomOut minOut w = Ok (out, w') → step w w'
| step_create_pool msg id w w' : signer (cp_Creator msg) → CreatePool msg w = Ok (id, w') → step w w'
| step_add_liquidity msg sh w w' : signer (al_Creator msg) → AddLiquidity msg w = Ok (sh, w') → step w w'
| step_remove_liquidity msg t w w' : signer (rl_Creator msg) → RemoveLiquidity msg w = Ok (t, w') → step w w'
| step_buy_anml msg r w w' : signer (ba_Creator msg) → BuyAnml msg w = Ok (r, w') → step w w'
| step_note_swap m w w' : ExecutePrivateAction (NoteSwapMsg m) w = Ok ((), w') → step w w'
| step_add_shielded m w w' : ExecutePrivateAction (AddLiquidityShieldedMsg m) w = Ok ((), w') → step w w'
| step_remove_shielded m w w' : fresh_withdrawal m w →
    ExecutePrivateAction (RemoveLiquidityShieldedMsg m) w = Ok ((), w') → step w w'
| step_start_auction msg t w w' : StartLiquidityAuction authority msg w = Ok (t, w') → step w w'
| step_bid msg c w w' : signer (bd_Bidder msg) → BidLiquidityAuction msg w = Ok (c, w') → step w w'
| step_claim msg c w w' : ClaimLiquidityAuction msg w = Ok (c, w') → step w w'
| step_update_params req w w' : 0 ≤ LpUnbondingSeconds (up_Params req) → 0 ≤ VolumeDepthCapPerDay (up_Params req) →
    UpdateParams authority req w = Ok ((), w') → step w w'
| step_lp_rewards accrued r w w' : 0 < accrued → LPRewardsHandler accrued w = Ok (r, w') → step w w'
| step_twap d r w w' : TwapObservation d w = Ok (r, w') → step w w'
| step_end_block w w' : EndBlock w = Ok ((), w') → step w w'
| step_other w w' : w_dex w' = w_dex w → (∀ d, GetBalance (w_bank w') dex_addr d = GetBalance (w_bank w) dex_addr d) →
    step w w'.

Definition reachable : World → World → Prop := rtc step.
End chain.

Section chain_inv.
Context `{HostLaws, !ShieldedKeeper, !ShieldedLaws}.
Implicit Types w : World.

(** The price accumulator: no figure of the invariant reads it. *)
Lemma set_price_inv f g w : dex_inv w → dex_inv (upd_dex (λ s, set_price (f s) (g s) s) w).
Proof.
  intros [Hp ? [] ? ? ? []]. split; [|done|by split|done|done|done|by split]. by eapply same_pools_inv; [|exact Hp].
Qed.

Lemma TwapObservation_inv d r w w' : dex_inv w → TwapObservation d w = Ok (r, w') → dex_inv w'.
Proof.
  intros Hi Hr. unfold TwapObservation in Hr. apply bind_ok in Hr as (p & w1 & Hp & Hr). apply or_error_ok in Hp.
  apply PoolForToken_ok in Hp as (-> & _); [|apply Hi]. apply bind_ok in Hr as ([price|] & w1 & [_ ->]%lift_ok & Hr); [|by apply fail_ok in Hr].
  apply bind_ok in Hr as ([] & w1 & ->%advancePriceCumulative_ok & Hr). apply bind_ok in Hr as ([cum at_] & w2 & Hg & [= _ ->]%ret_ok).
  unfold getPriceCumulative in Hg. run_inv. by apply set_price_inv.
Qed.

Lemma step_inv authority w w' : step authority w w' → dex_inv w → dex_inv w'.
Proof.
  destruct 1 as [msg out w w' Hs Hr|m ti dout mo out w w' Hm1 Hm2 Hr|msg id w w' Hs Hr|msg sh w w' Hs Hr
    |msg t w w' Hs Hr|msg [o p] w w' Hs Hr|m w w' Hr|m w w' Hr|m w w' Hf Hr|msg t w w' Hr|msg c w w' Hs Hr|msg c w w' Hr
    |req w w' Hu1 Hu2 Hr|acc r w w' Ha Hr|d r w w' Hr|w w' Hr|w w' Hd Hb]; intros Hi.
  - by apply Swap_spec in Hr as [? _].
  - apply swap_self_spec in Hr as [? _]; [done|done|right; left; by split|done].
  - by apply CreatePool_spec in Hr as [? _].
  - by apply AddLiquidity_spec in Hr as [? _].
  - apply RemoveLiquidity_spec in Hr as [? _]; [done|done|]. intros a Ha ->. by apply Hs.
  - by apply BuyAnml_spec in Hr as [? _].
  - cbn in Hr. apply bind_ok in Hr as ([o p] & w1 & Hr & [= ->]%ret_ok). by apply executeNoteSwap_spec in Hr as [? _].
  - cbn in Hr. apply bind_ok in Hr as ([[[sh re] rt] p] & w1 & Hr & [= ->]%ret_ok).
    by apply executeAddShielded_spec in Hr as [? _].
  - cbn in Hr. apply bind_ok in Hr as (t & w1 & Hr & [= ->]%ret_ok). by apply executeRemoveShielded_spec in Hr as [? _].
  - by apply StartLiquidityAuction_spec in Hr as [? _].
  - apply BidLiquidityAuction_spec in Hr as [? _]; [done|done|]. intros a Ha ->. by apply Hs.
  - by apply ClaimLiquidityAuction_spec in Hr as [? _].
  - by apply UpdateParams_spec in Hr as [? _].
  - by apply LPRewardsHandler_spec in Hr as [? _].
  - by eapply TwapObservation_inv.
  - destruct (EndBlock_ok w Hi) as (w1 & Hr1 & Hi1 & _). congruence.
  - destruct Hi. split; rewrite ?Hd; try done. destruct di_solvent as [Hs1 Hs2].
    split; intros; rewrite Hb; auto.
Qed.

Lemma reachable_inv authority w w' : reachable authority w w' → dex_inv w → dex_inv w'.
Proof. induction 1; [done|]. intros Hi. eauto using step_inv. Qed.
End chain_inv.

(** ** Properties *)
Section chain_properties.
Context `{HostLaws, !ShieldedKeeper, !ShieldedLaws}.
Implicit Types w : World.

(** C1: The dex stays solvent to the unit: in every state reachable from a good one, the module's account
    holds of each asset exactly the pools' reserves, the unsettled rewards and the auction's money; it
    holds at least the LP shares escrowed for withdrawals and those of its own position; the reserves
    stay within the cap and the running totals are the sums they stand for. *)
Theorem reachable_solvent authority w w' :
  dex_inv w → reachable authority w w' →
  (∀ d, IsLPShareDenom d = false → GetBalance (w_bank w') dex_addr d =
     map_sum (λ _, pool_holds d) (k_Pool (w_dex w')) +
     (if bool_decide (d = hub_denom) then pending (w_dex w') else 0) +
     (match k_LiquidityAuction (w_dex w') with Some a => auction_holds a d | None => 0 end)) ∧
  (∀ id, 0 ≤ id → escrowed (w_dex w') id + pol_remaining (w_dex w') id ≤
     GetBalance (w_bank w') dex_addr (LPShareDenom id)) ∧
  (∀ id p, k_Pool (w_dex w') !! id = Some p →
     0 ≤ Amount (pl_ReserveErth p) ≤ MaxPoolAmount ∧ 0 ≤ Amount (pl_ReserveToken p) ≤ MaxPoolAmount ∧
     k_PoolByToken (w_dex w') !! Denom (pl_ReserveToken p) = Some id) ∧
  default 0 (k_TotalPoolErth (w_dex w')) = map_sum (λ _ p, Amount (pl_ReserveErth p)) (k_Pool (w_dex w')) ∧
  total_volume (w_dex w') = map_sum (λ _ p, pl_VolumeWeight p) (k_Pool (w_dex w')).
Proof.
  intros Hi Hr. pose proof (reachable_inv _ _ _ Hr Hi) as [].
  split; [apply di_solvent|]. split; [apply di_solvent|]. split; [|split; apply di_pools].
  intros id p Hp. destruct (pi_pool _ di_pools _ _ Hp). done.
Qed.

(** C2: The end of a block never halts the chain: in every state reachable from a good one, whatever its
    queues, auction and schedules hold and whatever fails inside its steps, [EndBlock] returns without
    an error, its solvency check included. *)
Theorem end_block_never_halts authority w w' :
  dex_inv w → reachable authority w w' → ∃ w'', EndBlock w' = Ok ((), w'').
Proof.
  intros Hi Hr. pose proof (reachable_inv _ _ _ Hr Hi) as Hi'.
  destruct (EndBlock_ok w' Hi') as (w'' & Hb & _). by exists w''.
Qed.
End chain_properties.
