(* ===== verification/KeyOrder.v ===== *)
(** * The order of store keys

    The comparison of encoded keys is a total order, so a [collections] walk over a key set meets the entries of any
    kind smallest first: what the time-ordered queues of the block hooks rely on. *)

From S2P Require Export Prelude.

Class KeyCmpLaws (K : Type) `{KeyCmp K} : Prop := {
  key_cmp_eq (a b : K) : key_cmp a b = Eq ↔ a = b;
  key_cmp_opp (a b : K) : key_cmp b a = CompOpp (key_cmp a b);
  key_cmp_lt_trans (a b c : K) : key_cmp a b = Lt → key_cmp b c = Lt → key_cmp a c = Lt;
}.

#[export] Instance KeyCmpLaws_Z : KeyCmpLaws Z.
Proof.
  split; unfold key_cmp, KeyCmp_Z.
  - apply Z.compare_eq_iff.
  - apply Z.compare_antisym.
  - intros a b c. rewrite !Z.compare_lt_iff. lia.
Qed.

Lemma key_cmp_prod {A B} `{KeyCmp A, KeyCmp B} (x y : A * B) :
  key_cmp x y = match key_cmp (fst x) (fst y) with Eq => key_cmp (snd x) (snd y) | c => c end.
Proof. done. Qed.

Lemma key_cmp_refl {K} `{KeyCmpLaws K} (a : K) : key_cmp a a = Eq.
Proof. by apply key_cmp_eq. Qed.

#[export] Instance KeyCmpLaws_prod {A B} `{KeyCmpLaws A, KeyCmpLaws B} : KeyCmpLaws (A * B).
Proof.
  split.
  - intros [a b] [a' b']. rewrite key_cmp_prod. cbn [fst snd]. destruct (key_cmp a a') eqn:E.
    + apply key_cmp_eq in E as ->. rewrite key_cmp_eq. split; congruence.
    + split; [done|]. intros [= -> ->]. by rewrite key_cmp_refl in E.
    + split; [done|]. intros [= -> ->]. by rewrite key_cmp_refl in E.
  - intros [a b] [a' b']. rewrite !key_cmp_prod. cbn [fst snd]. rewrite (key_cmp_opp a a').
    destruct (key_cmp a a'); cbn [CompOpp]; [|done..]. apply key_cmp_opp.
  - intros [a b] [a' b'] [a2 b2]. rewrite !key_cmp_prod. cbn [fst snd].
    destruct (key_cmp a a') eqn:E1; [|intros _|done].
    + apply key_cmp_eq in E1 as ->. intros Hb. destruct (key_cmp a' a2); [|done..]. intros Hb2. by eapply key_cmp_lt_trans.
    + destruct (key_cmp a' a2) eqn:E2; [|intros _|done].
      * apply key_cmp_eq in E2 as <-. by rewrite E1.
      * by rewrite (key_cmp_lt_trans _ _ _ E1 E2).
Qed.

Lemma key_cmp_cons {A} `{KeyCmp A} (a b : A) (x y : list A) :
  key_cmp (a :: x) (b :: y) = match key_cmp a b with Eq => key_cmp x y | c => c end.
Proof. done. Qed.

#[export] Instance KeyCmpLaws_list {A} `{KeyCmpLaws A} : KeyCmpLaws (list A).
Proof.
  split.
  - intros x. induction x as [|a x IH]; intros [|b y]; [done..|]. rewrite key_cmp_cons.
    destruct (key_cmp a b) eqn:E.
    + apply key_cmp_eq in E as ->. rewrite IH. split; congruence.
    + split; [done|]. intros [= -> ->]. by rewrite key_cmp_refl in E.
    + split; [done|]. intros [= -> ->]. by rewrite key_cmp_refl in E.
  - intros x. induction x as [|a x IH]; intros [|b y]; [done..|]. rewrite !key_cmp_cons, (key_cmp_opp a b).
    destruct (key_cmp a b); cbn [CompOpp]; [|done..]. apply IH.
  - intros x. induction x as [|a x IH]; intros [|b y] [|c z]; try done. rewrite !key_cmp_cons.
    destruct (key_cmp a b) eqn:E1; [|intros _|done].
    + apply key_cmp_eq in E1 as ->. intros Hb. destruct (key_cmp b c); [|done..]. intros Hb2. by eapply IH.
    + destruct (key_cmp b c) eqn:E2; [|intros _|done].
      * apply key_cmp_eq in E2 as <-. by rewrite E1.
      * by rewrite (key_cmp_lt_trans _ _ _ E1 E2).
Qed.

Section order.
Context {K : Type} `{KeyCmpLaws K}.

#[export] Instance key_le_total : Total (key_le (K := K)).
Proof. intros a b. unfold key_le. rewrite (key_cmp_opp a b). destruct (key_cmp a b); cbn; auto. Qed.

#[export] Instance key_le_trans : Transitive (key_le (K := K)).
Proof.
  intros a b c. unfold key_le. destruct (key_cmp a b) eqn:E1; [|intros _|done].
  - by apply key_cmp_eq in E1 as ->.
  - destruct (key_cmp b c) eqn:E2; [|intros _|done].
    + apply key_cmp_eq in E2 as ->. intros _. by rewrite E1.
    + by rewrite (key_cmp_lt_trans _ _ _ E1 E2).
Qed.

Context `{!EqDecision K, !Countable K}.

Lemma iter_set_sorted (X : gset K) : StronglySorted key_le (iter_set X).
Proof. apply StronglySorted_merge_sort; apply _. Qed.

(** The first entry of a kind is the smallest of that kind. *)
Lemma first_of_kind (Q : K → Prop) `{∀ k, Decision (Q k)} (X : gset K) :
  match head (filter Q (iter_set X)) with
  | Some e => e ∈ X ∧ Q e ∧ ∀ e', e' ∈ X → Q e' → key_le e e'
  | None => ∀ e', e' ∈ X → ¬ Q e'
  end.
Proof.
  assert (∀ e, e ∈ filter Q (iter_set X) ↔ Q e ∧ e ∈ X) as Hin by (intros e; by rewrite list_elem_of_filter, elem_of_iter_set).
  pose proof (iter_set_sorted X) as Hs.
  assert (StronglySorted key_le (filter Q (iter_set X))) as Hf.
  { clear Hin. induction Hs as [|a l _ IH Ha]; [constructor|]. rewrite filter_cons. destruct (decide (Q a)); [|done]. constructor; [done|].
    rewrite !Forall_forall in *. intros x [_ Hx]%list_elem_of_filter. by apply Ha. }
  destruct (filter Q (iter_set X)) as [|e l] eqn:E; cbn.
  - intros e' He' HQ. by eapply not_elem_of_nil, Hin.
  - destruct (proj1 (Hin e) ltac:(left)) as [HQ He]. split; [done|]. split; [done|]. intros e' He' HQ'.
    assert (e' ∈ e :: l) as [->|Hl]%elem_of_cons by (by apply Hin).
    + unfold key_le. by rewrite key_cmp_refl.
    + apply StronglySorted_inv in Hf as [_ Hf]. rewrite Forall_forall in Hf. by apply Hf.
Qed.
End order.

Lemma key_le_fst {A B} `{KeyCmp A, KeyCmp B} (x y : A * B) : key_le x y → key_le (fst x) (fst y).
Proof. unfold key_le. rewrite key_cmp_prod. by destruct (key_cmp x.1 y.1). Qed.
Lemma key_le_Z (x y : Z) : key_le x y ↔ x ≤ y.
Proof. done. Qed.
