(* ===== verification/AllocTypes.v ===== *)
(** * x/allocation: types, store and state

    [x/allocation/types] (keys.go, errors.go, params.go, allocation.proto), the keeper's collections, and the state a call runs
    on: the module's own store beside the [World] of the modules modelled here and the stores of the others.  Every collection is keyed by the stream
    first; a stream is the number of its [StreamId]. *)

From S2P Require Export DexEndBlock KeyOrder.

(** ** keys.go *)
Definition STREAM_ID_CARETAKER : Z := 1.
Definition STREAM_ID_GROUNDWORKS : Z := 2.
Definition Streams : list Z := [STREAM_ID_CARETAKER; STREAM_ID_GROUNDWORKS].
Definition EmissionPerSecond : Z := EmissionPerSecondPerPillar.
Definition PpmDenominator : Z := 1000000.
Definition OptionIdleGrace : Z := 30 * 24 * 60 * 60.
Definition OptionPruneSweepLimit : nat := 20.
Definition MaxDescriptionLen : nat := 256.
Definition MaxVoterOptions : nat := 20.
Definition SourceAllocation : string := "allocation".

(** ** errors.go *)
Definition alloc_error (code : Z) : error := Sentinel "allocation" code.
Definition alloc_ErrInvalidSigner : error := alloc_error 1100.
Definition ErrOptionNotFound : error := alloc_error 1101.
Definition ErrBadPercentages : error := alloc_error 1102.
Definition ErrNotClaimable : error := alloc_error 1104.
Definition ErrNoWeight : error := alloc_error 1105.
Definition ErrUnknownHandler : error := alloc_error 1106.
Definition ErrUnknownStream : error := alloc_error 1107.
Definition alloc_ErrInvariantBroken : error := alloc_error 1108.
Definition ErrDescriptionTooLong : error := alloc_error 1109.
Definition ErrStreamNotResettable : error := alloc_error 1110.
Definition ErrOptionRemoved : error := alloc_error 1111.

Definition ValidateDescription (description : string) : outcome () :=
  refuse (MaxDescriptionLen <? String.length description)%nat ErrDescriptionTooLong.
Definition ValidateStreamId (stream : Z) : outcome () :=
  refuse (negb (bool_decide (stream ∈ Streams))) ErrUnknownStream.

(** ** allocation.proto *)
Inductive AllocationKind := ALLOCATION_KIND_UNSPECIFIED | ALLOCATION_KIND_INTEGRATED | ALLOCATION_KIND_ADDRESS.
#[export] Instance AllocationKind_eq_dec : EqDecision AllocationKind.
Proof. solve_decision. Defined.

Record AllocationOption := mkOption {
  op_Id : Z;
  op_Stream : Z;
  op_Description : string;
  op_Kind : AllocationKind;
  op_Recipient : string;
  op_Handler : string;
  op_Claimer : string;
  op_AmountAllocated : Z;
  op_LastRewardIndex : Z;
  op_Removed : bool;
  op_Accumulated : Z;
}.

(** The three figures an operation changes. *)
Definition set_op (amount last acc : Z) (o : AllocationOption) : AllocationOption :=
  mkOption (op_Id o) (op_Stream o) (op_Description o) (op_Kind o) (op_Recipient o) (op_Handler o) (op_Claimer o)
    amount last (op_Removed o) acc.
Definition set_op_AmountAllocated (a : Z) (o : AllocationOption) : AllocationOption :=
  set_op a (op_LastRewardIndex o) (op_Accumulated o) o.
Definition set_op_Accumulated (a : Z) (o : AllocationOption) : AllocationOption :=
  set_op (op_AmountAllocated o) (op_LastRewardIndex o) a o.

Record AllocationWeight := mkAllocationWeight { wt_OptionId : Z; wt_Percent : Z }.
Record OptionWeight := mkOptionWeight { ow_OptionId : Z; ow_Weight : Z }.

Record Voter := mkVoter {
  vt_Percentages : list AllocationWeight;
  vt_Weight : Z;
  vt_Epoch : Z;
  vt_OptionWeights : list OptionWeight;
  vt_ExpiresAt : Z;
}.

(** ** params.go *)
Record AllocParams := mkAllocParams { ap_AddressOptionFee : Z; ap_GroundworksLeaseSeconds : Z }.
Definition DefaultGroundworksLeaseSeconds : Z := 365 * 24 * 60 * 60.
Definition MinGroundworksLeaseSeconds : Z := 24 * 60 * 60.
Definition MaxGroundworksLeaseSeconds : Z := 2 * 365 * 24 * 60 * 60.

Definition GroundworksLeaseSecondsOrDefault (p : AllocParams) : Z :=
  if ap_GroundworksLeaseSeconds p =? 0 then DefaultGroundworksLeaseSeconds else ap_GroundworksLeaseSeconds p.

Definition AllocParamsValidate (p : AllocParams) : outcome () :=
  let l := ap_GroundworksLeaseSeconds p in
  refuse (negb (l =? 0) && ((l <? MinGroundworksLeaseSeconds) || (MaxGroundworksLeaseSeconds <? l)))
    (Plain "groundworks_lease_seconds out of range").

(** ** keeper.go: the collections *)
Record AllocStore := mkAllocStore {
  l_Params : option AllocParams;
  l_Options : gmap (Z * Z) AllocationOption;
  l_OptionSeq : gmap Z Z;
  l_Voters : gmap (Z * bytes) Voter;
  l_RewardIndex : gmap Z Z;
  l_TotalWeight : gmap Z Z;
  l_SummedWeight : gmap Z Z;
  l_LastUpkeep : gmap Z Z;
  l_Epoch : gmap Z Z;
  l_IntegratedOptions : gset (Z * Z);
  l_SummedAccrued : option Z;
  l_Residue : option Z;
  l_PruneQueue : gset (Z * Z * Z);
  l_PruneDue : gmap (Z * Z) Z;
  l_SlashedValidators : gset bytes;
  l_VoterLapses : gset (Z * Z * bytes);
}.

Definition set_l_Params (f : option AllocParams → option AllocParams) (s : AllocStore) : AllocStore :=
  mkAllocStore (f (l_Params s)) (l_Options s) (l_OptionSeq s) (l_Voters s) (l_RewardIndex s) (l_TotalWeight s) (l_SummedWeight s) (l_LastUpkeep s) (l_Epoch s) (l_IntegratedOptions s) (l_SummedAccrued s) (l_Residue s) (l_PruneQueue s) (l_PruneDue s) (l_SlashedValidators s) (l_VoterLapses s).
Definition set_l_Options (f : gmap (Z * Z) AllocationOption → gmap (Z * Z) AllocationOption) (s : AllocStore) : AllocStore :=
  mkAllocStore (l_Params s) (f (l_Options s)) (l_OptionSeq s) (l_Voters s) (l_RewardIndex s) (l_TotalWeight s) (l_SummedWeight s) (l_LastUpkeep s) (l_Epoch s) (l_IntegratedOptions s) (l_SummedAccrued s) (l_Residue s) (l_PruneQueue s) (l_PruneDue s) (l_SlashedValidators s) (l_VoterLapses s).
Definition set_l_OptionSeq (f : gmap Z Z → gmap Z Z) (s : AllocStore) : AllocStore :=
  mkAllocStore (l_Params s) (l_Options s) (f (l_OptionSeq s)) (l_Voters s) (l_RewardIndex s) (l_TotalWeight s) (l_SummedWeight s) (l_LastUpkeep s) (l_Epoch s) (l_IntegratedOptions s) (l_SummedAccrued s) (l_Residue s) (l_PruneQueue s) (l_PruneDue s) (l_SlashedValidators s) (l_VoterLapses s).
Definition set_l_Voters (f : gmap (Z * bytes) Voter → gmap (Z * bytes) Voter) (s : AllocStore) : AllocStore :=
  mkAllocStore (l_Params s) (l_Options s) (l_OptionSeq s) (f (l_Voters s)) (l_RewardIndex s) (l_TotalWeight s) (l_SummedWeight s) (l_LastUpkeep s) (l_Epoch s) (l_IntegratedOptions s) (l_SummedAccrued s) (l_Residue s) (l_PruneQueue s) (l_PruneDue s) (l_SlashedValidators s) (l_VoterLapses s).
Definition set_l_RewardIndex (f : gmap Z Z → gmap Z Z) (s : AllocStore) : AllocStore :=
  mkAllocStore (l_Params s) (l_Options s) (l_OptionSeq s) (l_Voters s) (f (l_RewardIndex s)) (l_TotalWeight s) (l_SummedWeight s) (l_LastUpkeep s) (l_Epoch s) (l_IntegratedOptions s) (l_SummedAccrued s) (l_Residue s) (l_PruneQueue s) (l_PruneDue s) (l_SlashedValidators s) (l_VoterLapses s).
Definition set_l_TotalWeight (f : gmap Z Z → gmap Z Z) (s : AllocStore) : AllocStore :=
  mkAllocStore (l_Params s) (l_Options s) (l_OptionSeq s) (l_Voters s) (l_RewardIndex s) (f (l_TotalWeight s)) (l_SummedWeight s) (l_LastUpkeep s) (l_Epoch s) (l_IntegratedOptions s) (l_SummedAccrued s) (l_Residue s) (l_PruneQueue s) (l_PruneDue s) (l_SlashedValidators s) (l_VoterLapses s).
Definition set_l_SummedWeight (f : gmap Z Z → gmap Z Z) (s : AllocStore) : AllocStore :=
  mkAllocStore (l_Params s) (l_Options s) (l_OptionSeq s) (l_Voters s) (l_RewardIndex s) (l_TotalWeight s) (f (l_SummedWeight s)) (l_LastUpkeep s) (l_Epoch s) (l_IntegratedOptions s) (l_SummedAccrued s) (l_Residue s) (l_PruneQueue s) (l_PruneDue s) (l_SlashedValidators s) (l_VoterLapses s).
Definition set_l_LastUpkeep (f : gmap Z Z → gmap Z Z) (s : AllocStore) : AllocStore :=
  mkAllocStore (l_Params s) (l_Options s) (l_OptionSeq s) (l_Voters s) (l_RewardIndex s) (l_TotalWeight s) (l_SummedWeight s) (f (l_LastUpkeep s)) (l_Epoch s) (l_IntegratedOptions s) (l_SummedAccrued s) (l_Residue s) (l_PruneQueue s) (l_PruneDue s) (l_SlashedValidators s) (l_VoterLapses s).
Definition set_l_Epoch (f : gmap Z Z → gmap Z Z) (s : AllocStore) : AllocStore :=
  mkAllocStore (l_Params s) (l_Options s) (l_OptionSeq s) (l_Voters s) (l_RewardIndex s) (l_TotalWeight s) (l_SummedWeight s) (l_LastUpkeep s) (f (l_Epoch s)) (l_IntegratedOptions s) (l_SummedAccrued s) (l_Residue s) (l_PruneQueue s) (l_PruneDue s) (l_SlashedValidators s) (l_VoterLapses s).
Definition set_l_IntegratedOptions (f : gset (Z * Z) → gset (Z * Z)) (s : AllocStore) : AllocStore :=
  mkAllocStore (l_Params s) (l_Options s) (l_OptionSeq s) (l_Voters s) (l_RewardIndex s) (l_TotalWeight s) (l_SummedWeight s) (l_LastUpkeep s) (l_Epoch s) (f (l_IntegratedOptions s)) (l_SummedAccrued s) (l_Residue s) (l_PruneQueue s) (l_PruneDue s) (l_SlashedValidators s) (l_VoterLapses s).
Definition set_l_SummedAccrued (f : option Z → option Z) (s : AllocStore) : AllocStore :=
  mkAllocStore (l_Params s) (l_Options s) (l_OptionSeq s) (l_Voters s) (l_RewardIndex s) (l_TotalWeight s) (l_SummedWeight s) (l_LastUpkeep s) (l_Epoch s) (l_IntegratedOptions s) (f (l_SummedAccrued s)) (l_Residue s) (l_PruneQueue s) (l_PruneDue s) (l_SlashedValidators s) (l_VoterLapses s).
Definition set_l_Residue (f : option Z → option Z) (s : AllocStore) : AllocStore :=
  mkAllocStore (l_Params s) (l_Options s) (l_OptionSeq s) (l_Voters s) (l_RewardIndex s) (l_TotalWeight s) (l_SummedWeight s) (l_LastUpkeep s) (l_Epoch s) (l_IntegratedOptions s) (l_SummedAccrued s) (f (l_Residue s)) (l_PruneQueue s) (l_PruneDue s) (l_SlashedValidators s) (l_VoterLapses s).
Definition set_l_PruneQueue (f : gset (Z * Z * Z) → gset (Z * Z * Z)) (s : AllocStore) : AllocStore :=
  mkAllocStore (l_Params s) (l_Options s) (l_OptionSeq s) (l_Voters s) (l_RewardIndex s) (l_TotalWeight s) (l_SummedWeight s) (l_LastUpkeep s) (l_Epoch s) (l_IntegratedOptions s) (l_SummedAccrued s) (l_Residue s) (f (l_PruneQueue s)) (l_PruneDue s) (l_SlashedValidators s) (l_VoterLapses s).
Definition set_l_PruneDue (f : gmap (Z * Z) Z → gmap (Z * Z) Z) (s : AllocStore) : AllocStore :=
  mkAllocStore (l_Params s) (l_Options s) (l_OptionSeq s) (l_Voters s) (l_RewardIndex s) (l_TotalWeight s) (l_SummedWeight s) (l_LastUpkeep s) (l_Epoch s) (l_IntegratedOptions s) (l_SummedAccrued s) (l_Residue s) (l_PruneQueue s) (f (l_PruneDue s)) (l_SlashedValidators s) (l_VoterLapses s).
Definition set_l_SlashedValidators (f : gset bytes → gset bytes) (s : AllocStore) : AllocStore :=
  mkAllocStore (l_Params s) (l_Options s) (l_OptionSeq s) (l_Voters s) (l_RewardIndex s) (l_TotalWeight s) (l_SummedWeight s) (l_LastUpkeep s) (l_Epoch s) (l_IntegratedOptions s) (l_SummedAccrued s) (l_Residue s) (l_PruneQueue s) (l_PruneDue s) (f (l_SlashedValidators s)) (l_VoterLapses s).
Definition set_l_VoterLapses (f : gset (Z * Z * bytes) → gset (Z * Z * bytes)) (s : AllocStore) : AllocStore :=
  mkAllocStore (l_Params s) (l_Options s) (l_OptionSeq s) (l_Voters s) (l_RewardIndex s) (l_TotalWeight s) (l_SummedWeight s) (l_LastUpkeep s) (l_Epoch s) (l_IntegratedOptions s) (l_SummedAccrued s) (l_Residue s) (l_PruneQueue s) (l_PruneDue s) (l_SlashedValidators s) (f (l_VoterLapses s)).

(** ** The other modules

    What the module is wired with ([Register*], [expected_keepers.go]).  [ext] is the state of everything else: the
    [World] and the stores of the modules that are parameters here (x/staking, x/distribution, and the modules that own
    a stream's weight: x/personhood, x/shieldedstaking).  The handlers and the sink run on it; they do not write this
    module's store. *)
Class StakingView := {
  other_state : Type;
  (** x/staking: a validator's record and a delegator's delegations (validator address, shares). *)
  staking_validator : Type;
  GetValidator : bytes → other_state → outcome staking_validator;
  IsBonded : staking_validator → bool;
  TokensFromSharesTruncated : staking_validator → Z → outcome Z;
  DelegatorDelegations : bytes → other_state → outcome (list (string * Z));
  GetDelegatorBonded : bytes → other_state → outcome Z;
  ValAddressFromBech32 : string → outcome bytes;
  (** [LegacyDec.RoundInt] *)
  DecRoundInt : Z → outcome Z;
}.

Section alloc_world.
Context `{Host, !ShieldedKeeper, !StakingView}.

Definition ext : Type := World * other_state.

(** [types.WeightSource], with [BondedTracker] if the source implements it. *)
Record WeightSource := mkWeightSource {
  ws_Weight : bytes → ext → outcome Z;
  ws_TracksBonded : option (bytes → bool);
}.

(** [integratedHandler] *)
Record integratedHandler := mkHandler { ih_stream : Z; ih_fn : Z → prog ext Z }.

Class AllocEnv := {
  alloc_authority : bytes;
  chamber_addr : bytes;
  weightSources : gmap Z WeightSource;
  integratedHandlers : gmap string integratedHandler;
  residueSink : option (Z → prog ext ());
}.

(** ** The state of a call *)
Record AllocWorld := mkAllocWorld { a_store : AllocStore; a_ext : ext }.
Definition a_world (w : AllocWorld) : World := fst (a_ext w).

Definition upd_alloc (f : AllocStore → AllocStore) (w : AllocWorld) : AllocWorld := mkAllocWorld (f (a_store w)) (a_ext w).

(** A call into the other modules, and into the modelled ones. *)
Definition on_ext {A} (m : prog ext A) : prog AllocWorld A := λ w,
  match m (a_ext w) with
  | Ok (a, x) => Ok (a, mkAllocWorld (a_store w) x)
  | Err e => Err e
  | Panic => Panic
  end.
Definition in_world {A} (m : prog World A) : prog ext A := λ x,
  match m (fst x) with
  | Ok (a, w) => Ok (a, (w, snd x))
  | Err e => Err e
  | Panic => Panic
  end.
Definition on_world {A} (m : prog World A) : prog AllocWorld A := on_ext (in_world m).
Definition get_alloc {A} (f : AllocStore → A) : prog AllocWorld A := gets (λ w, f (a_store w)).
Definition get_ext {A} (f : ext → A) : prog AllocWorld A := gets (λ w, f (a_ext w)).
Definition set_alloc (f : AllocStore → AllocStore) : prog AllocWorld () := modify (upd_alloc f).

(** [BlockTime().Unix()] and [BlockTime().UnixNano()] *)
Definition alloc_unix : prog AllocWorld Z := gets (λ w, unix (a_world w)).
Definition alloc_nanos : prog AllocWorld Z := gets (λ w, w_nanos (a_world w)).

Lemma on_ext_ok {A} (m : prog ext A) w a w' :
  on_ext m w = Ok (a, w') ↔ ∃ x, m (a_ext w) = Ok (a, x) ∧ w' = mkAllocWorld (a_store w) x.
Proof.
  unfold on_ext. destruct (m (a_ext w)) as [[b v]| |]; split.
  - intros [= -> <-]. by exists v.
  - by intros (v' & [= -> ->] & ->).
  - done.
  - by intros (? & ? & _).
  - done.
  - by intros (? & ? & _).
Qed.
Lemma in_world_ok {A} (m : prog World A) x a x' :
  in_world m x = Ok (a, x') ↔ ∃ w, m (fst x) = Ok (a, w) ∧ x' = (w, snd x).
Proof.
  unfold in_world. destruct (m (fst x)) as [[b v]| |]; split.
  - intros [= -> <-]. by exists v.
  - by intros (v' & [= -> ->] & ->).
  - done.
  - by intros (? & ? & _).
  - done.
  - by intros (? & ? & _).
Qed.
Lemma on_world_ok {A} (m : prog World A) w a w' :
  on_world m w = Ok (a, w') ↔ ∃ v, m (a_world w) = Ok (a, v) ∧ w' = mkAllocWorld (a_store w) (v, snd (a_ext w)).
Proof.
  unfold on_world. rewrite on_ext_ok. split.
  - intros (x & (v & Hv & ->)%in_world_ok & ->). by exists v.
  - intros (v & Hv & ->). eexists. split; [|done]. apply in_world_ok. by exists v.
Qed.
Lemma get_alloc_ok {A} (f : AllocStore → A) w a w' : get_alloc f w = Ok (a, w') ↔ a = f (a_store w) ∧ w' = w.
Proof. exact (gets_ok (λ w, f (a_store w)) w a w'). Qed.
Lemma get_ext_ok {A} (f : ext → A) w a w' : get_ext f w = Ok (a, w') ↔ a = f (a_ext w) ∧ w' = w.
Proof. exact (gets_ok (λ w, f (a_ext w)) w a w'). Qed.
Lemma set_alloc_ok f w u w' : set_alloc f w = Ok (u, w') ↔ w' = upd_alloc f w.
Proof. apply modify_ok. Qed.
Lemma alloc_unix_ok w t w' : alloc_unix w = Ok (t, w') ↔ t = unix (a_world w) ∧ w' = w.
Proof. exact (gets_ok (λ w, unix (a_world w)) w t w'). Qed.
Lemma alloc_nanos_ok w t w' : alloc_nanos w = Ok (t, w') ↔ t = w_nanos (a_world w) ∧ w' = w.
Proof. exact (gets_ok (λ w, w_nanos (a_world w)) w t w'). Qed.
End alloc_world.

#[global] Arguments AllocWorld {_ _ _}.
#[global] Arguments mkAllocWorld {_ _ _} _ _.
#[global] Arguments ext {_ _ _}.
Abbreviation AM := (prog AllocWorld).

Ltac alloc_step :=
  match goal with
  | H : get_alloc _ _ = Ok (_, _) |- _ => apply get_alloc_ok in H; destruct H as [-> ->]
  | H : get_ext _ _ = Ok (_, _) |- _ => apply get_ext_ok in H; destruct H as [-> ->]
  | H : set_alloc _ _ = Ok (_, _) |- _ => apply set_alloc_ok in H; subst
  | H : alloc_unix _ = Ok (_, _) |- _ => apply alloc_unix_ok in H; destruct H as [-> ->]
  | H : alloc_nanos _ = Ok (_, _) |- _ => apply alloc_nanos_ok in H; destruct H as [-> ->]
  | H : on_world _ _ = Ok (_, _) |- _ =>
      let v := fresh "v" in let Hv := fresh "Hworld" in apply on_world_ok in H; destruct H as (v & Hv & ->)
  | H : on_ext _ _ = Ok (_, _) |- _ =>
      let x := fresh "x" in let Hx := fresh "Hext" in apply on_ext_ok in H; destruct H as (x & Hx & ->)
  end.
Ltac alloc_inv := repeat first [alloc_step | host_step | prog_step].
