(* ===== verification/Alloc.v ===== *)
(** * x/allocation: the emission engine

    [x/allocation/keeper/allocation.go], the payouts of [keeper.go], the lease queue of [lease.go], the removal schedule
    of [prune.go], and the calls of [external_voters.go]: the reward index and the emission it mints, the options and
    their running sums, the voters' contributions, and the leases that end them. *)

From S2P Require Export AllocTypes.

(** [indexPrecision] *)
Definition indexPrecision : Z := 10 ^ 18.
Definition nanos_per_second : Z := 10 ^ 9.
Definition LapseRetrySeconds : Z := 24 * 60 * 60.

(** [prunable] *)
Definition prunable (opt : AllocationOption) : bool :=
  if op_Removed opt then true
  else if negb (bool_decide (op_Kind opt = ALLOCATION_KIND_ADDRESS)) then false
  else op_AmountAllocated opt =? 0.

Section alloc.
Context `{Host, !ShieldedKeeper, !StakingView, !AllocEnv}.

(** ** Getters with zero defaults *)
Definition getRewardIndex (stream : Z) : AM Z := get_alloc (λ s, default 0 (l_RewardIndex s !! stream)).
Definition getTotalWeight (stream : Z) : AM Z := get_alloc (λ s, default 0 (l_TotalWeight s !! stream)).
Definition getSummedWeight (stream : Z) : AM Z := get_alloc (λ s, default 0 (l_SummedWeight s !! stream)).
Definition getLastUpkeep (stream : Z) : AM Z := get_alloc (λ s, default 0 (l_LastUpkeep s !! stream)).
Definition getEpoch (stream : Z) : AM Z := get_alloc (λ s, default 0 (l_Epoch s !! stream)).
Definition GetSummedAccrued : AM Z := get_alloc (λ s, default 0 (l_SummedAccrued s)).
Definition GetResidue : AM Z := get_alloc (λ s, default 0 (l_Residue s)).
Definition alloc_GetParams : AM (option AllocParams) := get_alloc l_Params.

(** [weightSource] *)
Definition weightSource (stream : Z) : AM WeightSource :=
  match weightSources !! stream with Some src => mret src | None => fail ErrUnknownStream end.

(** ** The removal schedule: [refreshPruneSchedule] *)
Definition refreshPruneSchedule (stream : Z) (opt : AllocationOption) : AM () :=
  let kk := (stream, op_Id opt) in
  due ← get_alloc (λ s, l_PruneDue s !! kk);
  if prunable opt then
    match due with
    | Some _ => mret ()
    | None =>
        now ← alloc_unix;
        let at_ := wrap_i64 (now + OptionIdleGrace) in
        set_alloc (set_l_PruneDue <[kk := at_]>);;
        set_alloc (set_l_PruneQueue (union {[(at_, stream, op_Id opt)]}))
    end
  else
    match due with
    | None => mret ()
    | Some d =>
        set_alloc (set_l_PruneQueue (λ q, q ∖ {[(d, stream, op_Id opt)]}));;
        set_alloc (set_l_PruneDue (delete kk))
    end.

(** ** The only writer of an option: [setOption] *)
Definition setOption (stream : Z) (opt : AllocationOption) : AM () :=
  p ← get_alloc (λ s, l_Options s !! (stream, op_Id opt));
  let prev := from_option op_AmountAllocated 0 p in
  let prevAcc := from_option op_Accumulated 0 p in
  delta ← lift (IntSub (op_AmountAllocated opt) prev);
  (if delta =? 0 then mret ()
   else
     sum ← getSummedWeight stream;
     sum' ← lift (IntAdd sum delta);
     set_alloc (set_l_SummedWeight <[stream := sum']>));;
  deltaAcc ← lift (IntSub (op_Accumulated opt) prevAcc);
  (if deltaAcc =? 0 then mret ()
   else
     acc ← GetSummedAccrued;
     acc' ← lift (IntAdd acc deltaAcc);
     set_alloc (set_l_SummedAccrued (λ _, Some acc')));;
  set_alloc (set_l_Options <[(stream, op_Id opt) := opt]>);;
  refreshPruneSchedule stream opt.

(** ** Emission *)

(** [ceilQuo] *)
Definition ceilQuo (n d : Z) : outcome Z :=
  x ← IntAdd n d;
  y ← IntSub x 1;
  IntQuo y d.

(** [mintEmission] *)
Definition mintEmission (reward collectable : Z) : AM () :=
  c ← lift (BondDenom ≫= λ denom, NewCoin denom reward);
  coins ← lift (NewCoins [c]);
  on_world (bank (MintCoins allocation_ModuleName coins));;
  dust ← lift (IntSub reward collectable);
  if negb (0 <? dust) then mret ()
  else
    held ← GetResidue;
    r ← lift (IntAdd held dust);
    set_alloc (set_l_Residue (λ _, Some r)).

(** The part of [settleTo] that mints: under [if last != 0] *)
Definition accrueTo (stream last now : Z) : AM () :=
  total ← getTotalWeight stream;
  if negb (0 <? total) then mret ()
  else
    m ← lift (IntMul EmissionPerSecond (wrap_i64 (now - last)));
    reward ← lift (IntQuo m nanos_per_second);
    if negb (0 <? reward) then mret ()
    else
      idx ← getRewardIndex stream;
      scaled ← lift (IntMul reward indexPrecision);
      delta ← lift (IntQuo scaled total);
      idx' ← lift (IntAdd idx delta);
      set_alloc (set_l_RewardIndex <[stream := idx']>);;
      dt ← lift (IntMul delta total);
      collectable ← lift (ceilQuo dt indexPrecision);
      mintEmission reward collectable.

(** [settleTo] *)
Definition settleTo (stream now : Z) : AM () :=
  last ← getLastUpkeep stream;
  if negb (last =? 0) && (now <=? last) then mret ()
  else
    (if last =? 0 then mret () else accrueTo stream last now);;
    set_alloc (set_l_LastUpkeep <[stream := now]>).

(** [nextLapse]: the earliest lease of the stream due at or before [t] *)
Definition nextLapse (stream t : Z) : AM (option Z) :=
  get_alloc (λ s,
    (λ e : Z * Z * bytes, e.1.1) <$>
      head (filter (λ e : Z * Z * bytes, e.1.1 < t + 1 ∧ e.1.2 = stream) (iter_set (l_VoterLapses s)))).

(** [heldTarget] *)
Definition heldTarget (stream now : Z) : AM Z :=
  next ← nextLapse stream (Z.quot now nanos_per_second);
  mret (match next with
        | Some t => let at_ := wrap_i64 (t * nanos_per_second) in if at_ <? now then at_ else now
        | None => now
        end).

(** [advanceIndexTo], [AdvanceIndex], [AdvanceIndexTo] *)
Definition advanceIndexTo (stream now : Z) : AM () :=
  last ← getLastUpkeep stream;
  now ← (if last =? 0 then mret now else heldTarget stream now);
  settleTo stream now.

Definition AdvanceIndex (stream : Z) : AM () :=
  now ← alloc_nanos;
  advanceIndexTo stream now.

Definition AdvanceIndexTo (stream t : Z) : AM () :=
  now ← alloc_nanos;
  let at_ := if Z.quot now nanos_per_second <? t then now else wrap_i64 (t * nanos_per_second) in
  last ← getLastUpkeep stream;
  if (last =? 0) || (at_ <=? last) then mret () else advanceIndexTo stream at_.

(** ** Options *)

(** [nextOptionID] *)
Definition nextOptionID (stream : Z) : AM Z :=
  cur ← get_alloc (λ s, default 0 (l_OptionSeq s !! stream));
  let next := wrap_u64 (cur + 1) in
  set_alloc (set_l_OptionSeq <[stream := next]>);;
  mret next.

(** [appendOption]; [opt] carries the fields the caller fills in. *)
Definition appendOption (stream : Z) (opt : AllocationOption) : AM Z :=
  id ← nextOptionID stream;
  rewardIndex ← getRewardIndex stream;
  let opt := mkOption id stream (op_Description opt) (op_Kind opt) (op_Recipient opt) (op_Handler opt) (op_Claimer opt)
               0 rewardIndex (op_Removed opt) 0 in
  setOption stream opt;;
  (if bool_decide (op_Kind opt = ALLOCATION_KIND_INTEGRATED)
   then set_alloc (set_l_IntegratedOptions (union {[(stream, id)]})) else mret ());;
  mret id.

(** [settleOption] *)
Definition settleOption (opt : AllocationOption) (rewardIndex : Z) : outcome AllocationOption :=
  acc ← (if 0 <? op_AmountAllocated opt then
           delta ← IntSub rewardIndex (op_LastRewardIndex opt);
           x ← IntMul (op_AmountAllocated opt) delta;
           q ← IntQuo x indexPrecision;
           IntAdd (op_Accumulated opt) q
         else mret (op_Accumulated opt));
  mret (set_op (op_AmountAllocated opt) rewardIndex acc opt).

(** ** Contributions *)
Record contribution := mkContribution { ct_option : Z; ct_amt : Z }.

(** [splitContributions] *)
Fixpoint splitContributions (percentages : list AllocationWeight) (weight : Z) : outcome (list contribution) :=
  match percentages with
  | [] => mret []
  | w :: ps =>
      m ← IntMul weight (wrap_i64 (wt_Percent w));
      amt ← IntQuo m 100;
      rest ← splitContributions ps weight;
      mret (mkContribution (wt_OptionId w) amt :: rest)
  end.

Definition weight_contributions (ws : list OptionWeight) : list contribution :=
  (λ w, mkContribution (ow_OptionId w) (ow_Weight w)) <$> ws.

(** [voterContributions] *)
Definition voterContributions (v : Voter) : outcome (list contribution) :=
  match vt_OptionWeights v with
  | [] => splitContributions (vt_Percentages v) (vt_Weight v)
  | ws => mret (weight_contributions ws)
  end.

(** The two loops of [writeVoter] over the options, with the running total: [sgn] takes a contribution off or puts
    it on ([Int.Sub], [Int.Add]). *)
Fixpoint apply_contributions (sgn : Z → Z → outcome Z) (stream rewardIndex : Z) (cs : list contribution) (total : Z) : AM Z :=
  match cs with
  | [] => mret total
  | c :: cs =>
      o ← get_alloc (λ s, l_Options s !! (stream, ct_option c));
      match o with
      | None => apply_contributions sgn stream rewardIndex cs total
      | Some opt =>
          if op_Removed opt then apply_contributions sgn stream rewardIndex cs total
          else
            opt ← lift (settleOption opt rewardIndex);
            amt ← lift (sgn (op_AmountAllocated opt) (ct_amt c));
            total ← lift (sgn total (ct_amt c));
            setOption stream (set_op_AmountAllocated amt opt);;
            apply_contributions sgn stream rewardIndex cs total
      end
  end.

(** [writeVoter] *)
Definition writeVoter (stream : Z) (addr : bytes) (rec : Voter) (add : list contribution) (keep : bool) : AM () :=
  rewardIndex ← getRewardIndex stream;
  total ← getTotalWeight stream;
  epoch ← getEpoch stream;
  old ← get_alloc (λ s, l_Voters s !! (stream, addr));
  expires ← (match old with
             | None => mret (vt_ExpiresAt rec)
             | Some o =>
                 (if vt_ExpiresAt o =? 0 then mret ()
                  else set_alloc (set_l_VoterLapses (λ q, q ∖ {[(vt_ExpiresAt o, stream, addr)]})));;
                 mret (if (vt_ExpiresAt rec =? 0) && (vt_Epoch o =? epoch) then vt_ExpiresAt o else vt_ExpiresAt rec)
             end);
  total ← (match old with
           | Some o =>
               if vt_Epoch o =? epoch then
                 cs ← lift (voterContributions o);
                 apply_contributions IntSub stream rewardIndex cs total
               else mret total
           | None => mret total
           end);
  total ← apply_contributions IntAdd stream rewardIndex add total;
  set_alloc (set_l_TotalWeight <[stream := if total <? 0 then 0 else total]>);;
  if negb keep then set_alloc (set_l_Voters (delete (stream, addr)))
  else
    (if expires =? 0 then mret () else set_alloc (set_l_VoterLapses (union {[(expires, stream, addr)]})));;
    set_alloc (set_l_Voters <[(stream, addr) :=
      mkVoter (vt_Percentages rec) (vt_Weight rec) epoch (vt_OptionWeights rec) expires]>).

(** [existingSplit] *)
Definition existingSplit (stream : Z) (pcts : list AllocationWeight) : AM (list AllocationWeight) :=
  get_alloc (λ s, filter (λ w, is_Some (l_Options s !! (stream, wt_OptionId w))) pcts).

(** [resyncVoterAt], [resyncVoter], [resyncVoterKeep], [ClearVoter] *)
Definition resyncVoterAt (stream : Z) (addr : bytes) (percentages : list AllocationWeight) (weight expiresAt : Z) : AM () :=
  percentages ← existingSplit stream percentages;
  add ← lift (splitContributions percentages weight);
  writeVoter stream addr (mkVoter percentages weight 0 [] expiresAt) add
    (negb (bool_decide (percentages = [])) && (0 <? weight)).

Definition resyncVoter (stream : Z) (addr : bytes) (percentages : list AllocationWeight) (weight : Z) : AM () :=
  resyncVoterAt stream addr percentages weight 0.

Definition resyncVoterKeep (stream : Z) (addr : bytes) (percentages : list AllocationWeight) (weight : Z) (keepZero : bool)
    : AM () :=
  if negb keepZero || (0 <? weight) then resyncVoter stream addr percentages weight
  else
    percentages ← existingSplit stream percentages;
    writeVoter stream addr (mkVoter percentages 0 0 [] 0) [] (negb (bool_decide (percentages = []))).

Definition ClearVoter (stream : Z) (addr : bytes) : AM () := resyncVoter stream addr [] 0.

(** ** Drawing from an option: [DrawFromOption] *)
Definition DrawFromOption (stream optionID ppm : Z) : AM Z :=
  o ← get_alloc (λ s, l_Options s !! (stream, optionID));
  match o with
  | None => mret 0
  | Some opt =>
      rewardIndex ← getRewardIndex stream;
      opt ← lift (settleOption opt rewardIndex);
      m ← lift (IntMul (op_Accumulated opt) ppm);
      drawn ← lift (IntQuo m PpmDenominator);
      if 0 <? drawn then
        acc ← lift (IntSub (op_Accumulated opt) drawn);
        setOption stream (set_op_Accumulated acc opt);;
        mret drawn
      else
        setOption stream opt;;
        mret 0
  end.

(** ** Reset: [streamOptionIDs], [resetAllocations] *)
Definition streamOptionIDs (stream : Z) : AM (list Z) :=
  get_alloc (λ s, snd <$> filter (λ k : Z * Z, k.1 = stream) (iter_keys (l_Options s))).

Definition resetAllocations (stream : Z) : AM Z :=
  AdvanceIndex stream;;
  rewardIndex ← getRewardIndex stream;
  ids ← streamOptionIDs stream;
  for_each ids (λ id,
    o ← get_alloc (λ s, l_Options s !! (stream, id));
    match o with
    | None => fail ErrNotFound
    | Some opt =>
        opt ← lift (settleOption opt rewardIndex);
        setOption stream (set_op_AmountAllocated 0 opt)
    end);;
  set_alloc (set_l_TotalWeight <[stream := 0]>);;
  epoch ← getEpoch stream;
  set_alloc (set_l_Epoch <[stream := wrap_u64 (epoch + 1)]>);;
  mret (wrap_u64 (epoch + 1)).

(** ** Payments *)

(** [PayOut] *)
Definition PayOut (recipient : bytes) (amount : Z) : AM () :=
  if negb (0 <? amount) then mret ()
  else
    c ← lift (BondDenom ≫= λ denom, NewCoin denom amount);
    coins ← lift (NewCoins [c]);
    on_world (bank (SendCoinsFromModuleToAccount allocation_ModuleName recipient coins)).

(** [BurnCoins] of the module's own coins, counted by x/earth *)
Definition burn_counted (amount : Z) : AM () :=
  c ← lift (BondDenom ≫= λ denom, NewCoin denom amount);
  burned ← lift (NewCoins [c]);
  on_world (bank (BurnCoins allocation_ModuleName burned));;
  on_world (RecordBurn SourceAllocation burned).

(** [SweepResidue] *)
Definition SweepResidue : AM () :=
  match residueSink with
  | None => mret ()
  | Some sink =>
      amount ← GetResidue;
      if negb (0 <? amount) then mret ()
      else
        _ ← Item (on_ext (sink amount);; set_alloc (set_l_Residue (λ _, Some 0)));
        mret ()
  end.

(** ** lease.go *)

(** [GroundworksLeaseEnd] *)
Definition GroundworksLeaseEnd : AM Z :=
  params ← alloc_GetParams;
  now ← alloc_unix;
  mret (wrap_i64 (now + wrap_i64 (GroundworksLeaseSecondsOrDefault (default (mkAllocParams 0 0) params)))).

(** [LapseRetryAt] *)
Definition LapseRetryAt (t : Z) : AM Z :=
  now ← alloc_unix;
  mret (wrap_i64 ((if t <? now then now else t) + LapseRetrySeconds)).

(** One lease of [lapse]: what runs inside [safeexec.Cached] *)
Definition lapse_item (stream t : Z) (key : Z * Z * bytes) : AM () :=
  set_alloc (set_l_VoterLapses (λ q, q ∖ {[key]}));;
  v ← get_alloc (λ s, l_Voters s !! (stream, key.2));
  match v with
  | None => mret ()
  | Some v =>
      epoch ← getEpoch stream;
      if (t <? vt_ExpiresAt v) || negb (vt_Epoch v =? epoch) then mret ()
      else writeVoter stream key.2 (mkVoter [] 0 0 [] 0) [] false
  end.

(** [lapse] *)
Definition lapse (stream t : Z) : AM () :=
  due ← get_alloc (λ s, filter (λ e : Z * Z * bytes, e.1 = (t, stream)) (iter_set (l_VoterLapses s)));
  for_each due (λ key,
    r ← Cached (lapse_item stream t key);
    match r with
    | inr _ => mret ()
    | inl _ =>
        retry ← LapseRetryAt t;
        set_alloc (set_l_VoterLapses (λ q, q ∖ {[key]}));;
        set_alloc (set_l_VoterLapses (union {[(retry, key.1.2, key.2)]}))
    end).

(** The loop of [SweepLapses]; [prev] is the lapse time it last retired.  It returns whether the loop ended: [false] is
    running out of fuel in the middle of it. *)
Fixpoint sweep_lapses (fuel : nat) (stream limit : Z) (prev : option Z) : AM bool :=
  match fuel with
  | O => mret false
  | S fuel =>
      next ← nextLapse stream limit;
      match next with
      | None => mret true
      | Some next =>
          refuse_if (match prev with Some p => next <=? p | None => false end) (Plain "a lease was left behind");;
          let at_ := wrap_i64 (next * nanos_per_second) in
          last ← getLastUpkeep stream;
          (if negb (last =? 0) && (last <? at_) then settleTo stream at_ else mret ());;
          lapse stream next;;
          sweep_lapses fuel stream limit (Some next)
      end
  end.

(** [SweepLapses].  The fuel is the number of queued leases and one more; what follows the loop runs when the loop has
    ended, and [lapse_sweep_terminates] shows that it always has. *)
Definition SweepLapses (stream : Z) : AM () :=
  now ← alloc_nanos;
  n ← get_alloc (λ s, size (l_VoterLapses s));
  ended ← sweep_lapses (S n) stream (Z.quot now nanos_per_second) None;
  if (ended : bool) then settleTo stream now else λ _, Panic.

(** ** external_voters.go *)

(** [ValidateSplit]: the loop over the entries, then the sum *)
Fixpoint validate_split (options : gmap (Z * Z) AllocationOption) (stream : Z) (ps : list AllocationWeight)
    (seen : gset Z) (sum : Z) : outcome Z :=
  match ps with
  | [] => mret sum
  | w :: ps =>
      _ ← refuse (wt_Percent w =? 0) ErrBadPercentages;
      _ ← refuse (100 <? wt_Percent w) ErrBadPercentages;
      _ ← refuse (bool_decide (wt_OptionId w ∈ seen)) ErrBadPercentages;
      match options !! (stream, wt_OptionId w) with
      | None => Err ErrOptionNotFound
      | Some opt =>
          _ ← refuse (op_Removed opt) ErrOptionRemoved;
          validate_split options stream ps ({[wt_OptionId w]} ∪ seen) (wrap_u64 (sum + wt_Percent w))
      end
  end.

Definition ValidateSplit (stream : Z) (percentages : list AllocationWeight) : AM () :=
  lift (ValidateStreamId stream);;
  refuse_if (MaxVoterOptions <? length percentages)%nat ErrBadPercentages;;
  options ← get_alloc l_Options;
  sum ← lift (validate_split options stream percentages ∅ 0);
  refuse_if (negb (bool_decide (percentages = [])) && negb (sum =? 100)) ErrBadPercentages.

(** [SetVoterSplit] *)
Definition SetVoterSplit (stream : Z) (voter : bytes) (percentages : list AllocationWeight) (weight : Z) : AM () :=
  ValidateSplit stream percentages;;
  refuse_if (negb (bool_decide (percentages = [])) && negb (0 <? weight)) ErrNoWeight;;
  AdvanceIndex stream;;
  resyncVoter stream voter percentages weight.

(** [ApplySplit] *)
Definition ApplySplit (stream : Z) (key : bytes) (percentages : list AllocationWeight) : AM Z :=
  ValidateSplit stream percentages;;
  src ← weightSource stream;
  x ← get_ext id;
  weight ← lift (ws_Weight src key x);
  refuse_if (negb (bool_decide (percentages = [])) && negb (0 <? weight)) ErrNoWeight;;
  AdvanceIndex stream;;
  expiresAt ← (if (stream =? STREAM_ID_GROUNDWORKS) && negb (bool_decide (percentages = []))
               then GroundworksLeaseEnd else mret 0);
  resyncVoterAt stream key percentages weight expiresAt;;
  mret weight.

(** [ResyncVoter] *)
Definition ResyncVoter (stream : Z) (key : bytes) : AM () :=
  AdvanceIndex stream;;
  v ← get_alloc (λ s, l_Voters s !! (stream, key));
  match v with
  | None => mret ()
  | Some voter =>
      epoch ← getEpoch stream;
      if negb (vt_Epoch voter =? epoch) then set_alloc (set_l_Voters (delete (stream, key)))
      else if negb (bool_decide (vt_OptionWeights voter = [])) then mret ()
      else
        src ← weightSource stream;
        x ← get_ext id;
        weight ← lift (ws_Weight src key x);
        resyncVoter stream key (vt_Percentages voter) weight
  end.

(** [writeWeightedVoter] *)
Definition writeWeightedVoter (stream : Z) (key : bytes) (ws : list OptionWeight) (sum : Z) : AM () :=
  writeVoter stream key (mkVoter [] sum 0 ws 0) (weight_contributions ws) (negb (bool_decide (ws = []))).

(** The loops of [SetWeightedVoter] ([dups] = false) and [SetWeightedVoterSettled] ([dups] = true: no duplicate check) *)
Fixpoint weighted_entries (dups : bool) (weights : list OptionWeight) (seen : gset Z) (sum : Z)
    : outcome (list OptionWeight * Z) :=
  match weights with
  | [] => mret ([], sum)
  | w :: weights =>
      _ ← refuse (ow_Weight w <? 0) ErrBadPercentages;
      _ ← refuse (negb dups && bool_decide (ow_OptionId w ∈ seen)) ErrBadPercentages;
      if ow_Weight w =? 0 then weighted_entries dups weights ({[ow_OptionId w]} ∪ seen) sum
      else
        sum ← IntAdd sum (ow_Weight w);
        r ← weighted_entries dups weights ({[ow_OptionId w]} ∪ seen) sum;
        mret (w :: fst r, snd r)
  end.

Definition SetWeightedVoter (stream : Z) (key : bytes) (weights : list OptionWeight) : AM () :=
  lift (ValidateStreamId stream);;
  r ← lift (weighted_entries false weights ∅ 0);
  AdvanceIndex stream;;
  writeWeightedVoter stream key (fst r) (snd r).

Definition SetWeightedVoterSettled (stream : Z) (key : bytes) (weights : list OptionWeight) : AM () :=
  lift (ValidateStreamId stream);;
  r ← lift (weighted_entries true weights ∅ 0);
  writeWeightedVoter stream key (fst r) (snd r).

(** [StreamEpoch], [MoveVoter] *)
Definition StreamEpoch (stream : Z) : AM Z := getEpoch stream.

Definition MoveVoter (stream : Z) (from to : bytes) : AM () :=
  AdvanceIndex stream;;
  old ← get_alloc (λ s, l_Voters s !! (stream, from));
  match old with
  | None => mret ()
  | Some old =>
      epoch ← getEpoch stream;
      resyncVoter stream from [] 0;;
      if negb (vt_Epoch old =? epoch) then mret ()
      else resyncVoter stream to (vt_Percentages old) (vt_Weight old)
  end.
End alloc.
