(* ===== verification/AllocMsgs.v ===== *)
(** * x/allocation: messages, block hooks, staking hooks and checks

    [msg_server_*.go], [abci.go], [prune.go]'s sweep, [removal.go], [hooks.go], [invariants.go], [community_pool.go] and
    the module's EndBlock ([module/module.go]), over the engine of [Alloc.v]. *)

From S2P Require Export Alloc.

(** ** Messages *)
Record MsgAddIntegratedOption := { ai_Authority : string; ai_Stream : Z; ai_Description : string; ai_Handler : string }.
Record MsgAddAddressOption := {
  aa_Submitter : string; aa_Stream : Z; aa_Description : string; aa_Recipient : string; aa_Claimer : string }.
Record MsgClaimAllocation := { ca_Creator : string; ca_Stream : Z; ca_OptionId : Z }.
Record MsgResetAllocations := { ra_Authority : string; ra_Stream : Z }.
Record MsgSetAllocations := { sa_Creator : string; sa_Stream : Z; sa_Percentages : list AllocationWeight }.
Record AllocMsgUpdateParams := { aup_Authority : string; aup_Params : AllocParams }.

(** An option as a caller of [appendOption] describes it. *)
Definition new_option (description : string) (kind : AllocationKind) (recipient handler claimer : string) : AllocationOption :=
  mkOption 0 0 description kind recipient handler claimer 0 0 false 0.

(** [SolvencyReport], [WeightReport] *)
Record SolvencyReport := mkSolvency { sr_Accrued : Z; sr_Residue : Z; sr_Held : Z; sr_Short : Z; sr_Surplus : Z }.
Definition solvency_broken (r : SolvencyReport) : bool := 0 <? sr_Short r.
Record WeightReport := mkWeightReport { wr_Stream : Z; wr_Declared : Z; wr_Summed : Z }.
Definition weight_broken (r : WeightReport) : bool := negb (wr_Declared r =? wr_Summed r).

Section alloc_msgs.
Context `{Host, !ShieldedKeeper, !StakingView, !AllocEnv}.

(** [AddIntegratedOption] *)
Definition AddIntegratedOption (msg : MsgAddIntegratedOption) : AM Z :=
  lift (ValidateStreamId (ai_Stream msg));;
  lift (ValidateDescription (ai_Description msg));;
  authBz ← lift (StringToBytes (ai_Authority msg));
  refuse_if (negb (bool_decide (authBz = alloc_authority))) alloc_ErrInvalidSigner;;
  match integratedHandlers !! ai_Handler msg with
  | None => fail ErrUnknownHandler
  | Some h =>
      refuse_if (negb (ih_stream h =? ai_Stream msg)) ErrUnknownHandler;;
      appendOption (ai_Stream msg)
        (new_option (ai_Description msg) ALLOCATION_KIND_INTEGRATED "" (ai_Handler msg) "")
  end.

(** [AddAddressOption] *)
Definition AddAddressOption (msg : MsgAddAddressOption) : AM Z :=
  lift (ValidateStreamId (aa_Stream msg));;
  lift (ValidateDescription (aa_Description msg));;
  subBz ← lift (StringToBytes (aa_Submitter msg));
  let gated := aa_Stream msg =? STREAM_ID_GROUNDWORKS in
  refuse_if (gated && negb (bool_decide (subBz = alloc_authority))) alloc_ErrInvalidSigner;;
  recipientBz ← lift (StringToBytes (aa_Recipient msg));
  recipient ← lift (BytesToString recipientBz);
  claimer ← (if bool_decide (aa_Claimer msg = "") then mret ""
             else
               claimerBz ← lift (StringToBytes (aa_Claimer msg));
               lift (BytesToString claimerBz));
  (if gated then mret ()
   else
     params ← alloc_GetParams;
     match params with
     | None => fail ErrNotFound
     | Some params =>
         if 0 <? ap_AddressOptionFee params then
           c ← lift (BondDenom ≫= λ denom, NewCoin denom (ap_AddressOptionFee params));
           fee ← lift (NewCoins [c]);
           on_world (bank (SendCoinsFromAccountToModule subBz allocation_ModuleName fee));;
           on_world (bank (BurnCoins allocation_ModuleName fee));;
           on_world (RecordBurn SourceAllocation fee)
         else mret ()
     end);;
  appendOption (aa_Stream msg) (new_option (aa_Description msg) ALLOCATION_KIND_ADDRESS recipient "" claimer).

(** [ClaimAllocation] *)
Definition ClaimAllocation (msg : MsgClaimAllocation) : AM Z :=
  lift (ValidateStreamId (ca_Stream msg));;
  creator ← lift (StringToBytes (ca_Creator msg));
  o ← get_alloc (λ s, l_Options s !! (ca_Stream msg, ca_OptionId msg));
  match o with
  | None => fail ErrOptionNotFound
  | Some opt =>
      refuse_if (negb (bool_decide (op_Kind opt = ALLOCATION_KIND_ADDRESS))) ErrNotClaimable;;
      (if bool_decide (op_Claimer opt = "") then mret ()
       else refuse_if (match StringToBytes (op_Claimer opt) with
                       | Ok claimer => negb (bool_decide (creator = claimer))
                       | _ => true
                       end) alloc_ErrInvalidSigner);;
      AdvanceIndex (ca_Stream msg);;
      rewardIndex ← getRewardIndex (ca_Stream msg);
      opt ← lift (settleOption opt rewardIndex);
      let amount := op_Accumulated opt in
      if 0 <? amount then
        recipientBz ← lift (StringToBytes (op_Recipient opt));
        PayOut recipientBz amount;;
        setOption (ca_Stream msg) (set_op_Accumulated 0 opt);;
        mret amount
      else
        setOption (ca_Stream msg) opt;;
        mret amount
  end.

(** [ResetAllocations] *)
Definition ResetAllocations (msg : MsgResetAllocations) : AM Z :=
  lift (ValidateStreamId (ra_Stream msg));;
  refuse_if (ra_Stream msg =? STREAM_ID_CARETAKER) ErrStreamNotResettable;;
  authBz ← lift (StringToBytes (ra_Authority msg));
  refuse_if (negb (bool_decide (authBz = alloc_authority))) alloc_ErrInvalidSigner;;
  resetAllocations (ra_Stream msg).

(** [SetAllocations] *)
Definition SetAllocations (msg : MsgSetAllocations) : AM Z :=
  lift (ValidateStreamId (sa_Stream msg));;
  refuse_if (sa_Stream msg =? STREAM_ID_CARETAKER) ErrUnknownStream;;
  addrBz ← lift (StringToBytes (sa_Creator msg));
  ApplySplit (sa_Stream msg) addrBz (sa_Percentages msg).

(** [UpdateParams] *)
Definition AllocUpdateParams (req : AllocMsgUpdateParams) : AM () :=
  authority ← lift (StringToBytes (aup_Authority req));
  refuse_if (negb (bool_decide (alloc_authority = authority))) alloc_ErrInvalidSigner;;
  lift (AllocParamsValidate (aup_Params req));;
  set_alloc (set_l_Params (λ _, Some (aup_Params req))).

(** ** prune.go *)

(** [pruneOption] *)
Definition pruneOption (kk : Z * Z) : AM () :=
  o ← get_alloc (λ s, l_Options s !! kk);
  match o with
  | None => mret ()
  | Some opt =>
      if negb (prunable opt) then mret ()
      else
        set_alloc (set_l_Options (delete kk));;
        set_alloc (set_l_IntegratedOptions (λ X, X ∖ {[kk]}));;
        let forfeited := op_Accumulated opt in
        if 0 <? forfeited then
          acc ← GetSummedAccrued;
          acc' ← lift (IntSub acc forfeited);
          set_alloc (set_l_SummedAccrued (λ _, Some acc'));;
          burn_counted forfeited
        else mret ()
  end.

(** The due entries [SweepPrunableOptions] collects: in time order, up to the limit *)
Fixpoint prune_due (now : Z) (limit : nat) (q : list (Z * Z * Z)) : list (Z * Z * Z) :=
  match q, limit with
  | e :: q, S limit => if now <? e.1.1 then [] else e :: prune_due now limit q
  | _, _ => []
  end.

(** [SweepPrunableOptions] *)
Definition SweepPrunableOptions : AM () :=
  now ← alloc_unix;
  due ← get_alloc (λ s, prune_due now OptionPruneSweepLimit (iter_set (l_PruneQueue s)));
  for_each due (λ e,
    let kk := (e.1.2, e.2) in
    set_alloc (set_l_PruneQueue (λ q, q ∖ {[e]}));;
    set_alloc (set_l_PruneDue (delete kk));;
    _ ← Item (pruneOption kk);
    mret ()).

(** ** removal.go *)

(** [GroundworksOptionRemovable], [RemoveGroundworksOption] *)
Definition GroundworksOptionRemovable (optionID : Z) : AM bool :=
  get_alloc (λ s, match l_Options s !! (STREAM_ID_GROUNDWORKS, optionID) with
                  | Some opt => negb (op_Removed opt)
                  | None => false
                  end).

(** The struck record. *)
Definition strike (opt : AllocationOption) : AllocationOption :=
  mkOption (op_Id opt) (op_Stream opt) (op_Description opt) (op_Kind opt) (op_Recipient opt) (op_Handler opt)
    (op_Claimer opt) 0 (op_LastRewardIndex opt) true 0.

Definition RemoveGroundworksOption (caller : bytes) (optionID : Z) : AM () :=
  let stream := STREAM_ID_GROUNDWORKS in
  refuse_if (bool_decide (chamber_addr = []) || negb (bool_decide (caller = chamber_addr))) alloc_ErrInvalidSigner;;
  o ← get_alloc (λ s, l_Options s !! (stream, optionID));
  match o with
  | None => mret ()
  | Some opt =>
      if op_Removed opt then mret ()
      else
        AdvanceIndex stream;;
        rewardIndex ← getRewardIndex stream;
        opt ← lift (settleOption opt rewardIndex);
        let forfeited := op_Accumulated opt in
        let weight := op_AmountAllocated opt in
        setOption stream (strike opt);;
        (if 0 <? weight then
           total ← getTotalWeight stream;
           total' ← lift (IntSub total weight);
           set_alloc (set_l_TotalWeight <[stream := total']>)
         else mret ());;
        (if bool_decide (op_Kind opt = ALLOCATION_KIND_INTEGRATED)
         then set_alloc (set_l_IntegratedOptions (λ X, X ∖ {[(stream, optionID)]})) else mret ());;
        if 0 <? forfeited then burn_counted forfeited else mret ()
  end.

(** ** hooks.go *)

(** [bondedWeight]: the loop over the delegations *)
Fixpoint sum_bonded (dels : list (string * Z)) (exclude : option bytes) (x : ext) (bonded : Z) (left : bool)
    : outcome (Z * bool) :=
  match dels with
  | [] => mret (bonded, left)
  | (validator, shares) :: dels =>
      valAddr ← ValAddressFromBech32 validator;
      if bool_decide (exclude = Some valAddr) then sum_bonded dels exclude x bonded left
      else
        match GetValidator valAddr (snd x) with
        | Ok val =>
            if IsBonded val then
              t ← TokensFromSharesTruncated val shares;
              bonded ← DecAdd bonded t;
              sum_bonded dels exclude x bonded true
            else sum_bonded dels exclude x bonded true
        | Err _ => sum_bonded dels exclude x bonded true
        | Panic => Panic
        end
  end.

Definition bondedWeight (delAddr : bytes) (exclude : option bytes) (x : ext) : outcome (Z * bool) :=
  dels ← DelegatorDelegations delAddr (snd x);
  r ← sum_bonded dels exclude x 0 false;
  w ← DecRoundInt (fst r);
  mret (w, snd r).

(** [BondedWeight]; [capitalWeightSource] *)
Definition BondedWeight (delAddr : bytes) (x : ext) : outcome Z :=
  r ← bondedWeight delAddr None x;
  mret (fst r).
Definition capitalWeightSource : WeightSource := mkWeightSource (λ addr x, GetDelegatorBonded addr (snd x)) None.

(** Whether the hooks follow an account's bonded stake *)
Definition tracked (addr : bytes) : bool :=
  match weightSources !! STREAM_ID_GROUNDWORKS with
  | Some src => match ws_TracksBonded src with Some tracks => tracks addr | None => true end
  | None => true
  end.

(** [resyncFromBonded] *)
Definition resyncFromBonded (delAddr : bytes) (removeVal : option bytes) : AM () :=
  if negb (tracked delAddr) then mret ()
  else
    AdvanceIndex STREAM_ID_GROUNDWORKS;;
    v ← get_alloc (λ s, l_Voters s !! (STREAM_ID_GROUNDWORKS, delAddr));
    match v with
    | None => mret ()
    | Some voter =>
        epoch ← getEpoch STREAM_ID_GROUNDWORKS;
        if negb (vt_Epoch voter =? epoch) then set_alloc (set_l_Voters (delete (STREAM_ID_GROUNDWORKS, delAddr)))
        else
          x ← get_ext id;
          r ← lift (bondedWeight delAddr removeVal x);
          let weight := if fst r <? 0 then 0 else fst r in
          resyncVoterKeep STREAM_ID_GROUNDWORKS delAddr (vt_Percentages voter) weight (snd r)
    end.

Definition AfterDelegationModified (delAddr : bytes) : AM () := resyncFromBonded delAddr None.
Definition BeforeDelegationRemoved (delAddr valAddr : bytes) : AM () := resyncFromBonded delAddr (Some valAddr).

(** [recordResync] ([BeforeValidatorSlashed], [AfterValidatorBonded], [AfterValidatorBeginUnbonding]) *)
Definition recordResync (valAddr : bytes) : AM () := set_alloc (set_l_SlashedValidators (union {[valAddr]})).

(** [ResyncSlashed] *)
Definition ResyncSlashed : AM () :=
  vals ← get_alloc (λ s, iter_set (l_SlashedValidators s));
  for_each vals (λ v,
    _ ← Cached (resyncFromBonded v None);
    set_alloc (set_l_SlashedValidators (λ X, X ∖ {[v]}))).

(** ** abci.go *)

(** One option of [resolveIntegrated] *)
Definition resolve_option (stream rewardIndex optionID : Z) : AM () :=
  o ← get_alloc (λ s, l_Options s !! (stream, optionID));
  match o with
  | None => set_alloc (set_l_IntegratedOptions (λ X, X ∖ {[(stream, optionID)]}))
  | Some opt =>
      opt ← lift (settleOption opt rewardIndex);
      let acc := op_Accumulated opt in
      opt ← (match integratedHandlers !! op_Handler opt with
             | Some h =>
                 if (ih_stream h =? stream) && (0 <? acc) then
                   r ← Cached (resolved ← on_ext (ih_fn h acc);
                               refuse_if ((resolved <? 0) || (acc <? resolved)) (Plain "handler resolved more than its option holds");;
                               mret resolved);
                   match r with
                   | inr resolved =>
                       acc' ← lift (IntSub acc resolved);
                       mret (set_op_Accumulated acc' opt)
                   | inl _ => mret opt
                   end
                 else mret opt
             | None => mret opt
             end);
      setOption stream opt
  end.

(** [resolveIntegrated], [BeginBlocker] *)
Definition resolveIntegrated (stream : Z) : AM () :=
  SweepLapses stream;;
  rewardIndex ← getRewardIndex stream;
  ids ← get_alloc (λ s, snd <$> filter (λ k : Z * Z, k.1 = stream) (iter_set (l_IntegratedOptions s)));
  for_each ids (resolve_option stream rewardIndex).

Definition alloc_BeginBlocker : AM () :=
  for_each Streams resolveIntegrated;;
  SweepPrunableOptions.

(** ** invariants.go *)

(** [CheckStreamWeight], [CheckStreamWeightBounded] *)
Definition sum_outcome {A} (f : A → Z) (l : list A) : outcome Z := foldl (λ acc a, x ← acc; IntAdd x (f a)) (Ok 0) l.

Definition CheckStreamWeight (stream : Z) : AM WeightReport :=
  declared ← getTotalWeight stream;
  opts ← get_alloc (λ s, filter (λ kv : Z * Z * AllocationOption, kv.1.1 = stream) (iter_map (l_Options s)));
  summed ← lift (sum_outcome (λ kv : Z * Z * AllocationOption, op_AmountAllocated kv.2) opts);
  mret (mkWeightReport stream declared summed).

Definition CheckStreamWeightBounded (stream : Z) : AM WeightReport :=
  declared ← getTotalWeight stream;
  summed ← getSummedWeight stream;
  mret (mkWeightReport stream declared summed).

(** The module account *)
Definition alloc_addr : bytes := NewModuleAddress allocation_ModuleName.

(** [CheckSolvency] *)
Definition alloc_CheckSolvency : AM SolvencyReport :=
  accrued ← GetSummedAccrued;
  residue ← GetResidue;
  denom ← lift BondDenom;
  held ← get_ext (λ x, GetBalance (w_bank (fst x)) alloc_addr denom);
  owed ← lift (IntAdd accrued residue);
  if held <? owed then
    short ← lift (IntSub owed held);
    mret (mkSolvency accrued residue held short 0)
  else if owed <? held then
    surplus ← lift (IntSub held owed);
    mret (mkSolvency accrued residue held 0 surplus)
  else mret (mkSolvency accrued residue held 0 0).

(** [AssertHotInvariants] *)
Definition alloc_AssertHotInvariants : AM () :=
  sol ← alloc_CheckSolvency;
  refuse_if (solvency_broken sol) alloc_ErrInvariantBroken;;
  for_each Streams (λ stream,
    rep ← CheckStreamWeightBounded stream;
    refuse_if (weight_broken rep) alloc_ErrInvariantBroken).

(** [walkAccrued], [AssertInvariants] *)
Definition walkAccrued : AM Z :=
  opts ← get_alloc (λ s, iter_map (l_Options s));
  lift (sum_outcome (λ kv : Z * Z * AllocationOption, op_Accumulated kv.2) opts).

Definition alloc_AssertInvariants : AM () :=
  for_each Streams (λ stream,
    rep ← CheckStreamWeight stream;
    refuse_if (weight_broken rep) alloc_ErrInvariantBroken;;
    running ← getSummedWeight stream;
    refuse_if (negb (running =? wr_Summed rep)) alloc_ErrInvariantBroken);;
  declared ← GetSummedAccrued;
  summed ← walkAccrued;
  refuse_if (negb (declared =? summed)) alloc_ErrInvariantBroken;;
  sol ← alloc_CheckSolvency;
  refuse_if (solvency_broken sol) alloc_ErrInvariantBroken.

(** ** module.go *)
Definition alloc_EndBlock : AM () :=
  ResyncSlashed;;
  SweepResidue;;
  alloc_AssertHotInvariants.

(** ** community_pool.go: over x/distribution's [FundCommunityPool] *)
Definition CommunityPoolHandler (FundCommunityPool : Coins → bytes → prog ext ()) (accrued : Z) : prog ext Z :=
  if negb (0 <? accrued) then mret 0
  else
    c ← lift (BondDenom ≫= λ denom, NewCoin denom accrued);
    coins ← lift (NewCoins [c]);
    FundCommunityPool coins alloc_addr;;
    mret accrued.

Definition ResidueSink (FundCommunityPool : Coins → bytes → prog ext ()) (amount : Z) : prog ext () :=
  c ← lift (BondDenom ≫= λ denom, NewCoin denom amount);
  coins ← lift (NewCoins [c]);
  FundCommunityPool coins alloc_addr.
End alloc_msgs.
