(* ===== verification/AllocInv.v ===== *)
(** * x/allocation: the invariant and the engine's operations

    What a state of the module means (each live option carries exactly what its stream's current voters put on it, the
    running sums are sums, and the account covers what was accrued and what is still to be settled), and what the writers
    of [Alloc.v] do to it: [setOption], the two loops of [writeVoter], [settleTo]. *)

From S2P Require Export AllocMsgs.


(** ** What a state means *)
Section meaning.
Implicit Types (s : AllocStore) (st id : Z) (o : AllocationOption) (v : Voter) (cs : list contribution).

Definition idx_of s st : Z := default 0 (l_RewardIndex s !! st).
Definition total_of s st : Z := default 0 (l_TotalWeight s !! st).
Definition summed_of s st : Z := default 0 (l_SummedWeight s !! st).
Definition upkeep_of s st : Z := default 0 (l_LastUpkeep s !! st).
Definition epoch_of s st : Z := default 0 (l_Epoch s !! st).
Definition seq_of s st : Z := default 0 (l_OptionSeq s !! st).
Definition residue_of s : Z := default 0 (l_Residue s).

(** A stream's weight, summed over its options; what the options have accrued; what they have earned and not
    settled, in index units. *)
Definition weight_sum s st : Z := map_sum (λ k o, if k.1 =? st then op_AmountAllocated o else 0) (l_Options s).
Definition accrued_sum s : Z := map_sum (λ _ o, op_Accumulated o) (l_Options s).
Definition unsettled (idx : Z) o : Z := op_AmountAllocated o * (idx - op_LastRewardIndex o).
Definition unsettled_sum s : Z := map_sum (λ k o, unsettled (idx_of s k.1) o) (l_Options s).
(** Everything the account owes, in index units. *)
Definition owed_units s : Z := indexPrecision * (accrued_sum s + residue_of s) + unsettled_sum s.

(** What a voter puts on each option, and how much of a list of contributions is one option's. *)
Definition split_amounts (ps : list AllocationWeight) (weight : Z) : list contribution :=
  (λ p, mkContribution (wt_OptionId p) (Z.quot (weight * wt_Percent p) 100)) <$> ps.
Definition contributions v : list contribution :=
  match vt_OptionWeights v with
  | [] => split_amounts (vt_Percentages v) (vt_Weight v)
  | ws => weight_contributions ws
  end.
Definition on cs id : Z := list_sum (λ c, if ct_option c =? id then ct_amt c else 0) cs.

(** The weight the stream's current voters put on an option. *)
Definition live s st id : Z :=
  map_sum (λ k v, if (k.1 =? st) && (vt_Epoch v =? epoch_of s st) then on (contributions v) id else 0) (l_Voters s).

Record option_ok (g : Z → Z → Z) s st id o : Prop := {
  oo_id : op_Id o = id;
  oo_stream : op_Stream o = st;
  oo_seq : id ≤ seq_of s st;
  oo_amount : op_AmountAllocated o = if op_Removed o then 0 else g st id;
  oo_nonneg : 0 ≤ op_AmountAllocated o;
  oo_last : op_LastRewardIndex o ≤ idx_of s st;
  oo_acc : 0 ≤ op_Accumulated o;
}.

(** The removal schedule names only dead options, each once. *)
Record schedule_ok s : Prop := {
  sc_due st id d : l_PruneDue s !! (st, id) = Some d ↔ (d, st, id) ∈ l_PruneQueue s;
  sc_dead st id : is_Some (l_PruneDue s !! (st, id)) → ∃ o, l_Options s !! (st, id) = Some o ∧ prunable o = true;
}.

(** The options, against a target weight [g] for each. *)
Record options_inv (g : Z → Z → Z) s : Prop := {
  oi_option st id o : l_Options s !! (st, id) = Some o → option_ok g s st id o;
  oi_summed st : summed_of s st = weight_sum s st;
  oi_accrued : default 0 (l_SummedAccrued s) = accrued_sum s;
  oi_residue : 0 ≤ residue_of s;
  oi_fits st : weight_sum s st < 2 ^ 256;
  oi_schedule : schedule_ok s;
}.

Record voter_ok s st v : Prop := {
  vo_weight : 0 ≤ vt_Weight v;
  vo_percent : Forall (λ p, 0 ≤ wt_Percent p ≤ 100) (vt_Percentages v);
  vo_weights : Forall (λ w, 0 ≤ ow_Weight w) (vt_OptionWeights v);
  vo_epoch : 0 ≤ vt_Epoch v ≤ epoch_of s st;
  vo_expires : 0 ≤ vt_ExpiresAt v;
  vo_named : Forall (λ c, ct_option c ≤ seq_of s st) (contributions v);
}.

(** A current leased voter is queued to lapse, no earlier than its lease ends. *)
Definition lease_ok s st (key : bytes) v : Prop :=
  vt_ExpiresAt v ≠ 0 → vt_Epoch v = epoch_of s st → ∃ t, vt_ExpiresAt v ≤ t ∧ (t, st, key) ∈ l_VoterLapses s.
Definition leased s : Prop := ∀ st key v, l_Voters s !! (st, key) = Some v → lease_ok s st key v.

Record store_inv s : Prop := {
  si_options : options_inv (live s) s;
  si_total st : total_of s st = weight_sum s st;
  si_voter st key v : l_Voters s !! (st, key) = Some v → voter_ok s st v;
  si_seq st : 0 ≤ seq_of s st;
  si_epoch st : 0 ≤ epoch_of s st;
  si_upkeep st : 0 ≤ upkeep_of s st;
  si_lapses e : e ∈ l_VoterLapses s → 0 ≤ e.1.1;
  si_params p : l_Params s = Some p → AllocParamsValidate p = Ok () ∧ 0 ≤ ap_GroundworksLeaseSeconds p;
}.

(** What [setOption] may touch. *)
Definition with_options (O : gmap (Z * Z) AllocationOption) (SW : gmap Z Z) (SA : option Z) (Q : gset (Z * Z * Z))
    (D : gmap (Z * Z) Z) s : AllocStore :=
  mkAllocStore (l_Params s) O (l_OptionSeq s) (l_Voters s) (l_RewardIndex s) (l_TotalWeight s) SW (l_LastUpkeep s)
    (l_Epoch s) (l_IntegratedOptions s) SA (l_Residue s) Q D (l_SlashedValidators s) (l_VoterLapses s).

(** [refreshPruneSchedule] as a function of the schedule. *)
Definition refreshed st o (now : Z) s : gset (Z * Z * Z) * gmap (Z * Z) Z :=
  let kk := (st, op_Id o) in
  match prunable o, l_PruneDue s !! kk with
  | true, None => ({[(wrap_i64 (now + OptionIdleGrace), st, op_Id o)]} ∪ l_PruneQueue s, <[kk := wrap_i64 (now + OptionIdleGrace)]> (l_PruneDue s))
  | false, Some d => (l_PruneQueue s ∖ {[(d, st, op_Id o)]}, delete kk (l_PruneDue s))
  | _, _ => (l_PruneQueue s, l_PruneDue s)
  end.
End meaning.

(** ** Sums over the options *)
Section put_option.
Implicit Types (s : AllocStore) (st id : Z) (o : AllocationOption).

Definition prev_amount s st id : Z := from_option op_AmountAllocated 0 (l_Options s !! (st, id)).
Definition prev_accrued s st id : Z := from_option op_Accumulated 0 (l_Options s !! (st, id)).
Definition prev_unsettled s st id : Z := from_option (unsettled (idx_of s st)) 0 (l_Options s !! (st, id)).

(** The sums after an option is written. *)
Record put_sums (s s' : AllocStore) st id o : Prop := {
  ps_weight k : weight_sum s' k = weight_sum s k + if k =? st then op_AmountAllocated o - prev_amount s st id else 0;
  ps_accrued : accrued_sum s' = accrued_sum s + op_Accumulated o - prev_accrued s st id;
  ps_unsettled : unsettled_sum s' = unsettled_sum s + unsettled (idx_of s st) o - prev_unsettled s st id;
}.

Lemma put_option_sums st id o SW SA Q D s :
  put_sums s (with_options (<[(st, id) := o]> (l_Options s)) SW SA Q D s) st id o.
Proof.
  split; [intros k|..]; unfold weight_sum, accrued_sum, unsettled_sum, prev_amount, prev_accrued, prev_unsettled; cbn [l_Options with_options];
    rewrite map_sum_insert; destruct (l_Options s !! (st, id)) as [p|]; cbn; try (unfold idx_of; cbn; lia).
  - rewrite (Z.eqb_sym k st). destruct (st =? k); lia.
  - rewrite (Z.eqb_sym k st). destruct (st =? k); lia.
Qed.

Lemma refreshed_ok st o now s SW SA (Q : gset _) D :
  schedule_ok s → refreshed st o now s = (Q, D) →
  schedule_ok (with_options (<[(st, op_Id o) := o]> (l_Options s)) SW SA Q D s).
Proof.
  intros [Hd Ho]. unfold refreshed.
  assert (∀ a i d, (a, i) ≠ (st, op_Id o) → (d, a, i) ∈ l_PruneQueue s ↔ (l_PruneDue s !! (a, i) = Some d)) as Hd2
    by (intros; symmetry; apply Hd).
  destruct (prunable o) eqn:Ep, (l_PruneDue s !! (st, op_Id o)) as [d|] eqn:Ed; intros [= <- <-]; split;
    cbn [l_PruneQueue l_PruneDue l_Options with_options]; try done.
  - intros a i Hs. destruct (decide ((a, i) = (st, op_Id o))) as [[= -> ->]|Hne].
    + rewrite lookup_insert_eq. eauto.
    + rewrite lookup_insert_ne by done. by apply Ho.
  - intros a i d. destruct (decide ((a, i) = (st, op_Id o))) as [[= -> ->]|Hne].
    + rewrite lookup_insert_eq, elem_of_union, elem_of_singleton. split.
      * intros [= ->]. by left.
      * intros [[= ->]|Hin%Hd]; [done|congruence].
    + rewrite lookup_insert_ne by done. rewrite elem_of_union, elem_of_singleton, Hd. split; [by right|].
      intros [[= -> -> ->]|]; done.
  - intros a i Hs. destruct (decide ((a, i) = (st, op_Id o))) as [[= -> ->]|Hne].
    + rewrite lookup_insert_eq. eauto.
    + rewrite lookup_insert_ne in Hs by done. rewrite lookup_insert_ne by done. by apply Ho.
  - intros a i d'. destruct (decide ((a, i) = (st, op_Id o))) as [[= -> ->]|Hne].
    + rewrite lookup_delete_eq, elem_of_difference, elem_of_singleton. split; [done|].
      intros [Hin%Hd Hn]. congruence.
    + rewrite lookup_delete_ne by done. rewrite elem_of_difference, elem_of_singleton, Hd. split; [|by intros [? _]].
      intros ?. split; [done|]. intros [= -> -> ->]. done.
  - intros a i Hs. destruct (decide ((a, i) = (st, op_Id o))) as [[= -> ->]|Hne].
    + rewrite lookup_delete_eq in Hs. by destruct Hs.
    + rewrite lookup_delete_ne in Hs by done. rewrite lookup_insert_ne by done. by apply Ho.
  - intros a i Hs. destruct (decide ((a, i) = (st, op_Id o))) as [[= -> ->]|Hne].
    + rewrite Ed in Hs. by destruct Hs.
    + rewrite lookup_insert_ne by done. by apply Ho.
Qed.

(** Writing an option moves the target weight from one function to another. *)
Lemma put_option_inv g g' s st o SW SA Q D now :
  options_inv g s →
  (∀ k, default 0 (SW !! k) = summed_of s k + if k =? st then op_AmountAllocated o - prev_amount s st (op_Id o) else 0) →
  (∀ k, default 0 (SW !! k) = summed_of s k ∨ default 0 (SW !! k) < 2 ^ 256) →
  default 0 SA = default 0 (l_SummedAccrued s) + op_Accumulated o - prev_accrued s st (op_Id o) →
  refreshed st o now s = (Q, D) →
  option_ok g' s st (op_Id o) o →
  (∀ a i, (a, i) ≠ (st, op_Id o) → is_Some (l_Options s !! (a, i)) → g' a i = g a i) →
  options_inv g' (with_options (<[(st, op_Id o) := o]> (l_Options s)) SW SA Q D s).
Proof.
  intros [] HSW HSWf HSA Href Ho Hg. pose proof (put_option_sums st (op_Id o) o SW SA Q D s) as [Hw Ha _]. split.
  - intros a i p. cbn [l_Options with_options]. destruct (decide ((a, i) = (st, op_Id o))) as [[= -> ->]|Hne].
    + rewrite lookup_insert_eq. intros [= <-]. by destruct Ho.
    + rewrite lookup_insert_ne by done. intros Hp. destruct (oi_option0 _ _ _ Hp). split; try done.
      rewrite Hg; [done|done|by eexists].
  - intros k. rewrite Hw, <-oi_summed0. apply HSW.
  - rewrite Ha, <-oi_accrued0. apply HSA.
  - done.
  - intros k. destruct (HSWf k) as [E|E]; rewrite HSW in E; rewrite Hw, <-oi_summed0; [|done].
    rewrite E, oi_summed0. apply oi_fits0.
  - by eapply refreshed_ok.
Qed.
End put_option.

(** ** The getters *)
Section getters.
Context `{Host, !ShieldedKeeper, !StakingView, !AllocEnv}.
Implicit Types w : AllocWorld.

Lemma getRewardIndex_ok st w a w' : getRewardIndex st w = Ok (a, w') ↔ a = idx_of (a_store w) st ∧ w' = w.
Proof. exact (get_alloc_ok _ w a w'). Qed.
Lemma getTotalWeight_ok st w a w' : getTotalWeight st w = Ok (a, w') ↔ a = total_of (a_store w) st ∧ w' = w.
Proof. exact (get_alloc_ok _ w a w'). Qed.
Lemma getSummedWeight_ok st w a w' : getSummedWeight st w = Ok (a, w') ↔ a = summed_of (a_store w) st ∧ w' = w.
Proof. exact (get_alloc_ok _ w a w'). Qed.
Lemma getLastUpkeep_ok st w a w' : getLastUpkeep st w = Ok (a, w') ↔ a = upkeep_of (a_store w) st ∧ w' = w.
Proof. exact (get_alloc_ok _ w a w'). Qed.
Lemma getEpoch_ok st w a w' : getEpoch st w = Ok (a, w') ↔ a = epoch_of (a_store w) st ∧ w' = w.
Proof. exact (get_alloc_ok _ w a w'). Qed.
Lemma GetSummedAccrued_ok w a w' : GetSummedAccrued w = Ok (a, w') ↔ a = default 0 (l_SummedAccrued (a_store w)) ∧ w' = w.
Proof. exact (get_alloc_ok _ w a w'). Qed.
Lemma GetResidue_ok w a w' : GetResidue w = Ok (a, w') ↔ a = residue_of (a_store w) ∧ w' = w.
Proof. exact (get_alloc_ok _ w a w'). Qed.
End getters.

Ltac getter_step :=
  match goal with
  | H : getRewardIndex _ _ = Ok (_, _) |- _ => apply getRewardIndex_ok in H; destruct H as [-> ->]
  | H : getTotalWeight _ _ = Ok (_, _) |- _ => apply getTotalWeight_ok in H; destruct H as [-> ->]
  | H : getSummedWeight _ _ = Ok (_, _) |- _ => apply getSummedWeight_ok in H; destruct H as [-> ->]
  | H : getLastUpkeep _ _ = Ok (_, _) |- _ => apply getLastUpkeep_ok in H; destruct H as [-> ->]
  | H : getEpoch _ _ = Ok (_, _) |- _ => apply getEpoch_ok in H; destruct H as [-> ->]
  | H : GetSummedAccrued _ = Ok (_, _) |- _ => apply GetSummedAccrued_ok in H; destruct H as [-> ->]
  | H : GetResidue _ = Ok (_, _) |- _ => apply GetResidue_ok in H; destruct H as [-> ->]
  end.
Ltac alloc_run := repeat first [getter_step | alloc_step | host_step | prog_step].

(** ** What the writers do *)
Section writers.
Context `{HostLaws, !ShieldedKeeper, !StakingView, !AllocEnv}.
Implicit Types (w : AllocWorld) (s : AllocStore) (st id : Z) (o : AllocationOption) (g : Z → Z → Z).

(** Only the options, their sums and their schedule changed. *)
Definition options_only w w' : Prop := ∃ O SW SA Q D, w' = upd_alloc (with_options O SW SA Q D) w.

Lemma options_only_refl w : options_only w w.
Proof.
  destruct w as [s x]. exists (l_Options s), (l_SummedWeight s), (l_SummedAccrued s), (l_PruneQueue s), (l_PruneDue s).
  by destruct s.
Qed.
Lemma options_only_trans w1 w2 w3 : options_only w1 w2 → options_only w2 w3 → options_only w1 w3.
Proof. intros (? & ? & ? & ? & ? & ->) (O & SW & SA & Q & D & ->). by exists O, SW, SA, Q, D. Qed.

Lemma refreshPruneSchedule_ok st o w u w' :
  refreshPruneSchedule st o w = Ok (u, w') →
  ∃ Q D, refreshed st o (unix (a_world w)) (a_store w) = (Q, D) ∧
    w' = upd_alloc (λ s, with_options (l_Options s) (l_SummedWeight s) (l_SummedAccrued s) Q D s) w.
Proof.
  unfold refreshPruneSchedule, refreshed. intros Hr. destruct w as [s x], s.
  alloc_inv; do 2 eexists; (split; [reflexivity|]); reflexivity.
Qed.

Lemma setOption_ok st o w u w' :
  setOption st o w = Ok (u, w') →
  ∃ SW SA Q D, w' = upd_alloc (with_options (<[(st, op_Id o) := o]> (l_Options (a_store w))) SW SA Q D) w ∧
    (∀ k, default 0 (SW !! k) = summed_of (a_store w) k +
       if k =? st then op_AmountAllocated o - prev_amount (a_store w) st (op_Id o) else 0) ∧
    (∀ k, default 0 (SW !! k) = summed_of (a_store w) k ∨ default 0 (SW !! k) < 2 ^ 256) ∧
    default 0 SA = default 0 (l_SummedAccrued (a_store w)) + op_Accumulated o - prev_accrued (a_store w) st (op_Id o) ∧
    refreshed st o (unix (a_world w)) (a_store w) = (Q, D).
Proof.
  unfold setOption. intros Hr. apply bind_ok in Hr as (p & w1 & [-> ->]%get_alloc_ok & Hr).
  fold (prev_amount (a_store w) st (op_Id o)) (prev_accrued (a_store w) st (op_Id o)) in Hr. cbv zeta in Hr.
  apply bind_ok in Hr as (d1 & w1 & [Hd1 ->]%lift_ok & Hr). apply IntSub_ok in Hd1 as [-> _].
  apply bind_ok in Hr as ([] & w1 & Hsw & Hr).
  assert (∃ SW, w1 = upd_alloc (set_l_SummedWeight (λ _, SW)) w ∧ (∀ k, default 0 (SW !! k) = summed_of (a_store w) k +
    if k =? st then op_AmountAllocated o - prev_amount (a_store w) st (op_Id o) else 0) ∧
    ∀ k, default 0 (SW !! k) = summed_of (a_store w) k ∨ default 0 (SW !! k) < 2 ^ 256) as (SW & -> & HSW & HSWf).
  { destruct (Z.eqb_spec (op_AmountAllocated o - prev_amount (a_store w) st (op_Id o)) 0) as [E|E].
    - apply ret_ok in Hsw as [= ->]. exists (l_SummedWeight (a_store w)). split; [by destruct w as [[] ?]|].
      split; [|by left]. intros k. rewrite E. unfold summed_of. destruct (k =? st); lia.
    - clear Hr. alloc_run. eexists. split; [reflexivity|]. split; intros k; destruct (Z.eqb_spec k st) as [->|Hne].
      + by rewrite lookup_insert_eq.
      + rewrite lookup_insert_ne by done. unfold summed_of. lia.
      + rewrite lookup_insert_eq. right. cbn. match goal with E' : fits_int (summed_of _ _ + _) = true |- _ => apply fits_int_spec in E' end. lia.
      + rewrite lookup_insert_ne by done. by left. }
  apply bind_ok in Hr as (d2 & w1 & [Hd2 ->]%lift_ok & Hr). apply IntSub_ok in Hd2 as [-> _].
  apply bind_ok in Hr as ([] & w1 & Hsa & Hr).
  assert (∃ SA, w1 = upd_alloc (λ s, set_l_SummedAccrued (λ _, SA) (set_l_SummedWeight (λ _, SW) s)) w ∧
    default 0 SA = default 0 (l_SummedAccrued (a_store w)) + op_Accumulated o - prev_accrued (a_store w) st (op_Id o))
    as (SA & -> & HSA).
  { destruct (Z.eqb_spec (op_Accumulated o - prev_accrued (a_store w) st (op_Id o)) 0) as [E|E].
    - apply ret_ok in Hsa as [= ->]. exists (l_SummedAccrued (a_store w)). split; [by destruct w as [[] ?]|lia].
    - clear Hr Hsw.
      alloc_run.
      eexists. split; [reflexivity|]. cbn.
      lia. }
  apply bind_ok in Hr as ([] & w1 & ->%set_alloc_ok & Hr).
  apply refreshPruneSchedule_ok in Hr as (Q & D & Href & ->).
  exists SW, SA, Q, D. done.
Qed.

Lemma settleOption_ok o idx o' :
  0 ≤ op_AmountAllocated o → op_LastRewardIndex o ≤ idx → settleOption o idx = Ok o' →
  o' = set_op (op_AmountAllocated o) idx (op_Accumulated o + unsettled idx o / indexPrecision) o.
Proof.
  intros Ha Hl. unfold settleOption, unsettled. intros Hr. apply outcome_bind_ok in Hr as (acc & Hacc & [= <-]).
  f_equal. destruct (Z.ltb_spec 0 (op_AmountAllocated o)) as [Hpos|Hz].
  - host_inv. rewrite quot_div_nonneg by (unfold indexPrecision in *; nia). done.
  - injection Hacc as <-. assert (op_AmountAllocated o = 0) as -> by lia. rewrite Z.mul_0_l, Z.div_0_l by done. lia.
Qed.

(** What settling books is at most what was unsettled. *)
Lemma settled_le u : indexPrecision * (u / indexPrecision) ≤ u.
Proof. pose proof (div_mul_bounds u indexPrecision). unfold indexPrecision in *. lia. Qed.

(** A settled option written back, with the amount and the balance [a] and [b]. *)
Lemma write_settled g g' st id o o' w u w' :
  options_inv g (a_store w) → l_Options (a_store w) !! (st, id) = Some o →
  setOption st o' w = Ok (u, w') → op_Id o' = id → op_Stream o' = st → op_LastRewardIndex o' = idx_of (a_store w) st →
  0 ≤ op_AmountAllocated o' → 0 ≤ op_Accumulated o' →
  op_AmountAllocated o' = (if op_Removed o' then 0 else g' st id) →
  (∀ a i, (a, i) ≠ (st, id) → g' a i = g a i) →
  options_only w w' ∧ options_inv g' (a_store w') ∧
  l_Options (a_store w') = <[(st, id) := o']> (l_Options (a_store w)) ∧
  (∀ k, weight_sum (a_store w') k = weight_sum (a_store w) k + if k =? st then op_AmountAllocated o' - op_AmountAllocated o else 0) ∧
  owed_units (a_store w') = owed_units (a_store w)
    + indexPrecision * (op_Accumulated o' - op_Accumulated o) - unsettled (idx_of (a_store w) st) o.
Proof.
  intros Hi Ho Hr <- Hst Hlast Ha Hb Hamt Hg. apply setOption_ok in Hr as (SW & SA & Q & D & -> & HSW & HSWf & HSA & Href).
  split; [by do 5 eexists|]. pose proof (oi_option _ _ Hi _ _ _ Ho) as Hok.
  split; [|split; [done|]].
  { eapply put_option_inv; [exact Hi|exact HSW|exact HSWf|exact HSA|exact Href| |intros a i Hne _; by apply Hg].
    destruct Hok. split; try done. lia. }
  destruct (put_option_sums st (op_Id o') o' SW SA Q D (a_store w)) as [Hw Hacc Hun].
  unfold prev_amount, prev_accrued, prev_unsettled in *. rewrite Ho in *. cbn [from_option] in *.
  split; [exact Hw|]. unfold owed_units.
  assert (residue_of (a_store (upd_alloc (with_options (<[(st, op_Id o'):=o']> (l_Options (a_store w))) SW SA Q D) w)) = residue_of (a_store w))
    as -> by done.
  cbn [a_store upd_alloc] in *. rewrite Hacc, Hun. unfold unsettled. rewrite Hlast. nia.
Qed.

Lemma options_inv_ext g g' s :
  options_inv g s →
  (∀ st id o, l_Options s !! (st, id) = Some o → op_Removed o = false → g' st id = g st id) → options_inv g' s.
Proof.
  intros [] Hg. split; try done. intros st id o Ho. pose proof (oi_option0 _ _ _ Ho) as []. split; try done.
  destruct (op_Removed o) eqn:Er; [done|]. by rewrite (Hg _ _ _ Ho Er).
Qed.

(** An option without its figures: what a vote never changes. *)
Definition card o : AllocationOption := set_op 0 0 0 o.

Lemma on_cons c cs id : on (c :: cs) id = (if ct_option c =? id then ct_amt c else 0) + on cs id.
Proof. done. Qed.
Lemma on_nonneg cs id : Forall (λ c, 0 ≤ ct_amt c) cs → 0 ≤ on cs id.
Proof.
  induction 1 as [|c cs Hc _ IH]; [done|]. rewrite on_cons. destruct (_ =? _); lia.
Qed.

(** A loop of [writeVoter]: every option that is on file and not struck moves by what the list puts on it ([k] = 1) or
    takes off it ([k] = -1), settled first; the total follows. *)
Lemma apply_contributions_ok sgn k st cs g total w r w' :
  (∀ a b r, sgn a b = Ok r → r = a + k * b) → k = 1 ∨ k = -1 →
  options_inv g (a_store w) → total = weight_sum (a_store w) st → Forall (λ c, 0 ≤ ct_amt c) cs →
  (∀ id, 0 ≤ g st id + Z.min k 0 * on cs id) →
  apply_contributions sgn st (idx_of (a_store w) st) cs total w = Ok (r, w') →
  options_only w w' ∧ options_inv (λ a i, g a i + if a =? st then k * on cs i else 0) (a_store w') ∧
  r = weight_sum (a_store w') st ∧ (∀ a, a ≠ st → weight_sum (a_store w') a = weight_sum (a_store w) a) ∧
  owed_units (a_store w') ≤ owed_units (a_store w) ∧
  card <$> l_Options (a_store w') = card <$> l_Options (a_store w).
Proof.
  intros Hsgn Hk. revert g total w. induction cs as [|c cs IH]; intros g total w Hi Ht Hnn Hg Hr; cbn [apply_contributions] in Hr.
  { apply ret_ok in Hr as [= -> ->]. split; [apply options_only_refl|]. split; [|done].
    eapply options_inv_ext; [exact Hi|]. intros. destruct (_ =? _); cbn; lia. }
  apply Forall_cons in Hnn as [Hc Hnn]. pose proof (λ i, on_nonneg cs i Hnn) as Hon.
  set (g1 := λ a i, g a i + if (a =? st) && (ct_option c =? i) then k * ct_amt c else 0).
  assert (∀ id, 0 ≤ g1 st id + Z.min k 0 * on cs id) as Hg1.
  { intros i. specialize (Hg i). rewrite on_cons in Hg. unfold g1. rewrite Z.eqb_refl. cbn [andb].
    specialize (Hon i). destruct (_ =? i), Hk; subst k; cbn in *; lia. }
  assert (∀ a i, g1 a i + (if a =? st then k * on cs i else 0) = g a i + if a =? st then k * on (c :: cs) i else 0) as Hgg.
  { intros a i. unfold g1. rewrite on_cons. destruct (a =? st), (_ =? i); cbn [andb]; lia. }
  assert (∀ w1, options_inv g1 (a_store w1) → idx_of (a_store w1) st = idx_of (a_store w) st → ∀ t1, t1 = weight_sum (a_store w1) st →
    apply_contributions sgn st (idx_of (a_store w) st) cs t1 w1 = Ok (r, w') →
    options_only w1 w' ∧ options_inv (λ a i, g a i + if a =? st then k * on (c :: cs) i else 0) (a_store w') ∧
    r = weight_sum (a_store w') st ∧ (∀ a, a ≠ st → weight_sum (a_store w') a = weight_sum (a_store w1) a) ∧
    owed_units (a_store w') ≤ owed_units (a_store w1) ∧ card <$> l_Options (a_store w') = card <$> l_Options (a_store w1)) as Hrest.
  { intros w1 Hi1 Hidx t1 Ht1 Hr1. rewrite <-Hidx in Hr1. apply (IH g1) in Hr1 as (Hf & Hi' & Hr' & Ho & Hu & Hcd); [|done..].
    split; [done|]. split; [|done]. eapply options_inv_ext; [exact Hi'|]. intros. symmetry. apply Hgg. }
  clear IH. apply bind_ok in Hr as (mo & w1 & [-> ->]%get_alloc_ok & Hr).
  destruct (l_Options (a_store w) !! (st, ct_option c)) as [o|] eqn:Ho.
  - destruct (op_Removed o) eqn:Er.
    + apply (Hrest w) in Hr; [done| |done|done]. eapply options_inv_ext; [exact Hi|].
      intros a i p Hp Hrem. unfold g1. destruct (Z.eqb_spec a st) as [->|], (Z.eqb_spec (ct_option c) i) as [<-|]; cbn [andb]; try lia. congruence.
    + apply bind_ok in Hr as (o1 & w1 & [Hs ->]%lift_ok & Hr). pose proof (oi_option _ _ Hi _ _ _ Ho) as [].
      apply settleOption_ok in Hs as ->; [|done|done].
      apply bind_ok in Hr as (a1 & w1 & [->%Hsgn ->]%lift_ok & Hr).
      apply bind_ok in Hr as (t1 & w1 & [->%Hsgn ->]%lift_ok & Hr).
      apply bind_ok in Hr as ([] & w1 & Hset & Hr). rewrite Er in *.
      assert (0 ≤ unsettled (idx_of (a_store w) st) o) as Hun by (unfold unsettled; nia).
      assert (0 ≤ unsettled (idx_of (a_store w) st) o / indexPrecision) by (apply Z.div_pos; [done|by unfold indexPrecision]).
      pose proof (settled_le (unsettled (idx_of (a_store w) st) o)) as Hle.
      eapply (write_settled g g1 st (ct_option c)) in Hset as (Hf & Hi1 & Hop & Hw & Hu);
        [|exact Hi|exact Ho|done|done|done| |cbn; lia| |].
      * destruct Hf as (?&?&?&?&?&Ew1).
        apply (Hrest w1) in Hr; [|done|by rewrite Ew1|rewrite Hw, Z.eqb_refl; cbn; lia].
        destruct Hr as (Hf2 & Hi2 & Hr2 & Ho2 & Hu2 & Hcd). split; [eapply options_only_trans; [|exact Hf2]; rewrite Ew1; by do 5 eexists|].
        split; [done|]. split; [done|]. split.
        { intros a Ha. rewrite Ho2, Hw by done. destruct (Z.eqb_spec a st); [done|lia]. }
        split; [cbn in Hu; lia|]. rewrite Hcd, Hop, fmap_insert. apply insert_id. by rewrite lookup_fmap, Ho.
      * cbn. specialize (Hg (ct_option c)). rewrite on_cons, Z.eqb_refl in Hg. specialize (Hon (ct_option c)).
        destruct Hk; subst k; cbn in *; lia.
      * cbn. rewrite Er. unfold g1. rewrite !Z.eqb_refl. cbn. lia.
      * intros a i Hne. unfold g1. destruct (Z.eqb_spec a st) as [->|], (Z.eqb_spec (ct_option c) i) as [<-|]; cbn [andb]; try lia. done.
  - apply (Hrest w) in Hr; [done| |done|done]. eapply options_inv_ext; [exact Hi|].
    intros a i p Hp Hrem. unfold g1. destruct (Z.eqb_spec a st) as [->|], (Z.eqb_spec (ct_option c) i) as [<-|]; cbn [andb]; try lia. congruence.
Qed.
End writers.
