(* ===== verification/AllocEngine.v ===== *)
(** * x/allocation: votes and emission preserve the invariant

    [writeVoter] replaces one voter's contributions and nothing else; [settleTo] mints exactly the emission of the
    interval and never books more than it minted. *)

From S2P Require Export AllocInv.

(** ** Voters and what they carry *)
Section voters.
Context `{HostLaws, !ShieldedKeeper, !StakingView, !AllocEnv}.
Implicit Types (w : AllocWorld) (s : AllocStore) (st id : Z) (v : Voter) (key : bytes).

Lemma splitContributions_ok ps weight cs :
  Forall (λ p, 0 ≤ wt_Percent p ≤ 100) ps → splitContributions ps weight = Ok cs → cs = split_amounts ps weight.
Proof.
  intros Hp. revert cs. induction Hp as [|p ps Hpc _ IH]; intros cs; cbn [splitContributions]; [by intros [= <-]|].
  intros Hr. apply outcome_bind_ok in Hr as (m & Hm & Hr). rewrite wrap_i64_id in Hm by lia.
  apply IntMul_ok in Hm as [-> _]. apply outcome_bind_ok in Hr as (a & [_ ->]%IntQuo_ok & Hr).
  apply outcome_bind_ok in Hr as (rest & ->%IH & [= <-]). done.
Qed.

Lemma voterContributions_ok v cs :
  Forall (λ p, 0 ≤ wt_Percent p ≤ 100) (vt_Percentages v) → voterContributions v = Ok cs → cs = contributions v.
Proof.
  unfold voterContributions, contributions. intros Hp. destruct (vt_OptionWeights v); [by apply splitContributions_ok|by intros [= <-]].
Qed.

Lemma split_amounts_nonneg ps weight :
  0 ≤ weight → Forall (λ p, 0 ≤ wt_Percent p ≤ 100) ps → Forall (λ c, 0 ≤ ct_amt c) (split_amounts ps weight).
Proof.
  intros Hw Hp. unfold split_amounts. apply Forall_fmap. eapply Forall_impl; [exact Hp|]. intros p Hpc. unfold compose. cbn [ct_amt].
  assert (0 ≤ weight * wt_Percent p) by (cbv beta in Hpc; nia). rewrite quot_div_nonneg by lia. apply Z.div_pos; lia.
Qed.

Lemma contributions_nonneg s st v : voter_ok s st v → Forall (λ c, 0 ≤ ct_amt c) (contributions v).
Proof.
  intros []. unfold contributions. destruct (vt_OptionWeights v) as [|ow ows] eqn:E.
  - by apply split_amounts_nonneg.
  - unfold weight_contributions. apply Forall_fmap. exact vo_weights.
Qed.

(** What one stored voter adds to [live]. *)
Definition carried s st id key : Z :=
  match l_Voters s !! (st, key) with
  | Some v => if vt_Epoch v =? epoch_of s st then on (contributions v) id else 0
  | None => 0
  end.

Lemma carried_range s st id key :
  (∀ key v, l_Voters s !! (st, key) = Some v → voter_ok s st v) → 0 ≤ carried s st id key ≤ live s st id.
Proof.
  intros Hv. unfold carried.
  assert (∀ k v, l_Voters s !! k = Some v →
    0 ≤ (if (k.1 =? st) && (vt_Epoch v =? epoch_of s st) then on (contributions v) id else 0)) as Hnn.
  { intros [a k] v Hk. cbn. destruct (Z.eqb_spec a st) as [->|]; [|done]. destruct (_ =? _); [|done]. cbn.
    apply on_nonneg. eapply contributions_nonneg. by eapply Hv. }
  destruct (l_Voters s !! (st, key)) as [v|] eqn:Ek.
  - pose proof (map_sum_elem_le _ _ _ _ Hnn Ek) as Hle. pose proof (Hnn _ _ Ek) as Hge. cbn in Hle, Hge.
    rewrite Z.eqb_refl in Hle, Hge. cbn in Hle, Hge. unfold live. split; [exact Hge|exact Hle].
  - split; [done|]. by apply map_sum_nonneg.
Qed.

(** The targets after a voter's record is replaced or removed. *)
Lemma live_insert s s' st key v a id :
  l_Voters s' = <[(st, key) := v]> (l_Voters s) → l_Epoch s' = l_Epoch s → vt_Epoch v = epoch_of s st →
  live s' a id = live s a id + if a =? st then on (contributions v) id - carried s st id key else 0.
Proof.
  intros Hv He Hcur. unfold live, carried, epoch_of in *. rewrite Hv, He, map_sum_insert. cbn.
  rewrite Hcur, (Z.eqb_sym a st). destruct (Z.eqb_spec st a) as [<-|]; cbn.
  - rewrite Z.eqb_refl. destruct (l_Voters s !! (st, key)) as [o|]; cbn; lia.
  - destruct (l_Voters s !! (st, key)) as [o|]; cbn; lia.
Qed.
Lemma live_delete s s' st key a id :
  l_Voters s' = delete (st, key) (l_Voters s) → l_Epoch s' = l_Epoch s →
  live s' a id = live s a id - if a =? st then carried s st id key else 0.
Proof.
  intros Hv He. unfold live, carried, epoch_of in *. rewrite Hv, He, map_sum_delete_any. cbn.
  rewrite (Z.eqb_sym a st). destruct (Z.eqb_spec st a) as [<-|Hne].
  - destruct (l_Voters s !! (st, key)) as [o|]; cbn; lia.
  - destruct (l_Voters s !! (st, key)) as [o|]; cbn; lia.
Qed.

Lemma options_inv_frame g s s' :
  l_Options s' = l_Options s → l_OptionSeq s' = l_OptionSeq s → l_RewardIndex s' = l_RewardIndex s →
  l_SummedWeight s' = l_SummedWeight s → l_SummedAccrued s' = l_SummedAccrued s → l_Residue s' = l_Residue s →
  l_PruneDue s' = l_PruneDue s → l_PruneQueue s' = l_PruneQueue s → options_inv g s → options_inv g s'.
Proof.
  intros E1 E2 E3 E4 E5 E6 E7 E8 []. split.
  - intros st id o. rewrite E1. intros Ho. destruct (oi_option _ _ _ Ho). split; try done; unfold seq_of, idx_of; by rewrite ?E2, ?E3.
  - intros st. unfold summed_of, weight_sum. rewrite E4, E1. apply oi_summed.
  - unfold accrued_sum. by rewrite E5, E1.
  - unfold residue_of. by rewrite E6.
  - intros st. unfold weight_sum. rewrite E1. apply oi_fits.
  - destruct oi_schedule. split; rewrite E7, ?E8, ?E1; done.
Qed.

(** A record [writeVoter] may be given: with what it adds. *)
Record vote_ok s st (rec : Voter) (add : list contribution) (keep : bool) : Prop := {
  vk_weight : keep = true → 0 ≤ vt_Weight rec;
  vk_percent : Forall (λ p, 0 ≤ wt_Percent p ≤ 100) (vt_Percentages rec);
  vk_weights : Forall (λ x, 0 ≤ ow_Weight x) (vt_OptionWeights rec);
  vk_named : Forall (λ c, ct_option c ≤ seq_of s st) (contributions rec);
  vk_expires : 0 ≤ vt_ExpiresAt rec;
  vk_nonneg : Forall (λ c, 0 ≤ ct_amt c) add;
  vk_add id : on add id = if keep then on (contributions rec) id else 0;
}.

(** The record [writeVoter] stores. *)
Definition stored s st key (rec : Voter) : Voter :=
  mkVoter (vt_Percentages rec) (vt_Weight rec) (epoch_of s st) (vt_OptionWeights rec)
    (match l_Voters s !! (st, key) with
     | Some o => if (vt_ExpiresAt rec =? 0) && (vt_Epoch o =? epoch_of s st) then vt_ExpiresAt o else vt_ExpiresAt rec
     | None => vt_ExpiresAt rec
     end).
Definition lapses_after s st key (rec : Voter) (keep : bool) : gset (Z * Z * bytes) :=
  let q := match l_Voters s !! (st, key) with
           | Some o => if vt_ExpiresAt o =? 0 then l_VoterLapses s else l_VoterLapses s ∖ {[(vt_ExpiresAt o, st, key)]}
           | None => l_VoterLapses s
           end in
  if keep && negb (vt_ExpiresAt (stored s st key rec) =? 0) then {[(vt_ExpiresAt (stored s st key rec), st, key)]} ∪ q else q.

(** What [writeVoter] leaves behind, field by field. *)
Record voter_written w w' st key rec keep : Prop := {
  vw_ext : a_ext w' = a_ext w;
  vw_voters : l_Voters (a_store w') = if keep : bool then <[(st, key) := stored (a_store w) st key rec]> (l_Voters (a_store w))
                                      else delete (st, key) (l_Voters (a_store w));
  vw_lapses : l_VoterLapses (a_store w') = lapses_after (a_store w) st key rec keep;
  vw_total a : total_of (a_store w') a = weight_sum (a_store w') a;
  vw_card : card <$> l_Options (a_store w') = card <$> l_Options (a_store w);
  vw_seq : l_OptionSeq (a_store w') = l_OptionSeq (a_store w);
  vw_idx : l_RewardIndex (a_store w') = l_RewardIndex (a_store w);
  vw_upkeep : l_LastUpkeep (a_store w') = l_LastUpkeep (a_store w);
  vw_epoch : l_Epoch (a_store w') = l_Epoch (a_store w);
  vw_params : l_Params (a_store w') = l_Params (a_store w);
  vw_integrated : l_IntegratedOptions (a_store w') = l_IntegratedOptions (a_store w);
  vw_slashed : l_SlashedValidators (a_store w') = l_SlashedValidators (a_store w);
  vw_residue : l_Residue (a_store w') = l_Residue (a_store w);
  vw_owed : owed_units (a_store w') ≤ owed_units (a_store w);
  vw_options : options_inv (live (a_store w')) (a_store w');
}.

Lemma writeVoter_written st key rec add keep w u w' :
  store_inv (a_store w) → vote_ok (a_store w) st rec add keep →
  writeVoter st key rec add keep w = Ok (u, w') → voter_written w w' st key rec keep.
Proof.
  intros Hinv Hvote Hr. pose proof Hvote as []. unfold writeVoter in Hr.
  apply bind_ok in Hr as (ri & w1 & [-> ->]%getRewardIndex_ok & Hr).
  apply bind_ok in Hr as (tt & w1 & [-> ->]%getTotalWeight_ok & Hr).
  apply bind_ok in Hr as (ep & w1 & [-> ->]%getEpoch_ok & Hr).
  apply bind_ok in Hr as (old & w1 & [-> ->]%get_alloc_ok & Hr).
  apply bind_ok in Hr as (ex & w1 & Hex & Hr).
  set (q := match l_Voters (a_store w) !! (st, key) with
            | Some o => if vt_ExpiresAt o =? 0 then l_VoterLapses (a_store w) else l_VoterLapses (a_store w) ∖ {[(vt_ExpiresAt o, st, key)]}
            | None => l_VoterLapses (a_store w) end).
  assert (ex = vt_ExpiresAt (stored (a_store w) st key rec) ∧ w1 = upd_alloc (set_l_VoterLapses (λ _, q)) w) as [-> ->].
  { clear Hr. unfold stored, q. cbn. destruct (l_Voters (a_store w) !! (st, key)) as [o|].
    - apply bind_ok in Hex as ([] & w2 & Hq & [= -> ->]%ret_ok). split; [done|].
      destruct (vt_ExpiresAt o =? 0); [apply ret_ok in Hq as [= ->]; by destruct w as [[] ?]|by apply set_alloc_ok in Hq as ->].
    - apply ret_ok in Hex as [= -> ->]. split; [done|]. by destruct w as [[] ?]. }
  apply bind_ok in Hr as (t1 & w1 & Hsub & Hr).
  set (w0 := upd_alloc (set_l_VoterLapses (λ _, q)) w) in *.
  set (g1 := λ a i, live (a_store w) a i - if a =? st then carried (a_store w) st i key else 0).
  pose proof (si_voter _ Hinv) as Hvok.
  assert (options_only w0 w1 ∧ options_inv g1 (a_store w1) ∧ t1 = weight_sum (a_store w1) st ∧
    (∀ a, a ≠ st → weight_sum (a_store w1) a = weight_sum (a_store w) a) ∧ owed_units (a_store w1) ≤ owed_units (a_store w) ∧
    card <$> l_Options (a_store w1) = card <$> l_Options (a_store w)) as (Hf1 & Hi1 & -> & Ho1 & Hu1 & Hc1).
  { assert (options_inv (live (a_store w)) (a_store w0)) as Hi0 by (eapply options_inv_frame; [..|apply Hinv]; done).
    match goal with |- ?G => assert (Hsame : (∀ i, carried (a_store w) st i key = 0) → w1 = w0 → t1 = total_of (a_store w) st → G) end.
    { clear Hsub. intros Hz -> ->. split; [apply options_only_refl|]. split; [|by rewrite (si_total _ Hinv st)].
      eapply options_inv_ext; [exact Hi0|]. intros a i ? _ _. unfold g1. rewrite Hz. destruct (a =? st); lia. }
    unfold carried in Hsame. destruct (l_Voters (a_store w) !! (st, key)) as [o|] eqn:Eo.
    2:{ apply ret_ok in Hsub as [= -> ->]. by apply Hsame. }
    destruct (Z.eqb_spec (vt_Epoch o) (epoch_of (a_store w) st)) as [Ec|Ec].
    2:{ apply ret_ok in Hsub as [= -> ->]. by apply Hsame. }
    clear Hsame. apply bind_ok in Hsub as (cs & w2 & [Hcs ->]%lift_ok & Hsub).
    pose proof (Hvok _ _ _ Eo) as Hok. apply voterContributions_ok in Hcs as ->; [|apply Hok].
    assert (∀ i, carried (a_store w) st i key = on (contributions o) i) as Hcar.
    { intros i. unfold carried. by rewrite Eo, Ec, Z.eqb_refl. }
    change (idx_of (a_store w) st) with (idx_of (a_store w0) st) in Hsub.
    eapply (apply_contributions_ok IntSub (-1) st (contributions o) (live (a_store w))) in Hsub
      as (Hf & Hi & Ht & Ho & Hu & Hc); [|intros a b r [-> _]%IntSub_ok; lia|by right|exact Hi0|exact (si_total _ Hinv st)
      |by eapply contributions_nonneg|].
    - split; [exact Hf|]. split; [|split; [done|split; [exact Ho|done]]].
      eapply options_inv_ext; [exact Hi|]. intros a i ? _ _. unfold g1. rewrite Hcar. destruct (a =? st); lia.
    - intros i. pose proof (carried_range (a_store w) st i key (Hvok st)). rewrite Hcar in *. cbn. lia. }
  clear Hsub. apply bind_ok in Hr as (t2 & w2 & Hadd & Hr).
  assert (idx_of (a_store w1) st = idx_of (a_store w) st) as Hidx by (by destruct Hf1 as (?&?&?&?&?&->)). rewrite <-Hidx in Hadd.
  eapply (apply_contributions_ok IntAdd 1 st add g1) in Hadd as (Hf2 & Hi2 & -> & Ho2 & Hu2 & Hc2);
    [|intros a b r [-> _]%IntAdd_ok; lia|by left|done|done|done|].
  2:{ intros i. unfold g1. rewrite Z.eqb_refl. pose proof (carried_range (a_store w) st i key (Hvok st)). cbn. lia. }
  apply bind_ok in Hr as ([] & w3 & ->%set_alloc_ok & Hr).
  assert (0 ≤ weight_sum (a_store w2) st) as Hnn.
  { apply map_sum_nonneg. intros [a i] o Ho. cbn. destruct (a =? st); [|done]. by destruct (oi_option _ _ Hi2 _ _ _ Ho). }
  destruct (Z.ltb_spec (weight_sum (a_store w2) st) 0); [lia|].
  pose proof (options_only_trans _ _ _ Hf1 Hf2) as (O & SW & SA & Q & D & ->). clear Hf1 Hf2.
  set (tw := <[st := weight_sum (a_store (upd_alloc (with_options O SW SA Q D) w0)) st]> (l_TotalWeight (a_store w))).
  set (wt := upd_alloc (set_l_TotalWeight (λ _, tw)) (upd_alloc (with_options O SW SA Q D) w0)).
  assert (Hw' : w' = upd_alloc (λ s, set_l_Voters (λ _, if keep then <[(st, key) := stored (a_store w) st key rec]> (l_Voters (a_store w)) else delete (st, key) (l_Voters (a_store w)))
     (set_l_VoterLapses (λ _, lapses_after (a_store w) st key rec keep) s)) wt).
  { unfold lapses_after. fold q. destruct keep; cbn [negb] in Hr; [|apply set_alloc_ok in Hr as ->; done].
    apply bind_ok in Hr as ([] & w4 & Hl & ->%set_alloc_ok).
    destruct (vt_ExpiresAt (stored (a_store w) st key rec) =? 0); cbn [andb negb]; [apply ret_ok in Hl as [= ->]|apply set_alloc_ok in Hl as ->]; done. }
  clear Hr. subst w'. split; try done.
  - intros a. unfold total_of. cbn. unfold tw. change (weight_sum _ a) with (weight_sum (a_store (upd_alloc (with_options O SW SA Q D) w0)) a).
    destruct (decide (a = st)) as [->|Hne]; [by rewrite lookup_insert_eq|]. rewrite lookup_insert_ne by done.
    rewrite Ho2, Ho1 by done. exact (si_total _ Hinv a).
  - cbn in *. by rewrite Hc2.
  - etransitivity; [exact Hu2|exact Hu1].
  - eapply (options_inv_frame _ (a_store (upd_alloc (with_options O SW SA Q D) w0))); [done..|].
    eapply options_inv_ext; [exact Hi2|]. intros a i ? _ _. unfold g1. destruct keep.
    + rewrite (live_insert (a_store w) _ st key (stored (a_store w) st key rec)) by done. rewrite vk_add0.
      change (contributions (stored _ _ _ _)) with (contributions rec). destruct (a =? st); lia.
    + rewrite (live_delete (a_store w) _ st key) by done. rewrite vk_add0. destruct (a =? st); lia.
Qed.

Lemma elem_of_lapses_after s st key rec keep t a key' :
  (a, key') ≠ (st, key) → (t, a, key') ∈ lapses_after s st key rec keep ↔ (t, a, key') ∈ l_VoterLapses s.
Proof.
  intros Hne. unfold lapses_after.
  assert (∀ t', (t, a, key') ≠ (t', st, key)) as Hne' by congruence.
  destruct (keep && _), (l_Voters s !! (st, key)) as [o|]; try destruct (vt_ExpiresAt o =? 0);
    rewrite ?elem_of_union, ?elem_of_difference, ?elem_of_singleton; naive_solver.
Qed.

Lemma lapses_after_mem s st key rec keep e :
  e ∈ lapses_after s st key rec keep → e ∈ l_VoterLapses s ∨ e = (vt_ExpiresAt (stored s st key rec), st, key).
Proof.
  unfold lapses_after.
  destruct (keep && _), (l_Voters s !! (st, key)) as [o|]; try destruct (vt_ExpiresAt o =? 0);
    rewrite ?elem_of_union, ?elem_of_difference, ?elem_of_singleton; naive_solver.
Qed.

Lemma stored_expires s st key rec :
  (∀ v, l_Voters s !! (st, key) = Some v → 0 ≤ vt_ExpiresAt v) → 0 ≤ vt_ExpiresAt rec → 0 ≤ vt_ExpiresAt (stored s st key rec).
Proof. intros Hv Hr. cbn. destruct (l_Voters s !! (st, key)) as [o|]; [|done]. destruct (_ && _); [by apply Hv|done]. Qed.

Lemma voter_ok_frame s s' st v :
  voter_ok s st v → l_Epoch s' = l_Epoch s → l_OptionSeq s' = l_OptionSeq s → voter_ok s' st v.
Proof. intros [] He Hs. split; try done; unfold epoch_of, seq_of in *; by rewrite ?He, ?Hs. Qed.

(** Replacing a voter keeps the invariant. *)
Lemma writeVoter_inv st key rec add keep w u w' :
  store_inv (a_store w) → vote_ok (a_store w) st rec add keep →
  writeVoter st key rec add keep w = Ok (u, w') → store_inv (a_store w') ∧ voter_written w w' st key rec keep.
Proof.
  intros Hinv Hvote Hr. pose proof (writeVoter_written _ _ _ _ _ _ _ _ Hinv Hvote Hr) as Hw. split; [|done].
  destruct Hw, Hinv, Hvote. split.
  - done.
  - done.
  - intros a k v. rewrite vw_voters0. intros Hv.
    assert (∀ k', (a, k') ≠ (st, key) → l_Voters (a_store w) !! (a, k') = Some v → voter_ok (a_store w') a v) as Hother.
    { intros k' Hne Hv'. eapply voter_ok_frame; [by eapply si_voter|done|done]. }
    destruct keep.
    + destruct (decide ((a, k) = (st, key))) as [[= -> ->]|Hne].
      * rewrite lookup_insert_eq in Hv. injection Hv as <-. split; try done; unfold epoch_of, seq_of in *; rewrite ?vw_epoch0, ?vw_seq0; try done.
        -- by apply vk_weight0.
        -- cbn. split; [apply si_epoch|done].
        -- apply stored_expires; [|done]. intros o Ho. by destruct (si_voter _ _ _ Ho).
      * rewrite lookup_insert_ne in Hv by done. by eapply Hother.
    + apply lookup_delete_Some in Hv as [Hne Hv]. eapply Hother; [|exact Hv]; congruence.
  - intros a. unfold seq_of. rewrite vw_seq0. apply si_seq.
  - intros a. unfold epoch_of. rewrite vw_epoch0. apply si_epoch.
  - intros a. unfold upkeep_of. rewrite vw_upkeep0. apply si_upkeep.
  - intros e. rewrite vw_lapses0. intros [He| ->]%lapses_after_mem; [by apply si_lapses|]. cbn [fst].
    apply stored_expires; [|done]. intros o Ho. by destruct (si_voter _ _ _ Ho).
  - rewrite vw_params0. apply si_params.
Qed.

(** And the leases: the voter's own is queued anew, the others' stand. *)
Lemma writeVoter_leased st key rec keep w w' :
  voter_written w w' st key rec keep →
  (∀ a k v, (a, k) ≠ (st, key) → l_Voters (a_store w) !! (a, k) = Some v → lease_ok (a_store w) a k v) →
  leased (a_store w').
Proof.
  intros [] Hl a k v. rewrite vw_voters0. intros Hv.
  assert ((a, k) ≠ (st, key) → l_Voters (a_store w) !! (a, k) = Some v → lease_ok (a_store w') a k v) as Hother.
  { intros Hne Hv' Hx. unfold epoch_of. rewrite vw_epoch0. intros He. destruct (Hl a k v Hne Hv' Hx He) as (t & Ht & Hin).
    exists t. split; [done|]. rewrite vw_lapses0. by apply elem_of_lapses_after. }
  destruct keep.
  - destruct (decide ((a, k) = (st, key))) as [[= -> ->]|Hne].
    + rewrite lookup_insert_eq in Hv. injection Hv as <-. intros Hx _.
      exists (vt_ExpiresAt (stored (a_store w) st key rec)). split; [lia|]. rewrite vw_lapses0.
      unfold lapses_after. rewrite (proj2 (Z.eqb_neq _ _) Hx). cbn [andb negb]. set_solver.
    + rewrite lookup_insert_ne in Hv by done. by apply Hother.
  - apply lookup_delete_Some in Hv as [Hne Hv]. apply Hother; [congruence|done].
Qed.
End voters.
