(* ===== verification/AllocEmission.v ===== *)
(** * x/allocation: the emission of a stream

    [settleTo] and the calls over it: what an interval mints, where the index goes, and that the account covers what the
    options can collect of it in whatever order they settle. *)

From S2P Require Export AllocEngine.

Lemma map_sum_mul {K V} `{Countable K} (c : Z) (f : K → V → Z) (m : gmap K V) :
  map_sum (λ k v, c * f k v) m = c * map_sum f m.
Proof.
  induction m as [|k v m Hk IH] using map_ind; [rewrite !map_sum_empty; lia|]. rewrite !map_sum_insert_fresh by done. lia.
Qed.

Section emission.
Context `{HostLaws, !ShieldedKeeper, !StakingView, !AllocEnv}.
Implicit Types (w : AllocWorld) (s : AllocStore) (st : Z).

(** The module account's ERTH, and whether it covers what is owed. *)
Definition held w : Z := GetBalance (w_bank (a_world w)) alloc_addr hub_denom.
Definition funded w : Prop := owed_units (a_store w) ≤ indexPrecision * held w.

(** What a settlement up to [now] mints. *)
Definition stream_emission s st now : Z := if 0 <? total_of s st then emission_between (upkeep_of s st) now else 0.

Definition with_index (RI : gmap Z Z) (R : option Z) (LU : gmap Z Z) s : AllocStore :=
  mkAllocStore (l_Params s) (l_Options s) (l_OptionSeq s) (l_Voters s) RI (l_TotalWeight s) (l_SummedWeight s) LU
    (l_Epoch s) (l_IntegratedOptions s) (l_SummedAccrued s) R (l_PruneQueue s) (l_PruneDue s) (l_SlashedValidators s)
    (l_VoterLapses s).

(** Coins of the hub asset alone. *)
Definition hub_coins (cs : Coins) (amount : Z) : Prop := ∀ d, AmountOf cs d = if bool_decide (d = hub_denom) then amount else 0.

Lemma hub_coins_ok {S B} amount (f : Coins → prog S B) (x : S) r :
  (c ← lift (BondDenom ≫= λ denom, NewCoin denom amount); coins ← lift (NewCoins [c]); f coins) x = Ok r →
  ∃ coins, hub_coins coins amount ∧ 0 ≤ amount ∧ coins_wf coins ∧ f coins x = Ok r.
Proof.
  intros Hr. apply bind_ok in Hr as (c & x1 & [Hc ->]%lift_ok & Hr). rewrite host_bond_denom in Hc. cbn in Hc.
  apply NewCoin_spec in Hc as [-> Hge]. apply bind_ok in Hr as (cs & x1 & [[Hcs Hwf]%NewCoins_spec ->]%lift_ok & Hr).
  exists cs. split; [|done]. intros d. rewrite Hcs, AmountOf_cons, AmountOf_nil. cbn. repeat case_bool_decide; simplify_eq; lia.
Qed.

(** A movement of the store's index and the bank. *)
Record settled_to w w' st now : Prop := {
  st_store : ∃ RI R LU, a_store w' = with_index RI R LU (a_store w);
  st_ext : ∃ b, a_ext w' = (set_w_bank b (a_world w), snd (a_ext w));
  st_upkeep a : upkeep_of (a_store w') a =
    if (a =? st) && negb (negb (upkeep_of (a_store w) st =? 0) && (now <=? upkeep_of (a_store w) st)) then now else upkeep_of (a_store w) a;
  st_idx a : idx_of (a_store w') a =
    idx_of (a_store w) a + if a =? st then stream_emission (a_store w) st now * indexPrecision / total_of (a_store w) st else 0;
  st_residue : residue_of (a_store w) ≤ residue_of (a_store w');
  st_balance a d : GetBalance (w_bank (a_world w')) a d = GetBalance (w_bank (a_world w)) a d +
    if bool_decide (a = alloc_addr ∧ d = hub_denom) then stream_emission (a_store w) st now else 0;
  st_supply d : GetSupply (w_bank (a_world w')) d = GetSupply (w_bank (a_world w)) d +
    if bool_decide (d = hub_denom) then stream_emission (a_store w) st now else 0;
  st_owed : owed_units (a_store w') ≤ owed_units (a_store w) + indexPrecision * stream_emission (a_store w) st now;
  st_inv : store_inv (a_store w');
}.

Lemma ceilQuo_ok n d r : 0 ≤ n → 0 < d → ceilQuo n d = Ok r → n ≤ d * r.
Proof.
  unfold ceilQuo. intros Hn Hd Hr. host_inv. rewrite quot_div_nonneg by lia.
  pose proof (div_mul_bounds (n + d - 1) d Hd). lia.
Qed.

Lemma mintEmission_ok reward collectable w u w' :
  mintEmission reward collectable w = Ok (u, w') → 0 ≤ residue_of (a_store w) →
  ∃ R b, w' = mkAllocWorld (set_l_Residue (λ _, R) (a_store w)) (set_w_bank b (a_world w), snd (a_ext w)) ∧
    default 0 R = residue_of (a_store w) + Z.max 0 (reward - collectable) ∧
    (∀ a d, GetBalance b a d = GetBalance (w_bank (a_world w)) a d + if bool_decide (a = alloc_addr ∧ d = hub_denom) then reward else 0) ∧
    (∀ d, GetSupply b d = GetSupply (w_bank (a_world w)) d + if bool_decide (d = hub_denom) then reward else 0).
Proof.
  unfold mintEmission. intros Hr Hres. apply hub_coins_ok in Hr as (cs & Hcs & _ & _ & Hr).
  apply bind_ok in Hr as ([] & w1 & Hm & Hr). apply on_world_ok in Hm as (v & Hm & ->).
  apply bank_ok in Hm as (b & Hb & ->). apply MintCoins_spec in Hb as [Hbal Hsup].
  assert ((∀ a d, GetBalance b a d = GetBalance (w_bank (a_world w)) a d + if bool_decide (a = alloc_addr ∧ d = hub_denom) then reward else 0) ∧
    (∀ d, GetSupply b d = GetSupply (w_bank (a_world w)) d + if bool_decide (d = hub_denom) then reward else 0)) as [HB HS].
  { split; intros; rewrite ?Hbal, ?Hsup, !Hcs; fold alloc_addr; repeat case_bool_decide; destruct_and?; simplify_eq; try lia; tauto. }
  clear Hbal Hsup.
  apply bind_ok in Hr as (dust & w1 & [[-> _]%IntSub_ok ->]%lift_ok & Hr).
  destruct (Z.ltb_spec 0 (reward - collectable)); cbn [negb] in Hr.
  - apply bind_ok in Hr as (h & w1 & [-> ->]%GetResidue_ok & Hr).
    apply bind_ok in Hr as (r & w1 & [[-> _]%IntAdd_ok ->]%lift_ok & ->%set_alloc_ok).
    eexists (Some _), b. split; [reflexivity|]. split; [cbn; unfold residue_of; cbn; lia|done].
  - apply ret_ok in Hr as [= ->]. exists (l_Residue (a_store w)), b. split; [by destruct w as [[] ?]|].
    split; [unfold residue_of; lia|done].
Qed.

(** The invariant does not read where an index stands, only that it does not fall. *)
Lemma with_index_inv RI R LU s :
  store_inv s → (∀ st, idx_of s st ≤ default 0 (RI !! st)) → residue_of s ≤ default 0 R → (∀ st, 0 ≤ default 0 (LU !! st)) →
  store_inv (with_index RI R LU s).
Proof.
  intros [] HI HR HL. split; try done.
  - destruct si_options. split; try done.
    + intros st id o Ho. destruct (oi_option _ _ _ Ho). split; try done.
      etransitivity; [exact oo_last|exact (HI st)].
    + etransitivity; [exact oi_residue|exact HR].
    + by destruct oi_schedule.
  - intros st key v Hv. by destruct (si_voter _ _ _ Hv).
Qed.

Lemma weight_sum_nonneg s st : store_inv s → 0 ≤ weight_sum s st.
Proof.
  intros []. apply map_sum_nonneg. intros [a i] o Ho. cbn. destruct (a =? st); [|done].
  by destruct (oi_option _ _ si_options _ _ _ Ho).
Qed.

(** Moving one stream's index by [d] makes its options earn [d] per unit of weight. *)
Lemma with_index_owed RI R LU s st d :
  (∀ a, default 0 (RI !! a) = idx_of s a + if a =? st then d else 0) →
  owed_units (with_index RI R LU s) =
    owed_units s + indexPrecision * (default 0 R - residue_of s) + d * weight_sum s st.
Proof.
  intros HI. unfold owed_units.
  assert (unsettled_sum (with_index RI R LU s) = unsettled_sum s + d * weight_sum s st) as ->.
  { unfold weight_sum. rewrite <-map_sum_mul. unfold unsettled_sum. rewrite <-map_sum_add. apply map_sum_ext.
    intros [a i] o _. unfold unsettled. change (idx_of (with_index RI R LU s) (a, i).1) with (default 0 (RI !! a)).
    rewrite HI. cbn. destruct (a =? st); lia. }
  change (residue_of (with_index RI R LU s)) with (default 0 R). change (accrued_sum (with_index RI R LU s)) with (accrued_sum s). lia.
Qed.

(** The two ends of a settlement: nothing to do, and the index moved with [reward] minted. *)
Lemma settled_nothing w st now :
  store_inv (a_store w) → upkeep_of (a_store w) st ≠ 0 → now ≤ upkeep_of (a_store w) st → settled_to w w st now.
Proof.
  intros Hi Hu Hn. assert (stream_emission (a_store w) st now = 0) as E.
  { unfold stream_emission, emission_between. destruct (_ <? _); [|done].
    rewrite (proj2 (Z.leb_le _ _) Hn), orb_true_r. done. }
  split; rewrite ?E, ?Z.mul_0_l; try done.
  - exists (l_RewardIndex (a_store w)), (l_Residue (a_store w)), (l_LastUpkeep (a_store w)). by destruct w as [[] ?].
  - exists (w_bank (a_world w)). unfold a_world. destruct w as [? [[] ?]]; reflexivity.
  - intros a. rewrite (proj2 (Z.eqb_neq _ _) Hu), (proj2 (Z.leb_le _ _) Hn). cbn [negb andb]. by rewrite andb_false_r.
  - intros a. rewrite Zdiv_0_l. destruct (a =? st); lia.
  - intros. case_bool_decide; lia.
  - intros. case_bool_decide; lia.
  - lia.
Qed.

(** What the minting part leaves: the index and the residue moved, the bank minted [reward]. *)
Definition accrued_to w w1 st (RI : gmap Z Z) (R : option Z) (b : bank_state) (reward : Z) : Prop :=
  w1 = mkAllocWorld (with_index RI R (l_LastUpkeep (a_store w)) (a_store w)) (set_w_bank b (a_world w), snd (a_ext w)) ∧
  (∀ a, default 0 (RI !! a) = idx_of (a_store w) a + if a =? st then reward * indexPrecision / total_of (a_store w) st else 0) ∧
  residue_of (a_store w) ≤ default 0 R ∧
  (∀ a d, GetBalance b a d = GetBalance (w_bank (a_world w)) a d + if bool_decide (a = alloc_addr ∧ d = hub_denom) then reward else 0) ∧
  (∀ d, GetSupply b d = GetSupply (w_bank (a_world w)) d + if bool_decide (d = hub_denom) then reward else 0) ∧
  indexPrecision * (default 0 R - residue_of (a_store w)) + reward * indexPrecision / total_of (a_store w) st * weight_sum (a_store w) st
    ≤ indexPrecision * reward.

Lemma accrued_nothing w st :
  accrued_to w w st (l_RewardIndex (a_store w)) (l_Residue (a_store w)) (w_bank (a_world w)) 0.
Proof.
  unfold accrued_to. rewrite Z.mul_0_l, Zdiv_0_l, Z.mul_0_l. split_and!.
  - unfold a_world. destruct w as [[] [[] ?]]; reflexivity.
  - intros a. unfold idx_of. destruct (a =? st); lia.
  - done.
  - intros. case_bool_decide; lia.
  - intros. case_bool_decide; lia.
  - unfold residue_of. lia.
Qed.

Lemma accrueTo_ok st now w w' :
  store_inv (a_store w) → upkeep_of (a_store w) st ≠ 0 → upkeep_of (a_store w) st < now < 2 ^ 63 →
  accrueTo st (upkeep_of (a_store w) st) now w = Ok ((), w') →
  ∃ RI R b, accrued_to w w' st RI R b (stream_emission (a_store w) st now).
Proof.
  intros Hinv Hnz Hnow Hr. pose proof (si_upkeep _ Hinv st) as Hup. pose proof (si_total _ Hinv st) as Htot.
  pose proof (oi_residue _ _ (si_options _ Hinv)) as Hres. pose proof (accrued_nothing w st) as Hsame.
  unfold stream_emission, emission_between.
  rewrite (proj2 (Z.eqb_neq _ _) Hnz), (proj2 (Z.leb_gt _ _) (proj1 Hnow)). cbn [orb].
  apply bind_ok in Hr as (tt & w2 & [-> ->]%getTotalWeight_ok & Hr).
  destruct (Z.ltb_spec 0 (total_of (a_store w) st)) as [Hpos|Hz]; cbn [negb] in Hr.
  2:{ apply ret_ok in Hr as [= ->]. by do 3 eexists. }
  rewrite wrap_i64_id in Hr by lia.
  apply bind_ok in Hr as (m & w2 & [[-> _]%IntMul_ok ->]%lift_ok & Hr).
  apply bind_ok in Hr as (rw & w2 & [[_ ->]%IntQuo_ok ->]%lift_ok & Hr).
  unfold EmissionPerSecond, nanos_per_second in Hr.
  rewrite quot_div_nonneg in Hr by (unfold EmissionPerSecondPerPillar; lia).
  set (reward := EmissionPerSecondPerPillar * (now - upkeep_of (a_store w) st) / 10 ^ 9) in *.
  assert (0 ≤ reward) as Hrw by (apply Z.div_pos; [unfold EmissionPerSecondPerPillar; lia|done]).
  destruct (Z.ltb_spec 0 reward) as [Hrp|Hz]; cbn [negb] in Hr.
  2:{ apply ret_ok in Hr as [= ->]. replace reward with 0 by lia. by do 3 eexists. }
  clear Hsame. apply bind_ok in Hr as (ix & w2 & [-> ->]%getRewardIndex_ok & Hr).
  apply bind_ok in Hr as (sc & w2 & [[-> _]%IntMul_ok ->]%lift_ok & Hr).
  apply bind_ok in Hr as (dl & w2 & [[_ ->]%IntQuo_ok ->]%lift_ok & Hr).
  rewrite quot_div_nonneg in Hr by (unfold indexPrecision; lia).
  set (delta := reward * indexPrecision / total_of (a_store w) st) in *.
  assert (0 ≤ delta) as Hdl by (apply Z.div_pos; [unfold indexPrecision; lia|done]).
  apply bind_ok in Hr as (ix & w2 & [[-> _]%IntAdd_ok ->]%lift_ok & Hr).
  apply bind_ok in Hr as ([] & w2 & ->%set_alloc_ok & Hr).
  apply bind_ok in Hr as (dt & w2 & [[-> _]%IntMul_ok ->]%lift_ok & Hr).
  apply bind_ok in Hr as (coll & w2 & [Hcoll ->]%lift_ok & Hr). apply ceilQuo_ok in Hcoll; [|nia|done].
  apply mintEmission_ok in Hr as (R & b & -> & HR & HB & HS); [|exact Hres].
  exists (<[st := idx_of (a_store w) st + delta]> (l_RewardIndex (a_store w))), R, b.
  pose proof (div_mul_bounds (reward * indexPrecision) (total_of (a_store w) st) Hpos) as Hdb. fold delta in Hdb.
  change (default 0 R = residue_of (a_store w) + Z.max 0 (reward - coll)) in HR.
  split; [reflexivity|]. split.
  { intros a. destruct (Z.eqb_spec a st) as [->|Hne]; [by rewrite lookup_insert_eq|]. rewrite lookup_insert_ne by done. unfold idx_of. lia. }
  split; [lia|]. split; [exact HB|]. split; [exact HS|].
  fold delta. rewrite <-Htot, HR. unfold indexPrecision in *. lia.
Qed.

Lemma settleTo_ok st now w u w' :
  store_inv (a_store w) → 0 ≤ now < 2 ^ 63 → settleTo st now w = Ok (u, w') → settled_to w w' st now.
Proof.
  intros Hinv Hnow Hr. pose proof (si_upkeep _ Hinv st) as Hup. pose proof (weight_sum_nonneg _ st Hinv) as Hws.
  unfold settleTo in Hr. apply bind_ok in Hr as (last & w1 & [-> ->]%getLastUpkeep_ok & Hr).
  destruct (negb (upkeep_of (a_store w) st =? 0) && (now <=? upkeep_of (a_store w) st)) eqn:Hno.
  { apply ret_ok in Hr as [= _ ->]. apply settled_nothing; [done|lia|lia]. }
  apply bind_ok in Hr as ([] & w1 & Hmid & ->%set_alloc_ok).
  assert (∃ RI R b, accrued_to w w1 st RI R b (stream_emission (a_store w) st now)) as (RI & R & b & -> & HRI & HR & HB & HS & Hle).
  { destruct (Z.eqb_spec (upkeep_of (a_store w) st) 0) as [Hz|Hnz].
    - apply ret_ok in Hmid as [= ->]. do 3 eexists. unfold stream_emission, emission_between. rewrite Hz. cbn.
      destruct (_ <? _); apply accrued_nothing.
    - apply accrueTo_ok in Hmid; [done|done|done|lia]. }
  set (reward := stream_emission (a_store w) st now) in *.
  assert (0 ≤ reward) as Hrw by (unfold reward, stream_emission; destruct (_ <? _); [apply emission_between_nonneg|done]).
  assert (0 ≤ reward * indexPrecision / total_of (a_store w) st) as Hdl.
  { rewrite (si_total _ Hinv st). destruct (Z.eq_dec (weight_sum (a_store w) st) 0) as [->|]; [by rewrite Zdiv_0_r|].
    apply Z.div_pos; [unfold indexPrecision|]; lia. }
  split; [by do 3 eexists|by eexists| |exact HRI|exact HR|exact HB|exact HS| |].
  - intros a. rewrite Hno. cbn [negb]. rewrite andb_true_r. unfold upkeep_of. cbn. destruct (Z.eqb_spec a st) as [->|Hne];
      [by rewrite lookup_insert_eq|by rewrite lookup_insert_ne].
  - cbn [a_store upd_alloc].
    change (set_l_LastUpkeep _ _) with (with_index RI R (<[st := now]> (l_LastUpkeep (a_store w))) (a_store w)).
    rewrite (with_index_owed _ _ _ _ st _ HRI). lia.
  - apply (with_index_inv RI R (<[st := now]> (l_LastUpkeep (a_store w))) (a_store w) Hinv); [|exact HR|].
    + intros a. rewrite HRI. destruct (a =? st); lia.
    + intros a. destruct (decide (a = st)) as [->|Hne]; [rewrite lookup_insert_eq; cbn; lia|].
      rewrite lookup_insert_ne by done. apply (si_upkeep _ Hinv a).
Qed.
End emission.
