(* ===== verification/AllocVotes.v ===== *)
(** * x/allocation: the calls that move votes

    Advancing a stream's index, and every call that files, replays, moves or clears a vote ([external_voters.go],
    [resyncVoter] and its variants, [resyncFromBonded]): each keeps the module's invariant. *)

From S2P Require Export AllocEmission.

Section votes.
Context `{HostLaws, !ShieldedKeeper, !StakingView, !AllocEnv}.
Implicit Types (w : AllocWorld) (s : AllocStore) (st : Z) (key : bytes).

(** The invariant of a state of the chain. *)
Record alloc_inv w : Prop := {
  ai_store : store_inv (a_store w);
  ai_leased : leased (a_store w);
  ai_clock : 0 ≤ w_nanos (a_world w) < 2 ^ 63;
  ai_funded : funded w;
}.

(** No lease of the stream ends by [t]. *)
Definition nothing_due s st t : Prop := ∀ e, e ∈ l_VoterLapses s → e.1.2 = st → t < e.1.1.

Lemma leased_frame s s' :
  leased s → l_Voters s' = l_Voters s → l_Epoch s' = l_Epoch s → l_VoterLapses s' = l_VoterLapses s → leased s'.
Proof. intros Hl Hv He Hq st key v. unfold lease_ok, epoch_of. rewrite Hv, He, Hq. apply Hl. Qed.

Lemma nanos_quot n : 0 ≤ n → Z.quot n nanos_per_second = n / 10 ^ 9.
Proof. intros. by apply quot_div_nonneg. Qed.

(** ** Settling *)
Lemma settled_to_inv w w' st now : alloc_inv w → settled_to w w' st now → alloc_inv w'.
Proof.
  intros [] []. destruct st_store as (RI & R & LU & Es), st_ext as [b Ee].
  split.
  - done.
  - rewrite Es. by eapply leased_frame.
  - unfold a_world. rewrite Ee. done.
  - unfold funded, held in *. rewrite st_balance, bool_decide_eq_true_2 by done. lia.
Qed.

Lemma settleTo_inv st now w u w' :
  alloc_inv w → 0 ≤ now < 2 ^ 63 → settleTo st now w = Ok (u, w') → alloc_inv w' ∧ settled_to w w' st now.
Proof.
  intros Hi Hn Hr. assert (settled_to w w' st now) as Hs by (eapply settleTo_ok; [apply Hi|done|done]).
  split; [by eapply settled_to_inv|done].
Qed.

Lemma nextLapse_ok st t w r w' :
  nextLapse st t w = Ok (r, w') →
  w' = w ∧ match r with
           | Some n => (∃ e, e ∈ l_VoterLapses (a_store w) ∧ e.1 = (n, st)) ∧ n ≤ t ∧ nothing_due (a_store w) st (n - 1)
           | None => nothing_due (a_store w) st t
           end.
Proof.
  unfold nextLapse. intros [-> ->]%get_alloc_ok. split; [done|].
  pose proof (first_of_kind (λ e : Z * Z * bytes, e.1.1 < t + 1 ∧ e.1.2 = st) (l_VoterLapses (a_store w))) as Hf.
  destruct (head _) as [[[n a] k]|]; cbn in *.
  - destruct Hf as (He & [Hlt ->] & Hmin). split; [by exists (n, st, k)|]. split; [lia|]. intros [[n' a'] k'] He' Hst. cbn in *.
    destruct (Z.lt_ge_cases n' (t + 1)) as [Hl|Hg]; [|lia].
    pose proof (key_le_fst _ _ (key_le_fst _ _ (Hmin _ He' (conj Hl Hst)))) as Hle. change (n ≤ n') in Hle. lia.
  - intros e He Hst. destruct (Z.lt_ge_cases e.1.1 (t + 1)); [|lia]. by destruct (Hf e He).
Qed.

Lemma heldTarget_ok st now w r w' :
  store_inv (a_store w) → 0 ≤ now < 2 ^ 63 → heldTarget st now w = Ok (r, w') →
  w' = w ∧ 0 ≤ r ≤ now ∧ (nothing_due (a_store w) st (now / 10 ^ 9) → r = now).
Proof.
  intros Hi Hn. unfold heldTarget. intros Hr. apply bind_ok in Hr as (nx & w1 & [-> Hnx]%nextLapse_ok & [= -> ->]%ret_ok).
  split; [done|]. rewrite nanos_quot in Hnx by lia. destruct nx as [t|]; [|by split; [lia|]].
  destruct Hnx as ((e & He & Ee) & Ht & _). pose proof (si_lapses _ Hi _ He) as Hge. rewrite Ee in Hge. cbn in Hge.
  pose proof (div_mul_bounds now (10 ^ 9) ltac:(lia)). unfold nanos_per_second. rewrite wrap_i64_id by lia.
  destruct (Z.ltb_spec (t * 10 ^ 9) now); (split; [lia|]); [|done].
  intros Hd. specialize (Hd _ He). rewrite Ee in Hd. cbn in Hd. specialize (Hd eq_refl). lia.
Qed.

Lemma advanceIndexTo_ok st now w u w' :
  alloc_inv w → 0 ≤ now < 2 ^ 63 → advanceIndexTo st now w = Ok (u, w') →
  alloc_inv w' ∧ ∃ n, 0 ≤ n ≤ now ∧ settled_to w w' st n ∧ (nothing_due (a_store w) st (now / 10 ^ 9) → n = now).
Proof.
  intros Hi Hn. unfold advanceIndexTo. intros Hr. apply bind_ok in Hr as (last & w1 & [-> ->]%getLastUpkeep_ok & Hr).
  apply bind_ok in Hr as (n & w1 & Hh & Hr).
  assert (w1 = w ∧ 0 ≤ n ≤ now ∧ (nothing_due (a_store w) st (now / 10 ^ 9) → n = now)) as (-> & Hn' & Hdue).
  { destruct (_ =? 0); [apply ret_ok in Hh as [= -> ->]; split; [done|split; [lia|done]]|].
    eapply heldTarget_ok; [apply Hi|done|done]. }
  apply settleTo_inv in Hr as [Hi' Hs]; [|done|lia]. split; [done|]. by exists n.
Qed.

Lemma AdvanceIndex_ok st w u w' :
  alloc_inv w → AdvanceIndex st w = Ok (u, w') →
  alloc_inv w' ∧ ∃ n, 0 ≤ n ≤ w_nanos (a_world w) ∧ settled_to w w' st n ∧
    (nothing_due (a_store w) st (unix (a_world w)) → n = w_nanos (a_world w)).
Proof.
  intros Hi. unfold AdvanceIndex. intros Hr. apply bind_ok in Hr as (n & w1 & [-> ->]%alloc_nanos_ok & Hr).
  eapply advanceIndexTo_ok; [done|apply Hi|done].
Qed.

Lemma AdvanceIndexTo_inv st t w u w' : alloc_inv w → AdvanceIndexTo st t w = Ok (u, w') → alloc_inv w'.
Proof.
  intros Hi. unfold AdvanceIndexTo. intros Hr. apply bind_ok in Hr as (n & w1 & [-> ->]%alloc_nanos_ok & Hr).
  cbv zeta in Hr. apply bind_ok in Hr as (last & w1 & [-> ->]%getLastUpkeep_ok & Hr).
  set (at_ := if _ <? t then _ else _) in Hr.
  destruct ((upkeep_of (a_store w) st =? 0) || (at_ <=? upkeep_of (a_store w) st)) eqn:E.
  - by apply ret_ok in Hr as [= -> ->].
  - pose proof (si_upkeep _ (ai_store _ Hi) st). apply orb_false_iff in E as [_ E].
    apply advanceIndexTo_ok in Hr as [? _]; [done|done|]. split; [lia|]. unfold at_.
    destruct (_ <? t); [apply Hi|]. unfold wrap_i64. pose proof (Z.mod_pos_bound (t * nanos_per_second + 2 ^ 63) (2 ^ 64)). lia.
Qed.

(** A settlement leaves the votes, the options and the queues alone. *)
Lemma settled_frame w w' st now :
  settled_to w w' st now →
  l_Voters (a_store w') = l_Voters (a_store w) ∧ l_Options (a_store w') = l_Options (a_store w) ∧
  l_Epoch (a_store w') = l_Epoch (a_store w) ∧ l_OptionSeq (a_store w') = l_OptionSeq (a_store w) ∧
  l_VoterLapses (a_store w') = l_VoterLapses (a_store w) ∧ l_Params (a_store w') = l_Params (a_store w) ∧
  l_IntegratedOptions (a_store w') = l_IntegratedOptions (a_store w) ∧ l_TotalWeight (a_store w') = l_TotalWeight (a_store w) ∧
  l_SlashedValidators (a_store w') = l_SlashedValidators (a_store w) ∧ w_nanos (a_world w') = w_nanos (a_world w).
Proof. intros []. destruct st_store as (RI & R & LU & ->), st_ext as [b Ee]. unfold a_world. by rewrite Ee. Qed.

(** ** Filing a vote *)
Lemma voter_written_inv w w' st key rec add keep u :
  alloc_inv w → vote_ok (a_store w) st rec add keep → writeVoter st key rec add keep w = Ok (u, w') →
  alloc_inv w' ∧ voter_written w w' st key rec keep.
Proof.
  intros [] Hv Hr. apply writeVoter_inv in Hr as [Hi Hw]; [|done..]. split; [|done].
  pose proof Hw as []. split.
  - done.
  - eapply writeVoter_leased; [exact Hw|]. intros a k v _. apply ai_leased0.
  - unfold a_world. by rewrite vw_ext.
  - unfold funded, held, a_world in *. rewrite vw_ext. lia.
Qed.

Definition existing s st (ps : list AllocationWeight) : list AllocationWeight :=
  filter (λ p, is_Some (l_Options s !! (st, wt_OptionId p))) ps.

Lemma existing_named s st ps weight :
  store_inv s → Forall (λ c, ct_option c ≤ seq_of s st) (split_amounts (existing s st ps) weight).
Proof.
  intros Hi. unfold split_amounts. apply Forall_fmap, Forall_forall. intros p [[o Ho] _]%list_elem_of_filter.
  by destruct (oi_option _ _ (si_options _ Hi) _ _ _ Ho).
Qed.

Lemma existing_percents s st ps :
  Forall (λ p, 0 ≤ wt_Percent p ≤ 100) ps → Forall (λ p, 0 ≤ wt_Percent p ≤ 100) (existing s st ps).
Proof. rewrite !Forall_forall. intros Hp p [_ Hin]%list_elem_of_filter. by apply Hp. Qed.

Lemma on_zero_weight ps id : on (split_amounts ps 0) id = 0.
Proof.
  unfold split_amounts. induction ps as [|p ps IH]; [done|]. rewrite fmap_cons, on_cons, IH. cbn. destruct (_ =? _); done.
Qed.

(** A percentage split at a weight. *)
Lemma split_vote_ok s st ps weight expires :
  store_inv s → Forall (λ p, 0 ≤ wt_Percent p ≤ 100) ps → (ps ≠ [] → 0 ≤ weight) → 0 ≤ expires →
  vote_ok s st (mkVoter (existing s st ps) weight 0 [] expires) (split_amounts (existing s st ps) weight)
    (negb (bool_decide (existing s st ps = [])) && (0 <? weight)).
Proof.
  intros Hi Hp Hw He. assert (existing s st ps ≠ [] → 0 ≤ weight) as Hw'.
  { intros Hne. apply Hw. intros ->. by apply Hne. }
  split; cbn [vt_Weight vt_Percentages vt_OptionWeights vt_ExpiresAt contributions].
  - intros [_ ?]%andb_true_iff. lia.
  - by apply existing_percents.
  - constructor.
  - by apply existing_named.
  - done.
  - destruct (decide (existing s st ps = [])) as [E|E].
    + rewrite E. constructor.
    + apply split_amounts_nonneg; [by apply Hw'|by apply existing_percents].
  - intros id. case_bool_decide as E; cbn [negb andb]; [by rewrite E|].
    destruct (Z.ltb_spec 0 weight); [done|]. replace weight with 0 by (specialize (Hw' E); lia). apply on_zero_weight.
Qed.

Lemma resyncVoterAt_ok st key ps weight expires w u w' :
  alloc_inv w → Forall (λ p, 0 ≤ wt_Percent p ≤ 100) ps → (ps ≠ [] → 0 ≤ weight) → 0 ≤ expires →
  resyncVoterAt st key ps weight expires w = Ok (u, w') →
  alloc_inv w' ∧ voter_written w w' st key (mkVoter (existing (a_store w) st ps) weight 0 [] expires)
    (negb (bool_decide (existing (a_store w) st ps = [])) && (0 <? weight)).
Proof.
  intros Hi Hp Hw He. unfold resyncVoterAt, existingSplit. intros Hr.
  apply bind_ok in Hr as (ps' & w1 & [-> ->]%get_alloc_ok & Hr). fold (existing (a_store w) st ps) in Hr.
  apply bind_ok in Hr as (cs & w1 & [Hcs ->]%lift_ok & Hr).
  apply splitContributions_ok in Hcs as ->; [|by apply existing_percents].
  eapply voter_written_inv; [done| |exact Hr]. apply split_vote_ok; [apply Hi|done..].
Qed.

Lemma resyncVoter_inv st key ps weight w u w' :
  alloc_inv w → Forall (λ p, 0 ≤ wt_Percent p ≤ 100) ps → (ps ≠ [] → 0 ≤ weight) →
  resyncVoter st key ps weight w = Ok (u, w') → alloc_inv w'.
Proof. intros Hi Hp Hw Hr. eapply resyncVoterAt_ok in Hr as [? _]; [done|done|done|done|lia]. Qed.

Lemma resyncVoterKeep_inv st key ps weight keepZero w u w' :
  alloc_inv w → Forall (λ p, 0 ≤ wt_Percent p ≤ 100) ps → 0 ≤ weight →
  resyncVoterKeep st key ps weight keepZero w = Ok (u, w') → alloc_inv w'.
Proof.
  intros Hi Hp Hw. unfold resyncVoterKeep, existingSplit. intros Hr.
  destruct (_ || _); [eapply resyncVoter_inv; [done|exact Hp| |exact Hr]; done|].
  apply bind_ok in Hr as (ps' & w1 & [-> ->]%get_alloc_ok & Hr). fold (existing (a_store w) st ps) in Hr.
  eapply voter_written_inv in Hr as [? _]; [done|done|].
  split; cbn [vt_Weight vt_Percentages vt_OptionWeights vt_ExpiresAt contributions]; try done.
  - by apply existing_percents.
  - apply existing_named, Hi.
  - intros id. rewrite on_zero_weight. by destruct (negb _).
Qed.

(** ** external_voters.go *)

(** A split as a msg carries it: the percentages are uint64. *)
Definition typed_split (ps : list AllocationWeight) : Prop := Forall (λ p, 0 ≤ wt_Percent p) ps.

(** What [ValidateSplit] accepts. *)
Record split_ok s st (ps : list AllocationWeight) : Prop := {
  so_stream : st ∈ Streams;
  so_length : (length ps ≤ MaxVoterOptions)%nat;
  so_entry : Forall (λ p, 0 < wt_Percent p ≤ 100 ∧ ∃ o, l_Options s !! (st, wt_OptionId p) = Some o ∧ op_Removed o = false) ps;
  so_distinct : NoDup (wt_OptionId <$> ps);
  so_total : ps ≠ [] → list_sum wt_Percent ps = 100;
}.

Lemma validate_split_ok opts st ps seen sum r :
  typed_split ps → 0 ≤ sum → sum + 100 * Z.of_nat (length ps) < 2 ^ 64 → validate_split opts st ps seen sum = Ok r →
  Forall (λ p, 0 < wt_Percent p ≤ 100 ∧ ∃ o, opts !! (st, wt_OptionId p) = Some o ∧ op_Removed o = false) ps ∧
  NoDup (wt_OptionId <$> ps) ∧ (∀ p, p ∈ ps → wt_OptionId p ∉ seen) ∧ r = sum + list_sum wt_Percent ps.
Proof.
  intros Ht. revert seen sum. induction Ht as [|p ps Hp _ IH]; intros seen sum Hs Hb; cbn [validate_split].
  - intros [= <-]. split_and!; [constructor|constructor|by intros ? ?%elem_of_nil|cbn; lia].
  - intros Hr. cbn [length] in Hb. rewrite !refuse_bind in Hr. destruct Hr as (Hz & Hcap & Hdup & Hr).
    destruct (opts !! (st, wt_OptionId p)) as [o|] eqn:Ho; [|done]. rewrite refuse_bind in Hr. destruct Hr as [Hrem Hr].
    apply Z.eqb_neq in Hz. apply Z.ltb_ge in Hcap. case_bool_decide as Hseen; [done|]. cbv beta in Hp.
    rewrite wrap_u64_id in Hr by lia. apply IH in Hr as (HF & HN & HS & ->); [|lia|lia].
    split; [constructor; [split; [lia|by exists o]|done]|]. split.
    { cbn. constructor; [|done]. intros (q & Eq & Hq)%list_elem_of_fmap. apply (HS q Hq). rewrite <-Eq. set_solver. }
    split; [|rewrite list_sum_cons; lia]. intros q [->|Hq]%elem_of_cons; [done|]. intros Hin. apply (HS q Hq). set_solver.
Qed.

Lemma ValidateSplit_ok st ps w u w' :
  typed_split ps → ValidateSplit st ps w = Ok (u, w') → w' = w ∧ split_ok (a_store w) st ps.
Proof.
  intros Ht. unfold ValidateSplit. intros Hr. apply bind_ok in Hr as ([] & w1 & [Hst ->]%lift_ok & Hr).
  apply bind_ok in Hr as ([] & w1 & [Hlen ->]%refuse_if_ok & Hr). apply bind_ok in Hr as (opts & w1 & [-> ->]%get_alloc_ok & Hr).
  apply bind_ok in Hr as (sum & w1 & [Hv ->]%lift_ok & [Hsum ->]%refuse_if_ok). split; [done|].
  apply Nat.ltb_ge in Hlen. unfold MaxVoterOptions in Hlen.
  apply validate_split_ok in Hv as (HF & HN & _ & ->); [|done|lia|lia]. split; try done.
  - unfold ValidateStreamId in Hst. apply refuse_ok in Hst. by apply negb_false_iff, bool_decide_eq_true in Hst.
  - intros Hne. rewrite bool_decide_eq_false_2 in Hsum by done. cbn [negb andb] in Hsum.
    apply negb_false_iff, Z.eqb_eq in Hsum. lia.
Qed.

Lemma split_ok_percents s st ps : split_ok s st ps → Forall (λ p, 0 ≤ wt_Percent p ≤ 100) ps.
Proof. intros []. eapply Forall_impl; [exact so_entry0|]. cbv beta. lia. Qed.

Lemma SetVoterSplit_inv st key ps weight w u w' :
  alloc_inv w → typed_split ps → SetVoterSplit st key ps weight w = Ok (u, w') → alloc_inv w'.
Proof.
  intros Hi Ht. unfold SetVoterSplit. intros Hr. apply bind_ok in Hr as ([] & w1 & [-> Hs]%ValidateSplit_ok & Hr); [|done].
  apply bind_ok in Hr as ([] & w1 & [Hw ->]%refuse_if_ok & Hr).
  apply bind_ok in Hr as ([] & w1 & [Hi1 _]%AdvanceIndex_ok & Hr); [|done].
  eapply resyncVoter_inv; [exact Hi1|by eapply split_ok_percents| |exact Hr].
  intros Hne. rewrite bool_decide_eq_false_2 in Hw by done. cbn [negb andb] in Hw. lia.
Qed.

(** A lease ends a lease length after the block time. *)
Definition lease_end w : Z := unix (a_world w) + GroundworksLeaseSecondsOrDefault (default (mkAllocParams 0 0) (l_Params (a_store w))).

Lemma lease_seconds_bounds s :
  store_inv s → 0 < GroundworksLeaseSecondsOrDefault (default (mkAllocParams 0 0) (l_Params s)) ≤ MaxGroundworksLeaseSeconds.
Proof.
  intros Hi. unfold GroundworksLeaseSecondsOrDefault, DefaultGroundworksLeaseSeconds, MaxGroundworksLeaseSeconds.
  destruct (l_Params s) as [p|] eqn:Hp; cbn; [|lia]. destruct (si_params _ Hi _ Hp) as [Hv Hge].
  destruct (Z.eqb_spec (ap_GroundworksLeaseSeconds p) 0); [lia|].
  unfold AllocParamsValidate in Hv. apply refuse_ok in Hv. unfold MinGroundworksLeaseSeconds, MaxGroundworksLeaseSeconds in Hv. lia.
Qed.

Lemma unix_bounds w : alloc_inv w → 0 ≤ unix (a_world w) < 2 ^ 34.
Proof. intros []. unfold unix. split; [apply Z.div_pos; lia|apply Z.div_lt_upper_bound; lia]. Qed.

Lemma GroundworksLeaseEnd_ok w r w' : alloc_inv w → GroundworksLeaseEnd w = Ok (r, w') → w' = w ∧ r = lease_end w ∧ 0 < r.
Proof.
  intros Hi. unfold GroundworksLeaseEnd, alloc_GetParams. intros Hr. apply bind_ok in Hr as (ps & w1 & [-> ->]%get_alloc_ok & Hr).
  apply bind_ok in Hr as (n & w1 & [-> ->]%alloc_unix_ok & [= -> ->]%ret_ok). split; [done|].
  pose proof (lease_seconds_bounds _ (ai_store _ Hi)) as Hl. pose proof (unix_bounds _ Hi). unfold lease_end, MaxGroundworksLeaseSeconds in *.
  set (g := GroundworksLeaseSecondsOrDefault _) in *. rewrite (wrap_i64_id g), wrap_i64_id by lia. lia.
Qed.

Lemma ApplySplit_ok st key ps w r w' :
  alloc_inv w → typed_split ps → ApplySplit st key ps w = Ok (r, w') →
  alloc_inv w' ∧ split_ok (a_store w) st ps ∧ (ps ≠ [] → 0 < r) ∧
  ∃ w1 n expires keep, settled_to w w1 st n ∧ 0 ≤ n ≤ w_nanos (a_world w) ∧
    (nothing_due (a_store w) st (unix (a_world w)) → n = w_nanos (a_world w)) ∧
    expires = (if (st =? STREAM_ID_GROUNDWORKS) && negb (bool_decide (ps = [])) then lease_end w else 0) ∧
    keep = negb (bool_decide (existing (a_store w1) st ps = [])) && (0 <? r) ∧
    voter_written w1 w' st key (mkVoter (existing (a_store w1) st ps) r 0 [] expires) keep.
Proof.
  intros Hi Ht. unfold ApplySplit. intros Hr. apply bind_ok in Hr as ([] & w1 & [-> Hs]%ValidateSplit_ok & Hr); [|done].
  apply bind_ok in Hr as (src & w1 & Hsrc & Hr).
  assert (w1 = w) as -> by (unfold weightSource in Hsrc; destruct (_ !! _); [by apply ret_ok in Hsrc as [= _ ->]|done]).
  apply bind_ok in Hr as (x & w1 & [-> ->]%get_ext_ok & Hr). apply bind_ok in Hr as (weight & w1 & [_ ->]%lift_ok & Hr).
  apply bind_ok in Hr as ([] & w1 & [Hw ->]%refuse_if_ok & Hr).
  apply bind_ok in Hr as ([] & w1 & [Hi1 (n & Hn & Hset & Hdue)]%AdvanceIndex_ok & Hr); [|done].
  apply bind_ok in Hr as (ex & w2 & Hex & Hr).
  pose proof (settled_frame _ _ _ _ Hset) as (_ & _ & _ & _ & _ & Hpar & _ & _ & _ & Hnan).
  assert (lease_end w1 = lease_end w) as Hle by (unfold lease_end, unix; by rewrite Hpar, Hnan).
  assert (w2 = w1 ∧ 0 ≤ ex ∧ ex = (if (st =? STREAM_ID_GROUNDWORKS) && negb (bool_decide (ps = [])) then lease_end w else 0)) as (-> & Hge & Eex).
  { destruct ((st =? STREAM_ID_GROUNDWORKS) && negb (bool_decide (ps = []))); [|by apply ret_ok in Hex as [= -> ->]].
    apply GroundworksLeaseEnd_ok in Hex as (-> & -> & ?); [|done]. split; [done|]. split; [lia|done]. }
  apply bind_ok in Hr as ([] & w2 & Hr & [= -> ->]%ret_ok).
  assert (ps ≠ [] → 0 < weight) as Hpos by (intros Hne; rewrite bool_decide_eq_false_2 in Hw by done; cbn [negb andb] in Hw; lia).
  eapply resyncVoterAt_ok in Hr as [Hi2 Hvw]; [|done|by eapply split_ok_percents|intros Hne; specialize (Hpos Hne); lia|done].
  split; [done|]. split; [done|]. split; [done|]. exists w1, n, ex. by eexists.
Qed.

(** The weight a vote is filed at is the one its stream's source gives the voter. *)
Lemma ApplySplit_weight st key ps w r w' :
  typed_split ps → ApplySplit st key ps w = Ok (r, w') → ∃ src, weightSources !! st = Some src ∧ ws_Weight src key (a_ext w) = Ok r.
Proof.
  intros Ht. unfold ApplySplit. intros Hr. apply bind_ok in Hr as ([] & w1 & [-> _]%ValidateSplit_ok & Hr); [|done].
  apply bind_ok in Hr as (src & w1 & Hsrc & Hr). unfold weightSource in Hsrc. destruct (weightSources !! st) as [src'|] eqn:Es; [|done].
  apply ret_ok in Hsrc as [= -> ->]. apply bind_ok in Hr as (x & w1 & [-> ->]%get_ext_ok & Hr).
  apply bind_ok in Hr as (weight & w1 & [Hw ->]%lift_ok & Hr). exists src'. split; [done|]. by alloc_inv.
Qed.

(** The weight sources report no negative weight; a handler and the sink take no more out of the module's account than
    they say, and do not turn back the clock. *)
Class AllocEnvLaws : Prop := {
  ws_Weight_nonneg st src key x r : weightSources !! st = Some src → ws_Weight src key x = Ok r → 0 ≤ r;
  ih_fn_takes name h acc x r x' : integratedHandlers !! name = Some h → ih_fn h acc x = Ok (r, x') → 0 ≤ r ≤ acc →
    GetBalance (w_bank (fst x)) alloc_addr hub_denom - r ≤ GetBalance (w_bank (fst x')) alloc_addr hub_denom ∧
    w_nanos (fst x') = w_nanos (fst x);
  residueSink_takes sink amount x u x' : residueSink = Some sink → sink amount x = Ok (u, x') →
    GetBalance (w_bank (fst x)) alloc_addr hub_denom - amount ≤ GetBalance (w_bank (fst x')) alloc_addr hub_denom ∧
    w_nanos (fst x') = w_nanos (fst x);
}.
End votes.
