(* ===== verification/AllocLease.v ===== *)
(** * x/allocation: replayed and moved votes; leased splits lapse

    [SweepLapses] of [lease.go]: it retires, in time order, every lease that is due, terminates (the fuel of its loop is
    enough), and leaves nothing due behind, whatever fails on the way. *)

From S2P Require Export AllocVotes.

(** ** Replayed, weighted and moved votes

    [ResyncVoter], [SetWeightedVoter], [MoveVoter], the staking hooks' [resyncFromBonded] and [ResyncSlashed]: the votes
    no message casts.  Each keeps the invariant; the end-of-block pass over the recorded validators always returns. *)

Section resync.
Context `{HostLaws, !ShieldedKeeper, !StakingView, !AllocEnv, !AllocEnvLaws}.
Implicit Types (w : AllocWorld) (s : AllocStore) (st : Z) (key : bytes).

(** Dropping a record that no longer counts. *)
Lemma drop_stale_vote_inv st key v w :
  alloc_inv w → l_Voters (a_store w) !! (st, key) = Some v → vt_Epoch v ≠ epoch_of (a_store w) st →
  alloc_inv (upd_alloc (set_l_Voters (delete (st, key))) w).
Proof.
  intros [] Hv He. assert (∀ a i, live (set_l_Voters (delete (st, key)) (a_store w)) a i = live (a_store w) a i) as Hlive.
  { intros a i. rewrite (live_delete (a_store w) _ st key) by done. unfold carried. rewrite Hv, (proj2 (Z.eqb_neq _ _) He).
    destruct (a =? st); lia. }
  split; [|..].
  - destruct ai_store. split; try done.
    + eapply options_inv_ext; [eapply options_inv_frame; [..|exact si_options]; done|]. intros. apply Hlive.
    + intros a k u [_ Hl]%(lookup_delete_Some (l_Voters (a_store w))). by destruct (si_voter _ _ _ Hl).
  - intros a k u [_ Hl]%(lookup_delete_Some (l_Voters (a_store w))). by apply ai_leased.
  - done.
  - done.
Qed.

(** Replaying a stored voter at a new weight. *)
Lemma stored_percents st key v w :
  alloc_inv w → l_Voters (a_store w) !! (st, key) = Some v → Forall (λ p, 0 ≤ wt_Percent p ≤ 100) (vt_Percentages v).
Proof. intros Hi Hv. by destruct (si_voter _ (ai_store _ Hi) _ _ _ Hv). Qed.

Lemma ResyncVoter_inv st key w u w' : alloc_inv w → ResyncVoter st key w = Ok (u, w') → alloc_inv w'.
Proof.
  intros Hi. unfold ResyncVoter. intros Hr.
  apply bind_ok in Hr as ([] & w1 & [Hi1 _]%AdvanceIndex_ok & Hr); [|done].
  apply bind_ok in Hr as (v & w2 & [-> ->]%get_alloc_ok & Hr).
  destruct (l_Voters (a_store w1) !! (st, key)) as [v|] eqn:Hv; [|by apply ret_ok in Hr as [= -> ->]].
  apply bind_ok in Hr as (ep & w2 & [-> ->]%getEpoch_ok & Hr).
  destruct (Z.eqb_spec (vt_Epoch v) (epoch_of (a_store w1) st)) as [Ee|Ee]; cbn [negb] in Hr.
  2:{ apply set_alloc_ok in Hr as ->. by eapply drop_stale_vote_inv. }
  destruct (negb _); [by apply ret_ok in Hr as [= -> ->]|].
  apply bind_ok in Hr as (src & w2 & Hsrc & Hr). unfold weightSource in Hsrc.
  destruct (weightSources !! st) as [sc|] eqn:Esc; [|done]. apply ret_ok in Hsrc as [= -> ->].
  apply bind_ok in Hr as (x & w2 & [-> ->]%get_ext_ok & Hr). apply bind_ok in Hr as (weight & w2 & [Hw ->]%lift_ok & Hr).
  eapply resyncVoter_inv; [done|exact (stored_percents _ _ _ _ Hi1 Hv)|intros _; by eapply ws_Weight_nonneg|done].
Qed.

(** A weighted voter: its weights name options that exist or existed. *)
Definition named_weights s st (ws : list OptionWeight) : Prop := Forall (λ x, ow_OptionId x ≤ seq_of s st) ws.

Lemma weighted_entries_ok dups ws seen sum r s st :
  named_weights s st ws → 0 ≤ sum → weighted_entries dups ws seen sum = Ok r →
  Forall (λ x, 0 ≤ ow_Weight x) r.1 ∧ named_weights s st r.1 ∧ 0 ≤ r.2 ∧ r.2 = sum + list_sum ow_Weight r.1.
Proof.
  intros Hn. revert seen sum r. induction Hn as [|x ws Hx _ IH]; intros seen sum r Hs; cbn [weighted_entries].
  { intros [= <-]. cbn. split_and!; [constructor|constructor|done|lia]. }
  rewrite !refuse_bind. intros (Hneg & _ & Hr). destruct (Z.eqb_spec (ow_Weight x) 0); [by eapply IH|].
  apply outcome_bind_ok in Hr as (s1 & [-> _]%IntAdd_ok & Hr). apply outcome_bind_ok in Hr as (r1 & Hr1 & [= <-]).
  apply IH in Hr1 as (HF & HN & Hge & E); [|lia]. cbn [fst snd].
  split; [constructor; [lia|done]|]. split; [by constructor|]. split; [done|]. rewrite list_sum_cons. lia.
Qed.

Lemma writeWeightedVoter_inv st key ws sum w u w' :
  alloc_inv w → Forall (λ x, 0 ≤ ow_Weight x) ws → named_weights (a_store w) st ws → 0 ≤ sum →
  writeWeightedVoter st key ws sum w = Ok (u, w') → alloc_inv w'.
Proof.
  intros Hi Hw Hn Hs. unfold writeWeightedVoter. intros Hr. eapply voter_written_inv in Hr as [? _]; [done|done|].
  assert (ws ≠ [] → contributions (mkVoter [] sum 0 ws 0) = weight_contributions ws) as Hc by (by destruct ws).
  split; cbn [vt_Weight vt_Percentages vt_OptionWeights vt_ExpiresAt]; try done.
  - destruct (decide (ws = [])) as [->|Hne]; [constructor|]. rewrite Hc by done. by apply Forall_fmap.
  - by apply Forall_fmap.
  - intros id. destruct (decide (ws = [])) as [->|Hne]; [done|]. by rewrite bool_decide_eq_false_2, Hc.
Qed.

Lemma SetWeightedVoter_inv st key ws w u w' :
  alloc_inv w → named_weights (a_store w) st ws → SetWeightedVoter st key ws w = Ok (u, w') → alloc_inv w'.
Proof.
  intros Hi Hn. unfold SetWeightedVoter. intros Hr. apply bind_ok in Hr as ([] & w1 & [_ ->]%lift_ok & Hr).
  apply bind_ok in Hr as (r & w1 & [Hent ->]%lift_ok & Hr).
  apply bind_ok in Hr as ([] & w1 & [Hi1 (n & _ & Hset & _)]%AdvanceIndex_ok & Hr); [|done].
  eapply (weighted_entries_ok _ _ _ _ _ (a_store w) st) in Hent as (HF & HN & Hge & _); [|done|done].
  eapply writeWeightedVoter_inv; [done|done| |done|done].
  pose proof (settled_frame _ _ _ _ Hset) as (_ & _ & _ & Hseq & _). unfold named_weights, seq_of in *. by rewrite Hseq.
Qed.

Lemma SetWeightedVoterSettled_inv st key ws w u w' :
  alloc_inv w → named_weights (a_store w) st ws → SetWeightedVoterSettled st key ws w = Ok (u, w') → alloc_inv w'.
Proof.
  intros Hi Hn. unfold SetWeightedVoterSettled. intros Hr. apply bind_ok in Hr as ([] & w1 & [_ ->]%lift_ok & Hr).
  apply bind_ok in Hr as (r & w1 & [Hent ->]%lift_ok & Hr).
  eapply (weighted_entries_ok _ _ _ _ _ (a_store w) st) in Hent as (HF & HN & Hge & _); [|done|done].
  by eapply writeWeightedVoter_inv.
Qed.

Lemma MoveVoter_inv st from to w u w' : alloc_inv w → MoveVoter st from to w = Ok (u, w') → alloc_inv w'.
Proof.
  intros Hi. unfold MoveVoter. intros Hr.
  apply bind_ok in Hr as ([] & w1 & [Hi1 _]%AdvanceIndex_ok & Hr); [|done].
  apply bind_ok in Hr as (v & w2 & [-> ->]%get_alloc_ok & Hr).
  destruct (l_Voters (a_store w1) !! (st, from)) as [v|] eqn:Hv; [|by apply ret_ok in Hr as [= -> ->]].
  apply bind_ok in Hr as (ep & w2 & [-> ->]%getEpoch_ok & Hr).
  apply bind_ok in Hr as ([] & w2 & Hclr & Hr).
  apply resyncVoter_inv in Hclr as Hi2; [|done|constructor|done].
  destruct (negb _); [by apply ret_ok in Hr as [= -> ->]|].
  eapply resyncVoter_inv; [done|exact (stored_percents _ _ _ _ Hi1 Hv)| |done]. intros _. by destruct (si_voter _ (ai_store _ Hi1) _ _ _ Hv).
Qed.

(** ** The staking hooks *)
Lemma resyncFromBonded_inv addr removeVal w u w' : alloc_inv w → resyncFromBonded addr removeVal w = Ok (u, w') → alloc_inv w'.
Proof.
  intros Hi. unfold resyncFromBonded. intros Hr. destruct (negb _); [by apply ret_ok in Hr as [= -> ->]|].
  apply bind_ok in Hr as ([] & w1 & [Hi1 _]%AdvanceIndex_ok & Hr); [|done].
  apply bind_ok in Hr as (v & w2 & [-> ->]%get_alloc_ok & Hr).
  destruct (l_Voters (a_store w1) !! (STREAM_ID_GROUNDWORKS, addr)) as [v|] eqn:Hv; [|by apply ret_ok in Hr as [= -> ->]].
  apply bind_ok in Hr as (ep & w2 & [-> ->]%getEpoch_ok & Hr).
  destruct (Z.eqb_spec (vt_Epoch v) (epoch_of (a_store w1) STREAM_ID_GROUNDWORKS)) as [Ee|Ee]; cbn [negb] in Hr.
  2:{ apply set_alloc_ok in Hr as ->. by eapply drop_stale_vote_inv. }
  apply bind_ok in Hr as (x & w2 & [-> ->]%get_ext_ok & Hr). apply bind_ok in Hr as (r & w2 & [_ ->]%lift_ok & Hr).
  eapply resyncVoterKeep_inv; [done|exact (stored_percents _ _ _ _ Hi1 Hv)| |exact Hr]. destruct (Z.ltb_spec r.1 0); lia.
Qed.

Lemma set_slashed_inv f w : alloc_inv w → alloc_inv (upd_alloc (set_l_SlashedValidators f) w).
Proof.
  intros []. split; [|by eapply leased_frame|done|done].
  destruct ai_store. split; try done.
  - eapply options_inv_frame; [..|exact si_options]; done.
  - intros a k v Hv. by destruct (si_voter _ _ _ Hv).
Qed.

(** The pass over the recorded validators returns whatever fails in it. *)
Lemma ResyncSlashed_ok w : alloc_inv w → ∃ w', ResyncSlashed w = Ok ((), w') ∧ alloc_inv w'.
Proof.
  intros Hi. unfold ResyncSlashed. setoid_rewrite bind_ok.
  destruct (for_each_total alloc_inv (λ v, _ ← Cached (resyncFromBonded v None);
    set_alloc (set_l_SlashedValidators (λ X, X ∖ {[v]}))) (iter_set (l_SlashedValidators (a_store w)))) with (s := w) as (w' & Hr & Hi'); [|done|].
  - intros v w1 _ Hi1. destruct (Cached_total (resyncFromBonded v None) w1) as (r & w2 & Hc).
    eexists. split; [apply bind_ok; do 2 eexists; split; [exact Hc|reflexivity]|]. apply set_slashed_inv.
    eapply Cached_inv; [|exact Hi1|exact Hc]. intros [] t. by apply resyncFromBonded_inv.
  - exists w'. split; [|done]. do 2 eexists. split; [reflexivity|exact Hr].
Qed.
End resync.

(** ** The sweep of leases *)

Section lease.
Context `{HostLaws, !ShieldedKeeper, !StakingView, !AllocEnv}.
Implicit Types (w : AllocWorld) (s : AllocStore) (st t : Z) (key : Z * Z * bytes).

(** What a retirement leaves alone. *)
Definition same_clock w w' : Prop :=
  a_ext w' = a_ext w ∧ l_LastUpkeep (a_store w') = l_LastUpkeep (a_store w) ∧ l_RewardIndex (a_store w') = l_RewardIndex (a_store w).

Lemma set_lapses_store f w :
  store_inv (a_store w) → (∀ e, e ∈ f (l_VoterLapses (a_store w)) → 0 ≤ e.1.1) → store_inv (a_store (upd_alloc (set_l_VoterLapses f) w)).
Proof.
  intros [] Hf. split; try done.
  - eapply options_inv_frame; [..|exact si_options]; done.
  - intros a k v Hv. by destruct (si_voter _ _ _ Hv).
Qed.

Lemma lapses_after_drop s st (k : bytes) rec : lapses_after s st k rec false ⊆ l_VoterLapses s.
Proof. unfold lapses_after. cbn [andb]. destruct (l_Voters s !! (st, k)) as [o|]; [|done]. destruct (_ =? 0); set_solver. Qed.

Lemma empty_vote_ok s st : vote_ok s st (mkVoter [] 0 0 [] 0) [] false.
Proof. split; try done; constructor. Qed.

Lemma lapse_item_ok st t key w u w' :
  alloc_inv w → key.1 = (t, st) → lapse_item st t key w = Ok (u, w') →
  alloc_inv w' ∧ l_VoterLapses (a_store w') ⊆ l_VoterLapses (a_store w) ∖ {[key]} ∧ same_clock w w'.
Proof.
  intros Hi Hk. destruct key as [[? ?] k]. cbn in Hk. injection Hk as -> ->. unfold lapse_item. cbn [fst snd]. intros Hr.
  apply bind_ok in Hr as ([] & w1 & ->%set_alloc_ok & Hr).
  set (w1 := upd_alloc (set_l_VoterLapses (λ q, q ∖ {[(t, st, k)]})) w) in *.
  assert (store_inv (a_store w1)) as Hs1 by (apply set_lapses_store; [apply Hi|intros e [He _]%elem_of_difference; by apply (si_lapses _ (ai_store _ Hi))]).
  assert (∀ a k' v, (a, k') ≠ (st, k) → l_Voters (a_store w1) !! (a, k') = Some v → lease_ok (a_store w1) a k' v) as Hother.
  { intros a k' v Hne Hv Hx He. destruct (ai_leased _ Hi a k' v Hv Hx He) as (t' & Ht & Hin). exists t'. split; [done|].
    cbn. apply elem_of_difference. split; [done|]. rewrite elem_of_singleton. congruence. }
  assert ((∀ v, l_Voters (a_store w1) !! (st, k) = Some v → lease_ok (a_store w1) st k v) → alloc_inv w1 ∧
    l_VoterLapses (a_store w1) ⊆ l_VoterLapses (a_store w) ∖ {[(t, st, k)]} ∧ same_clock w w1) as Hkeep.
  { intros Hown. split; [|by split_and!]. destruct Hi. split; try done. intros a k' v Hv.
    destruct (decide ((a, k') = (st, k))) as [[= -> ->]|Hne]; [by apply Hown|by apply Hother]. }
  apply bind_ok in Hr as (v & w2 & [-> ->]%get_alloc_ok & Hr).
  destruct (l_Voters (a_store w1) !! (st, k)) as [v|] eqn:Hv; [|apply ret_ok in Hr as [= -> ->]; by apply Hkeep].
  apply bind_ok in Hr as (ep & w2 & [-> ->]%getEpoch_ok & Hr).
  destruct ((t <? vt_ExpiresAt v) || negb (vt_Epoch v =? epoch_of (a_store w1) st)) eqn:E.
  - apply ret_ok in Hr as [= -> ->]. apply Hkeep. intros v' [= <-] Hx He.
    rewrite He, Z.eqb_refl, orb_false_r in E. destruct (ai_leased _ Hi st k v Hv Hx He) as (t' & Ht & Hin).
    exists t'. split; [done|]. cbn. apply elem_of_difference. split; [done|]. rewrite elem_of_singleton. intros [= ->]. lia.
  - clear Hkeep. apply writeVoter_inv in Hr as [Hs' Hw]; [|done|apply empty_vote_ok].
    assert (leased (a_store w')) by (by eapply writeVoter_leased).
    destruct Hw. split; [|split].
    + destruct Hi. split; [done|done|unfold a_world; by rewrite vw_ext|].
      unfold funded, held, a_world in *. rewrite vw_ext. change (a_ext w1) with (a_ext w).
      etransitivity; [exact vw_owed|exact ai_funded].
    + rewrite vw_lapses. apply lapses_after_drop.
    + unfold same_clock. by rewrite vw_ext, vw_upkeep, vw_idx.
Qed.

Lemma LapseRetryAt_ok t w r w' : alloc_inv w → 0 ≤ t < 2 ^ 62 → LapseRetryAt t w = Ok (r, w') → w' = w ∧ r = Z.max t (unix (a_world w)) + LapseRetrySeconds.
Proof.
  intros Hi Ht. unfold LapseRetryAt. intros Hr. apply bind_ok in Hr as (n & w1 & [-> ->]%alloc_unix_ok & [= -> ->]%ret_ok). split; [done|].
  pose proof (unix_bounds _ Hi). unfold LapseRetrySeconds. rewrite wrap_i64_id by (destruct (t <? unix (a_world w)); lia).
  destruct (Z.ltb_spec t (unix (a_world w))); lia.
Qed.

(** A lease whose retirement failed, queued again. *)
Lemma requeue_inv st t (k : bytes) r w :
  alloc_inv w → 0 ≤ t → t ≤ r →
  alloc_inv (upd_alloc (set_l_VoterLapses (union {[(r, st, k)]})) (upd_alloc (set_l_VoterLapses (λ q, q ∖ {[(t, st, k)]})) w)).
Proof.
  intros [] Ht Hr. pose proof (si_lapses _ ai_store) as Hge. split; try done.
  - apply set_lapses_store; [apply set_lapses_store; [done|intros e [He _]%elem_of_difference; by apply Hge]|].
    cbn. intros e [->%elem_of_singleton|[He _]%elem_of_difference]%elem_of_union; [cbn; lia|by apply Hge].
  - intros a k' v Hv Hx He. destruct (ai_leased a k' v Hv Hx He) as (t' & Ht' & Hin). cbn.
    destruct (decide ((t', a, k') = (t, st, k))) as [[= -> -> ->]|Hne]; [exists r; split; [lia|set_solver]|].
    exists t'. split; [done|]. set_solver.
Qed.

Definition lapse_body st t key : AM () :=
  r ← Cached (lapse_item st t key);
  match r with
  | inr _ => mret ()
  | inl _ =>
      retry ← LapseRetryAt t;
      set_alloc (set_l_VoterLapses (λ q, q ∖ {[key]}));;
      set_alloc (set_l_VoterLapses (union {[(retry, key.1.2, key.2)]}))
  end.

Lemma lapse_body_ok st t key w u w' :
  alloc_inv w → key.1 = (t, st) → 0 ≤ t < 2 ^ 62 → lapse_body st t key w = Ok (u, w') →
  alloc_inv w' ∧ same_clock w w' ∧
  ∀ e, e ∈ l_VoterLapses (a_store w') → (e ∈ l_VoterLapses (a_store w) ∧ e ≠ key) ∨ unix (a_world w) < e.1.1.
Proof.
  intros Hi Hk Ht. unfold lapse_body. intros Hr. apply bind_ok in Hr as (r & w1 & Hc & Hr).
  apply Cached_cases in Hc as [([] & -> & Hit)|(er & -> & -> & _)].
  - apply ret_ok in Hr as [= -> ->]. apply lapse_item_ok in Hit as (Hi' & Hsub & Hcl); [|done|done].
    split; [done|]. split; [done|]. intros e He. left. set_solver.
  - apply bind_ok in Hr as (rt & w1 & [-> ->]%LapseRetryAt_ok & Hr); [|done..].
    apply bind_ok in Hr as ([] & w1 & ->%set_alloc_ok & ->%set_alloc_ok).
    destruct key as [[? ?] k]. cbn in Hk. injection Hk as -> ->. cbn [fst snd]. unfold LapseRetrySeconds.
    split; [apply requeue_inv; [done|lia..]|]. split; [done|].
    cbn. intros e [->%elem_of_singleton|[He Hne]%elem_of_difference]%elem_of_union; [right; cbn; lia|left].
    split; [done|]. intros ->. set_solver.
Qed.

Lemma same_clock_trans w1 w2 w3 : same_clock w1 w2 → same_clock w2 w3 → same_clock w1 w3.
Proof. unfold same_clock. intros (-> & -> & ->) (-> & -> & ->). done. Qed.

Lemma same_clock_unix w w' : same_clock w w' → unix (a_world w') = unix (a_world w) ∧ w_nanos (a_world w') = w_nanos (a_world w).
Proof. intros (E & _). unfold a_world. by rewrite E. Qed.

Lemma lapse_loop_ok st t l w u w' :
  alloc_inv w → Forall (λ k, k.1 = (t, st)) l → 0 ≤ t < 2 ^ 62 → for_each l (lapse_body st t) w = Ok (u, w') →
  alloc_inv w' ∧ same_clock w w' ∧
  ∀ e, e ∈ l_VoterLapses (a_store w') → (e ∈ l_VoterLapses (a_store w) ∧ e ∉ l) ∨ unix (a_world w) < e.1.1.
Proof.
  intros Hi Hl Ht. revert w Hi. induction Hl as [|k l Hk _ IH]; intros w Hi; cbn [for_each].
  { intros [= -> ->]%ret_ok. split; [done|]. split; [done|]. intros e He. left. split; [done|]. apply not_elem_of_nil. }
  intros Hr. apply bind_ok in Hr as ([] & w1 & Hb & Hr). apply lapse_body_ok in Hb as (Hi1 & Hc1 & Hq1); [|done..].
  apply IH in Hr as (Hi2 & Hc2 & Hq2); [|done]. split; [done|]. split; [by eapply same_clock_trans|].
  destruct (same_clock_unix _ _ Hc1) as [Hu _]. rewrite Hu in Hq2. intros e He.
  destruct (Hq2 e He) as [[He1 Hnl]|]; [|by right]. destruct (Hq1 e He1) as [[He0 Hne]|]; [|by right]. left. set_solver.
Qed.

(** [lapse]: nothing is left at [t], and what is new lies in the future. *)
Lemma lapse_ok st t w u w' :
  alloc_inv w → 0 ≤ t ≤ unix (a_world w) → lapse st t w = Ok (u, w') →
  alloc_inv w' ∧ same_clock w w' ∧
  ∀ e, e ∈ l_VoterLapses (a_store w') → (e ∈ l_VoterLapses (a_store w) ∧ e.1 ≠ (t, st)) ∨ unix (a_world w) < e.1.1.
Proof.
  intros Hi Ht. pose proof (unix_bounds _ Hi). unfold lapse. intros Hr. apply bind_ok in Hr as (due & w1 & [-> ->]%get_alloc_ok & Hr).
  apply (lapse_loop_ok st t) in Hr as (Hi' & Hc & Hq); [|done| |lia].
  - split; [done|]. split; [done|]. intros e He. destruct (Hq e He) as [[He0 Hn]|]; [left|by right]. split; [done|].
    intros E. apply Hn. apply list_elem_of_filter. split; [done|]. by apply elem_of_iter_set.
  - apply Forall_forall. intros k [E _]%list_elem_of_filter. done.
Qed.

(** ** The sweep *)

(** The leases that are due. *)
Definition due s st (limit : Z) : gset (Z * Z * bytes) :=
  filter (λ e : Z * Z * bytes, e.1.2 = st ∧ e.1.1 ≤ limit) (l_VoterLapses s).

Lemma settle_to_lapse st n w u w' :
  alloc_inv w → 0 ≤ n ≤ unix (a_world w) →
  (let at_ := wrap_i64 (n * nanos_per_second) in
   last ← getLastUpkeep st;
   if negb (last =? 0) && (last <? at_) then settleTo st at_ else mret ()) w = Ok (u, w') →
  alloc_inv w' ∧ l_VoterLapses (a_store w') = l_VoterLapses (a_store w) ∧ w_nanos (a_world w') = w_nanos (a_world w).
Proof.
  intros Hi Hn. pose proof (ai_clock _ Hi) as Hc. unfold unix in Hn. pose proof (div_mul_bounds (w_nanos (a_world w)) (10 ^ 9) ltac:(lia)).
  unfold nanos_per_second. rewrite wrap_i64_id by lia. cbv zeta. intros Hr.
  apply bind_ok in Hr as (last & w1 & [-> ->]%getLastUpkeep_ok & Hr).
  destruct (_ && _) in Hr; [|by apply ret_ok in Hr as [= -> ->]].
  apply settleTo_inv in Hr as [Hi' Hs]; [|done|lia]. split; [done|].
  by pose proof (settled_frame _ _ _ _ Hs) as (_ & _ & _ & _ & Hl & _ & _ & _ & _ & Hnan).
Qed.

(** One turn of the loop. *)
Lemma sweep_turn st n w w1 w2 :
  alloc_inv w → (∃ e, e ∈ l_VoterLapses (a_store w) ∧ e.1 = (n, st)) → n ≤ unix (a_world w) → nothing_due (a_store w) st (n - 1) →
  (let at_ := wrap_i64 (n * nanos_per_second) in
   last ← getLastUpkeep st;
   if negb (last =? 0) && (last <? at_) then settleTo st at_ else mret ()) w = Ok ((), w1) →
  lapse st n w1 = Ok ((), w2) →
  alloc_inv w2 ∧ w_nanos (a_world w2) = w_nanos (a_world w) ∧ nothing_due (a_store w2) st n ∧
  (size (due (a_store w2) st (unix (a_world w))) < size (due (a_store w) st (unix (a_world w))))%nat.
Proof.
  intros Hi (e & He & Ee) Hn Hmin Hset Hl. pose proof (si_lapses _ (ai_store _ Hi) _ He) as Hge. rewrite Ee in Hge. cbn in Hge.
  apply settle_to_lapse in Hset as (Hi1 & Hq1 & Hnan1); [|done|lia].
  assert (unix (a_world w1) = unix (a_world w)) as Hu1 by (unfold unix; by rewrite Hnan1).
  apply lapse_ok in Hl as (Hi2 & Hcl & Hq2); [|done|lia]. rewrite Hq1, Hu1 in Hq2.
  split; [done|]. destruct (same_clock_unix _ _ Hcl) as [_ Hnan2]. split; [congruence|]. split.
  - intros e' He' Hst. destruct (Hq2 e' He') as [[Hin Hne]|]; [|lia]. specialize (Hmin _ Hin Hst).
    destruct e' as [[a b] k]. cbn in *. subst b. destruct (Z.eq_dec a n) as [->|]; [done|lia].
  - apply subset_size. unfold due. split.
    + intros e' [[Hst Hle] He']%elem_of_filter. apply elem_of_filter. split; [done|].
      destruct (Hq2 e' He') as [[Hin _]|]; [done|lia].
    + intros Hsub. assert (e ∈ filter (λ e0 : Z * Z * bytes, e0.1.2 = st ∧ e0.1.1 ≤ unix (a_world w)) (l_VoterLapses (a_store w2))) as [_ He2]%elem_of_filter.
      { apply Hsub, elem_of_filter. split; [|done]. rewrite Ee. cbn. lia. }
      destruct (Hq2 e He2) as [[_ Hne]|Hlt]; [done|]. rewrite Ee in Hlt. cbn in Hlt. lia.
Qed.

(** A lease is met at most once in a sweep: the guard against one left behind never fires. *)
Definition retired_up_to s st (prev : option Z) : Prop := match prev with Some p => nothing_due s st p | None => True end.

Lemma guard_passes s st prev n e : retired_up_to s st prev → e ∈ l_VoterLapses s → e.1 = (n, st) →
  match prev with Some p => n <=? p | None => false end = false.
Proof.
  destruct prev as [p|]; [|done]. intros Hd He Ee. specialize (Hd e He). rewrite Ee in Hd. cbn in Hd.
  apply Z.leb_gt. by apply Hd.
Qed.

Lemma sweep_lapses_ok fuel st prev w b w' :
  alloc_inv w → sweep_lapses fuel st (unix (a_world w)) prev w = Ok (b, w') →
  alloc_inv w' ∧ w_nanos (a_world w') = w_nanos (a_world w) ∧ (b = true → nothing_due (a_store w') st (unix (a_world w))) ∧
  ((size (due (a_store w) st (unix (a_world w))) < fuel)%nat → b = true).
Proof.
  revert prev w. induction fuel as [|fuel IH]; intros prev w Hi; cbn [sweep_lapses].
  { intros [= -> ->]%ret_ok. split; [done|]. split; [done|]. split; [done|lia]. }
  intros Hr. apply bind_ok in Hr as (nx & w1 & [-> Hnx]%nextLapse_ok & Hr). destruct nx as [n|]; [|by apply ret_ok in Hr as [= -> ->]].
  destruct Hnx as (He & Hn & Hmin). apply bind_ok in Hr as ([] & w1 & [_ ->]%refuse_if_ok & Hr). cbv zeta in Hr.
  apply bind_ok in Hr as (last & w1 & Hlast & Hr). apply bind_ok in Hr as ([] & w2 & Hset & Hr).
  apply bind_ok in Hr as ([] & w3 & Hl & Hr).
  apply (sweep_turn st n w w2 w3) in Hl as (Hi3 & Hnan & _ & Hsize); [|done|done|done|done|cbv zeta; apply bind_ok; by do 2 eexists].
  assert (unix (a_world w) = unix (a_world w3)) as Hu by (unfold unix; by rewrite Hnan). rewrite Hu in Hr, Hsize |- *. rewrite <-Hnan.
  apply IH in Hr as (? & ? & ? & Hend); [|done]. do 3 (split; [done|]). intros Hf. apply Hend. lia.
Qed.

Lemma sweep_lapses_fuel fuel fuel' st prev w :
  alloc_inv w → (size (due (a_store w) st (unix (a_world w))) < fuel)%nat → (size (due (a_store w) st (unix (a_world w))) < fuel')%nat →
  sweep_lapses fuel st (unix (a_world w)) prev w = sweep_lapses fuel' st (unix (a_world w)) prev w.
Proof.
  revert fuel' prev w. induction fuel as [|fuel IH]; intros fuel' prev w Hi Hf Hf'; [lia|]. destruct fuel' as [|fuel']; [lia|].
  cbn [sweep_lapses]. apply bind_ext. intros nx w1 [-> Hnx]%nextLapse_ok. destruct nx as [n|]; [|done].
  destruct Hnx as (He & Hn & Hmin). apply bind_ext. intros [] w1 [_ ->]%refuse_if_ok. cbv zeta.
  apply bind_ext. intros last w1 Hlast. apply bind_ext. intros [] w2 Hset. apply bind_ext. intros [] w3 Hl.
  apply (sweep_turn st n w w2 w3) in Hl as (Hi3 & Hnan & _ & Hsize); [|done|done|done|done|cbv zeta; apply bind_ok; by do 2 eexists].
  assert (unix (a_world w) = unix (a_world w3)) as Hu by (unfold unix; by rewrite Hnan). rewrite Hu in *.
  apply IH; [done|lia|lia].
Qed.

Lemma due_size s st limit : (size (due s st limit) ≤ size (l_VoterLapses s))%nat.
Proof. apply subseteq_size. unfold due. intros e [_ He]%elem_of_filter. done. Qed.

(** [lapse] returns whatever its leases do. *)
Lemma lapse_returns st t w : ∃ w', lapse st t w = Ok ((), w').
Proof.
  unfold lapse. erewrite run_bind by reflexivity. cbv beta.
  destruct (for_each_total (λ _, True) (lapse_body st t) (filter (λ e : Z * Z * bytes, e.1 = (t, st)) (iter_set (l_VoterLapses (a_store w))))
    ltac:(intros k v _ _; unfold lapse_body; destruct (Cached_total (lapse_item st t k) v) as ([er|[]] & v' & Hc);
      rewrite (run_bind _ _ _ _ _ Hc); by eexists) w I) as (w' & Hr & _).
  by exists w'.
Qed.

(** The one thing in a sweep that can fail is settling the stream, and it fails as that does. *)
Definition settle_fails st w {A} (m : outcome A) : Prop :=
  ∃ t w1, alloc_inv w1 ∧ w_nanos (a_world w1) = w_nanos (a_world w) ∧ 0 ≤ t ≤ w_nanos (a_world w) ∧
    failed_as (settleTo st t w1) m.

Lemma settle_to_lapse_total st n w :
  alloc_inv w → 0 ≤ n ≤ unix (a_world w) →
  let at_ := wrap_i64 (n * nanos_per_second) in
  let m := (last ← getLastUpkeep st; if negb (last =? 0) && (last <? at_) then settleTo st at_ else mret ()) : AM () in
  (∃ w', m w = Ok ((), w')) ∨ settle_fails st w (m w).
Proof.
  intros Hi Hn. pose proof (ai_clock _ Hi) as Hc. unfold unix in Hn. pose proof (div_mul_bounds (w_nanos (a_world w)) (10 ^ 9) ltac:(lia)).
  unfold nanos_per_second. rewrite wrap_i64_id by lia. cbv zeta. unfold getLastUpkeep at 1 2. erewrite run_bind by reflexivity. cbv beta.
  destruct (_ && _); [|left; by eexists]. destruct (settleTo st (n * 10 ^ 9) w) as [[[] w']|e|] eqn:E; [left; by eexists|right..];
    (exists (n * 10 ^ 9), w; split; [done|]; split; [done|]; split; [lia|]; rewrite E; done).
Qed.

Lemma sweep_lapses_total fuel st prev w :
  alloc_inv w → retired_up_to (a_store w) st prev → (size (due (a_store w) st (unix (a_world w))) < fuel)%nat →
  (∃ w', sweep_lapses fuel st (unix (a_world w)) prev w = Ok (true, w')) ∨
  settle_fails st w (sweep_lapses fuel st (unix (a_world w)) prev w).
Proof.
  revert prev w. induction fuel as [|fuel IH]; intros prev w Hi Hprev Hf; [lia|]. cbn [sweep_lapses].
  destruct (nextLapse st (unix (a_world w)) w) as [[nx w1]| |] eqn:Hnx; [|done..]. rewrite (run_bind _ _ _ _ _ Hnx).
  apply nextLapse_ok in Hnx as [-> Hnx]. destruct nx as [n|]; [|left; by eexists]. destruct Hnx as ((e & He & Ee) & Hn & Hmin).
  rewrite (run_bind _ _ _ () w) by (by rewrite (guard_passes _ _ _ _ e Hprev He Ee)). cbv zeta.
  pose proof (si_lapses _ (ai_store _ Hi) _ He) as Hge. rewrite Ee in Hge. cbn in Hge.
  destruct (settle_to_lapse_total st n w Hi ltac:(lia)) as [(w1 & Hset)|(t & w1 & Hi1 & Hn1 & Ht & Hfail)]; cbv zeta in *.
  - pose proof Hset as Hset'. apply bind_ok in Hset' as (last & w0 & Hlast & Hs1).
    rewrite (run_bind _ _ _ _ _ Hlast), (run_bind _ _ _ _ _ Hs1).
    destruct (lapse_returns st n w1) as (w2 & Hl). rewrite (run_bind _ _ _ _ _ Hl).
    apply (sweep_turn st n w w1 w2) in Hl as (Hi2 & Hnan & Hdue & Hsize); [|done|by exists e|done|done|exact Hset].
    assert (unix (a_world w) = unix (a_world w2)) as Hu by (unfold unix; by rewrite Hnan). rewrite Hu in *.
    destruct (IH (Some n) w2 Hi2 Hdue ltac:(lia)) as [?|(t & w3 & ? & ? & ? & ?)]; [by left|right].
    exists t, w3. rewrite <-Hnan. done.
  - right. exists t, w1. split; [done|]. split; [done|]. split; [done|]. eapply failed_as_trans; [exact Hfail|].
    pose proof (failed_as_bind _ _ (λ _, lapse st n;; sweep_lapses fuel st (unix (a_world w)) (Some n)) w Hfail) as HF.
    rewrite bind_assoc in HF. exact HF.
Qed.

Lemma SweepLapses_ok st w u w' :
  alloc_inv w → SweepLapses st w = Ok (u, w') →
  alloc_inv w' ∧ w_nanos (a_world w') = w_nanos (a_world w) ∧ nothing_due (a_store w') st (unix (a_world w)).
Proof.
  intros Hi. unfold SweepLapses. intros Hr. apply bind_ok in Hr as (n & w1 & [-> ->]%alloc_nanos_ok & Hr).
  apply bind_ok in Hr as (k & w1 & [-> ->]%get_alloc_ok & Hr). apply bind_ok in Hr as ([] & w1 & Hsw & Hr); [|done].
  rewrite nanos_quot in Hsw by apply Hi. change (w_nanos (a_world w) / 10 ^ 9) with (unix (a_world w)) in Hsw.
  apply sweep_lapses_ok in Hsw as (Hi1 & Hnan & Hdue & _); [|done]. specialize (Hdue eq_refl).
  apply settleTo_inv in Hr as [Hi2 Hs]; [|done|apply Hi]. split; [done|].
  pose proof (settled_frame _ _ _ _ Hs) as (_ & _ & _ & _ & Hl & _ & _ & _ & _ & Hn2). split; [congruence|].
  intros e. rewrite Hl. apply Hdue.
Qed.

Lemma SweepLapses_total st w :
  alloc_inv w → (∃ w', SweepLapses st w = Ok ((), w')) ∨ settle_fails st w (SweepLapses st w).
Proof.
  intros Hi. unfold SweepLapses. do 2 (erewrite run_bind by reflexivity; cbv beta).
  rewrite nanos_quot by apply Hi. change (w_nanos (a_world w) / 10 ^ 9) with (unix (a_world w)).
  pose proof (due_size (a_store w) st (unix (a_world w))) as Hsz.
  destruct (sweep_lapses_total (S (size (l_VoterLapses (a_store w)))) st None w Hi I ltac:(lia)) as [(w1 & Hr)|(t & w1 & ? & ? & ? & Hfail)].
  - rewrite (run_bind _ _ _ _ _ Hr). apply sweep_lapses_ok in Hr as (Hi1 & Hn1 & _); [|done].
    destruct (settleTo st (w_nanos (a_world w)) w1) as [[[] w2]|e|] eqn:E; [left; by eexists|right..];
      (exists (w_nanos (a_world w)), w1; pose proof (ai_clock _ Hi); split; [done|]; split; [done|]; split; [lia|]; by rewrite E).
  - right. exists t, w1. split; [done|]. split; [done|]. split; [done|]. eapply failed_as_trans; [exact Hfail|]. by eapply failed_as_bind.
Qed.
End lease.
