(* ===== verification/AllocOps.v ===== *)
(** * x/allocation: options come, pay and go

    What adding, claiming, drawing from, resolving, striking, pruning and resetting options does, each with the
    invariant kept; and the checks of [invariants.go], which find nothing in a state that meets it. *)

From S2P Require Export AllocLease.

Section ops.
Context `{HostLaws, !ShieldedKeeper, !StakingView, !AllocEnv}.
Implicit Types (w : AllocWorld) (s : AllocStore) (st id : Z) (o : AllocationOption).

(** ** Money in and out *)

(** A movement of the other modules only. *)
Definition ext_only w w' : Prop := a_store w' = a_store w ∧ w_nanos (a_world w') = w_nanos (a_world w).

Lemma PayOut_ok recipient amount w u w' :
  PayOut recipient amount w = Ok (u, w') →
  ext_only w w' ∧ (amount ≤ 0 → w' = w) ∧
  (0 < amount → ∀ a d, GetBalance (w_bank (a_world w')) a d = GetBalance (w_bank (a_world w)) a d
     - (if bool_decide (a = alloc_addr ∧ d = hub_denom) then amount else 0)
     + (if bool_decide (a = recipient ∧ d = hub_denom) then amount else 0)) ∧
  held w - Z.max 0 amount ≤ held w'.
Proof.
  unfold PayOut. destruct (Z.ltb_spec 0 amount) as [Hpos|Hz]; cbn [negb]; intros Hr.
  2:{ apply ret_ok in Hr as [= -> ->]. split; [done|]. split; [done|]. split; lia. }
  apply hub_coins_ok in Hr as (cs & Hcs & _ & _ & Hr). apply on_world_ok in Hr as (v & Hm & ->).
  apply bank_ok in Hm as (b & Hb & ->). apply SendM2A_spec in Hb as [Hbal _]. split; [done|]. split; [lia|].
  assert (∀ a d, GetBalance b a d = GetBalance (w_bank (a_world w)) a d
     - (if bool_decide (a = alloc_addr ∧ d = hub_denom) then amount else 0)
     + (if bool_decide (a = recipient ∧ d = hub_denom) then amount else 0)) as HB.
  { intros a d. rewrite Hbal, Hcs. fold alloc_addr. repeat case_bool_decide; destruct_and?; simplify_eq; try lia; tauto. }
  split; [intros _; exact HB|]. unfold held at 2. change (w_bank (a_world _)) with b. rewrite HB, bool_decide_eq_true_2 by done.
  unfold held. case_bool_decide; lia.
Qed.

(** [x/earth]'s counter is written; the bank is not. *)
Lemma RecordBurn_bank src coins (w : World) u (w' : World) :
  coins_wf coins → RecordBurn src coins w = Ok (u, w') → w_bank w' = w_bank w ∧ w_nanos w' = w_nanos w.
Proof. intros Hwf Hr. apply RecordBurn_spec in Hr as [[bs ->] _]; [done|]. intros c Hc. apply Z.lt_le_incl. by apply Hwf. Qed.

Lemma burn_counted_ok amount w u w' :
  burn_counted amount w = Ok (u, w') → ext_only w w' ∧ held w' = held w - amount ∧
  (∀ d, GetSupply (w_bank (a_world w')) d = GetSupply (w_bank (a_world w)) d - if bool_decide (d = hub_denom) then amount else 0).
Proof.
  unfold burn_counted. intros Hr. apply hub_coins_ok in Hr as (cs & Hcs & _ & Hwf & Hr).
  apply bind_ok in Hr as ([] & w1 & Hb & Hr). apply on_world_ok in Hb as (v & Hb & ->). apply bank_ok in Hb as (b & Hb & ->).
  apply BurnCoins_spec in Hb as [Hbal Hsup]. apply on_world_ok in Hr as (v & Hr & ->).
  apply RecordBurn_bank in Hr as [Eb En]; [|done]. cbn in Eb, En.
  split; [split; [reflexivity|exact En]|].
  unfold held, a_world. cbn [a_ext fst]. rewrite Eb. split.
  - rewrite Hbal, Hcs. fold alloc_addr. rewrite !bool_decide_eq_true_2 by done. rewrite bool_decide_eq_false_2 by done. unfold a_world. lia.
  - intros d. rewrite Hsup, Hcs. unfold a_world. repeat case_bool_decide; simplify_eq; lia.
Qed.

(** Money moved elsewhere keeps the invariant while what is owed stays covered. *)
Lemma ext_inv w w' : alloc_inv w → ext_only w w' → owed_units (a_store w) ≤ indexPrecision * held w' → alloc_inv w'.
Proof. intros [] [Es En] Hf. split; rewrite ?Es, ?En; try done. unfold funded. by rewrite Es. Qed.

(** The invariant but for the funding: what holds in the middle of a payment. *)
Record sound w : Prop := {
  sd_store : store_inv (a_store w);
  sd_leased : leased (a_store w);
  sd_clock : 0 ≤ w_nanos (a_world w) < 2 ^ 63;
}.
Lemma inv_sound w : alloc_inv w → sound w.
Proof. by intros []. Qed.
Lemma sound_inv w : sound w → funded w → alloc_inv w.
Proof. by intros []. Qed.
Lemma ext_sound w w' : sound w → ext_only w w' → sound w'.
Proof. intros [] [Es En]. split; by rewrite ?Es, ?En. Qed.

(** ** Writing one option, the votes untouched *)

(** An option settled at the stream's index. *)
Definition settled s st o : AllocationOption :=
  set_op (op_AmountAllocated o) (idx_of s st) (op_Accumulated o + unsettled (idx_of s st) o / indexPrecision) o.

Lemma settled_acc_nonneg w st id o :
  sound w → l_Options (a_store w) !! (st, id) = Some o →
  0 ≤ unsettled (idx_of (a_store w) st) o ∧ 0 ≤ op_Accumulated o ≤ op_Accumulated (settled (a_store w) st o).
Proof.
  intros Hi Ho. pose proof (oi_option _ _ (si_options _ (sd_store _ Hi)) _ _ _ Ho) as [].
  assert (0 ≤ unsettled (idx_of (a_store w) st) o) as Hu by (unfold unsettled; nia). split; [done|]. cbn.
  assert (0 ≤ unsettled (idx_of (a_store w) st) o / indexPrecision) by (apply Z.div_pos; [done|by unfold indexPrecision]). lia.
Qed.

Lemma settle_ok w st id o o' :
  sound w → l_Options (a_store w) !! (st, id) = Some o → settleOption o (idx_of (a_store w) st) = Ok o' →
  o' = settled (a_store w) st o.
Proof.
  intros Hi Ho Hr. pose proof (oi_option _ _ (si_options _ (sd_store _ Hi)) _ _ _ Ho) as []. by apply settleOption_ok in Hr.
Qed.

Lemma options_only_frame w w' :
  options_only w w' →
  l_Voters (a_store w') = l_Voters (a_store w) ∧ l_Epoch (a_store w') = l_Epoch (a_store w) ∧
  l_OptionSeq (a_store w') = l_OptionSeq (a_store w) ∧ l_VoterLapses (a_store w') = l_VoterLapses (a_store w) ∧
  l_Params (a_store w') = l_Params (a_store w) ∧ l_TotalWeight (a_store w') = l_TotalWeight (a_store w) ∧
  l_LastUpkeep (a_store w') = l_LastUpkeep (a_store w) ∧ l_RewardIndex (a_store w') = l_RewardIndex (a_store w) ∧
  l_Residue (a_store w') = l_Residue (a_store w) ∧ l_IntegratedOptions (a_store w') = l_IntegratedOptions (a_store w) ∧
  a_ext w' = a_ext w.
Proof. by intros (O & SW & SA & Q & D & ->). Qed.

(** The invariant after the options and the totals changed. *)
Lemma sound_parts w w' :
  sound w → l_Voters (a_store w') = l_Voters (a_store w) → l_Epoch (a_store w') = l_Epoch (a_store w) →
  l_OptionSeq (a_store w') = l_OptionSeq (a_store w) → l_LastUpkeep (a_store w') = l_LastUpkeep (a_store w) →
  l_VoterLapses (a_store w') = l_VoterLapses (a_store w) → l_Params (a_store w') = l_Params (a_store w) →
  w_nanos (a_world w') = w_nanos (a_world w) → options_inv (live (a_store w)) (a_store w') →
  (∀ st, total_of (a_store w') st = weight_sum (a_store w') st) → sound w'.
Proof.
  intros [] Hv He Hs Hu Hl Hp Hn Ho Ht. split; [|by eapply leased_frame|by rewrite Hn]. destruct sd_store0. split.
  - eapply options_inv_ext; [exact Ho|]. intros st id o _ _. unfold live, epoch_of. by rewrite Hv, He.
  - done.
  - intros st key v. rewrite Hv. intros Hl'. eapply voter_ok_frame; [by eapply si_voter|done|done].
  - intros st. unfold seq_of. rewrite Hs. apply si_seq.
  - intros st. unfold epoch_of. rewrite He. apply si_epoch.
  - intros st. unfold upkeep_of. rewrite Hu. apply si_upkeep.
  - intros e. rewrite Hl. apply si_lapses.
  - rewrite Hp. apply si_params.
Qed.

Lemma options_only_sound w w' :
  sound w → options_only w w' → options_inv (live (a_store w)) (a_store w') →
  (∀ st, total_of (a_store w) st = weight_sum (a_store w') st) → sound w'.
Proof. intros Hi (O & SW & SA & Q & D & ->) Ho Ht. by eapply sound_parts. Qed.

(** The balance of a settled option changed to [b]. *)
Lemma write_balance_ok w st id o b u w' :
  sound w → l_Options (a_store w) !! (st, id) = Some o → 0 ≤ b →
  setOption st (set_op_Accumulated b (settled (a_store w) st o)) w = Ok (u, w') →
  options_only w w' ∧ l_Options (a_store w') = <[(st, id) := set_op_Accumulated b (settled (a_store w) st o)]> (l_Options (a_store w)) ∧
  owed_units (a_store w') ≤ owed_units (a_store w) + indexPrecision * (b - op_Accumulated (settled (a_store w) st o)) ∧
  sound w'.
Proof.
  intros Hi Ho Hb Hr. pose proof (oi_option _ _ (si_options _ (sd_store _ Hi)) _ _ _ Ho) as [].
  eapply (write_settled (live (a_store w)) (live (a_store w)) st id) in Hr as (Hf & Hi' & Hop & Hw & Hu);
    [|apply (sd_store _ Hi)|exact Ho|done|done|done|done|done|done|done].
  split; [done|]. split; [done|]. pose proof (settled_le (unsettled (idx_of (a_store w) st) o)) as Hle.
  cbn in Hu, Hw |- *. split; [lia|]. eapply options_only_sound; [done|done|done|].
  intros a. rewrite Hw, (si_total _ (sd_store _ Hi)). destruct (a =? st); lia.
Qed.

Lemma options_only_held w w' : options_only w w' → held w' = held w.
Proof. intros Hf. unfold held, a_world. by destruct (options_only_frame _ _ Hf) as (_&_&_&_&_&_&_&_&_&_&->). Qed.

(** Settling alone. *)
Lemma write_settled_inv w st id o u w' :
  alloc_inv w → l_Options (a_store w) !! (st, id) = Some o → setOption st (settled (a_store w) st o) w = Ok (u, w') → alloc_inv w'.
Proof.
  intros Hi Ho Hr. pose proof (settled_acc_nonneg _ _ _ _ (inv_sound _ Hi) Ho) as (Hu & Hacc). pose proof (inv_sound _ Hi) as Hsd.
  change (settled (a_store w) st o) with (set_op_Accumulated (op_Accumulated (settled (a_store w) st o)) (settled (a_store w) st o)) in Hr.
  eapply write_balance_ok in Hr as (Hf & _ & Hle & Hs); [|done|done|lia]. apply sound_inv; [done|].
  pose proof (ai_funded _ Hi). unfold funded in *. rewrite (options_only_held _ _ Hf). lia.
Qed.

(** ** Drawing and claiming *)
Lemma DrawFromOption_ok st id ppm w r w' :
  alloc_inv w → 0 ≤ ppm ≤ PpmDenominator → DrawFromOption st id ppm w = Ok (r, w') →
  alloc_inv w' ∧ owed_units (a_store w') + indexPrecision * r ≤ indexPrecision * held w' ∧ held w' = held w ∧
  match l_Options (a_store w) !! (st, id) with
  | None => r = 0 ∧ w' = w
  | Some o => r = op_Accumulated (settled (a_store w) st o) * ppm / PpmDenominator ∧ 0 ≤ r ≤ op_Accumulated (settled (a_store w) st o) ∧
      l_Options (a_store w') !! (st, id) =
        Some (set_op_Accumulated (op_Accumulated (settled (a_store w) st o) - r) (settled (a_store w) st o))
  end.
Proof.
  intros Hi Hp. unfold DrawFromOption. intros Hr. pose proof (ai_funded _ Hi) as Hfund. unfold funded in Hfund.
  pose proof (inv_sound _ Hi) as Hsd. apply bind_ok in Hr as (mo & w1 & [-> ->]%get_alloc_ok & Hr).
  destruct (l_Options (a_store w) !! (st, id)) as [o|] eqn:Ho.
  2:{ apply ret_ok in Hr as [= -> ->]. rewrite Z.mul_0_r, Z.add_0_r. done. }
  apply bind_ok in Hr as (ix & w1 & [-> ->]%getRewardIndex_ok & Hr).
  apply bind_ok in Hr as (o1 & w1 & [Hs ->]%lift_ok & Hr). apply (settle_ok w st id) in Hs as ->; [|done|done].
  apply bind_ok in Hr as (m & w1 & [[-> _]%IntMul_ok ->]%lift_ok & Hr).
  apply bind_ok in Hr as (d & w1 & [[_ ->]%IntQuo_ok ->]%lift_ok & Hr).
  pose proof (settled_acc_nonneg _ _ _ _ (inv_sound _ Hi) Ho) as (_ & Hacc).
  set (acc := op_Accumulated (settled (a_store w) st o)) in *.
  rewrite quot_div_nonneg in Hr by (unfold PpmDenominator; nia).
  pose proof (div_mul_bounds (acc * ppm) PpmDenominator ltac:(done)) as Hdb.
  assert (0 ≤ acc * ppm / PpmDenominator ≤ acc) as Hd.
  { split; [apply Z.div_pos; [nia|done]|]. apply Z.div_le_upper_bound; [done|]. nia. }
  set (d := acc * ppm / PpmDenominator) in *.
  assert (∃ w2, setOption st (set_op_Accumulated (acc - d) (settled (a_store w) st o)) w = Ok ((), w2) ∧ r = d ∧ w' = w2) as (w2 & Hset & -> & ->).
  { destruct (Z.ltb_spec 0 d).
    - apply bind_ok in Hr as (a & w1 & [[-> _]%IntSub_ok ->]%lift_ok & Hr).
      apply bind_ok in Hr as ([] & w2 & Hset & [= -> ->]%ret_ok). by exists w2.
    - apply bind_ok in Hr as ([] & w2 & Hset & [= -> ->]%ret_ok). exists w2. replace d with 0 by lia. rewrite Z.sub_0_r. done. }
  eapply write_balance_ok in Hset as (Hf & Hop & Hle & Hsd2); [|done|done|lia]. fold acc in Hle.
  pose proof (options_only_held _ _ Hf) as Eh.
  rewrite Eh. split; [apply sound_inv; [done|unfold funded; rewrite Eh; unfold indexPrecision in *; nia]|]. split; [unfold indexPrecision in *; lia|]. split; [done|].
  split; [done|]. split; [lia|]. rewrite Hop. apply lookup_insert_eq.
Qed.
End ops.
