(* ===== verification/AllocOptions.v ===== *)
(** * x/allocation: adding, claiming, striking and pruning options

    [appendOption] and the messages over it, [ClaimAllocation], [RemoveGroundworksOption], [SweepPrunableOptions]. *)

From S2P Require Export AllocOps.

Section options.
Context `{HostLaws, !ShieldedKeeper, !StakingView, !AllocEnv}.
Implicit Types (w : AllocWorld) (s : AllocStore) (st id : Z) (o : AllocationOption).

(** ** Adding *)
Lemma live_fresh s st id : store_inv s → seq_of s st < id → live s st id = 0.
Proof.
  intros Hi Hid. unfold live. erewrite map_sum_ext; [apply map_sum_zero|]. intros [a k] v Hv. cbn.
  destruct (Z.eqb_spec a st) as [->|]; [|done]. destruct (_ =? _); [|done]. cbn [andb].
  destruct (si_voter _ Hi _ _ _ Hv). clear -vo_named Hid.
  induction vo_named as [|c cs Hc _ IH]; [done|]. rewrite on_cons, IH. destruct (Z.eqb_spec (ct_option c) id); lia.
Qed.

Lemma set_seq_inv st n w : alloc_inv w → seq_of (a_store w) st ≤ n → alloc_inv (upd_alloc (set_l_OptionSeq <[st := n]>) w).
Proof.
  intros [] Hn. assert (∀ a, seq_of (a_store w) a ≤ seq_of (set_l_OptionSeq <[st := n]> (a_store w)) a) as Hle.
  { intros a. unfold seq_of. cbn. destruct (decide (a = st)) as [->|Hne]; [rewrite lookup_insert_eq; exact Hn|by rewrite lookup_insert_ne]. }
  split; [|by eapply leased_frame|done|done]. destruct ai_store. split; try done.
  - destruct si_options. split; try done; [|by destruct oi_schedule].
    intros a i o Ho. destruct (oi_option _ _ _ Ho). split; try done. specialize (Hle a). cbn in *. lia.
  - intros a k v Hv. destruct (si_voter _ _ _ Hv). split; try done. eapply Forall_impl; [exact vo_named|]. intros c Hc. cbv beta in *.
    specialize (Hle a). cbn in *. lia.
  - intros a. specialize (Hle a). specialize (si_seq a). cbn in *. lia.
Qed.

Lemma set_integrated_inv f w : alloc_inv w → alloc_inv (upd_alloc (set_l_IntegratedOptions f) w).
Proof. intros Hi. apply sound_inv; [|apply Hi]. eapply sound_parts; [by apply inv_sound|done..| |].
  - eapply options_inv_frame; [..|apply (si_options _ (ai_store _ Hi))]; done.
  - apply (si_total _ (ai_store _ Hi)).
Qed.

Lemma appendOption_ok st opt w id w' :
  alloc_inv w → seq_of (a_store w) st < 2 ^ 64 - 1 → appendOption st opt w = Ok (id, w') →
  alloc_inv w' ∧ id = seq_of (a_store w) st + 1 ∧ l_Options (a_store w) !! (st, id) = None ∧
  l_Options (a_store w') = <[(st, id) := mkOption id st (op_Description opt) (op_Kind opt) (op_Recipient opt) (op_Handler opt)
    (op_Claimer opt) 0 (idx_of (a_store w) st) (op_Removed opt) 0]> (l_Options (a_store w)) ∧ held w' = held w.
Proof.
  intros Hi Hseq. unfold appendOption, nextOptionID. intros Hr. pose proof (si_seq _ (ai_store _ Hi) st) as Hge.
  apply bind_ok in Hr as (n & w1 & Hn & Hr). apply bind_ok in Hn as (cur & w2 & [-> ->]%get_alloc_ok & Hn).
  fold (seq_of (a_store w) st) in Hn. cbv zeta in Hn. rewrite wrap_u64_id in Hn by lia.
  apply bind_ok in Hn as ([] & w2 & ->%set_alloc_ok & [= -> ->]%ret_ok).
  apply bind_ok in Hr as (ix & w2 & [-> ->]%getRewardIndex_ok & Hr). cbv zeta in Hr.
  pose proof (set_seq_inv st (seq_of (a_store w) st + 1) w Hi ltac:(lia)) as Hi1.
  set (w1 := upd_alloc (set_l_OptionSeq <[st := seq_of (a_store w) st + 1]>) w) in *.
  set (o := mkOption _ _ _ _ _ _ _ _ _ _ _) in *.
  assert (l_Options (a_store w1) !! (st, op_Id o) = None) as Hfresh.
  { cbn. destruct (l_Options (a_store w) !! _) as [p|] eqn:Hp; [|done].
    pose proof (oo_seq _ _ _ _ _ (oi_option _ _ (si_options _ (ai_store _ Hi)) _ _ _ Hp)) as Hle. cbn in Hle. lia. }
  apply bind_ok in Hr as ([] & w2 & Hset & Hr).
  apply setOption_ok in Hset as (SW & SA & Q & D & -> & HSW & HSWf & HSA & Href).
  assert (Hopts : options_inv (live (a_store w1)) (with_options (<[(st, op_Id o) := o]> (l_Options (a_store w1))) SW SA Q D (a_store w1))).
  { eapply put_option_inv; [apply (si_options _ (ai_store _ Hi1))|exact HSW|exact HSWf|exact HSA|exact Href| |done]. split; try done.
    - cbn. unfold seq_of at 2. cbn. rewrite lookup_insert_eq. done.
    - change (0 = if op_Removed opt then 0 else live (a_store w) st (seq_of (a_store w) st + 1)).
      rewrite (live_fresh _ _ _ (ai_store _ Hi)) by lia. by destruct (op_Removed opt). }
  destruct (put_option_sums st (op_Id o) o SW SA Q D (a_store w1)) as [Hw Hacc Hun].
  unfold prev_amount, prev_accrued, prev_unsettled in Hw, Hacc, Hun. rewrite Hfresh in Hw, Hacc, Hun. cbn [from_option] in Hw, Hacc, Hun.
  set (w2 := upd_alloc (with_options _ SW SA Q D) w1) in *.
  assert (alloc_inv w2) as Hi2.
  { apply sound_inv.
    - eapply (options_only_sound w1); [by apply inv_sound|by do 5 eexists|exact Hopts|].
      intros a. rewrite (si_total _ (ai_store _ Hi1)). unfold w2. cbn [a_store upd_alloc]. rewrite Hw. cbn. destruct (a =? st); lia.
    - pose proof (ai_funded _ Hi1) as Hf. unfold funded, owed_units in *. unfold w2 at 1 2 3. cbn [a_store upd_alloc]. rewrite Hacc, Hun.
      change (residue_of (with_options _ _ _ _ _ _)) with (residue_of (a_store w1)). change (held w2) with (held w1).
      change (unsettled (idx_of (a_store w1) st) o) with 0. change (op_Accumulated o) with 0.
      lia. }
  apply bind_ok in Hr as ([] & w3 & Hint & [= -> ->]%ret_ok).
  split; [|split; [done|split; [exact Hfresh|]]].
  - destruct (bool_decide _); [apply set_alloc_ok in Hint as ->; by apply set_integrated_inv|by apply ret_ok in Hint as [= ->]].
  - destruct (bool_decide _); [by apply set_alloc_ok in Hint as ->|by apply ret_ok in Hint as [= ->]].
Qed.

Lemma AddIntegratedOption_inv msg w id w' :
  alloc_inv w → seq_of (a_store w) (ai_Stream msg) < 2 ^ 64 - 1 → AddIntegratedOption msg w = Ok (id, w') → alloc_inv w'.
Proof.
  intros Hi Hseq. unfold AddIntegratedOption. intros Hr.
  apply bind_ok in Hr as ([] & w1 & [_ ->]%lift_ok & Hr). apply bind_ok in Hr as ([] & w1 & [_ ->]%lift_ok & Hr).
  apply bind_ok in Hr as (au & w1 & [_ ->]%lift_ok & Hr). apply bind_ok in Hr as ([] & w1 & [_ ->]%refuse_if_ok & Hr).
  destruct (integratedHandlers !! _) as [h|]; [|done]. apply bind_ok in Hr as ([] & w1 & [_ ->]%refuse_if_ok & Hr).
  by apply appendOption_ok in Hr as [? _].
Qed.

(** The fee of a caretaker option goes in and is burned. *)
Lemma option_fee_ok sub fee w u w' :
  sub ≠ alloc_addr →
  (c ← lift (BondDenom ≫= λ denom, NewCoin denom fee);
   fee ← lift (NewCoins [c]);
   on_world (bank (SendCoinsFromAccountToModule sub allocation_ModuleName fee));;
   on_world (bank (BurnCoins allocation_ModuleName fee));;
   on_world (RecordBurn SourceAllocation fee)) w = Ok (u, w') → ext_only w w' ∧ held w' = held w.
Proof.
  intros Hs Hr. apply hub_coins_ok in Hr as (cs & Hcs & _ & Hwf & Hr).
  apply bind_ok in Hr as ([] & w1 & Hb & Hr). apply on_world_ok in Hb as (v & Hb & ->). apply bank_ok in Hb as (b & Hb & ->).
  apply SendA2M_spec in Hb as [Hbal _].
  apply bind_ok in Hr as ([] & w1 & Hb & Hr). apply on_world_ok in Hb as (v & Hb & ->). apply bank_ok in Hb as (b2 & Hb & ->).
  apply BurnCoins_spec in Hb as [Hbal2 _]. apply on_world_ok in Hr as (v & Hr & ->).
  apply RecordBurn_bank in Hr as [Eb En]; [|done]. cbn in Eb, En. split; [split; [reflexivity|exact En]|].
  unfold held, a_world. cbn [a_ext fst]. rewrite Eb, Hbal2. change (w_bank _) with b at 1. rewrite Hbal, !Hcs. fold alloc_addr.
  unfold a_world. repeat case_bool_decide; simplify_eq; try done; lia.
Qed.

Lemma AddAddressOption_inv msg w id w' :
  alloc_inv w → seq_of (a_store w) (aa_Stream msg) < 2 ^ 64 - 1 → StringToBytes (aa_Submitter msg) ≠ Ok alloc_addr →
  AddAddressOption msg w = Ok (id, w') → alloc_inv w'.
Proof.
  intros Hi Hseq Hsub. unfold AddAddressOption. intros Hr.
  apply bind_ok in Hr as ([] & w1 & [_ ->]%lift_ok & Hr). apply bind_ok in Hr as ([] & w1 & [_ ->]%lift_ok & Hr).
  apply bind_ok in Hr as (sub & w1 & [Hsb ->]%lift_ok & Hr). cbv zeta in Hr. apply bind_ok in Hr as ([] & w1 & [_ ->]%refuse_if_ok & Hr).
  apply bind_ok in Hr as (rb & w1 & [_ ->]%lift_ok & Hr). apply bind_ok in Hr as (rc & w1 & [_ ->]%lift_ok & Hr).
  apply bind_ok in Hr as (cl & w1 & Hcl & Hr).
  assert (w1 = w) as ->.
  { case_bool_decide; [by apply ret_ok in Hcl as [= _ ->]|]. apply bind_ok in Hcl as (cb & w2 & [_ ->]%lift_ok & [_ ->]%lift_ok). done. }
  apply bind_ok in Hr as ([] & w1 & Hfee & Hr).
  assert (ext_only w w1 ∧ held w1 = held w) as [[Es En] Hh].
  { destruct (_ =? _); [by apply ret_ok in Hfee as [= ->]|].
    apply bind_ok in Hfee as (ps & w2 & [-> ->]%get_alloc_ok & Hfee). destruct (l_Params _) as [p|]; [|done].
    destruct (0 <? _); [|by apply ret_ok in Hfee as [= ->]]. eapply option_fee_ok; [|exact Hfee]. intros ->. done. }
  eapply appendOption_ok in Hr as [? _]; [done| |by rewrite Es].
  eapply ext_inv; [done|done|]. rewrite Hh. apply Hi.
Qed.

(** ** Claiming *)

(** The books a claim leaves alone once the index is settled. *)
Definition same_index w w' : Prop :=
  l_RewardIndex (a_store w') = l_RewardIndex (a_store w) ∧ l_LastUpkeep (a_store w') = l_LastUpkeep (a_store w) ∧
  l_VoterLapses (a_store w') = l_VoterLapses (a_store w) ∧ w_nanos (a_world w') = w_nanos (a_world w).

(** What a claim that succeeded did: [o] is the option on file, [w1] the state once the index is settled up to [n]. *)
Definition claimed (msg : MsgClaimAllocation) (amount : Z) w w' : Prop :=
  ∃ o w1 n,
    l_Options (a_store w) !! (ca_Stream msg, ca_OptionId msg) = Some o ∧ op_Kind o = ALLOCATION_KIND_ADDRESS ∧
    (op_Claimer o = "" ∨ ∃ b, StringToBytes (ca_Creator msg) = Ok b ∧ StringToBytes (op_Claimer o) = Ok b) ∧
    AdvanceIndex (ca_Stream msg) w = Ok ((), w1) ∧ settled_to w w1 (ca_Stream msg) n ∧ same_index w1 w' ∧
    (nothing_due (a_store w) (ca_Stream msg) (unix (a_world w)) → n = w_nanos (a_world w)) ∧
    amount = op_Accumulated (settled (a_store w1) (ca_Stream msg) o) ∧ 0 ≤ amount ∧
    (amount = 0 ∧ w_bank (a_world w') = w_bank (a_world w1) ∨ ∃ to, StringToBytes (op_Recipient o) = Ok to ∧
      ∀ a d, GetBalance (w_bank (a_world w')) a d = GetBalance (w_bank (a_world w1)) a d
        - (if bool_decide (a = alloc_addr ∧ d = hub_denom) then amount else 0)
        + (if bool_decide (a = to ∧ d = hub_denom) then amount else 0)) ∧
    l_Options (a_store w') =
      <[(ca_Stream msg, ca_OptionId msg) := set_op_Accumulated 0 (settled (a_store w1) (ca_Stream msg) o)]> (l_Options (a_store w)).

Lemma ClaimAllocation_ok msg w amount w' :
  alloc_inv w → ClaimAllocation msg w = Ok (amount, w') → alloc_inv w' ∧ claimed msg amount w w'.
Proof.
  intros Hi. unfold ClaimAllocation. intros Hr.
  apply bind_ok in Hr as ([] & w1 & [_ ->]%lift_ok & Hr). apply bind_ok in Hr as (cr & w1 & [Hcr ->]%lift_ok & Hr).
  apply bind_ok in Hr as (mo & w1 & [-> ->]%get_alloc_ok & Hr).
  destruct (l_Options (a_store w) !! (ca_Stream msg, ca_OptionId msg)) as [o|] eqn:Ho; [|done].
  apply bind_ok in Hr as ([] & w1 & [Hk ->]%refuse_if_ok & Hr). apply negb_false_iff, bool_decide_eq_true in Hk.
  apply bind_ok in Hr as ([] & w1 & Hcl & Hr).
  assert (w1 = w ∧ (op_Claimer o = "" ∨ ∃ b, StringToBytes (ca_Creator msg) = Ok b ∧ StringToBytes (op_Claimer o) = Ok b)) as [-> Hclaim].
  { case_bool_decide as E; [apply ret_ok in Hcl as [= ->]; split; [done|by left]|].
    apply refuse_if_ok in Hcl as [Hc ->]. split; [done|]. right. exists cr. split; [done|].
    destruct (StringToBytes (op_Claimer o)) as [b| |]; [|done..]. by apply negb_false_iff, bool_decide_eq_true in Hc as ->. }
  clear Hcl. apply bind_ok in Hr as ([] & w1 & Hadv & Hr).
  destruct (AdvanceIndex_ok _ _ _ _ Hi Hadv) as [Hi1 (n & _ & Hset & Hnow)].
  pose proof (settled_frame _ _ _ _ Hset) as (_ & Hop1 & _). assert (Ho1 := Ho). rewrite <-Hop1 in Ho1.
  apply bind_ok in Hr as (ix & w2 & [-> ->]%getRewardIndex_ok & Hr).
  apply bind_ok in Hr as (o1 & w2 & [Hs ->]%lift_ok & Hr).
  apply (settle_ok w1 (ca_Stream msg) (ca_OptionId msg)) in Hs as ->; [|by apply inv_sound|done]. cbv zeta in Hr.
  pose proof (settled_acc_nonneg _ _ _ _ (inv_sound _ Hi1) Ho1) as (_ & Hacc).
  set (so := settled (a_store w1) (ca_Stream msg) o) in *.
  remember (op_Accumulated so) as amt eqn:Eamt.
  destruct (Z.ltb_spec 0 amt) as [Hpos|Hz].
  - apply bind_ok in Hr as (to & w2 & [Hto ->]%lift_ok & Hr).
    apply bind_ok in Hr as ([] & w2 & (Hext & _ & Hbal & Hheld)%PayOut_ok & Hr).
    apply bind_ok in Hr as ([] & w3 & Hw & [= -> ->]%ret_ok). destruct (Hext) as [Es En].
    change so with (settled (a_store w1) (ca_Stream msg) o) in Hw. rewrite <-Es in Hw.
    eapply write_balance_ok in Hw as (Hf & Hop & Hle & Hsd); [|eapply ext_sound; [apply inv_sound, Hi1|done]|rewrite Es; exact Ho1|lia].
    rewrite Es in Hop, Hle. fold so in Hop, Hle. rewrite <-Eamt in Hle. split.
    + apply sound_inv; [done|]. unfold funded. rewrite (options_only_held _ _ Hf).
      pose proof (ai_funded _ Hi1). unfold funded, indexPrecision in *. lia.
    + assert (same_index w1 w3) as Hsame.
      { destruct (options_only_frame _ _ Hf) as (_&_&_&Fl&_&_&Fu&Fi&_&_&Fx). unfold same_index, a_world. rewrite Fl, Fu, Fi, Fx, Es. done. }
      exists o, w1, n. do 8 (split; [done|]). split; [lia|]. split; [|by rewrite Hop, Hop1].
      right. exists to. split; [done|]. specialize (Hbal Hpos). unfold a_world in *.
      by destruct (options_only_frame _ _ Hf) as (_&_&_&_&_&_&_&_&_&_&->).
  - apply bind_ok in Hr as ([] & w3 & Hw & [= -> ->]%ret_ok). assert (amt = 0) as Ez by lia.
    replace so with (set_op_Accumulated 0 so) in Hw by (rewrite <-Ez, Eamt; by destruct so).
    pose proof (inv_sound _ Hi1) as Hsd1.
    eapply write_balance_ok in Hw as (Hf & Hop & Hle & Hsd); [|done|done|lia]. fold so in Hop, Hle. rewrite <-Eamt in Hle. split.
    + apply sound_inv; [done|]. unfold funded. rewrite (options_only_held _ _ Hf).
      pose proof (ai_funded _ Hi1). unfold funded, indexPrecision in *. lia.
    + assert (same_index w1 w3) as Hsame.
      { destruct (options_only_frame _ _ Hf) as (_&_&_&Fl&_&_&Fu&Fi&_&_&Fx). unfold same_index, a_world. rewrite Fl, Fu, Fi, Fx. done. }
      exists o, w1, n. do 8 (split; [done|]). split; [lia|]. split; [left|by rewrite Hop, Hop1].
      split; [done|]. unfold a_world. by destruct (options_only_frame _ _ Hf) as (_&_&_&_&_&_&_&_&_&_&->).
Qed.

(** ** Striking *)
Lemma RemoveGroundworksOption_inv caller id w u w' :
  alloc_inv w → RemoveGroundworksOption caller id w = Ok (u, w') → alloc_inv w'.
Proof.
  intros Hi. unfold RemoveGroundworksOption. cbv zeta. set (st := STREAM_ID_GROUNDWORKS). intros Hr.
  apply bind_ok in Hr as ([] & w1 & [_ ->]%refuse_if_ok & Hr). apply bind_ok in Hr as (mo & w1 & [-> ->]%get_alloc_ok & Hr).
  destruct (l_Options (a_store w) !! (st, id)) as [o|] eqn:Ho; [|by apply ret_ok in Hr as [= -> ->]].
  destruct (op_Removed o) eqn:Er; [by apply ret_ok in Hr as [= -> ->]|].
  apply bind_ok in Hr as ([] & w1 & [Hi1 (n & _ & Hset & _)]%AdvanceIndex_ok & Hr); [|done].
  pose proof (settled_frame _ _ _ _ Hset) as (_ & Hop1 & _). rewrite <-Hop1 in Ho.
  apply bind_ok in Hr as (ix & w2 & [-> ->]%getRewardIndex_ok & Hr).
  apply bind_ok in Hr as (o1 & w2 & [Hs ->]%lift_ok & Hr). pose proof (inv_sound _ Hi1) as Hsd1.
  apply (settle_ok w1 st id) in Hs as ->; [|done|done].
  pose proof (settled_acc_nonneg _ _ _ _ Hsd1 Ho) as (Hun & Hacc).
  pose proof (settled_le (unsettled (idx_of (a_store w1) st) o)) as Hle.
  pose proof (oi_option _ _ (si_options _ (ai_store _ Hi1)) _ _ _ Ho) as Hok.
  change (op_AmountAllocated (settled _ _ _)) with (op_AmountAllocated o) in Hr.
  set (so := settled (a_store w1) st o) in *. change (op_Kind so) with (op_Kind o) in Hr.
  apply bind_ok in Hr as ([] & w2 & Hw & Hr).
  eapply (write_settled (live (a_store w1)) (live (a_store w1)) st id) in Hw as (Hf & Hoi & Hop & Hws & Hu);
    [|apply (ai_store _ Hi1)|exact Ho|by destruct Hok|by destruct Hok|done|done|done|done|done].
  apply bind_ok in Hr as ([] & w3 & Htot & Hr).
  assert (sound w3 ∧ a_ext w3 = a_ext w2 ∧ owed_units (a_store w3) = owed_units (a_store w2)) as (Hsd3 & He3 & Hu3).
  { destruct (options_only_frame _ _ Hf) as (Fv & Fe & Fs & Fl & Fp & Ft & Fu & _ & _ & _ & Fx).
    assert (∀ a, total_of (a_store w3) a = weight_sum (a_store w2) a) as Ht.
    { intros a. pose proof (si_total _ (ai_store _ Hi1)) as Ht1. rewrite Hws. cbn [op_AmountAllocated strike].
      destruct (Z.ltb_spec 0 (op_AmountAllocated o)).
      - apply bind_ok in Htot as (t & w4 & [-> ->]%getTotalWeight_ok & Htot).
        apply bind_ok in Htot as (t & w4 & [[-> _]%IntSub_ok ->]%lift_ok & ->%set_alloc_ok).
        unfold total_of at 1. cbn. unfold total_of in *. rewrite Ft. destruct (Z.eqb_spec a st) as [->|Hne].
        + rewrite lookup_insert_eq. cbn. rewrite Ht1. lia.
        + rewrite lookup_insert_ne by done. rewrite Ht1. lia.
      - apply ret_ok in Htot as [= ->]. unfold total_of in *. rewrite Ft, Ht1. destruct Hok. destruct (a =? st); lia. }
    destruct (0 <? op_AmountAllocated o) in Htot.
    - apply bind_ok in Htot as (t & w4 & [-> ->]%getTotalWeight_ok & Htot).
      apply bind_ok in Htot as (t & w4 & [_ ->]%lift_ok & ->%set_alloc_ok). split; [|done].
      eapply (sound_parts w1); [done..|unfold a_world; cbn; by rewrite Fx| |exact Ht].
      eapply options_inv_frame; [..|exact Hoi]; done.
    - apply ret_ok in Htot as [= ->]. split; [|done]. eapply (sound_parts w1); [done..|unfold a_world in *; by rewrite Fx|exact Hoi|exact Ht]. }
  apply bind_ok in Hr as ([] & w4 & Hint & Hr).
  assert (sound w4 ∧ a_ext w4 = a_ext w2 ∧ owed_units (a_store w4) = owed_units (a_store w2)) as (Hsd4 & He4 & Hu4).
  { destruct (bool_decide _); [|by apply ret_ok in Hint as [= ->]]. apply set_alloc_ok in Hint as ->. split; [|done].
    eapply (sound_parts w3); [done..| |apply (sd_store _ Hsd3)].
    eapply options_inv_frame; [..|apply (sd_store _ Hsd3)]; done. }
  assert (held w4 = held w1) as Hh.
  { rewrite <-(options_only_held _ _ Hf). unfold held, a_world. by rewrite He4. }
  pose proof (ai_funded _ Hi1) as Hfund. unfold funded in Hfund. cbn [op_Accumulated strike] in Hu.
  change (op_Accumulated so) with (op_Accumulated o + unsettled (idx_of (a_store w1) st) o / indexPrecision) in *.
  destruct (Z.ltb_spec 0 (op_Accumulated o + unsettled (idx_of (a_store w1) st) o / indexPrecision)).
  - apply burn_counted_ok in Hr as (Hext & Hhb & _). apply sound_inv; [exact (ext_sound _ _ Hsd4 Hext)|].
    destruct Hext as [Es _]. unfold funded. rewrite Es, Hhb. unfold indexPrecision in *. lia.
  - apply ret_ok in Hr as [= -> ->]. apply sound_inv; [done|]. unfold funded, indexPrecision in *. lia.
Qed.
End options.
