(* ===== verification/AllocBlocks.v ===== *)
(** * x/allocation: the block hooks, the reset and the checks

    [SweepPrunableOptions], [resolveIntegrated] and [BeginBlocker], [resetAllocations], [SweepResidue] and the module's
    EndBlock; [AssertHotInvariants] and [AssertInvariants] pass in every state that meets the invariant. *)

From S2P Require Export AllocOptions.

Section blocks.
Context `{HostLaws, !ShieldedKeeper, !StakingView, !AllocEnv, !AllocEnvLaws}.
Implicit Types (w : AllocWorld) (s : AllocStore) (st id : Z) (o : AllocationOption).

(** ** Pruning *)

(** A dead option taken off file. *)
Lemma prunable_amount w st id o :
  sound w → l_Options (a_store w) !! (st, id) = Some o → prunable o = true → op_AmountAllocated o = 0.
Proof.
  intros Hi Ho. destruct (oi_option _ _ (si_options _ (sd_store _ Hi)) _ _ _ Ho). unfold prunable.
  destruct (op_Removed o); [done|]. destruct (negb _); [done|]. lia.
Qed.

Lemma delete_option_sound w st id o SA I :
  sound w → l_Options (a_store w) !! (st, id) = Some o → op_AmountAllocated o = 0 → l_PruneDue (a_store w) !! (st, id) = None →
  default 0 SA = default 0 (l_SummedAccrued (a_store w)) - op_Accumulated o →
  let w' := upd_alloc (λ s, set_l_SummedAccrued (λ _, SA) (set_l_IntegratedOptions I (set_l_Options (delete (st, id)) s))) w in
  sound w' ∧ owed_units (a_store w') = owed_units (a_store w) - indexPrecision * op_Accumulated o.
Proof.
  intros Hi Ho Hz Hdue HSA w'. pose proof (si_options _ (sd_store _ Hi)) as Hoi.
  assert (∀ a, weight_sum (a_store w') a = weight_sum (a_store w) a) as Hw.
  { intros a. unfold weight_sum, w'. cbn. rewrite map_sum_delete_any, Ho. cbn. destruct (_ =? _); lia. }
  assert (accrued_sum (a_store w') = accrued_sum (a_store w) - op_Accumulated o) as Ha.
  { unfold accrued_sum, w'. cbn. by rewrite map_sum_delete_any, Ho. }
  assert (unsettled_sum (a_store w') = unsettled_sum (a_store w)) as Hu.
  { assert (∀ x, unsettled x o = 0) as E by (intros; unfold unsettled; rewrite Hz; lia).
    unfold unsettled_sum, w'. cbn [a_store upd_alloc l_Options set_l_SummedAccrued set_l_IntegratedOptions set_l_Options].
    rewrite map_sum_delete_any, Ho. cbn [fmap option_fmap option_map default fst]. rewrite E, Z.sub_0_r. done. }
  split.
  - eapply sound_parts; [exact Hi|done..| |].
    + destruct Hoi. split.
      * intros a i p [_ Hp]%(lookup_delete_Some (l_Options (a_store w))). by destruct (oi_option _ _ _ Hp).
      * intros a. rewrite Hw. apply oi_summed.
      * rewrite Ha, <-oi_accrued. exact HSA.
      * done.
      * intros a. rewrite Hw. apply oi_fits.
      * destruct oi_schedule. split; [done|]. intros a i Hs. destruct (sc_dead a i Hs) as (p & Hp & Hpr).
        exists p. split; [|done]. cbn. rewrite lookup_delete_ne; [done|]. intros [= -> ->]. cbn in Hs. rewrite Hdue in Hs. by destruct Hs.
    + intros a. rewrite Hw. apply (si_total _ (sd_store _ Hi)).
  - unfold owed_units. rewrite Ha, Hu. change (residue_of (a_store w')) with (residue_of (a_store w)). lia.
Qed.

Lemma pruneOption_inv kk w u w' :
  alloc_inv w → l_PruneDue (a_store w) !! kk = None → pruneOption kk w = Ok (u, w') → alloc_inv w'.
Proof.
  intros Hi Hdue. destruct kk as [st id]. unfold pruneOption. intros Hr.
  apply bind_ok in Hr as (mo & w1 & [-> ->]%get_alloc_ok & Hr).
  destruct (l_Options (a_store w) !! (st, id)) as [o|] eqn:Ho; [|by apply ret_ok in Hr as [= -> ->]].
  destruct (prunable o) eqn:Hp; cbn [negb] in Hr; [|by apply ret_ok in Hr as [= -> ->]].
  pose proof (inv_sound _ Hi) as Hsd. pose proof (prunable_amount _ _ _ _ Hsd Ho Hp) as Hz.
  pose proof (ai_funded _ Hi) as Hfund. pose proof (oi_option _ _ (si_options _ (sd_store _ Hsd)) _ _ _ Ho) as [].
  apply bind_ok in Hr as ([] & w1 & ->%set_alloc_ok & Hr). apply bind_ok in Hr as ([] & w1 & ->%set_alloc_ok & Hr). cbv zeta in Hr.
  pose proof (λ SA, delete_option_sound w st id o SA (λ X, X ∖ {[(st, id)]}) Hsd Ho Hz Hdue) as Hdel. cbv zeta in Hdel.
  destruct (Z.ltb_spec 0 (op_Accumulated o)).
  - apply bind_ok in Hr as (acc & w1 & [-> ->]%GetSummedAccrued_ok & Hr).
    apply bind_ok in Hr as (acc & w1 & [[-> _]%IntSub_ok ->]%lift_ok & Hr).
    apply bind_ok in Hr as ([] & w1 & ->%set_alloc_ok & Hr).
    apply burn_counted_ok in Hr as (Hext & Hh & _). cbn in Hh.
    destruct (Hdel (Some (default 0 (l_SummedAccrued (a_store w)) - op_Accumulated o)) eq_refl) as [Hs' Hu'].
    apply sound_inv; [exact (ext_sound _ _ Hs' Hext)|]. destruct Hext as [Es _]. unfold funded. rewrite Es.
    etransitivity; [exact (Z.eq_le_incl _ _ Hu')|]. rewrite Hh.
    change (held _) with (held w). unfold funded, indexPrecision in *. lia.
  - apply ret_ok in Hr as [= -> ->]. assert (op_Accumulated o = 0) as Ez by lia.
    destruct (Hdel (l_SummedAccrued (a_store w)) ltac:(lia)) as [Hs' Hu'].
    set (w1 := upd_alloc _ (upd_alloc _ w)).
    assert (w1 = upd_alloc (λ s, set_l_SummedAccrued (λ _, l_SummedAccrued (a_store w)) (set_l_IntegratedOptions (λ X, X ∖ {[(st, id)]}) (set_l_Options (delete (st, id)) s))) w) as ->
      by (by destruct w as [[] ?]).
    apply sound_inv; [done|]. unfold funded. rewrite Hu', Ez. change (held (upd_alloc _ w)) with (held w).
    unfold funded, indexPrecision in *. lia.
Qed.

(** Taking an entry off the schedule. *)
Lemma unschedule_inv d st id w :
  alloc_inv w → (d, st, id) ∈ l_PruneQueue (a_store w) →
  let w' := upd_alloc (set_l_PruneDue (delete (st, id))) (upd_alloc (set_l_PruneQueue (λ q, q ∖ {[(d, st, id)]})) w) in
  alloc_inv w' ∧ l_PruneDue (a_store w') !! (st, id) = None.
Proof.
  intros Hi Hq w'. pose proof (si_options _ (ai_store _ Hi)) as Hoi. split; [|apply lookup_delete_eq].
  apply sound_inv; [|apply Hi]. eapply sound_parts; [by apply inv_sound|done..| |apply (si_total _ (ai_store _ Hi))].
  destruct Hoi. split; try done.
  - intros a i p Hp. by destruct (oi_option _ _ _ Hp).
  - destruct oi_schedule. apply sc_due in Hq. split; cbn.
    + intros a i d'. rewrite elem_of_difference, elem_of_singleton, <-sc_due.
      destruct (decide ((a, i) = (st, id))) as [[= -> ->]|Hne].
      * rewrite lookup_delete_eq. split; [done|]. intros [Hd Hn]. congruence.
      * rewrite lookup_delete_ne by done. split; [|by intros [? _]]. intros ?. split; [done|]. intros [= -> -> ->]. done.
    + intros a i Hs. destruct (decide ((a, i) = (st, id))) as [[= -> ->]|Hne]; [rewrite lookup_delete_eq in Hs; by destruct Hs|].
      rewrite lookup_delete_ne in Hs by done. by apply sc_dead.
Qed.

Definition prune_body (e : Z * Z * Z) : AM () :=
  let kk := (e.1.2, e.2) in
  set_alloc (set_l_PruneQueue (λ q, q ∖ {[e]}));;
  set_alloc (set_l_PruneDue (delete kk));;
  _ ← Item (pruneOption kk);
  mret ().

(** What one removal leaves: the option gone if it was dead, everything else on file. *)
Lemma pruneOption_options kk w u w' :
  pruneOption kk w = Ok (u, w') →
  (l_Options (a_store w') = l_Options (a_store w) ∨
   l_Options (a_store w') = delete kk (l_Options (a_store w)) ∧ ∃ o, l_Options (a_store w) !! kk = Some o ∧ prunable o = true) ∧
  l_PruneQueue (a_store w') = l_PruneQueue (a_store w) ∧ w_nanos (a_world w') = w_nanos (a_world w).
Proof.
  unfold pruneOption. intros Hr. apply bind_ok in Hr as (mo & w1 & [-> ->]%get_alloc_ok & Hr).
  destruct (l_Options (a_store w) !! kk) as [o|] eqn:Ho; [|apply ret_ok in Hr as [= -> ->]; split; [by left|done]].
  destruct (prunable o) eqn:Hp; cbn [negb] in Hr; [|apply ret_ok in Hr as [= -> ->]; split; [by left|done]].
  apply bind_ok in Hr as ([] & w1 & ->%set_alloc_ok & Hr). apply bind_ok in Hr as ([] & w1 & ->%set_alloc_ok & Hr). cbv zeta in Hr.
  destruct (0 <? op_Accumulated o).
  - apply bind_ok in Hr as (acc & w1 & [-> ->]%GetSummedAccrued_ok & Hr).
    apply bind_ok in Hr as (acc' & w1 & [_ ->]%lift_ok & Hr). apply bind_ok in Hr as ([] & w1 & ->%set_alloc_ok & Hr).
    apply burn_counted_ok in Hr as ([Es En] & _). rewrite Es, En. split; [right; split; [done|by exists o]|done].
  - apply ret_ok in Hr as [= -> ->]. split; [right; split; [done|by exists o]|done].
Qed.

Lemma prune_body_ok e w :
  alloc_inv w → e ∈ l_PruneQueue (a_store w) →
  ∃ w', prune_body e w = Ok ((), w') ∧ alloc_inv w' ∧ l_PruneQueue (a_store w') = l_PruneQueue (a_store w) ∖ {[e]} ∧
    w_nanos (a_world w') = w_nanos (a_world w) ∧
    (l_Options (a_store w') = l_Options (a_store w) ∨ l_Options (a_store w') = delete (e.1.2, e.2) (l_Options (a_store w))) ∧
    ∃ o, l_Options (a_store w) !! (e.1.2, e.2) = Some o ∧ prunable o = true.
Proof.
  intros Hi He. destruct e as [[d st] id]. cbn [fst snd]. unfold prune_body. cbn [fst snd].
  destruct (unschedule_inv d st id w Hi He) as [Hi1 Hdue]. set (w1 := upd_alloc (set_l_PruneDue _) _) in *.
  destruct (Item_total (pruneOption (st, id)) w1) as (r & w2 & Hit).
  exists w2. split.
  { apply bind_ok. do 2 eexists. split; [reflexivity|]. apply bind_ok. do 2 eexists. split; [reflexivity|].
    apply bind_ok. do 2 eexists. split; [exact Hit|done]. }
  split; [eapply Item_inv; [|exact Hi1|exact Hit]; intros t; by apply pruneOption_inv|].
  assert (l_PruneQueue (a_store w2) = l_PruneQueue (a_store w1) ∧ w_nanos (a_world w2) = w_nanos (a_world w1) ∧
    (l_Options (a_store w2) = l_Options (a_store w1) ∨ l_Options (a_store w2) = delete (st, id) (l_Options (a_store w1)))) as (-> & -> & Hopts).
  { eapply (Item_inv (λ t, l_PruneQueue (a_store t) = l_PruneQueue (a_store w1) ∧ w_nanos (a_world t) = w_nanos (a_world w1) ∧
      (l_Options (a_store t) = l_Options (a_store w1) ∨ l_Options (a_store t) = delete (st, id) (l_Options (a_store w1))))); [| |exact Hit].
    - intros t Ht. apply pruneOption_options in Ht as ([->|[-> _]] & -> & ->); (split; [done|split; [done|]]); [by left|by right].
    - split; [done|split; [done|by left]]. }
  split; [done|]. split; [done|]. split; [exact Hopts|].
  apply (sc_dead _ (oi_schedule _ _ (si_options _ (ai_store _ Hi)))). exists d. by apply (sc_due _ (oi_schedule _ _ (si_options _ (ai_store _ Hi)))).
Qed.

(** What a sweep leaves of the options: each is on file as it was, or was dead and is gone. *)
Definition pruned_of w w' (es : list (Z * Z * Z)) : Prop :=
  ∀ kk, l_Options (a_store w') !! kk = l_Options (a_store w) !! kk ∨
    l_Options (a_store w') !! kk = None ∧ ∃ o e, l_Options (a_store w) !! kk = Some o ∧ prunable o = true ∧ e ∈ es ∧ kk = (e.1.2, e.2).

Lemma prune_loop_ok es w :
  alloc_inv w → NoDup es → (∀ e, e ∈ es → e ∈ l_PruneQueue (a_store w)) →
  ∃ w', for_each es prune_body w = Ok ((), w') ∧ alloc_inv w' ∧ w_nanos (a_world w') = w_nanos (a_world w) ∧ pruned_of w w' es.
Proof.
  intros Hi Hnd. revert w Hi. induction Hnd as [|e es Hne _ IH]; intros w Hi Hq; cbn [for_each].
  { exists w. split; [done|]. split; [done|]. split; [done|]. intros kk. by left. }
  destruct (prune_body_ok e w Hi (Hq e ltac:(left))) as (w1 & Hr1 & Hi1 & Hq1 & Hn1 & Ho1 & o & Ho & Hp).
  destruct (IH w1 Hi1) as (w2 & Hr2 & Hi2 & Hn2 & Hpr).
  { intros e' He'. rewrite Hq1. apply elem_of_difference. split; [apply Hq; by right|]. rewrite elem_of_singleton. by intros ->. }
  exists w2. split; [apply bind_ok; do 2 eexists; by split|]. split; [done|]. split; [congruence|].
  intros kk. destruct (decide (kk = (e.1.2, e.2))) as [->|Hkk].
  - destruct Ho1 as [E|E].
    + destruct (Hpr (e.1.2, e.2)) as [E2|(E2 & o2 & e2 & Ho2 & Hp2 & He2 & _)]; [left; congruence|].
      right. split; [done|]. exists o, e. split; [done|]. split; [done|]. split; [left|done].
    + right. split.
      * destruct (Hpr (e.1.2, e.2)) as [E2|[E2 _]]; [by rewrite E2, E, lookup_delete_eq|done].
      * exists o, e. split; [done|]. split; [done|]. split; [left|done].
  - assert (l_Options (a_store w1) !! kk = l_Options (a_store w) !! kk) as E.
    { destruct Ho1 as [E|E]; rewrite E; [done|]. by apply lookup_delete_ne. }
    destruct (Hpr kk) as [E2|(E2 & o2 & e2 & Ho2 & Hp2 & He2 & Hk2)]; [left; congruence|].
    right. split; [done|]. exists o2, e2. split; [congruence|]. split; [done|]. split; [by right|done].
Qed.

Lemma prune_due_ok now limit q :
  NoDup q → NoDup (prune_due now limit q) ∧ (length (prune_due now limit q) ≤ limit)%nat ∧
  ∀ e, e ∈ prune_due now limit q → e ∈ q ∧ e.1.1 ≤ now.
Proof.
  intros Hnd. revert limit. induction Hnd as [|e q He _ IH]; intros [|limit]; cbn [prune_due];
    try (split; [constructor|split; [cbn; lia|by intros ? ?%elem_of_nil]]).
  destruct (Z.ltb_spec now e.1.1); [split; [constructor|split; [cbn; lia|by intros ? ?%elem_of_nil]]|].
  destruct (IH limit) as (Hnd' & Hlen & Hin). split; [constructor; [|done]; intros Hx; apply He, (Hin e Hx)|]. split; [cbn; lia|].
  intros x [->|Hx]%elem_of_cons; [split; [left|done]|]. apply Hin in Hx as [? ?]. split; [by right|done].
Qed.

Lemma SweepPrunableOptions_ok w :
  alloc_inv w → ∃ w' es, SweepPrunableOptions w = Ok ((), w') ∧ alloc_inv w' ∧ w_nanos (a_world w') = w_nanos (a_world w) ∧
    pruned_of w w' es ∧ (length es ≤ OptionPruneSweepLimit)%nat ∧
    ∀ e, e ∈ es → e ∈ l_PruneQueue (a_store w) ∧ e.1.1 ≤ unix (a_world w).
Proof.
  intros Hi. set (es := prune_due (unix (a_world w)) OptionPruneSweepLimit (iter_set (l_PruneQueue (a_store w)))).
  destruct (prune_due_ok (unix (a_world w)) OptionPruneSweepLimit (iter_set (l_PruneQueue (a_store w)))) as (Hnd & Hlen & Hin);
    [apply iter_set_NoDup|]. fold es in Hnd, Hlen, Hin. setoid_rewrite elem_of_iter_set in Hin.
  destruct (prune_loop_ok es w Hi Hnd) as (w' & Hr & Hi' & Hn & Hp); [intros e He; by apply Hin|].
  exists w', es. split; [|done]. unfold SweepPrunableOptions. apply bind_ok. do 2 eexists. split; [reflexivity|].
  apply bind_ok. do 2 eexists. split; [reflexivity|]. exact Hr.
Qed.

(** ** Resolving the integrated options *)
Lemma resolve_option_inv st id w u w' :
  alloc_inv w → resolve_option st (idx_of (a_store w) st) id w = Ok (u, w') →
  alloc_inv w' ∧ l_RewardIndex (a_store w') = l_RewardIndex (a_store w) ∧ w_nanos (a_world w') = w_nanos (a_world w).
Proof.
  intros Hi. unfold resolve_option. intros Hr. apply bind_ok in Hr as (mo & w1 & [-> ->]%get_alloc_ok & Hr).
  destruct (l_Options (a_store w) !! (st, id)) as [o|] eqn:Ho; [|apply set_alloc_ok in Hr as ->; split; [by apply set_integrated_inv|done]].
  apply bind_ok in Hr as (o1 & w1 & [Hs ->]%lift_ok & Hr). pose proof (inv_sound _ Hi) as Hsd.
  apply (settle_ok w st id) in Hs as ->; [|done|done]. cbv zeta in Hr.
  pose proof (settled_acc_nonneg _ _ _ _ Hsd Ho) as (_ & Hacc). pose proof (ai_funded _ Hi) as Hfund. unfold funded in Hfund.
  remember (op_Accumulated (settled (a_store w) st o)) as acc eqn:Eacc.
  apply bind_ok in Hr as (o2 & w1 & Hres & Hr).
  assert (∃ r, 0 ≤ r ≤ acc ∧ o2 = set_op_Accumulated (acc - r) (settled (a_store w) st o) ∧ ext_only w w1 ∧ held w - r ≤ held w1)
    as (r & Hrange & -> & [Es En] & Hheld).
  { assert (Hsame : o2 = settled (a_store w) st o → w1 = w → ∃ r, 0 ≤ r ≤ acc ∧ o2 = set_op_Accumulated (acc - r) (settled (a_store w) st o) ∧ ext_only w w1 ∧ held w - r ≤ held w1).
    { intros -> ->. exists 0. rewrite Z.sub_0_r, Eacc. split; [lia|]. split; [done|]. split; [done|lia]. }
    change (op_Handler (settled (a_store w) st o)) with (op_Handler o) in Hres.
    destruct (integratedHandlers !! op_Handler o) as [h|] eqn:Eh; [|apply ret_ok in Hres as [= -> ->]; by apply Hsame].
    destruct ((ih_stream h =? st) && (0 <? acc)); [|apply ret_ok in Hres as [= -> ->]; by apply Hsame].
    apply bind_ok in Hres as (x & w2 & Hc & Hres). apply Cached_cases in Hc as [(r & -> & Hrun)|(e & -> & -> & _)].
    2:{ apply ret_ok in Hres as [= -> ->]. by apply Hsame. }
    apply bind_ok in Hrun as (r1 & w3 & (x & Hx & ->)%on_ext_ok & Hrun).
    apply bind_ok in Hrun as ([] & w3 & [Hchk ->]%refuse_if_ok & [= -> ->]%ret_ok).
    apply bind_ok in Hres as (a & w3 & [[-> _]%IntSub_ok ->]%lift_ok & [= -> ->]%ret_ok).
    destruct (ih_fn_takes _ _ _ _ _ _ Eh Hx) as [Hb Hn]; [lia|]. exists r1. split; [lia|]. split; [done|]. split; [done|]. exact Hb. }
  rewrite <-Es in Hr. apply write_balance_ok with (id := id) in Hr as (Hf & Hop & Hle & Hsd'); [|by eapply ext_sound|by rewrite Es|lia].
  rewrite Es, <-Eacc in Hle. destruct (options_only_frame _ _ Hf) as (_&_&_&_&_&_&_&Fi&_&_&Fx).
  split; [|split; [congruence|unfold a_world in *; by rewrite Fx]].
  apply sound_inv; [done|]. unfold funded. rewrite (options_only_held _ _ Hf). unfold indexPrecision in *. lia.
Qed.

Lemma resolveIntegrated_inv st w u w' :
  alloc_inv w → resolveIntegrated st w = Ok (u, w') → alloc_inv w' ∧ w_nanos (a_world w') = w_nanos (a_world w).
Proof.
  intros Hi. unfold resolveIntegrated. intros Hr. apply bind_ok in Hr as ([] & w1 & (Hi1 & Hn1 & _)%SweepLapses_ok & Hr); [|done].
  apply bind_ok in Hr as (ix & w2 & [-> ->]%getRewardIndex_ok & Hr). apply bind_ok in Hr as (ids & w2 & [-> ->]%get_alloc_ok & Hr).
  destruct u. eapply (for_each_inv (λ v, alloc_inv v ∧ idx_of (a_store v) st = idx_of (a_store w1) st ∧ w_nanos (a_world v) = w_nanos (a_world w1)))
    in Hr as (Hi' & _ & Hn'); [split; [done|congruence]| |done].
  intros id v v' _ (Hiv & Hix & Hnv) Hrv. rewrite <-Hix in Hrv. apply resolve_option_inv in Hrv as (Hi' & Hri & Hn'); [|done].
  split; [done|]. unfold idx_of in *. split; [by rewrite Hri|congruence].
Qed.

Lemma BeginBlocker_inv w u w' : alloc_inv w → alloc_BeginBlocker w = Ok (u, w') → alloc_inv w'.
Proof.
  intros Hi. unfold alloc_BeginBlocker. intros Hr. apply bind_ok in Hr as ([] & w1 & Hl & Hr).
  eapply (for_each_inv alloc_inv) in Hl; [|intros st v v' _ Hv Hrv; by apply resolveIntegrated_inv in Hrv as [? _]|done].
  destruct (SweepPrunableOptions_ok w1 Hl) as (w2 & es & Hs & Hi2 & _). congruence.
Qed.
End blocks.
