(* ===== verification/AllocEndBlock.v ===== *)
(** * x/allocation: the checks and the end of a block

    The messages over the reset and the parameters, [SweepResidue], and the checks of [invariants.go]: in every state that
    meets the invariant the account covers what is owed, the declared weights are the summed ones, and so neither
    [AssertHotInvariants] nor [AssertInvariants] finds anything; the module's EndBlock returns. *)

From S2P Require Export AllocBlocks.

(** ** The reset, the end of a block and the checks

    [resetAllocations] retires every vote of a stream at once; [SweepResidue] and the module's EndBlock; the checks of
    [invariants.go] pass in every state that meets the invariant, so the end of a block does not halt the chain. *)

Section checks.
Context `{HostLaws, !ShieldedKeeper, !StakingView, !AllocEnv}.
Implicit Types (w : AllocWorld) (s : AllocStore) (st id : Z) (o : AllocationOption).

(** ** Reset *)
Definition reset_body st (rewardIndex id : Z) : AM () :=
  o ← get_alloc (λ s, l_Options s !! (st, id));
  match o with
  | None => fail ErrNotFound
  | Some opt =>
      opt ← lift (settleOption opt rewardIndex);
      setOption st (set_op_AmountAllocated 0 opt)
  end.

(** The options of [ids] settled with nothing on them, the others as they were. *)
Lemma reset_loop_ok st ids g w u w' :
  options_inv g (a_store w) → for_each ids (reset_body st (idx_of (a_store w) st)) w = Ok (u, w') →
  options_only w w' ∧ owed_units (a_store w') ≤ owed_units (a_store w) ∧
  options_inv (λ a i, if bool_decide (a = st ∧ i ∈ ids) then 0 else g a i) (a_store w') ∧
  (∀ a, a ≠ st → weight_sum (a_store w') a = weight_sum (a_store w) a) ∧
  card <$> l_Options (a_store w') = card <$> l_Options (a_store w).
Proof.
  revert g w. induction ids as [|id ids IH]; intros g w Hi; cbn [for_each].
  { intros [= -> ->]%ret_ok. split; [apply options_only_refl|]. split; [done|]. split; [|done].
    eapply options_inv_ext; [exact Hi|]. intros. rewrite bool_decide_eq_false_2; [done|]. by intros [_ ?%elem_of_nil]. }
  intros Hr. apply bind_ok in Hr as ([] & w1 & Hb & Hr).
  apply bind_ok in Hb as (mo & w2 & [-> ->]%get_alloc_ok & Hb).
  destruct (l_Options (a_store w) !! (st, id)) as [o|] eqn:Ho; [|done].
  apply bind_ok in Hb as (o1 & w2 & [Hs ->]%lift_ok & Hb). pose proof (oi_option _ _ Hi _ _ _ Ho) as Hok. destruct (Hok).
  apply settleOption_ok in Hs as ->; [|done|done].
  assert (0 ≤ unsettled (idx_of (a_store w) st) o) as Hun by (unfold unsettled; nia).
  assert (0 ≤ unsettled (idx_of (a_store w) st) o / indexPrecision) by (apply Z.div_pos; [done|by unfold indexPrecision]).
  pose proof (settled_le (unsettled (idx_of (a_store w) st) o)) as Hle.
  eapply (write_settled g (λ a i, if bool_decide (a = st ∧ i = id) then 0 else g a i) st id) in Hb as (Hf & Hi1 & Hop & Hw & Hu);
    [|exact Hi|exact Ho|done|done|done|done|cbn; lia| |].
  - destruct (options_only_frame _ _ Hf) as (_&_&_&_&_&_&_&Fi&_&_&_).
    replace (idx_of (a_store w) st) with (idx_of (a_store w1) st) in Hr by (unfold idx_of; by rewrite Fi).
    apply (IH _ _ Hi1) in Hr as (Hf2 & Hu2 & Hi2 & Hw2 & Hc2). split; [by eapply options_only_trans|].
    cbn in Hu. split; [lia|]. split; [|split].
    + eapply options_inv_ext; [exact Hi2|]. intros a i p _ _. cbv beta.
      repeat case_bool_decide; try done; exfalso; set_solver.
    + intros a Ha. rewrite Hw2, Hw by done. destruct (Z.eqb_spec a st); [done|lia].
    + rewrite Hc2, Hop, fmap_insert. apply insert_id. by rewrite lookup_fmap, Ho.
  - cbn. rewrite bool_decide_eq_true_2 by done. by destruct (op_Removed o).
  - intros a i Hne. rewrite bool_decide_eq_false_2; [done|]. intros [-> ->]. done.
Qed.

(** Bumping the epoch retires every vote of the stream. *)
Lemma live_bumped s s' st a id :
  store_inv s → l_Voters s' = l_Voters s → l_Epoch s' = <[st := epoch_of s st + 1]> (l_Epoch s) →
  live s' a id = if a =? st then 0 else live s a id.
Proof.
  intros Hi Hv He. unfold live. rewrite Hv. destruct (Z.eqb_spec a st) as [->|Hne].
  - rewrite (map_sum_ext _ (λ _ _, 0)); [apply map_sum_zero|]. intros [b k] v Hk. cbn.
    destruct (Z.eqb_spec b st) as [->|]; [|done]. cbn [andb]. unfold epoch_of. rewrite He, lookup_insert_eq. cbn.
    destruct (vo_epoch _ _ _ (si_voter _ Hi _ _ _ Hk)). destruct (Z.eqb_spec (vt_Epoch v) (epoch_of s st + 1)); [lia|done].
  - unfold epoch_of. by rewrite He, lookup_insert_ne.
Qed.

Lemma resetAllocations_ok st w r w' :
  alloc_inv w → epoch_of (a_store w) st < 2 ^ 64 - 1 → resetAllocations st w = Ok (r, w') →
  alloc_inv w' ∧ r = epoch_of (a_store w) st + 1 ∧ epoch_of (a_store w') st = r ∧ total_of (a_store w') st = 0 ∧
  (∀ id o, l_Options (a_store w') !! (st, id) = Some o → op_AmountAllocated o = 0) ∧
  (∀ a id, a ≠ st → live (a_store w') a id = live (a_store w) a id).
Proof.
  intros Hi He. unfold resetAllocations. intros Hr.
  apply bind_ok in Hr as ([] & w1 & [Hi1 (n & _ & Hset & _)]%AdvanceIndex_ok & Hr); [|done].
  pose proof (settled_frame _ _ _ _ Hset) as (Fv & Fo & Fe & _ & _ & _ & _ & _ & _ & Fn).
  apply bind_ok in Hr as (ix & w2 & [-> ->]%getRewardIndex_ok & Hr).
  apply bind_ok in Hr as (ids & w2 & [-> ->]%get_alloc_ok & Hr). set (ids := snd <$> _) in Hr.
  apply bind_ok in Hr as ([] & w2 & Hl & Hr). apply (reset_loop_ok st ids (live (a_store w1))) in Hl as (Hf & Hu & Hoi & Hw & Hc);
    [|apply (ai_store _ Hi1)].
  apply bind_ok in Hr as ([] & w3 & ->%set_alloc_ok & Hr). apply bind_ok in Hr as (ep & w3 & [-> ->]%getEpoch_ok & Hr).
  destruct (options_only_frame _ _ Hf) as (Gv & Ge & Gs & Gl & Gp & Gt & Gu & Gi & Gr & _ & Gx).
  assert (epoch_of (a_store w2) st = epoch_of (a_store w) st) as Eep by (unfold epoch_of; by rewrite Ge, Fe).
  change (epoch_of (a_store (upd_alloc _ w2)) st) with (epoch_of (a_store w2) st) in Hr. rewrite Eep in Hr.
  pose proof (si_epoch _ (ai_store _ Hi) st) as Hege. rewrite wrap_u64_id in Hr by lia.
  apply bind_ok in Hr as ([] & w3 & ->%set_alloc_ok & [= -> ->]%ret_ok).
  set (w' := upd_alloc _ (upd_alloc _ w2)).
  assert (∀ id o, l_Options (a_store w2) !! (st, id) = Some o → id ∈ ids) as Hids.
  { intros id o Ho. assert (is_Some (l_Options (a_store w1) !! (st, id))) as Hs1.
    { assert ((card <$> l_Options (a_store w2)) !! (st, id) = Some (card o)) as Hcd by (by rewrite lookup_fmap, Ho).
      rewrite Hc, lookup_fmap, fmap_Some in Hcd. destruct Hcd as (p & Hp & _). by exists p. }
    unfold ids. apply list_elem_of_fmap. exists (st, id). split; [done|]. apply list_elem_of_filter. split; [done|].
    by apply elem_of_iter_keys. }
  assert (∀ id o, l_Options (a_store w2) !! (st, id) = Some o → op_AmountAllocated o = 0) as Hz.
  { intros id o Ho. pose proof (oi_option _ _ Hoi _ _ _ Ho) as []. rewrite oo_amount, bool_decide_eq_true_2; [by destruct (op_Removed o)|].
    split; [done|by eapply Hids]. }
  assert (weight_sum (a_store w2) st = 0) as Hws.
  { unfold weight_sum. rewrite (map_sum_ext _ (λ _ _, 0)); [apply map_sum_zero|]. intros [a i] o Ho. cbn.
    destruct (Z.eqb_spec a st) as [->|]; [by eapply Hz|done]. }
  assert (l_Epoch (a_store w') = <[st := epoch_of (a_store w1) st + 1]> (l_Epoch (a_store w1))) as Hep.
  { unfold w'. cbn. rewrite Ge, Fe. unfold epoch_of. by rewrite Fe. }
  assert (∀ a id, live (a_store w') a id = if a =? st then 0 else live (a_store w1) a id) as Hlive.
  { intros a id. apply live_bumped; [apply (ai_store _ Hi1)|exact Gv|exact Hep]. }
  split; [|split; [done|split; [unfold epoch_of, w'; cbn; by rewrite lookup_insert_eq|split; [unfold total_of, w'; cbn; by rewrite lookup_insert_eq|split; [exact Hz|]]]]].
  2:{ intros a id Hne. rewrite Hlive. destruct (Z.eqb_spec a st); [done|]. unfold live, epoch_of. by rewrite Fv, Fe. }
  destruct Hi1. assert (∀ a, epoch_of (a_store w1) a ≤ epoch_of (a_store w') a) as Hmono.
  { intros a. unfold epoch_of at 2. rewrite Hep. destruct (decide (a = st)) as [->|]; [rewrite lookup_insert_eq; cbn; lia|by rewrite lookup_insert_ne]. }
  split.
  - destruct ai_store. split.
    + eapply options_inv_ext; [eapply (options_inv_frame _ (a_store w2)); [done..|exact Hoi]|]. intros a i o Ho _. rewrite Hlive.
      destruct (Z.eqb_spec a st) as [->|Hne]; [|by rewrite bool_decide_eq_false_2 by (by intros [? _])].
      rewrite bool_decide_eq_true_2; [done|]. split; [done|by eapply Hids].
    + intros a. unfold total_of, w'. cbn. destruct (decide (a = st)) as [->|Hne]; [by rewrite lookup_insert_eq|].
      rewrite lookup_insert_ne by done. change (weight_sum _ a) with (weight_sum (a_store w2) a). rewrite Hw, Gt by done. apply si_total.
    + intros a k v. change (l_Voters (a_store w')) with (l_Voters (a_store w2)). rewrite Gv. intros Hv.
      destruct (si_voter _ _ _ Hv). split; try done; [specialize (Hmono a); lia|]. unfold seq_of in *. change (l_OptionSeq (a_store w')) with (l_OptionSeq (a_store w2)). by rewrite Gs.
    + intros a. unfold seq_of. change (l_OptionSeq (a_store w')) with (l_OptionSeq (a_store w2)). rewrite Gs. apply si_seq.
    + intros a. specialize (Hmono a). specialize (si_epoch a). lia.
    + intros a. unfold upkeep_of. change (l_LastUpkeep (a_store w')) with (l_LastUpkeep (a_store w2)). rewrite Gu. apply si_upkeep.
    + intros e. change (l_VoterLapses (a_store w')) with (l_VoterLapses (a_store w2)). rewrite Gl. apply si_lapses.
    + change (l_Params (a_store w')) with (l_Params (a_store w2)). rewrite Gp. apply si_params.
  - intros a k v. change (l_Voters (a_store w')) with (l_Voters (a_store w2)). rewrite Gv. intros Hv Hx Hc2.
    destruct (decide (a = st)) as [->|Hne].
    + exfalso. destruct (vo_epoch _ _ _ (si_voter _ ai_store _ _ _ Hv)). unfold epoch_of in Hc2 at 1. rewrite Hep, lookup_insert_eq in Hc2. cbn in Hc2. lia.
    + change (l_VoterLapses (a_store w')) with (l_VoterLapses (a_store w2)). rewrite Gl. apply (ai_leased a k v Hv Hx).
      unfold epoch_of in *. by rewrite Hep, lookup_insert_ne in Hc2.
  - unfold a_world. change (a_ext w') with (a_ext w2). by rewrite Gx.
  - unfold funded, held, a_world in *. change (a_ext w') with (a_ext w2). rewrite Gx. change (owed_units (a_store w')) with (owed_units (a_store w2)). lia.
Qed.
End checks.

(** A sum taken left to right with an overflow check at every step. *)
Lemma sum_outcome_ok `{HostLaws} {A} (f : A → Z) (l : list A) :
  Forall (λ a, 0 ≤ f a) l → list_sum f l < 2 ^ 256 → sum_outcome f l = Ok (list_sum f l).
Proof.
  intros Hl Hs. unfold sum_outcome.
  assert (∀ x, 0 ≤ x → x + list_sum f l < 2 ^ 256 →
    foldl (λ acc a, x ← acc; IntAdd x (f a)) (Ok x) l = Ok (x + list_sum f l)) as Hgen; [|rewrite Hgen; by rewrite ?Z.add_0_l].
  clear Hs. induction Hl as [|a l Ha Hl IH]; intros x Hx Hs; cbn [foldl]; [by rewrite list_sum_nil, Z.add_0_r|].
  rewrite list_sum_cons in *. assert (0 ≤ list_sum f l) as Hge.
  { clear -Hl. induction Hl as [|b l Hb _ IH]; [done|]. rewrite list_sum_cons. lia. }
  change (x0 ← Ok x; IntAdd x0 (f a)) with (IntAdd x (f a)). rewrite IntAdd_fits by lia. rewrite IH by lia. f_equal. lia.
Qed.

(** A sum over the entries a filter keeps. *)
Lemma list_sum_filter {A} (P : A → Prop) `{∀ a, Decision (P a)} (f : A → Z) (l : list A) :
  list_sum f (filter P l) = list_sum (λ a, if decide (P a) then f a else 0) l.
Proof.
  induction l as [|a l IH]; [done|]. rewrite filter_cons, list_sum_cons. destruct (decide (P a)); rewrite ?list_sum_cons; lia.
Qed.

Section end_block.
Context `{HostLaws, !ShieldedKeeper, !StakingView, !AllocEnv}.
Implicit Types (w : AllocWorld) (s : AllocStore) (st id : Z) (o : AllocationOption).

(** ** Two messages *)
Lemma ResetAllocations_run msg w r w' :
  ResetAllocations msg w = Ok (r, w') →
  resetAllocations STREAM_ID_GROUNDWORKS w = Ok (r, w') ∧ ra_Stream msg = STREAM_ID_GROUNDWORKS ∧
  StringToBytes (ra_Authority msg) = Ok alloc_authority.
Proof.
  unfold ResetAllocations. intros Hr. apply bind_ok in Hr as ([] & w1 & [Hst ->]%lift_ok & Hr).
  apply bind_ok in Hr as ([] & w1 & [Hne ->]%refuse_if_ok & Hr). apply bind_ok in Hr as (au & w1 & [Hau ->]%lift_ok & Hr).
  apply bind_ok in Hr as ([] & w1 & [Hsig ->]%refuse_if_ok & Hr). apply negb_false_iff, bool_decide_eq_true in Hsig as ->.
  assert (ra_Stream msg = STREAM_ID_GROUNDWORKS) as E; [|by rewrite E in Hr].
  unfold ValidateStreamId in Hst. apply refuse_ok in Hst. apply negb_false_iff, bool_decide_eq_true in Hst. apply Z.eqb_neq in Hne.
  unfold Streams in Hst. rewrite !elem_of_cons, elem_of_nil in Hst. by destruct Hst as [?|[?|[]]].
Qed.

Lemma set_params_inv p w :
  alloc_inv w → AllocParamsValidate p = Ok () → 0 ≤ ap_GroundworksLeaseSeconds p → alloc_inv (upd_alloc (set_l_Params (λ _, Some p)) w).
Proof.
  intros [] Hv Hp. split; [|by eapply leased_frame|done|done]. destruct ai_store. split; try done.
  - eapply options_inv_frame; [..|exact si_options]; done.
  - intros a k v Hk. by destruct (si_voter _ _ _ Hk).
  - cbn. intros q [= <-]. done.
Qed.

Lemma AllocUpdateParams_inv req w u w' :
  alloc_inv w → 0 ≤ ap_GroundworksLeaseSeconds (aup_Params req) → AllocUpdateParams req w = Ok (u, w') → alloc_inv w'.
Proof.
  intros Hi Hp. unfold AllocUpdateParams. intros Hr. apply bind_ok in Hr as (au & w1 & [_ ->]%lift_ok & Hr).
  apply bind_ok in Hr as ([] & w1 & [_ ->]%refuse_if_ok & Hr). apply bind_ok in Hr as ([] & w1 & [Hv ->]%lift_ok & ->%set_alloc_ok).
  by apply set_params_inv.
Qed.

(** ** What the account covers *)
Lemma accrued_sum_nonneg s : store_inv s → 0 ≤ accrued_sum s.
Proof. intros Hi. apply map_sum_nonneg. intros [st id] o Ho. by destruct (oi_option _ _ (si_options _ Hi) _ _ _ Ho). Qed.
Lemma unsettled_sum_nonneg s : store_inv s → 0 ≤ unsettled_sum s.
Proof.
  intros Hi. apply map_sum_nonneg. intros [st id] o Ho. destruct (oi_option _ _ (si_options _ Hi) _ _ _ Ho).
  unfold unsettled. cbn. nia.
Qed.

Lemma covered w : alloc_inv w → 0 ≤ accrued_sum (a_store w) ∧ 0 ≤ residue_of (a_store w) ∧
  accrued_sum (a_store w) + residue_of (a_store w) ≤ held w ∧ held w < 2 ^ 256.
Proof.
  intros Hi. pose proof (accrued_sum_nonneg _ (ai_store _ Hi)). pose proof (unsettled_sum_nonneg _ (ai_store _ Hi)).
  pose proof (oi_residue _ _ (si_options _ (ai_store _ Hi))). pose proof (ai_funded _ Hi) as Hf.
  pose proof (balance_fits (w_bank (a_world w)) alloc_addr hub_denom). unfold funded, owed_units, held, indexPrecision in *. lia.
Qed.

(** ** The checks *)
Lemma alloc_CheckSolvency_ok w : alloc_inv w → ∃ r, alloc_CheckSolvency w = Ok (r, w) ∧ solvency_broken r = false ∧
  sr_Accrued r = accrued_sum (a_store w) ∧ sr_Residue r = residue_of (a_store w) ∧ sr_Held r = held w.
Proof.
  intros Hi. destruct (covered w Hi) as (Ha & Hr & Hle & Hlt). pose proof (oi_accrued _ _ (si_options _ (ai_store _ Hi))) as Eacc.
  unfold alloc_CheckSolvency.
  rewrite (run_bind _ _ _ (accrued_sum (a_store w)) w) by (by rewrite <-Eacc).
  rewrite (run_bind _ _ _ (residue_of (a_store w)) w) by done.
  rewrite (run_bind _ _ _ hub_denom w) by (unfold lift; by rewrite host_bond_denom).
  rewrite (run_bind _ _ _ (held w) w) by done.
  rewrite (run_bind _ _ _ (accrued_sum (a_store w) + residue_of (a_store w)) w) by (unfold lift; rewrite IntAdd_fits by lia; done).
  destruct (Z.ltb_spec (held w) (accrued_sum (a_store w) + residue_of (a_store w))); [lia|].
  destruct (Z.ltb_spec (accrued_sum (a_store w) + residue_of (a_store w)) (held w)); [|by eexists].
  rewrite (run_bind _ _ _ (held w - (accrued_sum (a_store w) + residue_of (a_store w))) w); [by eexists|].
  unfold lift. rewrite IntSub_spec, fits_range by lia. done.
Qed.

(** A pass that changes nothing and never refuses. *)
Lemma for_each_pass {A} (f : A → AM ()) l w : (∀ a, a ∈ l → f a w = Ok ((), w)) → for_each l f w = Ok ((), w).
Proof.
  induction l as [|a l IH]; intros Hf; cbn [for_each]; [done|]. rewrite (run_bind _ _ _ () w) by (apply Hf; by left).
  apply IH. intros b Hb. apply Hf. by right.
Qed.

Lemma AssertHotInvariants_ok w : alloc_inv w → alloc_AssertHotInvariants w = Ok ((), w).
Proof.
  intros Hi. unfold alloc_AssertHotInvariants. destruct (alloc_CheckSolvency_ok w Hi) as (r & Hc & Hb & _).
  rewrite (run_bind _ _ _ r w) by done. rewrite Hb, (run_bind _ _ _ () w) by done.
  apply for_each_pass. intros st _. unfold CheckStreamWeightBounded.
  rewrite (run_bind _ _ _ (mkWeightReport st (total_of (a_store w) st) (summed_of (a_store w) st)) w) by done.
  unfold weight_broken. cbn [wr_Declared wr_Summed]. pose proof (si_total _ (ai_store _ Hi) st) as ->.
  rewrite (oi_summed _ _ (si_options _ (ai_store _ Hi))), Z.eqb_refl. done.
Qed.

(** The sums the exhaustive check walks. *)
Lemma walked_weight w st : alloc_inv w →
  sum_outcome (λ kv : Z * Z * AllocationOption, op_AmountAllocated kv.2)
    (filter (λ kv : Z * Z * AllocationOption, kv.1.1 = st) (iter_map (l_Options (a_store w)))) = Ok (weight_sum (a_store w) st).
Proof.
  intros Hi. pose proof (si_options _ (ai_store _ Hi)) as Ho.
  assert (list_sum (λ kv : Z * Z * AllocationOption, op_AmountAllocated kv.2)
    (filter (λ kv : Z * Z * AllocationOption, kv.1.1 = st) (iter_map (l_Options (a_store w)))) = weight_sum (a_store w) st) as E.
  { rewrite list_sum_filter. unfold weight_sum. rewrite <-iter_map_sum. apply list_sum_ext. intros [[a i] o] _.
    cbn. destruct (decide (a = st)), (Z.eqb_spec a st); done. }
  rewrite <-E. apply sum_outcome_ok; [|rewrite E; exact (oi_fits _ _ Ho st)].
  apply Forall_forall. intros [[a i] o] [_ Hin]%list_elem_of_filter. apply elem_of_iter_map in Hin.
  by destruct (oi_option _ _ Ho _ _ _ Hin).
Qed.

Lemma walked_accrued w : alloc_inv w →
  sum_outcome (λ kv : Z * Z * AllocationOption, op_Accumulated kv.2) (iter_map (l_Options (a_store w))) = Ok (accrued_sum (a_store w)).
Proof.
  intros Hi. pose proof (si_options _ (ai_store _ Hi)) as Ho. destruct (covered w Hi) as (Ha & Hr & Hle & Hlt).
  assert (list_sum (λ kv : Z * Z * AllocationOption, op_Accumulated kv.2) (iter_map (l_Options (a_store w))) = accrued_sum (a_store w)) as E
    by exact (iter_map_sum (λ _ o, op_Accumulated o) _).
  rewrite <-E. apply sum_outcome_ok; [|rewrite E; lia].
  apply Forall_forall. intros [[a i] o] Hin. apply elem_of_iter_map in Hin. by destruct (oi_option _ _ Ho _ _ _ Hin).
Qed.

Lemma alloc_AssertInvariants_ok w : alloc_inv w → alloc_AssertInvariants w = Ok ((), w).
Proof.
  intros Hi. unfold alloc_AssertInvariants. rewrite (run_bind _ _ _ () w).
  2:{ apply for_each_pass. intros st _. unfold CheckStreamWeight.
      rewrite (run_bind _ _ _ (mkWeightReport st (total_of (a_store w) st) (weight_sum (a_store w) st)) w).
      2:{ do 2 (rewrite (run_bind _ _ _ _ w) by reflexivity). rewrite (run_bind _ _ _ (weight_sum (a_store w) st) w); [done|].
          unfold lift. by rewrite walked_weight. }
      unfold weight_broken. cbn [wr_Declared wr_Summed]. rewrite (si_total _ (ai_store _ Hi)), Z.eqb_refl.
      rewrite (run_bind _ _ _ () w) by done. rewrite (run_bind _ _ _ (summed_of (a_store w) st) w) by done.
      by rewrite (oi_summed _ _ (si_options _ (ai_store _ Hi))), Z.eqb_refl. }
  rewrite (run_bind _ _ _ (accrued_sum (a_store w)) w) by (by rewrite <-(oi_accrued _ _ (si_options _ (ai_store _ Hi)))).
  rewrite (run_bind _ _ _ (accrued_sum (a_store w)) w).
  2:{ unfold walkAccrued. rewrite (run_bind _ _ _ _ w) by reflexivity. unfold lift. by rewrite walked_accrued. }
  rewrite Z.eqb_refl, (run_bind _ _ _ () w) by done.
  destruct (alloc_CheckSolvency_ok w Hi) as (r & Hc & Hb & _). rewrite (run_bind _ _ _ r w) by done. by rewrite Hb.
Qed.

(** ** The residue *)
Lemma residue_paid w amount x :
  alloc_inv w → residue_of (a_store w) = amount → w_nanos (fst x) = w_nanos (a_world w) →
  held w - amount ≤ GetBalance (w_bank (fst x)) alloc_addr hub_denom →
  alloc_inv (upd_alloc (set_l_Residue (λ _, Some 0)) (mkAllocWorld (a_store w) x)).
Proof.
  intros Hi Hr Hn Hh. pose proof (inv_sound _ Hi) as Hsd. apply sound_inv.
  - eapply (sound_parts w); [done..| |apply (si_total _ (ai_store _ Hi))].
    destruct (si_options _ (ai_store _ Hi)). split; try done; [|by destruct oi_schedule].
    intros a i p Hp. by destruct (oi_option _ _ _ Hp).
  - pose proof (ai_funded _ Hi) as Hf. unfold funded, owed_units in *.
    change (residue_of (a_store (upd_alloc _ _))) with 0. change (accrued_sum (a_store (upd_alloc _ _))) with (accrued_sum (a_store w)).
    change (unsettled_sum (a_store (upd_alloc _ _))) with (unsettled_sum (a_store w)).
    change (held (upd_alloc _ _)) with (GetBalance (w_bank (fst x)) alloc_addr hub_denom). unfold indexPrecision in *. lia.
Qed.

Lemma SweepResidue_ok `{!AllocEnvLaws} w : alloc_inv w → ∃ w', SweepResidue w = Ok ((), w') ∧ alloc_inv w' ∧
  (w' = w ∨ residue_of (a_store w') = 0).
Proof.
  intros Hi. unfold SweepResidue. destruct residueSink as [sink|] eqn:Es; [|exists w; split; [done|split; [done|by left]]].
  rewrite (run_bind _ _ _ (residue_of (a_store w)) w) by done.
  destruct (negb _); [exists w; split; [done|split; [done|by left]]|].
  set (f := on_ext (sink (residue_of (a_store w)));; set_alloc (set_l_Residue (λ _, Some 0))).
  destruct (Item_total f w) as (r & w' & Hit). exists w'. split; [by rewrite (run_bind _ _ _ r w')|].
  assert (alloc_inv w' ∧ (w' = w ∨ residue_of (a_store w') = 0)) as [? ?]; [|done].
  eapply (Item_inv (λ v, alloc_inv v ∧ (v = w ∨ residue_of (a_store v) = 0))); [|split; [done|by left]|exact Hit].
  intros t Ht. apply bind_ok in Ht as (u & w1 & (x & Hx & ->)%on_ext_ok & ->%set_alloc_ok).
  destruct (residueSink_takes _ _ _ _ _ Es Hx) as [Hb Hn]. split; [|by right]. by eapply residue_paid.
Qed.

(** ** The end of a block *)
Lemma alloc_EndBlock_ok `{!AllocEnvLaws} w : alloc_inv w → ∃ w', alloc_EndBlock w = Ok ((), w') ∧ alloc_inv w'.
Proof.
  intros Hi. unfold alloc_EndBlock. destruct (ResyncSlashed_ok w Hi) as (w1 & Hrun1 & Hi1).
  destruct (SweepResidue_ok w1 Hi1) as (w2 & Hrun2 & Hi2 & _). exists w2. split; [|done].
  rewrite (run_bind _ _ _ () w1) by done. rewrite (run_bind _ _ _ () w2) by done. by apply AssertHotInvariants_ok.
Qed.
End end_block.
