(* ===== verification/AllocChain.v ===== *)
(** * x/allocation on the chain: reachable states

    A step is a message of the module, a call another module makes into it, a staking hook, a block hook, or anything else
    on the chain that leaves the module's store alone, takes nothing out of its account and does not turn back the clock.
    A message that fails changes nothing and is no step. *)

From S2P Require Export AllocEndBlock.

Section chain.
Context `{Host, !ShieldedKeeper, !StakingView, !AllocEnv}.
Implicit Types (w : AllocWorld) (st : Z).

(** The counters of a stream are 64-bit; one value is left. *)
Definition room (n : Z) : Prop := n < 2 ^ 64 - 1.

Inductive alloc_step : AllocWorld → AllocWorld → Prop :=
(* messages *)
| as_add_integrated msg id w w' : room (seq_of (a_store w) (ai_Stream msg)) →
    AddIntegratedOption msg w = Ok (id, w') → alloc_step w w'
| as_add_address msg id w w' : room (seq_of (a_store w) (aa_Stream msg)) →
    StringToBytes (aa_Submitter msg) ≠ Ok alloc_addr → AddAddressOption msg w = Ok (id, w') → alloc_step w w'
| as_claim msg amount w w' : ClaimAllocation msg w = Ok (amount, w') → alloc_step w w'
| as_reset msg epoch w w' : room (epoch_of (a_store w) STREAM_ID_GROUNDWORKS) →
    ResetAllocations msg w = Ok (epoch, w') → alloc_step w w'
| as_set msg weight w w' : typed_split (sa_Percentages msg) → SetAllocations msg w = Ok (weight, w') → alloc_step w w'
| as_params req w w' : 0 ≤ ap_GroundworksLeaseSeconds (aup_Params req) → AllocUpdateParams req w = Ok ((), w') → alloc_step w w'
(* x/personhood, x/shieldedstaking *)
| as_vote st key ps weight w w' : typed_split ps → SetVoterSplit st key ps weight w = Ok ((), w') → alloc_step w w'
| as_apply st key ps r w w' : typed_split ps → ApplySplit st key ps w = Ok (r, w') → alloc_step w w'
| as_clear st key w w' : ClearVoter st key w = Ok ((), w') → alloc_step w w'
| as_resync st key w w' : ResyncVoter st key w = Ok ((), w') → alloc_step w w'
| as_move st from to w w' : MoveVoter st from to w = Ok ((), w') → alloc_step w w'
| as_weighted st key ws w w' : named_weights (a_store w) st ws → SetWeightedVoter st key ws w = Ok ((), w') → alloc_step w w'
| as_weighted_settled st key ws w w' : named_weights (a_store w) st ws →
    SetWeightedVoterSettled st key ws w = Ok ((), w') → alloc_step w w'
| as_advance st w w' : AdvanceIndex st w = Ok ((), w') → alloc_step w w'
| as_advance_to st t w w' : AdvanceIndexTo st t w = Ok ((), w') → alloc_step w w'
| as_draw st id ppm m r w w1 w' : 0 ≤ ppm ≤ PpmDenominator → DrawFromOption st id ppm w = Ok (r, w1) →
    on_world (PayOutToModule m r) w1 = Ok ((), w') → alloc_step w w'
(* x/assembly's chamber *)
| as_remove caller id w w' : RemoveGroundworksOption caller id w = Ok ((), w') → alloc_step w w'
(* x/staking *)
| as_delegation addr removed w w' : resyncFromBonded addr removed w = Ok ((), w') → alloc_step w w'
| as_slash val w w' : recordResync val w = Ok ((), w') → alloc_step w w'
(* blocks *)
| as_begin w w' : alloc_BeginBlocker w = Ok ((), w') → alloc_step w w'
| as_end w w' : alloc_EndBlock w = Ok ((), w') → alloc_step w w'
| as_other w w' : a_store w' = a_store w → w_nanos (a_world w) ≤ w_nanos (a_world w') < 2 ^ 63 → held w ≤ held w' → alloc_step w w'.

Definition alloc_reachable : AllocWorld → AllocWorld → Prop := rtc alloc_step.
End chain.

Section chain_inv.
Context `{HostLaws, !ShieldedKeeper, !StakingView, !AllocEnv, !AllocEnvLaws}.
Implicit Types (w : AllocWorld) (st : Z).

Lemma ClearVoter_inv st key w u w' : alloc_inv w → ClearVoter st key w = Ok (u, w') → alloc_inv w'.
Proof. intros Hi. unfold ClearVoter. intros Hr. eapply resyncVoter_inv; [done|constructor| |exact Hr]. done. Qed.

(** What goes to another module's account leaves this one. *)
Lemma PayOutToModule_ok m amount w u w' :
  on_world (PayOutToModule m amount) w = Ok (u, w') → ext_only w w' ∧ held w - Z.max 0 amount ≤ held w'.
Proof.
  intros (v & Hr & ->)%on_world_ok. unfold PayOutToModule, HubDenom in Hr. destruct (Z.ltb_spec 0 amount) as [Hpos|Hz]; cbn [negb] in Hr.
  2:{ apply ret_ok in Hr as [= -> ->]. unfold held, a_world, ext_only. cbn. split; [done|lia]. }
  apply bind_ok in Hr as (hub & w3 & [Hhub ->]%lift_ok & Hr). rewrite host_bond_denom in Hhub. injection Hhub as <-.
  apply bind_ok in Hr as (c & w3 & [[-> _]%NewCoin_spec ->]%lift_ok & Hr).
  apply bind_ok in Hr as (cs & w3 & [[Hcs _]%NewCoins_spec ->]%lift_ok & Hr).
  apply bank_ok in Hr as (b & [Hm _]%SendM2M_spec & ->). split; [done|].
  unfold held at 2. unfold a_world at 1. cbn [a_ext fst]. change (w_bank (set_w_bank b _)) with b.
  rewrite Hm, Hcs, AmountOf_cons, AmountOf_nil, !bd_some. fold alloc_addr. unfold held. cbn [Denom Amount].
  rewrite !bool_decide_eq_true_2 by done. case_bool_decide; lia.
Qed.

Lemma draw_inv st id ppm m r w w1 w' :
  alloc_inv w → 0 ≤ ppm ≤ PpmDenominator → DrawFromOption st id ppm w = Ok (r, w1) →
  on_world (PayOutToModule m r) w1 = Ok ((), w') → alloc_inv w'.
Proof.
  intros Hi Hp Hd Hpay. apply DrawFromOption_ok in Hd as (Hi1 & Hu & Hh & Hr); [|done..].
  apply PayOutToModule_ok in Hpay as [Hext Hb]. apply (ext_inv _ _ Hi1 Hext).
  assert (0 ≤ r) by (destruct (l_Options _ !! _); [apply Hr|by destruct Hr as [-> _]]). unfold indexPrecision in *. lia.
Qed.

Lemma alloc_step_inv w w' : alloc_step w w' → alloc_inv w → alloc_inv w'.
Proof.
  destruct 1 as [msg id w w' Hs Hr|msg id w w' Hs Hm Hr|msg am w w' Hr|msg ep w w' Hs Hr|msg wt w w' Ht Hr|req w w' Hp Hr
    |st key ps wt w w' Ht Hr|st key ps r w w' Ht Hr|st key w w' Hr|st key w w' Hr|st from to w w' Hr|st key ws w w' Hn Hr|st key ws w w' Hn Hr
    |st w w' Hr|st t w w' Hr|st id ppm m r w w1 w' Hp Hd Hr|caller id w w' Hr|addr rm w w' Hr|val w w' Hr|w w' Hr|w w' Hr|w w' Hs Hn Hh]; intros Hi.
  - by eapply AddIntegratedOption_inv.
  - by eapply AddAddressOption_inv.
  - by apply ClaimAllocation_ok in Hr as [? _].
  - apply ResetAllocations_run in Hr as [Hr _]. by apply resetAllocations_ok in Hr as [? _].
  - unfold SetAllocations in Hr. apply bind_ok in Hr as ([] & w1 & [_ ->]%lift_ok & Hr).
    apply bind_ok in Hr as ([] & w1 & [_ ->]%refuse_if_ok & Hr). apply bind_ok in Hr as (a & w1 & [_ ->]%lift_ok & Hr).
    by apply ApplySplit_ok in Hr as [? _].
  - by eapply AllocUpdateParams_inv.
  - by eapply SetVoterSplit_inv.
  - by apply ApplySplit_ok in Hr as [? _].
  - by eapply ClearVoter_inv.
  - by eapply ResyncVoter_inv.
  - by eapply MoveVoter_inv.
  - by eapply SetWeightedVoter_inv.
  - by eapply SetWeightedVoterSettled_inv.
  - by apply AdvanceIndex_ok in Hr as [? _].
  - by eapply AdvanceIndexTo_inv.
  - by eapply draw_inv.
  - by eapply RemoveGroundworksOption_inv.
  - by eapply resyncFromBonded_inv.
  - apply set_alloc_ok in Hr as ->. by apply set_slashed_inv.
  - by eapply BeginBlocker_inv.
  - destruct (alloc_EndBlock_ok w Hi) as (w1 & Hr1 & Hi1). congruence.
  - destruct Hi. split; rewrite ?Hs; try done; [lia|]. unfold funded in *. rewrite Hs. unfold indexPrecision in *. lia.
Qed.

Lemma alloc_reachable_inv w w' : alloc_reachable w w' → alloc_inv w → alloc_inv w'.
Proof. induction 1; [done|]. intros Hi. eauto using alloc_step_inv. Qed.
End chain_inv.

(** ** The module as the app wires it

    The handlers of the integrated options and the residue's sink, as [app.go] and the modules' wiring register them:
    [lp_rewards] is x/dex's, [registration_rewards] stacks, [community_pool] and the sink hand ERTH to x/distribution,
    whose [FundCommunityPool] is a parameter.  Each takes out of the module's account what it says, so the module's
    invariant holds of the chain as it is wired. *)

Definition HandlerLPRewards : string := "lp_rewards".
Definition HandlerRegistrationRewards : string := "registration_rewards".
Definition HandlerCommunityPool : string := "community_pool".

Section wiring.
Context `{Host, !ShieldedKeeper, !StakingView}.
(** x/distribution: the coins leave the sender for the community pool. *)
Variable FundCommunityPool : Coins → bytes → prog ext ().

Definition app_handlers : gmap string integratedHandler :=
  {[ HandlerLPRewards := mkHandler STREAM_ID_GROUNDWORKS (λ accrued, in_world (LPRewardsHandler accrued));
     HandlerRegistrationRewards := mkHandler STREAM_ID_CARETAKER (λ _, mret 0);
     HandlerCommunityPool := mkHandler STREAM_ID_GROUNDWORKS (CommunityPoolHandler FundCommunityPool) ]}.
Definition app_sink : option (Z → prog ext ()) := Some (ResidueSink FundCommunityPool).

(** The app's wiring, given what the container injects: the module's authority, the chamber's account and the sources
    of weight. *)
Definition app_env (authority chamber : bytes) (sources : gmap Z WeightSource) : AllocEnv :=
  {| alloc_authority := authority; chamber_addr := chamber; weightSources := sources;
     integratedHandlers := app_handlers; residueSink := app_sink |}.

(** What x/distribution does with the coins it is handed. *)
Definition funds_pool : Prop := ∀ coins sender x u x', coins_wf coins → FundCommunityPool coins sender x = Ok (u, x') →
  (∀ d, GetBalance (w_bank (fst x)) sender d - AmountOf coins d ≤ GetBalance (w_bank (fst x')) sender d) ∧
  w_nanos (fst x') = w_nanos (fst x).
(** The weight sources report no negative weight. *)
Definition weights_nonneg (sources : gmap Z WeightSource) : Prop :=
  ∀ st src key x r, sources !! st = Some src → ws_Weight src key x = Ok r → 0 ≤ r.
End wiring.

Section wiring_laws.
Context `{HostLaws, !ShieldedKeeper, !StakingView}.

(** The dex's handler moves the coins it resolves, and nothing else of this module's. *)
Lemma LPRewardsHandler_takes acc (w : World) r w' :
  LPRewardsHandler acc w = Ok (r, w') → 0 ≤ r →
  GetBalance (w_bank w) alloc_addr hub_denom - r ≤ GetBalance (w_bank w') alloc_addr hub_denom ∧ w_nanos w' = w_nanos w.
Proof.
  unfold LPRewardsHandler. intros Hr Hge. apply bind_ok in Hr as (res & w1 & Hd & Hr).
  apply bind_ok in Hr as ([] & w2 & Hpay & [= -> ->]%ret_ok).
  assert (w_bank w1 = w_bank w ∧ w_nanos w1 = w_nanos w) as [<- <-].
  { unfold DistributeLPRewards, getLpTotalVolume, getLpRewardIndex, getPendingLpRewards in Hd. run_inv; done. }
  clear Hd. unfold PayOutToModule, HubDenom in Hpay. destruct (Z.ltb_spec 0 res) as [Hpos|Hz]; cbn [negb] in Hpay.
  2:{ apply ret_ok in Hpay as [= ->]. split; [lia|done]. }
  apply bind_ok in Hpay as (hub & w3 & [Hhub ->]%lift_ok & Hpay). rewrite host_bond_denom in Hhub. injection Hhub as <-.
  apply bind_ok in Hpay as (c & w3 & [[-> _]%NewCoin_spec ->]%lift_ok & Hpay).
  apply bind_ok in Hpay as (cs & w3 & [[Hcs _]%NewCoins_spec ->]%lift_ok & Hpay).
  apply bank_ok in Hpay as (b & [Hm _]%SendM2M_spec & ->). split; [|done]. change (w_bank (set_w_bank b _)) with b.
  rewrite Hm, Hcs, AmountOf_cons, AmountOf_nil, !bd_some. fold alloc_addr. cbn [Denom Amount].
  rewrite !bool_decide_eq_true_2 by done. case_bool_decide; lia.
Qed.

Section laws.
Variable FundCommunityPool : Coins → bytes → prog ext ().
Hypothesis Hfund : funds_pool FundCommunityPool.

Lemma fund_takes amount x u x' :
  ResidueSink FundCommunityPool amount x = Ok (u, x') →
  GetBalance (w_bank (fst x)) alloc_addr hub_denom - amount ≤ GetBalance (w_bank (fst x')) alloc_addr hub_denom ∧
  w_nanos (fst x') = w_nanos (fst x).
Proof.
  unfold ResidueSink. intros Hr. apply hub_coins_ok in Hr as (cs & Hcs & _ & Hwf & Hr).
  destruct (Hfund _ _ _ _ _ Hwf Hr) as [Hb Hn]. specialize (Hb hub_denom). rewrite Hcs, bool_decide_eq_true_2 in Hb by done.
  split; [lia|done].
Qed.

Lemma CommunityPoolHandler_takes acc x r x' :
  CommunityPoolHandler FundCommunityPool acc x = Ok (r, x') → 0 ≤ r →
  GetBalance (w_bank (fst x)) alloc_addr hub_denom - r ≤ GetBalance (w_bank (fst x')) alloc_addr hub_denom ∧
  w_nanos (fst x') = w_nanos (fst x).
Proof.
  unfold CommunityPoolHandler. destruct (Z.ltb_spec 0 acc); cbn [negb]; intros Hr Hge.
  - apply hub_coins_ok in Hr as (cs & Hcs & _ & Hwf & Hr). apply bind_ok in Hr as (u & x1 & Hr & [= -> ->]%ret_ok).
    destruct (Hfund _ _ _ _ _ Hwf Hr) as [Hb Hn]. specialize (Hb hub_denom). rewrite Hcs, bool_decide_eq_true_2 in Hb by done.
    split; [lia|done].
  - apply ret_ok in Hr as [= -> ->]. split; [lia|done].
Qed.

Lemma app_laws authority chamber sources :
  weights_nonneg sources → @AllocEnvLaws _ _ _ (app_env FundCommunityPool authority chamber sources).
Proof.
  intros Hw. split; cbn.
  - exact Hw.
  - intros name h acc x r x' Hh Hr Hrange. unfold app_handlers in Hh.
    apply lookup_insert_Some in Hh as [[<- <-]|[_ Hh]].
    { cbn in Hr. apply in_world_ok in Hr as (w' & Hr & ->). apply LPRewardsHandler_takes in Hr as [? ?]; [done|lia]. }
    apply lookup_insert_Some in Hh as [[<- <-]|[_ Hh]].
    { cbn in Hr. apply ret_ok in Hr as [= -> ->]. split; [lia|done]. }
    apply lookup_singleton_Some in Hh as [<- <-]. cbn in Hr. apply CommunityPoolHandler_takes in Hr; [done|lia].
  - intros sink amount x u x' [= <-] Hr. by eapply fund_takes.
Qed.
End laws.
End wiring_laws.
