(* ===== verification/AllocProperties.v ===== *)
(** * x/allocation: the properties

    Votes and weights in every reachable state, the end of a block on the chain as it is wired, the emission of a stream,
    one vote, one claim, the sweep of ended leases and the removal of dead options. *)

From S2P Require Export AllocChain.

(** ** Helpers *)
Section helpers.
Context `{HostLaws, !ShieldedKeeper, !StakingView, !AllocEnv}.
Implicit Types (w : AllocWorld) (s : AllocStore) (st id : Z).

(** How far an advance settles is read off the queue of leases and the clock. *)
Lemma heldTarget_frame st now w w' r : 
  l_VoterLapses (a_store w') = l_VoterLapses (a_store w) → heldTarget st now w = Ok (r, w) → heldTarget st now w' = Ok (r, w').
Proof.
  unfold heldTarget, nextLapse. intros E Hr. apply bind_ok in Hr as (nx & w1 & [-> ->]%get_alloc_ok & [= ->]%ret_ok).
  rewrite <-E. apply bind_ok. do 2 eexists. split; [reflexivity|done].
Qed.

(** Advancing again in the same block moves nothing. *)
Lemma AdvanceIndex_again st w w1 w2 w3 :
  alloc_inv w → AdvanceIndex st w = Ok ((), w1) → alloc_inv w2 → same_index w1 w2 → AdvanceIndex st w2 = Ok ((), w3) →
  idx_of (a_store w3) st = idx_of (a_store w2) st ∧ l_Options (a_store w3) = l_Options (a_store w2) ∧
  (∀ a d, GetBalance (w_bank (a_world w3)) a d = GetBalance (w_bank (a_world w2)) a d).
Proof.
  intros Hi H1' Hi2 (_ & Hup & Hlap & Hnan) H2'. unfold AdvanceIndex, advanceIndexTo in H1', H2'.
  apply bind_ok in H1' as (now & wt & [-> ->]%alloc_nanos_ok & H1'). apply bind_ok in H2' as (now & wt & [-> ->]%alloc_nanos_ok & H2').
  apply bind_ok in H1' as (last & wt & [-> ->]%getLastUpkeep_ok & H1'). apply bind_ok in H2' as (last & wt & [-> ->]%getLastUpkeep_ok & H2').
  apply bind_ok in H1' as (n1 & wt & Hn1 & H1'). assert (wt = w ∧ 0 ≤ n1 ≤ w_nanos (a_world w)) as [-> Hr1].
  { destruct (upkeep_of (a_store w) st =? 0); [apply ret_ok in Hn1 as [= -> ->]; split; [done|split; [apply Hi|lia]]|].
    apply heldTarget_ok in Hn1 as (-> & ? & _); [done|apply Hi|apply Hi]. }
  apply settleTo_inv in H1' as [_ Hs1]; [|done|split; [lia|]; pose proof (ai_clock _ Hi); lia].
  pose proof (settled_frame _ _ _ _ Hs1) as (_ & _ & _ & _ & El & _ & _ & _ & _ & En). rewrite Hnan, En in H2'.
  assert (Eup : upkeep_of (a_store w2) st = upkeep_of (a_store w1) st) by (unfold upkeep_of; by rewrite Hup).
  apply bind_ok in H2' as (n2 & wt & Hn2 & H2').
  assert (wt = w2 ∧ 0 ≤ n2 ≤ w_nanos (a_world w)) as [-> Hr2].
  { destruct (upkeep_of (a_store w2) st =? 0); [apply ret_ok in Hn2 as [= -> ->]; split; [done|split; [apply Hi|lia]]|].
    apply heldTarget_ok in Hn2 as (-> & ? & _); [done|apply Hi2|apply Hi]. }
  apply settleTo_inv in H2' as [_ Hs2]; [|done|split; [lia|]; pose proof (ai_clock _ Hi); lia].
  assert (stream_emission (a_store w2) st n2 = 0) as Ez.
  { unfold stream_emission, emission_between. destruct (0 <? _); [|done].
    destruct (Z.eqb_spec (upkeep_of (a_store w2) st) 0) as [|Hne]; [done|]. cbn [orb].
    assert (n2 ≤ upkeep_of (a_store w2) st) as Hle; [|by rewrite (proj2 (Z.leb_le _ _) Hle)].
    rewrite Eup, (st_upkeep _ _ _ _ Hs1), Z.eqb_refl in *. cbn [andb] in *.
    destruct (Z.eqb_spec (upkeep_of (a_store w) st) 0) as [E0|E0]; cbn [negb andb] in *.
    - apply ret_ok in Hn1 as [= ->]. lia.
    - apply (heldTarget_frame _ _ _ w2) in Hn1; [|by rewrite Hlap, El].
      destruct (Z.leb_spec n1 (upkeep_of (a_store w) st)); cbn [negb] in *; congruence || (assert (n2 = n1) by congruence; lia). }
  split; [|split].
  - rewrite (st_idx _ _ _ _ Hs2), Ez, Z.eqb_refl, Z.mul_0_l, Zdiv_0_l. lia.
  - by destruct (settled_frame _ _ _ _ Hs2) as (_ & -> & _).
  - intros a d. rewrite (st_balance _ _ _ _ Hs2), Ez. case_bool_decide; lia.
Qed.

(** An accepted split is stored whole. *)
Lemma existing_all s s' st ps :
  split_ok s st ps → l_Options s' = l_Options s → existing s' st ps = ps.
Proof.
  intros [_ _ He _ _] E. unfold existing. rewrite E. clear -He. induction He as [|p ps (_ & o & Ho & _) _ IH]; [done|].
  rewrite filter_cons, decide_True by by exists o. by rewrite IH.
Qed.
End helpers.

(** ** Properties *)
Section properties.
Context `{HostLaws, !ShieldedKeeper, !StakingView, !AllocEnv}.
Implicit Types (w : AllocWorld) (s : AllocStore) (st id : Z).

(** C4: Votes count exactly: in every state reachable from a good one by messages, calls of other modules, staking hooks
    and blocks, each option that is not struck carries the weight the stream's current voters put on it and a struck one
    nothing; a stream's total weight and its running sum are the sum over its options; what the options have accrued is
    the running figure; and the account covers what is accrued, what is not settled yet and the residue together. *)
Theorem votes_carried_exactly `{!AllocEnvLaws} w w' :
  alloc_inv w → alloc_reachable w w' →
  (∀ st id o, l_Options (a_store w') !! (st, id) = Some o →
     op_AmountAllocated o = (if op_Removed o then 0 else live (a_store w') st id) ∧ 0 ≤ op_AmountAllocated o) ∧
  (∀ st, total_of (a_store w') st = weight_sum (a_store w') st ∧ summed_of (a_store w') st = weight_sum (a_store w') st) ∧
  default 0 (l_SummedAccrued (a_store w')) = accrued_sum (a_store w') ∧
  indexPrecision * (accrued_sum (a_store w') + residue_of (a_store w')) + unsettled_sum (a_store w')
    ≤ indexPrecision * GetBalance (w_bank (a_world w')) alloc_addr hub_denom.
Proof.
  intros Hi Hr. pose proof (alloc_reachable_inv _ _ Hr Hi) as [Hs _ _ Hf]. split; [|split; [|split; [|exact Hf]]].
  - intros st id o Ho. by destruct (oi_option _ _ (si_options _ Hs) _ _ _ Ho).
  - intros st. split; [apply (si_total _ Hs)|apply (oi_summed _ _ (si_options _ Hs))].
  - apply (oi_accrued _ _ (si_options _ Hs)).
Qed.

(** C9: Settling a stream up to a time mints exactly the emission of the interval to the module's account (nothing on the
    first settlement, when the clock has not moved, or when nobody votes), never more than the rate; it raises that
    stream's index alone, by the emission over the total weight, and what the options can now collect, in whatever order
    they settle, stays covered. *)
Theorem settlement_mints_exactly st now w w' :
  alloc_inv w → 0 ≤ now < 2 ^ 63 → settleTo st now w = Ok ((), w') →
  let minted := stream_emission (a_store w) st now in
  0 ≤ minted ∧ minted * 10 ^ 9 ≤ EmissionPerSecond * Z.max 0 (now - upkeep_of (a_store w) st) ∧
  (∀ d, GetSupply (w_bank (a_world w')) d = GetSupply (w_bank (a_world w)) d + if bool_decide (d = hub_denom) then minted else 0) ∧
  (∀ a d, GetBalance (w_bank (a_world w')) a d = GetBalance (w_bank (a_world w)) a d
     + if bool_decide (a = alloc_addr ∧ d = hub_denom) then minted else 0) ∧
  (∀ a, idx_of (a_store w') a =
     idx_of (a_store w) a + if a =? st then minted * indexPrecision / total_of (a_store w) st else 0) ∧
  (upkeep_of (a_store w) st ≤ now → upkeep_of (a_store w') st = now) ∧
  owed_units (a_store w') ≤ indexPrecision * GetBalance (w_bank (a_world w')) alloc_addr hub_denom.
Proof.
  intros Hi Hn Hr minted. apply settleTo_inv in Hr as [Hi' Hs]; [|done|done].
  assert (0 ≤ minted ∧ minted * 10 ^ 9 ≤ EmissionPerSecond * Z.max 0 (now - upkeep_of (a_store w) st)) as [Hge Hle].
  { unfold minted, stream_emission, emission_between, EmissionPerSecond, EmissionPerSecondPerPillar. destruct (0 <? _); [|lia].
    destruct (_ || _) eqn:E; [lia|]. apply orb_false_iff in E as [_ E%Z.leb_gt].
    pose proof (div_mul_bounds (1000000 * (now - upkeep_of (a_store w) st)) (10 ^ 9) ltac:(done)).
    split; [apply Z.div_pos; lia|]. rewrite Z.max_r by lia. lia. }
  split; [done|]. split; [done|]. split; [apply (st_supply _ _ _ _ Hs)|]. split; [apply (st_balance _ _ _ _ Hs)|].
  split; [apply (st_idx _ _ _ _ Hs)|]. split; [|apply (ai_funded _ Hi')].
  intros Hup. rewrite (st_upkeep _ _ _ _ Hs), Z.eqb_refl. cbn [andb].
  destruct (Z.eqb_spec (upkeep_of (a_store w) st) 0), (Z.leb_spec now (upkeep_of (a_store w) st)); cbn; lia.
Qed.

(** C10: A vote moves exactly its voter's weight: it is accepted only if its percentages are positive, name distinct options
    on file and sum to 100 (or it is empty), with weight behind it, the weight [r] that the stream's source gives the voter
    at that moment; each option of the stream then has what it had, less what the voter's old vote put on it, plus that weight
    times the new percentage; the vote is filed with that weight; no other vote changes; an empty vote removes the record,
    and a Groundworks vote lapses one lease length from now. *)
Theorem vote_moves_exactly st key ps w r w' :
  alloc_inv w → typed_split ps → ApplySplit st key ps w = Ok (r, w') →
  split_ok (a_store w) st ps ∧ (ps ≠ [] → 0 < r) ∧
  (∃ src, weightSources !! st = Some src ∧ ws_Weight src key (a_ext w) = Ok r) ∧
  (∀ a id, live (a_store w') a id =
     live (a_store w) a id + if a =? st then on (split_amounts ps r) id - carried (a_store w) st id key else 0) ∧
  (∀ id o, l_Options (a_store w') !! (st, id) = Some o → op_Removed o = false → op_AmountAllocated o = live (a_store w') st id) ∧
  (∀ a k, (a, k) ≠ (st, key) → l_Voters (a_store w') !! (a, k) = l_Voters (a_store w) !! (a, k)) ∧
  (ps = [] → l_Voters (a_store w') !! (st, key) = None) ∧
  (ps ≠ [] → ∃ v, l_Voters (a_store w') !! (st, key) = Some v ∧ vt_Percentages v = ps ∧ vt_Weight v = r) ∧
  (ps ≠ [] → st = STREAM_ID_GROUNDWORKS → ∃ v, l_Voters (a_store w') !! (st, key) = Some v ∧
     vt_Percentages v = ps ∧ vt_ExpiresAt v = lease_end w ∧ (lease_end w, st, key) ∈ l_VoterLapses (a_store w')).
Proof.
  intros Hi Ht Hr. pose proof (ApplySplit_weight _ _ _ _ _ _ Ht Hr) as Hwt. apply ApplySplit_ok in Hr as (Hi' & Hs & Hpos & w1 & n & ex & keep & Hset & _ & _ & Eex & Ek & Hvw); [|done..].
  destruct (settled_frame _ _ _ _ Hset) as (Fv & Fo & Fe & _ & _ & _ & _). rewrite (existing_all _ _ _ _ Hs Fo) in Ek, Hvw.
  assert (keep = negb (bool_decide (ps = []))) as ->.
  { rewrite Ek. case_bool_decide as E; [done|]. specialize (Hpos E). destruct (Z.ltb_spec 0 r); [done|lia]. }
  clear Ek. destruct Hvw. rewrite Fv in vw_voters. assert (∀ a, epoch_of (a_store w1) a = epoch_of (a_store w) a) as Fe' by (intros; unfold epoch_of; by rewrite Fe).
  split; [done|]. split; [done|]. split; [exact Hwt|]. split; [|split; [|split; [|split; [|split]]]].
  - intros a id. case_bool_decide as E; cbn [negb] in vw_voters.
    + rewrite (live_delete (a_store w) _ st key) by (done || by rewrite vw_epoch, Fe). rewrite E. cbn. destruct (a =? st); lia.
    + rewrite (live_insert (a_store w) _ st key _ a id vw_voters); [|by rewrite vw_epoch, Fe|exact (Fe' st)].
      by change (contributions (stored _ _ _ _)) with (split_amounts ps r).
  - intros id o Ho Hrem. pose proof (oi_option _ _ vw_options _ _ _ Ho) as []. by rewrite oo_amount, Hrem.
  - intros a k Hne. rewrite vw_voters. case_bool_decide; cbn [negb]; [by apply lookup_delete_ne|by apply lookup_insert_ne].
  - intros E. rewrite vw_voters, bool_decide_eq_true_2 by done. apply lookup_delete_eq.
  - intros E. rewrite vw_voters, bool_decide_eq_false_2 by done. cbn [negb]. eexists. split; [apply lookup_insert_eq|]. done.
  - intros E Est. rewrite vw_voters, bool_decide_eq_false_2 by done. cbn [negb]. eexists. split; [apply lookup_insert_eq|].
    assert (ex = lease_end w) as -> by (by rewrite Eex, Est, bool_decide_eq_false_2).
    assert (0 < lease_end w) as Hlease.
    { unfold lease_end. pose proof (lease_seconds_bounds _ (ai_store _ Hi)). pose proof (unix_bounds _ Hi). lia. }
    assert (vt_ExpiresAt (stored (a_store w1) st key (mkVoter ps r 0 [] (lease_end w))) = lease_end w) as Ev.
    { cbn [vt_ExpiresAt stored]. rewrite (proj2 (Z.eqb_neq (lease_end w) 0)) by lia. by destruct (l_Voters (a_store w1) !! _). }
    split; [done|]. split; [exact Ev|]. rewrite vw_lapses. unfold lapses_after. rewrite Ev, bool_decide_eq_false_2 by done.
    rewrite (proj2 (Z.eqb_neq (lease_end w) 0)) by lia. set_solver.
Qed.

(** C11: A claim pays once: it is made by the option's claimer if it names one, pays the recipient on file exactly what the
    option had accrued and earned up to now, out of the module's account, and leaves the option empty; a second claim of
    the option in the same block pays nothing and moves no coin. *)
Theorem claim_pays_once msg again w w' w'' amount amount' :
  alloc_inv w → ClaimAllocation msg w = Ok (amount, w') → 
  ca_Stream again = ca_Stream msg → ca_OptionId again = ca_OptionId msg → ClaimAllocation again w' = Ok (amount', w'') →
  claimed msg amount w w' ∧ amount' = 0 ∧
  ∀ a d, GetBalance (w_bank (a_world w'')) a d = GetBalance (w_bank (a_world w')) a d.
Proof.
  intros Hi Hc Est Eid Hc2. destruct (ClaimAllocation_ok _ _ _ _ Hi Hc) as [Hi' Hcl].
  destruct (ClaimAllocation_ok _ _ _ _ Hi' Hc2) as [_ (o2 & w2 & n2 & Ho2 & _ & _ & Hadv2 & _ & _ & _ & Eam2 & _ & Hpay2 & _)].
  split; [done|]. destruct Hcl as (o & w1 & n & _ & _ & _ & Hadv & _ & Hsame & _ & _ & _ & _ & Hop). rewrite Est in *. rewrite Eid in *.
  destruct (AdvanceIndex_again _ _ _ _ _ Hi Hadv Hi' Hsame Hadv2) as (Hidx & _ & Hbal).
  rewrite Hop, lookup_insert_eq in Ho2. injection Ho2 as <-.
  assert (amount' = 0) as E.
  { rewrite Eam2. cbn. unfold unsettled. cbn. destruct Hsame as (Eri & _). unfold idx_of in *. rewrite Hidx, Eri, Z.sub_diag, Z.mul_0_r. done. }
  split; [done|]. intros a d. destruct Hpay2 as [[_ ->]|(to & _ & Hb)].
  - apply Hbal.
  - rewrite Hb, E, Hbal. repeat case_bool_decide; lia.
Qed.

(** C12: The sweep of ended leases comes to an end by itself: with any fuel above the number of queued leases its loop does
    not run out, and more fuel gives the same result; the sweep returns, and then no lease of the stream that has ended is
    left in the queue and the clock and the invariant stand; the one thing that can stop it is settling the stream, at a
    time that has passed, and then it fails exactly as that does: a lease that cannot be retired never stops it. *)
Theorem lapse_sweep_terminates st fuel prev w :
  alloc_inv w → (size (l_VoterLapses (a_store w)) < fuel)%nat →
  (∀ w', sweep_lapses fuel st (unix (a_world w)) prev w ≠ Ok (false, w')) ∧
  sweep_lapses fuel st (unix (a_world w)) prev w = sweep_lapses (S (size (l_VoterLapses (a_store w)))) st (unix (a_world w)) prev w ∧
  ((∃ w', SweepLapses st w = Ok ((), w') ∧ alloc_inv w' ∧ w_nanos (a_world w') = w_nanos (a_world w) ∧
      ∀ t k, (t, st, k) ∈ l_VoterLapses (a_store w') → unix (a_world w') < t) ∨
   ∃ t w1, alloc_inv w1 ∧ w_nanos (a_world w1) = w_nanos (a_world w) ∧ 0 ≤ t ≤ w_nanos (a_world w) ∧
     failed_as (settleTo st t w1) (SweepLapses st w)).
Proof.
  intros Hi Hf. pose proof (due_size (a_store w) st (unix (a_world w))) as Hd. split; [|split].
  - intros w' Hr. apply sweep_lapses_ok in Hr as (_ & _ & _ & Hb); [|done]. by specialize (Hb ltac:(lia)).
  - apply sweep_lapses_fuel; [done|lia|lia].
  - destruct (SweepLapses_total st w Hi) as [(w' & Hr)|Hfail]; [left|right; exact Hfail]. exists w'. split; [done|].
    apply SweepLapses_ok in Hr as (Hi' & Hn & Hdue); [|done]. split; [done|]. split; [done|].
    intros t k He. unfold unix. rewrite Hn. by apply (Hdue _ He).
Qed.

(** C13: The removal of dead options never fails and takes only dead ones: the sweep returns whatever fails in it, removes at
    most its limit, each an option that was struck, or an address option with no weight, and whose grace had run out, and
    leaves every other option as it was. *)
Theorem prune_takes_only_dead w :
  alloc_inv w → ∃ w' es, SweepPrunableOptions w = Ok ((), w') ∧ alloc_inv w' ∧ (length es ≤ OptionPruneSweepLimit)%nat ∧
    (∀ e, e ∈ es → e ∈ l_PruneQueue (a_store w) ∧ e.1.1 ≤ unix (a_world w)) ∧
    (∀ kk, (∀ e, e ∈ es → kk ≠ (e.1.2, e.2)) → l_Options (a_store w') !! kk = l_Options (a_store w) !! kk) ∧
    (∀ kk o, l_Options (a_store w) !! kk = Some o → l_Options (a_store w') !! kk ≠ Some o →
       l_Options (a_store w') !! kk = None ∧ prunable o = true ∧ op_AmountAllocated o = 0).
Proof.
  intros Hi. destruct (SweepPrunableOptions_ok w Hi) as (w' & es & Hr & Hi' & _ & Hp & Hlen & Hin).
  exists w', es. split; [done|]. split; [done|]. split; [done|]. split; [done|]. split.
  - intros kk Hne. destruct (Hp kk) as [?|(_ & o & e & _ & _ & He & ->)]; [done|]. by destruct (Hne e He).
  - intros [st id] o Ho Hdiff. destruct (Hp (st, id)) as [E|(E & p & e & Hpo & Hpr & _ & _)]; [congruence|].
    assert (p = o) as -> by congruence. split; [done|]. split; [done|]. eapply (prunable_amount w); [by apply inv_sound|exact Ho|done].
Qed.
End properties.

(** ** The chain as it is wired *)
Section wired.
Context `{HostLaws, !ShieldedKeeper, !StakingView}.
Variables (FundCommunityPool : Coins → bytes → prog ext ()) (authority chamber : bytes) (sources : gmap Z WeightSource).
#[local] Instance wired : AllocEnv := app_env FundCommunityPool authority chamber sources.

(** C5: Blocks never halt over x/allocation: on the chain as the app wires it (x/dex's rewards handler, the registration
    rewards, the community pool and the residue's sink), in every state reachable from a good one the module's EndBlock
    returns, its solvency and weight checks included, and the exhaustive check over all options passes. *)
Theorem wired_checks_never_fire w w' :
  funds_pool FundCommunityPool → weights_nonneg sources → alloc_inv w → alloc_reachable w w' →
  (∃ w'', alloc_EndBlock w' = Ok ((), w'') ∧ alloc_AssertInvariants w'' = Ok ((), w'')) ∧
  alloc_AssertHotInvariants w' = Ok ((), w') ∧ alloc_AssertInvariants w' = Ok ((), w').
Proof.
  intros Hf Hw Hi Hr. pose proof (app_laws FundCommunityPool Hf authority chamber sources Hw) as Hlaws.
  pose proof (alloc_reachable_inv _ _ Hr Hi) as Hi'. destruct (alloc_EndBlock_ok w' Hi') as (w'' & Hb & Hi'').
  split; [exists w''; split; [done|by apply alloc_AssertInvariants_ok]|].
  split; [by apply AssertHotInvariants_ok|by apply alloc_AssertInvariants_ok].
Qed.
End wired.
