(* ===== verification/DexGenesis.v ===== *)
(** * x/dex: genesis

    [x/dex/types/genesis.go] and [x/dex/keeper/genesis.go].  A [math.Int] that a genesis file leaves out is nil, and the code
    tells nil from zero: here, and only here, such a field is an [option].  A nil that [Validate] refuses never reaches a
    record ([InitGenesis] validates first), so the records take the value. *)

From S2P Require Export DexEndBlock ShieldedBundle.

(** ** genesis.proto and the records as a file has them *)
Record GenesisCoin := mkGenesisCoin { gc_Denom : string; gc_Amount : option Z }.

Record GenesisPool := mkGenesisPool {
  gp_PoolId : Z; gp_ReserveErth : GenesisCoin; gp_ReserveToken : GenesisCoin;
  gp_VolumeWeight : option Z; gp_LastTradedDay : Z;
}.
Record GenesisUnbonding := mkGenesisUnbonding {
  gu_Address : string; gu_PoolId : Z; gu_Shares : GenesisCoin; gu_CompletionTime : Z;
  gu_Pc : bytes; gu_Ciphertext : bytes; gu_ErthPc : bytes; gu_ErthCiphertext : bytes;
  gu_WithdrawalId : bytes; gu_PayoutAttempts : Z;
}.
Record GenesisAuction := mkGenesisAuction {
  ga_Status : AuctionStatus; ga_BidDenom : string; ga_EndTime : Z;
  ga_ErthForBidders : GenesisCoin; ga_ErthForPool : GenesisCoin;
  ga_TotalRaised : option Z; ga_PoolId : Z; ga_Claimed : option Z;
}.
Record GenesisBid := mkGenesisBid { gb_Bidder : string; gb_Amount : option Z; gb_Claimed : bool }.
Record GenesisPolBurn := mkGenesisPolBurn {
  gl_PoolId : Z; gl_TotalShares : option Z; gl_SharesRemaining : option Z;
  gl_StartTime : Z; gl_DurationSeconds : Z; gl_BurnToken : bool;
}.
Record PoolStaleDue := mkPoolStaleDue { sd_pool : Z; sd_due : Z }.
Record PriceAccumulator := mkPriceAccumulator { pa_PoolId : Z; pa_Cumulative : option Z; pa_ObservedAt : Z }.

Record DexGenesis := mkDexGenesis {
  dg_Params : DexTypes.Params;
  dg_PoolMap : list GenesisPool;
  dg_LpUnbondings : list GenesisUnbonding;
  dg_LiquidityAuction : option GenesisAuction;
  dg_AuctionBids : list GenesisBid;
  dg_PolBurns : list GenesisPolBurn;
  dg_PendingLpRewards : option Z;
  dg_VolumeIndex : option Z;
  dg_VolumeIndexDay : Z;
  dg_PoolStaleDue : list PoolStaleDue;
  dg_PriceAccumulators : list PriceAccumulator;
}.

Section dex_genesis.
Context `{Host, !ShieldedKeeper}.

(** ** types/genesis.go: Validate *)

(** A reserve that is nil, negative or past the cap. *)
Definition reserve_bad (c : GenesisCoin) : bool :=
  match gc_Amount c with None => true | Some a => (a <? 0) || negb (WithinPoolCap a) end.

Fixpoint validate_pools (ids : gset Z) (tokens : gset string) (hubDenom : string) (l : list GenesisPool) : outcome (gset Z) :=
  match l with
  | [] => mret ids
  | p :: l =>
      _ ← refuse (bool_decide (gp_PoolId p ∈ ids)) (Plain "duplicated index for pool");
      _ ← refuse (IsLPShareDenom (gc_Denom (gp_ReserveToken p))) (Plain "an lp share denom cannot be a pool asset");
      _ ← refuse (IsLPShareDenom (gc_Denom (gp_ReserveErth p))) (Plain "an lp share denom cannot be a pool asset");
      _ ← refuse (reserve_bad (gp_ReserveErth p)) (Plain "reserve_erth is out of range");
      _ ← refuse (reserve_bad (gp_ReserveToken p)) (Plain "reserve_token is out of range");
      _ ← refuse (bool_decide (gc_Denom (gp_ReserveToken p) ∈ tokens)) (Plain "two pools trade one token");
      let hubDenom := if bool_decide (hubDenom = "") then gc_Denom (gp_ReserveErth p) else hubDenom in
      _ ← refuse (negb (bool_decide (gc_Denom (gp_ReserveErth p) = hubDenom))) (Plain "other pools use another hub");
      _ ← refuse (bool_decide (gc_Denom (gp_ReserveToken p) = hubDenom)) (Plain "pairs the hub with itself");
      _ ← refuse (match gp_VolumeWeight p with None => false | Some v => v <? 0 end) (Plain "volume_weight is negative");
      validate_pools ({[gp_PoolId p]} ∪ ids) ({[gc_Denom (gp_ReserveToken p)]} ∪ tokens) hubDenom l
  end.

(** An earmark that is nil, invalid or zero. *)
Definition earmark_bad (c : GenesisCoin) : bool :=
  match gc_Amount c with None => true | Some a => negb (CoinIsValid (mkCoin (gc_Denom c) a)) || (a =? 0) end.

Definition validate_auction (auction : option GenesisAuction) : outcome () :=
  match auction with
  | None => mret ()
  | Some a =>
      _ ← refuse (earmark_bad (ga_ErthForBidders a)) (Plain "erth_for_bidders must be a positive coin");
      _ ← refuse (earmark_bad (ga_ErthForPool a)) (Plain "erth_for_pool must be a positive coin");
      _ ← refuse (negb (bool_decide (gc_Denom (ga_ErthForBidders a) = gc_Denom (ga_ErthForPool a))))
            (Plain "both earmarks must be the hub denom");
      _ ← refuse (negb (bool_decide (gc_Amount (ga_ErthForBidders a) = gc_Amount (ga_ErthForPool a))))
            (Plain "earmarks must be equal");
      refuse (bool_decide (ga_Status a = AUCTION_STATUS_OPEN) && bool_decide (ga_BidDenom a = ""))
        (Plain "an open auction needs a bid denom")
  end.

(** The bids' total. *)
Fixpoint validate_bids (settled : bool) (seen : gset string) (bidTotal : Z) (l : list GenesisBid) : outcome Z :=
  match l with
  | [] => mret bidTotal
  | b :: l =>
      _ ← refuse (bool_decide (ToLower (gb_Bidder b) ∈ seen)) (Plain "duplicated auction bid");
      _ ← refuse (negb (0 <? default 0 (gb_Amount b))) (Plain "auction bid must be positive");
      bidTotal ← IntAdd bidTotal (default 0 (gb_Amount b));
      _ ← refuse (gb_Claimed b && negb settled) (Plain "claimed but the auction has not settled");
      validate_bids settled ({[ToLower (gb_Bidder b)]} ∪ seen) bidTotal l
  end.

Definition auction_settled (auction : option GenesisAuction) : bool :=
  match auction with Some a => bool_decide (ga_Status a = AUCTION_STATUS_SETTLED) | None => false end.

Definition validate_raised (auction : option GenesisAuction) (bidTotal : Z) (bids : list GenesisBid) : outcome () :=
  match auction with
  | Some a =>
      _ ← refuse (negb (bidTotal =? default 0 (ga_TotalRaised a))) (Plain "bids do not sum to total_raised");
      refuse (match ga_Claimed a with
              | None => false
              | Some c => (c <? 0) || (default 0 (gc_Amount (ga_ErthForBidders a)) <? c)
              end) (Plain "claimed is outside the bidders' earmark")
  | None => refuse (negb (length bids =? 0)%nat) (Plain "auction bids with no liquidity auction")
  end.

Fixpoint validate_pol_burns (ids polSeen : gset Z) (l : list GenesisPolBurn) : outcome () :=
  match l with
  | [] => mret ()
  | b :: l =>
      _ ← refuse (negb (bool_decide (gl_PoolId b ∈ ids))) (Plain "pol burn: no pool");
      _ ← refuse (bool_decide (gl_PoolId b ∈ polSeen)) (Plain "duplicated pol burn");
      _ ← refuse (negb (0 <? default 0 (gl_TotalShares b))) (Plain "total_shares must be positive");
      _ ← refuse (match gl_SharesRemaining b with
                  | None => false
                  | Some r => (r <? 0) || (default 0 (gl_TotalShares b) <? r)
                  end) (Plain "shares_remaining is not within total_shares");
      _ ← refuse (gl_DurationSeconds b <=? 0) (Plain "duration_seconds must be positive");
      _ ← refuse (gl_StartTime b <? 0) (Plain "start_time must not be negative");
      validate_pol_burns ids ({[gl_PoolId b]} ∪ polSeen) l
  end.

(** The text [%d/%d/%s/%x] of an entry's key determines its parts. *)
Definition unbond_name (u : GenesisUnbonding) : Z * Z * string * bytes :=
  (gu_CompletionTime u, gu_PoolId u, ToLower (gu_Address u), gu_WithdrawalId u).

Definition validate_unbonding_notes (u : GenesisUnbonding) : outcome () :=
  _ ← (if bool_decide (gu_Pc u = []) then mret ()
       else
         _ ← FieldFromBytes (gu_Pc u);
         CheckBlindCiphertext (gu_Ciphertext u));
  if bool_decide (gu_Address u = "") then
    _ ← refuse (negb (length (gu_WithdrawalId u) =? 33)%nat || negb (bool_decide (head (gu_WithdrawalId u) = Some 0)))
          (Plain "withdrawal_id must be 0x00 || 32 bytes");
    _ ← FieldFromBytes (gu_ErthPc u);
    _ ← CheckBlindCiphertext (gu_ErthCiphertext u);
    refuse (bool_decide (gu_Pc u = [])) (Plain "no pc for the token leg")
  else
    refuse (negb (bool_decide (gu_WithdrawalId u = [])) || negb (bool_decide (gu_ErthPc u = [])) ||
            negb (bool_decide (gu_ErthCiphertext u = []))) (Plain "an account's withdrawal carries no withdrawal_id or erth_pc").

Fixpoint validate_unbondings (ids : gset Z) (unbondSeen : gset (Z * Z * string * bytes)) (l : list GenesisUnbonding) : outcome () :=
  match l with
  | [] => mret ()
  | u :: l =>
      _ ← refuse (negb (bool_decide (gu_PoolId u ∈ ids))) (Plain "lp unbonding: no pool");
      _ ← refuse (bool_decide (unbond_name u ∈ unbondSeen)) (Plain "duplicated lp unbonding");
      _ ← refuse (negb (0 <? default 0 (gc_Amount (gu_Shares u)))) (Plain "shares must be positive");
      _ ← refuse (negb (bool_decide (gc_Denom (gu_Shares u) = LPShareDenom (gu_PoolId u)))) (Plain "shares are another pool's");
      _ ← refuse (gu_CompletionTime u <? 0) (Plain "completion_time must not be negative");
      _ ← validate_unbonding_notes u;
      validate_unbondings ids ({[unbond_name u]} ∪ unbondSeen) l
  end.

Fixpoint validate_stale (pools stale : gset Z) (l : list PoolStaleDue) : outcome () :=
  match l with
  | [] => mret ()
  | d :: l =>
      _ ← refuse (negb (bool_decide (sd_pool d ∈ pools))) (Plain "pool_stale_due names a pool which does not exist");
      _ ← refuse (bool_decide (sd_pool d ∈ stale)) (Plain "pool_stale_due names a pool twice");
      validate_stale pools ({[sd_pool d]} ∪ stale) l
  end.

Fixpoint validate_accumulators (pools acc : gset Z) (l : list PriceAccumulator) : outcome () :=
  match l with
  | [] => mret ()
  | a :: l =>
      _ ← refuse (negb (bool_decide (pa_PoolId a ∈ pools))) (Plain "price_accumulators names a pool which does not exist");
      _ ← refuse (bool_decide (pa_PoolId a ∈ acc)) (Plain "price_accumulators names a pool twice");
      _ ← refuse (match pa_Cumulative a with None => true | Some c => c <? 0 end || (pa_ObservedAt a <? 0))
            (Plain "price_accumulators: out of range");
      validate_accumulators pools ({[pa_PoolId a]} ∪ acc) l
  end.

Definition negative (x : option Z) : bool := match x with None => false | Some v => v <? 0 end.

Definition DexGenesisValidate (gs : DexGenesis) : outcome () :=
  ids ← validate_pools ∅ ∅ "" (dg_PoolMap gs);
  _ ← validate_auction (dg_LiquidityAuction gs);
  bidTotal ← validate_bids (auction_settled (dg_LiquidityAuction gs)) ∅ 0 (dg_AuctionBids gs);
  _ ← validate_raised (dg_LiquidityAuction gs) bidTotal (dg_AuctionBids gs);
  _ ← validate_pol_burns ids ∅ (dg_PolBurns gs);
  _ ← validate_unbondings ids ∅ (dg_LpUnbondings gs);
  _ ← refuse (negative (dg_PendingLpRewards gs)) (Plain "pending_lp_rewards must not be negative");
  _ ← refuse (negative (dg_VolumeIndex gs)) (Plain "volume_index must not be negative");
  _ ← validate_stale ids ∅ (dg_PoolStaleDue gs);
  _ ← validate_accumulators ids ∅ (dg_PriceAccumulators gs);
  ParamsValidate (dg_Params gs).

(** ** keeper/genesis.go: InitGenesis *)

(** The records a validated file denotes, its nils read as the import reads them. *)
Definition coin_in (c : GenesisCoin) : Coin := mkCoin (gc_Denom c) (default 0 (gc_Amount c)).
Definition pool_in (p : GenesisPool) : Pool := {|
  pl_PoolId := gp_PoolId p; pl_ReserveErth := coin_in (gp_ReserveErth p); pl_ReserveToken := coin_in (gp_ReserveToken p);
  pl_VolumeWeight := default 0 (gp_VolumeWeight p); pl_LastTradedDay := gp_LastTradedDay p |}.
Definition unbonding_in (u : GenesisUnbonding) : LpUnbonding := {|
  ub_Address := gu_Address u; ub_PoolId := gu_PoolId u; ub_Shares := coin_in (gu_Shares u);
  ub_CompletionTime := gu_CompletionTime u; ub_Pc := gu_Pc u; ub_Ciphertext := gu_Ciphertext u;
  ub_ErthPc := gu_ErthPc u; ub_ErthCiphertext := gu_ErthCiphertext u; ub_WithdrawalId := gu_WithdrawalId u;
  ub_PayoutAttempts := gu_PayoutAttempts u |}.
Definition auction_in (a : GenesisAuction) : LiquidityAuction := {|
  la_Status := ga_Status a; la_BidDenom := ga_BidDenom a; la_EndTime := ga_EndTime a;
  la_ErthForBidders := coin_in (ga_ErthForBidders a); la_ErthForPool := coin_in (ga_ErthForPool a);
  la_TotalRaised := default 0 (ga_TotalRaised a); la_PoolId := ga_PoolId a; la_Claimed := default 0 (ga_Claimed a) |}.
Definition bid_in (b : GenesisBid) : AuctionBid := {|
  ab_Bidder := gb_Bidder b; ab_Amount := default 0 (gb_Amount b); ab_Claimed := gb_Claimed b |}.
Definition pol_in (b : GenesisPolBurn) : PolBurn := {|
  pb_PoolId := gl_PoolId b; pb_TotalShares := default 0 (gl_TotalShares b);
  pb_SharesRemaining := default (default 0 (gl_TotalShares b)) (gl_SharesRemaining b);
  pb_StartTime := gl_StartTime b; pb_DurationSeconds := gl_DurationSeconds b; pb_BurnToken := gl_BurnToken b |}.

(** The loop over the pools: (maxID, totalVolume). *)
Fixpoint init_pools (maxID totalVolume : Z) (l : list GenesisPool) : M (Z * Z) :=
  match l with
  | [] => mret (maxID, totalVolume)
  | p :: l =>
      SetPool (gp_PoolId p) (pool_in p);;
      set_dex (set_k_PoolByToken <[gc_Denom (gp_ReserveToken p) := gp_PoolId p]>);;
      set_dex (set_k_PoolLpIndex <[gp_PoolId p := 0]>);;
      totalVolume ← lift (IntAdd totalVolume (default 0 (gp_VolumeWeight p)));
      init_pools (if maxID <=? gp_PoolId p then wrap_u64 (gp_PoolId p + 1) else maxID) totalVolume l
  end.

Definition init_stale (due : gmap Z Z) (genesisTime : Z) (p : GenesisPool) : M () :=
  if negb (0 <? default 0 (gp_VolumeWeight p)) then mret ()
  else
    let at_ := default (wrap_i64 (genesisTime + PoolStaleSeconds)) (due !! gp_PoolId p) in
    set_dex (set_k_PoolStaleDue <[gp_PoolId p := at_]>);;
    set_dex (set_k_PoolStaleQueue ({[(at_, gp_PoolId p)]} ∪.)).

Definition init_accumulator (a : PriceAccumulator) : M () :=
  set_dex (set_k_PriceCumulative <[pa_PoolId a := default 0 (pa_Cumulative a)]>);;
  set_dex (set_k_PriceObservedAt <[pa_PoolId a := pa_ObservedAt a]>).

Definition init_unbonding (u : GenesisUnbonding) : M () :=
  key ← lift (LpUnbondingKey (unbonding_in u));
  setLpUnbonding key (unbonding_in u).

Definition init_bid (b : GenesisBid) : M () :=
  addrBz ← lift (StringToBytes (gb_Bidder b));
  set_dex (set_k_AuctionBids <[addrBz := bid_in b]>).

Definition init_pol_burn (b : GenesisPolBurn) : M () :=
  set_dex (set_k_PolBurns <[gl_PoolId b := pol_in b]>).

(** [assertGenesisFunded]; the chain's keeper has a bank. *)
Definition assertGenesisFunded : M () :=
  checkErthSolvency;;
  checkAuctionBidSolvency;;
  ids ← get_dex (λ s, iter_keys (k_Pool s));
  for_each ids checkPoolTokenSolvency;;
  rep ← CheckShareBacking;
  refuse_if (match rep with [] => false | _ => true end) (Plain "dex genesis: lp shares are not backed").

(** What [InitGenesis] writes, before the last check. *)
Definition init_store (gs : DexGenesis) : M () :=
  '(maxID, totalVolume) ← init_pools 0 0 (dg_PoolMap gs);
  set_dex (set_k_LpRewardIndex (λ _, Some 0));;
  set_dex (set_k_LpTotalVolume (λ _, Some totalVolume));;
  set_dex (set_k_PendingLpRewards (λ _, Some (default 0 (dg_PendingLpRewards gs))));;
  (if 0 <? default 0 (dg_VolumeIndex gs) then set_dex (set_k_VolumeIndex (λ _, Some (default 0 (dg_VolumeIndex gs)))) else mret ());;
  (if 0 <? dg_VolumeIndexDay gs then set_dex (set_k_VolumeIndexDay (λ _, Some (dg_VolumeIndexDay gs))) else mret ());;
  genesisTime ← now;
  let due := insert_all ((λ d, (sd_pool d, sd_due d)) <$> dg_PoolStaleDue gs) ∅ in
  for_each (dg_PoolMap gs) (init_stale due genesisTime);;
  for_each (dg_PriceAccumulators gs) init_accumulator;;
  (if 0 <? maxID then set_dex (set_k_PoolSeq (λ _, maxID)) else mret ());;
  for_each (dg_LpUnbondings gs) init_unbonding;;
  (match dg_LiquidityAuction gs with
   | Some a => set_dex (set_k_LiquidityAuction (λ _, Some (auction_in a)))
   | None => mret ()
   end);;
  for_each (dg_AuctionBids gs) init_bid;;
  for_each (dg_PolBurns gs) init_pol_burn;;
  set_dex (set_k_Params (λ _, Some (dg_Params gs))).

Definition DexInitGenesis (gs : DexGenesis) : M () :=
  lift (DexGenesisValidate gs);;
  init_store gs;;
  assertGenesisFunded.

(** [module.go]: an error is a panic. *)
Definition DexModuleInitGenesis (gs : DexGenesis) : M () := λ w,
  match DexInitGenesis gs w with Ok r => Ok r | _ => Panic end.

(** ** keeper/genesis.go: ExportGenesis *)
Definition coin_out (c : Coin) : GenesisCoin := mkGenesisCoin (Denom c) (Some (Amount c)).
Definition pool_out (p : Pool) : GenesisPool :=
  mkGenesisPool (pl_PoolId p) (coin_out (pl_ReserveErth p)) (coin_out (pl_ReserveToken p)) (Some (pl_VolumeWeight p)) (pl_LastTradedDay p).
Definition unbonding_out (u : LpUnbonding) : GenesisUnbonding :=
  mkGenesisUnbonding (ub_Address u) (ub_PoolId u) (coin_out (ub_Shares u)) (ub_CompletionTime u) (ub_Pc u) (ub_Ciphertext u)
    (ub_ErthPc u) (ub_ErthCiphertext u) (ub_WithdrawalId u) (ub_PayoutAttempts u).
Definition auction_out (a : LiquidityAuction) : GenesisAuction :=
  mkGenesisAuction (la_Status a) (la_BidDenom a) (la_EndTime a) (coin_out (la_ErthForBidders a)) (coin_out (la_ErthForPool a))
    (Some (la_TotalRaised a)) (la_PoolId a) (Some (la_Claimed a)).
Definition bid_out (b : AuctionBid) : GenesisBid := mkGenesisBid (ab_Bidder b) (Some (ab_Amount b)) (ab_Claimed b).
Definition pol_out (b : PolBurn) : GenesisPolBurn :=
  mkGenesisPolBurn (pb_PoolId b) (Some (pb_TotalShares b)) (Some (pb_SharesRemaining b)) (pb_StartTime b) (pb_DurationSeconds b) (pb_BurnToken b).

(** The walk over the pools, each written as if settled: (the pools, the rewards settled). *)
Fixpoint export_pools (lpIdx settled : Z) (l : list (Z * Pool)) : M (list GenesisPool * Z) :=
  match l with
  | [] => mret ([], settled)
  | (id, val) :: l =>
      last ← getPoolLpIndex id;
      '(val, settled) ← lift (
        if 0 <? pl_VolumeWeight val then
          d ← IntSub lpIdx last;
          m ← IntMul (pl_VolumeWeight val) d;
          owed ← IntQuo m lpIndexPrecision;
          if 0 <? owed then
            a ← IntAdd (Amount (pl_ReserveErth val)) owed;
            s ← IntAdd settled owed;
            mret (pl_set_erth (λ c, mkCoin (Denom c) a) val, s)
          else mret (val, settled)
        else mret (val, settled));
      '(ps, s) ← export_pools lpIdx settled l;
      mret (pool_out val :: ps, s)
  end.

Fixpoint export_accumulators (l : list (Z * Z)) : M (list PriceAccumulator) :=
  match l with
  | [] => mret []
  | (id, at_) :: l =>
      '(cum, _) ← getPriceCumulative id;
      as_ ← export_accumulators l;
      mret (mkPriceAccumulator id (Some cum) at_ :: as_)
  end.

Definition DexExportGenesis : M DexGenesis :=
  params ← item k_Params;
  lpIdx ← getLpRewardIndex;
  pools ← get_dex (λ s, iter_map (k_Pool s));
  '(poolMap, settled) ← export_pools lpIdx 0 pools;
  pending ← getPendingLpRewards;
  pend ← lift (IntSub pending settled);
  refuse_if (pend <? 0) ErrInvariantBroken;;
  volumeIndex ← get_dex (λ s, default 0 (k_VolumeIndex s));
  volumeIndexDay ← get_dex (λ s, default 0 (k_VolumeIndexDay s));
  stale ← get_dex (λ s, (λ kv : Z * Z, mkPoolStaleDue kv.1 kv.2) <$> iter_map (k_PoolStaleDue s));
  observed ← get_dex (λ s, iter_map (k_PriceObservedAt s));
  accumulators ← export_accumulators observed;
  unbondings ← get_dex (λ s, (λ kv : UnbondKey * LpUnbonding, unbonding_out kv.2) <$> iter_map (k_LpUnbondings s));
  auction ← get_dex (λ s, auction_out <$> k_LiquidityAuction s);
  bids ← get_dex (λ s, (λ kv : bytes * AuctionBid, bid_out kv.2) <$> iter_map (k_AuctionBids s));
  burns ← get_dex (λ s, (λ kv : Z * PolBurn, pol_out kv.2) <$> iter_map (k_PolBurns s));
  mret (mkDexGenesis params poolMap unbondings auction bids burns (Some pend) (Some volumeIndex) volumeIndexDay stale accumulators).
End dex_genesis.

(** The address codec, as a genesis relies on it: an address has one lower-case text. *)
Definition codec_lower `{Host} : Prop := ∀ x y b, StringToBytes x = Ok b → StringToBytes y = Ok b → ToLower x = ToLower y.

(** Two addresses that differ in case only are one account. *)
Definition codec_case `{Host} : Prop := ∀ x y b b', StringToBytes x = Ok b → StringToBytes y = Ok b' → ToLower x = ToLower y → b = b'.

(** ** Validation *)
Section validation.
Context `{HostLaws, !ShieldedKeeper}.

Definition reserve_valid (c : GenesisCoin) : Prop := ∃ a, gc_Amount c = Some a ∧ 0 ≤ a ≤ MaxPoolAmount.

Record pool_valid (h : string) (p : GenesisPool) : Prop := {
  gpv_token_lp : IsLPShareDenom (gc_Denom (gp_ReserveToken p)) = false;
  gpv_hub_lp : IsLPShareDenom (gc_Denom (gp_ReserveErth p)) = false;
  gpv_erth : reserve_valid (gp_ReserveErth p);
  gpv_tok : reserve_valid (gp_ReserveToken p);
  gpv_hub : gc_Denom (gp_ReserveErth p) = h;
  gpv_token : gc_Denom (gp_ReserveToken p) ≠ h;
  gpv_weight : 0 ≤ default 0 (gp_VolumeWeight p);
}.

Abbreviation token_of p := (gc_Denom (gp_ReserveToken p)).

Lemma reserve_bad_spec c : reserve_bad c = false ↔ reserve_valid c.
Proof.
  unfold reserve_bad, reserve_valid. destruct (gc_Amount c) as [a|]; [|split; [done|by intros (? & ? & _)]].
  unfold WithinPoolCap. rewrite negb_involutive, orb_false_iff, Z.ltb_ge, Z.ltb_ge. split.
  - intros [? ?]. by exists a.
  - by intros (? & [= ->] & ?).
Qed.

Lemma validate_pools_spec h ids tokens hub l ids' :
  hub = "" ∨ hub = h → (∀ p, p ∈ l → gc_Denom (gp_ReserveErth p) = h) →
  validate_pools ids tokens hub l = Ok ids' ↔
  unseen gp_PoolId ids l ∧ unseen (λ p, token_of p) tokens l ∧ Forall (pool_valid h) l ∧
  ids' = list_to_set (gp_PoolId <$> l) ∪ ids.
Proof.
  revert ids tokens hub. induction l as [|p l IH]; intros ids tokens hub Hhub Hl; cbn [validate_pools].
  - cbn. rewrite union_empty_l_L. split; [intros [= <-]; split_and!; (apply unseen_nil || constructor || done)|by intros (_ & _ & _ & ->)].
  - assert ((if bool_decide (hub = "") then gc_Denom (gp_ReserveErth p) else hub) = h) as ->.
    { case_bool_decide; [by apply Hl; left|by destruct Hhub]. }
    rewrite !refuse_bind, IH by (by right || (intros; apply Hl; by right)).
    rewrite !unseen_cons, Forall_cons, !reserve_bad_spec, negb_false_iff, bool_decide_eq_true, !bool_decide_eq_false.
    assert (match gp_VolumeWeight p with None => false | Some v => v <? 0 end = false ↔ 0 ≤ default 0 (gp_VolumeWeight p)) as ->
      by (destruct (gp_VolumeWeight p); cbn; [rewrite Z.ltb_ge|]; done).
    cbn [fmap list_fmap list_to_set]. split.
    + intros (? & ? & ? & ? & ? & ? & ? & ? & ? & ? & ? & ? & ->). split_and!; try done. set_solver.
    + intros ((? & ?) & (? & ?) & ([] & ?) & ->). split_and!; try done. set_solver.
Qed.

Lemma earmark_bad_spec c :
  earmark_bad c = false ↔ ∃ a, gc_Amount c = Some a ∧ ValidateDenom (gc_Denom c) = true ∧ 0 < a.
Proof.
  unfold earmark_bad, CoinIsValid. destruct (gc_Amount c) as [a|]; [|split; [done|by intros (? & ? & _)]]. cbn.
  rewrite orb_false_iff, negb_false_iff, andb_true_iff, Z.leb_le, Z.eqb_neq. split.
  - intros [[? ?] ?]. exists a. split_and!; [done..|lia].
  - intros (? & [= <-] & ? & ?). split_and!; [done|lia..].
Qed.

(** The earmarks are one positive coin; an open auction names its bid denom. *)
Definition auction_valid (a : GenesisAuction) : Prop :=
  (∃ x, 0 < x ∧ gc_Amount (ga_ErthForBidders a) = Some x ∧ gc_Amount (ga_ErthForPool a) = Some x) ∧
  gc_Denom (ga_ErthForBidders a) = gc_Denom (ga_ErthForPool a) ∧ ValidateDenom (gc_Denom (ga_ErthForBidders a)) = true ∧
  (ga_Status a = AUCTION_STATUS_OPEN → ga_BidDenom a ≠ "").

Lemma validate_auction_spec a : validate_auction (Some a) = Ok () ↔ auction_valid a.
Proof.
  unfold validate_auction, auction_valid. rewrite !refuse_bind, refuse_ok, !earmark_bad_spec, !negb_false_iff, !bool_decide_eq_true, andb_false_iff,
    !bool_decide_eq_false. split.
  - intros ((x & Ex & Hv & Hx) & (y & Ey & _ & _) & Ed & Ea & Ho). split_and!; [exists x; by rewrite <-Ea|done..|].
    intros Hst. by destruct Ho.
  - intros ((x & Hx & Ex & Ey) & Ed & Hv & Ho). split_and!; [by exists x|exists x; by rewrite <-Ed|done|congruence|].
    destruct (decide (ga_Status a = AUCTION_STATUS_OPEN)) as [Hs|Hs]; [right; by apply Ho|by left].
Qed.

Definition bid_valid (settled : bool) (b : GenesisBid) : Prop :=
  (∃ a, gb_Amount b = Some a ∧ 0 < a) ∧ (gb_Claimed b = true → settled = true).
Definition bids_sum (l : list GenesisBid) : Z := list_sum (λ b, default 0 (gb_Amount b)) l.

Lemma bids_sum_nonneg settled l : Forall (bid_valid settled) l → 0 ≤ bids_sum l.
Proof.
  induction 1 as [|b l [(a & Ea & ?) _] _ IH]; [done|]. unfold bids_sum. rewrite list_sum_cons, Ea. unfold bids_sum in IH. cbn. lia.
Qed.

Lemma validate_bids_spec settled seen total l total' :
  0 ≤ total →
  validate_bids settled seen total l = Ok total' ↔
  unseen (λ b, ToLower (gb_Bidder b)) seen l ∧ Forall (bid_valid settled) l ∧ total' = total + bids_sum l ∧
  (l = [] ∨ total' < 2 ^ MaxBitLen).
Proof.
  revert seen total. induction l as [|b l IH]; intros seen total Ht; cbn [validate_bids].
  - unfold bids_sum. rewrite list_sum_nil, Z.add_0_r.
    split; [intros [= ->]; split_and!; [apply unseen_nil|constructor|done|by left]|by intros (_ & _ & -> & _)].
  - rewrite !refuse_bind, unseen_cons, Forall_cons, bool_decide_eq_false, negb_false_iff, Z.ltb_lt, IntAdd_spec.
    unfold bids_sum. rewrite list_sum_cons. fold (bids_sum l). unfold bid_valid at 1.
    assert (0 < default 0 (gb_Amount b) ↔ ∃ a, gb_Amount b = Some a ∧ 0 < a) as Hpos.
    { destruct (gb_Amount b) as [a|]; cbn; [|split; [lia|by intros (? & ? & _)]]. split; [by exists a|by intros (? & [= ->] & ?)]. }
    split.
    + intros (Hs & Hp & E). destruct (fits_int _) eqn:Hf; [|done]. apply fits_int_spec in Hf. cbn [mbind outcome_bind] in E.
      apply refuse_bind in E as [Hc E]. apply IH in E as (Hu & Hv & -> & Hlt); [|lia]. apply Hpos in Hp as Hp'.
      split_and!; try done; [|lia|].
      * intros Hcl. rewrite Hcl in Hc. by destruct settled.
      * right. unfold MaxBitLen. destruct Hlt as [->|?]; [unfold bids_sum; rewrite list_sum_nil|unfold MaxBitLen in *]; lia.
    + intros ((Hs & Hu) & ((Hp & Hc) & Hv) & -> & Hlt). apply Hpos in Hp as Hp'. destruct Hlt as [|Hlt]; [done|].
      pose proof (bids_sum_nonneg _ _ Hv). split_and!; [done..|]. unfold MaxBitLen in *.
      rewrite (proj2 (fits_int_spec _)) by lia. cbn [mbind outcome_bind]. apply refuse_bind.
      split; [destruct (gb_Claimed b); [by rewrite Hc|done]|]. apply IH; [lia|]. split_and!; [done|done|lia|by right].
Qed.

Record pol_valid (b : GenesisPolBurn) : Prop := {
  gbv_total : ∃ t, gl_TotalShares b = Some t ∧ 0 < t ∧ (∀ r, gl_SharesRemaining b = Some r → 0 ≤ r ≤ t);
  gbv_duration : 0 < gl_DurationSeconds b;
  gbv_start : 0 ≤ gl_StartTime b;
}.

Lemma validate_pol_burns_spec ids seen l :
  validate_pol_burns ids seen l = Ok () ↔
  unseen gl_PoolId seen l ∧ Forall (λ b, gl_PoolId b ∈ ids ∧ pol_valid b) l.
Proof.
  revert seen. induction l as [|b l IH]; intros seen; cbn [validate_pol_burns].
  - split; [intros _; split; [apply unseen_nil|constructor]|done].
  - rewrite !refuse_bind, IH, unseen_cons, Forall_cons, !negb_false_iff, bool_decide_eq_true, bool_decide_eq_false,
      Z.ltb_lt, Z.leb_gt, Z.ltb_ge.
    assert (0 < default 0 (gl_TotalShares b) ∧ match gl_SharesRemaining b with
        | None => false | Some r => (r <? 0) || (default 0 (gl_TotalShares b) <? r) end = false ↔
      ∃ t, gl_TotalShares b = Some t ∧ 0 < t ∧ (∀ r, gl_SharesRemaining b = Some r → 0 ≤ r ≤ t)) as Ht.
    { destruct (gl_TotalShares b) as [t|]; cbn; [|split; [lia|by intros (? & ? & _)]].
      destruct (gl_SharesRemaining b) as [r|].
      - rewrite orb_false_iff, !Z.ltb_ge. split; [intros (? & ? & ?); exists t; split_and!; [done..|]; intros ? [= <-]; lia|].
        intros (? & [= <-] & ? & Hr). specialize (Hr r eq_refl). lia.
      - split; [intros (? & _); by exists t|by intros (? & [= <-] & ? & _)]. }
    split.
    + intros (? & ? & H3' & H4' & ? & ? & ? & ?). split_and!; try done. split; [by apply Ht|done..].
    + intros ((? & ?) & ((? & []) & ?)). apply Ht in gbv_total0 as [? ?]. by split_and!.
Qed.

(** The notes of a withdrawal: both legs of a private one, its token leg's for an account's that has one. *)
Definition is_field (b : bytes) : Prop := is_ok (FieldFromBytes b) = true.
Definition blind_ok (ct : bytes) : Prop := Z.of_nat (length ct) = BlindCiphertextBytes.
Definition notes_valid (u : GenesisUnbonding) : Prop :=
  (gu_Pc u ≠ [] → is_field (gu_Pc u) ∧ blind_ok (gu_Ciphertext u)) ∧
  (gu_Address u = "" → length (gu_WithdrawalId u) = 33%nat ∧ head (gu_WithdrawalId u) = Some 0 ∧
     is_field (gu_ErthPc u) ∧ blind_ok (gu_ErthCiphertext u) ∧ gu_Pc u ≠ []) ∧
  (gu_Address u ≠ "" → gu_WithdrawalId u = [] ∧ gu_ErthPc u = [] ∧ gu_ErthCiphertext u = []).

Lemma field_bind {B} b (m : outcome B) r : (_ ← FieldFromBytes b; m) = Ok r ↔ is_field b ∧ m = Ok r.
Proof. unfold is_field. destruct (FieldFromBytes b); cbn; intuition congruence. Qed.
Lemma blind_ok_spec ct u : CheckBlindCiphertext ct = Ok u ↔ blind_ok ct.
Proof. unfold CheckBlindCiphertext, blind_ok. by rewrite refuse_ok, negb_false_iff, Z.eqb_eq. Qed.
Lemma blind_bind {B} ct (m : outcome B) r : (_ ← CheckBlindCiphertext ct; m) = Ok r ↔ blind_ok ct ∧ m = Ok r.
Proof. unfold CheckBlindCiphertext, blind_ok. by rewrite refuse_bind, negb_false_iff, Z.eqb_eq. Qed.

Lemma validate_unbonding_notes_spec u : validate_unbonding_notes u = Ok () ↔ notes_valid u.
Proof.
  unfold validate_unbonding_notes, notes_valid. rewrite outcome_bind_ok.
  assert (∀ x : (), (if bool_decide (gu_Pc u = []) then mret () else _ ← FieldFromBytes (gu_Pc u); CheckBlindCiphertext (gu_Ciphertext u)) = Ok x ↔
    (gu_Pc u ≠ [] → is_field (gu_Pc u) ∧ blind_ok (gu_Ciphertext u))) as Hpc.
  { intros []. case_bool_decide as Hp; [by split|]. rewrite field_bind, blind_ok_spec. tauto. }
  destruct (decide (gu_Address u = "")) as [Ha|Ha].
  - rewrite (bool_decide_eq_true_2 _ Ha). split.
    + intros (x & Hx & E). pose proof (proj1 (Hpc x) Hx) as Hpc'. apply refuse_bind in E as [Hw E]. apply field_bind in E as [Hf E]. apply blind_bind in E as [Hb E].
      apply refuse_ok, bool_decide_eq_false in E. apply orb_false_iff in Hw as [Hl Hz].
      apply negb_false_iff, Nat.eqb_eq in Hl. apply negb_false_iff, bool_decide_eq_true in Hz. split; [done|]. split; [intros _; by split_and!|done].
    + intros (Hx & Hw & _). destruct (Hw Ha) as (Hl & Hz & Hf & Hb & Hp). exists (). split; [by apply Hpc|].
      rewrite Hl, (bool_decide_eq_true_2 _ Hz). apply refuse_bind. split; [done|]. apply field_bind. split; [done|].
      apply blind_bind. split; [done|]. apply refuse_ok. by apply bool_decide_eq_false.
  - rewrite (bool_decide_eq_false_2 _ Ha). split.
    + intros (x & Hx & E). pose proof (proj1 (Hpc x) Hx) as Hpc'. apply refuse_ok in E. apply orb_false_iff in E as [[E1 E2]%orb_false_iff E3].
      apply negb_false_iff, bool_decide_eq_true in E1, E2, E3. split; [done|]. split; [done|]. intros _. by split_and!.
    + intros (Hx & _ & Hw). destruct (Hw Ha) as (E1 & E2 & E3). exists (). split; [by apply Hpc|].
      by rewrite (bool_decide_eq_true_2 _ E1), (bool_decide_eq_true_2 _ E2), (bool_decide_eq_true_2 _ E3).
Qed.

Record unbonding_valid (u : GenesisUnbonding) : Prop := {
  guv_shares : ∃ a, gc_Amount (gu_Shares u) = Some a ∧ 0 < a;
  guv_denom : gc_Denom (gu_Shares u) = LPShareDenom (gu_PoolId u);
  guv_time : 0 ≤ gu_CompletionTime u;
  guv_notes : notes_valid u;
}.

Lemma validate_unbondings_spec ids seen l :
  validate_unbondings ids seen l = Ok () ↔
  unseen unbond_name seen l ∧ Forall (λ u, gu_PoolId u ∈ ids ∧ unbonding_valid u) l.
Proof.
  revert seen. induction l as [|u l IH]; intros seen; cbn [validate_unbondings].
  - split; [intros _; split; [apply unseen_nil|constructor]|done].
  - assert (∀ B (m : outcome B) r, (_ ← validate_unbonding_notes u; m) = Ok r ↔ notes_valid u ∧ m = Ok r) as Hn.
    { intros B m r. rewrite outcome_bind_ok, <-validate_unbonding_notes_spec. split; [intros ([] & ? & ?); by split|].
      intros [? ?]. by exists (). }
    rewrite !refuse_bind, Hn, IH, unseen_cons, Forall_cons, !negb_false_iff, !bool_decide_eq_true, bool_decide_eq_false, Z.ltb_lt, Z.ltb_ge.
    assert (0 < default 0 (gc_Amount (gu_Shares u)) ↔ ∃ a, gc_Amount (gu_Shares u) = Some a ∧ 0 < a) as Ha.
    { destruct (gc_Amount (gu_Shares u)) as [a|]; cbn; [|split; [lia|by intros (? & ? & _)]].
      split; [by exists a|by intros (? & [= ->] & ?)]. }
    split.
    + intros (? & ? & ?%Ha & ? & ? & ? & ? & ?). by split_and!.
    + intros ((? & ?) & (? & []) & ?). apply Ha in guv_shares0. by split_and!.
Qed.

Lemma validate_stale_spec ids seen l :
  validate_stale ids seen l = Ok () ↔ unseen sd_pool seen l ∧ Forall (λ d, sd_pool d ∈ ids) l.
Proof.
  revert seen. induction l as [|d l IH]; intros seen; cbn [validate_stale].
  - split; [intros _; split; [apply unseen_nil|constructor]|done].
  - rewrite !refuse_bind, IH, unseen_cons, Forall_cons, negb_false_iff, bool_decide_eq_true, bool_decide_eq_false. tauto.
Qed.

Definition accumulator_valid (a : PriceAccumulator) : Prop :=
  (∃ c, pa_Cumulative a = Some c ∧ 0 ≤ c) ∧ 0 ≤ pa_ObservedAt a.

Lemma validate_accumulators_spec ids seen l :
  validate_accumulators ids seen l = Ok () ↔
  unseen pa_PoolId seen l ∧ Forall (λ a, pa_PoolId a ∈ ids ∧ accumulator_valid a) l.
Proof.
  revert seen. induction l as [|a l IH]; intros seen; cbn [validate_accumulators].
  - split; [intros _; split; [apply unseen_nil|constructor]|done].
  - rewrite !refuse_bind, IH, unseen_cons, Forall_cons, negb_false_iff, bool_decide_eq_true, bool_decide_eq_false, orb_false_iff, Z.ltb_ge.
    assert (match pa_Cumulative a with None => true | Some c => c <? 0 end = false ↔ ∃ c, pa_Cumulative a = Some c ∧ 0 ≤ c) as ->.
    { destruct (pa_Cumulative a) as [c|]; [|split; [done|by intros (? & ? & _)]]. rewrite Z.ltb_ge.
      split; [by exists c|by intros (? & [= ->] & ?)]. }
    unfold accumulator_valid. tauto.
Qed.

(** ** What a validated genesis says *)
Record dex_genesis_valid (h : string) (gs : DexGenesis) : Prop := {
  gv_ids : NoDup (gp_PoolId <$> dg_PoolMap gs);
  gv_tokens : NoDup ((λ p, gc_Denom (gp_ReserveToken p)) <$> dg_PoolMap gs);
  gv_pools : Forall (pool_valid h) (dg_PoolMap gs);
  gv_auction : ∀ a, dg_LiquidityAuction gs = Some a → auction_valid a ∧
    default 0 (ga_TotalRaised a) = bids_sum (dg_AuctionBids gs) ∧
    0 ≤ default 0 (ga_Claimed a) ≤ default 0 (gc_Amount (ga_ErthForBidders a));
  gv_no_auction : dg_LiquidityAuction gs = None → dg_AuctionBids gs = [];
  gv_bidders : NoDup ((λ b, ToLower (gb_Bidder b)) <$> dg_AuctionBids gs);
  gv_bids : Forall (bid_valid (auction_settled (dg_LiquidityAuction gs))) (dg_AuctionBids gs);
  gv_bids_fit : bids_sum (dg_AuctionBids gs) < 2 ^ MaxBitLen;
  gv_pol_ids : NoDup (gl_PoolId <$> dg_PolBurns gs);
  gv_pol : Forall (λ b, gl_PoolId b ∈ gp_PoolId <$> dg_PoolMap gs ∧ pol_valid b) (dg_PolBurns gs);
  gv_names : NoDup (unbond_name <$> dg_LpUnbondings gs);
  gv_unbondings : Forall (λ u, gu_PoolId u ∈ gp_PoolId <$> dg_PoolMap gs ∧ unbonding_valid u) (dg_LpUnbondings gs);
  gv_pending : 0 ≤ default 0 (dg_PendingLpRewards gs);
  gv_index : 0 ≤ default 0 (dg_VolumeIndex gs);
  gv_stale_ids : NoDup (sd_pool <$> dg_PoolStaleDue gs);
  gv_stale : Forall (λ d, sd_pool d ∈ gp_PoolId <$> dg_PoolMap gs) (dg_PoolStaleDue gs);
  gv_acc_ids : NoDup (pa_PoolId <$> dg_PriceAccumulators gs);
  gv_acc : Forall (λ a, pa_PoolId a ∈ gp_PoolId <$> dg_PoolMap gs ∧ accumulator_valid a) (dg_PriceAccumulators gs);
  gv_params : ParamsValidate (dg_Params gs) = Ok ();
}.

Lemma validate_raised_spec auction total bids :
  validate_raised auction total bids = Ok () ↔
  (∀ a, auction = Some a → default 0 (ga_TotalRaised a) = total ∧
    match ga_Claimed a with None => True | Some c => 0 ≤ c ≤ default 0 (gc_Amount (ga_ErthForBidders a)) end) ∧
  (auction = None → bids = []).
Proof.
  unfold validate_raised. destruct auction as [a|].
  - rewrite refuse_bind, refuse_ok, negb_false_iff, Z.eqb_eq. split.
    + intros [-> Hc]. split; [|done]. intros ? [= <-]. split; [done|]. destruct (ga_Claimed a); [|done].
      apply orb_false_iff in Hc as [?%Z.ltb_ge ?%Z.ltb_ge]. done.
    + intros [Ha _]. destruct (Ha a eq_refl) as [-> Hc]. split; [done|]. destruct (ga_Claimed a); [|done].
      apply orb_false_iff. rewrite !Z.ltb_ge. done.
  - rewrite refuse_ok, negb_false_iff, Nat.eqb_eq. split; [intros Hb%length_zero_iff_nil; by split|].
    intros [_ Hb]. by rewrite (Hb eq_refl).
Qed.

Lemma negative_spec x : negative x = false ↔ 0 ≤ default 0 x.
Proof. destruct x; cbn; [by rewrite Z.ltb_ge|done]. Qed.

Lemma DexGenesisValidate_spec h gs :
  (∀ p, p ∈ dg_PoolMap gs → gc_Denom (gp_ReserveErth p) = h) →
  DexGenesisValidate gs = Ok () ↔ dex_genesis_valid h gs.
Proof.
  intros Hh. assert (∀ i l, i ∈ (list_to_set l ∪ ∅ : gset Z) ↔ i ∈ l) as Hin by (intros; rewrite union_empty_r_L; apply elem_of_list_to_set).
  unfold DexGenesisValidate. split.
  - intros E. apply outcome_bind_ok in E as (ids & (Hi & Ht & Hp & ->)%(validate_pools_spec h) & E); [|by left|done].
    apply unseen_empty in Hi, Ht. apply outcome_bind_ok in E as ([] & Ha & E).
    apply outcome_bind_ok in E as (tot & (Hbn & Hb & -> & Hlt)%validate_bids_spec & E); [|done]. apply unseen_empty in Hbn.
    apply outcome_bind_ok in E as ([] & [Hr Hnone]%validate_raised_spec & E).
    apply outcome_bind_ok in E as ([] & [Hpi%unseen_empty Hpol]%validate_pol_burns_spec & E).
    apply outcome_bind_ok in E as ([] & [Hun%unseen_empty Hu]%validate_unbondings_spec & E).
    apply refuse_bind in E as [Hpend%negative_spec E]. apply refuse_bind in E as [Hidx%negative_spec E].
    apply outcome_bind_ok in E as ([] & [Hsi%unseen_empty Hs]%validate_stale_spec & E).
    apply outcome_bind_ok in E as ([] & [Hai%unseen_empty Hac]%validate_accumulators_spec & E).
    split; try done.
    + intros a Ea. rewrite Ea in Ha. apply validate_auction_spec in Ha as Hav. split; [done|]. destruct (Hr a Ea) as [-> Hc].
      split; [lia|]. destruct Hav as ((x & Hx & Ex & _) & _). rewrite Ex in *. cbn in Hc |- *. destruct (ga_Claimed a); cbn; lia.
    + destruct Hlt as [->|Hlt]; [done|lia].
    + eapply Forall_impl; [exact Hpol|]. cbn. intros b [? ?]. by rewrite <-Hin.
    + eapply Forall_impl; [exact Hu|]. cbn. intros b [? ?]. by rewrite <-Hin.
    + eapply Forall_impl; [exact Hs|]. cbn. intros b ?. by rewrite <-Hin.
    + eapply Forall_impl; [exact Hac|]. cbn. intros b [? ?]. by rewrite <-Hin.
  - intros []. apply outcome_bind_ok. eexists. split; [by apply (validate_pools_spec h ∅ ∅ "");
      [left|exact Hh|split_and!; [by apply unseen_empty..|done|reflexivity]]|].
    apply outcome_bind_ok. exists (). split; [destruct (dg_LiquidityAuction gs) as [a|]; [apply validate_auction_spec; by apply gv_auction0|done]|].
    apply outcome_bind_ok. exists (bids_sum (dg_AuctionBids gs)). split;
      [apply validate_bids_spec; [done|]; split_and!; [by apply unseen_empty|done|lia|by right]|].
    apply outcome_bind_ok. exists (). split.
    { apply validate_raised_spec. split; [|done]. intros a Ea. destruct (gv_auction0 a Ea) as (_ & ? & Hc). split; [done|].
      by destruct (ga_Claimed a). }
    apply outcome_bind_ok. exists (). split; [apply validate_pol_burns_spec; split; [by apply unseen_empty|]|].
    { eapply Forall_impl; [exact gv_pol0|]. cbn. intros b [? ?]. by rewrite Hin. }
    apply outcome_bind_ok. exists (). split; [apply validate_unbondings_spec; split; [by apply unseen_empty|]|].
    { eapply Forall_impl; [exact gv_unbondings0|]. cbn. intros b [? ?]. by rewrite Hin. }
    apply refuse_bind. split; [by apply negative_spec|]. apply refuse_bind. split; [by apply negative_spec|].
    apply outcome_bind_ok. exists (). split; [apply validate_stale_spec; split; [by apply unseen_empty|]|].
    { eapply Forall_impl; [exact gv_stale0|]. cbn. intros b ?. by rewrite Hin. }
    apply outcome_bind_ok. exists (). split; [apply validate_accumulators_spec; split; [by apply unseen_empty|]|done].
    eapply Forall_impl; [exact gv_acc0|]. cbn. intros b [? ?]. by rewrite Hin.
Qed.
End validation.
