(* ===== verification/DexImport.v ===== *)
(** * x/dex: what a genesis imports

    The state [InitGenesis] leaves, loop by loop, and that it meets the invariant of [DexInv.v]: a chain started from a
    validated genesis is one every theorem of [DexChain.v] speaks of. *)

From S2P Require Export DexGenesis DexChain.

(** The store of a chain that starts. *)
Definition new_store : DexStore :=
  {| k_Params := None; k_Pool := ∅; k_PoolSeq := 0; k_PoolByToken := ∅; k_LpRewardIndex := None;
     k_LpTotalVolume := None; k_PoolLpIndex := ∅; k_PendingLpRewards := None; k_VolumeIndex := None;
     k_VolumeIndexDay := None; k_PoolStaleQueue := ∅; k_PoolStaleDue := ∅; k_LpUnbondings := ∅;
     k_LpUnbondingsByAddr := ∅; k_LiquidityAuction := None; k_AuctionBids := ∅; k_PolBurns := ∅;
     k_TotalPoolErth := None; k_DirtyPools := ∅; k_SolvencyCursor := None; k_PriceCumulative := ∅;
     k_PriceObservedAt := ∅ |}.

(** ** The loops *)
Abbreviation token_of p := (gc_Denom (gp_ReserveToken p)).
Abbreviation erth_of p := (default 0 (gc_Amount (gp_ReserveErth p))).
Abbreviation weight_of p := (default 0 (gp_VolumeWeight p)).

Definition pool_entries (l : list GenesisPool) : list (Z * Pool) := (λ p, (gp_PoolId p, pool_in p)) <$> l.
Definition token_entries (l : list GenesisPool) : list (string * Z) := (λ p, (token_of p, gp_PoolId p)) <$> l.
Definition index_entries (l : list GenesisPool) : list (Z * Z) := (λ p, (gp_PoolId p, 0)) <$> l.
Definition erth_sum (l : list GenesisPool) : Z := list_sum (λ p, erth_of p) l.
Definition weight_sum (l : list GenesisPool) : Z := list_sum (λ p, weight_of p) l.

Definition pools_loaded (l : list GenesisPool) (tot : option Z) (dirty : gset Z) (s : DexStore) : DexStore :=
  set_k_TotalPoolErth (λ _, tot) (set_k_DirtyPools (λ _, dirty)
    (set_k_PoolLpIndex (insert_all (index_entries l)) (set_k_PoolByToken (insert_all (token_entries l))
      (set_k_Pool (insert_all (pool_entries l)) s)))).

Definition stale_entries (due : gmap Z Z) (t : Z) (l : list GenesisPool) : list (Z * Z) :=
  omap (λ p, if 0 <? weight_of p then Some (gp_PoolId p, default (wrap_i64 (t + PoolStaleSeconds)) (due !! gp_PoolId p)) else None) l.
Definition stale_loaded (es : list (Z * Z)) (s : DexStore) : DexStore :=
  set_k_PoolStaleQueue (list_to_set ((λ e, (e.2, e.1)) <$> es) ∪.) (set_k_PoolStaleDue (insert_all es) s).

Definition accumulators_loaded (l : list PriceAccumulator) (s : DexStore) : DexStore :=
  set_k_PriceObservedAt (insert_all ((λ a, (pa_PoolId a, pa_ObservedAt a)) <$> l))
    (set_k_PriceCumulative (insert_all ((λ a, (pa_PoolId a, default 0 (pa_Cumulative a))) <$> l)) s).

Definition entries_loaded (es : list (UnbondKey * LpUnbonding)) (s : DexStore) : DexStore :=
  set_k_LpUnbondingsByAddr (list_to_set (byAddrKey <$> es.*1) ∪.) (set_k_LpUnbondings (insert_all es) s).

Section loops.
Context `{HostLaws, !ShieldedKeeper}.
Implicit Types (w : World) (s : DexStore).

Lemma upd_dex_eq f g w : f (w_dex w) = g (w_dex w) → upd_dex f w = upd_dex g w.
Proof. unfold upd_dex. by intros ->. Qed.
Lemma upd_dex_fold f g w : upd_dex f (upd_dex g w) = upd_dex (λ s, f (g s)) w.
Proof. done. Qed.

Lemma init_pools_ok h m tot l w r w' :
  Forall (pool_valid h) l → unseen gp_PoolId (dom (k_Pool (w_dex w))) l → Forall (λ p, 0 ≤ gp_PoolId p < 2 ^ 64 - 1) l →
  0 ≤ default 0 (k_TotalPoolErth (w_dex w)) → init_pools m tot l w = Ok (r, w') →
  ∃ te dirty, w' = upd_dex (pools_loaded l te dirty) w ∧
    default 0 te = default 0 (k_TotalPoolErth (w_dex w)) + erth_sum l ∧
    snd r = tot + weight_sum l ∧ m ≤ fst r ∧ (∀ p, p ∈ l → gp_PoolId p < fst r) ∧
    (fst r = m ∨ ∃ p, p ∈ l ∧ fst r = gp_PoolId p + 1).
Proof.
  revert m tot w. induction l as [|p l IH]; intros m tot w Hv Hu Hi Ht Hr; cbn [init_pools] in Hr.
  - apply ret_ok in Hr as [= -> ->]. exists (k_TotalPoolErth (w_dex w)), (k_DirtyPools (w_dex w)).
    unfold erth_sum, weight_sum. rewrite !list_sum_nil. split_and!; [|cbn [fst snd]; lia..|by intros ? ?%elem_of_nil|by left].
    by destruct w as [? ? ? ? []].
  - apply Forall_cons in Hv as [Hp Hv], Hi as [Hi1 Hi]. apply unseen_cons in Hu as [Hn Hu]. apply not_elem_of_dom in Hn.
    destruct (gpv_erth _ _ Hp) as (e & Ee & Hre).
    apply bind_ok in Hr as (u1 & w1 & (-> & _)%SetPool_ok & Hr). apply bind_ok in Hr as (u2 & w2 & ->%set_dex_ok & Hr).
    apply bind_ok in Hr as (u3 & w3 & ->%set_dex_ok & Hr). apply bind_ok in Hr as (t' & w4 & [[-> _]%IntAdd_ok ->]%lift_ok & Hr).
    apply IH in Hr as (te & dirty & -> & Hte & Hsum & Hm & Hmax & Hlast); [|done|..].
    + exists te, dirty. unfold erth_sum, weight_sum in *. rewrite !list_sum_cons. split; [|split_and!].
      * rewrite !upd_dex_fold. apply upd_dex_eq. reflexivity.
      * rewrite Hte. cbn [w_dex upd_dex after_SetPool set_k_PoolLpIndex set_k_PoolByToken set_k_Pool set_k_DirtyPools set_k_TotalPoolErth k_TotalPoolErth].
        unfold after_SetPool. cbn. rewrite Hn, Ee. cbn. destruct (Z.eqb_spec (e - 0) 0); [lia|]. cbn.
        destruct (Z.ltb_spec (default 0 (k_TotalPoolErth (w_dex w)) + (e - 0)) 0); lia.
      * rewrite Hsum. lia.
      * destruct (Z.leb_spec m (gp_PoolId p)); [|lia]. rewrite wrap_u64_id in Hm by lia. lia.
      * intros q [->|Hq]%elem_of_cons; [|by apply Hmax]. destruct (Z.leb_spec m (gp_PoolId p)); [|lia].
        rewrite wrap_u64_id in Hm by lia. lia.
      * destruct Hlast as [E|(q & Hq & E)]; [|right; exists q; split; [by right|done]]. rewrite E.
        destruct (m <=? gp_PoolId p); [|by left]. right. exists p. split; [left|]. by rewrite wrap_u64_id by lia.
    + cbn. by rewrite dom_insert_L.
    + done.
    + cbn. rewrite Hn, Ee. cbn. destruct (Z.eqb_spec (e - 0) 0); [lia|]. cbn.
      destruct (Z.ltb_spec (default 0 (k_TotalPoolErth (w_dex w)) + (e - 0)) 0); lia.
Qed.

Lemma SetPool_run id p w :
  Amount (pl_ReserveErth p) ≤ MaxPoolAmount → Amount (pl_ReserveToken p) ≤ MaxPoolAmount →
  IsLPShareDenom (Denom (pl_ReserveToken p)) = false → IsLPShareDenom (Denom (pl_ReserveErth p)) = false →
  k_Pool (w_dex w) !! id = None → 0 ≤ Amount (pl_ReserveErth p) → 0 ≤ default 0 (k_TotalPoolErth (w_dex w)) →
  default 0 (k_TotalPoolErth (w_dex w)) + Amount (pl_ReserveErth p) < 2 ^ MaxBitLen →
  SetPool id p w = Ok ((), upd_dex (after_SetPool id p) w).
Proof.
  intros He Ht Hlt Hle Hn Hp H0' Hsum. unfold MaxBitLen in Hsum. unfold SetPool, overCap, getTotalPoolErth.
  rewrite (proj2 (Z.ltb_ge _ _) He), (proj2 (Z.ltb_ge _ _) Ht), Hlt, Hle. cbn [orb].
  do 2 (rewrite (run_bind _ _ w () w) by done). erewrite run_bind by reflexivity. rewrite Hn.
  rewrite (run_bind _ _ w (Amount (pl_ReserveErth p) - 0) w) by (unfold lift; rewrite IntSub_spec, fits_range by lia; done).
  set (e := Amount (pl_ReserveErth p)) in *. set (tot := default 0 (k_TotalPoolErth (w_dex w))) in *.
  rewrite (run_bind _ _ w () (upd_dex (set_k_TotalPoolErth (λ t, if e - 0 =? 0 then t else
    Some (if tot + (e - 0) <? 0 then 0 else tot + (e - 0)))) w)).
  - run_fwd. f_equal. f_equal. unfold upd_dex, after_SetPool. cbn. by rewrite Hn.
  - destruct (Z.eqb_spec (e - 0) 0); [by destruct w as [? ? ? ? []]|].
    rewrite (run_bind _ _ w tot w) by done. rewrite (run_bind _ _ w (tot + (e - 0)) w); [done|].
    unfold lift. by rewrite IntAdd_spec, fits_range by lia.
Qed.

Lemma init_pools_total h m tot l w :
  Forall (pool_valid h) l → unseen gp_PoolId (dom (k_Pool (w_dex w))) l →
  0 ≤ default 0 (k_TotalPoolErth (w_dex w)) → default 0 (k_TotalPoolErth (w_dex w)) + erth_sum l < 2 ^ MaxBitLen →
  0 ≤ tot → tot + weight_sum l < 2 ^ MaxBitLen → ∃ r w', init_pools m tot l w = Ok (r, w').
Proof.
  revert m tot w. induction l as [|p l IH]; intros m tot w Hv Hu Ht Hte Hw Hwt; cbn [init_pools]; [by eexists _, _|].
  apply Forall_cons in Hv as [Hp Hv]. apply unseen_cons in Hu as [Hn Hu]. apply not_elem_of_dom in Hn.
  unfold erth_sum, weight_sum in *. rewrite list_sum_cons in *. unfold MaxBitLen in *.
  destruct (gpv_erth _ _ Hp) as (e & Ee & He), (gpv_tok _ _ Hp) as (t & Et & Htk). pose proof (gpv_weight _ _ Hp).
  assert (0 ≤ list_sum (λ p, erth_of p) l ∧ 0 ≤ list_sum (λ p, weight_of p) l) as [Hl1 Hl2].
  { clear -Hv. induction Hv as [|q l Hq _ [? ?]]; [done|]. rewrite !list_sum_cons. destruct (gpv_erth _ _ Hq) as (x & Ex & ?).
    pose proof (gpv_weight _ _ Hq). rewrite Ex. cbn in *. lia. }
  rewrite Ee in Hte. cbn in Hte.
  rewrite (run_bind _ _ w () (upd_dex (after_SetPool (gp_PoolId p) (pool_in p)) w)).
  - do 2 (erewrite run_bind by reflexivity; cbv beta).
    erewrite run_bind; [|unfold lift; rewrite IntAdd_spec, fits_range by lia; reflexivity]. apply IH; [done| |..].
    + cbn. by rewrite dom_insert_L.
    + cbn. rewrite Hn, Ee. cbn. destruct (Z.eqb_spec (e - 0) 0); [lia|]. cbn.
      destruct (Z.ltb_spec (default 0 (k_TotalPoolErth (w_dex w)) + (e - 0)) 0); lia.
    + cbn. rewrite Hn, Ee. cbn. destruct (Z.eqb_spec (e - 0) 0); [lia|]. cbn.
      destruct (Z.ltb_spec (default 0 (k_TotalPoolErth (w_dex w)) + (e - 0)) 0); lia.
    + lia.
    + lia.
  - apply SetPool_run; cbn; unfold MaxBitLen; rewrite ?Ee, ?Et; cbn; try done; try lia; apply Hp.
Qed.

Lemma init_stale_run due t l w : for_each l (init_stale due t) w = Ok ((), upd_dex (stale_loaded (stale_entries due t l)) w).
Proof.
  revert w. induction l as [|p l IH]; intros w; cbn [for_each].
  - unfold stale_loaded, set_k_PoolStaleQueue, set_k_PoolStaleDue, upd_dex. cbn. rewrite union_empty_l_L. by destruct w as [? ? ? ? []].
  - unfold stale_entries. cbn [omap list_omap]. destruct (0 <? weight_of p) eqn:E.
    + set (at_ := default (wrap_i64 (t + PoolStaleSeconds)) (due !! gp_PoolId p)).
      rewrite (run_bind _ _ w () (upd_dex (λ s, set_k_PoolStaleQueue ({[(at_, gp_PoolId p)]} ∪.)
        (set_k_PoolStaleDue <[gp_PoolId p := at_]> s)) w)) by (unfold init_stale; by rewrite E).
      rewrite IH. f_equal. f_equal. rewrite upd_dex_fold. apply upd_dex_eq.
      unfold stale_loaded, set_k_PoolStaleQueue, set_k_PoolStaleDue. cbn. f_equal.
      by rewrite (assoc_L (∪)), (comm_L (∪) (list_to_set _)).
    + rewrite (run_bind _ _ w () w) by (unfold init_stale; by rewrite E). apply IH.
Qed.

Lemma init_accumulators_run l w : for_each l init_accumulator w = Ok ((), upd_dex (accumulators_loaded l) w).
Proof.
  revert w. induction l as [|a l IH]; intros w; cbn [for_each]; [by destruct w as [? ? ? ? []]|].
  erewrite run_bind by reflexivity. rewrite IH. reflexivity.
Qed.

Lemma init_pol_burns_run l w :
  for_each l init_pol_burn w = Ok ((), upd_dex (set_k_PolBurns (insert_all ((λ b, (gl_PoolId b, pol_in b)) <$> l))) w).
Proof.
  revert w. induction l as [|b l IH]; intros w; cbn [for_each]; [by destruct w as [? ? ? ? []]|].
  erewrite run_bind by reflexivity. rewrite IH. reflexivity.
Qed.

Lemma mapM_cons_ok {A B} (f : A → outcome B) x l ks :
  mapM f (x :: l) = Ok ks ↔ ∃ k ks', f x = Ok k ∧ mapM f l = Ok ks' ∧ ks = k :: ks'.
Proof.
  cbn [mapM]. rewrite outcome_bind_ok. split.
  - intros (k & Hk & E). apply outcome_bind_ok in E as (ks' & Hks & [= <-]). by exists k, ks'.
  - intros (k & ks' & Hk & Hks & ->). exists k. split; [done|]. by rewrite Hks.
Qed.

Abbreviation unbond_keys l := (mapM (λ u, LpUnbondingKey (unbonding_in u)) l).
Lemma init_unbondings_ok l w w' :
  for_each l init_unbonding w = Ok ((), w') ↔
  ∃ ks, unbond_keys l = Ok ks ∧ w' = upd_dex (entries_loaded (zip ks (unbonding_in <$> l))) w.
Proof.
  revert w. induction l as [|u l IH]; intros w; cbn [for_each].
  - assert (upd_dex (entries_loaded (zip [] (unbonding_in <$> []))) w = w) as E.
    { unfold entries_loaded, set_k_LpUnbondingsByAddr, set_k_LpUnbondings, upd_dex. cbn. rewrite union_empty_l_L. by destruct w as [? ? ? ? []]. }
    split; [intros [= ->]%ret_ok; by exists []|]. intros (ks & [= <-] & ->). by rewrite E.
  - assert (∀ k ks w, upd_dex (entries_loaded (zip ks (unbonding_in <$> l))) (upd_dex (with_entry k (unbonding_in u)) w) =
      upd_dex (entries_loaded (zip (k :: ks) (unbonding_in <$> u :: l))) w) as E.
    { intros k ks v. rewrite upd_dex_fold. apply upd_dex_eq.
      unfold entries_loaded, with_entry, set_k_LpUnbondingsByAddr, set_k_LpUnbondings. cbn. f_equal.
      by rewrite (assoc_L (∪)), (comm_L (∪) (list_to_set _)). }
    unfold init_unbonding at 1. setoid_rewrite mapM_cons_ok. rewrite bind_ok. split.
    + intros ([] & w1 & Hx & Hr). apply bind_ok in Hx as (k & w2 & [Hk ->]%lift_ok & ->%setLpUnbonding_ok).
      apply IH in Hr as (ks & Hks & ->). exists (k :: ks). split; [by exists k, ks|apply E].
    + intros (kks & (k & ks & Hk & Hks & ->) & ->). exists (), (upd_dex (with_entry k (unbonding_in u)) w).
      split; [|apply IH; exists ks; split; [done|by rewrite E]].
      apply bind_ok. exists k, w. split; [by apply lift_ok|]. by apply setLpUnbonding_ok.
Qed.

Abbreviation bid_keys l := (mapM (λ b, StringToBytes (gb_Bidder b)) l).
Lemma init_bids_ok l w w' :
  for_each l init_bid w = Ok ((), w') ↔
  ∃ ks, bid_keys l = Ok ks ∧ w' = upd_dex (set_k_AuctionBids (insert_all (zip ks (bid_in <$> l)))) w.
Proof.
  revert w. induction l as [|b l IH]; intros w; cbn [for_each].
  - assert (upd_dex (set_k_AuctionBids (insert_all (zip [] (bid_in <$> [])))) w = w) as E by by destruct w as [? ? ? ? []].
    split; [intros [= ->]%ret_ok; by exists []|]. intros (ks & [= <-] & ->). by rewrite E.
  - unfold init_bid at 1. setoid_rewrite mapM_cons_ok. rewrite bind_ok. split.
    + intros ([] & w1 & Hx & Hr). apply bind_ok in Hx as (k & w2 & [Hk ->]%lift_ok & ->%set_dex_ok).
      apply IH in Hr as (ks & Hks & ->). exists (k :: ks). split; [by exists k, ks|reflexivity].
    + intros (kks & (k & ks & Hk & Hks & ->) & ->). exists (), (upd_dex (set_k_AuctionBids <[k := bid_in b]>) w).
      split; [|apply IH; exists ks; by split].
      apply bind_ok. exists k, w. split; [by apply lift_ok|]. by apply set_dex_ok.
Qed.
End loops.

(** ** The store of a chain that started from a file

    [te]: the running ERTH total; [dirty]: the pools to check; [m]: the next pool id; [ks] and [bs]: the keys of the
    withdrawals and of the bids. *)
Definition due_of (gs : DexGenesis) : gmap Z Z := insert_all ((λ d, (sd_pool d, sd_due d)) <$> dg_PoolStaleDue gs) ∅.

Definition imported (gs : DexGenesis) (t : Z) (te : option Z) (dirty : gset Z) (m : Z) (ks : list UnbondKey) (bs : list bytes) : DexStore :=
  let pools := dg_PoolMap gs in
  let stale := stale_entries (due_of gs) t pools in
  {| k_Params := Some (dg_Params gs);
     k_Pool := insert_all (pool_entries pools) ∅;
     k_PoolSeq := if 0 <? m then m else 0;
     k_PoolByToken := insert_all (token_entries pools) ∅;
     k_LpRewardIndex := Some 0;
     k_LpTotalVolume := Some (weight_sum pools);
     k_PoolLpIndex := insert_all (index_entries pools) ∅;
     k_PendingLpRewards := Some (default 0 (dg_PendingLpRewards gs));
     k_VolumeIndex := if 0 <? default 0 (dg_VolumeIndex gs) then Some (default 0 (dg_VolumeIndex gs)) else None;
     k_VolumeIndexDay := if 0 <? dg_VolumeIndexDay gs then Some (dg_VolumeIndexDay gs) else None;
     k_PoolStaleQueue := list_to_set ((λ e, (e.2, e.1)) <$> stale) ∪ ∅;
     k_PoolStaleDue := insert_all stale ∅;
     k_LpUnbondings := insert_all (zip ks (unbonding_in <$> dg_LpUnbondings gs)) ∅;
     k_LpUnbondingsByAddr := list_to_set (byAddrKey <$> (zip ks (unbonding_in <$> dg_LpUnbondings gs)).*1) ∪ ∅;
     k_LiquidityAuction := auction_in <$> dg_LiquidityAuction gs;
     k_AuctionBids := insert_all (zip bs (bid_in <$> dg_AuctionBids gs)) ∅;
     k_PolBurns := insert_all ((λ b, (gl_PoolId b, pol_in b)) <$> dg_PolBurns gs) ∅;
     k_TotalPoolErth := te;
     k_DirtyPools := dirty;
     k_SolvencyCursor := None;
     k_PriceCumulative := insert_all ((λ a, (pa_PoolId a, default 0 (pa_Cumulative a))) <$> dg_PriceAccumulators gs) ∅;
     k_PriceObservedAt := insert_all ((λ a, (pa_PoolId a, pa_ObservedAt a)) <$> dg_PriceAccumulators gs) ∅ |}.

(** A chain of writes, evaluated to the store it leaves. *)
Ltac store_eval :=
  cbv [pools_loaded stale_loaded accumulators_loaded entries_loaded imported new_store
    set_k_Params set_k_Pool set_k_PoolSeq set_k_PoolByToken set_k_LpRewardIndex set_k_LpTotalVolume
    set_k_PoolLpIndex set_k_PendingLpRewards set_k_VolumeIndex set_k_VolumeIndexDay set_k_PoolStaleQueue set_k_PoolStaleDue
    set_k_LpUnbondings set_k_LpUnbondingsByAddr set_k_LiquidityAuction set_k_AuctionBids set_k_PolBurns set_k_TotalPoolErth
    set_k_DirtyPools set_k_SolvencyCursor set_k_PriceCumulative set_k_PriceObservedAt
    k_Params k_Pool k_PoolSeq k_PoolByToken k_LpRewardIndex k_LpTotalVolume k_PoolLpIndex k_PendingLpRewards
    k_VolumeIndex k_VolumeIndexDay k_PoolStaleQueue k_PoolStaleDue k_LpUnbondings k_LpUnbondingsByAddr k_LiquidityAuction k_AuctionBids
    k_PolBurns k_TotalPoolErth k_DirtyPools k_SolvencyCursor k_PriceCumulative k_PriceObservedAt].

Section import.
Context `{HostLaws, !ShieldedKeeper}.
Implicit Types (w : World) (s : DexStore) (gs : DexGenesis).

(** Pool ids are [uint64]s short of the last, the parameters [uint64]s. *)
Definition words_ok gs : Prop :=
  Forall (λ p, 0 ≤ gp_PoolId p < 2 ^ 64 - 1) (dg_PoolMap gs) ∧
  0 ≤ LpUnbondingSeconds (dg_Params gs) ∧ 0 ≤ VolumeDepthCapPerDay (dg_Params gs).

Abbreviation unbond_keys l := (mapM (λ u, LpUnbondingKey (unbonding_in u)) l).
Abbreviation bid_keys l := (mapM (λ b, StringToBytes (gb_Bidder b)) l).

Record import_of gs w s : Prop := {
  io_te : default 0 (k_TotalPoolErth s) = erth_sum (dg_PoolMap gs);
  io_seq : 0 ≤ k_PoolSeq s ∧ ∀ p, p ∈ dg_PoolMap gs → gp_PoolId p < k_PoolSeq s;
  io_last : k_PoolSeq s = 0 ∨ ∃ p, p ∈ dg_PoolMap gs ∧ k_PoolSeq s = gp_PoolId p + 1;
  io_store : ∃ te dirty m ks bs, unbond_keys (dg_LpUnbondings gs) = Ok ks ∧ bid_keys (dg_AuctionBids gs) = Ok bs ∧
    s = imported gs (unix w) te dirty m ks bs;
}.

Lemma set_if_run (b : bool) (f : DexStore → DexStore) w : (if b then set_dex f else mret () : M ()) w = Ok ((), upd_dex (if b then f else λ s : DexStore, s) w).
Proof. destruct b; [done|]. by destruct w. Qed.

Lemma init_store_ok h gs w u w' :
  w_dex w = new_store → dex_genesis_valid h gs → words_ok gs → init_store gs w = Ok (u, w') →
  ∃ s, import_of gs w s ∧ w' = upd_dex (λ _, s) w.
Proof.
  intros Hnew Hv [Hids _] Hr. unfold init_store in Hr.
  apply bind_ok in Hr as ([m tv] & w1 & Hp & Hr). cbv beta iota in Hr.
  apply (init_pools_ok h) in Hp as (te & dirty & -> & Hte & Htv & Hm & Hmax & Hlast);
    [|apply Hv|rewrite Hnew; cbn; rewrite dom_empty_L; apply unseen_empty, Hv|done|by rewrite Hnew].
  rewrite Hnew in Hte. cbn in Hte, Htv, Hm, Hmax, Hlast. rewrite Z.add_0_l in Hte, Htv. subst tv.
  do 3 (apply bind_ok in Hr as ([] & w1 & ->%set_dex_ok & Hr)).
  apply bind_ok in Hr as ([] & w1 & E & Hr). rewrite set_if_run in E. injection E as <-.
  apply bind_ok in Hr as ([] & w1 & E & Hr). rewrite set_if_run in E. injection E as <-.
  apply bind_ok in Hr as (t & w1 & [-> ->]%now_ok & Hr). cbv zeta in Hr. fold (due_of gs) in Hr.
  apply bind_ok in Hr as ([] & w1 & E & Hr). rewrite init_stale_run in E. injection E as <-.
  apply bind_ok in Hr as ([] & w1 & E & Hr). rewrite init_accumulators_run in E. injection E as <-.
  apply bind_ok in Hr as ([] & w1 & E & Hr). rewrite set_if_run in E. injection E as <-.
  apply bind_ok in Hr as ([] & w1 & (ks & Hks & ->)%init_unbondings_ok & Hr).
  apply bind_ok in Hr as ([] & w1 & Ha & Hr).
  assert (w1 = upd_dex (match dg_LiquidityAuction gs with Some a => set_k_LiquidityAuction (λ _, Some (auction_in a)) | None => λ s, s end)
    (upd_dex (entries_loaded (zip ks (unbonding_in <$> dg_LpUnbondings gs)))
    (upd_dex (if 0 <? m then set_k_PoolSeq (λ _, m) else λ s, s) (upd_dex (accumulators_loaded (dg_PriceAccumulators gs))
      (upd_dex (stale_loaded (stale_entries (due_of gs) (unix w) (dg_PoolMap gs)))
        (upd_dex (if 0 <? dg_VolumeIndexDay gs then set_k_VolumeIndexDay (λ _, Some (dg_VolumeIndexDay gs)) else λ s, s)
          (upd_dex (if 0 <? default 0 (dg_VolumeIndex gs) then set_k_VolumeIndex (λ _, Some (default 0 (dg_VolumeIndex gs))) else λ s, s)
            (upd_dex (set_k_PendingLpRewards (λ _, Some (default 0 (dg_PendingLpRewards gs))))
              (upd_dex (set_k_LpTotalVolume (λ _, Some (weight_sum (dg_PoolMap gs))))
                (upd_dex (set_k_LpRewardIndex (λ _, Some 0)) (upd_dex (pools_loaded (dg_PoolMap gs) te dirty) w))))))))))) as ->.
  { destruct (dg_LiquidityAuction gs); [by apply set_dex_ok in Ha|]. apply ret_ok in Ha as [= ->]. exact (eq_sym (upd_dex_id _)). }
  apply bind_ok in Hr as ([] & w1 & (bs & Hbs & ->)%init_bids_ok & Hr).
  apply bind_ok in Hr as ([] & w1 & E & ->%set_dex_ok). rewrite init_pol_burns_run in E. injection E as <-.
  exists (imported gs (unix w) te dirty m ks bs). split.
  - split; [exact Hte| | |by exists te, dirty, m, ks, bs]; cbn.
    + destruct (Z.ltb_spec 0 m); (split; [lia|]); [exact Hmax|].
      intros p Hp. specialize (Hmax p Hp). rewrite Forall_forall in Hids. specialize (Hids p Hp). lia.
    + destruct (Z.ltb_spec 0 m); [exact Hlast|by left].
  - rewrite !upd_dex_fold. apply upd_dex_eq. rewrite Hnew. unfold imported. 
    destruct (0 <? m), (0 <? dg_VolumeIndexDay gs), (0 <? default 0 (dg_VolumeIndex gs)), (dg_LiquidityAuction gs); store_eval; reflexivity.
Qed.

Lemma init_store_total h gs w ks bs :
  w_dex w = new_store → dex_genesis_valid h gs → erth_sum (dg_PoolMap gs) < 2 ^ MaxBitLen → weight_sum (dg_PoolMap gs) < 2 ^ MaxBitLen →
  unbond_keys (dg_LpUnbondings gs) = Ok ks → bid_keys (dg_AuctionBids gs) = Ok bs →
  ∃ w', init_store gs w = Ok ((), w').
Proof.
  intros Hnew Hv He Hw Hks Hbs. unfold init_store.
  destruct (init_pools_total h 0 0 (dg_PoolMap gs) w) as ([m tv] & w1 & Hp); [apply Hv|..]; rewrite ?Hnew; cbn; try lia.
  { rewrite dom_empty_L. apply unseen_empty, Hv. }
  rewrite (run_bind _ _ _ _ _ Hp). cbv beta iota. do 3 (erewrite run_bind by reflexivity; cbv beta).
  do 2 (rewrite (run_bind _ _ _ _ _ (set_if_run _ _ _))). erewrite run_bind by reflexivity. cbv zeta.
  rewrite (run_bind _ _ _ _ _ (init_stale_run _ _ _ _)), (run_bind _ _ _ _ _ (init_accumulators_run _ _)), (run_bind _ _ _ _ _ (set_if_run _ _ _)).
  match goal with |- context [(for_each _ init_unbonding ≫= _) ?v] =>
    assert (for_each (dg_LpUnbondings gs) init_unbonding v = Ok ((), upd_dex (entries_loaded (zip ks (unbonding_in <$> dg_LpUnbondings gs))) v)) as Hu
      by (apply init_unbondings_ok; by exists ks) end.
  rewrite (run_bind _ _ _ _ _ Hu). clear Hu.
  match goal with |- context [(match dg_LiquidityAuction gs with Some a => _ | None => _ end ≫= _) ?v] =>
    assert (∃ v', (match dg_LiquidityAuction gs with Some a => set_dex (set_k_LiquidityAuction (λ _, Some (auction_in a))) | None => mret () end) v = Ok ((), v')) as [v' Ha]
      by (destruct (dg_LiquidityAuction gs); by eexists) end.
  rewrite (run_bind _ _ _ _ _ Ha). clear Ha.
  assert (for_each (dg_AuctionBids gs) init_bid v' = Ok ((), upd_dex (set_k_AuctionBids (insert_all (zip bs (bid_in <$> dg_AuctionBids gs)))) v')) as Hb
    by (apply init_bids_ok; by exists bs).
  rewrite (run_bind _ _ _ _ _ Hb), (run_bind _ _ _ _ _ (init_pol_burns_run _ _)). by eexists.
Qed.
End import.

(** ** What the funding check finds *)
Section funded.
Context `{HostLaws, !ShieldedKeeper}.
Implicit Types (w : World) (s : DexStore) (gs : DexGenesis).

Lemma auctionErthOwed_ok w o d w' :
  auction_inv (w_dex w) → auctionErthOwed w = Ok ((o, d), w') → w' = w ∧ o = auction_hub (w_dex w) ∧ d = open_bid (w_dex w).
Proof.
  intros Hi Hr. unfold auctionErthOwed in Hr. apply bind_ok in Hr as (a' & w1 & [-> ->]%get_dex_ok & Hr).
  unfold auction_hub, open_bid, auction_inv in *. destruct (k_LiquidityAuction (w_dex w)) as [a|]; [|by apply ret_ok in Hr as [= -> -> ->]].
  destruct Hi as (_ & _ & Hb & Hp & Hc & _ & _ & _ & Hst). unfold auction_holds. rewrite (bool_decide_eq_true_2 (hub_denom = hub_denom)) by done.
  assert (∀ x y (r : Z), 0 ≤ y → (if 0 <? y then IntAdd x y else mret x) = Ok r → r = x + y) as Hadd.
  { intros x y r Hy. destruct (Z.ltb_spec 0 y); [by intros [-> _]%IntAdd_ok|intros [= ->]; lia]. }
  assert (∀ r, (if bool_decide (la_Status a = AUCTION_STATUS_SETTLED) then false else true) = true →
    (owed ← lift (if 0 <? Amount (la_ErthForBidders a) then IntAdd 0 (Amount (la_ErthForBidders a)) else mret 0);
     owed ← lift (if 0 <? Amount (la_ErthForPool a) then IntAdd owed (Amount (la_ErthForPool a)) else mret owed);
     if bool_decide (la_Status a = AUCTION_STATUS_OPEN) && (0 <? la_TotalRaised a) && negb (bool_decide (la_BidDenom a = ""))
     then mret (owed, la_BidDenom a) else mret (owed, "")) w = Ok (r, w') →
    w' = w ∧ r = (Amount (la_ErthForBidders a) + Amount (la_ErthForPool a), if bool_decide (la_Status a = AUCTION_STATUS_OPEN) &&
      (0 <? la_TotalRaised a) && negb (bool_decide (la_BidDenom a = "")) then la_BidDenom a else "")) as Hun.
  { clear Hr. intros r _ Hr. apply bind_ok in Hr as (x & w1 & [->%Hadd ->]%lift_ok & Hr); [|done].
    apply bind_ok in Hr as (y & w1 & [->%Hadd ->]%lift_ok & Hr); [|done].
    destruct (_ && _); apply ret_ok in Hr as [= -> ->]; done. }
  destruct (la_Status a) eqn:Es.
  4: { apply bind_ok in Hr as (r & w1 & [[-> _]%IntSub_ok ->]%lift_ok & Hr). apply ret_ok in Hr as [= -> -> ->].
       split_and!; [done| |done]. destruct (Z.ltb_spec 0 (Amount (la_ErthForBidders a) - la_Claimed a)); lia. }
  all: apply Hun in Hr as [-> [= -> ->]]; [|done].
  all: split_and!; [done| |].
  all: try (rewrite bool_decide_eq_false_2; [lia|intros [E E']; try discriminate E; by destruct Hst as [? _]]).
  all: try done.
  destruct Hst as (_ & _ & Hne & _). rewrite (bool_decide_eq_false_2 _ Hne). cbn [negb]. by rewrite andb_true_r.
Qed.

Lemma checkErthSolvency_ok w u w' :
  auction_inv (w_dex w) → checkErthSolvency w = Ok (u, w') →
  w' = w ∧ GetBalance (w_bank w) dex_addr hub_denom = default 0 (k_TotalPoolErth (w_dex w)) + auction_hub (w_dex w) + pending (w_dex w).
Proof.
  intros Hi Hr. unfold checkErthSolvency, HubDenom, getTotalPoolErth, getPendingLpRewards in Hr.
  apply bind_ok in Hr as (hub & w1 & [Eh ->]%lift_ok & Hr). rewrite host_bond_denom in Eh. injection Eh as <-.
  apply bind_ok in Hr as (t & w1 & [-> ->]%get_dex_ok & Hr). apply bind_ok in Hr as ([o d] & w1 & Ha & Hr).
  apply auctionErthOwed_ok in Ha as (-> & -> & _); [|done]. apply bind_ok in Hr as (p & w1 & [-> ->]%get_dex_ok & Hr).
  apply bind_ok in Hr as (x & w1 & [[-> _]%IntAdd_ok ->]%lift_ok & Hr). apply bind_ok in Hr as (y & w1 & [[-> _]%IntAdd_ok ->]%lift_ok & Hr).
  apply bind_ok in Hr as (b & w1 & [-> ->]%get_bank_ok & Hr). apply bind_ok in Hr as (u1 & w1 & [H1'%Z.ltb_ge ->]%refuse_if_ok & [H2'%Z.ltb_ge ->]%refuse_if_ok).
  split; [done|]. unfold pending. lia.
Qed.

Lemma checkPoolTokenSolvency_ok w id p u w' :
  auction_inv (w_dex w) → k_Pool (w_dex w) !! id = Some p → Denom (pl_ReserveToken p) ≠ "" →
  open_bid (w_dex w) ≠ Denom (pl_ReserveToken p) → checkPoolTokenSolvency id w = Ok (u, w') →
  w' = w ∧ GetBalance (w_bank w) dex_addr (Denom (pl_ReserveToken p)) = Amount (pl_ReserveToken p).
Proof.
  intros Hi Hp Hd Hb Hr. unfold checkPoolTokenSolvency in Hr. apply bind_ok in Hr as (p' & w1 & [-> ->]%get_dex_ok & Hr).
  rewrite Hp in Hr. cbv zeta in Hr. rewrite (bool_decide_eq_false_2 _ Hd) in Hr. apply bind_ok in Hr as ([o d] & w1 & Ha & Hr).
  apply auctionErthOwed_ok in Ha as (-> & _ & ->); [|done]. rewrite (bool_decide_eq_false_2 _ Hb) in Hr.
  apply bind_ok in Hr as (b & w1 & [-> ->]%get_bank_ok & Hr). apply bind_ok in Hr as (u1 & w1 & [H1'%Z.ltb_ge ->]%refuse_if_ok & [H2'%Z.ltb_ge ->]%refuse_if_ok).
  split; [done|lia].
Qed.

Lemma checkAuctionBidSolvency_ok w u w' :
  auction_inv (w_dex w) → checkAuctionBidSolvency w = Ok (u, w') →
  w' = w ∧ (open_bid (w_dex w) ≠ "" → ∃ a, k_LiquidityAuction (w_dex w) = Some a ∧ open_bid (w_dex w) = la_BidDenom a ∧
    la_Status a = AUCTION_STATUS_OPEN ∧ GetBalance (w_bank w) dex_addr (la_BidDenom a) = la_TotalRaised a).
Proof.
  intros Hi Hr. unfold checkAuctionBidSolvency in Hr. apply bind_ok in Hr as (a' & w1 & [-> ->]%get_dex_ok & Hr).
  unfold open_bid. destruct (k_LiquidityAuction (w_dex w)) as [a|] eqn:Ea; [|by apply ret_ok in Hr as [= _ ->]].
  destruct (negb _ || _ || _) eqn:E.
  - apply ret_ok in Hr as [= _ ->]. split; [done|]. intros Hne. exfalso.
    destruct (bool_decide (la_Status a = AUCTION_STATUS_OPEN)) eqn:Es; cbn [andb negb orb] in *; [|done].
    destruct (0 <? la_TotalRaised a); cbn [negb] in E; [|done]. by rewrite orb_false_r, bool_decide_eq_true in E.
  - apply orb_false_iff in E as [[Es _]%orb_false_iff Ep]. apply negb_false_iff, bool_decide_eq_true in Es. apply negb_false_iff in Ep.
    apply bind_ok in Hr as (b & w1 & [-> ->]%get_bank_ok & [Eb%negb_false_iff%Z.eqb_eq ->]%refuse_if_ok). split; [done|].
    intros _. exists a. by rewrite (bool_decide_eq_true_2 _ Es), Ep.
Qed.

(** The check passes: the account holds what the records owe, of every denom they name. *)
Lemma assertGenesisFunded_ok w u w' :
  pools_inv (w_dex w) → auction_inv (w_dex w) → (∀ id p, k_Pool (w_dex w) !! id = Some p → Denom (pl_ReserveToken p) ≠ "") →
  assertGenesisFunded w = Ok (u, w') →
  w' = w ∧
  GetBalance (w_bank w) dex_addr hub_denom = owed (w_dex w) hub_denom ∧
  (∀ id p, k_Pool (w_dex w) !! id = Some p → GetBalance (w_bank w) dex_addr (Denom (pl_ReserveToken p)) = Amount (pl_ReserveToken p)) ∧
  (open_bid (w_dex w) ≠ "" → GetBalance (w_bank w) dex_addr (open_bid (w_dex w)) = owed (w_dex w) (open_bid (w_dex w))) ∧
  (∀ id, lp_claims (w_dex w) id ≤ GetBalance (w_bank w) dex_addr (LPShareDenom id)).
Proof.
  intros Hpi Hai Hd Hr. unfold assertGenesisFunded in Hr.
  apply bind_ok in Hr as (u1 & w1 & [-> He]%checkErthSolvency_ok & Hr); [|done].
  apply bind_ok in Hr as (u2 & w1 & [-> Hbid]%checkAuctionBidSolvency_ok & Hr); [|done].
  apply bind_ok in Hr as (ids & w1 & [-> ->]%get_dex_ok & Hr). apply bind_ok in Hr as ([] & w1 & Hloop & Hr).
  assert (open_bid (w_dex w) ≠ "" → k_PoolByToken (w_dex w) !! open_bid (w_dex w) = None) as Hnone.
  { intros Hne. destruct (Hbid Hne) as (a & Ea & -> & Es & _). unfold auction_inv in Hai. rewrite Ea, Es in Hai.
    by destruct Hai as (_&_&_&_&_&_&_&_&_&_&_&?&_). }
  assert (∀ id p, k_Pool (w_dex w) !! id = Some p → open_bid (w_dex w) ≠ Denom (pl_ReserveToken p)) as Hob.
  { intros id p Hp E. pose proof (po_by_token _ _ _ (pi_pool _ Hpi _ _ Hp)) as Ht. rewrite <-E in Ht.
    rewrite Hnone in Ht; [done|]. rewrite E. by eapply Hd. }
  assert (w1 = w ∧ ∀ id, id ∈ iter_keys (k_Pool (w_dex w)) → ∃ u, checkPoolTokenSolvency id w = Ok (u, w)) as [-> Hall].
  { clear Hr. revert Hloop. induction (iter_keys (k_Pool (w_dex w))) as [|id l IH]; cbn [for_each].
    - intros [= ->]%ret_ok. split; [done|]. by intros ? ?%elem_of_nil.
    - intros Hr. apply bind_ok in Hr as (u3 & w2 & Hc & Hr). pose proof (checkPoolTokenSolvency_ro _ _ _ _ Hc) as ->.
      destruct (IH Hr) as [-> Hl]. split; [done|]. intros i [->|Hi]%elem_of_cons; [by eexists|by apply Hl]. }
  apply bind_ok in Hr as (rep & w1 & Hrep & [Hemp ->]%refuse_if_ok). destruct rep; [|done].
  apply CheckShareBacking_ok in Hrep as (-> & _ & Hback).
  split_and!; [done| | | |].
  - rewrite (hub_owed _ Hpi). exact He.
  - intros id p Hp. destruct (Hall id) as [u3 Hc]; [apply elem_of_iter_keys; by exists p|].
    by apply (checkPoolTokenSolvency_ok w id p u3 w) in Hc as [_ ?]; [|done|done|eapply Hd|eapply Hob].
  - intros Hne. destruct (Hbid Hne) as (a & Ea & -> & Es & Hb). rewrite Hb. symmetry. by apply bid_owed.
  - intros id. destruct (k_PolBurns (w_dex w) !! id) as [b|] eqn:Eb; [by apply Hback; left; exists b|].
    destruct (decide (escrowed (w_dex w) id = 0)) as [Ez|Hz]; [|by apply Hback; right].
    unfold lp_claims, pol_remaining. rewrite Ez, Eb. apply GetBalance_range.
Qed.
End funded.

(** ** The imported state is a good one *)
(** An entry of the keys and values of a list. *)
Lemma zip_entry {A V K} (f : A → outcome K) (g : A → V) l ks k v :
  Forall2 (λ x k, f x = Ok k) l ks → (k, v) ∈ zip ks (g <$> l) → ∃ x, x ∈ l ∧ f x = Ok k ∧ v = g x.
Proof.
  intros Hks Hin. apply list_elem_of_lookup in Hin as [i Hi]. apply lookup_zip_with_Some in Hi as (k' & u' & [= <- <-] & Hk & Hu).
  apply list_lookup_fmap_Some in Hu as (x & -> & Hx). exists x. split; [by eapply list_elem_of_lookup_2|]. split; [|done].
  exact (Forall2_lookup_lr _ _ _ _ _ _ Hks Hx Hk).
Qed.

Section imported_inv.
Context `{HostLaws, !ShieldedKeeper}.
Implicit Types (w : World) (s : DexStore) (gs : DexGenesis).

(** What the bidders who have claimed took of the file's earmark. *)
Definition claims_in (a : GenesisAuction) (bids : list GenesisBid) : Z :=
  list_sum (λ b, if gb_Claimed b then default 0 (gc_Amount (ga_ErthForBidders a)) * default 0 (gb_Amount b) / bids_sum bids else 0) bids.

(** What [Validate] leaves to the file's author: the hub is the bond denom, denoms are denoms, and the auction is in a
    state its own handlers could have left. *)
Definition auction_file_ok gs (a : GenesisAuction) : Prop :=
  gc_Denom (ga_ErthForBidders a) = hub_denom ∧
  match ga_Status a with
  | AUCTION_STATUS_OPEN => ga_BidDenom a ≠ hub_denom ∧ IsLPShareDenom (ga_BidDenom a) = false ∧
      ga_BidDenom a ∉ (λ p, token_of p) <$> dg_PoolMap gs ∧ default 0 (ga_Claimed a) = 0
  | AUCTION_STATUS_SETTLED => 0 < bids_sum (dg_AuctionBids gs) ∧ default 0 (ga_Claimed a) = claims_in a (dg_AuctionBids gs)
  | _ => dg_AuctionBids gs = [] ∧ default 0 (ga_Claimed a) = 0
  end.
Record file_ok gs : Prop := {
  fo_hub : ∀ p, p ∈ dg_PoolMap gs → gc_Denom (gp_ReserveErth p) = hub_denom;
  fo_hub_lp : IsLPShareDenom hub_denom = false;
  fo_tokens : ∀ p, p ∈ dg_PoolMap gs → token_of p ≠ "";
  fo_auction : ∀ a, dg_LiquidityAuction gs = Some a → auction_file_ok gs a;
}.

(** The account addresses among the file's withdrawals are not of the 33 bytes of a private withdrawal's id (the chain's
    are of 20 or 32), so that no two entries share a store key. *)
Definition addresses_not_ids gs : Prop :=
  ∀ g b, g ∈ dg_LpUnbondings gs → StringToBytes (gu_Address g) = Ok b → length b ≠ 33%nat.

(** A record says what the file says of it, field by field; an amount the file leaves out is zero, a schedule's remainder it
    leaves out the whole. *)
Definition says_coin (g : GenesisCoin) (c : Coin) : Prop := Denom c = gc_Denom g ∧ Amount c = default 0 (gc_Amount g).
Definition says_pool (g : GenesisPool) (p : Pool) : Prop :=
  pl_PoolId p = gp_PoolId g ∧ says_coin (gp_ReserveErth g) (pl_ReserveErth p) ∧ says_coin (gp_ReserveToken g) (pl_ReserveToken p) ∧
  pl_VolumeWeight p = default 0 (gp_VolumeWeight g) ∧ pl_LastTradedDay p = gp_LastTradedDay g.
Definition says_withdrawal (g : GenesisUnbonding) (u : LpUnbonding) : Prop :=
  ub_Address u = gu_Address g ∧ ub_PoolId u = gu_PoolId g ∧ says_coin (gu_Shares g) (ub_Shares u) ∧
  ub_CompletionTime u = gu_CompletionTime g ∧ ub_Pc u = gu_Pc g ∧ ub_Ciphertext u = gu_Ciphertext g ∧ ub_ErthPc u = gu_ErthPc g ∧
  ub_ErthCiphertext u = gu_ErthCiphertext g ∧ ub_WithdrawalId u = gu_WithdrawalId g ∧ ub_PayoutAttempts u = gu_PayoutAttempts g.
Definition says_auction (g : GenesisAuction) (a : LiquidityAuction) : Prop :=
  la_Status a = ga_Status g ∧ la_BidDenom a = ga_BidDenom g ∧ la_EndTime a = ga_EndTime g ∧
  says_coin (ga_ErthForBidders g) (la_ErthForBidders a) ∧ says_coin (ga_ErthForPool g) (la_ErthForPool a) ∧
  la_TotalRaised a = default 0 (ga_TotalRaised g) ∧ la_PoolId a = ga_PoolId g ∧ la_Claimed a = default 0 (ga_Claimed g).
Definition says_bid (g : GenesisBid) (b : AuctionBid) : Prop :=
  ab_Bidder b = gb_Bidder g ∧ ab_Amount b = default 0 (gb_Amount g) ∧ ab_Claimed b = gb_Claimed g.
Definition says_schedule (g : GenesisPolBurn) (b : PolBurn) : Prop :=
  pb_PoolId b = gl_PoolId g ∧ pb_TotalShares b = default 0 (gl_TotalShares g) ∧
  pb_SharesRemaining b = default (default 0 (gl_TotalShares g)) (gl_SharesRemaining g) ∧
  pb_StartTime b = gl_StartTime g ∧ pb_DurationSeconds b = gl_DurationSeconds g ∧ pb_BurnToken b = gl_BurnToken g.

Lemma says_coin_in g c : says_coin g c ↔ c = coin_in g.
Proof. destruct c. unfold says_coin, coin_in. cbn. split; [by intros [-> ->]|by intros [= -> ->]]. Qed.
Lemma says_pool_in g p : says_pool g p ↔ p = pool_in g.
Proof. destruct p. unfold says_pool, pool_in. rewrite !says_coin_in. cbn. split; [by intros (-> & -> & -> & -> & ->)|by intros [= -> -> -> -> ->]]. Qed.
Lemma says_withdrawal_in g u : says_withdrawal g u ↔ u = unbonding_in g.
Proof.
  destruct u. unfold says_withdrawal, unbonding_in. rewrite !says_coin_in. cbn.
  split; [by intros (-> & -> & -> & -> & -> & -> & -> & -> & -> & ->)|by intros [= -> -> -> -> -> -> -> -> -> ->]].
Qed.
Lemma says_auction_in g a : says_auction g a ↔ a = auction_in g.
Proof.
  destruct a. unfold says_auction, auction_in. rewrite !says_coin_in. cbn.
  split; [by intros (-> & -> & -> & -> & -> & -> & -> & ->)|by intros [= -> -> -> -> -> -> -> ->]].
Qed.
Lemma says_bid_in g b : says_bid g b ↔ b = bid_in g.
Proof. destruct b. unfold says_bid, bid_in. cbn. split; [by intros (-> & -> & ->)|by intros [= -> -> ->]]. Qed.
Lemma says_schedule_in g b : says_schedule g b ↔ b = pol_in g.
Proof. destruct b. unfold says_schedule, pol_in. cbn. split; [by intros (-> & -> & -> & -> & -> & ->)|by intros [= -> -> -> -> -> ->]]. Qed.

(** The key of a withdrawal of the file: its completion time, its pool, and its account or, of a private one, its id. *)
Definition withdrawal_key (g : GenesisUnbonding) (k : UnbondKey) : Prop :=
  ∃ a, k = (gu_CompletionTime g, gu_PoolId g, a) ∧ if bool_decide (gu_Address g = "") then a = gu_WithdrawalId g else StringToBytes (gu_Address g) = Ok a.
Lemma withdrawal_key_in g k : withdrawal_key g k ↔ LpUnbondingKey (unbonding_in g) = Ok k.
Proof.
  unfold withdrawal_key, LpUnbondingKey. cbn. case_bool_decide.
  - split; [by intros (? & -> & ->)|]. intros [= <-]. by eexists.
  - rewrite outcome_bind_ok. split; [intros (a & -> & Ea)|intros (a & Ea & [= <-])]; by exists a.
Qed.

(** The store says what the file says, in a block of time [t]: every record and figure of the file, and no other.  A pool
    whose due day the file does not list is due a stale period from [t]; the running indices of the rewards start again at 0. *)
Record holds_file gs (t : Z) s : Prop := {
  hf_params : k_Params s = Some (dg_Params gs);
  hf_pools id p : k_Pool s !! id = Some p ↔ ∃ g, g ∈ dg_PoolMap gs ∧ gp_PoolId g = id ∧ says_pool g p;
  hf_tokens d id : k_PoolByToken s !! d = Some id ↔ ∃ g, g ∈ dg_PoolMap gs ∧ token_of g = d ∧ id = gp_PoolId g;
  hf_seq : (∀ g, g ∈ dg_PoolMap gs → gp_PoolId g < k_PoolSeq s) ∧ (k_PoolSeq s = 0 ∨ ∃ g, g ∈ dg_PoolMap gs ∧ k_PoolSeq s = gp_PoolId g + 1);
  hf_erth : default 0 (k_TotalPoolErth s) = erth_sum (dg_PoolMap gs);
  hf_volume : k_LpTotalVolume s = Some (weight_sum (dg_PoolMap gs));
  hf_index : k_LpRewardIndex s = Some 0 ∧ ∀ id i, k_PoolLpIndex s !! id = Some i ↔ ∃ g, g ∈ dg_PoolMap gs ∧ gp_PoolId g = id ∧ i = 0;
  hf_pending : k_PendingLpRewards s = Some (default 0 (dg_PendingLpRewards gs));
  hf_volume_index : default 0 (k_VolumeIndex s) = default 0 (dg_VolumeIndex gs);
  hf_volume_day : k_VolumeIndexDay s = if 0 <? dg_VolumeIndexDay gs then Some (dg_VolumeIndexDay gs) else None;
  hf_stale id d : k_PoolStaleDue s !! id = Some d ↔
    (∃ g, g ∈ dg_PoolMap gs ∧ gp_PoolId g = id ∧ 0 < weight_of g) ∧
    ((∃ e, e ∈ dg_PoolStaleDue gs ∧ sd_pool e = id ∧ d = sd_due e) ∨
     (id ∉ sd_pool <$> dg_PoolStaleDue gs ∧ d = wrap_i64 (t + PoolStaleSeconds)));
  hf_prices id c : k_PriceCumulative s !! id = Some c ↔ ∃ a, a ∈ dg_PriceAccumulators gs ∧ pa_PoolId a = id ∧ c = default 0 (pa_Cumulative a);
  hf_observed id o : k_PriceObservedAt s !! id = Some o ↔ ∃ a, a ∈ dg_PriceAccumulators gs ∧ pa_PoolId a = id ∧ o = pa_ObservedAt a;
  hf_withdrawals k u : k_LpUnbondings s !! k = Some u → ∃ g, g ∈ dg_LpUnbondings gs ∧ withdrawal_key g k ∧ says_withdrawal g u;
  hf_withdrawn g : g ∈ dg_LpUnbondings gs → ∃ k u, withdrawal_key g k ∧ k_LpUnbondings s !! k = Some u ∧
    (addresses_not_ids gs → says_withdrawal g u);
  hf_auction a : k_LiquidityAuction s = Some a ↔ ∃ g, dg_LiquidityAuction gs = Some g ∧ says_auction g a;
  hf_bids a b : k_AuctionBids s !! a = Some b ↔ ∃ g, g ∈ dg_AuctionBids gs ∧ StringToBytes (gb_Bidder g) = Ok a ∧ says_bid g b;
  hf_schedules id b : k_PolBurns s !! id = Some b ↔ ∃ g, g ∈ dg_PolBurns gs ∧ gl_PoolId g = id ∧ says_schedule g b;
}.

(** The module's account holds no coin of a denom the file says nothing about. *)
Definition accounted gs (d : string) : Prop :=
  d = hub_denom ∨ d ∈ (λ p, token_of p) <$> dg_PoolMap gs ∨
  ∃ a, dg_LiquidityAuction gs = Some a ∧ ga_Status a = AUCTION_STATUS_OPEN ∧ 0 < bids_sum (dg_AuctionBids gs) ∧ d = ga_BidDenom a.
Definition nothing_else gs w : Prop :=
  ∀ d, IsLPShareDenom d = false → ¬ accounted gs d → GetBalance (w_bank w) dex_addr d = 0.

Section parts.
Context (gs : DexGenesis) (w : World) (s : DexStore).
Hypothesis (Hv : dex_genesis_valid hub_denom gs) (Hw : words_ok gs) (Hf : file_ok gs) (Hio : import_of gs w s).

Lemma pool_lookup id p : k_Pool s !! id = Some p ↔ ∃ g, g ∈ dg_PoolMap gs ∧ gp_PoolId g = id ∧ p = pool_in g.
Proof. destruct Hio as [_ _ _ (te & dirty & m & ks & bs & _ & _ & ->)]. apply file_map_lookup, Hv. Qed.

Lemma token_lookup d id : k_PoolByToken s !! d = Some id ↔ ∃ g, g ∈ dg_PoolMap gs ∧ token_of g = d ∧ id = gp_PoolId g.
Proof. destruct Hio as [_ _ _ (te & dirty & m & ks & bs & _ & _ & ->)]. apply (file_map_lookup (λ p, token_of p) gp_PoolId), Hv. Qed.

Lemma pool_some id : id ∈ gp_PoolId <$> dg_PoolMap gs → is_Some (k_Pool s !! id).
Proof. intros (g & -> & Hg)%list_elem_of_fmap. exists (pool_in g). apply pool_lookup. by exists g. Qed.

Lemma pool_sum (f : Pool → Z) : map_sum (λ _, f) (k_Pool s) = list_sum (λ g, f (pool_in g)) (dg_PoolMap gs).
Proof. destruct Hio as [_ _ _ (te & dirty & m & ks & bs & _ & _ & ->)]. apply (file_map_sum gp_PoolId pool_in (λ _, f)), Hv. Qed.

Lemma last_zero id : lp_last s id = 0.
Proof.
  destruct Hio as [_ _ _ (te & dirty & m & ks & bs & _ & _ & ->)]. unfold lp_last. cbn [imported k_PoolLpIndex].
  destruct (insert_all (index_entries (dg_PoolMap gs)) ∅ !! id) as [v|] eqn:E; [|done].
  apply insert_all_some in E as [(g & [= _ ->] & _)%list_elem_of_fmap|[=]]. done.
Qed.

Lemma imported_scalars :
  lp_index s = 0 ∧ pending s = default 0 (dg_PendingLpRewards gs) ∧ total_volume s = weight_sum (dg_PoolMap gs) ∧
  k_Params s = Some (dg_Params gs) ∧ k_LiquidityAuction s = auction_in <$> dg_LiquidityAuction gs.
Proof. by destruct Hio as [_ _ _ (te & dirty & m & ks & bs & _ & _ & ->)]. Qed.

Lemma imported_pools_inv : pools_inv s.
Proof.
  destruct imported_scalars as (Ei & Ep & Et & _). pose proof Hv as Hv'. destruct Hv' as []. destruct Hf as [Hh Hlp _ _].
  pose proof Hio as [Hte [Hseq Hlt] _ _]. rewrite Forall_forall in gv_pools.
  assert (∀ g, g ∈ dg_PoolMap gs → ∃ e t, gc_Amount (gp_ReserveErth g) = Some e ∧ gc_Amount (gp_ReserveToken g) = Some t ∧
    0 ≤ e ≤ MaxPoolAmount ∧ 0 ≤ t ≤ MaxPoolAmount) as Ham.
  { intros g Hg. destruct (gv_pools g Hg) as [_ _ (e & ? & ?) (t & ? & ?) _ _ _]. by exists e, t. }
  split.
  - intros id p (g & Hg & <- & ->)%pool_lookup. destruct (Ham g Hg) as (e & t & Ee & Et' & He & Ht).
    destruct (gv_pools g Hg) as [Hlt' _ _ _ Hh' Ht' Hwt]. destruct Hw as [Hids _]. rewrite Forall_forall in Hids.
    split; cbn; rewrite ?Ee, ?Et'; try done.
    + split; [apply (Hids g Hg)|by apply Hlt].
    + apply token_lookup. by exists g.
    + by rewrite last_zero, Ei.
  - intros d id (g & Hg & <- & ->)%token_lookup. exists (pool_in g). split; [|done]. apply pool_lookup. by exists g.
  - rewrite Hte, pool_sum. done.
  - rewrite Et, pool_sum. done.
  - rewrite (map_sum_ext _ (λ _ _, 0)); [rewrite map_sum_zero, Ep; unfold lpIndexPrecision; lia|].
    intros id p _. by rewrite last_zero, Ei, Z.mul_0_r.
  - by rewrite Ei.
  - done.
  - done.
Qed.

Lemma bid_lookup addr b :
  k_AuctionBids s !! addr = Some b → ∃ g, g ∈ dg_AuctionBids gs ∧ b = bid_in g.
Proof.
  destruct Hio as [_ _ _ (te & dirty & m & ks & bs & _ & Hbs & ->)]. cbn [imported k_AuctionBids].
  intros [Hin%elem_of_zip_r|[=]]%insert_all_some. by apply list_elem_of_fmap in Hin as (g & -> & Hg); exists g.
Qed.

Lemma bid_sum (f : AuctionBid → Z) : codec_lower →
  map_sum (λ _, f) (k_AuctionBids s) = list_sum (λ g, f (bid_in g)) (dg_AuctionBids gs).
Proof.
  intros Hc. destruct Hio as [_ _ _ (te & dirty & m & ks & bs & _ & Hbs & ->)]. cbn [imported k_AuctionBids].
  pose proof (mapM_NoDup _ (λ b, ToLower (gb_Bidder b)) _ _ (λ x y k, Hc _ _ k) Hbs (gv_bidders _ _ Hv)) as Hnd.
  apply mapM_Forall2, Forall2_length in Hbs as Hlen.
  rewrite insert_all_sum, map_sum_empty; [|by rewrite fst_zip by (rewrite length_fmap; lia)|intros; apply lookup_empty].
  rewrite Z.add_0_l. transitivity (list_sum f (zip bs (bid_in <$> dg_AuctionBids gs)).*2).
  - by rewrite list_sum_fmap.
  - by rewrite snd_zip, list_sum_fmap by (rewrite length_fmap; lia).
Qed.

Lemma no_bids : dg_AuctionBids gs = [] → k_AuctionBids s = ∅.
Proof.
  intros E. apply map_empty. intros k. destruct (k_AuctionBids s !! k) eqn:Eb; [|done].
  apply bid_lookup in Eb as (g & Hg & _). rewrite E in Hg. by apply elem_of_nil in Hg.
Qed.

Lemma imported_auction_inv : codec_lower → auction_inv s.
Proof.
  intros Hc. destruct imported_scalars as (_ & _ & _ & _ & Ea). unfold auction_inv. rewrite Ea.
  destruct (dg_LiquidityAuction gs) as [a|] eqn:E; cbn [fmap option_fmap option_map]; [|apply no_bids; by apply (gv_no_auction _ _ Hv)].
  destruct (gv_auction _ _ Hv a E) as (((x & Hx & Eb & Ep) & Hd & _ & Ho) & Hr & Hcl). destruct (fo_auction _ Hf a E) as [Hh Hst].
  pose proof (gv_bids _ _ Hv) as Hb. rewrite E in Hb. cbn [auction_settled] in Hb. rewrite Forall_forall in Hb.
  assert (∀ g, g ∈ dg_AuctionBids gs → 0 < default 0 (gb_Amount g)) as Hpos.
  { intros g Hg. destruct (Hb g Hg) as [(y & Ey & Hy) _]. by rewrite Ey. }
  assert (0 ≤ bids_sum (dg_AuctionBids gs)) as Hs by (eapply bids_sum_nonneg, (gv_bids _ _ Hv)).
  cbn. rewrite Eb, Ep in *. cbn [default from_option id] in *. split_and!; try done; try lia.
  - congruence.
  - rewrite bid_sum by done. exact Hr.
  - intros addr b (g & Hg & ->)%bid_lookup. by apply Hpos.
  - destruct (ga_Status a) eqn:Es.
    + destruct Hst as [Hn ?]. split; [by apply no_bids|done].
    + destruct Hst as [Hn ?]. split; [by apply no_bids|done].
    + destruct Hst as (H1' & H2' & H3' & H4'). split_and!; try done; [by apply Ho| |].
      * destruct (k_PoolByToken s !! ga_BidDenom a) as [i|] eqn:Et; [|done].
        apply token_lookup in Et as (g & Hg & Ed & _). exfalso. apply H3'. rewrite <-Ed. by apply (list_elem_of_fmap_2 (λ p, token_of p)).
      * intros addr b (g & Hg & ->)%bid_lookup. destruct (Hb g Hg) as [_ Hcl']. cbn. destruct (gb_Claimed g); [|done].
        by specialize (Hcl' eq_refl).
    + destruct Hst as [H1' H2']. split; [by rewrite Hr|]. rewrite H2'. unfold claimed_shares, claims_in.
      rewrite (bid_sum (λ b, if ab_Claimed b then bid_share _ b else 0)) by done. unfold bid_share. cbn. by rewrite Eb, Hr.
Qed.

Lemma imported_unbond_inv : unbond_inv s.
Proof.
  pose proof Hio as [_ _ _ (te & dirty & m & ks & bs & Hks%mapM_Forall2 & _ & E)].
  split.
  - intros t id a u Hu. assert (∃ g, g ∈ dg_LpUnbondings gs ∧ u = unbonding_in g ∧ LpUnbondingKey u = Ok (t, id, a)) as (g & Hg & -> & Hk).
    { rewrite E in Hu. cbn [imported k_LpUnbondings] in Hu. apply insert_all_some in Hu as [Hin|[=]].
      destruct (zip_entry _ _ _ _ _ _ Hks Hin) as (g & Hg & Hk & ->). by exists g. }
    pose proof (gv_unbondings _ _ Hv) as Hgu. rewrite Forall_forall in Hgu. destruct (Hgu g Hg) as [Hp [(x & Ex & Hx) Hd _ _]].
    assert (gu_CompletionTime g = t ∧ gu_PoolId g = id) as [<- <-].
    { unfold LpUnbondingKey in Hk. case_bool_decide; [by injection Hk|]. cbn in Hk.
      destruct (StringToBytes (gu_Address g)); [by injection Hk|done..]. }
    split_and!; try done; [cbn; by rewrite Ex|by apply pool_some].
  - intros k. rewrite E. cbn [imported k_LpUnbondings k_LpUnbondingsByAddr].
    rewrite union_empty_r_L, elem_of_list_to_set, insert_all_is_Some, lookup_empty. change byAddrKey with by_addr_key.
    split.
    + intros (k' & Ek & Hk')%list_elem_of_fmap. left. replace k with k'; [done|]. destruct k as [[? ?] ?], k' as [[? ?] ?]. cbn in Ek. congruence.
    + intros [Hk|[? [=]]]. by apply list_elem_of_fmap_2.
Qed.

Lemma unbond_keys_apart ks : codec_lower → addresses_not_ids gs →
  mapM (λ u, LpUnbondingKey (unbonding_in u)) (dg_LpUnbondings gs) = Ok ks → NoDup ks.
Proof.
  intros Hc Ha Hks. apply (mapM_NoDup_on _ unbond_name _ _) in Hks; [done| |apply Hv]. clear Hks ks.
  pose proof (gv_unbondings _ _ Hv) as Hgu. rewrite Forall_forall in Hgu.
  assert (∀ g k, g ∈ dg_LpUnbondings gs → LpUnbondingKey (unbonding_in g) = Ok k →
    (gu_Address g = "" ∧ length (gu_WithdrawalId g) = 33%nat ∧ k = (gu_CompletionTime g, gu_PoolId g, gu_WithdrawalId g)) ∨
    (gu_WithdrawalId g = [] ∧ ∃ a, StringToBytes (gu_Address g) = Ok a ∧ length a ≠ 33%nat ∧ k = (gu_CompletionTime g, gu_PoolId g, a))) as Hk.
  { intros g k Hg Hk. destruct (Hgu g Hg) as [_ [_ _ _ (_ & Hp & Hq)]]. unfold LpUnbondingKey in Hk. cbn in Hk. case_bool_decide as E.
    - left. split; [done|]. split; [by apply Hp|congruence].
    - right. split; [by apply Hq|]. apply outcome_bind_ok in Hk as (a & Ea & [= <-]). exists a. split; [done|]. split; [by eapply Ha|done]. }
  intros x y k Hx Hy Hkx Hky. unfold unbond_name.
  destruct (Hk x k Hx Hkx) as [(Ax & Lx & Ex)|(Wx & ax & Ax & Lx & Ex)], (Hk y k Hy Hky) as [(Ay & Ly & Ey)|(Wy & ay & Ay & Ly & Ey)];
    rewrite Ex in Ey; injection Ey as -> -> E.
  - by rewrite Ax, Ay, E.
  - by rewrite <-E in Ly.
  - by rewrite E in Lx.
  - rewrite Wx, Wy. rewrite E in Ax. by rewrite (Hc _ _ _ Ax Ay).
Qed.

Lemma imported_pol_inv : pol_inv s.
Proof.
  pose proof Hio as [_ _ _ (te & dirty & m & ks & bs & _ & _ & E)]. pose proof (gv_pol _ _ Hv) as Hgp. rewrite Forall_forall in Hgp.
  intros id b Hb. rewrite E in Hb. apply (file_map_lookup gl_PoolId pol_in) in Hb as (g & Hg & <- & ->); [|apply Hv].
  destruct (Hgp g Hg) as [Hp [(t & Et' & Ht & Hr) _ _]]. split; [done|]. split; [|by apply pool_some].
  cbn. rewrite Et'. cbn. destruct (gl_SharesRemaining g) as [r|]; cbn; [by apply Hr|lia].
Qed.

Lemma imported_params_inv : params_inv s.
Proof.
  destruct imported_scalars as (_ & _ & _ & Ep & _). destruct Hw as (_ & H1' & H2').
  destruct (ParamsValidate_ok _ _ (gv_params _ _ Hv) H1' H2') as (? & ? & ?). by exists (dg_Params gs).
Qed.

Lemma stale_entries_ids due t : (stale_entries due t (dg_PoolMap gs)).*1 `sublist_of` gp_PoolId <$> dg_PoolMap gs.
Proof.
  unfold stale_entries. induction (dg_PoolMap gs) as [|p l IH]; [constructor|]. cbn [omap list_omap].
  destruct (0 <? weight_of p); cbn; by constructor.
Qed.

Lemma imported_stale_ok : stale_ok s.
Proof.
  pose proof Hio as [_ _ _ (te & dirty & m & ks & bs & _ & _ & ->)].
  intros t id. cbn [imported k_PoolStaleQueue k_PoolStaleDue]. set (es := stale_entries _ _ _).
  rewrite union_empty_r_L, elem_of_list_to_set, insert_all_lookup, lookup_empty, list_elem_of_fmap.
  - split.
    + intros ([i t'] & [= -> ->] & He). by left.
    + intros [He|[_ [=]]]. by exists (id, t).
  - eapply sublist_NoDup; [apply Hv|apply stale_entries_ids].
Qed.

(** A store loaded by keys says what the list it was loaded from says. *)
Lemma loaded_lookup {A V K} `{Countable K} (f : A → outcome K) (g : A → V) l ks k v :
  mapM f l = Ok ks → NoDup ks → insert_all (zip ks (g <$> l)) ∅ !! k = Some v ↔ ∃ x, x ∈ l ∧ f x = Ok k ∧ v = g x.
Proof.
  intros Hks%mapM_Forall2 Hnd. pose proof (Forall2_length _ _ _ Hks) as Hlen.
  rewrite insert_all_lookup, lookup_empty by by rewrite fst_zip by (rewrite length_fmap; lia). split.
  - intros [Hin|[_ [=]]]. by eapply zip_entry.
  - intros (x & Hx & Hk & ->). left. apply list_elem_of_lookup_1 in Hx as [i Hi].
    destruct (Forall2_lookup_l _ _ _ _ _ Hks Hi) as (k' & Hk' & E). replace k' with k in Hk' by congruence.
    apply (list_elem_of_lookup_2 _ i), lookup_zip_with_Some. exists k, (g x). by rewrite list_lookup_fmap, Hi.
Qed.

Lemma imported_bids addr b : codec_lower →
  k_AuctionBids s !! addr = Some b ↔ ∃ g, g ∈ dg_AuctionBids gs ∧ StringToBytes (gb_Bidder g) = Ok addr ∧ b = bid_in g.
Proof.
  intros Hc. destruct Hio as [_ _ _ (te & dirty & m & ks & bs & _ & Hbs & ->)]. cbn [imported k_AuctionBids].
  apply (loaded_lookup (λ b, StringToBytes (gb_Bidder b))); [done|].
  by apply (mapM_NoDup _ (λ b, ToLower (gb_Bidder b)) _ _ (λ x y k, Hc _ _ k) Hbs), Hv.
Qed.

Lemma due_lookup id d :
  default (wrap_i64 (unix w + PoolStaleSeconds)) (due_of gs !! id) = d ↔
  (∃ e, e ∈ dg_PoolStaleDue gs ∧ sd_pool e = id ∧ d = sd_due e) ∨
  (id ∉ sd_pool <$> dg_PoolStaleDue gs ∧ d = wrap_i64 (unix w + PoolStaleSeconds)).
Proof.
  pose proof (file_map_lookup sd_pool sd_due (dg_PoolStaleDue gs) id) as Hl. fold (due_of gs) in Hl.
  destruct (due_of gs !! id) as [d'|] eqn:E; cbn.
  - destruct (proj1 (Hl d' (gv_stale_ids _ _ Hv)) eq_refl) as (e & He & Ei & ->). split.
    + intros <-. left. by exists e.
    + intros [(e' & He' & Ei' & ->)|[Hn _]].
      * assert (Some (sd_due e) = Some (sd_due e')) as [= ->]; [|done]. apply (Hl (sd_due e') (gv_stale_ids _ _ Hv)). by exists e'.
      * destruct Hn. apply list_elem_of_fmap. by exists e.
  - assert (id ∉ sd_pool <$> dg_PoolStaleDue gs) as Hn.
    { intros (e & -> & He)%list_elem_of_fmap. by discriminate (proj2 (Hl (sd_due e) (gv_stale_ids _ _ Hv)) (ex_intro _ e (conj He (conj eq_refl eq_refl)))). }
    split; [intros <-; by right|]. intros [(e & He & <- & _)|[_ ->]]; [|done]. destruct Hn. apply list_elem_of_fmap. by exists e.
Qed.

Lemma stale_lookup id d : k_PoolStaleDue s !! id = Some d ↔
  (∃ g, g ∈ dg_PoolMap gs ∧ gp_PoolId g = id ∧ 0 < weight_of g) ∧
  ((∃ e, e ∈ dg_PoolStaleDue gs ∧ sd_pool e = id ∧ d = sd_due e) ∨
   (id ∉ sd_pool <$> dg_PoolStaleDue gs ∧ d = wrap_i64 (unix w + PoolStaleSeconds))).
Proof.
  rewrite <-due_lookup. destruct Hio as [_ _ _ (te & dirty & m & ks & bs & _ & _ & ->)]. cbn [imported k_PoolStaleDue].
  rewrite insert_all_lookup, lookup_empty by (eapply sublist_NoDup; [apply Hv|apply stale_entries_ids]).
  unfold stale_entries. rewrite list_elem_of_omap. split.
  - intros [(g & Hg & E)|[_ [=]]]. destruct (Z.ltb_spec 0 (weight_of g)); [|done]. injection E as <- <-. split; [by exists g|done].
  - intros [(g & Hg & <- & Hp) <-]. left. exists g. split; [done|]. by rewrite (proj2 (Z.ltb_lt _ _) Hp).
Qed.

(** The store holds the file. *)
Lemma imported_holds : codec_lower → holds_file gs (unix w) s.
Proof.
  intros Hc. pose proof Hio as [Hte Hseq Hlast (te & dirty & m & ks & bs & Hks & Hbs & E)]. split.
  - apply imported_scalars.
  - intros id p. setoid_rewrite says_pool_in. apply pool_lookup.
  - apply token_lookup.
  - split; [apply Hseq|done].
  - done.
  - by rewrite E.
  - rewrite E. split; [done|]. intros id i. apply (file_map_lookup gp_PoolId (λ _, 0)), Hv.
  - by rewrite E.
  - rewrite E. cbn. pose proof (gv_index _ _ Hv). destruct (Z.ltb_spec 0 (default 0 (dg_VolumeIndex gs))); cbn; lia.
  - by rewrite E.
  - apply stale_lookup.
  - intros id c. rewrite E. apply (file_map_lookup pa_PoolId (λ a, default 0 (pa_Cumulative a))), Hv.
  - intros id o. rewrite E. apply (file_map_lookup pa_PoolId pa_ObservedAt), Hv.
  - intros k u Hu. setoid_rewrite withdrawal_key_in. setoid_rewrite says_withdrawal_in. rewrite E in Hu. cbn in Hu. apply insert_all_some in Hu as [Hin|[=]]. by eapply zip_entry; [apply mapM_Forall2|].
  - intros g Hg. pose proof (proj1 (mapM_Forall2 _ _ _) Hks) as Hf2. destruct (list_elem_of_lookup_1 _ _ Hg) as [i Hi].
    destruct (Forall2_lookup_l _ _ _ _ _ Hf2 Hi) as (k & Hk & Ek).
    assert (is_Some (k_LpUnbondings s !! k)) as [u Hu].
    { rewrite E. apply insert_all_is_Some. left. rewrite fst_zip by (rewrite length_fmap; by rewrite (Forall2_length _ _ _ Hf2)).
      by eapply list_elem_of_lookup_2. }
    exists k, u. rewrite withdrawal_key_in, says_withdrawal_in. do 2 (split; [done|]). intros Ha.
    assert (Some u = Some (unbonding_in g)) as [= ->]; [|done]. rewrite <-Hu, E. apply (loaded_lookup (λ u, LpUnbondingKey (unbonding_in u)) unbonding_in (dg_LpUnbondings gs)); [done|by apply unbond_keys_apart|].
    by exists g.
  - intros a. destruct imported_scalars as (_ & _ & _ & _ & ->). setoid_rewrite says_auction_in. apply fmap_Some.
  - intros a b. setoid_rewrite says_bid_in. by apply imported_bids.
  - intros id b. setoid_rewrite says_schedule_in. rewrite E. apply (file_map_lookup gl_PoolId pol_in), Hv.
Qed.

Lemma open_bid_file : open_bid s ≠ "" →
  ∃ a, dg_LiquidityAuction gs = Some a ∧ ga_Status a = AUCTION_STATUS_OPEN ∧ 0 < bids_sum (dg_AuctionBids gs) ∧ open_bid s = ga_BidDenom a.
Proof.
  destruct imported_scalars as (_ & _ & _ & _ & Ea). unfold open_bid. rewrite Ea.
  destruct (dg_LiquidityAuction gs) as [a|] eqn:E; [|done]. cbn. destruct (gv_auction _ _ Hv a E) as (_ & Hr & _). rewrite Hr.
  case_bool_decide; [|done]. destruct (Z.ltb_spec 0 (bids_sum (dg_AuctionBids gs))); [|done]. intros _. by exists a.
Qed.

(** What the file says nothing about is owed nothing. *)
Lemma owed_other d : auction_inv s → d ≠ hub_denom → d ∉ (λ p, token_of p) <$> dg_PoolMap gs → (d = open_bid s → d = "") → owed s d = 0.
Proof.
  intros Hai Hd Ht Hb. unfold owed. rewrite (bool_decide_eq_false_2 _ Hd).
  rewrite (map_sum_ext _ (λ _ _, 0)), map_sum_zero.
  - unfold auction_inv, open_bid in *. destruct (k_LiquidityAuction s) as [a|]; [|done].
    destruct Hai as (_&_&_&_&_&Hr&_&_&Hst). unfold auction_holds. rewrite !(bool_decide_eq_false_2 _ Hd).
    destruct (la_Status a); cbn [bool_decide] in *; try done; try (rewrite bool_decide_eq_false_2; [lia|by intros [? _]]).
    destruct Hst as (_ & _ & Hne & _). destruct (decide (d = la_BidDenom a)) as [->|Hdb].
    + destruct (Z.ltb_spec 0 (la_TotalRaised a)); [by destruct Hne; apply Hb|]. rewrite (bool_decide_eq_true_2 (_ ∧ la_BidDenom a = _)) by done. lia.
    + by rewrite bool_decide_eq_false_2 by by intros [_ ?].
  - intros id p (g & Hg & _ & ->)%pool_lookup. unfold pool_holds. cbn. rewrite (fo_hub _ Hf g Hg).
    assert (hub_denom ≠ d) as Hdn by congruence.
    assert (token_of g ≠ d) as Hdt by (intros <-; apply Ht; by apply (list_elem_of_fmap_2 (λ p, token_of p))).
    by rewrite (bool_decide_eq_false_2 _ Hdn), (bool_decide_eq_false_2 _ Hdt).
Qed.
End parts.

Lemma DexInitGenesis_ok gs w u w' :
  w_dex w = new_store → file_ok gs → words_ok gs → codec_lower → nothing_else gs w →
  DexInitGenesis gs w = Ok (u, w') →
  dex_genesis_valid hub_denom gs ∧ ∃ s, import_of gs w s ∧ w' = upd_dex (λ _, s) w ∧ dex_inv w'.
Proof.
  intros Hnew Hf Hw Hc Hn Hr. unfold DexInitGenesis in Hr. apply bind_ok in Hr as ([] & w1 & [Hv ->]%lift_ok & Hr).
  apply (DexGenesisValidate_spec hub_denom) in Hv; [|apply Hf]. split; [done|].
  apply bind_ok in Hr as (u1 & w1 & (s & Hio & ->)%(init_store_ok hub_denom) & Hr); [|done..].
  pose proof (imported_pools_inv gs w s Hv Hw Hf Hio) as Hpi. pose proof (imported_auction_inv gs w s Hv Hf Hio Hc) as Hai.
  assert (∀ id p, k_Pool s !! id = Some p → Denom (pl_ReserveToken p) ≠ "") as Hd.
  { intros id p (g & Hg & _ & ->)%(pool_lookup gs w s Hv Hio). by apply Hf. }
  apply assertGenesisFunded_ok in Hr as (-> & Hhub & Htok & Hbid & Hlp); [|done..]. cbn in Hhub, Htok, Hbid, Hlp.
  exists s. split; [done|]. split; [done|]. split; cbn; [done|done|by eapply imported_unbond_inv|by eapply imported_pol_inv|
    by eapply imported_params_inv|by eapply imported_stale_ok|]. split; [|intros id _; apply Hlp].
  intros d Hl. destruct (decide (d = hub_denom)) as [->|Hdh]; [done|].
  destruct (decide (d ∈ (λ p, token_of p) <$> dg_PoolMap gs)) as [Hin|Hnin].
  - apply list_elem_of_fmap in Hin as (g & -> & Hg).
    assert (k_Pool s !! gp_PoolId g = Some (pool_in g)) as Hp by (apply (pool_lookup gs w s Hv Hio); by exists g).
    change (token_of g) with (Denom (pl_ReserveToken (pool_in g))). by rewrite (Htok _ _ Hp), (token_owed _ _ _ Hpi Hai Hp).
  - destruct (decide (d = open_bid s)) as [->|Hne].
    + destruct (decide (open_bid s = "")) as [E|E]; [|by apply Hbid].
      rewrite (owed_other gs w s Hv Hf Hio) by done. apply Hn; [done|]. intros [?|[?|(a & Ea & Es & _ & Eb)]]; [done..|].
      destruct (gv_auction _ _ Hv a Ea) as ((_ & _ & _ & Ho) & _). apply (Ho Es). congruence.
    + rewrite (owed_other gs w s Hv Hf Hio) by done. apply Hn; [done|]. intros [?|[?|(a & Ea & Es & Hp & ->)]]; [done..|].
      apply Hne. destruct (imported_scalars gs w s Hio) as (_ & _ & _ & _ & E). unfold open_bid. rewrite E, Ea. cbn.
      destruct (gv_auction _ _ Hv a Ea) as (_ & Hr & _). rewrite Hr, (bool_decide_eq_true_2 _ Es). by rewrite (proj2 (Z.ltb_lt _ _) Hp).
Qed.
End imported_inv.

(** ** Properties *)
Section import_properties.
Context `{HostLaws, !ShieldedKeeper}.
Implicit Types (w : World).

(** C20: A genesis that the dex accepts starts a sound dex that says what the file says: when [InitGenesis] succeeds on an
    empty store, the file is one [Validate] accepts; the state it leaves meets the module's invariant (so, by the theorems on
    reachable states, it stays solvent and its EndBlock never fails); and nothing but the module's store has changed, which
    holds every record and figure of the file and no other ([holds_file]): parameters, pools with their token index and the
    next pool id, the pools' total, volumes, pending rewards, stale days, price accumulators, withdrawals field by field
    under their keys (each of them, if no account address has the length of a private withdrawal's id), the auction, its bids
    and the burn schedules.  What [Validate] leaves to the file's author is a
    hypothesis ([file_ok], [nothing_else]): the hub is the bond denom, an auction's claims add up, the account holds no
    unnamed coin. *)
Theorem dex_genesis_gives_invariant gs w w' :
  w_dex w = new_store → file_ok gs → words_ok gs → codec_lower → nothing_else gs w →
  DexInitGenesis gs w = Ok ((), w') →
  DexGenesisValidate gs = Ok () ∧ dex_inv w' ∧ w' = upd_dex (λ _, w_dex w') w ∧ holds_file gs (unix w) (w_dex w').
Proof.
  intros Hnew Hf Hw Hc Hn Hr. destruct (DexInitGenesis_ok _ _ _ _ Hnew Hf Hw Hc Hn Hr) as (Hv & s & Hio & -> & Hi).
  split; [apply (DexGenesisValidate_spec hub_denom); [apply Hf|done]|]. split; [done|]. split; [done|]. by apply imported_holds.
Qed.
End import_properties.
