(* ===== verification/DexExport.v ===== *)
(** * x/dex: what a chain exports

    [ExportGenesis] writes every pool as if its LP rewards were settled, because [InitGenesis] restarts the reward index at
    zero.  A state that meets the invariant exports without an error, into a file that [Validate] accepts and that imports as
    the same state, its rewards settled. *)

From S2P Require Export DexImport.

(** ** The pools, settled *)
Definition settled_pool (s : DexStore) (id : Z) (p : Pool) : Pool :=
  pl_set_erth (λ c, mkCoin (Denom c) (Amount c + settle_owed s id p)) p.
Definition settled_sum (s : DexStore) : Z := map_sum (settle_owed s) (k_Pool s).

(** The file of a state. *)
Definition exported (ps : Params) (s : DexStore) : DexGenesis := {|
  dg_Params := ps;
  dg_PoolMap := (λ kv : Z * Pool, pool_out (settled_pool s kv.1 kv.2)) <$> iter_map (k_Pool s);
  dg_LpUnbondings := (λ kv : UnbondKey * LpUnbonding, unbonding_out kv.2) <$> iter_map (k_LpUnbondings s);
  dg_LiquidityAuction := auction_out <$> k_LiquidityAuction s;
  dg_AuctionBids := (λ kv : bytes * AuctionBid, bid_out kv.2) <$> iter_map (k_AuctionBids s);
  dg_PolBurns := (λ kv : Z * PolBurn, pol_out kv.2) <$> iter_map (k_PolBurns s);
  dg_PendingLpRewards := Some (pending s - settled_sum s);
  dg_VolumeIndex := Some (default 0 (k_VolumeIndex s));
  dg_VolumeIndexDay := default 0 (k_VolumeIndexDay s);
  dg_PoolStaleDue := (λ kv : Z * Z, mkPoolStaleDue kv.1 kv.2) <$> iter_map (k_PoolStaleDue s);
  dg_PriceAccumulators := (λ kv : Z * Z, mkPriceAccumulator kv.1 (Some (default 0 (k_PriceCumulative s !! kv.1))) kv.2) <$> iter_map (k_PriceObservedAt s) |}.

Section export.
Context `{HostLaws, !ShieldedKeeper}.
Implicit Types (w : World) (s : DexStore).

Lemma pool_in_out p : pool_in (pool_out p) = p.
Proof. by destruct p as [? [] [] ? ?]. Qed.
Lemma unbonding_in_out u : unbonding_in (unbonding_out u) = u.
Proof. by destruct u as [? ? [] ? ? ? ? ? ? ?]. Qed.
Lemma auction_in_out a : auction_in (auction_out a) = a.
Proof. by destruct a as [? ? ? [] [] ? ? ?]. Qed.
Lemma bid_in_out b : bid_in (bid_out b) = b.
Proof. by destruct b. Qed.
Lemma pol_in_out b : pol_in (pol_out b) = b.
Proof. by destruct b. Qed.

Lemma settled_pool_zero s id p : settle_owed s id p = 0 → settled_pool s id p = p.
Proof. intros E. unfold settled_pool, pl_set_erth. rewrite E. destruct p as [? [? ?] ? ? ?]. cbn. by rewrite Z.add_0_r. Qed.

(** One pool's share, and all of them, within what was paid in. *)
Lemma settled_share s id p : pools_inv s → k_Pool s !! id = Some p →
  0 ≤ settle_owed s id p ∧ 0 ≤ pl_VolumeWeight p * (lp_index s - lp_last s id) ≤ pending s * lpIndexPrecision.
Proof.
  intros Hi Hp. destruct (pi_pool _ Hi _ _ Hp). split; [by apply settle_owed_bound|]. split; [nia|].
  etransitivity; [|exact (pi_rewards _ Hi)].
  apply (map_sum_elem_le (λ id p, pl_VolumeWeight p * (lp_index s - lp_last s id)) _ id p); [|done].
  intros i q Hq. destruct (pi_pool _ Hi _ _ Hq). nia.
Qed.

Lemma settled_sum_range s : pools_inv s → 0 ≤ settled_sum s ≤ pending s.
Proof.
  intros Hi. split; [apply map_sum_nonneg; intros i p Hp; by apply settled_share|].
  pose proof (map_sum_floor 1 lpIndexPrecision (λ id p, pl_VolumeWeight p * (lp_index s - lp_last s id)) (k_Pool s) ltac:(done)) as Hf.
  rewrite Z.mul_1_l in Hf. assert (settled_sum s = map_sum (λ id p, 1 * (pl_VolumeWeight p * (lp_index s - lp_last s id)) / lpIndexPrecision) (k_Pool s)) as ->.
  { apply map_sum_ext. intros. unfold settle_owed. by rewrite Z.mul_1_l. }
  etransitivity; [exact Hf|]. apply Z.div_le_upper_bound; [done|]. rewrite (Z.mul_comm lpIndexPrecision). apply Hi.
Qed.

(** Everything the pools hold and are owed is in the account. *)
Lemma hub_held w : dex_inv w → default 0 (k_TotalPoolErth (w_dex w)) + pending (w_dex w) ≤ GetBalance (w_bank w) dex_addr hub_denom.
Proof.
  intros Hi. pose proof (auction_hub_range _ Hi). destruct Hi. destruct di_solvent as [Hs _].
  rewrite (Hs _ (pi_hub _ di_pools)), hub_owed by done. lia.
Qed.

Lemma pool_settled_cap w id p : dex_inv w → k_Pool (w_dex w) !! id = Some p →
  Amount (pl_ReserveErth p) + settle_owed (w_dex w) id p ≤ GetBalance (w_bank w) dex_addr hub_denom.
Proof.
  intros Hi Hp. pose proof (hub_held _ Hi). pose proof (total_erth_ge _ _ _ (di_pools _ Hi) Hp).
  pose proof (settled_sum_range _ (di_pools _ Hi)).
  pose proof (map_sum_elem_le (settle_owed (w_dex w)) _ _ _ (λ i q Hq, proj1 (settled_share _ i q (di_pools _ Hi) Hq)) Hp).
  unfold settled_sum in *. lia.
Qed.

Lemma export_pools_run w l sum :
  dex_inv w → GetBalance (w_bank w) dex_addr hub_denom ≤ MaxPoolAmount →
  (∀ id p, (id, p) ∈ l → k_Pool (w_dex w) !! id = Some p) →
  0 ≤ sum → sum + list_sum (λ kv, settle_owed (w_dex w) kv.1 kv.2) l ≤ pending (w_dex w) →
  export_pools (lp_index (w_dex w)) sum l w =
    Ok (((λ kv, pool_out (settled_pool (w_dex w) kv.1 kv.2)) <$> l, sum + list_sum (λ kv, settle_owed (w_dex w) kv.1 kv.2) l), w).
Proof.
  intros Hi Hcap. assert (MaxPoolAmount = 2 ^ 120) as EM by reflexivity.
  revert sum. induction l as [|[id p] l IH]; intros sum Hl Hs Hle; cbn [export_pools]; [by rewrite list_sum_nil, Z.add_0_r|].
  rewrite list_sum_cons in *. cbn [fst snd] in *.
  assert (k_Pool (w_dex w) !! id = Some p) as Hp by (apply Hl; left).
  destruct (settled_share _ _ _ (di_pools _ Hi) Hp) as [Hx Hm]. pose proof (pool_settled_cap _ _ _ Hi Hp) as Hres.
  pose proof (hub_held _ Hi) as Hheld. pose proof (total_erth_nonneg _ (di_pools _ Hi)). pose proof (pi_index _ (di_pools _ Hi)).
  destruct (pi_pool _ (di_pools _ Hi) _ _ Hp).
  assert (0 ≤ list_sum (λ kv, settle_owed (w_dex w) kv.1 kv.2) l) as Htl.
  { clear -Hi Hl. induction l as [|[i q] l IHl]; [done|]. rewrite list_sum_cons.
    pose proof (settled_share (w_dex w) i q (di_pools _ Hi) ltac:(apply Hl; right; left)) as [? _].
    specialize (IHl ltac:(intros i' q' H'; apply Hl; apply elem_of_cons in H' as [->|?]; [left|right; by right])). cbn. lia. }
  assert (0 ≤ pl_VolumeWeight p * (lp_index (w_dex w) - lp_last (w_dex w) id) < 2 ^ 256) as Hmul
    by (unfold lpIndexPrecision in Hm; lia).
  erewrite run_bind by reflexivity. fold (lp_last (w_dex w) id).
  rewrite (run_bind _ _ w (settled_pool (w_dex w) id p, sum + settle_owed (w_dex w) id p) w).
  - cbv beta iota. rewrite (run_bind _ _ _ _ _ (IH (sum + settle_owed (w_dex w) id p) ltac:(intros; apply Hl; by right) ltac:(lia) ltac:(lia))).
    cbn [fmap list_fmap fst snd]. by rewrite Z.add_assoc.
  - unfold lift. destruct (Z.ltb_spec 0 (pl_VolumeWeight p)).
    + rewrite IntSub_spec, fits_range by nia. cbn [mbind outcome_bind]. rewrite IntMul_spec, fits_range by done. cbn [mbind outcome_bind].
      rewrite IntQuo_spec. change (lpIndexPrecision =? 0) with false. cbv iota. cbn [mbind outcome_bind].
      rewrite quot_div_nonneg by first [lia|done]. fold (settle_owed (w_dex w) id p).
      destruct (Z.ltb_spec 0 (settle_owed (w_dex w) id p)).
      * rewrite IntAdd_fits by lia. cbn [mbind outcome_bind]. rewrite IntAdd_fits by lia. reflexivity.
      * rewrite settled_pool_zero by lia. replace (settle_owed (w_dex w) id p) with 0 by lia. by rewrite Z.add_0_r.
    + assert (settle_owed (w_dex w) id p = 0) as E0 by (unfold settle_owed; replace (pl_VolumeWeight p) with 0 by lia; done).
      rewrite settled_pool_zero, E0, Z.add_0_r by done. done.
Qed.

Lemma export_accumulators_run w l :
  export_accumulators l w = Ok ((λ kv : Z * Z, mkPriceAccumulator kv.1 (Some (default 0 (k_PriceCumulative (w_dex w) !! kv.1))) kv.2) <$> l, w).
Proof.
  induction l as [|[id t] l IH]; [done|]. cbn [export_accumulators]. erewrite run_bind by reflexivity. cbv beta iota.
  by rewrite (run_bind _ _ _ _ _ IH).
Qed.

Lemma DexExportGenesis_run w ps :
  dex_inv w → k_Params (w_dex w) = Some ps → GetBalance (w_bank w) dex_addr hub_denom ≤ MaxPoolAmount →
  DexExportGenesis w = Ok (exported ps (w_dex w), w).
Proof.
  intros Hi Hps Hcap. pose proof (settled_sum_range _ (di_pools _ Hi)) as Hsum.
  assert (list_sum (λ kv, settle_owed (w_dex w) kv.1 kv.2) (iter_map (k_Pool (w_dex w))) = settled_sum (w_dex w)) as Els by apply iter_map_sum.
  unfold DexExportGenesis. rewrite (run_bind _ _ w ps w) by (unfold item; by rewrite Hps).
  rewrite (run_bind _ _ w (lp_index (w_dex w)) w) by done.
  rewrite (run_bind _ _ w (iter_map (k_Pool (w_dex w))) w) by done.
  rewrite (run_bind _ _ _ _ _ (export_pools_run w (iter_map (k_Pool (w_dex w))) 0 Hi Hcap
    (λ id p Hin, proj1 (elem_of_iter_map _ _ _) Hin) (Z.le_refl _) ltac:(rewrite Els; lia))). rewrite Els, Z.add_0_l. cbv beta iota.
  rewrite (run_bind _ _ w (pending (w_dex w)) w) by done.
  rewrite (run_bind _ _ w (pending (w_dex w) - settled_sum (w_dex w)) w).
  2: { unfold lift. pose proof (hub_held _ Hi). pose proof (total_erth_nonneg _ (di_pools _ Hi)).
       pose proof (balance_fits (w_bank w) dex_addr hub_denom). rewrite IntSub_spec, fits_range by lia. done. }
  rewrite (run_bind _ _ w () w) by (unfold refuse_if; by replace (pending (w_dex w) - settled_sum (w_dex w) <? 0) with false by lia).
  do 4 (erewrite run_bind by reflexivity; cbv beta). rewrite (run_bind _ _ _ _ _ (export_accumulators_run w _)).
  run_fwd. reflexivity.
Qed.
End export.

(** ** The file is a valid one *)
Section valid.
Context `{HostLaws, !ShieldedKeeper}.
Implicit Types (w : World) (s : DexStore).

(** What the records look like as the handlers write them. *)
Record exportable (w : World) : Prop := {
  xp_cap : GetBalance (w_bank w) dex_addr hub_denom ≤ MaxPoolAmount;
  xp_seq : k_PoolSeq (w_dex w) < 2 ^ 64;
  xp_tokens : ∀ id p, k_Pool (w_dex w) !! id = Some p → Denom (pl_ReserveToken p) ≠ "";
  xp_volume : total_volume (w_dex w) < 2 ^ MaxBitLen;
  xp_auction : ∀ a, k_LiquidityAuction (w_dex w) = Some a → ValidateDenom hub_denom = true ∧
    0 < Amount (la_ErthForBidders a) ∧ Amount (la_ErthForBidders a) = Amount (la_ErthForPool a) ∧ la_TotalRaised a < 2 ^ MaxBitLen;
  xp_bids : ∀ k b, k_AuctionBids (w_dex w) !! k = Some b → StringToBytes (ab_Bidder b) = Ok k;
  xp_pol : ∀ id b, k_PolBurns (w_dex w) !! id = Some b → 0 < pb_TotalShares b ∧ 0 < pb_DurationSeconds b ∧ 0 ≤ pb_StartTime b;
  xp_entries : ∀ k u, k_LpUnbondings (w_dex w) !! k = Some u →
    LpUnbondingKey u = Ok k ∧ 0 ≤ ub_CompletionTime u ∧ notes_valid (unbonding_out u);
  xp_index : 0 ≤ default 0 (k_VolumeIndex (w_dex w)) ∧ 0 ≤ default 0 (k_VolumeIndexDay (w_dex w));
  xp_stale : ∀ id, is_Some (k_PoolStaleDue (w_dex w) !! id) ↔ ∃ p, k_Pool (w_dex w) !! id = Some p ∧ 0 < pl_VolumeWeight p;
  xp_observed : ∀ id t, k_PriceObservedAt (w_dex w) !! id = Some t → is_Some (k_Pool (w_dex w) !! id) ∧ 0 ≤ t;
  xp_prices : ∀ id c, k_PriceCumulative (w_dex w) !! id = Some c → is_Some (k_PriceObservedAt (w_dex w) !! id) ∧ 0 ≤ c;
}.

Lemma iter_fmap_NoDup {K V A} `{Countable K, KeyCmp K} (f : K * V → A) (m : gmap K V) :
  (∀ k v k' v', m !! k = Some v → m !! k' = Some v' → f (k, v) = f (k', v') → k = k') → NoDup (f <$> iter_map m).
Proof.
  intros Hf. apply NoDup_fmap_2_strong; [|eapply NoDup_fmap_1, iter_map_NoDup].
  intros [k v] [k' v'] Hk%elem_of_iter_map Hk'%elem_of_iter_map E. pose proof (Hf _ _ _ _ Hk Hk' E) as <-. congruence.
Qed.

Lemma elem_iter_fmap {K V A} `{Countable K, KeyCmp K} (f : K * V → A) (m : gmap K V) x :
  x ∈ f <$> iter_map m ↔ ∃ k v, m !! k = Some v ∧ x = f (k, v).
Proof.
  rewrite list_elem_of_fmap. split.
  - intros ([k v] & -> & Hk%elem_of_iter_map). by exists k, v.
  - intros (k & v & Hk & ->). exists (k, v). split; [done|]. by apply elem_of_iter_map.
Qed.

Lemma ToLower_empty x : ToLower x = "" ↔ x = "".
Proof. by destruct x. Qed.

Section of_state.
Context (w : World) (ps : Params).
Hypothesis (Hi : dex_inv w) (Hx : exportable w) (Hps : k_Params (w_dex w) = Some ps) (Hcase : codec_case).
Abbreviation gs := (exported ps (w_dex w)).

Lemma exported_pool g : g ∈ dg_PoolMap gs ↔ ∃ id p, k_Pool (w_dex w) !! id = Some p ∧ g = pool_out (settled_pool (w_dex w) id p).
Proof. apply (elem_iter_fmap (λ kv : Z * Pool, pool_out (settled_pool (w_dex w) kv.1 kv.2))). Qed.

Lemma exported_id i : i ∈ gp_PoolId <$> dg_PoolMap gs ↔ is_Some (k_Pool (w_dex w) !! i).
Proof.
  rewrite list_elem_of_fmap. split.
  - intros (g & -> & (id & p & Hp & ->)%exported_pool). cbn. rewrite (po_id _ _ _ (pi_pool _ (di_pools _ Hi) _ _ Hp)). by exists p.
  - intros [p Hp]. exists (pool_out (settled_pool (w_dex w) i p)). split; [|by apply exported_pool; exists i, p].
    symmetry. apply (pi_pool _ (di_pools _ Hi) _ _ Hp).
Qed.

Lemma exported_bids_sum : bids_sum (dg_AuctionBids gs) = map_sum (λ _ b, ab_Amount b) (k_AuctionBids (w_dex w)).
Proof. unfold bids_sum. cbn [exported dg_AuctionBids]. rewrite list_sum_fmap. apply (iter_map_sum (λ _ b, ab_Amount b)). Qed.

Lemma exported_pools_valid : Forall (pool_valid hub_denom) (dg_PoolMap gs).
Proof.
  apply Forall_forall. intros g (id & p & Hp & ->)%exported_pool. pose proof (pool_settled_cap _ _ _ Hi Hp) as Hc.
  pose proof (xp_cap _ Hx). destruct (settled_share _ _ _ (di_pools _ Hi) Hp) as [Hs _].
  destruct (pi_pool _ (di_pools _ Hi) _ _ Hp). split; cbn; try done.
  - rewrite po_hub. apply (pi_hub _ (di_pools _ Hi)).
  - eexists. split; [done|]. cbn; lia.
  - eexists. by split.
Qed.

Lemma exported_auction_valid a : dg_LiquidityAuction gs = Some a →
  auction_valid a ∧ default 0 (ga_TotalRaised a) = bids_sum (dg_AuctionBids gs) ∧
  0 ≤ default 0 (ga_Claimed a) ≤ default 0 (gc_Amount (ga_ErthForBidders a)).
Proof.
  change (dg_LiquidityAuction gs) with (auction_out <$> k_LiquidityAuction (w_dex w)). rewrite exported_bids_sum.
  destruct (k_LiquidityAuction (w_dex w)) as [b|] eqn:E; [|done]. intros [= <-].
  destruct (xp_auction _ Hx b E) as (Hv & Hp & He & _). pose proof (di_auction _ Hi) as Ha. unfold auction_inv in Ha. rewrite E in Ha.
  destruct Ha as (Hd & Hd' & _ & _ & Hc & _ & Hr & _ & Hst). split; [|by split].
  split_and!; cbn; [|congruence|by rewrite Hd|intros Es; rewrite Es in Hst; apply Hst].
  exists (Amount (la_ErthForBidders b)). split; [done|]. by rewrite He.
Qed.

Lemma exported_bids_valid : Forall (bid_valid (auction_settled (dg_LiquidityAuction gs))) (dg_AuctionBids gs).
Proof.
  apply Forall_forall. intros g (k & b & Hb & ->)%(elem_iter_fmap (λ kv : bytes * AuctionBid, bid_out kv.2)).
  pose proof (di_auction _ Hi) as Ha. unfold auction_inv in Ha. cbn. destruct (k_LiquidityAuction (w_dex w)) as [a|]; [|by rewrite Ha in Hb].
  destruct Ha as (_&_&_&_&_&_&_&Hpos&Hst). split; [exists (ab_Amount b); split; [done|by eapply Hpos]|]. cbn.
  destruct (la_Status a).
  - destruct Hst as [Eb _]. by rewrite Eb in Hb.
  - destruct Hst as [Eb _]. by rewrite Eb in Hb.
  - destruct Hst as (_&_&_&_&_&Hcl). rewrite (Hcl _ _ Hb). done.
  - intros _. done.
Qed.

Lemma exported_names : NoDup (unbond_name <$> dg_LpUnbondings gs).
Proof.
  cbn. rewrite <-list_fmap_compose. apply iter_fmap_NoDup. intros k u k' u' Hu Hu' E.
  destruct (xp_entries _ Hx _ _ Hu) as [Hk _], (xp_entries _ Hx _ _ Hu') as [Hk' _]. injection E as Et Ei Ea Ew.
  unfold LpUnbondingKey in Hk, Hk'. destruct (decide (ub_Address u = "")) as [E0|E0].
  - assert (ub_Address u' = "") as E0' by (apply ToLower_empty; rewrite <-Ea, E0; done).
    rewrite (bool_decide_eq_true_2 _ E0) in Hk. rewrite (bool_decide_eq_true_2 _ E0') in Hk'. congruence.
  - assert (ub_Address u' ≠ "") as E0' by (intros E'; apply E0, ToLower_empty; rewrite Ea, E'; done).
    rewrite (bool_decide_eq_false_2 _ E0) in Hk. rewrite (bool_decide_eq_false_2 _ E0') in Hk'.
    destruct (StringToBytes (ub_Address u)) as [b| |] eqn:Eb; [|done..]. destruct (StringToBytes (ub_Address u')) as [b'| |] eqn:Eb'; [|done..].
    cbn in Hk, Hk'. pose proof (Hcase _ _ _ _ Eb Eb' Ea). congruence.
Qed.

Lemma dex_exported_valid : dex_genesis_valid hub_denom gs.
Proof.
  pose proof Hi as []. split.
  - cbn. rewrite <-list_fmap_compose. apply iter_fmap_NoDup. intros k p k' p' Hp Hp' E. cbn in E.
    rewrite <-(po_id _ _ _ (pi_pool _ di_pools _ _ Hp)), <-(po_id _ _ _ (pi_pool _ di_pools _ _ Hp')). exact E.
  - cbn. rewrite <-list_fmap_compose. apply iter_fmap_NoDup. intros k p k' p' Hp Hp' E. cbn in E.
    pose proof (po_by_token _ _ _ (pi_pool _ di_pools _ _ Hp)). pose proof (po_by_token _ _ _ (pi_pool _ di_pools _ _ Hp')). congruence.
  - apply exported_pools_valid.
  - exact exported_auction_valid.
  - cbn. intros Ea. unfold auction_inv in di_auction. destruct (k_LiquidityAuction (w_dex w)); [done|]. by rewrite di_auction.
  - cbn. rewrite <-list_fmap_compose. apply iter_fmap_NoDup. intros k b k' b' Hb Hb' E. cbn in E.
    exact (Hcase _ _ _ _ (xp_bids _ Hx _ _ Hb) (xp_bids _ Hx _ _ Hb') E).
  - exact exported_bids_valid.
  - rewrite exported_bids_sum. unfold auction_inv in di_auction. destruct (k_LiquidityAuction (w_dex w)) as [a|] eqn:E.
    + destruct di_auction as (_&_&_&_&_&_&<-&_). by destruct (xp_auction _ Hx a E) as (_ & _ & _ & ?).
    + by rewrite di_auction.
  - cbn. rewrite <-list_fmap_compose. apply iter_fmap_NoDup. intros k b k' b' Hb Hb' E. cbn in E.
    destruct (di_pol _ _ Hb) as (<- & _), (di_pol _ _ Hb') as (<- & _). exact E.
  - apply Forall_forall. intros g (k & b & Hb & ->)%(elem_iter_fmap (λ kv : Z * PolBurn, pol_out kv.2)).
    destruct (di_pol _ _ Hb) as (Ei & Hr & Hs), (xp_pol _ Hx _ _ Hb) as (? & ? & ?). split; [apply exported_id; cbn; by rewrite Ei|].
    split; [exists (pb_TotalShares b)|done..]. split_and!; [done..|]. cbn. by intros r [= <-].
  - exact exported_names.
  - apply Forall_forall. intros g (k & u & Hu & ->)%(elem_iter_fmap (λ kv : UnbondKey * LpUnbonding, unbonding_out kv.2)).
    destruct (xp_entries _ Hx _ _ Hu) as (_ & Ht & Hn). destruct k as [[t id] a].
    destruct (ui_entry _ di_unbond _ _ _ _ Hu) as (Ei & Et & Hd & Hp & Hs). split; [apply exported_id; cbn; by rewrite Ei|].
    split; cbn; [by exists (Amount (ub_Shares u))|by rewrite Ei|done|done].
  - cbn. pose proof (settled_sum_range _ di_pools). lia.
  - apply Hx.
  - cbn. rewrite <-list_fmap_compose. apply iter_fmap_NoDup. by intros k t k' t' _ _ E.
  - apply Forall_forall. intros g (k & t & Ht & ->)%(elem_iter_fmap (λ kv : Z * Z, mkPoolStaleDue kv.1 kv.2)). apply exported_id. cbn.
    destruct (proj1 (xp_stale _ Hx k) (ex_intro _ t Ht)) as (p & Hp & _). by exists p.
  - cbn. rewrite <-list_fmap_compose. apply iter_fmap_NoDup. by intros k t k' t' _ _ E.
  - apply Forall_forall. intros g (k & t & Ht & ->)%(elem_iter_fmap (λ kv : Z * Z, mkPriceAccumulator kv.1 (Some (default 0 (k_PriceCumulative (w_dex w) !! kv.1))) kv.2)).
    destruct (xp_observed _ Hx _ _ Ht) as [Hs Hp]. split; [by apply exported_id|]. split; [|done]. eexists. split; [done|]. cbn.
    destruct (k_PriceCumulative (w_dex w) !! k) as [c|] eqn:Ec; [|done]. by apply (xp_prices _ Hx k).
  - destruct di_params as (ps' & Eps & Hf & Hl & Hd). assert (ps' = ps) as -> by congruence. unfold ParamsValidate, MaxSwapFee. cbn.
    rewrite NewDecFromInt_spec. repeat (apply refuse_bind; split; [lia|]). done.
Qed.

Lemma exported_file_ok : file_ok gs ∧ words_ok gs.
Proof.
  pose proof Hi as []. split; [split|split].
  - intros g (id & p & Hp & ->)%exported_pool. apply (pi_pool _ di_pools _ _ Hp).
  - apply di_pools.
  - intros g (id & p & Hp & ->)%exported_pool. exact (xp_tokens _ Hx id p Hp).
  - intros a. change (dg_LiquidityAuction gs) with (auction_out <$> k_LiquidityAuction (w_dex w)).
    destruct (k_LiquidityAuction (w_dex w)) as [b|] eqn:E; [|done]. intros [= <-].
    unfold auction_inv in di_auction. rewrite E in di_auction. destruct di_auction as (Hd & _ & _ & _ & _ & _ & Hr & _ & Hst). split; [done|].
    cbn [auction_out ga_Status ga_BidDenom ga_Claimed]. destruct (la_Status b); rewrite ?exported_bids_sum.
    + destruct Hst as [Eb ?]. split; [cbn [exported dg_AuctionBids]; by rewrite Eb|done].
    + destruct Hst as [Eb ?]. split; [cbn [exported dg_AuctionBids]; by rewrite Eb|done].
    + destruct Hst as (?&?&?&Hn&?&_). split_and!; try done.
      intros (g & Eg & (id & p & Hp & ->)%exported_pool)%list_elem_of_fmap. cbn in Eg.
      pose proof (po_by_token _ _ _ (pi_pool _ di_pools _ _ Hp)). congruence.
    + destruct Hst as [Hp Hc]. split; [by rewrite <-Hr|]. rewrite Hc. unfold claimed_shares, claims_in.
      rewrite exported_bids_sum, <-Hr. cbn [exported dg_AuctionBids]. rewrite list_sum_fmap.
      symmetry. apply (iter_map_sum (λ _ b0, if ab_Claimed b0 then bid_share b b0 else 0)).
  - apply Forall_forall. intros g (id & p & Hp & ->)%exported_pool. destruct (pi_pool _ di_pools _ _ Hp). cbn. rewrite po_id.
    pose proof (xp_seq _ Hx). lia.
  - destruct di_params as (ps' & Eps & Hf & Hl & Hd). assert (ps' = ps) as -> by congruence. cbn. lia.
Qed.
End of_state.
End valid.

(** ** The checks pass on a sound state *)
Section backing.
Context `{HostLaws, !ShieldedKeeper}.
Implicit Types (w : World) (s : DexStore).

Lemma lp_claims_held w id : dex_inv w → lp_claims (w_dex w) id ≤ GetBalance (w_bank w) dex_addr (LPShareDenom id).
Proof.
  intros Hi. destruct (decide (0 ≤ id)) as [Hid|Hid]; [by apply (di_solvent _ Hi)|].
  assert (∀ p, k_Pool (w_dex w) !! id ≠ Some p) as Hno.
  { intros p Hp. destruct (po_seq _ _ _ (pi_pool _ (di_pools _ Hi) _ _ Hp)). lia. }
  assert (lp_claims (w_dex w) id = 0) as ->; [|apply GetBalance_range].
  unfold lp_claims, escrowed, pol_remaining. rewrite (map_sum_ext _ (λ _ _, 0)), map_sum_zero.
  - destruct (k_PolBurns (w_dex w) !! id) as [b|] eqn:Eb; [|done]. destruct (di_pol _ Hi _ _ Eb) as (_ & _ & p & Hp). by destruct (Hno p).
  - intros [[t i] a] u Hu. destruct (ui_entry _ (di_unbond _ Hi) _ _ _ _ Hu) as (-> & _ & _ & _ & p & Hp).
    destruct (Z.eqb_spec i id) as [->|]; [by destruct (Hno p)|done].
Qed.

Lemma sum_escrowed_total (l : list (UnbondKey * LpUnbonding)) (m0 : gmap Z Z) :
  (∀ kv, kv ∈ l → 0 ≤ Amount (ub_Shares kv.2)) → (∀ id, 0 ≤ default 0 (m0 !! id)) →
  (∀ id, default 0 (m0 !! id) + list_sum (λ kv : UnbondKey * LpUnbonding, if ub_PoolId kv.2 =? id then Amount (ub_Shares kv.2) else 0) l < 2 ^ 256) →
  ∃ m, foldl (λ (acc : outcome (gmap Z Z)) kv, m ← acc;
    let u := snd kv in
    s ← IntAdd (default 0 (m !! ub_PoolId u)) (Amount (ub_Shares u));
    mret (<[ub_PoolId u := s]> m)) (Ok m0) l = Ok m.
Proof.
  revert m0. induction l as [|[k u] l IH]; intros m0 Hl Hm Hs; cbn [foldl]; [by eexists|].
  pose proof (Hl (k, u) ltac:(left)) as Hu. cbn in Hu.
  assert (∀ id, 0 ≤ list_sum (λ kv : UnbondKey * LpUnbonding, if ub_PoolId kv.2 =? id then Amount (ub_Shares kv.2) else 0) l) as Hl0.
  { intros id. clear -Hl. induction l as [|kv l IHl]; [done|]. rewrite list_sum_cons.
    pose proof (Hl kv ltac:(right; left)). specialize (IHl ltac:(intros kv' H'; apply Hl; apply elem_of_cons in H' as [->|?]; [left|right; by right])).
    destruct (_ =? _); lia. }
  pose proof (Hs (ub_PoolId u)) as Hsu. rewrite list_sum_cons in Hsu. cbn [snd] in Hsu. rewrite Z.eqb_refl in Hsu.
  pose proof (Hl0 (ub_PoolId u)). pose proof (Hm (ub_PoolId u)).
  cbn [mbind outcome_bind snd]. rewrite IntAdd_fits by lia. cbn [mbind outcome_bind mret outcome_ret].
  apply IH; [intros; apply Hl; by right|..]; intros i; pose proof (Hm i); specialize (Hs i); rewrite list_sum_cons in Hs; cbn [snd] in Hs.
  - destruct (decide (ub_PoolId u = i)) as [<-|]; [rewrite lookup_insert_eq|by rewrite lookup_insert_ne]. cbn. lia.
  - destruct (Z.eqb_spec (ub_PoolId u) i) as [E|E]; [rewrite <-E in *; rewrite lookup_insert_eq|rewrite lookup_insert_ne by done]; cbn; lia.
Qed.

Lemma backing_walk_pass (esc pol : gmap Z Z) ids w :
  (∀ id, 0 ≤ default 0 (esc !! id) ∧ 0 ≤ default 0 (pol !! id) ∧
     default 0 (esc !! id) + default 0 (pol !! id) ≤ GetBalance (w_bank w) dex_addr (LPShareDenom id)) →
  backing_walk esc pol ids [] w = Ok ([], w).
Proof.
  intros Hall. induction ids as [|id ids IH]; cbn [backing_walk]; [done|]. destruct (Hall id) as (He & Hp & Hb).
  pose proof (balance_fits (w_bank w) dex_addr (LPShareDenom id)). pose proof (GetBalance_supply (w_bank w) dex_addr (LPShareDenom id)).
  rewrite (run_bind _ _ w (default 0 (esc !! id)) w) by (unfold lift; rewrite IntAdd_fits by lia; done).
  rewrite (run_bind _ _ w (default 0 (esc !! id) + default 0 (pol !! id)) w).
  - erewrite run_bind by reflexivity. unfold totalShares. erewrite run_bind by reflexivity.
    rewrite (proj2 (Z.ltb_ge _ _) Hb), (proj2 (Z.ltb_ge (GetSupply _ _) _)) by lia. exact IH.
  - unfold lift. destruct (pol !! id) as [v|]; cbn in Hp, Hb |- *; [|by rewrite Z.add_0_r].
    destruct (Z.ltb_spec 0 v); [by rewrite IntAdd_fits by lia|]. replace v with 0 by lia. by rewrite Z.add_0_r.
Qed.

Lemma CheckShareBacking_pass w : dex_inv w → CheckShareBacking w = Ok ([], w).
Proof.
  intros Hi. unfold CheckShareBacking. run_fwd.
  assert (∀ id, list_sum (λ kv : UnbondKey * LpUnbonding, if ub_PoolId kv.2 =? id then Amount (ub_Shares kv.2) else 0) (iter_map (k_LpUnbondings (w_dex w)))
    = escrowed (w_dex w) id) as Hesc by (intros id; exact (iter_map_sum (λ (_ : UnbondKey) u, if ub_PoolId u =? id then Amount (ub_Shares u) else 0) _)).
  assert (∀ k u, k_LpUnbondings (w_dex w) !! k = Some u → 0 ≤ Amount (ub_Shares u)) as Hpos.
  { intros [[t i] a] u Hu. destruct (ui_entry _ (di_unbond _ Hi) _ _ _ _ Hu) as (_ & _ & _ & ? & _). lia. }
  assert (∀ id, 0 ≤ escrowed (w_dex w) id ∧ 0 ≤ pol_remaining (w_dex w) id) as Hge.
  { intros id. split; [apply map_sum_nonneg; intros k u Hu; pose proof (Hpos k u Hu); destruct (_ =? _); lia|].
    unfold pol_remaining. destruct (k_PolBurns (w_dex w) !! id) as [b|] eqn:Eb; [|done]. by destruct (di_pol _ Hi _ _ Eb) as (_ & [? _] & _). }
  destruct (sum_escrowed_total (iter_map (k_LpUnbondings (w_dex w))) ∅) as [esc Ee].
  - intros [k u] Hu%elem_of_iter_map. by eapply Hpos.
  - intros id. by rewrite lookup_empty.
  - intros id. rewrite lookup_empty, Hesc. cbn. pose proof (lp_claims_held w id Hi). pose proof (balance_fits (w_bank w) dex_addr (LPShareDenom id)).
    destruct (Hge id). unfold lp_claims in *. lia.
  - assert (∀ id, default 0 (esc !! id) = escrowed (w_dex w) id) as Hescr.
    { intros id. rewrite (sum_escrowed_ok _ _ _ id Ee), lookup_empty, Hesc. done. }
    assert (lift (S := World) (sum_escrowed (iter_map (k_LpUnbondings (w_dex w)))) w = Ok (esc, w)) as El
      by (apply lift_ok; split; [exact Ee|done]).
    rewrite (run_bind _ _ _ _ _ El). erewrite run_bind by reflexivity. cbv zeta.
    assert (mbind pol_problems (iter_map (k_PolBurns (w_dex w))) = []) as ->.
    { destruct (mbind pol_problems _) as [|x l] eqn:E; [done|]. assert (x ∈ mbind pol_problems (iter_map (k_PolBurns (w_dex w)))) as Hx by (rewrite E; left).
      apply list_elem_of_bind in Hx as ([id b] & Hx & Hb%elem_of_iter_map). destruct (di_pol _ Hi _ _ Hb) as (_ & [H1' H2'] & _).
      cbn in Hx. rewrite (proj2 (Z.ltb_ge _ _) H1'), (proj2 (Z.ltb_ge _ _) H2') in Hx. by apply elem_of_nil in Hx. }
    apply backing_walk_pass. intros id. rewrite Hescr.
    assert (default 0 ((list_to_map ((λ kv, (kv.1, pb_SharesRemaining kv.2)) <$> iter_map (k_PolBurns (w_dex w))) : gmap Z Z) !! id) = pol_remaining (w_dex w) id) as ->.
    { unfold pol_remaining. destruct (k_PolBurns (w_dex w) !! id) as [b|] eqn:Eb.
      - erewrite elem_of_list_to_map_1; [done|rewrite entries_fst; apply iter_map_NoDup|].
        apply list_elem_of_fmap. exists (id, b). split; [done|]. by apply elem_of_iter_map.
      - rewrite not_elem_of_list_to_map_1; [done|]. rewrite entries_fst. intros ([i b] & E & Hb%elem_of_iter_map)%list_elem_of_fmap.
        cbn in E. subst i. congruence. }
    destruct (Hge id). split_and!; [done..|]. exact (lp_claims_held w id Hi).
Qed.

Lemma assertGenesisFunded_pass w : dex_inv w → assertGenesisFunded w = Ok ((), w).
Proof.
  intros Hi. unfold assertGenesisFunded.
  rewrite (run_bind _ _ _ _ _ (checkErthSolvency_pass w Hi)), (run_bind _ _ _ _ _ (checkAuctionBidSolvency_pass w Hi)). run_fwd.
  assert (∀ l, for_each l checkPoolTokenSolvency w = Ok ((), w)) as Hl.
  { induction l as [|id l IH]; [done|]. cbn [for_each]. by rewrite (run_bind _ _ _ _ _ (checkPoolTokenSolvency_pass id w Hi)). }
  rewrite (run_bind _ _ _ _ _ (Hl _)), (run_bind _ _ _ _ _ (CheckShareBacking_pass w Hi)). done.
Qed.
End backing.

(** ** The same state, its rewards settled *)
Record mirrors (s s1 : DexStore) : Prop := {
  mi_pools : ∀ id, k_Pool s1 !! id = settled_pool s id <$> k_Pool s !! id;
  mi_by_token : k_PoolByToken s1 = k_PoolByToken s;
  mi_pending : pending s1 = pending s - settled_sum s;
  mi_volume : total_volume s1 = total_volume s;
  mi_volume_index : volume_index s1 = volume_index s;
  mi_volume_day : default 0 (k_VolumeIndexDay s1) = default 0 (k_VolumeIndexDay s);
  mi_unbond : k_LpUnbondings s1 = k_LpUnbondings s;
  mi_by_addr : k_LpUnbondingsByAddr s1 = k_LpUnbondingsByAddr s;
  mi_auction : k_LiquidityAuction s1 = k_LiquidityAuction s;
  mi_bids : k_AuctionBids s1 = k_AuctionBids s;
  mi_pol : k_PolBurns s1 = k_PolBurns s;
  mi_params : k_Params s1 = k_Params s;
  mi_stale : ∀ id, k_PoolStaleDue s1 !! id = k_PoolStaleDue s !! id;
  mi_observed : k_PriceObservedAt s1 = k_PriceObservedAt s;
  mi_prices : ∀ id, default 0 (k_PriceCumulative s1 !! id) = default 0 (k_PriceCumulative s !! id);
  mi_index : lp_index s1 = 0 ∧ ∀ id, lp_last s1 id = 0;
  mi_seq : ∀ id, is_Some (k_Pool s1 !! id) → id < k_PoolSeq s1;
}.

Section mirror.
Context `{HostLaws, !ShieldedKeeper}.
Context (w w0 : World) (ps : Params) (s1 : DexStore).
Hypothesis (Hi : dex_inv w) (Hx : exportable w) (Hps : k_Params (w_dex w) = Some ps) (Hcase : codec_case).
Hypothesis (Hio : import_of (exported ps (w_dex w)) w0 s1).
Abbreviation gs := (exported ps (w_dex w)).
Abbreviation s := (w_dex w).

Lemma mirror_valid : dex_genesis_valid hub_denom gs.
Proof. by apply dex_exported_valid. Qed.

Lemma exported_unbond_keys : mapM (λ u, LpUnbondingKey (unbonding_in u)) (dg_LpUnbondings gs) = Ok (fst <$> iter_map (k_LpUnbondings s)).
Proof.
  apply mapM_fmap_ok. intros [k u] Hu%elem_of_iter_map. cbn. rewrite unbonding_in_out. by apply (xp_entries _ Hx).
Qed.
Lemma exported_bid_keys : mapM (λ b, StringToBytes (gb_Bidder b)) (dg_AuctionBids gs) = Ok (fst <$> iter_map (k_AuctionBids s)).
Proof. apply mapM_fmap_ok. intros [k b] Hb%elem_of_iter_map. by apply (xp_bids _ Hx). Qed.

Lemma zip_back {K V A} (out : V → A) (back : A → V) (l : list (K * V)) :
  (∀ v, back (out v) = v) → zip (fst <$> l) (back <$> ((λ kv, out kv.2) <$> l)) = l.
Proof.
  intros Hb. induction l as [|[k v] l IH]; [done|]. cbn. rewrite Hb. f_equal. exact IH.
Qed.

Lemma insert_all_iter {K V} `{Countable K, KeyCmp K} (m : gmap K V) : insert_all (iter_map m) ∅ = m.
Proof. apply insert_all_empty; [apply iter_map_NoDup|]. intros k v. apply elem_of_iter_map. Qed.

Lemma mirror_queues : k_LpUnbondings s1 = k_LpUnbondings s ∧ k_LpUnbondingsByAddr s1 = k_LpUnbondingsByAddr s ∧
  k_AuctionBids s1 = k_AuctionBids s ∧ k_PolBurns s1 = k_PolBurns s.
Proof.
  destruct Hio as [_ _ _ (te & dirty & m & ks & bs & Hks & Hbs & ->)]. rewrite exported_unbond_keys in Hks. rewrite exported_bid_keys in Hbs.
  injection Hks as <-. injection Hbs as <-. cbn [imported k_LpUnbondings k_LpUnbondingsByAddr k_AuctionBids k_PolBurns].
  assert (zip (fst <$> iter_map (k_LpUnbondings s)) (unbonding_in <$> dg_LpUnbondings gs) = iter_map (k_LpUnbondings s)) as ->
    by apply (zip_back unbonding_out unbonding_in), unbonding_in_out.
  assert (zip (fst <$> iter_map (k_AuctionBids s)) (bid_in <$> dg_AuctionBids gs) = iter_map (k_AuctionBids s)) as ->
    by apply (zip_back bid_out bid_in), bid_in_out.
  split_and!; [apply insert_all_iter| |apply insert_all_iter|].
  - apply set_eq. intros [[a t] i]. rewrite union_empty_r_L, elem_of_list_to_set, list_elem_of_fmap.
    change (a, t, i) with (by_addr_key (t, i, a)). rewrite (ui_index _ (di_unbond _ Hi)).
    split.
    + intros ([[t' i'] a'] & E & Hin). cbn in E. injection E as -> -> ->. apply list_elem_of_fmap in Hin as ([k u] & -> & Hu%elem_of_iter_map). by exists u.
    + intros [u Hu]. exists (t, i, a). split; [done|]. apply list_elem_of_fmap. exists (t, i, a, u). split; [done|]. by apply elem_of_iter_map.
  - cbn [exported dg_PolBurns]. rewrite <-list_fmap_compose.
    assert ((((λ b, (gl_PoolId b, pol_in b)) ∘ (λ kv : Z * PolBurn, pol_out kv.2)) <$> iter_map (k_PolBurns s)) = iter_map (k_PolBurns s)) as ->;
      [|apply insert_all_iter].
    rewrite <-(list_fmap_id (iter_map (k_PolBurns s))) at 2. apply list_fmap_ext. intros i [k b] Hb. cbn. rewrite pol_in_out.
    apply list_elem_of_lookup_2, elem_of_iter_map in Hb. by destruct (di_pol _ Hi _ _ Hb) as (-> & _).
Qed.

Lemma mirror_pools id : k_Pool s1 !! id = settled_pool s id <$> k_Pool s !! id.
Proof.
  assert (∀ i p, k_Pool s !! i = Some p → pl_PoolId p = i) as Hid by (intros i p Hp; apply (pi_pool _ (di_pools _ Hi) _ _ Hp)).
  apply option_eq. intros q. rewrite (pool_lookup gs w0 s1 mirror_valid Hio), fmap_Some. split.
  - intros (g & (i & p & Hp & ->)%exported_pool & <- & ->). cbn. rewrite (Hid _ _ Hp). exists p. split; [done|]. by rewrite pool_in_out.
  - intros (p & Hp & ->). exists (pool_out (settled_pool s id p)). split; [apply exported_pool; by exists id, p|].
    split; [exact (Hid _ _ Hp)|]. by rewrite pool_in_out.
Qed.

Lemma mirror_by_token : k_PoolByToken s1 = k_PoolByToken s.
Proof.
  apply map_eq. intros d. apply option_eq. intros i. rewrite (token_lookup gs w0 s1 mirror_valid Hio). split.
  - intros (g & (j & p & Hp & ->)%exported_pool & <- & ->). destruct (pi_pool _ (di_pools _ Hi) _ _ Hp). cbn. by rewrite po_id.
  - intros (p & Hp & <-)%(pi_by_token _ (di_pools _ Hi)). exists (pool_out (settled_pool s i p)).
    split; [apply exported_pool; by exists i, p|]. split; [done|]. symmetry. apply (pi_pool _ (di_pools _ Hi) _ _ Hp).
Qed.

Lemma mirror_volume : total_volume s1 = total_volume s.
Proof.
  destruct (imported_scalars gs w0 s1 Hio) as (_ & _ & -> & _). rewrite (pi_volume _ (di_pools _ Hi)). unfold weight_sum.
  cbn [exported dg_PoolMap]. rewrite list_sum_fmap. apply (iter_map_sum (λ _ p, pl_VolumeWeight p)).
Qed.

Lemma mirror_stale id : k_PoolStaleDue s1 !! id = k_PoolStaleDue s !! id.
Proof.
  assert (due_of gs = k_PoolStaleDue s) as Hdue.
  { unfold due_of. cbn [exported dg_PoolStaleDue]. rewrite <-list_fmap_compose.
    rewrite (list_fmap_ext _ (λ kv, kv)); [rewrite list_fmap_id; apply insert_all_iter|]. by intros i [k t] _. }
  pose proof mirror_valid as Hv.
  destruct Hio as [_ _ _ (te & dirty & m & ks & bs & _ & _ & ->)]. cbn [imported k_PoolStaleDue]. rewrite Hdue.
  set (es := stale_entries _ _ _).
  assert (NoDup es.*1) as Hnd.
  { eapply sublist_NoDup; [apply (gv_ids _ _ Hv)|]. unfold es, stale_entries. clear. induction (dg_PoolMap gs) as [|p l IH]; [constructor|].
    cbn [omap list_omap]. destruct (0 <? weight_of p); cbn; by constructor. }
  apply option_eq. intros t. rewrite insert_all_lookup, lookup_empty by done. unfold es, stale_entries. rewrite list_elem_of_omap. split.
  - intros [(g & (i & p & Hp & ->)%exported_pool & E)|[_ [=]]]. cbn in E. destruct (Z.ltb_spec 0 (pl_VolumeWeight p)); [|done].
    rewrite (po_id _ _ _ (pi_pool _ (di_pools _ Hi) _ _ Hp)) in E. injection E as -> <-.
    destruct (proj2 (xp_stale _ Hx id) ltac:(by exists p)) as [t' Et]. by rewrite Et.
  - intros Ht. left. destruct (proj1 (xp_stale _ Hx id) ltac:(by exists t)) as (p & Hp & Hw).
    exists (pool_out (settled_pool s id p)). split; [apply exported_pool; by exists id, p|]. cbn.
    by rewrite (proj2 (Z.ltb_lt _ _) Hw), (po_id _ _ _ (pi_pool _ (di_pools _ Hi) _ _ Hp)), Ht.
Qed.

Lemma mirror_observed : k_PriceObservedAt s1 = k_PriceObservedAt s ∧
  ∀ id, default 0 (k_PriceCumulative s1 !! id) = default 0 (k_PriceCumulative s !! id).
Proof.
  destruct Hio as [_ _ _ (te & dirty & m & ks & bs & _ & _ & ->)]. cbn [imported k_PriceObservedAt k_PriceCumulative exported dg_PriceAccumulators].
  rewrite <-!list_fmap_compose. split.
  - rewrite (list_fmap_ext _ (λ kv, kv)); [rewrite list_fmap_id; apply insert_all_iter|]. by intros i [k t] _.
  - intros id. rewrite (list_fmap_ext _ (λ kv : Z * Z, (kv.1, default 0 (k_PriceCumulative s !! kv.1)))) by (by intros i [k t] _).
    destruct (k_PriceObservedAt s !! id) as [t|] eqn:Et.
    + rewrite (proj2 (file_map_lookup fst (λ kv : Z * Z, default 0 (k_PriceCumulative s !! kv.1)) _ id (default 0 (k_PriceCumulative s !! id)) (iter_map_NoDup _)));
        [done|]. exists (id, t). split; [by apply elem_of_iter_map|done].
    + destruct (k_PriceCumulative s !! id) as [c|] eqn:Ec; [destruct (xp_prices _ Hx _ _ Ec) as [[? ?] _]; congruence|]. cbn.
      destruct (insert_all _ ∅ !! id) as [v|] eqn:E; [|done]. apply insert_all_some in E as [E|[=]].
      apply list_elem_of_fmap in E as ([k t] & [= -> ->] & Hk%elem_of_iter_map). congruence.
Qed.

Lemma mirror_ok : mirrors s s1.
Proof.
  destruct mirror_queues as (? & ? & ? & ?), mirror_observed as [? ?], (imported_scalars gs w0 s1 Hio) as (Ei & Ep & _ & Epar & Ea).
  destruct (xp_index _ Hx) as [Hvi Hvd].
  split; [exact mirror_pools|exact mirror_by_token|exact Ep|exact mirror_volume|..|done|done| |done|done| |exact mirror_stale|done|done| |].
  - destruct Hio as [_ _ _ (te & dirty & m & ks & bs & _ & _ & ->)]. unfold volume_index. cbn.
    destruct (k_VolumeIndex s) as [v|]; cbn; [|done]. destruct (0 <? v) eqn:Ev; cbn; by rewrite ?Ev.
  - destruct Hio as [_ _ _ (te & dirty & m & ks & bs & _ & _ & ->)]. cbn. destruct (Z.ltb_spec 0 (default 0 (k_VolumeIndexDay s))); cbn; lia.
  - rewrite Ea. cbn. destruct (k_LiquidityAuction s) as [a|]; [|done]. cbn. by rewrite auction_in_out.
  - rewrite Epar. by rewrite Hps.
  - split; [done|]. intros id. apply (last_zero gs w0 s1 Hio).
  - intros id [p Hp]. apply (pool_lookup gs w0 s1 mirror_valid Hio) in Hp as (g & Hg & <- & _). by apply Hio.
Qed.

(** The settled rewards move from the pending balance into the hub reserves: nothing is owed more or less. *)
Lemma mirror_owed d : owed s1 d = owed s d.
Proof.
  destruct mirror_ok. unfold owed. rewrite mi_auction0, mi_pending0.
  assert (map_sum (λ _, pool_holds d) (k_Pool s1) =
    map_sum (λ _, pool_holds d) (k_Pool s) + (if bool_decide (d = hub_denom) then settled_sum s else 0)) as ->.
  { rewrite (pool_sum gs w0 s1 mirror_valid Hio). cbn [exported dg_PoolMap]. rewrite list_sum_fmap.
    rewrite (list_sum_ext _ (λ kv : Z * Pool, pool_holds d kv.2 + (if bool_decide (d = hub_denom) then settle_owed s kv.1 kv.2 else 0))).
    - rewrite (iter_map_sum (λ id p, pool_holds d p + (if bool_decide (d = hub_denom) then settle_owed s id p else 0))), map_sum_add.
      f_equal. case_bool_decide; [done|apply map_sum_zero].
    - intros [id p] Hp%elem_of_iter_map. cbn [fst snd]. rewrite pool_in_out. unfold pool_holds. cbn.
      rewrite (po_hub _ _ _ (pi_pool _ (di_pools _ Hi) _ _ Hp)).
      rewrite (bool_decide_ext (hub_denom = d) (d = hub_denom)) by done. case_bool_decide; lia. }
  case_bool_decide; lia.
Qed.

Lemma mirror_inv : w_bank w0 = w_bank w → dex_inv (upd_dex (λ _, s1) w0).
Proof.
  intros Hb. pose proof Hi as []. assert (file_ok gs ∧ words_ok gs) as [Hf Hw] by (by apply exported_file_ok). pose proof mirror_owed as Hod. destruct mirror_ok.
  assert (∀ i, is_Some (k_Pool s !! i) → is_Some (k_Pool s1 !! i)) as Hsome by (intros i [p Hp]; rewrite mi_pools0, Hp; by eexists).
  split; cbn.
  - by apply (imported_pools_inv gs w0 s1 mirror_valid Hw Hf Hio).
  - unfold auction_inv. rewrite mi_auction0, mi_bids0, mi_by_token0. exact di_auction.
  - destruct di_unbond as [He Hx']. split; rewrite ?mi_unbond0, ?mi_by_addr0; [|done].
    intros t i a u Hu. destruct (He t i a u Hu) as (? & ? & ? & ? & ?). split_and!; try done. by apply Hsome.
  - intros i b. rewrite mi_pol0. intros Hpb. destruct (di_pol i b Hpb) as (? & ? & ?). split_and!; try done; [lia..|]. by apply Hsome.
  - unfold params_inv. rewrite mi_params0. exact di_params.
  - by apply (imported_stale_ok gs w0 s1 mirror_valid Hio).
  - destruct di_solvent as [Hs Hl]. rewrite Hb. split.
    + intros d Hd. rewrite Hod. by apply Hs.
    + intros i. unfold lp_claims, escrowed, pol_remaining. rewrite mi_unbond0, mi_pol0. apply Hl.
Qed.
End mirror.

(** The file's totals fit the module's integers. *)
Lemma exported_funds `{HostLaws, !ShieldedKeeper} w ps : dex_inv w → exportable w →
  erth_sum (dg_PoolMap (exported ps (w_dex w))) < 2 ^ MaxBitLen ∧ weight_sum (dg_PoolMap (exported ps (w_dex w))) < 2 ^ MaxBitLen.
Proof.
  intros Hi Hx. pose proof (di_pools _ Hi) as Hpi. unfold erth_sum, weight_sum. cbn [exported dg_PoolMap]. rewrite !list_sum_fmap. split.
  - rewrite (iter_map_sum (λ id p, Amount (pl_ReserveErth p) + settle_owed (w_dex w) id p)), map_sum_add.
    rewrite <-(pi_total _ Hpi). change (map_sum _ (k_Pool (w_dex w))) with (settled_sum (w_dex w)).
    pose proof (settled_sum_range _ Hpi). pose proof (hub_held _ Hi). pose proof (balance_fits (w_bank w) dex_addr hub_denom).
    unfold MaxBitLen. lia.
  - pose proof (iter_map_sum (λ (_ : Z) p, pl_VolumeWeight p) (k_Pool (w_dex w))) as E. rewrite <-(pi_volume _ Hpi) in E.
    pose proof (xp_volume _ Hx). rewrite <-E in *. done.
Qed.

(** ** Properties *)
Section export_properties.
Context `{HostLaws, !ShieldedKeeper}.

(** C21: A chain exports, and what it exports starts the next one where this one stopped: from a state that meets the
    invariant ([exportable]: its records are as the handlers write them), [ExportGenesis] returns a file without writing,
    [Validate] accepts it, and [InitGenesis] into an empty store over the same balances succeeds, its funding checks
    included.  The state it leaves has the same denoms, schedules, withdrawals, bids, parameters, price accumulators and
    staleness queue; every pool is the exported one with the LP rewards it was owed added to its hub reserve, the pending
    balance is less by exactly those, and the invariant holds of it. *)
Theorem dex_export_imports w w0 :
  dex_inv w → exportable w → codec_case → w_dex w0 = new_store → w_bank w0 = w_bank w →
  ∃ gs s1, DexExportGenesis w = Ok (gs, w) ∧ DexGenesisValidate gs = Ok () ∧
    DexInitGenesis gs w0 = Ok ((), upd_dex (λ _, s1) w0) ∧ mirrors (w_dex w) s1 ∧ dex_inv (upd_dex (λ _, s1) w0).
Proof.
  intros Hi Hx Hcase Hnew Hb. destruct (di_params _ Hi) as (ps & Hps & _). pose proof (di_pools _ Hi) as Hpi.
  pose proof (dex_exported_valid w ps Hi Hx Hps Hcase) as Hv. destruct (exported_file_ok w ps Hi Hx Hps) as [Hf Hw].
  set (gs := exported ps (w_dex w)) in *.
  destruct (exported_funds w ps Hi Hx) as [He Hwt].
  destruct (init_store_total hub_denom gs w0 _ _ Hnew Hv He Hwt (exported_unbond_keys w ps Hx) (exported_bid_keys w ps Hx)) as [w1 Hr].
  destruct (init_store_ok _ _ _ _ _ Hnew Hv Hw Hr) as (s1 & Hio & ->).
  pose proof (mirror_ok w w0 ps s1 Hi Hx Hps Hcase Hio) as Hm. pose proof (mirror_inv w w0 ps s1 Hi Hx Hps Hcase Hio Hb) as Hinv.
  assert (DexGenesisValidate gs = Ok ()) as Hval by (apply (DexGenesisValidate_spec hub_denom); [apply Hf|done]).
  exists gs, s1. split_and!; [by apply DexExportGenesis_run, Hx|done| |done|done].
  unfold DexInitGenesis. rewrite (run_bind _ _ w0 () w0) by (unfold lift; by rewrite Hval).
  rewrite (run_bind _ _ _ _ _ Hr). by apply assertGenesisFunded_pass.
Qed.
End export_properties.
