(* ===== verification/AllocGenesis.v ===== *)
(** * x/allocation: genesis

    [x/allocation/types/genesis.go] and [x/allocation/keeper/genesis.go].  As in [DexGenesis.v], a [math.Int] a file can leave
    out is an [option] here and only here: [InitGenesis] validates first, so a nil that reaches a record is none. *)

From S2P Require Export AllocChain DexGenesis.

(** ** genesis.proto and the records as a file has them *)
Record GenesisOption := mkGenesisOption {
  xo_Id : Z; xo_Stream : Z; xo_Description : string; xo_Kind : AllocationKind; xo_Recipient : string; xo_Handler : string;
  xo_Claimer : string; xo_AmountAllocated : option Z; xo_LastRewardIndex : option Z; xo_Removed : bool;
  xo_Accumulated : option Z;
}.
Record GenesisOptionWeight := mkGenesisOptionWeight { xw_OptionId : Z; xw_Weight : option Z }.
Record VoterEntry := mkVoterEntry {
  xv_Address : string; xv_Percentages : list AllocationWeight; xv_Weight : option Z; xv_Epoch : Z;
  xv_OptionWeights : list GenesisOptionWeight; xv_ExpiresAt : Z;
}.
Record StreamState := mkStreamState {
  xs_Stream : Z; xs_RewardIndex : option Z; xs_TotalWeight : option Z; xs_Epoch : Z; xs_LastUpkeep : Z; xs_OptionSeq : Z;
  xs_Options : list GenesisOption; xs_Voters : list VoterEntry;
}.
Record AllocGenesis := mkAllocGenesis {
  xg_Params : AllocParams; xg_Streams : list StreamState; xg_RegistrationRewardSeed : option Z; xg_Residue : option Z;
}.

(** What [IsNil() || IsNegative()] refuses. *)
Definition missing (x : option Z) : bool := match x with None => true | Some v => v <? 0 end.
(** [!IsNil() && !IsZero()] *)
Definition carries (x : option Z) : bool := match x with None => false | Some v => negb (v =? 0) end.
Definition is_empty {A} (l : list A) : bool := match l with [] => true | _ => false end.

Section alloc_genesis.
Context `{Host, !ShieldedKeeper, !StakingView, !AllocEnv}.

(** ** types/genesis.go: Validate *)

(** The options' ids and the sum of what they carry. *)
Fixpoint validate_options (st : StreamState) (seenOption : gset Z) (summed : Z) (l : list GenesisOption) : outcome (gset Z * Z) :=
  match l with
  | [] => mret (seenOption, summed)
  | opt :: l =>
      _ ← refuse (xo_Id opt =? 0) (Plain "option id 0 is not issued");
      _ ← refuse (xs_OptionSeq st <? xo_Id opt) (Plain "option is beyond the id sequence");
      _ ← refuse (bool_decide (xo_Id opt ∈ seenOption)) (Plain "duplicated option id");
      _ ← ValidateDescription (xo_Description opt);
      _ ← (if xo_Removed opt then
             _ ← refuse (carries (xo_AmountAllocated opt)) (Plain "removed option still carries weight");
             _ ← refuse (carries (xo_Accumulated opt)) (Plain "removed option still carries a balance");
             refuse (negb (xs_Stream st =? STREAM_ID_GROUNDWORKS)) (Plain "marked removed outside the groundworks stream")
           else mret ());
      _ ← refuse (negb (xo_Stream opt =? xs_Stream st)) (Plain "option claims another stream");
      _ ← refuse (missing (xo_AmountAllocated opt)) (Plain "option has a negative allocation");
      _ ← refuse (missing (xo_Accumulated opt)) (Plain "option has negative accrued rewards");
      _ ← refuse (match xo_LastRewardIndex opt with
                  | None => true
                  | Some i => default 0 (xs_RewardIndex st) <? i
                  end) (Plain "option was last settled ahead of the stream");
      summed ← IntAdd summed (default 0 (xo_AmountAllocated opt));
      validate_options st ({[xo_Id opt]} ∪ seenOption) summed l
  end.

(** [validateWeightedVoter]: the loop over the option weights, then the whole. *)
Fixpoint validate_weights (options seen : gset Z) (sum : Z) (l : list GenesisOptionWeight) : outcome Z :=
  match l with
  | [] => mret sum
  | w :: l =>
      _ ← refuse (negb (bool_decide (xw_OptionId w ∈ options))) (Plain "voter weighs an option which does not exist");
      _ ← refuse (bool_decide (xw_OptionId w ∈ seen)) (Plain "voter weighs an option twice");
      _ ← refuse (negb (0 <? default 0 (xw_Weight w))) (Plain "voter has a non-positive weight");
      sum ← IntAdd sum (default 0 (xw_Weight w));
      validate_weights options ({[xw_OptionId w]} ∪ seen) sum l
  end.

Definition validateWeightedVoter (v : VoterEntry) (options : gset Z) : outcome () :=
  if is_empty (xv_OptionWeights v) then mret ()
  else
    _ ← refuse (negb (is_empty (xv_Percentages v))) (Plain "voter has both percentages and option weights");
    sum ← validate_weights options ∅ 0 (xv_OptionWeights v);
    refuse (negb (sum =? default 0 (xv_Weight v))) (Plain "voter weight is not the sum of its option weights").

(** The loop over a voter's percentages: their uint64 sum. *)
Fixpoint validate_percentages (options : gset Z) (pct : Z) (l : list AllocationWeight) : outcome Z :=
  match l with
  | [] => mret pct
  | w :: l =>
      _ ← refuse (negb (bool_decide (wt_OptionId w ∈ options))) (Plain "voter allocates to an option which does not exist");
      _ ← refuse (100 <? wt_Percent w) (Plain "voter allocates over 100% to an option");
      validate_percentages options (wrap_u64 (pct + wt_Percent w)) l
  end.

Fixpoint validate_voters (stream : Z) (options : gset Z) (seenVoter : gset string) (l : list VoterEntry) : outcome () :=
  match l with
  | [] => mret ()
  | v :: l =>
      _ ← refuse (bool_decide (ToLower (xv_Address v) ∈ seenVoter)) (Plain "duplicated voter");
      _ ← refuse (missing (xv_Weight v)) (Plain "voter has a negative weight");
      _ ← refuse ((xv_ExpiresAt v <? 0) || (negb (xv_ExpiresAt v =? 0) &&
             (negb (stream =? STREAM_ID_GROUNDWORKS) || negb (is_empty (xv_OptionWeights v)))))
            (Plain "voter has expires_at where no lease applies");
      pct ← validate_percentages options 0 (xv_Percentages v);
      _ ← refuse (negb (is_empty (xv_Percentages v)) && (100 <? pct)) (Plain "voter allocates over 100%");
      _ ← refuse ((stream =? STREAM_ID_GROUNDWORKS) && is_empty (xv_OptionWeights v) && negb (is_empty (xv_Percentages v)) &&
             (xv_ExpiresAt v =? 0)) (Plain "voter has a split with no lease");
      _ ← validateWeightedVoter v options;
      validate_voters stream options ({[ToLower (xv_Address v)]} ∪ seenVoter) l
  end.

Fixpoint validate_streams (seenStream : gset Z) (l : list StreamState) : outcome () :=
  match l with
  | [] => mret ()
  | st :: l =>
      _ ← ValidateStreamId (xs_Stream st);
      _ ← refuse (bool_decide (xs_Stream st ∈ seenStream)) (Plain "stream appears twice");
      _ ← refuse (missing (xs_RewardIndex st)) (Plain "reward_index must not be negative");
      _ ← refuse (missing (xs_TotalWeight st)) (Plain "total_weight must not be negative");
      _ ← refuse (xs_LastUpkeep st <? 0) (Plain "last_upkeep must not be negative");
      '(seenOption, summed) ← validate_options st ∅ 0 (xs_Options st);
      _ ← refuse (negb (summed =? default 0 (xs_TotalWeight st))) (Plain "the options do not sum to total_weight");
      _ ← validate_voters (xs_Stream st) seenOption ∅ (xs_Voters st);
      validate_streams ({[xs_Stream st]} ∪ seenStream) l
  end.

Definition AllocGenesisValidate (gs : AllocGenesis) : outcome () :=
  _ ← refuse (negative (xg_RegistrationRewardSeed gs)) (Plain "registration_reward_seed must not be negative");
  _ ← refuse (negb (is_empty (xg_Streams gs)) && (0 <? default 0 (xg_RegistrationRewardSeed gs)))
        (Plain "registration_reward_seed is for a fresh chain");
  _ ← refuse (negative (xg_Residue gs)) (Plain "residue must not be negative");
  _ ← validate_streams ∅ (xg_Streams gs);
  AllocParamsValidate (xg_Params gs).

(** ** keeper/genesis.go: InitGenesis *)

(** The records a validated file denotes. *)
Definition option_in (o : GenesisOption) : AllocationOption :=
  mkOption (xo_Id o) (xo_Stream o) (xo_Description o) (xo_Kind o) (xo_Recipient o) (xo_Handler o) (xo_Claimer o)
    (default 0 (xo_AmountAllocated o)) (default 0 (xo_LastRewardIndex o)) (xo_Removed o) (default 0 (xo_Accumulated o)).
Definition weight_in (w : GenesisOptionWeight) : OptionWeight := mkOptionWeight (xw_OptionId w) (default 0 (xw_Weight w)).
Definition voter_in (v : VoterEntry) : Voter :=
  mkVoter (xv_Percentages v) (default 0 (xv_Weight v)) (xv_Epoch v) (weight_in <$> xv_OptionWeights v) (xv_ExpiresAt v).

(** The loop over a stream's options: what is stored of each, and the sum of what they carry. *)
Definition restore_option (stream : Z) (opt : GenesisOption) : AM () :=
  set_alloc (set_l_Options <[(stream, xo_Id opt) := option_in opt]>);;
  (if bool_decide (xo_Kind opt = ALLOCATION_KIND_INTEGRATED) && negb (xo_Removed opt)
   then set_alloc (set_l_IntegratedOptions (union {[(stream, xo_Id opt)]})) else mret ());;
  refreshPruneSchedule stream (option_in opt).

Fixpoint restore_options (stream summed : Z) (l : list GenesisOption) : AM Z :=
  match l with
  | [] => mret summed
  | opt :: l =>
      summed ← lift (IntAdd summed (default 0 (xo_AmountAllocated opt)));
      restore_option stream opt;;
      restore_options stream summed l
  end.

Definition restore_voter (stream : Z) (v : VoterEntry) : AM () :=
  addrBz ← lift (StringToBytes (xv_Address v));
  set_alloc (set_l_Voters <[(stream, addrBz) := voter_in v]>);;
  if xv_ExpiresAt v =? 0 then mret () else set_alloc (set_l_VoterLapses (union {[(xv_ExpiresAt v, stream, addrBz)]})).

Definition restoreStream (st : StreamState) : AM () :=
  set_alloc (set_l_RewardIndex <[xs_Stream st := default 0 (xs_RewardIndex st)]>);;
  set_alloc (set_l_TotalWeight <[xs_Stream st := default 0 (xs_TotalWeight st)]>);;
  set_alloc (set_l_Epoch <[xs_Stream st := xs_Epoch st]>);;
  genesis ← alloc_nanos;
  let lastUpkeep := if negb (xs_LastUpkeep st =? 0) && (xs_LastUpkeep st <? genesis) then genesis else xs_LastUpkeep st in
  set_alloc (set_l_LastUpkeep <[xs_Stream st := lastUpkeep]>);;
  set_alloc (set_l_OptionSeq <[xs_Stream st := xs_OptionSeq st]>);;
  summed ← restore_options (xs_Stream st) 0 (xs_Options st);
  set_alloc (set_l_SummedWeight <[xs_Stream st := summed]>);;
  for_each (xs_Voters st) (restore_voter (xs_Stream st)).

(** The import's two loops; [summedAccrued] runs through them. *)
Fixpoint sum_accrued (summedAccrued : Z) (l : list GenesisOption) : outcome Z :=
  match l with
  | [] => mret summedAccrued
  | opt :: l =>
      summedAccrued ← IntAdd summedAccrued (default 0 (xo_Accumulated opt));
      sum_accrued summedAccrued l
  end.
Fixpoint restore_streams (summedAccrued : Z) (l : list StreamState) : AM Z :=
  match l with
  | [] => mret summedAccrued
  | st :: l =>
      restoreStream st;;
      summedAccrued ← lift (sum_accrued summedAccrued (xs_Options st));
      restore_streams summedAccrued l
  end.

(** The options a fresh chain is seeded with. *)
Definition seed_option (description handler : string) : AllocationOption :=
  mkOption 0 0 description ALLOCATION_KIND_INTEGRATED "" handler "" 0 0 false 0.

Definition zero_stream (stream : Z) : AM () :=
  set_alloc (set_l_RewardIndex <[stream := 0]>);;
  set_alloc (set_l_TotalWeight <[stream := 0]>);;
  set_alloc (set_l_SummedWeight <[stream := 0]>);;
  set_alloc (set_l_Epoch <[stream := 0]>);;
  set_alloc (set_l_LastUpkeep <[stream := 0]>);;
  set_alloc (set_l_OptionSeq <[stream := 0]>).

Definition seed_streams (seed : Z) : AM () :=
  set_alloc (set_l_SummedAccrued (λ _, Some 0));;
  for_each Streams zero_stream;;
  regID ← appendOption STREAM_ID_CARETAKER (seed_option "Registration rewards" HandlerRegistrationRewards);
  (if 0 <? seed then
     o ← get_alloc (λ s, l_Options s !! (STREAM_ID_CARETAKER, regID));
     match o with
     | None => fail ErrNotFound
     | Some opt => setOption STREAM_ID_CARETAKER (set_op_Accumulated seed opt)
     end
   else mret ());;
  appendOption STREAM_ID_GROUNDWORKS (seed_option "Volume-weighted LP rewards" HandlerLPRewards);;
  appendOption STREAM_ID_GROUNDWORKS (seed_option "Emergency fund (community pool)" HandlerCommunityPool);;
  mret ().

Definition initGenesis (gs : AllocGenesis) : AM () :=
  set_alloc (set_l_Params (λ _, Some (xg_Params gs)));;
  set_alloc (set_l_Residue (λ _, Some (default 0 (xg_Residue gs))));;
  if negb (is_empty (xg_Streams gs)) then
    summedAccrued ← restore_streams 0 (xg_Streams gs);
    set_alloc (set_l_SummedAccrued (λ _, Some summedAccrued))
  else seed_streams (default 0 (xg_RegistrationRewardSeed gs)).

(** [assertGenesisFunded] *)
Definition alloc_assertGenesisFunded : AM () :=
  rep ← alloc_CheckSolvency;
  refuse_if (solvency_broken rep) (Plain "allocation genesis is underfunded").

Definition AllocInitGenesis (gs : AllocGenesis) : AM () :=
  lift (AllocGenesisValidate gs);;
  initGenesis gs;;
  alloc_assertGenesisFunded.

(** [module.go]: an error is a panic. *)
Definition AllocModuleInitGenesis (gs : AllocGenesis) : AM () := λ w,
  match AllocInitGenesis gs w with Ok r => Ok r | _ => Panic end.

(** ** keeper/genesis.go: ExportGenesis *)
Definition option_out (o : AllocationOption) : GenesisOption :=
  mkGenesisOption (op_Id o) (op_Stream o) (op_Description o) (op_Kind o) (op_Recipient o) (op_Handler o) (op_Claimer o)
    (Some (op_AmountAllocated o)) (Some (op_LastRewardIndex o)) (op_Removed o) (Some (op_Accumulated o)).
Definition weight_out (w : OptionWeight) : GenesisOptionWeight := mkGenesisOptionWeight (ow_OptionId w) (Some (ow_Weight w)).
Definition voter_out (addr : string) (v : Voter) : VoterEntry :=
  mkVoterEntry addr (vt_Percentages v) (Some (vt_Weight v)) (vt_Epoch v) (weight_out <$> vt_OptionWeights v) (vt_ExpiresAt v).

(** What is left of a weighted voter's weights, and their sum. *)
Fixpoint existing_weights (stream sum : Z) (l : list OptionWeight) : AM (list OptionWeight * Z) :=
  match l with
  | [] => mret ([], sum)
  | w :: l =>
      o ← get_alloc (λ s, l_Options s !! (stream, ow_OptionId w));
      match o with
      | None => existing_weights stream sum l
      | Some _ =>
          sum ← lift (IntAdd sum (ow_Weight w));
          '(kept, sum) ← existing_weights stream sum l;
          mret (w :: kept, sum)
      end
  end.

(** The walk's callback: the voter as it is exported, if it is. *)
Definition export_voter (stream : Z) (key : bytes) (v : Voter) : AM (option VoterEntry) :=
  addr ← lift (BytesToString key);
  ps ← existingSplit stream (vt_Percentages v);
  let v := mkVoter ps (vt_Weight v) (vt_Epoch v) (vt_OptionWeights v) (vt_ExpiresAt v) in
  match vt_OptionWeights v with
  | _ :: _ =>
      '(kept, sum) ← existing_weights stream 0 (vt_OptionWeights v);
      if is_empty kept then mret None
      else if (length kept <? length (vt_OptionWeights v))%nat
      then mret (Some (voter_out addr (mkVoter ps sum (vt_Epoch v) kept (vt_ExpiresAt v))))
      else mret (Some (voter_out addr v))
  | [] => if is_empty ps then mret None else mret (Some (voter_out addr v))
  end.

Fixpoint export_voters (stream : Z) (l : list (Z * bytes * Voter)) : AM (list VoterEntry) :=
  match l with
  | [] => mret []
  | e :: l =>
      v ← export_voter stream e.1.2 e.2;
      vs ← export_voters stream l;
      mret (match v with Some v => v :: vs | None => vs end)
  end.

Definition exportStream (stream : Z) : AM StreamState :=
  idx ← getRewardIndex stream;
  total ← getTotalWeight stream;
  epoch ← getEpoch stream;
  seq ← get_alloc (λ s, default 0 (l_OptionSeq s !! stream));
  options ← get_alloc (λ s, (λ e : Z * Z * AllocationOption, option_out e.2) <$>
    filter (λ e : Z * Z * AllocationOption, e.1.1 = stream) (iter_map (l_Options s)));
  entries ← get_alloc (λ s, filter (λ e : Z * bytes * Voter, e.1.1 = stream) (iter_map (l_Voters s)));
  voters ← export_voters stream entries;
  mret (mkStreamState stream (Some idx) (Some total) epoch 0 seq options voters).

Fixpoint export_streams (l : list Z) : AM (list StreamState) :=
  match l with
  | [] => mret []
  | stream :: l =>
      st ← exportStream stream;
      sts ← export_streams l;
      mret (st :: sts)
  end.

Definition AllocExportGenesis : AM AllocGenesis :=
  p ← alloc_GetParams;
  match p with
  | None => fail ErrNotFound
  | Some params =>
      residue ← GetResidue;
      streams ← export_streams Streams;
      mret (mkAllocGenesis params streams (Some 0) (Some residue))
  end.
End alloc_genesis.

(** ** What a genesis file says

    [Validate] of [types/genesis.go] as a predicate on the file. *)

(** ** Lists of keyed records *)

(** At most one record has the key: what it contributes. *)
Lemma list_sum_pick {A} (f : A → Z) (g : A → Z) l k :
  NoDup (f <$> l) → list_sum (λ x, if f x =? k then g x else 0) l = default 0 (insert_all ((λ x, (f x, g x)) <$> l) ∅ !! k).
Proof.
  intros Hnd. rewrite <-(file_map_sum f g (λ k' v, if k' =? k then v else 0)) by done.
  destruct (insert_all _ ∅ !! k) as [v|] eqn:E; cbn.
  - rewrite (map_sum_single _ _ k v); [by rewrite Z.eqb_refl|done|]. intros k' v' _ Hne. by destruct (Z.eqb_spec k' k).
  - rewrite (map_sum_ext _ (λ _ _, 0)); [apply map_sum_zero|]. intros k' v' Hk. destruct (Z.eqb_spec k' k) as [->|]; [congruence|done].
Qed.

Lemma insert_all_app {K V} `{Countable K} (l l' : list (K * V)) m : insert_all (l ++ l') m = insert_all l' (insert_all l m).
Proof. revert m. induction l as [|e l IH]; intros m; [done|]. apply IH. Qed.

Lemma list_sum_bind {A B} (f : B → Z) (g : A → list B) l : list_sum f (l ≫= g) = list_sum (λ x, list_sum f (g x)) l.
Proof. induction l as [|x l IH]; [done|]. cbn [mbind list_bind]. by rewrite list_sum_app, list_sum_cons, IH. Qed.

Lemma list_sum_Forall {A} (P : A → Prop) (f : A → Z) l : (∀ x, P x → 0 ≤ f x) → Forall P l → 0 ≤ list_sum f l.
Proof. intros Hf. induction 1 as [|x l Hx _ IH]; [done|]. rewrite list_sum_cons. specialize (Hf x Hx). lia. Qed.

(** ** Validation *)
Definition opt_amount (o : GenesisOption) : Z := default 0 (xo_AmountAllocated o).
Definition opt_accrued (o : GenesisOption) : Z := default 0 (xo_Accumulated o).
Definition opt_weight (w : GenesisOptionWeight) : Z := default 0 (xw_Weight w).
Definition opt_sum (l : list GenesisOption) : Z := list_sum opt_amount l.
Definition given (x : option Z) : Prop := ∃ v, x = Some v ∧ 0 ≤ v.

Lemma missing_spec x : missing x = false ↔ given x.
Proof.
  unfold given. destruct x as [v|]; cbn; [rewrite Z.ltb_ge; split; [by exists v|by intros (? & [= <-] & ?)]|].
  split; [done|by intros (? & ? & _)].
Qed.
Lemma is_empty_spec {A} (l : list A) : is_empty l = true ↔ l = [].
Proof. by destruct l. Qed.
Lemma is_empty_false {A} (l : list A) : is_empty l = false ↔ l ≠ [].
Proof. by destruct l. Qed.

Record option_valid (st : StreamState) (o : GenesisOption) : Prop := {
  xov_id : xo_Id o ≠ 0;
  xov_seq : xo_Id o ≤ xs_OptionSeq st;
  xov_desc : ValidateDescription (xo_Description o) = Ok ();
  xov_removed : xo_Removed o = true → opt_amount o = 0 ∧ opt_accrued o = 0 ∧ xs_Stream st = STREAM_ID_GROUNDWORKS;
  xov_stream : xo_Stream o = xs_Stream st;
  xov_amount : given (xo_AmountAllocated o);
  xov_acc : given (xo_Accumulated o);
  xov_last : ∃ i, xo_LastRewardIndex o = Some i ∧ i ≤ default 0 (xs_RewardIndex st);
}.

Definition weight_valid (options : gset Z) (w : GenesisOptionWeight) : Prop := xw_OptionId w ∈ options ∧ 0 < opt_weight w.
Definition weights_sum (l : list GenesisOptionWeight) : Z := list_sum opt_weight l.
Definition percent_valid (options : gset Z) (w : AllocationWeight) : Prop := wt_OptionId w ∈ options ∧ wt_Percent w ≤ 100.
Definition pct_sum (pct : Z) (l : list AllocationWeight) : Z := foldl (λ p w, wrap_u64 (p + wt_Percent w)) pct l.

Record voter_valid (stream : Z) (options : gset Z) (v : VoterEntry) : Prop := {
  xvv_weight : given (xv_Weight v);
  xvv_expires : 0 ≤ xv_ExpiresAt v;
  xvv_lease : xv_ExpiresAt v ≠ 0 → stream = STREAM_ID_GROUNDWORKS ∧ xv_OptionWeights v = [];
  xvv_percents : Forall (percent_valid options) (xv_Percentages v);
  xvv_pct : xv_Percentages v ≠ [] → pct_sum 0 (xv_Percentages v) ≤ 100;
  xvv_leased : stream = STREAM_ID_GROUNDWORKS → xv_OptionWeights v = [] → xv_Percentages v ≠ [] → xv_ExpiresAt v ≠ 0;
  xvv_weighted : xv_OptionWeights v ≠ [] → xv_Percentages v = [] ∧ NoDup (xw_OptionId <$> xv_OptionWeights v) ∧
    Forall (weight_valid options) (xv_OptionWeights v) ∧ weights_sum (xv_OptionWeights v) = default 0 (xv_Weight v) ∧
    default 0 (xv_Weight v) < 2 ^ 256;
}.

Definition option_ids (st : StreamState) : gset Z := list_to_set (xo_Id <$> xs_Options st).
Definition voter_name (v : VoterEntry) : string := ToLower (xv_Address v).

Record stream_valid (st : StreamState) : Prop := {
  xsv_id : ValidateStreamId (xs_Stream st) = Ok ();
  xsv_index : given (xs_RewardIndex st);
  xsv_total : given (xs_TotalWeight st);
  xsv_upkeep : 0 ≤ xs_LastUpkeep st;
  xsv_ids : NoDup (xo_Id <$> xs_Options st);
  xsv_options : Forall (option_valid st) (xs_Options st);
  xsv_sum : opt_sum (xs_Options st) = default 0 (xs_TotalWeight st);
  xsv_fits : opt_sum (xs_Options st) < 2 ^ 256;
  xsv_names : NoDup (voter_name <$> xs_Voters st);
  xsv_voters : Forall (voter_valid (xs_Stream st) (option_ids st)) (xs_Voters st);
}.

Record alloc_genesis_valid (gs : AllocGenesis) : Prop := {
  xgv_seed : 0 ≤ default 0 (xg_RegistrationRewardSeed gs);
  xgv_fresh : xg_Streams gs ≠ [] → default 0 (xg_RegistrationRewardSeed gs) ≤ 0;
  xgv_residue : 0 ≤ default 0 (xg_Residue gs);
  xgv_streams : NoDup (xs_Stream <$> xg_Streams gs);
  xgv_valid : Forall stream_valid (xg_Streams gs);
  xgv_params : AllocParamsValidate (xg_Params gs) = Ok ();
}.

Section alloc_validation.
Context `{HostLaws, !ShieldedKeeper, !StakingView, !AllocEnv}.
Implicit Types (w : AllocWorld) (s : AllocStore) (st : StreamState) (o : GenesisOption) (v : VoterEntry).

Lemma outcome_unit_bind {B} (m : outcome ()) (k : outcome B) r : (_ ← m; k) = Ok r ↔ m = Ok () ∧ k = Ok r.
Proof. rewrite outcome_bind_ok. split; [intros ([] & ? & ?); by split|intros [? ?]; by exists ()]. Qed.

Lemma carries_spec x : given x → carries x = false ↔ default 0 x = 0.
Proof. intros (v & -> & _). cbn. by rewrite negb_false_iff, Z.eqb_eq. Qed.

Lemma removed_check st o : given (xo_AmountAllocated o) → given (xo_Accumulated o) →
  (if xo_Removed o then
     _ ← refuse (carries (xo_AmountAllocated o)) (Plain "removed option still carries weight");
     _ ← refuse (carries (xo_Accumulated o)) (Plain "removed option still carries a balance");
     refuse (negb (xs_Stream st =? STREAM_ID_GROUNDWORKS)) (Plain "marked removed outside the groundworks stream")
   else mret ()) = Ok () ↔
  (xo_Removed o = true → opt_amount o = 0 ∧ opt_accrued o = 0 ∧ xs_Stream st = STREAM_ID_GROUNDWORKS).
Proof.
  intros Ha Hc. destruct (xo_Removed o); [|by split]. rewrite !refuse_bind, refuse_ok, !carries_spec, negb_false_iff, Z.eqb_eq by done.
  unfold opt_amount, opt_accrued. split; [by intros|]. intros Hr. by apply Hr.
Qed.

Lemma last_spec x b : match x with None => true | Some i => b <? i end = false ↔ ∃ i, x = Some i ∧ i ≤ b.
Proof.
  destruct x as [i|]; [rewrite Z.ltb_ge; split; [by exists i|by intros (? & [= <-] & ?)]|split; [done|by intros (? & ? & _)]].
Qed.

Lemma validate_options_spec st seen summed l r :
  0 ≤ summed →
  validate_options st seen summed l = Ok r ↔
  unseen xo_Id seen l ∧ Forall (option_valid st) l ∧ r = (list_to_set (xo_Id <$> l) ∪ seen, summed + opt_sum l) ∧
  (l = [] ∨ summed + opt_sum l < 2 ^ 256).
Proof.
  revert seen summed. induction l as [|o l IH]; intros seen summed Hs; cbn [validate_options].
  - unfold opt_sum. cbn [fmap list_fmap list_to_set]. rewrite list_sum_nil, union_empty_l_L, Z.add_0_r.
    split; [intros [= <-]; split_and!; [apply unseen_nil|constructor|done|by left]|by intros (_ & _ & -> & _)].
  - rewrite !refuse_bind, unseen_cons, Forall_cons, !outcome_unit_bind, !refuse_ok, bool_decide_eq_false, Z.eqb_neq, Z.ltb_ge, negb_false_iff,
      Z.eqb_eq, !missing_spec, last_spec, outcome_bind_ok.
    assert (opt_sum (o :: l) = opt_amount o + opt_sum l) as -> by (unfold opt_sum; by rewrite list_sum_cons).
    assert (∀ x y : gset Z, x ∪ ({[xo_Id o]} ∪ y) = {[xo_Id o]} ∪ x ∪ y) as Hset by set_solver.
    cbn [fmap list_fmap list_to_set]. split.
    + intros (? & ? & ? & ? & Hrem & ? & Ha & Hc & ? & sm & [-> Hf]%IntAdd_ok & E).
      pose proof (proj1 (removed_check st o Ha Hc) Hrem). apply IH in E as (Hu & Hv & -> & Hlt); [|destruct Ha as (a & E' & ?); rewrite E'; cbn; lia].
      fold (opt_amount o) in *. apply fits_int_spec in Hf. split_and!; try done; [by rewrite Hset, Z.add_assoc|].
      right. destruct Hlt as [->|?]; [unfold opt_sum; rewrite list_sum_nil|]; lia.
    + intros ((? & Hu) & ([] & Hv) & -> & Hlt). destruct Hlt as [|Hlt]; [done|].
      assert (0 ≤ opt_sum l) by (eapply list_sum_Forall; [|exact Hv]; intros x [_ _ _ _ _ (a & E & ?) _ _]; unfold opt_amount; by rewrite E).
      assert (0 ≤ opt_amount o) by (destruct xov_amount0 as (a & E & ?); unfold opt_amount; by rewrite E).
      split_and!; try done; [by apply removed_check|]. exists (summed + opt_amount o). split; [apply IntAdd_fits; lia|].
      apply IH; [lia|]. split_and!; try done; [by rewrite Hset, Z.add_assoc|right; lia].
Qed.

Lemma validate_weights_spec options seen sum l r :
  0 ≤ sum →
  validate_weights options seen sum l = Ok r ↔
  unseen xw_OptionId seen l ∧ Forall (weight_valid options) l ∧ r = sum + weights_sum l ∧ (l = [] ∨ sum + weights_sum l < 2 ^ 256).
Proof.
  revert seen sum. induction l as [|x l IH]; intros seen sum Hs; cbn [validate_weights].
  - unfold weights_sum. rewrite list_sum_nil, Z.add_0_r.
    split; [intros [= <-]; split_and!; [apply unseen_nil|constructor|done|by left]|by intros (_ & _ & -> & _)].
  - rewrite !refuse_bind, unseen_cons, Forall_cons, !negb_false_iff, bool_decide_eq_true, bool_decide_eq_false, Z.ltb_lt, outcome_bind_ok.
    assert (weights_sum (x :: l) = opt_weight x + weights_sum l) as -> by (unfold weights_sum; by rewrite list_sum_cons).
    fold (opt_weight x). unfold weight_valid at 1. split.
    + intros (? & ? & ? & sm & [-> Hf]%IntAdd_ok & E). apply IH in E as (? & ? & -> & Hlt); [|lia]. apply fits_int_spec in Hf.
      split_and!; [done..|lia|]. right. destruct Hlt as [->|?]; [unfold weights_sum; rewrite list_sum_nil|]; lia.
    + intros ((? & ?) & ([? ?] & Hv) & -> & Hlt). destruct Hlt as [|Hlt]; [done|].
      assert (0 ≤ weights_sum l) by (eapply list_sum_Forall; [|exact Hv]; intros y [_ ?]; lia).
      split_and!; try done. exists (sum + opt_weight x). split; [apply IntAdd_fits; lia|].
      apply IH; [lia|]. split_and!; try done; [lia|right; lia].
Qed.

Lemma validateWeightedVoter_spec v options : given (xv_Weight v) →
  validateWeightedVoter v options = Ok () ↔
  (xv_OptionWeights v ≠ [] → xv_Percentages v = [] ∧ NoDup (xw_OptionId <$> xv_OptionWeights v) ∧
    Forall (weight_valid options) (xv_OptionWeights v) ∧ weights_sum (xv_OptionWeights v) = default 0 (xv_Weight v) ∧
    default 0 (xv_Weight v) < 2 ^ 256).
Proof.
  intros _. unfold validateWeightedVoter. destruct (is_empty (xv_OptionWeights v)) eqn:E.
  - apply is_empty_spec in E. split; [by intros|done].
  - apply is_empty_false in E. rewrite refuse_bind, negb_false_iff, is_empty_spec, outcome_bind_ok. split.
    + intros (? & sm & Hw & Hr) _. apply validate_weights_spec in Hw as (Hu%unseen_empty & ? & -> & Hlt); [|done].
      apply refuse_ok in Hr. apply negb_false_iff, Z.eqb_eq in Hr. rewrite Z.add_0_l in *. destruct Hlt; [done|]. split_and!; try done. lia.
    + intros Hv. destruct (Hv E) as (? & ? & ? & Hs & ?). split; [done|]. exists (weights_sum (xv_OptionWeights v)). split.
      * apply validate_weights_spec; [done|]. split_and!; [by apply unseen_empty|done|lia|right; lia].
      * apply refuse_ok. by rewrite negb_false_iff, Z.eqb_eq.
Qed.

Lemma validate_percentages_spec options pct l r :
  validate_percentages options pct l = Ok r ↔ Forall (percent_valid options) l ∧ r = pct_sum pct l.
Proof.
  revert pct. induction l as [|x l IH]; intros pct; cbn [validate_percentages].
  - split; [intros [= <-]; by split|by intros [_ ->]].
  - rewrite !refuse_bind, IH, Forall_cons, negb_false_iff, bool_decide_eq_true, Z.ltb_ge. unfold percent_valid at 2. cbn [pct_sum foldl]. tauto.
Qed.

Lemma lease_check stream v :
  (xv_ExpiresAt v <? 0) || (negb (xv_ExpiresAt v =? 0) && (negb (stream =? STREAM_ID_GROUNDWORKS) || negb (is_empty (xv_OptionWeights v)))) = false ↔
  0 ≤ xv_ExpiresAt v ∧ (xv_ExpiresAt v ≠ 0 → stream = STREAM_ID_GROUNDWORKS ∧ xv_OptionWeights v = []).
Proof.
  rewrite orb_false_iff, Z.ltb_ge, andb_false_iff, orb_false_iff, !negb_false_iff, !Z.eqb_eq, is_empty_spec.
  split; [intros [? [?|?]]; by split|]. intros [? Hl]. split; [done|]. destruct (decide (xv_ExpiresAt v = 0)); [by left|right; by apply Hl].
Qed.

Lemma validate_voters_spec stream options seen l :
  validate_voters stream options seen l = Ok () ↔ unseen voter_name seen l ∧ Forall (voter_valid stream options) l.
Proof.
  revert seen. induction l as [|v l IH]; intros seen; cbn [validate_voters].
  - split; [intros _; split; [apply unseen_nil|constructor]|done].
  - rewrite !refuse_bind, lease_check, missing_spec, bool_decide_eq_false, unseen_cons, Forall_cons. fold (voter_name v).
    rewrite outcome_bind_ok. split.
    + intros (? & Hg & (? & ?) & pct & [? ->]%validate_percentages_spec & E). apply refuse_bind in E as [Hp E].
      apply refuse_bind in E as [Hl E]. apply outcome_unit_bind in E as [Hw E]. apply IH in E as [? ?].
      split_and!; try done. split; [done..| | |by apply validateWeightedVoter_spec].
      * intros Hne. apply is_empty_false in Hne. rewrite Hne in Hp. cbn in Hp. lia.
      * intros -> Ho Hne. apply is_empty_false in Hne. apply is_empty_spec in Ho. rewrite Ho, Hne in Hl. cbn in Hl. lia.
    + intros ((? & ?) & [] & ?). split_and!; try done. exists (pct_sum 0 (xv_Percentages v)). split; [by apply validate_percentages_spec|].
      apply refuse_bind. split; [|apply refuse_bind; split; [|apply outcome_unit_bind; split; [by apply validateWeightedVoter_spec|by apply IH]]].
      * destruct (is_empty (xv_Percentages v)) eqn:E; [done|]. cbn. apply Z.ltb_ge. apply xvv_pct0. by apply is_empty_false.
      * destruct (Z.eqb_spec stream STREAM_ID_GROUNDWORKS), (is_empty (xv_OptionWeights v)) eqn:E1, (is_empty (xv_Percentages v)) eqn:E2; try done.
        cbn. apply Z.eqb_neq. apply xvv_leased0; [done|by apply is_empty_spec|by apply is_empty_false].
Qed.

Lemma validate_streams_spec seen l :
  validate_streams seen l = Ok () ↔ unseen xs_Stream seen l ∧ Forall stream_valid l.
Proof.
  revert seen. induction l as [|st l IH]; intros seen; cbn [validate_streams].
  - split; [intros _; split; [apply unseen_nil|constructor]|done].
  - rewrite outcome_unit_bind, !refuse_bind, !missing_spec, bool_decide_eq_false, Z.ltb_ge, unseen_cons, Forall_cons, outcome_bind_ok. split.
    + intros (? & ? & ? & ? & ? & [ids sm] & Ho & E).
      apply validate_options_spec in Ho as (Hu%unseen_empty & Hv & [= -> ->] & Hlt); [|done]. rewrite Z.add_0_l, union_empty_r_L in *.
      apply refuse_bind in E as [Hs%negb_false_iff%Z.eqb_eq E]. apply outcome_unit_bind in E as [[Hn%unseen_empty ?]%validate_voters_spec E].
      apply IH in E as [? ?]. split_and!; try done. split; try done. destruct Hlt as [->|?]; [done|lia].
    + intros ((? & ?) & [] & ?). split_and!; try done. exists (option_ids st, opt_sum (xs_Options st)). split.
      { apply validate_options_spec; [done|]. rewrite union_empty_r_L, Z.add_0_l. split_and!; [by apply unseen_empty|done|done|by right]. }
      apply refuse_bind. split; [by rewrite negb_false_iff, Z.eqb_eq|]. apply outcome_unit_bind.
      split; [apply validate_voters_spec; split; [by apply unseen_empty|done]|by apply IH].
Qed.

Lemma AllocGenesisValidate_spec gs : AllocGenesisValidate gs = Ok () ↔ alloc_genesis_valid gs.
Proof.
  unfold AllocGenesisValidate. rewrite !refuse_bind, outcome_unit_bind, validate_streams_spec, unseen_empty, !negative_spec,
    andb_false_iff, negb_false_iff, is_empty_spec, Z.ltb_ge.
  split.
  - intros (? & Hf & ? & (? & ?) & ?). split; try done. intros Hne. by destruct Hf.
  - intros []. split_and!; try done. destruct (xg_Streams gs); [by left|right; by apply xgv_fresh0].
Qed.
End alloc_validation.
