(* ===== verification/AllocImport.v ===== *)
(** * x/allocation: what a genesis imports

    The store [InitGenesis] leaves, restored or seeded, and that it meets the invariant of [AllocVotes.v]: a chain started
    from an accepted genesis is one the theorems on reachable states speak of. *)

From S2P Require Export AllocGenesis AllocProperties.

(** ** What a genesis restores

    The loops of [restoreStream], as what they add to the store; and [InitGenesis] of a file that imports. *)

(** ** The import, loop by loop *)

(** A stream's records as they are stored. *)
Definition option_entries (stream : Z) (l : list GenesisOption) : list (Z * Z * AllocationOption) :=
  (λ o, ((stream, xo_Id o), option_in o)) <$> l.
Definition head_entries {V} (g : StreamState → V) (l : list StreamState) : list (Z * V) := (λ st, (xs_Stream st, g st)) <$> l.
Definition integrated_keys (es : list (Z * Z * AllocationOption)) : list (Z * Z) :=
  (filter (λ e, op_Kind e.2 = ALLOCATION_KIND_INTEGRATED ∧ op_Removed e.2 = false) es).*1.
Definition dead_keys (es : list (Z * Z * AllocationOption)) : list (Z * Z) := (filter (λ e, prunable e.2 = true) es).*1.
Definition lapse_entries (vs : list (Z * bytes * Voter)) : list (Z * Z * bytes) :=
  (λ e, (vt_ExpiresAt e.2, e.1.1, e.1.2)) <$> filter (λ e, vt_ExpiresAt e.2 ≠ 0) vs.
Definition upkeep_in (genesis : Z) (st : StreamState) : Z :=
  if negb (xs_LastUpkeep st =? 0) && (xs_LastUpkeep st <? genesis) then genesis else xs_LastUpkeep st.

(** What restoring streams, options and voters adds to a store, at [nanos]. *)
Definition restored (nanos : Z) (hs : list StreamState) (os : list (Z * Z * AllocationOption)) (vs : list (Z * bytes * Voter))
    (s : AllocStore) : AllocStore :=
  let due := wrap_i64 (nanos / 10 ^ 9 + OptionIdleGrace) in
  {| l_Params := l_Params s;
     l_Options := insert_all os (l_Options s);
     l_OptionSeq := insert_all (head_entries xs_OptionSeq hs) (l_OptionSeq s);
     l_Voters := insert_all vs (l_Voters s);
     l_RewardIndex := insert_all (head_entries (λ st, default 0 (xs_RewardIndex st)) hs) (l_RewardIndex s);
     l_TotalWeight := insert_all (head_entries (λ st, default 0 (xs_TotalWeight st)) hs) (l_TotalWeight s);
     l_SummedWeight := insert_all (head_entries (λ st, opt_sum (xs_Options st)) hs) (l_SummedWeight s);
     l_LastUpkeep := insert_all (head_entries (upkeep_in nanos) hs) (l_LastUpkeep s);
     l_Epoch := insert_all (head_entries xs_Epoch hs) (l_Epoch s);
     l_IntegratedOptions := list_to_set (integrated_keys os) ∪ l_IntegratedOptions s;
     l_SummedAccrued := l_SummedAccrued s;
     l_Residue := l_Residue s;
     l_PruneQueue := list_to_set ((λ k, (due, k.1, k.2)) <$> dead_keys os) ∪ l_PruneQueue s;
     l_PruneDue := insert_all ((λ k, (k, due)) <$> dead_keys os) (l_PruneDue s);
     l_SlashedValidators := l_SlashedValidators s;
     l_VoterLapses := list_to_set (lapse_entries vs) ∪ l_VoterLapses s |}.

Lemma restored_nil nanos s : restored nanos [] [] [] s = s.
Proof. destruct s. unfold restored. cbn. by rewrite !union_empty_l_L. Qed.

Lemma restored_app nanos hs hs' os os' vs vs' s :
  restored nanos (hs ++ hs') (os ++ os') (vs ++ vs') s = restored nanos hs' os' vs' (restored nanos hs os vs s).
Proof.
  unfold restored, head_entries, integrated_keys, dead_keys, lapse_entries. cbn.
  rewrite !fmap_app, !filter_app, !fmap_app, !insert_all_app, !list_to_set_app_L.
  assert (∀ A `{Countable A} (X Y Z : gset A), X ∪ Y ∪ Z = Y ∪ (X ∪ Z)) as Hu by (intros; set_solver).
  by rewrite !Hu.
Qed.

Lemma alloc_store_ext s s' :
  l_Params s = l_Params s' → l_Options s = l_Options s' → l_OptionSeq s = l_OptionSeq s' → l_Voters s = l_Voters s' →
  l_RewardIndex s = l_RewardIndex s' → l_TotalWeight s = l_TotalWeight s' → l_SummedWeight s = l_SummedWeight s' →
  l_LastUpkeep s = l_LastUpkeep s' → l_Epoch s = l_Epoch s' → l_IntegratedOptions s = l_IntegratedOptions s' →
  l_SummedAccrued s = l_SummedAccrued s' → l_Residue s = l_Residue s' → l_PruneQueue s = l_PruneQueue s' →
  l_PruneDue s = l_PruneDue s' → l_SlashedValidators s = l_SlashedValidators s' → l_VoterLapses s = l_VoterLapses s' → s = s'.
Proof. destruct s, s'. cbn. by intros -> -> -> -> -> -> -> -> -> -> -> -> -> -> -> ->. Qed.

(** One stream's writes, in the order of [restoreStream]. *)
Lemma restored_stream nanos st os vs s :
  restored nanos [] [] vs (set_l_SummedWeight (insert (xs_Stream st) (opt_sum (xs_Options st))) (restored nanos [] os []
    (set_l_OptionSeq (insert (xs_Stream st) (xs_OptionSeq st)) (set_l_LastUpkeep <[xs_Stream st := upkeep_in nanos st]>
      (set_l_Epoch (insert (xs_Stream st) (xs_Epoch st)) (set_l_TotalWeight <[xs_Stream st := default 0 (xs_TotalWeight st)]>
        (set_l_RewardIndex (insert (xs_Stream st) (default 0 (xs_RewardIndex st))) s))))))) = restored nanos [st] os vs s.
Proof.
  apply alloc_store_ext; try reflexivity; symmetry.
  - change (l_IntegratedOptions (restored nanos [st] os vs s)) with (list_to_set (integrated_keys os) ∪ l_IntegratedOptions s).
    etrans; [|symmetry; apply union_empty_l_L]. reflexivity.
  - etrans; [|symmetry; apply union_empty_l_L]. reflexivity.
  - change (list_to_set (lapse_entries vs) ∪ l_VoterLapses s = list_to_set (lapse_entries vs) ∪ (∅ ∪ l_VoterLapses s)).
    by rewrite union_empty_l_L.
Qed.

Section restore.
Context `{HostLaws, !ShieldedKeeper, !StakingView, !AllocEnv}.
Implicit Types (w : AllocWorld) (s : AllocStore) (st : StreamState) (o : GenesisOption) (v : VoterEntry).

Definition nanos_of w : Z := w_nanos (a_world w).

Lemma upd_alloc_fold f g w : upd_alloc f (upd_alloc g w) = upd_alloc (λ s, f (g s)) w.
Proof. done. Qed.
Lemma upd_alloc_eq f g w : f (a_store w) = g (a_store w) → upd_alloc f w = upd_alloc g w.
Proof. unfold upd_alloc. by intros ->. Qed.
Lemma restored_fold nanos hs hs' os os' vs vs' w :
  upd_alloc (restored nanos hs' os' vs') (upd_alloc (restored nanos hs os vs) w) = upd_alloc (restored nanos (hs ++ hs') (os ++ os') (vs ++ vs')) w.
Proof. rewrite upd_alloc_fold. apply upd_alloc_eq. by rewrite restored_app. Qed.

Lemma run_bind_eq {A B} (m : AM A) (k : A → AM B) w a w' : m w = Ok (a, w') → (m ≫= k) w = k a w'.
Proof. intros E. by rewrite (run_bind _ _ _ _ _ E). Qed.

(** One option: stored, filed as integrated, scheduled if it is dead. *)
Lemma restore_option_run stream o w :
  l_PruneDue (a_store w) !! (stream, xo_Id o) = None →
  restore_option stream o w =
  Ok ((), upd_alloc (restored (nanos_of w) [] (option_entries stream [o]) []) w).
Proof.
  intros Hn. destruct w as [s x], s as [? ? ? ? ? ? ? ? ? I ? ? Q D ? L]. cbn in Hn.
  unfold restore_option, restored, option_entries, integrated_keys, dead_keys, refreshPruneSchedule, alloc_unix. cbn [fmap list_fmap].
  rewrite !filter_cons, !filter_nil. cbn [fst snd op_Kind op_Removed option_in op_Id].
  destruct (decide (xo_Kind o = ALLOCATION_KIND_INTEGRATED)) as [Hk|Hk], (xo_Removed o) eqn:Er;
    rewrite ?(bool_decide_eq_true_2 _ Hk), ?(bool_decide_eq_false_2 _ Hk); cbn [andb negb].
  all: rewrite ?decide_False by (intros [? ?]; congruence); rewrite ?decide_True by done.
  all: destruct (prunable (option_in o)) eqn:Ep; rewrite ?decide_False by done; rewrite ?decide_True by done.
  all: unfold set_alloc, get_alloc, modify, gets, mbind, prog_bind, upd_alloc, mret, prog_ret; cbn -[union]; rewrite ?Hn; cbn -[union].
  all: unfold set_l_PruneQueue, set_l_PruneDue, set_l_Options, set_l_IntegratedOptions, unix, nanos_of, a_world; cbn -[union].
  all: by rewrite ?union_empty_l_L, ?union_empty_r_L.
Qed.

Lemma restore_options_run stream summed l w :
  0 ≤ summed → Forall (λ o, given (xo_AmountAllocated o)) l → summed + opt_sum l < 2 ^ 256 → NoDup (xo_Id <$> l) →
  (∀ o, o ∈ l → l_PruneDue (a_store w) !! (stream, xo_Id o) = None) →
  restore_options stream summed l w = Ok (summed + opt_sum l, upd_alloc (restored (nanos_of w) [] (option_entries stream l) []) w).
Proof.
  revert summed w. induction l as [|o l IH]; intros summed w Hs Hg Hlt Hnd Hp; cbn [restore_options].
  - unfold opt_sum. rewrite list_sum_nil, Z.add_0_r. unfold mret, prog_ret. f_equal. f_equal. destruct w as [s x]. unfold upd_alloc.
    cbn. by rewrite restored_nil.
  - apply Forall_cons in Hg as [(a & Ea & Ha) Hg]. cbn [fmap list_fmap] in Hnd. apply NoDup_cons in Hnd as [Hn Hnd].
    assert (opt_amount o = a) as Eo by (unfold opt_amount; by rewrite Ea).
    unfold opt_sum in *. rewrite list_sum_cons in *. fold (opt_amount o). rewrite Eo in *. assert (0 ≤ list_sum opt_amount l).
    { eapply list_sum_Forall; [|exact Hg]. intros x (b & Eb & ?). unfold opt_amount. by rewrite Eb. }
    rewrite (run_bind _ _ w (summed + a) w) by (unfold lift; rewrite IntAdd_fits by lia; done).
    rewrite (run_bind _ _ w () _ (restore_option_run stream o w (Hp o ltac:(left)))).
    rewrite (IH (summed + a) (upd_alloc _ w)); [|lia|done|lia|done|].
    + rewrite restored_fold. f_equal. f_equal. lia.
    + intros x Hx. cbn [a_store upd_alloc restored l_PruneDue]. apply eq_None_not_Some. intros [Hin|Hin]%insert_all_is_Some.
      * apply list_elem_of_fmap in Hin as ([k d] & E & Hin). apply list_elem_of_fmap in Hin as (k' & [= -> ->] & Hin).
        cbn in E. unfold dead_keys in Hin. apply list_elem_of_fmap in Hin as (e & -> & [_ He]%list_elem_of_filter).
        apply list_elem_of_singleton in He as ->. injection E as E. apply Hn. rewrite <-E. by apply list_elem_of_fmap_2.
      * rewrite Hp in Hin by by right. by destruct Hin.
Qed.

Definition addr_ok v : Prop := ∃ b, StringToBytes (xv_Address v) = Ok b.
Definition addr_key v : bytes := match StringToBytes (xv_Address v) with Ok b => b | _ => [] end.
Definition voter_entries (stream : Z) (l : list VoterEntry) : list (Z * bytes * Voter) :=
  (λ v, ((stream, addr_key v), voter_in v)) <$> l.

Lemma restore_voter_ok stream v w u w' :
  restore_voter stream v w = Ok (u, w') ↔ addr_ok v ∧ w' = upd_alloc (restored (nanos_of w) [] [] (voter_entries stream [v])) w.
Proof.
  unfold restore_voter, addr_ok, voter_entries. destruct (StringToBytes (xv_Address v)) as [b| |] eqn:E.
  2,3: split; [intros (? & ? & [[=] _]%lift_ok & _)%bind_ok|by intros [[? [=]] _]].
  assert (addr_key v = b) as Ek by (unfold addr_key; by rewrite E).
  rewrite (run_bind _ _ w b w) by done. destruct w as [[] x]. unfold restored, lapse_entries, upd_alloc. cbn [fmap list_fmap]. rewrite Ek.
  rewrite filter_cons, filter_nil. cbn [fst snd vt_ExpiresAt voter_in].
  destruct (Z.eqb_spec (xv_ExpiresAt v) 0) as [Hz|Hz]; [rewrite decide_False by (intros Hn; by apply Hn)|rewrite decide_True by done].
  all: unfold set_alloc, modify, mbind, prog_bind, mret, prog_ret, upd_alloc, set_l_Voters, set_l_VoterLapses; cbn -[union];
    rewrite ?union_empty_l_L, ?union_empty_r_L; destruct u.
  all: split; [intros [= <-]; split; [by exists b|done]|by intros [_ ->]].
Qed.

Lemma restore_voters_ok stream l w u w' :
  for_each l (restore_voter stream) w = Ok (u, w') ↔
  Forall addr_ok l ∧ w' = upd_alloc (restored (nanos_of w) [] [] (voter_entries stream l)) w.
Proof.
  revert w. induction l as [|v l IH]; intros w; cbn [for_each].
  - rewrite ret_ok. assert (upd_alloc (restored (nanos_of w) [] [] (voter_entries stream [])) w = w) as ->.
    { destruct w. unfold upd_alloc. cbn. by rewrite restored_nil. }
    destruct u. split; [intros [= <-]; by split|by intros [_ ->]].
  - rewrite bind_ok, Forall_cons. split.
    + intros (? & w1 & [Hv ->]%restore_voter_ok & [Hl ->]%IH). split; [done|]. by rewrite restored_fold.
    + intros [[Hv Hl] ->]. exists (), (upd_alloc (restored (nanos_of w) [] [] (voter_entries stream [v])) w).
      split; [by apply restore_voter_ok|]. apply IH. split; [done|]. by rewrite restored_fold.
Qed.

(** A stream without a removal schedule, as every stream of a new store is. *)
Definition unscheduled s (stream : Z) : Prop := ∀ id, l_PruneDue s !! (stream, id) = None.

Lemma restoreStream_ok st w u w' :
  stream_valid st → unscheduled (a_store w) (xs_Stream st) →
  restoreStream st w = Ok (u, w') ↔ Forall addr_ok (xs_Voters st) ∧
  w' = upd_alloc (restored (nanos_of w) [st] (option_entries (xs_Stream st) (xs_Options st)) (voter_entries (xs_Stream st) (xs_Voters st))) w.
Proof.
  intros [] Hun. unfold restoreStream. do 6 (erewrite run_bind by reflexivity).
  erewrite run_bind.
  2:{ rewrite restore_options_run; [reflexivity|done| |done|done|by intros; apply Hun].
      eapply Forall_impl; [exact xsv_options|]. by intros o []. }
  erewrite run_bind by reflexivity. rewrite restore_voters_ok.
  match goal with |- _ ∧ w' = ?x ↔ _ ∧ w' = ?y => assert (x = y) as ->; [|done] end.
  rewrite !upd_alloc_fold. apply upd_alloc_eq. apply restored_stream.
Qed.
End restore.

(** ** The state it leaves *)

(** The store of a chain that starts. *)
Definition alloc_new_store : AllocStore :=
  {| l_Params := None; l_Options := ∅; l_OptionSeq := ∅; l_Voters := ∅; l_RewardIndex := ∅; l_TotalWeight := ∅;
     l_SummedWeight := ∅; l_LastUpkeep := ∅; l_Epoch := ∅; l_IntegratedOptions := ∅; l_SummedAccrued := None;
     l_Residue := None; l_PruneQueue := ∅; l_PruneDue := ∅; l_SlashedValidators := ∅; l_VoterLapses := ∅ |}.

Definition all_options (l : list StreamState) : list (Z * Z * AllocationOption) :=
  l ≫= λ st, option_entries (xs_Stream st) (xs_Options st).
Definition accrued_total (l : list StreamState) : Z := list_sum (λ st, list_sum opt_accrued (xs_Options st)) l.

Section import.
Context `{HostLaws, !ShieldedKeeper, !StakingView, !AllocEnv}.
Implicit Types (w : AllocWorld) (s : AllocStore) (st : StreamState) (gs : AllocGenesis).

Definition all_voters (l : list StreamState) : list (Z * bytes * Voter) :=
  l ≫= λ st, voter_entries (xs_Stream st) (xs_Voters st).
Definition addresses_ok (l : list StreamState) : Prop := Forall (λ st, Forall addr_ok (xs_Voters st)) l.

Lemma accrued_nonneg l : Forall (λ o, given (xo_Accumulated o)) l → 0 ≤ list_sum opt_accrued l.
Proof. apply list_sum_Forall. intros o (b & Eb & ?). unfold opt_accrued. by rewrite Eb. Qed.

Lemma sum_accrued_spec acc l r :
  0 ≤ acc < 2 ^ 256 → Forall (λ o, given (xo_Accumulated o)) l →
  sum_accrued acc l = Ok r ↔ r = acc + list_sum opt_accrued l ∧ r < 2 ^ 256.
Proof.
  intros Ha Hg. revert acc Ha. induction Hg as [|o l (a & Ea & Hge) Hg IH]; intros acc Ha; cbn [sum_accrued].
  - rewrite list_sum_nil, Z.add_0_r. split; [intros [= <-]; split; [done|lia]|by intros [-> _]].
  - pose proof (accrued_nonneg _ Hg).
    rewrite list_sum_cons. unfold opt_accrued at 1. rewrite Ea. cbn [default from_option id]. rewrite outcome_bind_ok. split.
    + intros (x & [-> Hf%fits_int_spec]%IntAdd_ok & Hr). apply IH in Hr as [-> ?]; lia.
    + intros [-> Hlt]. exists (acc + a). split; [apply IntAdd_fits; lia|]. apply IH; lia.
Qed.

Lemma streams_accrued_nonneg l : Forall stream_valid l → 0 ≤ accrued_total l.
Proof.
  apply list_sum_Forall. intros st Hst. apply accrued_nonneg. eapply Forall_impl; [apply Hst|]. by intros o [].
Qed.

Lemma restore_streams_ok acc l w r w' :
  Forall stream_valid l → NoDup (xs_Stream <$> l) → (∀ st, st ∈ l → unscheduled (a_store w) (xs_Stream st)) → 0 ≤ acc < 2 ^ 256 →
  restore_streams acc l w = Ok (r, w') ↔ addresses_ok l ∧ r = acc + accrued_total l ∧ r < 2 ^ 256 ∧
    w' = upd_alloc (restored (nanos_of w) l (all_options l) (all_voters l)) w.
Proof.
  intros Hv. revert acc w. induction Hv as [|st l Hst Hv IH]; intros acc w Hnd Hun Ha; cbn [restore_streams].
  - assert (upd_alloc (restored (nanos_of w) [] (all_options []) (all_voters [])) w = w) as ->.
    { destruct w. unfold upd_alloc. cbn. by rewrite restored_nil. }
    unfold accrued_total. rewrite list_sum_nil, Z.add_0_r, ret_ok. split; [intros [= -> ->]; split_and!; [constructor|done..|lia|done]|].
    by intros (_ & -> & _ & ->).
  - cbn [fmap list_fmap] in Hnd. apply NoDup_cons in Hnd as [Hn Hnd]. pose proof (streams_accrued_nonneg _ Hv) as Hge.
    assert (Forall (λ o, given (xo_Accumulated o)) (xs_Options st)) as Hg.
    { eapply Forall_impl; [apply Hst|]. by intros o []. }
    assert (∀ x, x ∈ l → unscheduled (a_store (upd_alloc (restored (nanos_of w) [st] (option_entries (xs_Stream st) (xs_Options st))
      (voter_entries (xs_Stream st) (xs_Voters st))) w)) (xs_Stream x)) as Hun'.
    { intros x Hx id. cbn [a_store upd_alloc restored l_PruneDue]. apply eq_None_not_Some. intros [Hin|Hin]%insert_all_is_Some.
      - rewrite <-list_fmap_compose in Hin. apply list_elem_of_fmap in Hin as (k & E & Hin). unfold dead_keys in Hin.
        apply list_elem_of_fmap in Hin as (e & -> & [_ He]%list_elem_of_filter). apply list_elem_of_fmap in He as (o & -> & _).
        injection E as E _. apply Hn. rewrite <-E. by apply list_elem_of_fmap_2.
      - rewrite (Hun x ltac:(by right) id) in Hin. by destruct Hin. }
    pose proof (accrued_nonneg _ Hg) as Hge'.
    unfold accrued_total, addresses_ok in *. rewrite list_sum_cons, Forall_cons, bind_ok. split.
    + intros (u & w1 & Hr & E). apply restoreStream_ok in Hr as [Hao ->]; [|done|apply Hun; by left].
      apply bind_ok in E as (acc' & w2 & [Hacc ->]%lift_ok & E). apply sum_accrued_spec in Hacc as [-> ?]; [|done..].
      apply IH in E as (? & -> & ? & ->); [|done..|lia]. split_and!; try done; [lia|]. by rewrite restored_fold.
    + intros ([Hao Hal] & -> & Hlt & ->). eexists (), _. split; [apply restoreStream_ok; [done|apply Hun; by left|by split]|].
      erewrite run_bind; [|unfold lift; rewrite (proj2 (sum_accrued_spec acc _ (acc + list_sum opt_accrued (xs_Options st)) Ha Hg)); [reflexivity|lia]].
      apply IH; [done..|lia|]. split_and!; try done; [lia|]. by rewrite restored_fold.
Qed.

(** The store of an import. *)
Definition import_base gs : AllocStore :=
  set_l_Residue (λ _, Some (default 0 (xg_Residue gs))) (set_l_Params (λ _, Some (xg_Params gs)) alloc_new_store).
Definition imported_store (nanos : Z) gs : AllocStore :=
  let sts := xg_Streams gs in
  set_l_SummedAccrued (λ _, Some (accrued_total sts)) (restored nanos sts (all_options sts) (all_voters sts) (import_base gs)).

Lemma initGenesis_import_ok gs w u w' :
  a_store w = alloc_new_store → alloc_genesis_valid gs → xg_Streams gs ≠ [] →
  initGenesis gs w = Ok (u, w') ↔ addresses_ok (xg_Streams gs) ∧ accrued_total (xg_Streams gs) < 2 ^ 256 ∧
    w' = mkAllocWorld (imported_store (nanos_of w) gs) (a_ext w).
Proof.
  intros Hnew [] Hne. unfold initGenesis. do 2 (erewrite run_bind by reflexivity).
  rewrite (proj2 (is_empty_false _) Hne). cbn [negb]. rewrite bind_ok.
  assert (∀ st, unscheduled (a_store (upd_alloc (set_l_Residue (λ _, Some (default 0 (xg_Residue gs))))
    (upd_alloc (set_l_Params (λ _, Some (xg_Params gs))) w))) (xs_Stream st)) as Hun.
  { intros st id. cbn. by rewrite Hnew. }
  assert (∀ f, mkAllocWorld (f (a_store w)) (a_ext w) = mkAllocWorld (f alloc_new_store) (a_ext w)) as Hw by (intros; by rewrite Hnew).
  split.
  - intros (r & w1 & (Hao & -> & Hlt & ->)%restore_streams_ok & ->%set_alloc_ok); [|done|done|by intros|lia].
    rewrite Z.add_0_l in *. split_and!; try done. unfold upd_alloc. cbn [a_store a_ext]. by rewrite Hnew.
  - intros (Hao & Hlt & ->). eexists _, _. split; [apply restore_streams_ok; [done|done|by intros|lia|]|].
    + split_and!; [done|reflexivity|by rewrite Z.add_0_l|reflexivity].
    + rewrite Z.add_0_l. destruct w as [s x], u. cbn in Hnew. by rewrite Hnew.
Qed.

(** ** Keys *)
Lemma NoDup_streams {B} (f : StreamState → list B) (g : StreamState → B → Z * B) l :
  NoDup (xs_Stream <$> l) → Forall (λ st, NoDup (f st)) l → (∀ st x, g st x = (xs_Stream st, x)) →
  NoDup (l ≫= λ st, g st <$> f st).
Proof.
  intros Hnd Hf Hg. induction Hf as [|st l Hst Hf IH]; [constructor|]. cbn [mbind list_bind fmap list_fmap] in *. apply NoDup_cons in Hnd as [Hn Hnd].
  apply NoDup_app. split_and!; [|intros y Hy Hin; apply Hn|by apply IH].
  - apply NoDup_fmap_2_strong; [|done]. intros x y _ _. rewrite !Hg. congruence.
  - apply list_elem_of_fmap in Hy as (x & -> & _). apply list_elem_of_bind in Hin as (st' & Hin & Hst').
    apply list_elem_of_fmap in Hin as (y & E & _). rewrite !Hg in E. injection E as E _. rewrite E. by apply list_elem_of_fmap_2.
Qed.

Lemma fst_entries {K A B} (f : StreamState → list A) (k : StreamState → A → K) (g : StreamState → A → B) (l : list StreamState) :
  (l ≫= λ st, (λ x, (k st x, g st x)) <$> f st).*1 = l ≫= λ st, k st <$> f st.
Proof. induction l as [|st l IH]; [done|]. cbn [mbind list_bind]. rewrite fmap_app, entries_fst. by f_equal. Qed.

Lemma all_options_NoDup l : NoDup (xs_Stream <$> l) → Forall stream_valid l → NoDup (all_options l).*1.
Proof.
  intros Hnd Hv. unfold all_options, option_entries. rewrite (fst_entries xs_Options (λ st o, (xs_Stream st, xo_Id o)) (λ _, option_in)).
  rewrite (list_bind_ext _ (λ st, pair (xs_Stream st) <$> (xo_Id <$> xs_Options st)) _ l); [|intros; by rewrite <-list_fmap_compose|done].
  apply (NoDup_streams (λ st, xo_Id <$> xs_Options st) (λ st, pair (xs_Stream st))); [done| |done].
  eapply Forall_impl; [exact Hv|]. by intros st [].
Qed.

Lemma in_all_options l k o :
  (k, o) ∈ all_options l ↔ ∃ st g, st ∈ l ∧ g ∈ xs_Options st ∧ k = (xs_Stream st, xo_Id g) ∧ o = option_in g.
Proof.
  unfold all_options, option_entries. rewrite list_elem_of_bind. setoid_rewrite list_elem_of_fmap. naive_solver.
Qed.


Lemma NoDup_by {A K K'} (f : A → K) (g : A → K') l :
  (∀ x y, x ∈ l → y ∈ l → g x = g y → f x = f y) → NoDup (f <$> l) → NoDup (g <$> l).
Proof.
  induction l as [|x l IH]; intros Hfg; [constructor|]. cbn [fmap list_fmap]. rewrite !NoDup_cons. intros [Hn Hnd]. split.
  - intros Hin. apply Hn. apply list_elem_of_fmap in Hin as (y & E & Hy). apply list_elem_of_fmap. exists y.
    split; [|done]. apply Hfg; [by left|by right|done].
  - apply IH; [|done]. intros y z Hy Hz. apply Hfg; by right.
Qed.

Lemma all_voters_NoDup l : codec_lower → NoDup (xs_Stream <$> l) → Forall stream_valid l → addresses_ok l → NoDup (all_voters l).*1.
Proof.
  intros Hc Hnd Hv Hao. unfold all_voters, voter_entries. rewrite (fst_entries xs_Voters (λ st v, (xs_Stream st, addr_key v)) (λ _, voter_in)).
  rewrite (list_bind_ext _ (λ st, pair (xs_Stream st) <$> (addr_key <$> xs_Voters st)) _ l); [|intros; by rewrite <-list_fmap_compose|done].
  apply (NoDup_streams (λ st, addr_key <$> xs_Voters st) (λ st, pair (xs_Stream st))); [done| |done].
  unfold addresses_ok in Hao. rewrite Forall_forall in Hv, Hao |- *. intros st Hst. specialize (Hao st Hst). rewrite Forall_forall in Hao.
  apply (NoDup_by voter_name); [|by apply Hv]. intros x y Hx Hy. unfold addr_key.
  destruct (Hao x Hx) as (a & Ea), (Hao y Hy) as (c & Ec). rewrite Ea, Ec. intros ->. by apply (Hc _ _ c).
Qed.

Lemma in_all_voters l k v :
  (k, v) ∈ all_voters l ↔ ∃ st e, st ∈ l ∧ e ∈ xs_Voters st ∧ k = (xs_Stream st, addr_key e) ∧ v = voter_in e.
Proof.
  unfold all_voters, voter_entries. rewrite list_elem_of_bind. setoid_rewrite list_elem_of_fmap. naive_solver.
Qed.

(** ** The invariant *)

(** What the file's current voters put on an option. *)
Definition file_live st (id : Z) : Z :=
  list_sum (λ v, if xv_Epoch v =? xs_Epoch st then on (contributions (voter_in v)) id else 0) (xs_Voters st).
Definition file_unsettled (l : list StreamState) : Z :=
  list_sum (λ st, list_sum (λ o, unsettled (default 0 (xs_RewardIndex st)) (option_in o)) (xs_Options st)) l.

(** What a file's unsigned fields are. *)
Definition alloc_words_ok gs : Prop :=
  Forall (λ st, 0 ≤ xs_Epoch st ∧ 0 ≤ xs_OptionSeq st ∧
    Forall (λ v, 0 ≤ xv_Epoch v ∧ Forall (λ p, 0 ≤ wt_Percent p) (xv_Percentages v)) (xs_Voters st)) (xg_Streams gs) ∧
  0 ≤ ap_GroundworksLeaseSeconds (xg_Params gs).

(** What [Validate] leaves to the file's author: a vote is of the current epoch or an earlier one, an option carries what
    the current votes put on it. *)
Definition votes_match gs : Prop :=
  Forall (λ st, Forall (λ v, xv_Epoch v ≤ xs_Epoch st) (xs_Voters st) ∧
    Forall (λ o, xo_Removed o = false → opt_amount o = file_live st (xo_Id o)) (xs_Options st)) (xg_Streams gs).

(** A record says what the file says of it, field by field; an amount the file leaves out is zero. *)
Definition says_option (g : GenesisOption) (o : AllocationOption) : Prop :=
  op_Id o = xo_Id g ∧ op_Stream o = xo_Stream g ∧ op_Description o = xo_Description g ∧ op_Kind o = xo_Kind g ∧
  op_Recipient o = xo_Recipient g ∧ op_Handler o = xo_Handler g ∧ op_Claimer o = xo_Claimer g ∧
  op_AmountAllocated o = default 0 (xo_AmountAllocated g) ∧ op_LastRewardIndex o = default 0 (xo_LastRewardIndex g) ∧
  op_Removed o = xo_Removed g ∧ op_Accumulated o = default 0 (xo_Accumulated g).
Definition says_vote (e : VoterEntry) (v : Voter) : Prop :=
  vt_Percentages v = xv_Percentages e ∧ vt_Weight v = default 0 (xv_Weight e) ∧ vt_Epoch v = xv_Epoch e ∧
  vt_OptionWeights v = (λ x, mkOptionWeight (xw_OptionId x) (default 0 (xw_Weight x))) <$> xv_OptionWeights e ∧
  vt_ExpiresAt v = xv_ExpiresAt e.

Lemma says_option_in g o : says_option g o ↔ o = option_in g.
Proof.
  destruct o. unfold says_option, option_in. cbn.
  split; [by intros (-> & -> & -> & -> & -> & -> & -> & -> & -> & -> & ->)|by intros [= -> -> -> -> -> -> -> -> -> -> ->]].
Qed.
Lemma says_vote_in e v : says_vote e v ↔ v = voter_in e.
Proof. destruct v. unfold says_vote, voter_in, weight_in. cbn. split; [by intros (-> & -> & -> & -> & ->)|by intros [= -> -> -> -> ->]]. Qed.

(** The store says what a file with streams says, restored at [nanos]: every record and figure of the file and no other.  The
    running sums, the lapse queue and the prune schedule, which no file carries, are rebuilt from the records; a clock that had
    started stands at the genesis time at the earliest. *)
Record restores_file gs (nanos : Z) s : Prop := {
  rf_params : l_Params s = Some (xg_Params gs);
  rf_residue : l_Residue s = Some (default 0 (xg_Residue gs));
  rf_options k id o : l_Options s !! (k, id) = Some o ↔
    ∃ st g, st ∈ xg_Streams gs ∧ g ∈ xs_Options st ∧ xs_Stream st = k ∧ xo_Id g = id ∧ says_option g o;
  rf_voters k key v : l_Voters s !! (k, key) = Some v ↔
    ∃ st e, st ∈ xg_Streams gs ∧ e ∈ xs_Voters st ∧ xs_Stream st = k ∧ StringToBytes (xv_Address e) = Ok key ∧ says_vote e v;
  rf_seq k x : l_OptionSeq s !! k = Some x ↔ ∃ st, st ∈ xg_Streams gs ∧ xs_Stream st = k ∧ x = xs_OptionSeq st;
  rf_index k x : l_RewardIndex s !! k = Some x ↔ ∃ st, st ∈ xg_Streams gs ∧ xs_Stream st = k ∧ x = default 0 (xs_RewardIndex st);
  rf_total k x : l_TotalWeight s !! k = Some x ↔ ∃ st, st ∈ xg_Streams gs ∧ xs_Stream st = k ∧ x = default 0 (xs_TotalWeight st);
  rf_epoch k x : l_Epoch s !! k = Some x ↔ ∃ st, st ∈ xg_Streams gs ∧ xs_Stream st = k ∧ x = xs_Epoch st;
  rf_upkeep k x : l_LastUpkeep s !! k = Some x ↔ ∃ st, st ∈ xg_Streams gs ∧ xs_Stream st = k ∧
    x = if xs_LastUpkeep st =? 0 then 0 else xs_LastUpkeep st `max` nanos;
  rf_summed k x : l_SummedWeight s !! k = Some x ↔ ∃ st, st ∈ xg_Streams gs ∧ xs_Stream st = k ∧
    x = list_sum (λ o, default 0 (xo_AmountAllocated o)) (xs_Options st);
  rf_accrued : l_SummedAccrued s = Some (list_sum (λ st, list_sum (λ o, default 0 (xo_Accumulated o)) (xs_Options st)) (xg_Streams gs));
  rf_lapses t k key : (t, k, key) ∈ l_VoterLapses s ↔ t ≠ 0 ∧ ∃ v, l_Voters s !! (k, key) = Some v ∧ vt_ExpiresAt v = t;
  rf_due kk d : l_PruneDue s !! kk = Some d ↔
    (∃ o, l_Options s !! kk = Some o ∧ prunable o = true) ∧ d = wrap_i64 (nanos / 10 ^ 9 + OptionIdleGrace);
  rf_slashed : l_SlashedValidators s = ∅;
}.

Section imported.
Variables (gs : AllocGenesis) (nanos : Z).
Hypothesis Hv : alloc_genesis_valid gs.
Hypothesis Hc : codec_lower.
Hypothesis Hao : addresses_ok (xg_Streams gs).
Hypothesis Hwords : alloc_words_ok gs.
Hypothesis Hvotes : votes_match gs.

Definition sts : list StreamState := xg_Streams gs.
Definition imp : AllocStore := imported_store nanos gs.

Lemma sts_NoDup : NoDup (xs_Stream <$> sts).
Proof. apply Hv. Qed.
Lemma sts_valid st : st ∈ sts → stream_valid st.
Proof. pose proof (xgv_valid _ Hv) as Hf. rewrite Forall_forall in Hf. apply Hf. Qed.

Lemma head_lookup {V} (f : StreamState → V) k x :
  insert_all (head_entries f sts) ∅ !! k = Some x ↔ ∃ st, st ∈ sts ∧ xs_Stream st = k ∧ x = f st.
Proof. apply (file_map_lookup xs_Stream f), sts_NoDup. Qed.
Lemma head_of {V} (d : V) (f : StreamState → V) st : st ∈ sts → default d (insert_all (head_entries f sts) ∅ !! xs_Stream st) = f st.
Proof. intros Hst. by rewrite (proj2 (head_lookup f (xs_Stream st) (f st))) by by exists st. Qed.
Lemma head_nonneg (f : StreamState → Z) k : (∀ st, st ∈ sts → 0 ≤ f st) → 0 ≤ default 0 (insert_all (head_entries f sts) ∅ !! k).
Proof.
  intros Hf. destruct (insert_all _ ∅ !! k) as [x|] eqn:E; [|done]. apply head_lookup in E as (st & Hst & _ & ->). by apply Hf.
Qed.

Lemma option_lookup k id o :
  l_Options imp !! (k, id) = Some o ↔ ∃ st g, st ∈ sts ∧ g ∈ xs_Options st ∧ xs_Stream st = k ∧ xo_Id g = id ∧ o = option_in g.
Proof.
  change (l_Options imp) with (insert_all (all_options sts) ∅).
  rewrite insert_all_lookup, in_all_options, lookup_empty by (apply all_options_NoDup; apply Hv). split.
  - intros [(st & g & ? & ? & [= -> ->] & ->)|[_ [=]]]. by exists st, g.
  - intros (st & g & ? & ? & <- & <- & ->). left. by exists st, g.
Qed.

Lemma voter_lookup k key v :
  l_Voters imp !! (k, key) = Some v ↔ ∃ st e, st ∈ sts ∧ e ∈ xs_Voters st ∧ xs_Stream st = k ∧ addr_key e = key ∧ v = voter_in e.
Proof.
  change (l_Voters imp) with (insert_all (all_voters sts) ∅).
  rewrite insert_all_lookup, in_all_voters, lookup_empty by (apply all_voters_NoDup; [done|apply Hv..|done]). split.
  - intros [(st & g & ? & ? & [= -> ->] & ->)|[_ [=]]]. by exists st, g.
  - intros (st & g & ? & ? & <- & <- & ->). left. by exists st, g.
Qed.

Lemma addr_key_of st e key : st ∈ sts → e ∈ xs_Voters st → addr_key e = key ↔ StringToBytes (xv_Address e) = Ok key.
Proof.
  intros Hst He. destruct (proj1 (Forall_forall _ _) (proj1 (Forall_forall _ _) Hao st Hst) e He) as (b & Eb).
  unfold addr_key. rewrite Eb. naive_solver.
Qed.

Lemma lapses_imp t k key :
  (t, k, key) ∈ l_VoterLapses imp ↔ t ≠ 0 ∧ ∃ v, l_Voters imp !! (k, key) = Some v ∧ vt_ExpiresAt v = t.
Proof.
  change (l_VoterLapses imp) with (list_to_set (lapse_entries (all_voters sts)) ∪ ∅ : gset (Z * Z * bytes)).
  rewrite union_empty_r_L, elem_of_list_to_set. unfold lapse_entries. rewrite list_elem_of_fmap. setoid_rewrite list_elem_of_filter.
  assert (∀ v, l_Voters imp !! (k, key) = Some v ↔ ((k, key), v) ∈ all_voters sts) as Hl.
  { intros v. change (l_Voters imp) with (insert_all (all_voters sts) ∅).
    rewrite insert_all_lookup, lookup_empty by (apply all_voters_NoDup; [done|apply Hv..|done]). split; [by intros [?|[_ [=]]]|by left]. }
  setoid_rewrite Hl. split.
  - intros ([[k' key'] v] & [= -> -> ->] & Ht & Hin). split; [done|]. by exists v.
  - intros (Ht & v & Hin & <-). by exists ((k, key), v).
Qed.

Lemma option_sums (F : Z * Z → AllocationOption → Z) :
  map_sum F (l_Options imp) = list_sum (λ st, list_sum (λ g, F (xs_Stream st, xo_Id g) (option_in g)) (xs_Options st)) sts.
Proof.
  change (l_Options imp) with (insert_all (all_options sts) ∅).
  rewrite insert_all_sum, map_sum_empty, Z.add_0_l; [|by apply all_options_NoDup; apply Hv|intros; apply lookup_empty].
  unfold all_options, option_entries. rewrite list_sum_bind. apply list_sum_ext. intros st _. by rewrite list_sum_fmap.
Qed.

Lemma voter_sums (F : Z * bytes → Voter → Z) :
  map_sum F (l_Voters imp) = list_sum (λ st, list_sum (λ e, F (xs_Stream st, addr_key e) (voter_in e)) (xs_Voters st)) sts.
Proof.
  change (l_Voters imp) with (insert_all (all_voters sts) ∅).
  rewrite insert_all_sum, map_sum_empty, Z.add_0_l; [|apply all_voters_NoDup; [done|apply Hv..|done]|intros; apply lookup_empty].
  unfold all_voters, voter_entries. rewrite list_sum_bind. apply list_sum_ext. intros st _. by rewrite list_sum_fmap.
Qed.

Lemma idx_imp st : st ∈ sts → idx_of imp (xs_Stream st) = default 0 (xs_RewardIndex st).
Proof. apply (head_of 0 (λ st, default 0 (xs_RewardIndex st))). Qed.
Lemma epoch_imp st : st ∈ sts → epoch_of imp (xs_Stream st) = xs_Epoch st.
Proof. apply head_of. Qed.
Lemma seq_imp st : st ∈ sts → seq_of imp (xs_Stream st) = xs_OptionSeq st.
Proof. apply head_of. Qed.

Lemma list_sum_if {A} (P : bool) (f : A → Z) l : list_sum (λ x, if P then f x else 0) l = if P then list_sum f l else 0.
Proof. destruct P; [done|]. induction l as [|x l IH]; [done|]. by rewrite list_sum_cons, IH. Qed.

Lemma weight_imp k : weight_sum imp k = summed_of imp k.
Proof.
  unfold weight_sum. rewrite option_sums. cbn [fst].
  rewrite (list_sum_ext _ (λ st, if xs_Stream st =? k then opt_sum (xs_Options st) else 0)); [by apply list_sum_pick, sts_NoDup|].
  intros st _. apply list_sum_if.
Qed.

Lemma live_imp st id : st ∈ sts → live imp (xs_Stream st) id = file_live st id.
Proof.
  intros Hst. unfold live. rewrite voter_sums. cbn [fst].
  rewrite (list_sum_ext _ (λ x, if xs_Stream x =? xs_Stream st then file_live x id else 0)).
  - rewrite list_sum_pick by apply sts_NoDup. by apply (head_of 0 (λ x, file_live x id)).
  - intros x Hx. destruct (Z.eqb_spec (xs_Stream x) (xs_Stream st)) as [E|]; cbn [andb]; [|apply (list_sum_if false (λ v, on (contributions (voter_in v)) id))].
    apply list_sum_ext. intros v _. by rewrite <-E, epoch_imp.
Qed.

Lemma option_imp st g : st ∈ sts → g ∈ xs_Options st → option_ok (live imp) imp (xs_Stream st) (xo_Id g) (option_in g).
Proof.
  intros Hst Hg. pose proof (sts_valid st Hst) as Hsv. pose proof (xsv_options _ Hsv) as Hov. rewrite Forall_forall in Hov.
  destruct (Hov g Hg) as [_ Hseq _ Hrem Hstr (a & Ea & Ha) (c & Ec & Hc') (i & Ei & Hi)]. split; cbn.
  - done.
  - done.
  - by rewrite seq_imp.
  - destruct (xo_Removed g) eqn:Er; [by apply Hrem|]. rewrite live_imp by done.
    destruct (proj1 (Forall_forall _ _) Hvotes st Hst) as [_ Hl]. rewrite Forall_forall in Hl. by apply Hl.
  - by rewrite Ea.
  - by rewrite Ei, idx_imp.
  - by rewrite Ec.
Qed.

Lemma due_imp k d : l_PruneDue imp !! k = Some d ↔ k ∈ dead_keys (all_options sts) ∧ d = wrap_i64 (nanos / 10 ^ 9 + OptionIdleGrace).
Proof.
  change (l_PruneDue imp) with (insert_all ((λ k, (k, wrap_i64 (nanos / 10 ^ 9 + OptionIdleGrace))) <$> dead_keys (all_options sts)) ∅).
  rewrite (file_map_lookup (λ k, k) (λ _, wrap_i64 (nanos / 10 ^ 9 + OptionIdleGrace))).
  - split; [by intros (x & ? & -> & ->)|intros [? ->]; by exists k].
  - rewrite list_fmap_id. unfold dead_keys. eapply sublist_NoDup; [apply all_options_NoDup; apply Hv|].
    apply fmap_sublist, sublist_filter.
Qed.

Lemma schedule_imp : schedule_ok imp.
Proof.
  split.
  - intros k id d. rewrite due_imp.
    change (l_PruneQueue imp) with (list_to_set ((λ k, (wrap_i64 (nanos / 10 ^ 9 + OptionIdleGrace), k.1, k.2)) <$> dead_keys (all_options sts)) ∪ ∅ : gset (Z * Z * Z)).
    rewrite union_empty_r_L, elem_of_list_to_set, list_elem_of_fmap. split.
    + intros [Hk ->]. by exists (k, id).
    + intros ([k' id'] & [= -> -> ->] & Hk). done.
  - intros k id [d [Hk _]%due_imp]. unfold dead_keys in Hk. apply list_elem_of_fmap in Hk as ([k' o] & E & [Hp Hin]%list_elem_of_filter).
    cbn in E. subst k'. exists o. split; [|done]. apply in_all_options in Hin as (st & g & ? & ? & [= -> ->] & ->).
    apply option_lookup. by exists st, g.
Qed.

Lemma options_imp : options_inv (live imp) imp.
Proof.
  split.
  - intros k id o (st & g & Hst & Hg & <- & <- & ->)%option_lookup. by apply option_imp.
  - intros k. by rewrite weight_imp.
  - cbn. unfold accrued_sum. by rewrite option_sums.
  - cbn. apply Hv.
  - intros k. rewrite weight_imp. unfold summed_of. change (l_SummedWeight imp) with (insert_all (head_entries (λ st, opt_sum (xs_Options st)) sts) ∅).
    destruct (insert_all _ ∅ !! k) as [x|] eqn:E; [|done]. apply head_lookup in E as (st & Hst & _ & ->). by apply sts_valid.
  - apply schedule_imp.
Qed.

Lemma named_seq st id : st ∈ sts → id ∈ option_ids st → id ≤ seq_of imp (xs_Stream st).
Proof.
  intros Hst Hin. rewrite seq_imp by done. unfold option_ids in Hin. apply elem_of_list_to_set, list_elem_of_fmap in Hin as (g & -> & Hg).
  pose proof (xsv_options _ (sts_valid st Hst)) as Hov. rewrite Forall_forall in Hov. by apply Hov.
Qed.

Lemma contributions_in (P : Z → Prop) e :
  (∀ p, p ∈ xv_Percentages e → P (wt_OptionId p)) → (∀ ow, ow ∈ xv_OptionWeights e → P (xw_OptionId ow)) →
  Forall (λ c, P (ct_option c)) (contributions (voter_in e)).
Proof.
  intros Hp Hw. unfold contributions. destruct (vt_OptionWeights (voter_in e)) as [|x l] eqn:E.
  - unfold split_amounts. apply Forall_forall. intros c (p & -> & Hin)%list_elem_of_fmap. by apply Hp.
  - rewrite <-E. unfold weight_contributions. apply Forall_forall. intros c (y & -> & Hin)%list_elem_of_fmap.
    apply list_elem_of_fmap in Hin as (ow & -> & Hin). by apply Hw.
Qed.

Lemma voter_imp st e : st ∈ sts → e ∈ xs_Voters st → voter_ok imp (xs_Stream st) (voter_in e).
Proof.
  intros Hst He. pose proof (xsv_voters _ (sts_valid st Hst)) as Hvv. rewrite Forall_forall in Hvv.
  destruct (Hvv e He) as [(x & Ex & Hx) Hexp _ Hps _ _ Hws]. destruct Hwords as [Hw _].
  destruct (proj1 (Forall_forall _ _) Hw st Hst) as (_ & _ & Hwv). destruct (proj1 (Forall_forall _ _) Hwv e He) as [Hep Hpp].
  destruct (proj1 (Forall_forall _ _) Hvotes st Hst) as [Hle _]. pose proof (proj1 (Forall_forall _ _) Hle e He) as Hle'. cbn in Hle'.
  assert (Forall (weight_valid (option_ids st)) (xv_OptionWeights e)) as Hwv'.
  { destruct (xv_OptionWeights e) eqn:E; [constructor|]. by apply Hws. }
  split; cbn.
  - by rewrite Ex.
  - rewrite Forall_forall in Hps, Hpp |- *. intros p Hp. split; [by apply Hpp|by apply Hps].
  - apply Forall_fmap. eapply Forall_impl; [exact Hwv'|]. cbn. intros ow [_ ?]. unfold opt_weight in *. lia.
  - by rewrite epoch_imp.
  - done.
  - apply (contributions_in (λ i, i ≤ seq_of imp (xs_Stream st))).
    + intros p Hp. rewrite Forall_forall in Hps. by apply named_seq, Hps.
    + intros ow How. rewrite Forall_forall in Hwv'. by apply named_seq, Hwv'.
Qed.

Lemma store_imp : store_inv imp.
Proof.
  destruct Hwords as [Hw Hp]. rewrite Forall_forall in Hw. split.
  - apply options_imp.
  - intros k. rewrite weight_imp. unfold total_of, summed_of.
    change (l_TotalWeight imp) with (insert_all (head_entries (λ st, default 0 (xs_TotalWeight st)) sts) ∅).
    change (l_SummedWeight imp) with (insert_all (head_entries (λ st, opt_sum (xs_Options st)) sts) ∅).
    assert (head_entries (λ st, default 0 (xs_TotalWeight st)) sts = head_entries (λ st, opt_sum (xs_Options st)) sts) as ->; [|done].
    apply list_fmap_ext. intros i st Hst%list_elem_of_lookup_2. by rewrite (xsv_sum _ (sts_valid st Hst)).
  - intros k key v (st & e & Hst & He & <- & _ & ->)%voter_lookup. by apply voter_imp.
  - intros k. apply (head_nonneg xs_OptionSeq). intros st Hst. by apply Hw.
  - intros k. apply (head_nonneg xs_Epoch). intros st Hst. by apply Hw.
  - intros k. apply (head_nonneg (upkeep_in nanos)). intros st Hst. pose proof (xsv_upkeep _ (sts_valid st Hst)).
    unfold upkeep_in. destruct (negb _ && _) eqn:E; lia.
  - intros e. change (l_VoterLapses imp) with (list_to_set (lapse_entries (all_voters sts)) ∪ ∅ : gset (Z * Z * bytes)).
    rewrite union_empty_r_L, elem_of_list_to_set. unfold lapse_entries.
    intros ([k v] & -> & [_ Hin]%list_elem_of_filter)%list_elem_of_fmap. apply in_all_voters in Hin as (st & x & Hst & Hx & -> & ->).
    cbn. by destruct (voter_imp st x Hst Hx).
  - cbn. intros p [= <-]. split; [apply Hv|done].
Qed.

Lemma leased_imp : leased imp.
Proof.
  intros k key v (st & e & Hst & He & <- & <- & ->)%voter_lookup Hne _. exists (xv_ExpiresAt e). split; [done|].
  change (l_VoterLapses imp) with (list_to_set (lapse_entries (all_voters sts)) ∪ ∅ : gset (Z * Z * bytes)).
  rewrite union_empty_r_L, elem_of_list_to_set. unfold lapse_entries. apply list_elem_of_fmap.
  exists ((xs_Stream st, addr_key e), voter_in e). split; [done|]. apply list_elem_of_filter. split; [done|].
  apply in_all_voters. by exists st, e.
Qed.

Lemma owed_imp : owed_units imp = indexPrecision * (accrued_total sts + default 0 (xg_Residue gs)) + file_unsettled sts.
Proof.
  unfold owed_units, accrued_sum, unsettled_sum. rewrite !option_sums. f_equal.
  apply list_sum_ext. intros st Hst. apply list_sum_ext. intros o _. cbn [fst]. by rewrite idx_imp.
Qed.
(** The store restores the file. *)
Lemma imported_restores : restores_file gs nanos imp.
Proof.
  split; try (intros k x; apply (head_lookup _ k x)); try reflexivity.
  - intros k id o. setoid_rewrite says_option_in. apply option_lookup.
  - intros k key v. setoid_rewrite says_vote_in. rewrite voter_lookup.
    split; intros (st & e & Hst & He & ? & Hkey & ->); exists st, e; (split_and!; try done); by apply (addr_key_of st e).
  - intros k x. rewrite (head_lookup (upkeep_in nanos) k x : l_LastUpkeep imp !! k = Some x ↔ _).
    assert (∀ st, upkeep_in nanos st = if xs_LastUpkeep st =? 0 then 0 else xs_LastUpkeep st `max` nanos) as Hu.
    { intros st. unfold upkeep_in. destruct (Z.eqb_spec (xs_LastUpkeep st) 0), (Z.ltb_spec (xs_LastUpkeep st) nanos); cbn; lia. }
    by setoid_rewrite Hu.
  - exact lapses_imp.
  - intros kk d. rewrite due_imp. destruct kk as [k id]. unfold dead_keys. rewrite list_elem_of_fmap.
    setoid_rewrite list_elem_of_filter. setoid_rewrite option_lookup. split.
    + intros [([[k' id'] o] & [= -> ->] & Hp & (st & g & ? & ? & [= -> ->] & ->)%in_all_options) ->]. split; [|done].
      exists (option_in g). split; [by exists st, g|done].
    + intros [(o & (st & g & ? & ? & <- & <- & ->) & Hp) ->]. split; [|done].
      exists ((xs_Stream st, xo_Id g), option_in g). split_and!; [done|done|]. apply in_all_options. by exists st, g.
Qed.
End imported.

(** ** A fresh chain *)
Definition registration_option (seed : Z) : AllocationOption :=
  mkOption 1 STREAM_ID_CARETAKER "Registration rewards" ALLOCATION_KIND_INTEGRATED "" HandlerRegistrationRewards "" 0 0 false seed.
Definition lp_option : AllocationOption :=
  mkOption 1 STREAM_ID_GROUNDWORKS "Volume-weighted LP rewards" ALLOCATION_KIND_INTEGRATED "" HandlerLPRewards "" 0 0 false 0.
Definition fund_option : AllocationOption :=
  mkOption 2 STREAM_ID_GROUNDWORKS "Emergency fund (community pool)" ALLOCATION_KIND_INTEGRATED "" HandlerCommunityPool "" 0 0 false 0.

Definition zeros : gmap Z Z := {[ STREAM_ID_CARETAKER := 0; STREAM_ID_GROUNDWORKS := 0 ]}.
Definition seeded_options (seed : Z) : gmap (Z * Z) AllocationOption :=
  {[ (STREAM_ID_CARETAKER, 1) := registration_option seed; (STREAM_ID_GROUNDWORKS, 1) := lp_option;
     (STREAM_ID_GROUNDWORKS, 2) := fund_option ]}.
Definition seeded_store gs : AllocStore :=
  let seed := default 0 (xg_RegistrationRewardSeed gs) in
  {| l_Params := Some (xg_Params gs); l_Options := seeded_options seed;
     l_OptionSeq := {[ STREAM_ID_CARETAKER := 1; STREAM_ID_GROUNDWORKS := 2 ]}; l_Voters := ∅;
     l_RewardIndex := zeros; l_TotalWeight := zeros; l_SummedWeight := zeros; l_LastUpkeep := zeros; l_Epoch := zeros;
     l_IntegratedOptions := {[ (STREAM_ID_CARETAKER, 1); (STREAM_ID_GROUNDWORKS, 1); (STREAM_ID_GROUNDWORKS, 2) ]};
     l_SummedAccrued := Some seed; l_Residue := Some (default 0 (xg_Residue gs)); l_PruneQueue := ∅; l_PruneDue := ∅;
     l_SlashedValidators := ∅; l_VoterLapses := ∅ |}.

(** What appending a seeded option does to a stream whose next id is free. *)
Definition seeded_option stream (description handler : string) s : AllocationOption :=
  mkOption (seq_of s stream + 1) stream description ALLOCATION_KIND_INTEGRATED "" handler "" 0 (idx_of s stream) false 0.
Definition appended stream (description handler : string) s : AllocStore :=
  set_l_IntegratedOptions (union {[(stream, seq_of s stream + 1)]})
    (set_l_Options (insert (stream, seq_of s stream + 1) (seeded_option stream description handler s))
      (set_l_OptionSeq (insert stream (seq_of s stream + 1)) s)).

Lemma IntSub_zero : IntSub 0 0 = Ok 0.
Proof. by rewrite IntSub_spec, fits_range. Qed.

Lemma setOption_new stream o w :
  op_AmountAllocated o = 0 → op_Accumulated o = 0 → prunable o = false → l_Options (a_store w) !! (stream, op_Id o) = None →
  l_PruneDue (a_store w) = ∅ →
  setOption stream o w = Ok ((), upd_alloc (set_l_Options (insert (stream, op_Id o) o)) w).
Proof.
  intros Ha Hc Hp Hn Hd. unfold setOption, refreshPruneSchedule. erewrite run_bind by reflexivity.
  rewrite Hn. cbn [from_option]. erewrite run_bind by (unfold lift; rewrite Ha, IntSub_zero; reflexivity). cbn [Z.eqb].
  erewrite run_bind by reflexivity. erewrite run_bind by (unfold lift; rewrite Hc, IntSub_zero; reflexivity). cbn [Z.eqb].
  do 3 (erewrite run_bind by reflexivity). cbn [a_store upd_alloc set_l_Options l_PruneDue]. by rewrite Hp, Hd, lookup_empty.
Qed.

Lemma appendOption_seed stream description handler w :
  0 ≤ seq_of (a_store w) stream < 2 ^ 64 - 1 → l_Options (a_store w) !! (stream, seq_of (a_store w) stream + 1) = None →
  l_PruneDue (a_store w) = ∅ →
  appendOption stream (seed_option description handler) w =
    Ok (seq_of (a_store w) stream + 1, upd_alloc (appended stream description handler) w).
Proof.
  intros Hs Hn Hd. unfold appendOption, nextOptionID.
  rewrite (run_bind _ _ w (seq_of (a_store w) stream + 1) (upd_alloc (set_l_OptionSeq (insert stream (seq_of (a_store w) stream + 1))) w)).
  2:{ erewrite run_bind by reflexivity. fold (seq_of (a_store w) stream). rewrite wrap_u64_id by lia. reflexivity. }
  erewrite run_bind by reflexivity. cbv zeta. erewrite run_bind by (apply setOption_new; [done..|exact Hn|exact Hd]).
  rewrite bool_decide_eq_true_2 by done. reflexivity.
Qed.

(** The streams at zero, before the options. *)
Definition zeroed_store gs : AllocStore :=
  {| l_Params := Some (xg_Params gs); l_Options := ∅; l_OptionSeq := zeros; l_Voters := ∅;
     l_RewardIndex := zeros; l_TotalWeight := zeros; l_SummedWeight := zeros; l_LastUpkeep := zeros; l_Epoch := zeros;
     l_IntegratedOptions := ∅; l_SummedAccrued := Some 0; l_Residue := Some (default 0 (xg_Residue gs)); l_PruneQueue := ∅;
     l_PruneDue := ∅; l_SlashedValidators := ∅; l_VoterLapses := ∅ |}.

(** The pre-funding of option #1, if there is any. *)
Lemma prefund_ok seed s x u w' :
  0 ≤ seed → l_Options s !! (STREAM_ID_CARETAKER, 1) = Some (registration_option 0) → l_SummedAccrued s = Some 0 →
  l_PruneDue s = ∅ →
  (if 0 <? seed then
     o ← get_alloc (λ s, l_Options s !! (STREAM_ID_CARETAKER, 1));
     match o with
     | None => fail ErrNotFound
     | Some opt => setOption STREAM_ID_CARETAKER (set_op_Accumulated seed opt)
     end
   else mret ()) (mkAllocWorld s x) = Ok (u, w') →
  w' = mkAllocWorld (set_l_Options (insert (STREAM_ID_CARETAKER, 1) (registration_option seed)) (set_l_SummedAccrued (λ _, Some seed) s)) x.
Proof.
  intros Hge Ho Hs Hd. destruct (Z.ltb_spec 0 seed) as [Hp|Hz]; intros Hr.
  - erewrite run_bind in Hr by reflexivity. cbn [a_store] in Hr. rewrite Ho in Hr.
    change (set_op_Accumulated seed (registration_option 0)) with (registration_option seed) in Hr.
    unfold setOption, refreshPruneSchedule in Hr. erewrite run_bind in Hr by reflexivity. cbn [a_store op_Id registration_option] in Hr.
    rewrite Ho in Hr. cbn [from_option op_AmountAllocated op_Accumulated registration_option] in Hr.
    erewrite run_bind in Hr by (unfold lift; rewrite IntSub_zero; reflexivity). cbn [Z.eqb] in Hr.
    erewrite run_bind in Hr by reflexivity. apply bind_ok in Hr as (d & w1 & [[-> _]%IntSub_ok ->]%lift_ok & Hr).
    destruct (Z.eqb_spec (seed - 0) 0); [lia|]. apply bind_ok in Hr as ([] & w1 & Hr1 & Hr).
    apply bind_ok in Hr1 as (a & w2 & [-> ->]%GetSummedAccrued_ok & Hr1). cbn [a_store] in Hr1. rewrite Hs in Hr1.
    apply bind_ok in Hr1 as (b & w2 & [[-> _]%IntAdd_ok ->]%lift_ok & ->%set_alloc_ok).
    apply bind_ok in Hr as ([] & w1 & ->%set_alloc_ok & Hr). erewrite run_bind in Hr by reflexivity.
    cbn [a_store upd_alloc set_l_Options set_l_SummedAccrued l_PruneDue op_Id registration_option] in Hr. rewrite Hd, lookup_empty in Hr.
    apply ret_ok in Hr as [= _ E]. rewrite E. cbn [default from_option id]. by replace (0 + (seed - 0)) with seed by lia.
  - apply ret_ok in Hr as [= _ E]. rewrite E. replace seed with 0 by lia. destruct s. cbn in *. subst.
    unfold set_l_Options, set_l_SummedAccrued.
    cbn. by rewrite insert_id.
Qed.

Lemma initGenesis_fresh_ok gs w u w' :
  a_store w = alloc_new_store → alloc_genesis_valid gs → xg_Streams gs = [] →
  initGenesis gs w = Ok (u, w') → w' = mkAllocWorld (seeded_store gs) (a_ext w).
Proof.
  intros Hnew [] Hne. unfold initGenesis. rewrite Hne. cbn [is_empty negb].
  set (seed := default 0 (xg_RegistrationRewardSeed gs)) in *. destruct w as [s x]. cbn in Hnew. subst s. cbn [a_ext]. intros Hr.
  unfold seed_streams, for_each, Streams, zero_stream in Hr.
  repeat match type of Hr with
    | (appendOption _ _ ≫= _) _ = _ => fail 1
    | (_ ≫= _) _ = _ => erewrite run_bind in Hr by reflexivity
    end.
  match type of Hr with _ ?v = _ => change v with (mkAllocWorld (zeroed_store gs) x) in Hr end.
  erewrite run_bind in Hr by (apply appendOption_seed; [by vm_compute|reflexivity..]).
  apply bind_ok in Hr as ([] & w1 & Hp & Hr). apply prefund_ok in Hp as ->; [|done|reflexivity..].
  erewrite run_bind in Hr by (apply appendOption_seed; [by vm_compute|reflexivity..]).
  erewrite run_bind in Hr by (apply appendOption_seed; [by vm_compute|reflexivity..]).
  by apply ret_ok in Hr as [= _ ->].
Qed.

Lemma seeded_lookup seed k o :
  seeded_options seed !! k = Some o →
  (k = (STREAM_ID_CARETAKER, 1) ∧ o = registration_option seed) ∨ (k = (STREAM_ID_GROUNDWORKS, 1) ∧ o = lp_option) ∨
  (k = (STREAM_ID_GROUNDWORKS, 2) ∧ o = fund_option).
Proof.
  unfold seeded_options. intros [[<- <-]|[_ [[<- <-]|[_ [<- <-]%lookup_singleton_Some]]%lookup_insert_Some]]%lookup_insert_Some;
    [by left|right; by left|right; by right].
Qed.

Lemma seeded_sum (F : Z * Z → AllocationOption → Z) seed :
  map_sum F (seeded_options seed) = F (STREAM_ID_CARETAKER, 1) (registration_option seed) + F (STREAM_ID_GROUNDWORKS, 1) lp_option +
    F (STREAM_ID_GROUNDWORKS, 2) fund_option.
Proof.
  unfold seeded_options. change {[(STREAM_ID_GROUNDWORKS, 2) := fund_option]} with (<[(STREAM_ID_GROUNDWORKS, 2) := fund_option]> (∅ : gmap (Z * Z) AllocationOption)).
  rewrite !map_sum_insert_fresh, map_sum_empty by reflexivity. lia.
Qed.

Lemma zeros_zero k : default 0 (zeros !! k) = 0.
Proof.
  unfold zeros. destruct (_ !! k) as [x|] eqn:E; [|done]. apply lookup_insert_Some in E as [[_ <-]|[_ [_ <-]%lookup_singleton_Some]]; done.
Qed.

Lemma store_seeded gs : alloc_genesis_valid gs → 0 ≤ ap_GroundworksLeaseSeconds (xg_Params gs) → store_inv (seeded_store gs).
Proof.
  intros Hv Hp. assert (∀ k, weight_sum (seeded_store gs) k = 0) as Hw.
  { intros k. unfold weight_sum. rewrite (seeded_sum _ (default 0 (xg_RegistrationRewardSeed gs))). cbn -[Z.eqb].
    by destruct (STREAM_ID_CARETAKER =? k), (STREAM_ID_GROUNDWORKS =? k). }
  assert (∀ a i, live (seeded_store gs) a i = 0) as Hl by (intros; apply map_sum_empty).
  split.
  - split.
    + intros a i o [([= -> ->] & ->)|[([= -> ->] & ->)|([= -> ->] & ->)]]%seeded_lookup; split; cbn; rewrite ?Hl; try done; apply Hv.
    + intros k. rewrite Hw. apply zeros_zero.
    + cbn. unfold accrued_sum. rewrite (seeded_sum _ (default 0 (xg_RegistrationRewardSeed gs))). cbn. lia.
    + apply Hv.
    + intros k. by rewrite Hw.
    + split; cbn; [by intros; rewrite lookup_empty, elem_of_empty|]. intros a i [? E]. by rewrite lookup_empty in E.
  - intros k. rewrite Hw. apply zeros_zero.
  - intros a i v E. cbn in E. by rewrite lookup_empty in E.
  - intros k. unfold seq_of. cbn. destruct (_ !! k) as [x|] eqn:E; [|done]. apply lookup_insert_Some in E as [[_ <-]|[_ [_ <-]%lookup_singleton_Some]]; done.
  - intros k. unfold epoch_of. cbn. by rewrite zeros_zero.
  - intros k. unfold upkeep_of. cbn. by rewrite zeros_zero.
  - intros e E. by apply elem_of_empty in E.
  - cbn. intros p [= <-]. split; [apply Hv|done].
Qed.

Lemma owed_seeded gs :
  owed_units (seeded_store gs) = indexPrecision * (default 0 (xg_RegistrationRewardSeed gs) + default 0 (xg_Residue gs)).
Proof.
  unfold owed_units, accrued_sum, unsettled_sum. rewrite !(seeded_sum _ (default 0 (xg_RegistrationRewardSeed gs))).
  unfold unsettled, residue_of. cbn. lia.
Qed.

Lemma alloc_assertGenesisFunded_ok w u w' :
  alloc_assertGenesisFunded w = Ok (u, w') →
  w' = w ∧ default 0 (l_SummedAccrued (a_store w)) + residue_of (a_store w) ≤ held w.
Proof.
  unfold alloc_assertGenesisFunded, alloc_CheckSolvency. intros Hr. apply bind_ok in Hr as (rep & w1 & Hr & [Hb ->]%refuse_if_ok).
  apply bind_ok in Hr as (a & w2 & [-> ->]%GetSummedAccrued_ok & Hr). apply bind_ok in Hr as (r & w2 & [-> ->]%GetResidue_ok & Hr).
  apply bind_ok in Hr as (d & w2 & [Hd ->]%lift_ok & Hr). rewrite host_bond_denom in Hd. injection Hd as <-.
  apply bind_ok in Hr as (hd & w2 & [-> ->]%get_ext_ok & Hr). apply bind_ok in Hr as (o & w2 & [[-> _]%IntAdd_ok ->]%lift_ok & Hr).
  fold (held w) in *. set (owed := _ + residue_of _) in *. change (GetBalance _ _ _) with (held w) in *.
  destruct (Z.ltb_spec (held w) owed).
  - apply bind_ok in Hr as (x & w2 & [[-> _]%IntSub_ok ->]%lift_ok & [= -> ->]%ret_ok). unfold solvency_broken in Hb. cbn in Hb. lia.
  - split; [|lia]. destruct (Z.ltb_spec owed (held w)).
    + by apply bind_ok in Hr as (x & w2 & [_ ->]%lift_ok & [= -> ->]%ret_ok).
    + by apply ret_ok in Hr as [= _ ->].
Qed.

(** The account also covers what was earned and not yet settled: [Validate] and [assertGenesisFunded] see only what is
    booked. *)
Definition unsettled_covered gs w : Prop :=
  indexPrecision * (accrued_total (xg_Streams gs) + default 0 (xg_Residue gs)) + file_unsettled (xg_Streams gs) ≤ indexPrecision * held w.

(** The store a genesis leaves. *)
Definition genesis_store (nanos : Z) gs : AllocStore := if is_empty (xg_Streams gs) then seeded_store gs else imported_store nanos gs.

Lemma AllocInitGenesis_ok gs w u w' :
  a_store w = alloc_new_store → AllocInitGenesis gs w = Ok (u, w') →
  alloc_genesis_valid gs ∧ addresses_ok (xg_Streams gs) ∧ w' = mkAllocWorld (genesis_store (nanos_of w) gs) (a_ext w) ∧
  default 0 (l_SummedAccrued (a_store w')) + residue_of (a_store w') ≤ held w.
Proof.
  intros Hnew Hr. unfold AllocInitGenesis in Hr. apply bind_ok in Hr as ([] & w1 & [Hv%AllocGenesisValidate_spec ->]%lift_ok & Hr).
  apply bind_ok in Hr as ([] & w1 & Hi & Hr). unfold genesis_store. split; [done|].
  assert (addresses_ok (xg_Streams gs) ∧
    w1 = mkAllocWorld (if is_empty (xg_Streams gs) then seeded_store gs else imported_store (nanos_of w) gs) (a_ext w)) as [Hao ->].
  { destruct (is_empty (xg_Streams gs)) eqn:E.
    - apply is_empty_spec in E. split; [rewrite E; constructor|by eapply initGenesis_fresh_ok].
    - apply is_empty_false in E. apply initGenesis_import_ok in Hi as (? & _ & ?); [by split|done..]. }
  apply alloc_assertGenesisFunded_ok in Hr as [-> Hle]. done.
Qed.

Lemma genesis_inv gs w :
  alloc_genesis_valid gs → addresses_ok (xg_Streams gs) → codec_lower → alloc_words_ok gs → votes_match gs →
  0 ≤ nanos_of w < 2 ^ 63 → unsettled_covered gs w →
  (xg_Streams gs = [] → default 0 (xg_RegistrationRewardSeed gs) + default 0 (xg_Residue gs) ≤ held w) →
  alloc_inv (mkAllocWorld (genesis_store (nanos_of w) gs) (a_ext w)).
Proof.
  intros Hv Hao Hc Hw Hm Ht Hu Hf. unfold genesis_store. destruct (is_empty (xg_Streams gs)) eqn:E.
  - apply is_empty_spec in E. specialize (Hf E). split; [by apply store_seeded; [|apply Hw]| |done|].
    + intros a k v Hk. cbn in Hk. by rewrite lookup_empty in Hk.
    + unfold funded. cbn [a_store]. rewrite owed_seeded. change (held (mkAllocWorld _ _)) with (held w). unfold indexPrecision. lia.
  - split; [by apply store_imp|by apply leased_imp|done|]. unfold funded. cbn [a_store].
    pose proof (owed_imp gs (nanos_of w) Hv) as Ho. unfold imp in Ho. by rewrite Ho.
Qed.

(** The derived set of integrated options is the options whose kind says so. *)
Lemma integrated_genesis nanos gs kk : alloc_genesis_valid gs →
  kk ∈ l_IntegratedOptions (genesis_store nanos gs) ↔
  ∃ o, l_Options (genesis_store nanos gs) !! kk = Some o ∧ op_Kind o = ALLOCATION_KIND_INTEGRATED ∧ op_Removed o = false.
Proof.
  intros Hv. unfold genesis_store. destruct (is_empty (xg_Streams gs)) eqn:E.
  - cbn [l_IntegratedOptions l_Options seeded_store]. rewrite !elem_of_union, !elem_of_singleton. split.
    + intros [[->| ->]| ->]; eexists; (split; [reflexivity|done]).
    + intros (o & [[-> _]|[[-> _]|[-> _]]]%seeded_lookup & _); [by left; left|by left; right|by right].
  - change (l_IntegratedOptions (imported_store nanos gs)) with (list_to_set (integrated_keys (all_options (xg_Streams gs))) ∪ ∅ : gset (Z * Z)).
    change (l_Options (imported_store nanos gs)) with (insert_all (all_options (xg_Streams gs)) ∅).
    rewrite union_empty_r_L, elem_of_list_to_set. unfold integrated_keys. rewrite list_elem_of_fmap.
    setoid_rewrite list_elem_of_filter.
    assert (∀ o, insert_all (all_options (xg_Streams gs)) ∅ !! kk = Some o ↔ (kk, o) ∈ all_options (xg_Streams gs)) as Hl.
    { intros o. rewrite insert_all_lookup, lookup_empty by (apply all_options_NoDup; apply Hv). split; [by intros [?|[_ [=]]]|by left]. }
    setoid_rewrite Hl. split; [intros ([k o] & -> & [? ?] & ?); by exists o|intros (o & ? & ? & ?); by exists (kk, o)].
Qed.

(** The clock starts at the genesis time at the earliest. *)
Lemma upkeep_genesis nanos gs k : alloc_genesis_valid gs →
  upkeep_of (genesis_store nanos gs) k = 0 ∨ nanos ≤ upkeep_of (genesis_store nanos gs) k.
Proof.
  intros Hv. unfold genesis_store. destruct (is_empty (xg_Streams gs)); [left; apply zeros_zero|].
  unfold upkeep_of. change (l_LastUpkeep (imported_store nanos gs)) with (insert_all (head_entries (upkeep_in nanos) (xg_Streams gs)) ∅).
  destruct (insert_all _ ∅ !! k) as [x|] eqn:E; [|by left]. apply (head_lookup gs Hv) in E as (st & _ & _ & ->). cbn. unfold upkeep_in.
  destruct (Z.eqb_spec (xs_LastUpkeep st) 0), (Z.ltb_spec (xs_LastUpkeep st) nanos); cbn; lia.
Qed.

(** C22: A genesis that x/allocation accepts starts a sound module that says what the file says: when [InitGenesis] succeeds
    on an empty store, the file is one [Validate] accepts and the state meets the module's invariant, so the theorems on
    reachable states hold of the chain.  A file with no streams is a fresh chain: the store is exactly the parameters, the
    residue and the three seeded options, the first with the seed, every figure at zero.  One with streams is restored as it is,
    every record and figure and no other ([restores_file]): parameters, residue, options, voters, id sequence, reward index,
    total weight, epoch and clock of each stream, with the running sums, the lapse queue and the prune schedule rebuilt.  The
    handler set is exactly the integrated options still on file, and no stream's clock starts before the genesis time, so the
    gap before a relaunch mints nothing.  What [Validate] leaves to the file's author is a hypothesis: the options carry what
    the votes put on them, and the account covers what is unsettled. *)
Theorem alloc_genesis_gives_invariant gs w w' :
  a_store w = alloc_new_store → 0 ≤ nanos_of w < 2 ^ 63 → alloc_words_ok gs → votes_match gs → codec_lower → unsettled_covered gs w →
  AllocInitGenesis gs w = Ok ((), w') →
  AllocGenesisValidate gs = Ok () ∧ alloc_inv w' ∧ a_ext w' = a_ext w ∧
  (xg_Streams gs = [] → a_store w' = seeded_store gs) ∧
  (xg_Streams gs ≠ [] → restores_file gs (nanos_of w) (a_store w')) ∧
  (∀ kk, kk ∈ l_IntegratedOptions (a_store w') ↔
     ∃ o, l_Options (a_store w') !! kk = Some o ∧ op_Kind o = ALLOCATION_KIND_INTEGRATED ∧ op_Removed o = false) ∧
  (∀ k, upkeep_of (a_store w') k = 0 ∨ nanos_of w ≤ upkeep_of (a_store w') k).
Proof.
  intros Hnew Ht Hw Hm Hc Hu Hr. apply AllocInitGenesis_ok in Hr as (Hv & Hao & -> & Hle); [|done]. cbn [a_store a_ext] in *.
  split; [by apply AllocGenesisValidate_spec|]. split.
  { apply genesis_inv; try done. intros E. unfold genesis_store in Hle. rewrite E in Hle. exact Hle. }
  split; [done|]. split; [intros E; unfold genesis_store; by rewrite E|].
  split; [|split; [intros kk; by apply integrated_genesis|intros k; by apply upkeep_genesis]].
  intros Hne. unfold genesis_store. rewrite (proj2 (is_empty_false _) Hne). by apply imported_restores.
Qed.
End import.
