(* ===== verification/AllocExport.v ===== *)
(** * x/allocation: what a chain exports

    [ExportGenesis] as a function of the state, and the round trip: the file it gives validates, and imports over the same
    balances as the same options, figures and votes. *)

From S2P Require Export AllocImport.

Section export.
Context `{HostLaws, !ShieldedKeeper, !StakingView, !AllocEnv}.
Implicit Types (w : AllocWorld) (s : AllocStore) (st id : Z) (v : Voter) (o : AllocationOption).

(** ** The export as a function *)
Definition on_file s st id : Prop := is_Some (l_Options s !! (st, id)).
Definition kept_weights s st (ws : list OptionWeight) : list OptionWeight := filter (λ x, is_Some (l_Options s !! (st, ow_OptionId x))) ws.
Definition weight_total (ws : list OptionWeight) : Z := list_sum ow_Weight ws.

(** What is left of a vote when the options it named and that are gone are dropped. *)
Definition carried s st v : option Voter :=
  let ps := existing s st (vt_Percentages v) in
  let ws := kept_weights s st (vt_OptionWeights v) in
  match vt_OptionWeights v with
  | [] => if is_empty ps then None else Some (mkVoter ps (vt_Weight v) (vt_Epoch v) [] (vt_ExpiresAt v))
  | _ => if is_empty ws then None else Some (mkVoter ps (weight_total ws) (vt_Epoch v) ws (vt_ExpiresAt v))
  end.

(** A vote as the handlers write it: an account's split (whose Groundworks one is leased) or the weights of a weighted voter. *)
Record vote_shape st v : Prop := {
  vs_lease : vt_ExpiresAt v ≠ 0 → st = STREAM_ID_GROUNDWORKS ∧ vt_OptionWeights v = [];
  vs_leased : st = STREAM_ID_GROUNDWORKS → vt_OptionWeights v = [] → vt_Percentages v ≠ [] → vt_ExpiresAt v ≠ 0;
  vs_total : list_sum wt_Percent (vt_Percentages v) ≤ 100;
  vs_weighted : vt_OptionWeights v ≠ [] → vt_Percentages v = [] ∧ NoDup (ow_OptionId <$> vt_OptionWeights v) ∧
    Forall (λ x, 0 < ow_Weight x) (vt_OptionWeights v) ∧ weight_total (vt_OptionWeights v) = vt_Weight v ∧ vt_Weight v < 2 ^ 256;
}.

(** A state as the handlers write it. *)
Record alloc_exportable w : Prop := {
  ae_params : is_Some (l_Params (a_store w));
  ae_options st id o : l_Options (a_store w) !! (st, id) = Some o → st ∈ Streams ∧ 0 < id ∧ ValidateDescription (op_Description o) = Ok () ∧
    (op_Removed o = true → op_Accumulated o = 0 ∧ st = STREAM_ID_GROUNDWORKS);
  ae_voters st key v : l_Voters (a_store w) !! (st, key) = Some v → st ∈ Streams ∧ vote_shape st v ∧
    ∃ a, BytesToString key = Ok a ∧ StringToBytes a = Ok key;
  ae_index st : 0 ≤ idx_of (a_store w) st;
}.

Definition addr_text (key : bytes) : string := match BytesToString key with Ok a => a | _ => ""%string end.
Definition stream_options s st : list (Z * Z * AllocationOption) := filter (λ e, e.1.1 = st) (iter_map (l_Options s)).
Definition stream_voters s st : list (Z * bytes * Voter) := filter (λ e, e.1.1 = st) (iter_map (l_Voters s)).
Definition exported_voter s st (e : Z * bytes * Voter) : option VoterEntry := voter_out (addr_text e.1.2) <$> carried s st e.2.
Definition exported_stream s st : StreamState :=
  mkStreamState st (Some (idx_of s st)) (Some (total_of s st)) (epoch_of s st) 0 (seq_of s st)
    ((λ e, option_out e.2) <$> stream_options s st) (omap (exported_voter s st) (stream_voters s st)).
Definition exported_genesis (p : AllocParams) s : AllocGenesis :=
  mkAllocGenesis p (exported_stream s <$> Streams) (Some 0) (Some (residue_of s)).

Lemma existing_weights_run st sum l w :
  0 ≤ sum → Forall (λ x, 0 < ow_Weight x) l → sum + weight_total l < 2 ^ 256 →
  existing_weights st sum l w = Ok ((kept_weights (a_store w) st l, sum + weight_total (kept_weights (a_store w) st l)), w).
Proof.
  unfold weight_total, kept_weights. revert sum. induction l as [|x l IH]; intros sum Hs Hp Hlt; cbn [existing_weights].
  - by rewrite filter_nil, list_sum_nil, Z.add_0_r.
  - apply Forall_cons in Hp as [Hx Hp]. rewrite list_sum_cons in Hlt.
    assert (0 ≤ list_sum ow_Weight l) by (eapply list_sum_Forall; [|exact Hp]; intros; cbn in *; lia).
    erewrite run_bind by reflexivity. rewrite filter_cons. destruct (l_Options (a_store w) !! (st, ow_OptionId x)) as [o|] eqn:E.
    + rewrite decide_True by by exists o. erewrite run_bind by (unfold lift; rewrite IntAdd_fits by lia; reflexivity).
      erewrite run_bind by (apply IH; [lia|done|lia]). rewrite list_sum_cons, Z.add_assoc. reflexivity.
    + rewrite decide_False by by intros [? ?]. apply IH; [done..|lia].
Qed.

Lemma filter_length_eq {A} (P : A → Prop) `{∀ x, Decision (P x)} (l : list A) : ¬ (length (filter P l) < length l)%nat → filter P l = l.
Proof.
  induction l as [|x l IH]; intros Hl; [done|]. rewrite filter_cons in *. destruct (decide (P x)); cbn in Hl.
  - f_equal. apply IH. lia.
  - pose proof (length_filter P l). lia.
Qed.

Lemma export_voter_run st key v w :
  vote_shape st v → (∃ a, BytesToString key = Ok a) →
  export_voter st key v w = Ok (exported_voter (a_store w) st ((st, key), v), w).
Proof.
  intros [_ _ _ Hw] [a Ea]. unfold export_voter, exported_voter, carried, addr_text. cbn [fst snd]. rewrite Ea.
  do 2 (erewrite run_bind by (unfold lift; rewrite ?Ea; reflexivity)). cbn [vt_OptionWeights]. fold (existing (a_store w) st (vt_Percentages v)).
  destruct (vt_OptionWeights v) as [|x l] eqn:E; [by destruct (is_empty _)|]. destruct (Hw ltac:(done)) as (_ & _ & Hp & Ht & Hlt).
  erewrite run_bind by (apply existing_weights_run; [done|exact Hp|lia]). cbn [Z.add].
  destruct (is_empty _) eqn:Ee; [done|]. destruct (length _ <? _)%nat eqn:El; [done|].
  apply Nat.ltb_ge in El. unfold kept_weights in *. rewrite filter_length_eq by lia. by rewrite Ht.
Qed.

Lemma export_voters_run st l w :
  Forall (λ e, e.1.1 = st ∧ vote_shape st e.2 ∧ ∃ a, BytesToString e.1.2 = Ok a) l →
  export_voters st l w = Ok (omap (exported_voter (a_store w) st) l, w).
Proof.
  induction 1 as [|[[k key] v] l (<- & Hs & Ha) _ IH]; cbn [export_voters omap list_omap]; [done|].
  cbn [fst snd] in *. erewrite run_bind by by apply export_voter_run. erewrite run_bind by exact IH. by destruct (exported_voter _ _ _).
Qed.

Lemma in_stream_voters s st k key v : ((k, key), v) ∈ stream_voters s st ↔ k = st ∧ l_Voters s !! (st, key) = Some v.
Proof.
  unfold stream_voters. rewrite list_elem_of_filter, elem_of_iter_map. cbn [fst]. split; [intros [-> ?]; by split|intros [-> ?]; by split].
Qed.
Lemma in_stream_options s st k id o : ((k, id), o) ∈ stream_options s st ↔ k = st ∧ l_Options s !! (st, id) = Some o.
Proof.
  unfold stream_options. rewrite list_elem_of_filter, elem_of_iter_map. cbn [fst]. split; [intros [-> ?]; by split|intros [-> ?]; by split].
Qed.

Lemma exportStream_run st w : alloc_exportable w → exportStream st w = Ok (exported_stream (a_store w) st, w).
Proof.
  intros Hx. unfold exportStream. do 6 (erewrite run_bind by reflexivity). erewrite run_bind; [reflexivity|].
  apply export_voters_run. apply Forall_forall. intros [[k key] v] [-> Hv]%in_stream_voters. cbn [fst snd].
  destruct (ae_voters _ Hx _ _ _ Hv) as (_ & Hs & a & Ha & _). split_and!; [done|done|by exists a].
Qed.

Lemma export_streams_run l w : alloc_exportable w → export_streams l w = Ok (exported_stream (a_store w) <$> l, w).
Proof.
  intros Hx. induction l as [|st l IH]; cbn [export_streams]; [done|].
  erewrite run_bind by by apply exportStream_run. by erewrite run_bind by exact IH.
Qed.

Lemma AllocExportGenesis_run p w :
  alloc_exportable w → l_Params (a_store w) = Some p → AllocExportGenesis w = Ok (exported_genesis p (a_store w), w).
Proof.
  intros Hx Hp. unfold AllocExportGenesis, alloc_GetParams. erewrite run_bind by reflexivity. rewrite Hp.
  erewrite run_bind by reflexivity. by erewrite run_bind by by apply export_streams_run.
Qed.

(** ** The exported file is valid *)
Lemma NoDup_omap {A B K K'} (f : A → option B) (k : A → K) (g : B → K') l :
  (∀ x y a b, x ∈ l → y ∈ l → f x = Some a → f y = Some b → g a = g b → k x = k y) → NoDup (k <$> l) → NoDup (g <$> omap f l).
Proof.
  induction l as [|x l IH]; intros Hfg; [constructor|]. cbn [fmap list_fmap omap list_omap]. rewrite NoDup_cons. intros [Hn Hnd].
  assert (NoDup (g <$> omap f l)) as Hrest by (apply IH; [intros y z a b Hy Hz; apply Hfg; by right|done]).
  destruct (f x) as [a|] eqn:Ex; [|done]. cbn [fmap list_fmap]. apply NoDup_cons. split; [|done]. intros Hin. apply Hn.
  apply list_elem_of_fmap in Hin as (b & E & (y & Hy & Ey)%list_elem_of_omap). apply list_elem_of_fmap. exists y.
  split; [|done]. apply (Hfg x y a b); [by left|by right|done..].
Qed.

Lemma keys_NoDup {K V} `{Countable K, KeyCmp (Z * K)} st (m : gmap (Z * K) V) :
  NoDup (filter (λ e : Z * K * V, e.1.1 = st) (iter_map m)).*1.
Proof. eapply sublist_NoDup; [apply (iter_map_NoDup m)|]. apply fmap_sublist, sublist_filter. Qed.

Lemma wt_sum_nonneg l : Forall (λ p, 0 ≤ wt_Percent p ≤ 100) l → 0 ≤ list_sum wt_Percent l.
Proof. apply list_sum_Forall. lia. Qed.

Lemma pct_sum_exact pct l :
  0 ≤ pct → Forall (λ p, 0 ≤ wt_Percent p ≤ 100) l → pct + list_sum wt_Percent l ≤ 100 → pct_sum pct l = pct + list_sum wt_Percent l.
Proof.
  intros Hp Hl. revert pct Hp. induction Hl as [|p l Hr Hl IH]; intros pct Hp Hlt; cbn [pct_sum foldl].
  - by rewrite list_sum_nil, Z.add_0_r.
  - rewrite list_sum_cons in *. pose proof (wt_sum_nonneg _ Hl). rewrite wrap_u64_id by lia.
    change (foldl _ ?a l) with (pct_sum a l). rewrite IH by lia. lia.
Qed.

Lemma filter_sum_le {A} (P : A → Prop) `{∀ x, Decision (P x)} (f : A → Z) l :
  Forall (λ x, 0 ≤ f x) l → 0 ≤ list_sum f (filter P l) ≤ list_sum f l.
Proof.
  induction 1 as [|x l Hx _ IH]; [done|]. rewrite filter_cons. destruct (decide (P x)); rewrite ?list_sum_cons in *; lia.
Qed.

Section of_state.
Context (w : AllocWorld) (p : AllocParams).
Hypothesis (Hi : alloc_inv w) (Hx : alloc_exportable w) (Hp : l_Params (a_store w) = Some p) (Hcase : codec_case).
Abbreviation s := (a_store w).

Lemma inv_option st id o : l_Options s !! (st, id) = Some o → option_ok (live s) s st id o.
Proof. apply (oi_option _ _ (si_options _ (ai_store _ Hi))). Qed.

Lemma in_option_ids st id : id ∈ option_ids (exported_stream s st) ↔ on_file s st id.
Proof.
  unfold option_ids, on_file. cbn [xs_Options exported_stream]. rewrite elem_of_list_to_set, <-list_fmap_compose, list_elem_of_fmap. split.
  - intros ([[k i] o] & -> & [-> Ho]%in_stream_options). cbn. destruct (inv_option _ _ _ Ho) as [-> _ _ _ _ _ _]. by exists o.
  - intros [o Ho]. exists ((st, id), o). split; [cbn; by destruct (inv_option _ _ _ Ho)|]. by apply in_stream_options.
Qed.

Lemma sum_stream_options st (F : Z * Z * AllocationOption → Z) :
  list_sum F (stream_options s st) = map_sum (λ k o, if k.1 =? st then F (k, o) else 0) (l_Options s).
Proof.
  unfold stream_options. rewrite list_sum_filter, <-iter_map_sum. apply list_sum_ext. intros [[k i] o] _. cbn.
  destruct (decide (k = st)), (Z.eqb_spec k st); congruence.
Qed.

Lemma exported_sum st : opt_sum (xs_Options (exported_stream s st)) = weight_sum s st.
Proof. unfold opt_sum. cbn [xs_Options exported_stream]. rewrite list_sum_fmap. apply (sum_stream_options st (λ e, op_AmountAllocated e.2)). Qed.

Lemma exported_option_valid st e : e ∈ stream_options s st → option_valid (exported_stream s st) (option_out e.2).
Proof.
  destruct e as [[k id] o]. intros [-> Ho]%in_stream_options. destruct (ae_options _ Hx _ _ _ Ho) as (_ & Hid & Hd & Hr).
  destruct (inv_option _ _ _ Ho) as [<- <- Hs Ham Hn Hl Ha]. split; cbn; try done.
  - lia.
  - intros E. destruct (Hr E) as [-> ->]. unfold opt_amount, opt_accrued. cbn. rewrite Ham, E. done.
  - by eexists.
  - by eexists.
  - by eexists.
Qed.

Lemma exported_voter_valid st key v e :
  l_Voters s !! (st, key) = Some v → exported_voter s st ((st, key), v) = Some e →
  voter_valid st (option_ids (exported_stream s st)) e.
Proof.
  intros Hv He. destruct (ae_voters _ Hx _ _ _ Hv) as (_ & [Hl Hl' Ht Hw] & _).
  destruct (si_voter _ (ai_store _ Hi) _ _ _ Hv) as [Hwt Hps _ _ Hexp _].
  unfold exported_voter, carried in He. cbn [fst snd] in He.
  set (ps := existing s st (vt_Percentages v)) in *. set (ws := kept_weights s st (vt_OptionWeights v)) in *.
  assert (Forall (λ q, wt_OptionId q ∈ option_ids (exported_stream s st)) ps) as Hps1.
  { apply Forall_forall. intros q [Hq _]%list_elem_of_filter. by apply in_option_ids. }
  assert (Forall (λ q, 0 ≤ wt_Percent q ≤ 100) ps) as Hps2 by by apply existing_percents.
  assert (list_sum wt_Percent ps ≤ 100) as Hps3.
  { etrans; [|exact Ht]. apply filter_sum_le. eapply Forall_impl; [exact Hps|]. cbn. lia. }
  destruct (vt_OptionWeights v) as [|x l] eqn:E.
  - destruct (is_empty ps) eqn:Ee; [done|]. apply is_empty_false in Ee. injection He as <-.
    assert (vt_Percentages v ≠ []) as Hne by (intros E'; apply Ee; unfold ps; by rewrite E').
    split; cbn; [by eexists|done|intros Hz; by split; [apply Hl|]| | |intros; by apply Hl'|done].
    + rewrite Forall_forall in Hps1, Hps2 |- *. intros q Hq. split; [by apply Hps1|by apply Hps2].
    + intros _. rewrite pct_sum_exact; [lia|done..].
  - destruct (Hw ltac:(done)) as (E' & Hnd & Hpos & Hsum & Hlt). destruct (is_empty ws) eqn:Ee; [done|]. apply is_empty_false in Ee.
    injection He as <-. assert (ps = []) as Eps by (unfold ps; by rewrite E'). rewrite Eps.
    assert (0 ≤ weight_total ws ≤ weight_total (x :: l)) as Hr.
    { apply filter_sum_le. eapply Forall_impl; [exact Hpos|]. cbn. lia. }
    assert (∀ y, y ∈ ws → y ∈ x :: l ∧ ow_OptionId y ∈ option_ids (exported_stream s st)) as Hin.
    { intros y [Hy ?]%list_elem_of_filter. split; [done|]. by apply in_option_ids. }
    assert (weights_sum (weight_out <$> ws) = weight_total ws) as Hws by (unfold weights_sum; by rewrite list_sum_fmap).
    split; cbn [xv_Percentages xv_Weight xv_OptionWeights xv_ExpiresAt voter_out vt_Percentages vt_Weight vt_OptionWeights vt_ExpiresAt];
      [exists (weight_total ws); by split; [|apply Hr]|done| |constructor|done|intros _ Hz; by apply fmap_nil_inv in Hz|].
    + intros Hz. by destruct (Hl Hz).
    + intros _. cbn [default from_option id]. split_and!; [done| | |done|lia].
      * rewrite <-list_fmap_compose. eapply sublist_NoDup; [exact Hnd|]. apply fmap_sublist, sublist_filter.
      * apply Forall_fmap, Forall_forall. intros y Hy. destruct (Hin y Hy) as [? ?]. split; [done|].
        rewrite Forall_forall in Hpos. by apply Hpos.
Qed.

Lemma alloc_exported_names st : NoDup (voter_name <$> xs_Voters (exported_stream s st)).
Proof.
  cbn [xs_Voters exported_stream]. apply (NoDup_omap _ fst); [|apply (keys_NoDup st)].
  intros [[k1 a1] v1] [[k2 a2] v2] e1 e2 [-> Hv1]%in_stream_voters [-> Hv2]%in_stream_voters. unfold exported_voter, voter_name. cbn [fst snd].
  intros (v1' & _ & ->)%fmap_Some (v2' & _ & ->)%fmap_Some. cbn [xv_Address voter_out]. intros E.
  destruct (ae_voters _ Hx _ _ _ Hv1) as (_ & _ & b1 & Eb1 & Es1), (ae_voters _ Hx _ _ _ Hv2) as (_ & _ & b2 & Eb2 & Es2).
  unfold addr_text in E. rewrite Eb1, Eb2 in E. by rewrite (Hcase _ _ _ _ Es1 Es2 E).
Qed.

Lemma exported_stream_valid st : st ∈ Streams → stream_valid (exported_stream s st).
Proof.
  intros Hst. assert (0 ≤ weight_sum s st) as Hge.
  { apply map_sum_nonneg. intros [k id] o Ho. destruct (inv_option _ _ _ Ho). cbn. by destruct (k =? st). }
  split.
  - apply refuse_ok. apply negb_false_iff. by apply bool_decide_eq_true.
  - by exists (idx_of s st); split; [|apply Hx].
  - exists (total_of s st). split; [done|]. by rewrite (si_total _ (ai_store _ Hi)).
  - done.
  - cbn [xs_Options exported_stream]. rewrite <-list_fmap_compose. apply (NoDup_by fst); [|apply keys_NoDup].
    intros [[k1 i1] o1] [[k2 i2] o2] [-> Ho1]%in_stream_options [-> Ho2]%in_stream_options. cbn.
    destruct (inv_option _ _ _ Ho1) as [-> _ _ _ _ _ _], (inv_option _ _ _ Ho2) as [-> _ _ _ _ _ _]. by intros ->.
  - cbn [xs_Options exported_stream]. apply Forall_fmap, Forall_forall. intros e He. by apply exported_option_valid.
  - rewrite exported_sum. cbn. by rewrite (si_total _ (ai_store _ Hi)).
  - rewrite exported_sum. apply (oi_fits _ _ (si_options _ (ai_store _ Hi))).
  - apply alloc_exported_names.
  - cbn [xs_Voters exported_stream]. apply Forall_forall. intros e ([[k key] v] & [-> Hv]%in_stream_voters & He)%list_elem_of_omap.
    by eapply exported_voter_valid.
Qed.

Lemma alloc_exported_valid : alloc_genesis_valid (exported_genesis p s).
Proof.
  split; cbn [xg_RegistrationRewardSeed xg_Residue xg_Streams xg_Params exported_genesis]; try done.
  - apply (oi_residue _ _ (si_options _ (ai_store _ Hi))).
  - rewrite <-list_fmap_compose. change (xs_Stream ∘ exported_stream s) with (λ x : Z, x). rewrite list_fmap_id. by repeat constructor; set_solver.
  - apply Forall_fmap, Forall_forall. intros st Hst. by apply exported_stream_valid.
  - by apply (si_params _ (ai_store _ Hi)).
Qed.

(** ** What it imports as *)
Lemma list_sum_filter_same {A} (P : A → Prop) `{∀ x, Decision (P x)} (f : A → Z) l :
  (∀ x, x ∈ l → ¬ P x → f x = 0) → list_sum f (filter P l) = list_sum f l.
Proof. intros Hf. rewrite list_sum_filter. apply list_sum_ext. intros x Hin. destruct (decide (P x)); [done|]. by rewrite Hf. Qed.

Lemma list_sum_omap {A B} (f : A → option B) (g : B → Z) l : list_sum g (omap f l) = list_sum (λ x, from_option g 0 (f x)) l.
Proof. induction l as [|x l IH]; [done|]. cbn [omap list_omap]. rewrite list_sum_cons. by destruct (f x); rewrite ?list_sum_cons, IH. Qed.

Lemma voter_in_out a v : voter_in (voter_out a v) = v.
Proof.
  destruct v as [ps wt ep ws ex]. unfold voter_in, voter_out. cbn. f_equal. rewrite <-list_fmap_compose.
  rewrite <-(list_fmap_id ws) at 2. apply list_fmap_ext. by intros ? [] _.
Qed.
Lemma option_in_out o : option_in (option_out o) = o.
Proof. by destruct o. Qed.

Lemma on_existing st ps weight id : on_file s st id → on (split_amounts (existing s st ps) weight) id = on (split_amounts ps weight) id.
Proof.
  intros Hf. unfold on, split_amounts, existing. rewrite !list_sum_fmap. apply list_sum_filter_same. cbn.
  intros q _ Hq. destruct (Z.eqb_spec (wt_OptionId q) id) as [E|]; [destruct Hq; by rewrite E|done].
Qed.
Lemma on_kept st ws id : on_file s st id → on (weight_contributions (kept_weights s st ws)) id = on (weight_contributions ws) id.
Proof.
  intros Hf. unfold on, weight_contributions, kept_weights. rewrite !list_sum_fmap. apply list_sum_filter_same. cbn.
  intros q _ Hq. destruct (Z.eqb_spec (ow_OptionId q) id) as [E|]; [destruct Hq; by rewrite E|done].
Qed.

(** Dropping what names no option changes what the vote puts on none that is. *)
Lemma carried_on st v id : on_file s st id →
  from_option (λ v', if vt_Epoch v' =? epoch_of s st then on (contributions v') id else 0) 0 (carried s st v) =
  if vt_Epoch v =? epoch_of s st then on (contributions v) id else 0.
Proof.
  intros Hf. unfold carried. pose proof (on_existing st (vt_Percentages v) (vt_Weight v) id Hf) as Hpo.
  pose proof (on_kept st (vt_OptionWeights v) id Hf) as Hwo. unfold contributions at 2. destruct (vt_OptionWeights v) as [|x l].
  - destruct (is_empty _) eqn:E; cbn [from_option]; [|cbn [vt_Epoch contributions vt_OptionWeights vt_Percentages vt_Weight]; by rewrite Hpo].
    apply is_empty_spec in E. rewrite E in Hpo. rewrite <-Hpo. by destruct (_ =? _).
  - destruct (is_empty (kept_weights s st (x :: l))) eqn:E; cbn [from_option].
    + apply is_empty_spec in E. rewrite E in Hwo. rewrite <-Hwo. by destruct (_ =? _).
    + apply is_empty_false in E. cbn [vt_Epoch]. rewrite <-Hwo. unfold contributions. cbn [vt_OptionWeights].
      by destruct (kept_weights s st (x :: l)).
Qed.

Lemma exported_live st id : on_file s st id → file_live (exported_stream s st) id = live s st id.
Proof.
  intros Hf. unfold file_live, live. cbn [xs_Voters xs_Epoch exported_stream]. rewrite list_sum_omap. unfold stream_voters.
  rewrite list_sum_filter, <-iter_map_sum. apply list_sum_ext. intros [[k key] v] _. cbn [fst snd].
  destruct (decide (k = st)) as [->|Hne]; [rewrite Z.eqb_refl|rewrite (proj2 (Z.eqb_neq _ _) Hne)]; cbn [andb]; [|done].
  rewrite <-(carried_on st v id Hf). unfold exported_voter. cbn [fst snd]. destruct (carried s st v); [|done]. cbn [fmap option_fmap option_map from_option].
  by rewrite voter_in_out.
Qed.

Lemma sum_streams (F : Z * Z * AllocationOption → Z) :
  list_sum (λ st, list_sum F (stream_options s st)) Streams = map_sum (λ k o, F (k, o)) (l_Options s).
Proof.
  unfold Streams. rewrite !list_sum_cons, list_sum_nil, !sum_stream_options, Z.add_0_r, <-map_sum_add. apply map_sum_ext.
  intros [k id] o Ho. destruct (ae_options _ Hx _ _ _ Ho) as [Hk _]. cbn [fst].
  unfold Streams in Hk. rewrite !elem_of_cons, elem_of_nil in Hk. destruct Hk as [->|[->|[]]]; cbn [Z.eqb]; [apply Z.add_0_r|apply Z.add_0_l].
Qed.

Abbreviation gs := (exported_genesis p s).

Lemma exported_accrued : accrued_total (xg_Streams gs) = accrued_sum s.
Proof.
  unfold accrued_total. cbn [xg_Streams exported_genesis]. rewrite list_sum_fmap. unfold accrued_sum.
  etrans; [|exact (sum_streams (λ e, op_Accumulated e.2))]. apply list_sum_ext. intros st _. cbn [xs_Options exported_stream]. by rewrite list_sum_fmap.
Qed.

Lemma exported_unsettled : file_unsettled (xg_Streams gs) = unsettled_sum s.
Proof.
  unfold file_unsettled. cbn [xg_Streams exported_genesis]. rewrite list_sum_fmap. unfold unsettled_sum.
  etrans; [|exact (sum_streams (λ e, unsettled (idx_of s e.1.1) e.2))]. apply list_sum_ext. intros st _. cbn [xs_Options xs_RewardIndex exported_stream].
  rewrite list_sum_fmap. apply list_sum_ext. intros [[k id] o] [-> _]%in_stream_options. cbn. by rewrite option_in_out.
Qed.

Lemma exported_addresses : addresses_ok (xg_Streams gs).
Proof.
  apply Forall_fmap, Forall_forall. intros st _. apply Forall_forall. cbn [compose xs_Voters exported_stream].
  intros e ([[k key] v] & [-> Hv]%in_stream_voters & (v' & _ & ->)%fmap_Some)%list_elem_of_omap. unfold addr_ok. cbn [xv_Address voter_out fst snd].
  destruct (ae_voters _ Hx _ _ _ Hv) as (_ & _ & a & Ea & Es). exists key. unfold addr_text. by rewrite Ea.
Qed.

Lemma exported_words : alloc_words_ok gs.
Proof.
  split; [|by apply (si_params _ (ai_store _ Hi))]. apply Forall_fmap, Forall_forall. intros st _. cbn [compose xs_Epoch xs_OptionSeq xs_Voters exported_stream].
  split; [apply (si_epoch _ (ai_store _ Hi))|]. split; [apply (si_seq _ (ai_store _ Hi))|]. apply Forall_forall.
  intros e ([[k key] v] & [-> Hv]%in_stream_voters & (v' & Hc & ->)%fmap_Some)%list_elem_of_omap. cbn [xv_Epoch xv_Percentages voter_out].
  destruct (si_voter _ (ai_store _ Hi) _ _ _ Hv) as [_ Hps _ He _ _]. pose proof (existing_percents s st _ Hps) as Hps'.
  unfold carried in Hc. cbn [fst snd] in Hc.
  destruct (vt_OptionWeights v), (is_empty _); try done; injection Hc as <-; cbn [vt_Epoch vt_Percentages]; (split; [lia|]);
    (eapply Forall_impl; [exact Hps'|]); cbn; lia.
Qed.

Lemma exported_match : votes_match gs.
Proof.
  apply Forall_fmap, Forall_forall. intros st _. cbn [compose]. split.
  - cbn [xs_Epoch xs_Voters exported_stream]. apply Forall_forall.
    intros e ([[k key] v] & [-> Hv]%in_stream_voters & (v' & Hc & ->)%fmap_Some)%list_elem_of_omap. cbn [xv_Epoch voter_out].
    destruct (si_voter _ (ai_store _ Hi) _ _ _ Hv) as [_ _ _ He _ _]. unfold carried in Hc. cbn [fst snd] in Hc.
    destruct (vt_OptionWeights v), (is_empty _); try done; injection Hc as <-; cbn [vt_Epoch]; lia.
  - cbn [xs_Options exported_stream]. apply Forall_fmap, Forall_forall. intros [[k id] o] [-> Ho]%in_stream_options. cbn [compose snd].
    destruct (inv_option _ _ _ Ho) as [E _ _ Ham _ _ _]. unfold opt_amount. cbn [xo_Removed xo_AmountAllocated xo_Id option_out default from_option].
    intros Hr. rewrite Hr in Ham. rewrite E, exported_live by by exists o. exact Ham.
Qed.
End of_state.

(** What a relaunched module has of the one that was exported: everything but the clock, which starts with the first
    block, the removal schedule, which starts its grace again, and the votes that name no option on file. *)
Record carries_on s s' : Prop := {
  co_params : l_Params s' = l_Params s;
  co_options : l_Options s' = l_Options s;
  co_voters st key : l_Voters s' !! (st, key) = l_Voters s !! (st, key) ≫= carried s st;
  co_figures st : st ∈ Streams → idx_of s' st = idx_of s st ∧ total_of s' st = total_of s st ∧ epoch_of s' st = epoch_of s st ∧
    seq_of s' st = seq_of s st ∧ upkeep_of s' st = 0;
  co_accrued : default 0 (l_SummedAccrued s') = accrued_sum s;
  co_residue : residue_of s' = residue_of s;
  co_lapses t st key : (t, st, key) ∈ l_VoterLapses s' ↔ ∃ v, l_Voters s' !! (st, key) = Some v ∧ vt_ExpiresAt v = t ∧ t ≠ 0;
}.

Lemma exported_carries_on w p nanos :
  alloc_inv w → alloc_exportable w → l_Params (a_store w) = Some p → codec_lower → codec_case →
  carries_on (a_store w) (imported_store nanos (exported_genesis p (a_store w))).
Proof.
  intros Hi Hx Hp Hlow Hcase. set (s := a_store w). set (gs := exported_genesis p s).
  pose proof (alloc_exported_valid w p Hi Hx Hp Hcase) as Hv. pose proof (exported_addresses w p Hx) as Hao. fold s gs in Hv, Hao.
  assert (∀ st, st ∈ Streams → exported_stream s st ∈ sts gs) as Hin by (intros; by apply list_elem_of_fmap_2).
  split.
  - done.
  - apply map_eq. intros [st id]. apply option_eq. intros o. rewrite (option_lookup gs nanos Hv). split.
    + intros (x & g & (k & -> & _)%list_elem_of_fmap & Hg & <- & <- & ->). apply list_elem_of_fmap in Hg as ([[k' i] o'] & -> & [-> Ho]%in_stream_options).
      cbn. rewrite option_in_out. by destruct (inv_option w Hi _ _ _ Ho) as [-> _ _ _ _ _ _].
    + intros Ho. destruct (ae_options _ Hx _ _ _ Ho) as [Hst _]. exists (exported_stream s st), (option_out o). rewrite option_in_out.
      split_and!; [by apply Hin| |done|by destruct (inv_option w Hi _ _ _ Ho)|done].
      apply list_elem_of_fmap. exists ((st, id), o). split; [done|]. by apply in_stream_options.
  - intros st key. apply option_eq. intros v. rewrite (voter_lookup gs nanos Hv Hlow Hao), bind_Some. split.
    + intros (x & g & (k & -> & _)%list_elem_of_fmap & Hg & <- & <- & ->). cbn [xs_Voters exported_stream xs_Stream] in *.
      apply list_elem_of_omap in Hg as ([[k' key] v] & [-> Hvo]%in_stream_voters & (v' & Hc & ->)%fmap_Some). cbn [fst snd] in *.
      destruct (ae_voters _ Hx _ _ _ Hvo) as (_ & _ & a & Ea & Es). exists v. rewrite voter_in_out. split; [|done].
      replace (addr_key _) with key; [done|]. unfold addr_key. cbn [xv_Address voter_out]. unfold addr_text. by rewrite Ea, Es.
    + intros (v0 & Hvo & Hc). destruct (ae_voters _ Hx _ _ _ Hvo) as (Hst & _ & a & Ea & Es).
      exists (exported_stream s st), (voter_out (addr_text key) v). rewrite voter_in_out. split_and!; [by apply Hin| |done| |done].
      * cbn [xs_Voters exported_stream]. apply list_elem_of_omap. exists ((st, key), v0). split; [by apply in_stream_voters|].
        unfold exported_voter. cbn [fst snd]. by rewrite Hc.
      * unfold addr_key. cbn [xv_Address voter_out]. unfold addr_text. by rewrite Ea, Es.
  - intros st Hst. specialize (Hin st Hst). change st with (xs_Stream (exported_stream s st)) at 1 3 5 7 9.
    split_and!; [exact (head_of gs Hv 0 (λ x, default 0 (xs_RewardIndex x)) _ Hin)|exact (head_of gs Hv 0 (λ x, default 0 (xs_TotalWeight x)) _ Hin)|
      exact (head_of gs Hv 0 xs_Epoch _ Hin)|exact (head_of gs Hv 0 xs_OptionSeq _ Hin)|exact (head_of gs Hv 0 (upkeep_in nanos) _ Hin)].
  - apply (exported_accrued w p Hx).
  - done.
  - intros t st key.
    change (l_VoterLapses (imported_store nanos gs)) with (list_to_set (lapse_entries (all_voters (xg_Streams gs))) ∪ ∅ : gset (Z * Z * bytes)).
    change (l_Voters (imported_store nanos gs)) with (insert_all (all_voters (xg_Streams gs)) ∅).
    rewrite union_empty_r_L, elem_of_list_to_set. unfold lapse_entries. rewrite list_elem_of_fmap.
    assert (∀ v, insert_all (all_voters (xg_Streams gs)) ∅ !! (st, key) = Some v ↔ ((st, key), v) ∈ all_voters (xg_Streams gs)) as Hl.
    { intros v. rewrite insert_all_lookup, lookup_empty by (apply all_voters_NoDup; [done|apply Hv..|done]).
      split; [by intros [?|[_ [=]]]|by left]. }
    split.
    + intros ([[k key'] v] & [= -> -> ->] & [Hne Hm]%list_elem_of_filter). exists v. by rewrite Hl.
    + intros (v & Hm%Hl & <- & Hne). exists ((st, key), v). split; [done|]. by apply list_elem_of_filter.
Qed.

(** C23: A chain exports its x/allocation, and what it exports starts the next one where this one stopped: from a state that
    meets the invariant ([alloc_exportable]: its records are as the handlers write them), [ExportGenesis] returns a file without
    writing, [Validate] accepts it, and [InitGenesis] into an empty store, over an account that holds as much, succeeds.  The
    state it leaves has the same options with the same balances, the same index, weight, epoch and id sequence for each stream,
    the same residue, and every vote less the options that are gone, with its lease queued again; each live option still carries
    exactly what the votes put on it, as the invariant holds of it.  No stream's clock is carried, so the gap mints nothing. *)
Theorem alloc_export_imports w w0 :
  alloc_inv w → alloc_exportable w → codec_lower → codec_case →
  a_store w0 = alloc_new_store → 0 ≤ nanos_of w0 < 2 ^ 63 → held w ≤ held w0 →
  ∃ gs w1, AllocExportGenesis w = Ok (gs, w) ∧ AllocGenesisValidate gs = Ok () ∧ AllocInitGenesis gs w0 = Ok ((), w1) ∧
    a_ext w1 = a_ext w0 ∧ carries_on (a_store w) (a_store w1) ∧ alloc_inv w1.
Proof.
  intros Hi Hx Hlow Hcase Hnew Ht Hh. destruct (ae_params _ Hx) as [p Hp].
  pose proof (alloc_exported_valid w p Hi Hx Hp Hcase) as Hv. pose proof (exported_addresses w p Hx) as Hao.
  set (gs := exported_genesis p (a_store w)) in *. destruct (covered w Hi) as (Ha & Hr & Hle & Hlt).
  assert (alloc_inv (mkAllocWorld (imported_store (nanos_of w0) gs) (a_ext w0))) as Hi1.
  { change (imported_store (nanos_of w0) gs) with (genesis_store (nanos_of w0) gs).
    apply genesis_inv; try done; [by apply exported_words|by apply exported_match|].
    unfold unsettled_covered. unfold gs. rewrite exported_accrued, exported_unsettled by done. cbn [xg_Residue exported_genesis default from_option id].
    pose proof (ai_funded _ Hi) as Hf. unfold funded, owed_units in Hf. unfold indexPrecision in *. lia. }
  exists gs, (mkAllocWorld (imported_store (nanos_of w0) gs) (a_ext w0)).
  split; [by apply AllocExportGenesis_run|]. split; [by apply AllocGenesisValidate_spec|]. split; [|split; [done|split; [by apply exported_carries_on|done]]].
  unfold AllocInitGenesis. erewrite run_bind by (unfold lift; rewrite (proj2 (AllocGenesisValidate_spec gs) Hv); reflexivity).
  erewrite run_bind.
  2:{ apply (initGenesis_import_ok gs w0 ()); [done..|]. split; [done|]. split; [|reflexivity]. unfold gs. rewrite exported_accrued by done. lia. }
  unfold alloc_assertGenesisFunded. destruct (alloc_CheckSolvency_ok _ Hi1) as (rep & Hc & Hb & _).
  erewrite run_bind by exact Hc. by rewrite Hb.
Qed.
End export.
