(* ===== verification/Demo.v ===== *)
(** * Concrete worlds

    The states the witnesses run on, each reached by running the handlers on the instances of
    [HostModel.v] from one of two starting states: an empty module with funded accounts, and one whose
    genesis configured the auction. *)

From S2P Require Export HostModel DexChain.

Abbreviation World := (@World demo_host demo_shielded).

Definition run {A} (m : M A) (w : World) : World := match m w with Ok (_, w') => w' | _ => w end.

Lemma run_ok {A} (m : M A) (w : World) : is_ok (m w) = true → ∃ a, m w = Ok (a, run m w).
Proof. unfold run. destruct (m w) as [[a w']| |]; [|done..]. by exists a. Qed.

(** What a run returns. *)
Definition value {A} (m : M A) (w : World) : option A := match m w with Ok (a, _) => Some a | _ => None end.

Lemma run_value {A} (m : M A) (w : World) (a : A) : value m w = Some a → m w = Ok (a, run m w).
Proof. unfold run, value. destruct (m w) as [[b w']| |]; [|done..]. by intros [= ->]. Qed.

Lemma run_unit (m : M ()) (w : World) : is_ok (m w) = true → m w = Ok ((), run m w).
Proof. intros Hr. by destruct (run_ok m w Hr) as [[] ?]. Qed.

Definition at_time (seconds : Z) (w : World) : World :=
  {| w_nanos := seconds * 10 ^ 9; w_bank := w_bank w; w_shielded := w_shielded w;
     w_earth := w_earth w; w_dex := w_dex w |}.

Lemma at_time_inv t w : dex_inv w → dex_inv (at_time t w).
Proof. intros []. by split. Qed.

(** ** The starting states *)
Definition demo_params : Params :=
  {| SwapFee := 5 * 10 ^ 17; LpUnbondingSeconds := 604800; VolumeDepthCapPerDay := 2 |}.

Definition empty_store : DexStore :=
  {| k_Params := Some demo_params; k_Pool := ∅; k_PoolSeq := 0; k_PoolByToken := ∅; k_LpRewardIndex := None;
     k_LpTotalVolume := None; k_PoolLpIndex := ∅; k_PendingLpRewards := None; k_VolumeIndex := None;
     k_VolumeIndexDay := None; k_PoolStaleQueue := ∅; k_PoolStaleDue := ∅; k_LpUnbondings := ∅;
     k_LpUnbondingsByAddr := ∅; k_LiquidityAuction := None; k_AuctionBids := ∅; k_PolBurns := ∅;
     k_TotalPoolErth := None; k_DirtyPools := ∅; k_SolvencyCursor := None; k_PriceCumulative := ∅;
     k_PriceObservedAt := ∅ |}.

Definition empty_earth : EarthStore := {| e_LastMintTime := None; e_Burned := ∅ |}.

(** Accounts [alice] and [bob], the shielded pool's notes, and x/allocation's accrued emission. *)
Definition funds : book :=
  list_to_map [(codes "alice", list_to_map [("uerth", 10 ^ 12); ("uusdc", 10 ^ 12)]);
               (codes "bob", list_to_map [("uerth", 10 ^ 12); ("uusdc", 10 ^ 12)]);
               (module_account "shielded", list_to_map [("uerth", 10 ^ 12); ("uusdc", 10 ^ 12)]);
               (module_account "allocation", list_to_map [("uerth", 10 ^ 12)])].

Definition start_time : Z := 1700000000.

Definition w0 : World :=
  {| w_nanos := start_time * 10 ^ 9; w_bank := funds; w_shielded := 0; w_earth := empty_earth; w_dex := empty_store |}.

Definition demo_auction : LiquidityAuction :=
  {| la_Status := AUCTION_STATUS_PENDING; la_BidDenom := ""; la_EndTime := 0;
     la_ErthForBidders := mkCoin "uerth" (10 ^ 10); la_ErthForPool := mkCoin "uerth" (10 ^ 10);
     la_TotalRaised := 0; la_PoolId := 0; la_Claimed := 0 |}.

Definition a0 : World :=
  {| w_nanos := start_time * 10 ^ 9;
     w_bank := <[module_account "dex" := {["uerth" := 2 * 10 ^ 10]}]> funds;
     w_shielded := 0; w_earth := empty_earth;
     w_dex := set_k_LiquidityAuction (λ _, Some demo_auction) empty_store |}.

Lemma no_pools_inv s :
  k_Pool s = ∅ → k_PoolSeq s = 0 → k_PoolByToken s = ∅ → k_LpRewardIndex s = None → k_PendingLpRewards s = None →
  k_LpTotalVolume s = None → k_TotalPoolErth s = None → pools_inv s.
Proof.
  intros E1 E2 E3 E4 E5 E6 E7. split; unfold total_volume, pending, lp_index; rewrite ?E1, ?E2, ?E3, ?E4, ?E5, ?E6, ?E7; done.
Qed.

Lemma no_unbond_inv s : k_LpUnbondings s = ∅ → k_LpUnbondingsByAddr s = ∅ → unbond_inv s.
Proof.
  intros E1 E2. split; rewrite ?E1, ?E2; [done|]. intros k. rewrite lookup_empty, elem_of_empty.
  split; [done|by intros [? [=]]].
Qed.

Lemma demo_params_ok s : k_Params s = Some demo_params → params_inv s.
Proof. intros E. exists demo_params. split; [done|]. vm_compute. by repeat split. Qed.

Lemma w0_dex_balance d : GetBalance (w_bank w0) dex_addr d = 0.
Proof.
  cbn [GetBalance demo_bank]. replace (book_ok (w_bank w0)) with true by (vm_compute; reflexivity). done.
Qed.

Lemma w0_inv : dex_inv w0.
Proof.
  split.
  - by apply no_pools_inv.
  - done.
  - by apply no_unbond_inv.
  - done.
  - by apply demo_params_ok.
  - intros t id. split; [by intros ?%elem_of_empty|done].
  - split; [intros d _|intros i _]; rewrite w0_dex_balance; [|done]. unfold owed. cbn. by case_bool_decide.
Qed.

Lemma held_by_insert (a : bytes) (m : gmap string Z) (b : book) d : held_by (<[a := m]> b) a d = default 0 (m !! d).
Proof. unfold held_by. by rewrite lookup_insert_eq. Qed.

Lemma a0_dex_balance d : GetBalance (w_bank a0) dex_addr d = if bool_decide (d = "uerth") then 2 * 10 ^ 10 else 0.
Proof.
  change (GetBalance (w_bank a0) dex_addr d) with (if book_ok (w_bank a0)
    then held_by (<[module_account "dex" := {["uerth" := 2 * 10 ^ 10]}]> funds) (module_account "dex") d else 0).
  replace (book_ok (w_bank a0)) with true by (vm_compute; reflexivity).
  rewrite held_by_insert. case_bool_decide as Hd.
  - subst. by rewrite lookup_singleton_eq.
  - by rewrite lookup_singleton_ne.
Qed.

Lemma a0_inv : dex_inv a0.
Proof.
  split.
  - by apply no_pools_inv.
  - cbn. split_and!; done.
  - by apply no_unbond_inv.
  - done.
  - by apply demo_params_ok.
  - intros t id. split; [by intros ?%elem_of_empty|done].
  - split.
    + intros d _. rewrite a0_dex_balance. unfold owed, auction_holds. cbn. change hub_denom with "uerth".
      rewrite (bool_decide_eq_false_2 (_ ∧ _)) by (by intros [? _]). by repeat case_bool_decide.
    + intros i Hi. rewrite a0_dex_balance, bool_decide_eq_false_2 by done. done.
Qed.

(** ** A pool at work

    alice creates a pool, bob trades and adds liquidity, alice begins a withdrawal, which matures. *)
Ltac demo_run :=
  lazymatch goal with
  | |- ?f ?w = Ok (?a, _) => refine (run_value f w a _)
  | |- ∃ _, ?f ?w = Ok (_, _) => refine (run_ok f w _)
  end; vm_compute; reflexivity.
Ltac demo_signer := let E := fresh in intros E; vm_compute in E; discriminate E.

Lemma alice_ok a : StringToBytes "alice" = Ok a → a ≠ dex_addr.
Proof. intros Ha ->. revert Ha. demo_signer. Qed.
Lemma bob_ok a : StringToBytes "bob" = Ok a → a ≠ dex_addr.
Proof. intros Ha ->. revert Ha. demo_signer. Qed.

Definition create_msg : MsgCreatePool :=
  {| cp_Creator := "alice"; cp_AmountA := mkCoin "uusdc" (2 * 10 ^ 9); cp_AmountB := mkCoin "uerth" (10 ^ 9) |}.
Definition w1 : World := run (CreatePool create_msg) w0.
Lemma w1_run : CreatePool create_msg w0 = Ok (0, w1).
Proof. demo_run. Qed.
Lemma w1_inv : dex_inv w1.
Proof. destruct (CreatePool_spec create_msg _ _ _ w0_inv ltac:(demo_signer) w1_run) as [Hi _]. exact Hi. Qed.

Definition swap_msg : MsgSwap :=
  {| sw_Creator := "bob"; sw_TokenIn := mkCoin "uerth" (10 ^ 6); sw_DenomOut := "uusdc"; sw_MinAmountOut := "1900000" |}.
Definition w2 : World := run (Swap swap_msg) w1.
Lemma w2_run : Swap swap_msg w1 = Ok (mkCoin "uusdc" 1988021, w2).
Proof. demo_run. Qed.
Lemma w2_inv : dex_inv w2.
Proof. destruct (Swap_spec swap_msg _ _ _ w1_inv ltac:(demo_signer) w2_run) as [Hi _]. exact Hi. Qed.

(** The emission's LP part, paid in over bob's volume. *)
Definition w3 : World := run (LPRewardsHandler (10 ^ 6)) w2.
Lemma w3_run : LPRewardsHandler (10 ^ 6) w2 = Ok (10 ^ 6, w3).
Proof. demo_run. Qed.
Lemma w3_inv : dex_inv w3.
Proof. destruct (LPRewardsHandler_spec (10 ^ 6) w2 _ _ w2_inv ltac:(done) w3_run) as [Hi _]. exact Hi. Qed.

Definition add_msg : MsgAddLiquidity :=
  {| al_Creator := "bob"; al_PoolId := 0; al_AmountA := mkCoin "uerth" (10 ^ 8); al_AmountB := mkCoin "uusdc" (3 * 10 ^ 8);
     al_MinShares := "1" |}.
Definition w4 : World := run (AddLiquidity add_msg) w3.
Lemma w4_run : ∃ sh, AddLiquidity add_msg w3 = Ok (sh, w4).
Proof. demo_run. Qed.
Lemma w4_inv : dex_inv w4.
Proof. destruct w4_run as [sh Hr]. destruct (AddLiquidity_spec add_msg _ _ _ w3_inv ltac:(demo_signer) Hr) as [Hi _]. exact Hi. Qed.

Definition remove_msg : MsgRemoveLiquidity :=
  {| rl_Creator := "alice"; rl_PoolId := 0; rl_Shares := mkCoin (LPShareDenom 0) (10 ^ 6); rl_Pc := []; rl_Ciphertext := [] |}.
Definition w5 : World := run (RemoveLiquidity remove_msg) w4.
Lemma w5_run : RemoveLiquidity remove_msg w4 = Ok (start_time + 604800, w5).
Proof. demo_run. Qed.
Lemma w5_inv : dex_inv w5.
Proof.
  destruct (RemoveLiquidity_spec remove_msg w4 _ _ w4_inv alice_ok w5_run) as [Hi _]. exact Hi.
Qed.

(** The withdrawal, matured. *)
Definition w6 : World := at_time (start_time + 700000) w5.
Lemma w6_inv : dex_inv w6.
Proof. apply at_time_inv, w5_inv. Qed.
Definition demo_entry : LpUnbonding :=
  {| ub_Address := "alice"; ub_PoolId := 0; ub_Shares := mkCoin (LPShareDenom 0) (10 ^ 6);
     ub_CompletionTime := start_time + 604800; ub_Pc := []; ub_Ciphertext := []; ub_ErthPc := []; ub_ErthCiphertext := [];
     ub_WithdrawalId := []; ub_PayoutAttempts := 0 |}.
Definition w7 : World := run (payoutUnbonding demo_entry LpUnbondNoteBudget) w6.
Lemma w7_run : payoutUnbonding demo_entry LpUnbondNoteBudget w6 = Ok (0, w7).
Proof. demo_run. Qed.

(** Another pool, all of whose shares were withdrawn and paid. *)
Definition remove_all_msg : MsgRemoveLiquidity :=
  {| rl_Creator := "alice"; rl_PoolId := 0; rl_Shares := mkCoin (LPShareDenom 0) (Z.sqrt (2 * 10 ^ 18));
     rl_Pc := []; rl_Ciphertext := [] |}.
Definition e1 : World := run (RemoveLiquidity remove_all_msg) w1.
Lemma e1_run : RemoveLiquidity remove_all_msg w1 = Ok (start_time + 604800, e1).
Proof. demo_run. Qed.
Lemma e1_inv : dex_inv e1.
Proof.
  destruct (RemoveLiquidity_spec remove_all_msg w1 _ _ w1_inv alice_ok e1_run) as [Hi _]. exact Hi.
Qed.
Definition e2 : World := run EndBlock (at_time (start_time + 700000) e1).
Lemma e2_inv : dex_inv e2.
Proof.
  destruct (EndBlock_ok _ (at_time_inv (start_time + 700000) _ e1_inv)) as (w' & Hr & Hi & _).
  unfold e2, run. by rewrite Hr.
Qed.
Definition e3 : World := run (AddLiquidity add_msg) e2.
Lemma e3_run : ∃ sh, AddLiquidity add_msg e2 = Ok (sh, e3).
Proof. demo_run. Qed.

(** ** The auction

    Governance opens it, alice and bob bid, it settles at its deadline, alice claims, and its liquidity
    begins to retire. *)
Definition gov : bytes := codes "gov".
Definition start_msg : MsgStartLiquidityAuction :=
  {| sa_Authority := "gov"; sa_BidDenom := "uusdc"; sa_DurationSeconds := 86400 |}.
Definition a1 : World := run (StartLiquidityAuction gov start_msg) a0.
Lemma a1_run : StartLiquidityAuction gov start_msg a0 = Ok (start_time + 86400, a1).
Proof. demo_run. Qed.
Lemma a1_inv : dex_inv a1.
Proof. destruct (StartLiquidityAuction_spec gov start_msg _ _ _ a0_inv a1_run) as [Hi _]. exact Hi. Qed.

Definition alice_bid : MsgBidLiquidityAuction := {| bd_Bidder := "alice"; bd_Amount := mkCoin "uusdc" (2 * 10 ^ 9) |}.
Definition bob_bid : MsgBidLiquidityAuction := {| bd_Bidder := "bob"; bd_Amount := mkCoin "uusdc" (10 ^ 9) |}.
Definition a2 : World := run (BidLiquidityAuction alice_bid) a1.
Lemma a2_run : BidLiquidityAuction alice_bid a1 = Ok (mkCoin "uusdc" (2 * 10 ^ 9), a2).
Proof. demo_run. Qed.
Lemma a2_inv : dex_inv a2.
Proof. destruct (BidLiquidityAuction_spec alice_bid _ _ _ a1_inv alice_ok a2_run) as [Hi _]. exact Hi. Qed.
Definition a3 : World := run (BidLiquidityAuction bob_bid) a2.
Lemma a3_run : BidLiquidityAuction bob_bid a2 = Ok (mkCoin "uusdc" (10 ^ 9), a3).
Proof. demo_run. Qed.
Lemma a3_inv : dex_inv a3.
Proof. destruct (BidLiquidityAuction_spec bob_bid _ _ _ a2_inv bob_ok a3_run) as [Hi _]. exact Hi. Qed.

Definition a4 : World := at_time (start_time + 86400) a3.
Lemma a4_inv : dex_inv a4.
Proof. apply at_time_inv, a3_inv. Qed.
Definition due_auction : LiquidityAuction :=
  {| la_Status := AUCTION_STATUS_OPEN; la_BidDenom := "uusdc"; la_EndTime := start_time + 86400;
     la_ErthForBidders := mkCoin "uerth" (10 ^ 10); la_ErthForPool := mkCoin "uerth" (10 ^ 10);
     la_TotalRaised := 3 * 10 ^ 9; la_PoolId := 0; la_Claimed := 0 |}.
Lemma a4_auction : k_LiquidityAuction (w_dex a4) = Some due_auction.
Proof. vm_compute. reflexivity. Qed.
Definition a5 : World := run (settleAuction due_auction) a4.
Lemma a5_run : settleAuction due_auction a4 = Ok ((), a5).
Proof. demo_run. Qed.
Lemma a5_inv : dex_inv a5.
Proof. destruct (settleAuction_spec due_auction _ _ a4_inv a4_auction eq_refl a5_run) as [Hi _]. exact Hi. Qed.

Definition claim_msg : MsgClaimLiquidityAuction := {| cl_Bidder := "alice" |}.
Definition a6 : World := run (ClaimLiquidityAuction claim_msg) a5.
Lemma a6_run : ClaimLiquidityAuction claim_msg a5 = Ok (mkCoin "uerth" 6666666666, a6).
Proof. demo_run. Qed.

Definition demo_pol : PolBurn :=
  {| pb_PoolId := 0; pb_TotalShares := 5477225575; pb_SharesRemaining := 5477225575;
     pb_StartTime := start_time + 86400; pb_DurationSeconds := PolBurnSeconds; pb_BurnToken := false |}.
Lemma a5_pol : k_PolBurns (w_dex a5) !! 0 = Some demo_pol.
Proof. vm_compute. reflexivity. Qed.
Definition a7 : World := run (advancePolBurn demo_pol (start_time + 10086400)) a5.
Lemma a7_run : advancePolBurn demo_pol (start_time + 10086400) a5 = Ok ((), a7).
Proof. demo_run. Qed.
Definition a8 : World := run (retirePolShares demo_pol 1000000) a5.
Lemma a8_run : ∃ r, retirePolShares demo_pol 1000000 a5 = Ok (r, a8).
Proof. demo_run. Qed.

(** ** The shielded pool's messages, on the pool of [w1] *)
Definition demo_bundle (nullifier : Z) (bals : list Balance) : Bundle :=
  {| bun_Actions := [{| act_Anchor := []; act_Nullifier := [nullifier]; act_Commitment := []; act_Cv := [];
                        act_Ciphertext := []; act_Proof := [] |}];
     bun_Balances := bals; bun_BindingSig := [] |}.
Definition note_swap_msg : MsgNoteSwap :=
  {| ns_Bundle := demo_bundle 1 [{| bal_Denom := "uerth"; bal_Amount := 1010000 |}];
     ns_DenomIn := "uerth"; ns_AmountIn := 1000000; ns_DenomOut := "uusdc"; ns_MinAmountOut := 1900000;
     ns_Pc := [1]; ns_Ciphertext := [] |}.
Definition n1 : World := run (executeNoteSwap note_swap_msg) w1.
Lemma n1_run : executeNoteSwap note_swap_msg w1 = Ok (mkCoin "uusdc" 1988021, 0, n1).
Proof. demo_run. Qed.

Definition add_shielded_msg : MsgAddLiquidityShielded :=
  {| as_Bundle := demo_bundle 2 [{| bal_Denom := "uerth"; bal_Amount := 100010000 |};
                                 {| bal_Denom := "uusdc"; bal_Amount := 300000000 |}];
     as_PoolId := 0; as_MinShares := "1"; as_ErthAmount := 100000000;
     as_SharePc := [1]; as_ShareCiphertext := []; as_RefundPc := [2]; as_RefundCiphertext := [] |}.
Definition n2 : World := run (executeAddShielded add_shielded_msg) w1.
Lemma n2_run : ∃ r, executeAddShielded add_shielded_msg w1 = Ok (r, n2).
Proof. demo_run. Qed.
Lemma n2_inv : dex_inv n2.
Proof.
  destruct n2_run as [[[[sh re] rt] pos] Hr].
  destruct (executeAddShielded_spec add_shielded_msg _ _ _ _ _ _ w1_inv Hr) as [Hi _]. exact Hi.
Qed.

Definition remove_shielded_msg : MsgRemoveLiquidityShielded :=
  {| rs_Bundle := demo_bundle 3 [{| bal_Denom := "uerth"; bal_Amount := 10000 |};
                                 {| bal_Denom := "dexlp/0"; bal_Amount := 1000000 |}];
     rs_PoolId := 0; rs_ErthPc := [1]; rs_ErthCiphertext := []; rs_TokenPc := [2]; rs_TokenCiphertext := [] |}.
Lemma n2_fresh : fresh_withdrawal remove_shielded_msg n2.
Proof.
  intros t id. enough (k_LpUnbondings (w_dex n2) = ∅) as -> by apply lookup_empty.
  vm_compute. reflexivity.
Qed.
Definition n3 : World := run (executeRemoveShielded remove_shielded_msg) n2.
Lemma n3_run : executeRemoveShielded remove_shielded_msg n2 = Ok (start_time + 604800, n3).
Proof. demo_run. Qed.

(** ** Governance, the days and the price *)
Definition params_msg : MsgUpdateParams :=
  {| up_Authority := "gov"; up_Params := {| SwapFee := 10 ^ 18; LpUnbondingSeconds := 86400; VolumeDepthCapPerDay := 0 |} |}.
Definition p1 : World := run (UpdateParams gov params_msg) w2.
Lemma p1_run : UpdateParams gov params_msg w2 = Ok ((), p1).
Proof. demo_run. Qed.

Definition w2_later : World := at_time (start_time + 3 * 86400) w2.
Definition d1 : World := run AdvanceVolumeIndex w2_later.
Lemma d1_run : AdvanceVolumeIndex w2_later = Ok ((), d1).
Proof. demo_run. Qed.

Definition pool_of (w : World) : Pool :=
  default (new_pool 0 zero_coin zero_coin 0) (k_Pool (w_dex w) !! 0).
Definition p2 : World := run (advancePriceCumulative 0 (pool_of w2)) w2_later.
Lemma p2_run : advancePriceCumulative 0 (pool_of w2) w2_later = Ok ((), p2).
Proof. demo_run. Qed.
Definition p3 : World := run (settlePoolRewards 0 (pool_of w3)) w3.
Lemma p3_run : ∃ p, settlePoolRewards 0 (pool_of w3) w3 = Ok (p, p3).
Proof. demo_run. Qed.
Definition p4 : World := run (applyVolume (pool_of w2) (10 ^ 9) start_time) w2.
Lemma p4_run : ∃ p, applyVolume (pool_of w2) (10 ^ 9) start_time w2 = Ok (p, p4).
Proof. demo_run. Qed.
Definition p5 : World := run AssertInvariants w5.
Lemma p5_run : AssertInvariants w5 = Ok ((), p5).
Proof. demo_run. Qed.

(** ** x/earth: two and a half seconds of emission, its burned half *)
Definition g0 : World := upd_earth (set_e_LastMintTime (λ _, Some (start_time * 10 ^ 9 - 2500001000))) w0.
Definition g1 : World := run (MintEmission "uerth") g0.
Lemma g1_run : MintEmission "uerth" g0 = Ok (2500001, g1).
Proof. demo_run. Qed.
Definition g2 : World := run SplitCollectedFees g1.
Lemma g2_run : SplitCollectedFees g1 = Ok ((), g2).
Proof. demo_run. Qed.
Definition g3 : World := run (mint_blocks "uerth" [start_time * 10 ^ 9; start_time * 10 ^ 9 + 1500000000]) g0.
Lemma g3_run :
  mint_blocks "uerth" [start_time * 10 ^ 9; start_time * 10 ^ 9 + 1500000000] g0 = Ok (4000001, g3).
Proof. demo_run. Qed.

Definition demo_coins_valid (cs : Coins) : bool :=
  bool_decide (NoDup (Denom <$> cs)) && forallb (λ c, 0 <? Amount c) cs.
Lemma demo_coins_valid_wf cs : demo_coins_valid cs = true → coins_wf cs.
Proof.
  intros [Hn Ha]%andb_true_iff. apply bool_decide_eq_true in Hn. split; [done|].
  rewrite forallb_forall in Ha. intros c Hc%list_elem_of_In. by apply Z.ltb_lt, Ha.
Qed.
Definition demo_genesis : EarthGenesis :=
  {| eg_Burned := [{| bt_Source := "gas_fees"; bt_Amount := [mkCoin "uerth" 7] |};
                   {| bt_Source := "swap_fee"; bt_Amount := [mkCoin "uerth" 5] |}];
     eg_LastMintTime := 1000 |}.
Definition g4 : World := run (EarthInitGenesis demo_coins_valid demo_genesis) w0.
Lemma g4_run : EarthInitGenesis demo_coins_valid demo_genesis w0 = Ok ((), g4).
Proof. demo_run. Qed.
