(* ===== verification/Witnesses.v ===== *)
(** * Witnesses

    Each property with hypotheses, applied to a state of [Demo.v] where they hold.  The instances are
    those of [HostModel.v], so the laws the theorems assume hold there too. *)

From S2P Require Export Demo.

Ltac is_closed := vm_compute; first [reflexivity | discriminate | intros E; discriminate E].

(** The runs of [Demo.v] as a reachable state. *)
Lemma w4_reachable : reachable gov w0 w4.
Proof.
  destruct w4_run as [sh Hr].
  eapply rtc_l; [apply (step_create_pool gov create_msg 0 _ w1); [demo_signer|exact w1_run]|].
  eapply rtc_l; [apply (step_swap gov swap_msg _ _ w2 ltac:(demo_signer) w2_run)|].
  eapply rtc_l; [apply (step_lp_rewards gov (10 ^ 6) _ _ w3 ltac:(done) w3_run)|].
  apply rtc_once, (step_add_liquidity gov add_msg sh _ w4); [demo_signer|exact Hr].
Qed.

Lemma reachable_solvent_witness : GetBalance (w_bank w4) dex_addr "uusdc" =
  map_sum (λ _, pool_holds "uusdc") (k_Pool (w_dex w4)) + 0 + 0.
Proof. destruct (reachable_solvent gov w0 w4 w0_inv w4_reachable) as [Hb _]. exact (Hb "uusdc" eq_refl). Defined.

Lemma end_block_never_halts_witness : ∃ w, EndBlock w4 = Ok ((), w).
Proof. exact (end_block_never_halts gov w0 w4 w0_inv w4_reachable). Defined.

Lemma swap_exact_witness : ∃ burn, 0 ≤ burn ∧
  ∀ d, GetSupply (w_bank w2) d = GetSupply (w_bank w1) d - (if bool_decide (d = hub_denom) then burn else 0).
Proof.
  destruct (swap_exact swap_msg w1 _ w2 w1_inv ltac:(demo_signer) w2_run)
    as (trader & minOut & burn & _ & _ & _ & _ & _ & Hb & _ & _ & Hs & _).
  exists burn. split; [exact Hb|exact Hs].
Defined.

Lemma payout_fair_share_witness : GetSupply (w_bank w7) (LPShareDenom 0) =
  GetSupply (w_bank w6) (LPShareDenom 0) - AmountOf [ub_Shares demo_entry] (LPShareDenom 0).
Proof.
  destruct (payout_fair_share demo_entry LpUnbondNoteBudget w6 0 w7 (di_pools _ w6_inv) w7_run)
    as (owner & p & p' & e & t & _ & _ & _ & _ & _ & _ & _ & _ & _ & Hs & _).
  exact (Hs (LPShareDenom 0)).
Defined.

Lemma sweep_loses_nothing_witness : ∃ w', SweepMaturedUnbondings w6 = Ok ((), w').
Proof. destruct (sweep_loses_nothing w6 w6_inv) as (w' & Hr & _). exists w'. exact Hr. Defined.

Lemma w4_no_dilution_base : GetSupply (w_bank w3) (LPShareDenom (al_PoolId add_msg)) ≠ 0.
Proof. is_closed. Qed.
Lemma deposit_never_dilutes_witness : ∃ sh, AddLiquidity add_msg w3 = Ok (sh, w4) ∧
  GetSupply (w_bank w4) (LPShareDenom 0) = GetSupply (w_bank w3) (LPShareDenom 0) + Amount sh.
Proof.
  destruct w4_run as [sh Hr]. exists sh. split; [exact Hr|].
  destruct (deposit_never_dilutes add_msg w3 sh w4 w3_inv ltac:(demo_signer) Hr w4_no_dilution_base)
    as (creator & p & p' & eI & tI & dE & dT & _ & _ & _ & _ & _ & Hs & _).
  exact Hs.
Defined.

Lemma hop_constant_product_witness : ∃ r, swapTokenForHub 1000000 2000000 5000 (5 * 10 ^ 17) = Ok r ∧
  1000000 * 2000000 ≤ newReserveErth r * newReserveToken r.
Proof.
  eexists. split; [vm_compute; reflexivity|].
  refine (proj1 (hop_constant_product 1000000 2000000 5000 (5 * 10 ^ 17) _ _ _ _ _ _));
    [lia|lia|lia|lia|left; vm_compute; reflexivity].
Defined.

Lemma hop_round_trip_no_profit_witness : ∃ r1 r2, swapHubForToken 1000000 2000000 5000 (5 * 10 ^ 17) = Ok r1 ∧
  swapTokenForHub (newReserveErth r1) (newReserveToken r1) (amountOut r1) (5 * 10 ^ 17) = Ok r2 ∧
  amountOut r2 ≤ 5000 - burnErth r1.
Proof.
  do 2 eexists. split; [vm_compute; reflexivity|]. split; [vm_compute; reflexivity|].
  refine (hop_round_trip_no_profit 1000000 2000000 5000 (5 * 10 ^ 17) _ _ _ _ _ _ _ _);
    [lia|lia|lia|lia|vm_compute; reflexivity|vm_compute; reflexivity].
Defined.

Lemma claim_pays_pro_rata_once_witness : ∃ a, k_LiquidityAuction (w_dex a6) = Some a ∧
  la_Claimed a ≤ Amount (la_ErthForBidders a).
Proof.
  destruct (claim_pays_pro_rata_once claim_msg a5 _ a6 a5_inv a6_run)
    as (bidder & a & a' & bid & _ & _ & _ & _ & _ & _ & _ & Ha & _ & Hc & _).
  exists a'. split; [exact Ha|exact Hc].
Defined.

Lemma settlement_seeds_pool_witness : k_PoolByToken (w_dex a5) !! "uusdc" = Some 0.
Proof.
  destruct (settlement_seeds_pool due_auction a4 a5 a4_inv a4_auction eq_refl ltac:(is_closed) a5_run)
    as (_ & _ & _ & Ht & _).
  exact Ht.
Defined.

Lemma retirement_follows_straight_line_witness :
  0 ≤ Z.min (pb_SharesRemaining demo_pol) (pb_TotalShares demo_pol - straight_line demo_pol (start_time + 10086400)).
Proof.
  destruct (retirement_follows_straight_line demo_pol (start_time + 10086400) a5 a7 a5_inv a5_pol
    ltac:(done) ltac:(done) a7_run) as ([Hr _] & _).
  exact Hr.
Defined.

Lemma retirement_burns_its_share_witness :
  GetBalance (w_bank a8) (codes "alice") "uerth" = GetBalance (w_bank a5) (codes "alice") "uerth".
Proof.
  destruct a8_run as [r Hr].
  destruct (retirement_burns_its_share demo_pol 1000000 a5 r a8 (di_pools _ a5_inv) ltac:(done) Hr)
    as (p & p' & e & t & _ & _ & _ & _ & _ & _ & _ & _ & _ & _ & _ & Hb).
  refine (Hb (codes "alice") "uerth" _). is_closed.
Defined.

Lemma lp_rewards_funded_witness : pending (w_dex w3) = pending (w_dex w2) + 10 ^ 6.
Proof. destruct (lp_rewards_funded (10 ^ 6) (10 ^ 6) w2 w3 w2_inv ltac:(done) w3_run) as (_ & Hp & _). exact Hp. Defined.

Lemma settle_pays_once_witness : settle_owed (w_dex p3) 0 (pool_of w3) = 0.
Proof.
  destruct p3_run as [p Hr].
  destruct (settle_pays_once 0 (pool_of w3) w3 p p3 ltac:(is_closed) ltac:(is_closed) Hr) as (_ & _ & _ & Hz & _).
  exact (Hz (pool_of w3)).
Defined.

Lemma exhaustive_check_sound_witness :
  total_volume (w_dex w5) = map_sum (λ _ p, pl_VolumeWeight p) (k_Pool (w_dex w5)).
Proof. destruct (exhaustive_check_sound w5 p5 p5_run) as (_ & Hv & _). exact Hv. Defined.

Lemma w2_auction_owed : auctionErthOwed w2 = Ok ((0, ""), w2).
Proof.
  assert (auctionErthOwed w2 = Ok ((0, ""), run auctionErthOwed w2)) as Hr by demo_run.
  pose proof (auctionErthOwed_ro _ _ _ Hr) as E. rewrite E in Hr. exact Hr.
Qed.
Lemma erth_check_exact_witness : checkErthSolvency w2 =
  (if GetBalance (w_bank w2) dex_addr hub_denom =? default 0 (k_TotalPoolErth (w_dex w2)) + 0 + pending (w_dex w2)
   then Ok ((), w2) else Err ErrInvariantBroken).
Proof. refine (erth_check_exact w2 0 "" w2_auction_owed _ _); split; is_closed. Defined.

Lemma remove_liquidity_files_entry_witness : k_Pool (w_dex w5) = k_Pool (w_dex w4).
Proof.
  destruct (remove_liquidity_files_entry remove_msg w4 _ w5 w4_inv ltac:(demo_signer) w5_run)
    as (owner & u & _ & _ & _ & _ & _ & _ & _ & _ & Hp & _).
  exact Hp.
Defined.

Lemma create_pool_fresh_witness : ∃ erth token, Denom erth = hub_denom ∧ Denom token ≠ hub_denom ∧
  k_PoolByToken (w_dex w1) !! Denom token = Some 0.
Proof.
  destruct (create_pool_fresh create_msg w0 0 w1 w0_inv ltac:(demo_signer) w1_run)
    as (creator & erth & token & _ & _ & He & Ht & _ & _ & _ & Hk & _).
  exists erth, token. split; [exact He|]. split; [exact Ht|exact Hk].
Defined.

Lemma e2_emptied : GetSupply (w_bank e2) (LPShareDenom (al_PoolId add_msg)) = 0.
Proof. vm_compute. reflexivity. Qed.
Lemma deposit_into_emptied_pool_witness : ∃ sh, AddLiquidity add_msg e2 = Ok (sh, e3) ∧
  GetSupply (w_bank e3) (LPShareDenom 0) = Amount sh.
Proof.
  destruct e3_run as [sh Hr]. exists sh. split; [exact Hr|].
  destruct (deposit_into_emptied_pool add_msg e2 sh e3 e2_inv ltac:(demo_signer) Hr e2_emptied)
    as (p' & dE & dT & _ & _ & _ & _ & _ & Hs).
  exact Hs.
Defined.

Lemma bid_counted_in_full_witness : ∃ a', la_TotalRaised a' ≤ MaxPoolAmount ∧
  map_sum (λ _ b, ab_Amount b) (k_AuctionBids (w_dex a3)) = la_TotalRaised a'.
Proof.
  destruct (bid_counted_in_full bob_bid a2 _ a3 a2_inv ltac:(demo_signer) a3_run)
    as (bidder & a & a' & bid & _ & _ & _ & _ & _ & _ & _ & _ & Hc & _ & _ & _ & Hs & _).
  exists a'. split; [exact Hc|exact Hs].
Defined.

Lemma note_swap_conserves_witness : solvent (w_bank n1) (w_dex n1).
Proof.
  destruct (note_swap_conserves note_swap_msg w1 _ _ n1 w1_inv n1_run) as (tokenIn & _ & _ & _ & _ & _ & _ & _ & Hs).
  exact Hs.
Defined.

Lemma private_deposit_conserves_witness : solvent (w_bank n2) (w_dex n2).
Proof.
  destruct n2_run as [[[[sh re] rt] pos] Hr].
  destruct (private_deposit_conserves add_shielded_msg w1 sh re rt pos n2 w1_inv Hr)
    as (p & erthIn & tokenIn & _ & _ & _ & _ & _ & _ & _ & _ & _ & _ & Hs).
  exact Hs.
Defined.

Lemma private_withdrawal_escrows_witness : k_Pool (w_dex n3) = k_Pool (w_dex n2).
Proof.
  destruct (private_withdrawal_escrows remove_shielded_msg n2 _ n3 n2_inv n2_fresh n3_run)
    as (u & _ & _ & _ & _ & _ & _ & Hp & _).
  exact Hp.
Defined.

Definition quote_world : World := run (SimulateSwapExactIn (mkCoin "uerth" (10 ^ 6)) "uusdc") w1.
Lemma quote_run : SimulateSwapExactIn (mkCoin "uerth" (10 ^ 6)) "uusdc" w1 = Ok (mkCoin "uusdc" 1988021, quote_world).
Proof. demo_run. Qed.
Definition bob_world : World := run (SwapExactIn (codes "bob") (mkCoin "uerth" (10 ^ 6)) "uusdc" 0) w1.
Lemma bob_run : SwapExactIn (codes "bob") (mkCoin "uerth" (10 ^ 6)) "uusdc" 0 w1 = Ok (mkCoin "uusdc" 1988021, bob_world).
Proof. demo_run. Qed.
Lemma quote_matches_swap_witness : quote_world = w1.
Proof.
  destruct (quote_matches_swap (codes "bob") (mkCoin "uerth" (10 ^ 6)) "uusdc" 0 w1 _ quote_world _ bob_world
    quote_run bob_run) as [Hw _].
  exact Hw.
Defined.

Lemma hop_within_cap_returns_witness : ∃ r, swapHubForToken MaxPoolAmount MaxPoolAmount MaxPoolAmount MaxSwapFee = Ok r.
Proof.
  refine (proj2 (hop_within_cap_returns MaxPoolAmount MaxPoolAmount MaxPoolAmount MaxSwapFee _ _ _ _));
    split; is_closed.
Defined.

Lemma volume_is_capped_witness : ∃ p, applyVolume (pool_of w2) (10 ^ 9) start_time w2 = Ok (p, p4) ∧
  total_volume (w_dex p4) = total_volume (w_dex w2) + pl_VolumeWeight p - pl_VolumeWeight (pool_of w2).
Proof.
  destruct p4_run as [p Hr]. exists p. split; [exact Hr|].
  refine (match volume_is_capped (pool_of w2) (10 ^ 9) start_time w2 p p4 _ _ _ Hr with
    | conj _ (conj _ (conj Ht _)) => Ht end).
  - split; is_closed.
  - done.
  - intros ps Hps. assert (k_Params (w_dex w2) = Some demo_params) as E by (vm_compute; reflexivity).
    rewrite E in Hps. injection Hps as <-. split; is_closed.
Defined.

Lemma decay_index_tracks_days_witness : volume_index (w_dex w2_later) ≤ volume_index (w_dex d1).
Proof.
  refine (proj1 (decay_index_tracks_days w2_later d1 19675 _ _ _ d1_run)); is_closed.
Defined.

Lemma price_accumulates_witness : k_PriceObservedAt (w_dex p2) =
  <[0 := unix w2_later]> (k_PriceObservedAt (w_dex w2_later)).
Proof.
  refine (match price_accumulates 0 (pool_of w2) w2_later p2 _ _ p2_run with conj _ (conj Ht _) => Ht end);
    [|split]; is_closed.
Defined.

Lemma MintEmission_prorated_witness : e_LastMintTime (w_earth g1) = Some (w_nanos g0).
Proof.
  refine (match MintEmission_prorated "uerth" g0 2500001 g1 _ _ g1_run with conj _ (conj Ht _) => Ht end); is_closed.
Defined.

Lemma emission_tracks_clock_witness : GetSupply (w_bank g3) "uerth" = GetSupply (w_bank g0) "uerth" + 4000001.
Proof.
  refine (proj2 (emission_tracks_clock "uerth" [start_time * 10 ^ 9; start_time * 10 ^ 9 + 1500000000] g0 4000001 g3
    (start_time * 10 ^ 9 - 2500001000) _ _ _ _ g3_run)).
  - vm_compute. reflexivity.
  - done.
  - intros t Ht. rewrite !elem_of_cons in Ht. destruct Ht as [->|[->|Ht]]; [done|done|by apply elem_of_nil in Ht].
  - repeat constructor; done.
Defined.

Lemma SplitCollectedFees_halves_witness : burned g2 SourceGasFees "uerth" = burned g1 SourceGasFees "uerth" +
  (GetBalance (w_bank g1) (NewModuleAddress FeeCollectorName) "uerth" + 1) / 2.
Proof. destruct (SplitCollectedFees_halves g1 g2 g2_run "uerth") as (_ & _ & Hb & _). exact Hb. Defined.

Definition g2_sources : World := run BurnedBySource g2.
Lemma g2_sources_run : ∃ bs, BurnedBySource g2 = Ok (bs, g2_sources).
Proof. demo_run. Qed.
Definition g2_total : World := run TotalBurned g2.
Lemma g2_total_run : ∃ t, TotalBurned g2 = Ok (t, g2_total).
Proof. demo_run. Qed.
Lemma burn_statistics_complete_witness : g2_sources = g2 ∧ g2_total = g2.
Proof.
  destruct g2_sources_run as [bs E1], g2_total_run as [t E2].
  destruct (burn_statistics_complete g2 bs t _ _ E1 E2) as (Ha & Hb & _). split; [exact Ha|exact Hb].
Defined.

Definition g4_exported : World := run EarthExportGenesis g4.
Lemma g4_exported_run : ∃ gs, EarthExportGenesis g4 = Ok (gs, g4_exported).
Proof. demo_run. Qed.
Lemma earth_genesis_round_trip_witness : ∃ gs, EarthExportGenesis g4 = Ok (gs, g4_exported) ∧
  eg_LastMintTime gs = Z.max 1000 (w_nanos w0).
Proof.
  destruct g4_exported_run as [gs Hr]. exists gs. split; [exact Hr|].
  destruct (earth_genesis_round_trip demo_coins_valid demo_genesis gs w0 g4 g4_exported demo_coins_valid_wf eq_refl g4_run Hr)
    as (_ & _ & _ & _ & Ht).
  exact Ht.
Defined.

Lemma update_params_guarded_witness : StringToBytes (up_Authority params_msg) = Ok gov.
Proof. exact (proj1 (update_params_guarded gov params_msg w2 p1 ltac:(done) ltac:(done) p1_run)). Defined.

Lemma retry_delay_backs_off_witness : LpUnbondRetryDelay 3 = 3600 * 2 ^ 2.
Proof. exact (proj1 (retry_delay_backs_off 3 ltac:(lia))). Defined.

Lemma auction_settles_at_deadline_witness : ∃ w', SettleDueAuction a4 = Ok ((), w').
Proof.
  destruct (auction_settles_at_deadline due_auction a4 a4_auction) as [_ Hd].
  destruct (Hd eq_refl ltac:(is_closed)) as [_ Hp].
  destruct (Hp ltac:(is_closed)) as (w' & Hr & _). exists w'. exact Hr.
Defined.

Lemma split_conserves_value_witness : ∃ l, SplitNoteValues (2 * MaxNoteValue + 5) = Ok l.
Proof. refine (proj2 (split_conserves_value (2 * MaxNoteValue + 5)) _). split; is_closed. Defined.
