(* ===== verification/DexWitnesses.v ===== *)
(** * x/dex: the genesis and private-message properties at concrete inputs

    A swap's private message with a well-formed bundle, a small genesis file imported over funded balances, and the state of
    a pool at work exported and imported again. *)

From S2P Require Export Demo DexMsgs DexExport ZkModel.

(** ** A private swap *)
Definition no_bytes (n : Z) : bytes := replicate (Z.to_nat n) 0.
Definition swap_action (k : Z) : ShieldedTypes.Action :=
  {| act_Anchor := FieldBytes 7; act_Nullifier := FieldBytes (100 + k); act_Commitment := FieldBytes (200 + k);
     act_Cv := PointBytes (grp_of (k + 1)); act_Ciphertext := no_bytes NoteCiphertextBytes; act_Proof := no_bytes ProofBytes |}.
Definition swap_bundle : ShieldedTypes.Bundle :=
  {| bun_Actions := [swap_action 1; swap_action 2];
     bun_Balances := [{| bal_Denom := "uerth"; bal_Amount := 1000 |}; {| bal_Denom := "uusdc"; bal_Amount := 500000 |}];
     bun_BindingSig := no_bytes BindingSigSize |}.
Definition private_swap_msg : DexPrivateMsg := NoteSwapMsg
  {| ns_Bundle := swap_bundle; ns_DenomIn := "uusdc"; ns_AmountIn := 500000; ns_DenomOut := "uerth"; ns_MinAmountOut := 1;
     ns_Pc := FieldBytes 5; ns_Ciphertext := no_bytes BlindCiphertextBytes |}.

Lemma private_swap_valid : is_ok (DexValidateBasic private_swap_msg) = true.
Proof. vm_compute. reflexivity. Qed.

Lemma amounts_typed_check (m : PrivateMsg) :
  forallb (λ b, forallb (λ bal, (0 <=? bal_Amount bal) && (bal_Amount bal <? 2 ^ 64)) (bun_Balances b)) (pm_Bundles m) = true →
  amounts_typed m.
Proof.
  rewrite forallb_forall. intros Hm b bal Hb%list_elem_of_In Hbal%list_elem_of_In. specialize (Hm b Hb). rewrite forallb_forall in Hm.
  specialize (Hm bal Hbal). lia.
Qed.

Lemma private_msg_releases_what_it_says_witness :
  0 < pm_Fee (dex_private private_swap_msg) ∧
  balances_of (dex_private private_swap_msg) "uusdc" = 500000 ∧ ReleasedDenoms private_swap_msg = Ok ["uusdc"].
Proof.
  assert (DexValidateBasic private_swap_msg = Ok ()) as Hv.
  { pose proof private_swap_valid as X. destruct (DexValidateBasic private_swap_msg) as [[]| |]; done. }
  destruct (private_msg_releases_what_it_says private_swap_msg) as (Hf & _ & rem & ds & _ & Hs & _ & _ & _ & Hb); [| |exact Hv|].
  - apply amounts_typed_check. vm_compute. reflexivity.
  - done.
  - split; [exact Hf|]. split; [|reflexivity]. rewrite Hb. cbn [says private_swap_msg ns_AmountIn] in Hs. destruct Hs as (-> & _).
    vm_compute. reflexivity.
Defined.

(** ** A genesis file

    One pool, a schedule that has retired nothing yet (its remaining shares left out), and an auction to come. *)
Definition demo_file : DexGenesis := {|
  dg_Params := demo_params;
  dg_PoolMap := [mkGenesisPool 3 (mkGenesisCoin "uerth" (Some (10 ^ 9))) (mkGenesisCoin "uusdc" (Some (2 * 10 ^ 9))) (Some 5000) 0];
  dg_LpUnbondings := [];
  dg_LiquidityAuction := Some (mkGenesisAuction AUCTION_STATUS_PENDING "" 0 (mkGenesisCoin "uerth" (Some (10 ^ 10)))
    (mkGenesisCoin "uerth" (Some (10 ^ 10))) None 0 None);
  dg_AuctionBids := [];
  dg_PolBurns := [mkGenesisPolBurn 3 (Some (10 ^ 6)) None start_time 86400 false];
  dg_PendingLpRewards := Some 77;
  dg_VolumeIndex := None;
  dg_VolumeIndexDay := 0;
  dg_PoolStaleDue := [];
  dg_PriceAccumulators := [mkPriceAccumulator 3 (Some 0) start_time] |}.

Definition file_coins : gmap string Z := list_to_map [("uerth", 21 * 10 ^ 9 + 77); ("uusdc", 2 * 10 ^ 9); ("dexlp/3", 10 ^ 6)].
Definition file_world : World :=
  {| w_nanos := start_time * 10 ^ 9; w_bank := <[module_account "dex" := file_coins]> funds;
     w_shielded := 0; w_earth := empty_earth; w_dex := new_store |}.

Lemma file_balance d : GetBalance (w_bank file_world) dex_addr d = default 0 (file_coins !! d).
Proof.
  change (GetBalance (w_bank file_world) dex_addr d) with (if book_ok (w_bank file_world)
    then held_by (<[module_account "dex" := file_coins]> funds) (module_account "dex") d else 0).
  replace (book_ok (w_bank file_world)) with true by (vm_compute; reflexivity). by rewrite held_by_insert.
Qed.

Lemma demo_codec_lower : codec_lower.
Proof. intros x y b. cbn. do 2 (destruct (_ || _); [done|]). intros [= <-] [= E%codes_inj]. by rewrite E. Qed.

Lemma demo_codec_case : codec_case.
Proof.
  assert (∀ x b, StringToBytes x = Ok b → b = codes (ToLower x)) as Hb.
  { intros x b. cbn. destruct (bool_decide (x = "")); [done|]. cbn [orb]. case_bool_decide as E; [|done]. intros [= <-]. by rewrite E. }
  intros x y b b' Hx%Hb Hy%Hb E. by rewrite Hx, Hy, E.
Qed.

Lemma demo_file_ok : file_ok demo_file.
Proof.
  split.
  - by intros p ->%list_elem_of_singleton.
  - done.
  - by intros p ->%list_elem_of_singleton.
  - intros a [= <-]. done.
Qed.

Lemma demo_file_words : words_ok demo_file.
Proof. split; [by repeat constructor|done]. Qed.

Lemma demo_file_all : nothing_else demo_file file_world.
Proof.
  intros d Hl Ha. rewrite file_balance. unfold file_coins. cbn [list_to_map foldr uncurry].
  rewrite !lookup_insert_ne, lookup_empty; [done|..]; intros <-; [done|apply Ha|apply Ha].
  - right. left. by left.
  - by left.
Qed.

Definition imported_world : World := run (DexInitGenesis demo_file) file_world.
Lemma imported_run : DexInitGenesis demo_file file_world = Ok ((), imported_world).
Proof. apply run_unit. vm_compute. reflexivity. Qed.

Lemma dex_genesis_gives_invariant_witness :
  dex_inv imported_world ∧ k_Pool (w_dex imported_world) !! 3 ≠ None ∧ k_PolBurns (w_dex imported_world) !! 3 =
    Some (Build_PolBurn 3 (10 ^ 6) (10 ^ 6) start_time 86400 false).
Proof.
  destruct (dex_genesis_gives_invariant demo_file file_world imported_world eq_refl demo_file_ok demo_file_words demo_codec_lower
    demo_file_all imported_run) as (_ & Hi & _ & [_ Hp _ _ _ _ _ _ _ _ _ _ _ _ _ _ _ Hb]). split; [exact Hi|]. split.
  - rewrite (proj2 (Hp 3 _) (ex_intro _ _ (conj (list_elem_of_here _ _) (conj eq_refl (proj2 (says_pool_in _ _) eq_refl))))). done.
  - apply Hb. eexists. split; [left|]. split; [done|]. by apply says_schedule_in.
Defined.

(** ** A chain that exports

    The pool of [w3], its volume and its unsettled rewards, and alice's withdrawal on its way. *)
Definition x1 : World := run (RemoveLiquidity remove_msg) w3.
Lemma x1_run : RemoveLiquidity remove_msg w3 = Ok (start_time + 604800, x1).
Proof. demo_run. Qed.
Lemma x1_inv : dex_inv x1.
Proof. destruct (RemoveLiquidity_spec remove_msg w3 _ _ w3_inv alice_ok x1_run) as [Hi _]. exact Hi. Qed.

Definition all_entries {K V} `{Countable K} (f : K → V → bool) (m : gmap K V) : bool := forallb (λ kv, f kv.1 kv.2) (map_to_list m).
Lemma all_entries_ok {K V} `{Countable K} (f : K → V → bool) (m : gmap K V) k v : all_entries f m = true → m !! k = Some v → f k v = true.
Proof.
  unfold all_entries. rewrite forallb_forall. intros Hf Hk. apply (Hf (k, v)), list_elem_of_In. by apply elem_of_map_to_list.
Qed.

Definition ok_is {A} `{EqDecision A} (r : outcome A) (a : A) : bool := match r with Ok x => bool_decide (x = a) | _ => false end.
Lemma ok_is_ok {A} `{EqDecision A} (r : outcome A) a : ok_is r a = true → r = Ok a.
Proof. unfold ok_is. destruct r; [|done..]. by intros ->%bool_decide_eq_true. Qed.

Lemma x1_exportable : exportable x1.
Proof.
  split.
  - vm_compute. discriminate.
  - by vm_compute.
  - intros id p Hp. apply (all_entries_ok (λ _ p, negb (bool_decide (Denom (pl_ReserveToken p) = "")))) in Hp; [|vm_compute; reflexivity].
    by apply negb_true_iff, bool_decide_eq_false in Hp.
  - by vm_compute.
  - intros a Ha. exfalso. assert (k_LiquidityAuction (w_dex x1) = None) as E by (vm_compute; reflexivity). congruence.
  - intros k b Hb. by apply (all_entries_ok (λ _ _, false)) in Hb; [|vm_compute; reflexivity].
  - intros k b Hb. by apply (all_entries_ok (λ _ _, false)) in Hb; [|vm_compute; reflexivity].
  - intros k u Hu. apply (all_entries_ok (λ k u, ok_is (LpUnbondingKey u) k && (0 <=? ub_CompletionTime u) &&
      bool_decide (ub_Pc u = []) && negb (bool_decide (ub_Address u = "")) && bool_decide (ub_WithdrawalId u = []) &&
      bool_decide (ub_ErthPc u = []) && bool_decide (ub_ErthCiphertext u = []))) in Hu; [|vm_compute; reflexivity].
    repeat (apply andb_true_iff in Hu as [Hu ?]).
    repeat match goal with H : bool_decide _ = true |- _ => apply bool_decide_eq_true in H
      | H : negb (bool_decide _) = true |- _ => apply negb_true_iff, bool_decide_eq_false in H end.
    split_and!; [by apply ok_is_ok|lia|]. by split_and!.
  - by vm_compute.
  - intros id. assert (k_PoolStaleDue (w_dex x1) = {[0 := start_time + PoolStaleSeconds]}) as -> by (vm_compute; reflexivity).
    rewrite lookup_singleton_is_Some. split.
    + intros <-. destruct (k_Pool (w_dex x1) !! 0) as [p|] eqn:E; [|by vm_compute in E]. exists p. split; [done|].
      apply (all_entries_ok (λ _ p, 0 <? pl_VolumeWeight p)) in E; [lia|vm_compute; reflexivity].
    + intros (p & Hp & _). apply (all_entries_ok (λ id _, id =? 0)) in Hp; [lia|vm_compute; reflexivity].
  - intros id t Ht. assert (∃ p, k_Pool (w_dex x1) !! 0 = Some p) as Hs by (vm_compute; by eexists).
    apply (all_entries_ok (λ id t, (id =? 0) && (0 <=? t))) in Ht; [|vm_compute; reflexivity].
    assert (id = 0) as -> by lia. split; [exact Hs|lia].
  - intros id c Hc. assert (∃ t, k_PriceObservedAt (w_dex x1) !! 0 = Some t) as Hs by (vm_compute; by eexists).
    apply (all_entries_ok (λ id c, (id =? 0) && (0 <=? c))) in Hc; [|vm_compute; reflexivity].
    assert (id = 0) as -> by lia. split; [exact Hs|lia].
Qed.

(** The next chain, before its genesis: the balances of this one, an empty store, a day later. *)
Definition x2 : World :=
  {| w_nanos := (start_time + 86400) * 10 ^ 9; w_bank := w_bank x1; w_shielded := 0; w_earth := empty_earth; w_dex := new_store |}.

Lemma dex_export_imports_witness :
  ∃ gs s1, DexExportGenesis x1 = Ok (gs, x1) ∧ DexInitGenesis gs x2 = Ok ((), upd_dex (λ _, s1) x2) ∧ mirrors (w_dex x1) s1.
Proof.
  destruct (dex_export_imports x1 x2 x1_inv x1_exportable demo_codec_case eq_refl eq_refl) as (gs & s1 & Hx & _ & Hr & Hm & _).
  exists gs, s1. by split_and!.
Defined.

(** ** A file the funding check lets through

    An open auction for a token a pool already trades: the token check leaves the pool to the auction's, and the auction's
    compares the bids alone.  The file of [clash_world] records twice the uusdc the account holds, and the import succeeds. *)
Definition clash_file : DexGenesis := {|
  dg_Params := demo_params;
  dg_PoolMap := [mkGenesisPool 3 (mkGenesisCoin "uerth" (Some (10 ^ 9))) (mkGenesisCoin "uusdc" (Some (10 ^ 9))) None 0];
  dg_LpUnbondings := [];
  dg_LiquidityAuction := Some (mkGenesisAuction AUCTION_STATUS_OPEN "uusdc" (start_time + 86400) (mkGenesisCoin "uerth" (Some (10 ^ 10)))
    (mkGenesisCoin "uerth" (Some (10 ^ 10))) (Some (10 ^ 9)) 0 None);
  dg_AuctionBids := [mkGenesisBid "alice" (Some (10 ^ 9)) false];
  dg_PolBurns := []; dg_PendingLpRewards := None; dg_VolumeIndex := None; dg_VolumeIndexDay := 0;
  dg_PoolStaleDue := []; dg_PriceAccumulators := [] |}.
Definition clash_world : World :=
  {| w_nanos := start_time * 10 ^ 9;
     w_bank := <[module_account "dex" := list_to_map [("uerth", 21 * 10 ^ 9); ("uusdc", 10 ^ 9)]]> funds;
     w_shielded := 0; w_earth := empty_earth; w_dex := new_store |}.

Lemma clash_accepted :
  DexGenesisValidate clash_file = Ok () ∧ is_ok (DexInitGenesis clash_file clash_world) = true ∧
  GetBalance (w_bank clash_world) dex_addr "uusdc" = 10 ^ 9 ∧
  owed (w_dex (run (DexInitGenesis clash_file) clash_world)) "uusdc" = 2 * 10 ^ 9.
Proof. split_and!; vm_compute; reflexivity. Qed.
