(* ===== verification/AllocWitnesses.v ===== *)
(** * x/allocation: witnesses

    A chain as the app wires it, over the instances of [HostModel.v]: governance adds two Groundworks options, one for the
    community pool and one for alice, and one nobody will vote for; bob votes; time passes; alice's option is claimed; a
    block resolves the rest; the chain is exported and started again, and another is started from a file.  Each property is applied to a state of that run. *)

From S2P Require Export DexWitnesses Demo AllocExport.

(** ** The other modules: nobody stakes, everyone weighs the same *)
#[export] Instance demo_view : StakingView := {
  other_state := unit;
  staking_validator := unit;
  GetValidator _ _ := Err (Plain "validator does not exist");
  IsBonded _ := false;
  TokensFromSharesTruncated _ _ := Ok 0;
  DelegatorDelegations _ _ := Ok [];
  GetDelegatorBonded _ _ := Ok 0;
  ValAddressFromBech32 _ := Ok [];
  DecRoundInt x := Ok (Z.max 0 x);
}.

Definition demo_fund : Coins → bytes → prog ext () :=
  λ coins sender, in_world (bank (SendCoinsFromAccountToModule sender "distribution" coins)).
Definition demo_sources : gmap Z WeightSource :=
  {[ STREAM_ID_GROUNDWORKS := mkWeightSource (λ _ _, Ok 1000000) (Some (λ _, false)) ]}.
Definition gov_bytes : bytes := codes "gov".
#[export] Instance demo_env : AllocEnv := app_env demo_fund gov_bytes (codes "chamber") demo_sources.

Lemma demo_funds_pool : funds_pool demo_fund.
Proof.
  intros coins sender x u x' Hwf Hr. unfold demo_fund in Hr. apply in_world_ok in Hr as (v & Hr & ->).
  apply bank_ok in Hr as (b & Hb & ->). split; [|done]. intros d. cbn [fst]. change (w_bank (set_w_bank b (fst x))) with b.
  apply SendA2M_spec in Hb as [Hbal _]. rewrite Hbal, !bd_some.
  assert (0 ≤ AmountOf coins d) by (apply AmountOf_nonneg; intros c Hc; apply Z.lt_le_incl; by apply Hwf). 
  repeat case_bool_decide; try congruence; lia.
Qed.

Lemma demo_weights : weights_nonneg demo_sources.
Proof. intros st src key x r Hs. unfold demo_sources in Hs. apply lookup_singleton_Some in Hs as [<- <-]. by intros [= <-]. Qed.

#[export] Instance demo_laws : AllocEnvLaws := app_laws demo_fund demo_funds_pool gov_bytes (codes "chamber") demo_sources demo_weights.

(** ** The run *)
Definition arun {A} (m : AM A) (w : AllocWorld) : AllocWorld := match m w with Ok (_, w') => w' | _ => w end.
Definition avalue {A} (m : AM A) (w : AllocWorld) : option A := match m w with Ok (a, _) => Some a | _ => None end.
Lemma arun_value {A} (m : AM A) w a : avalue m w = Some a → m w = Ok (a, arun m w).
Proof. unfold arun, avalue. destruct (m w) as [[b w']| |]; [|done..]. by intros [= ->]. Qed.
Ltac alloc_demo := match goal with |- ?f ?w = Ok (?a, _) => refine (arun_value f w a _) end; vm_compute; reflexivity.

Definition alloc_empty : AllocStore :=
  {| l_Params := Some (mkAllocParams 0 0); l_Options := ∅; l_OptionSeq := ∅; l_Voters := ∅; l_RewardIndex := ∅; l_TotalWeight := ∅;
     l_SummedWeight := ∅; l_LastUpkeep := ∅; l_Epoch := ∅; l_IntegratedOptions := ∅; l_SummedAccrued := None; l_Residue := None;
     l_PruneQueue := ∅; l_PruneDue := ∅; l_SlashedValidators := ∅; l_VoterLapses := ∅ |}.
Definition b0 : AllocWorld := mkAllocWorld alloc_empty (w0, ()).

Lemma b0_inv : alloc_inv b0.
Proof.
  split.
  - split; try done.
    + split; try done. split; cbn.
      * intros st id d. by rewrite lookup_empty, elem_of_empty.
      * intros st id. rewrite lookup_empty. by intros [? ?].
    + intros p [= <-]. done.
  - intros st key v. cbn. by rewrite lookup_empty.
  - vm_compute. split; [intros E; discriminate E|reflexivity].
  - vm_compute. intros E. discriminate E.
Qed.

Definition pool_msg : MsgAddIntegratedOption :=
  {| ai_Authority := "gov"; ai_Stream := STREAM_ID_GROUNDWORKS; ai_Description := "emergency fund"; ai_Handler := HandlerCommunityPool |}.
Definition alice_msg : MsgAddAddressOption :=
  {| aa_Submitter := "gov"; aa_Stream := STREAM_ID_GROUNDWORKS; aa_Description := "alice"; aa_Recipient := "alice"; aa_Claimer := "alice" |}.
Definition idle_msg : MsgAddAddressOption :=
  {| aa_Submitter := "gov"; aa_Stream := STREAM_ID_GROUNDWORKS; aa_Description := "idle"; aa_Recipient := "bob"; aa_Claimer := "" |}.
Definition bob_split : list AllocationWeight := [mkAllocationWeight 1 60; mkAllocationWeight 2 40].
Definition later (seconds : Z) (w : AllocWorld) : AllocWorld := mkAllocWorld (a_store w) (Demo.at_time seconds (a_world w), ()).
Definition claim_msg : MsgClaimAllocation := {| ca_Creator := "alice"; ca_Stream := STREAM_ID_GROUNDWORKS; ca_OptionId := 2 |}.

Definition b1 : AllocWorld := arun (AddIntegratedOption pool_msg) b0.
Definition b2 : AllocWorld := arun (AddAddressOption alice_msg) b1.
Definition b3 : AllocWorld := arun (AddAddressOption idle_msg) b2.
Definition b4 : AllocWorld := arun (ApplySplit STREAM_ID_GROUNDWORKS (codes "bob") bob_split) b3.
Definition b5 : AllocWorld := later (start_time + 100) b4.
Definition b6 : AllocWorld := arun (ClaimAllocation claim_msg) b5.
Definition b7 : AllocWorld := arun (ClaimAllocation claim_msg) b6.
Definition b8 : AllocWorld := arun alloc_BeginBlocker b7.
Definition b9 : AllocWorld := later (start_time + 31 * 24 * 60 * 60) b8.

Lemma b1_run : AddIntegratedOption pool_msg b0 = Ok (1, b1).
Proof. alloc_demo. Qed.
Lemma b2_run : AddAddressOption alice_msg b1 = Ok (2, b2).
Proof. alloc_demo. Qed.
Lemma b3_run : AddAddressOption idle_msg b2 = Ok (3, b3).
Proof. alloc_demo. Qed.
Lemma b4_run : ApplySplit STREAM_ID_GROUNDWORKS (codes "bob") bob_split b3 = Ok (1000000, b4).
Proof. alloc_demo. Qed.
Lemma b6_run : ClaimAllocation claim_msg b5 = Ok (40000000, b6).
Proof. alloc_demo. Qed.
Lemma b7_run : ClaimAllocation claim_msg b6 = Ok (0, b7).
Proof. alloc_demo. Qed.
Lemma b8_run : alloc_BeginBlocker b7 = Ok ((), b8).
Proof. alloc_demo. Qed.

(** ** Its invariant and its steps *)
Lemma bob_split_typed : typed_split bob_split.
Proof. repeat constructor; vm_compute; discriminate. Qed.

Lemma b1_step : alloc_step b0 b1.
Proof. apply (as_add_integrated pool_msg 1); [reflexivity|exact b1_run]. Qed.
Lemma b2_step : alloc_step b1 b2.
Proof. apply (as_add_address alice_msg 2); [reflexivity|vm_compute; discriminate|exact b2_run]. Qed.
Lemma b3_step : alloc_step b2 b3.
Proof. apply (as_add_address idle_msg 3); [reflexivity|vm_compute; discriminate|exact b3_run]. Qed.
Lemma b4_step : alloc_step b3 b4.
Proof. exact (as_apply _ _ _ _ _ _ bob_split_typed b4_run). Qed.
Lemma later_step seconds w :
  w_nanos (a_world w) ≤ seconds * 10 ^ 9 < 2 ^ 63 → alloc_step w (later seconds w).
Proof. intros Ht. by apply as_other. Qed.
Lemma b5_step : alloc_step b4 b5.
Proof. apply later_step. vm_compute. split; [discriminate|reflexivity]. Qed.
Lemma b6_step : alloc_step b5 b6.
Proof. exact (as_claim _ _ _ _ b6_run). Qed.
Lemma b7_step : alloc_step b6 b7.
Proof. exact (as_claim _ _ _ _ b7_run). Qed.
Lemma b8_step : alloc_step b7 b8.
Proof. exact (as_begin _ _ b8_run). Qed.
Lemma b9_step : alloc_step b8 b9.
Proof. apply later_step. vm_compute. split; [discriminate|reflexivity]. Qed.

Lemma b3_reachable : alloc_reachable b0 b3.
Proof. eapply rtc_l; [exact b1_step|]. eapply rtc_l; [exact b2_step|]. apply rtc_once, b3_step. Qed.
Lemma b5_reachable : alloc_reachable b0 b5.
Proof. etransitivity; [exact b3_reachable|]. eapply rtc_l; [exact b4_step|]. apply rtc_once, b5_step. Qed.
Lemma b9_reachable : alloc_reachable b0 b9.
Proof.
  etransitivity; [exact b5_reachable|]. eapply rtc_l; [exact b6_step|]. eapply rtc_l; [exact b7_step|].
  eapply rtc_l; [exact b8_step|]. apply rtc_once, b9_step.
Qed.
Lemma b3_inv : alloc_inv b3.
Proof. exact (alloc_reachable_inv _ _ b3_reachable b0_inv). Qed.
Lemma b5_inv : alloc_inv b5.
Proof. exact (alloc_reachable_inv _ _ b5_reachable b0_inv). Qed.
Lemma b9_inv : alloc_inv b9.
Proof. exact (alloc_reachable_inv _ _ b9_reachable b0_inv). Qed.

(** ** Witnesses *)
Lemma votes_carried_exactly_witness :
  weight_sum (a_store b9) STREAM_ID_GROUNDWORKS = 1000000 ∧
  ∀ o, l_Options (a_store b9) !! (STREAM_ID_GROUNDWORKS, 2) = Some o →
    op_AmountAllocated o = if op_Removed o then 0 else live (a_store b9) STREAM_ID_GROUNDWORKS 2.
Proof.
  destruct (votes_carried_exactly b0 b9 b0_inv b9_reachable) as (Ho & Ht & _). split.
  - rewrite <-(proj1 (Ht STREAM_ID_GROUNDWORKS)). vm_compute. reflexivity.
  - intros o Hl. exact (proj1 (Ho _ _ _ Hl)).
Defined.

Lemma wired_checks_never_fire_witness : alloc_AssertInvariants b9 = Ok ((), b9).
Proof.
  destruct (wired_checks_never_fire demo_fund gov_bytes (codes "chamber") demo_sources b0 b9 demo_funds_pool demo_weights b0_inv b9_reachable)
    as (_ & _ & Hc). exact Hc.
Defined.

Definition b5_settled : AllocWorld := arun (settleTo STREAM_ID_GROUNDWORKS ((start_time + 100) * 10 ^ 9)) b5.
Lemma b5_settled_run : settleTo STREAM_ID_GROUNDWORKS ((start_time + 100) * 10 ^ 9) b5 = Ok ((), b5_settled).
Proof. alloc_demo. Qed.
Lemma b5_time : 0 ≤ (start_time + 100) * 10 ^ 9 < 2 ^ 63.
Proof. vm_compute. split; [discriminate|reflexivity]. Qed.
Lemma b5_emission : stream_emission (a_store b5) STREAM_ID_GROUNDWORKS ((start_time + 100) * 10 ^ 9) = 100000000.
Proof. vm_compute. reflexivity. Qed.
Lemma settlement_mints_exactly_witness :
  GetSupply (w_bank (a_world b5_settled)) hub_denom = GetSupply (w_bank (a_world b5)) hub_denom + 100000000.
Proof.
  destruct (settlement_mints_exactly STREAM_ID_GROUNDWORKS _ b5 b5_settled b5_inv b5_time b5_settled_run) as (_ & _ & Hs & _).
  rewrite b5_emission in Hs. exact (Hs hub_denom).
Defined.

Lemma vote_moves_exactly_witness : ∃ v, l_Voters (a_store b4) !! (STREAM_ID_GROUNDWORKS, codes "bob") = Some v ∧
  vt_Percentages v = bob_split ∧ vt_ExpiresAt v = start_time + 365 * 86400.
Proof.
  destruct (vote_moves_exactly _ _ _ _ _ _ b3_inv bob_split_typed b4_run) as (_ & _ & _ & _ & _ & _ & _ & _ & Hv).
  destruct (Hv ltac:(discriminate) eq_refl) as (v & Hl & Hp & He & _). exists v. split; [exact Hl|]. split; [exact Hp|exact He].
Defined.

Lemma claim_pays_once_witness : claimed claim_msg 40000000 b5 b6 ∧ (0 : Z) = 0.
Proof.
  destruct (claim_pays_once claim_msg claim_msg b5 b6 b7 40000000 0 b5_inv b6_run eq_refl eq_refl b7_run) as (Hc & Hz & _).
  split; [exact Hc|exact Hz].
Defined.

Lemma lapse_sweep_terminates_witness :
  sweep_lapses 7 STREAM_ID_GROUNDWORKS (unix (a_world b5)) None b5 = sweep_lapses (S (size (l_VoterLapses (a_store b5)))) STREAM_ID_GROUNDWORKS (unix (a_world b5)) None b5.
Proof.
  exact (proj1 (proj2 (lapse_sweep_terminates STREAM_ID_GROUNDWORKS 7 None b5 b5_inv ltac:(vm_compute; lia)))).
Defined.

Lemma prune_takes_only_dead_witness : ∃ w', SweepPrunableOptions b9 = Ok ((), w') ∧ alloc_inv w'.
Proof. destruct (prune_takes_only_dead b9 b9_inv) as (w' & es & Hr & Hi & _). exists w'. split; [exact Hr|exact Hi]. Defined.

(** The idle option goes; bob's vote stands. *)
Lemma b9_pruned : (λ w, (is_ok (SweepPrunableOptions b9), bool_decide (is_Some (l_Options (a_store w) !! (STREAM_ID_GROUNDWORKS, 3))),
  bool_decide (is_Some (l_Options (a_store w) !! (STREAM_ID_GROUNDWORKS, 2))))) (arun SweepPrunableOptions b9) = (true, false, true).
Proof. vm_compute. reflexivity. Qed.

(** ** Export and import *)
Definition bob_vote : Voter := mkVoter bob_split 1000000 0 [] (start_time + 365 * 86400).
Definition b9_options : gmap (Z * Z) AllocationOption :=
  {[ (2, 1) := mkOption 1 2 "emergency fund" ALLOCATION_KIND_INTEGRATED "" HandlerCommunityPool "" 600000 (10 ^ 20) false 0;
     (2, 2) := mkOption 2 2 "alice" ALLOCATION_KIND_ADDRESS "alice" "" "alice" 400000 (10 ^ 20) false 0;
     (2, 3) := mkOption 3 2 "idle" ALLOCATION_KIND_ADDRESS "bob" "" "" 0 0 false 0 ]}.
Lemma b9_options_eq : l_Options (a_store b9) = b9_options.
Proof. vm_compute. reflexivity. Qed.
Lemma b9_voters_eq : l_Voters (a_store b9) = {[ (2, codes "bob") := bob_vote ]}.
Proof. vm_compute. reflexivity. Qed.
Lemma b9_index_eq : l_RewardIndex (a_store b9) = {[ 2 := 10 ^ 20 ]}.
Proof. vm_compute. reflexivity. Qed.

Lemma b9_exportable : alloc_exportable b9.
Proof.
  split.
  - eexists. vm_compute. reflexivity.
  - intros st id o. rewrite b9_options_eq. unfold b9_options.
    intros [[[= <- <-] <-]|[_ [[[= <- <-] <-]|[_ [[= <- <-] <-]%lookup_singleton_Some]]%lookup_insert_Some]]%lookup_insert_Some;
      (split; [right; left|]); (split; [reflexivity|]); by split.
  - intros st key v. rewrite b9_voters_eq. intros [[= <- <-] <-]%lookup_singleton_Some. split; [right; left|]. split.
    + by split.
    + exists "bob"%string. by split.
  - intros st. unfold idx_of. rewrite b9_index_eq. destruct (_ !! st) as [x|] eqn:E; [|done]. by apply lookup_singleton_Some in E as [_ <-].
Qed.

(** The same balances, 60 days on. *)
Definition relaunch : AllocWorld := mkAllocWorld alloc_new_store (a_ext (later (start_time + 91 * 24 * 60 * 60) b9)).
Lemma relaunch_time : 0 ≤ nanos_of relaunch < 2 ^ 63.
Proof. vm_compute. split; [discriminate|reflexivity]. Qed.
Lemma relaunch_held : held b9 ≤ held relaunch.
Proof. vm_compute. discriminate. Qed.
Lemma alloc_export_imports_witness :
  ∃ w1, l_Options (a_store w1) = b9_options ∧ l_Voters (a_store w1) !! (2, codes "bob") = Some bob_vote ∧
    (start_time + 365 * 86400, 2, codes "bob") ∈ l_VoterLapses (a_store w1) ∧ alloc_inv w1.
Proof.
  destruct (alloc_export_imports b9 relaunch b9_inv b9_exportable demo_codec_lower demo_codec_case eq_refl relaunch_time relaunch_held)
    as (gs & w1 & _ & _ & _ & _ & Hc & Hi). exists w1.
  assert (l_Voters (a_store w1) !! (2, codes "bob") = Some bob_vote) as Hb.
  { rewrite (co_voters _ _ Hc), b9_voters_eq, lookup_singleton_eq. vm_compute. reflexivity. }
  split; [rewrite (co_options _ _ Hc); exact b9_options_eq|]. split; [exact Hb|]. split; [|exact Hi].
  apply (co_lapses _ _ Hc). exists bob_vote. split; [exact Hb|]. split; [reflexivity|discriminate].
Defined.

(** A file with the fund's option not settled since the start: its 60 ERTH are in the account. *)
Definition fund_file : StreamState := {|
  xs_Stream := STREAM_ID_GROUNDWORKS; xs_RewardIndex := Some (10 ^ 20); xs_TotalWeight := Some 1000000; xs_Epoch := 3;
  xs_LastUpkeep := start_time * 10 ^ 9; xs_OptionSeq := 2;
  xs_Options := [mkGenesisOption 1 2 "emergency fund" ALLOCATION_KIND_INTEGRATED "" HandlerCommunityPool "" (Some 600000) (Some 0) false (Some 0);
    mkGenesisOption 2 2 "alice" ALLOCATION_KIND_ADDRESS "alice" "" "alice" (Some 400000) (Some (10 ^ 20)) false (Some 7)];
  xs_Voters := [mkVoterEntry "bob" bob_split (Some 1000000) 3 [] (start_time + 365 * 86400)] |}.
Definition alloc_file : AllocGenesis := mkAllocGenesis (mkAllocParams 0 0) [fund_file] None (Some 3).
Definition started : AllocWorld := arun (AllocInitGenesis alloc_file) relaunch.
Lemma started_run : AllocInitGenesis alloc_file relaunch = Ok ((), started).
Proof. alloc_demo. Qed.
Lemma alloc_file_words : alloc_words_ok alloc_file.
Proof. split; [|done]. repeat constructor; vm_compute; discriminate. Qed.
Lemma alloc_file_votes : votes_match alloc_file.
Proof. repeat constructor; vm_compute; congruence. Qed.
Lemma alloc_file_covered : unsettled_covered alloc_file relaunch.
Proof. vm_compute. discriminate. Qed.
Lemma alloc_genesis_gives_invariant_witness :
  alloc_inv started ∧ (STREAM_ID_GROUNDWORKS, 1) ∈ l_IntegratedOptions (a_store started) ∧
  l_Residue (a_store started) = Some 3 ∧ l_Epoch (a_store started) !! STREAM_ID_GROUNDWORKS = Some 3 ∧
  (upkeep_of (a_store started) STREAM_ID_GROUNDWORKS = 0 ∨ (start_time + 91 * 24 * 60 * 60) * 10 ^ 9 ≤ upkeep_of (a_store started) STREAM_ID_GROUNDWORKS).
Proof.
  destruct (alloc_genesis_gives_invariant alloc_file relaunch started eq_refl relaunch_time alloc_file_words alloc_file_votes demo_codec_lower
    alloc_file_covered started_run) as (_ & Hi & _ & _ & Hfile & Hint & Hup).
  specialize (Hfile ltac:(discriminate)).
  split; [exact Hi|]. split; [apply Hint; eexists; split; [vm_compute; reflexivity|]; split; reflexivity|].
  split; [apply (rf_residue _ _ _ Hfile)|]. split; [|exact (Hup STREAM_ID_GROUNDWORKS)].
  apply (rf_epoch _ _ _ Hfile). exists fund_file. split; [by left|done].
Defined.

(** A fresh chain with the default genesis starts, with the three seeded options. *)
Lemma default_genesis_starts :
  (λ r, match r with
    | Ok (_, w) => (λ k, op_Handler <$> l_Options (a_store w) !! k) <$>
        [(STREAM_ID_CARETAKER, 1); (STREAM_ID_GROUNDWORKS, 1); (STREAM_ID_GROUNDWORKS, 2); (STREAM_ID_CARETAKER, 2)]
    | _ => []
    end) (AllocInitGenesis (mkAllocGenesis (mkAllocParams 0 0) [] (Some 0) (Some 0)) relaunch) =
  [Some HandlerRegistrationRewards; Some HandlerLPRewards; Some HandlerCommunityPool; None].
Proof. vm_compute. reflexivity. Qed.
